(* ===== verification/_CoqProject ===== *)
-Q . S2P
Prelude.v
Util.v
Replacement.v
PteHeader.v
CompactHashPageTable.v
CompactTableLines.v
PageTable.v
SingleThreadCache.v
SingleThreadCacheSpec.v
SharedSingleThreadCache.v
SharedSingleThreadCacheSpec.v
SharedServer.v
SharedServerData.v
SharedServerSpec.v
SharedServerUse.v
SharedServerCall.v
SharedServerSystem.v
ImmediateTransfers.v
ImmediateFlush.v
MemoryPool.v
IoBackend.v
IoBackendSpec.v
PartitionType.v
PartitionClient.v
PartitionServer.v
PartitionProtocol.v
PartitionLink.v
PartitionCall.v
SharedCache.v
SharedCacheIo.v
SharedCacheSpec.v
PartitionPoll.v
PartitionAnswers.v
PartitionUse.v
SharedClient.v
SharedCacheTrace.v
DirectCache.v
PrivateCache.v
IntegratedCache.v
CachedPtr.v
SpaceSpec.v
CachedAllocator.v
Bind.v
Contents.v
BindSpec.v
SegfaultHandler.v
BindState.v
PrivateCacheSpec.v
DirectCacheSpec.v
IntegratedCacheSpec.v
CacheFlush.v
PageAccess.v
AccessCounter.v
