(* ===== verification/Prelude.v ===== *)
(** * TriCache: a verified model of the user-level block cache

    TriCache gives a program a virtual address space larger than memory, backed
    by block devices, without the kernel's page cache.  This library models the
    C++ of [src/include] and [src/bind] and proves it correct.

    ** The program and its parts

    The address space is cut into pages ([include/type.hpp]) that are dealt out
    round-robin to partitions ([include/partitioner.hpp]).  A partition belongs to
    one server thread, which owns its frames, its page table and its device; it
    is the only one that moves pages between frames and device.  Clients pin
    resident pages by a compare-and-swap in the partition's page table and only
    send a message when a page is not resident or when the server's replacement
    policy must learn of the pin.  Over this shared cache every thread has a
    private cache, whose frames are pins of the shared one, and a direct cache,
    a table of pages that stay pinned in the private cache.  The binding gives
    unmodified programs addresses with the top bit set for the cached space and
    replaces the memory functions, the allocation calls, [read], [write] and
    [mmap]; code that is not instrumented faults and is emulated.

    ** The files and the code they model

    - [Prelude]: outcomes of C++ code ([result]: a value, an exception, a failed
      assertion, undefined behaviour, or fuel that ran out), machine words with
      their wrap-around, arrays, and the tactics and hints of the library.
    - [Util]: [include/type.hpp], [nextPowerOf2] of [include/util.hpp] and
      [RoundRobinPartitioner] of [include/partitioner.hpp].
    - [Replacement]: [LRU] and [Clock] of [include/replacement.hpp], and the class
      [Replacement] the caches are written against, with its laws.
    - [PteHeader], [CompactHashPageTable]: [include/compact_hash_page_table.hpp],
      the packed entry header with its compare-and-swap loops run by any number
      of threads, and the table of cache lines with its buckets and line pool;
      [CompactTableLines]: which calls leave a line of the pool without a user.
    - [PageTable]: the two tables of [include/page_table.hpp] and the entry of
      [include/single_thread_cache.hpp]; the class [PageTable] with its laws.
    - [SingleThreadCache], [SingleThreadCacheSpec]:
      [include/single_thread_cache.hpp], one definition per phase of [process].
    - [SharedSingleThreadCache], [SharedSingleThreadCacheSpec], [SharedServer],
      [SharedServerData], [SharedServerSpec], [SharedServerUse],
      [SharedServerCall], [SharedServerSystem]:
      [include/shared_single_thread_cache.hpp], its eviction loop, its invariant
      under direct pins, the place of every page's contents, what the server knows
      in the middle of a call while clients pin and unpin, and the system of a
      server with its users as a step relation;
      [ImmediateTransfers], [ImmediateFlush]: the same class when the transfers
      end at once.
    - [MemoryPool]: [include/memory_pool.hpp].
    - [IoBackend], [IoBackendSpec]: [include/io_backend.hpp].
    - [PartitionType], [PartitionClient], [PartitionServer], [PartitionProtocol]:
      [include/partition_type.hpp], [include/partition_client.hpp] and
      [include/partition_server.hpp]; the last file runs one client and one server
      over their slots with single loads and stores interleaved.
    - [SharedCache], [SharedCacheIo], [SharedCacheSpec]:
      [include/shared_cache.hpp], its callbacks and the clients' calls; the
      eviction and load functions against the contract of [SharedServerData]; the
      partition as a whole.  [PartitionPoll]: the polls of its requests end.
    - [PartitionLink], [PartitionCall], [PartitionAnswers], [PartitionUse],
      [SharedClient], [SharedCacheTrace]: the code of the last two groups put
      together, a client of the shared cache with all its servers.  A lane is what
      a server, its slots and the client's fields for it hold, and the stages of
      its batch; a call of the client or a round of a server changes one lane; a
      family of lanes with a measure that the rounds lower gives the end of a call;
      [PartitionAnswers] and [PartitionUse] say what a partition answers and what
      its users may change; [SharedClient] has the calls, [SharedCacheTrace] the
      sequences of calls.
    - [DirectCache], [DirectCacheSpec]: [include/direct_cache.hpp];
      [PrivateCache], [PrivateCacheSpec]: [include/private_cache.hpp];
      [IntegratedCache], [IntegratedCacheSpec]:
      [include/integrated_cache.hpp]; [CacheFlush]: the flush of these; [PageAccess]: [get] and [set] of the shared
      and the private cache; [AccessCounter]: [include/access_counter.hpp].
    - [CachedPtr]: [include/cached_ptr.hpp], over the class [Space] of what a
      pointer uses of a cache.  [SpaceSpec]: the laws of that class, [PinSpec] for
      caches that pin and [SpaceSpec] for caches that also give access.  [sp_fits]
      says for how many pins there are frames; a pin beyond them is not promised.
    - [CachedAllocator]: [include/cached_allocator.hpp] and
      [include/mmap_allocator.hpp].
    - [Bind], [Contents], [BindSpec], [BindState]: [bind/cache.cpp] and [bind/hook.cpp];
      [SegfaultHandler]: [bind/segfault_handler.cpp].

    A method is a function from the state of its object to a [result] with the
    new state, with the name it has in the code.  Templates are functions of
    their arguments, or of a type class when the argument is a class
    ([Replacement], [PageTable], [Backend], [PinCache], [SharedInterface],
    [Space]).  A method that returns to be called again while I/O is under way
    ([process]) is a function of its context, called as often as its user does.

    ** What is proved

    - The shared cache is a memory: over the in-memory backend, any sequence of
      pins, unpins, loads and stores of a client, through the pointers its pins
      returned and with rounds of the servers in between, returns and reads what
      it would from a flat memory ([SharedCacheTrace.shared_cache_is_memory]).
      This composes the table, the servers' state machines, their loops and the
      messages: a pinned page stays where it is, a pin is answered after a bounded
      number of rounds, and notifications wait in the batches meanwhile.
      Between two tests of a reply the servers take turns in any order and number,
      so long as each has at least one (the parameter [env] and [fair]).
    - One partition under any users: clients pin and unpin at any time, also
      between the accesses of a call of the server, and notifications come late
      and in any order.  In every run a pinned page is mapped, has the pins that
      are held and is never evicted, a pin is answered, a poll of a waiting
      request calls the function it waits for, and over the in-memory backend a
      waiting request is done at its sixth poll at the latest.  The contents are
      right, that is a pinned page's frame and the store of a page that is not in
      memory hold what was last written to it, in the runs in which no page is
      locked for eviction whose dirty flag was set after the server had read it
      ([SharedCacheSpec.partition_refines_memory], the [shared_] theorems of
      [SharedServerSystem] and [PartitionPoll], which have [stale] for the other
      runs).  In those the code loses stores: it reads the flag of a candidate
      before it locks the entry and does not read it again
      ([SharedServerSystem.outdated_flag_loses_store], with a run that ends with
      the pinned page as it was before the store).  The I/O functions enter
      through [IoContract], which [SharedCacheIo] proves for the functions of the
      code with the in-memory backend; the code builds with SPDK by default, whose
      transfers end when the device says so, and no bound on polls is claimed of it.
    - The single-threaded cache is one as well, over any page table, replacement
      policy and I/O functions that meet their laws ([SingleThreadCacheSpec]);
      its flush is not always complete ([flush_skips_pending]).
    - The parts below: the page table refines a map and has a line for every page as
      long as no line is left without an entry in use,
      its header updates are linearizable, both simple tables agree, [LRU]
      refines a list of recent use, [Clock] terminates and gives a second chance,
      the partitioner is a bijection, the backends lose and repeat no request.
    - Messages: a request is read as it was written, every message is handled
      once and answered under every interleaving, a waiting client is never
      stuck, and client ids are unique.
    - The private caches of a thread make any shared cache that pins into one
      that pins each page once there, however often the thread pins it
      ([PrivateCacheSpec]).  The direct cache makes any cache that pins into one
      that gives access ([DirectCacheSpec]: the instance [direct_spec] and its
      theorems), gives all its pins back when flushed, and keeps a stale entry
      after an exception.  The integrated cache is the composition
      ([IntegratedCacheSpec]): an access through all layers and a [memcpy] of a
      new thread are right over any shared cache that pins, and a flush gives all
      pins back ([CacheFlush]); the direct cache holds
      half of a partition's frames at most when the partitions are a power of two.
    - Against these laws the binding's [memcpy], [memmove], [memset], [memcmp],
      [strcat] and their kin are the flat functions on every mix of raw and cached
      ranges ([BindSpec]); [malloc] tags exactly the addresses of the cached space
      and gives out disjoint blocks ([BindState], [CachedAllocator]); a fault at a
      cached address is emulated ([SegfaultHandler]); a thread starts on a
      least-loaded processor.

    Flaws of the code the model showed are theorems that exhibit them, or are
    remarked where they are modelled: a copy that ends at the end of the space
    throws, a store between the read of a dirty flag and the lock is lost, the
    eviction loop can run dry, an allocation may extend past the space, the result
    of a faulting load into its own base register is lost.

    ** Fuel and bounds

    Loops over a list or a range are structural.  A loop that waits for another
    thread, for I/O or for the end of a string takes fuel, and [OutOfFuel] is its
    own outcome: theorems say for which fuel it does not occur (one more than the
    number of candidates for the eviction loop, one more than twice the number of
    frames for [Clock::pop], the number of bytes for the copies, one more than the
    length for strings).  Integers are [Z] with
    the wrap-around written where the code can reach it; addresses of the program
    are assumed below [2^63] and the space at most [2^62] bytes, as the tag bit
    and the devices have it.

    ** What is not modelled

    The compiler plugins ([llvm-plugin]) transform the data structures of LLVM and
    consist of its calls.  Memory fences, thread binding, the opening and mapping
    of files and devices, SPDK's environment and its statistics, and printing are
    calls of the platform and parameters where something depends on their result.
    Mutexes of the binding and the allocator make their sections atomic, so each
    is one step here; parallel loops run in order.  Memory is sequentially
    consistent, except that [PartitionProtocol] makes the stores of a slot
    visible one by one.  A call of [process] is cut where clients can
    meet it ([SharedServerSystem.step]): it reads the entry of its page, and
    changes it later by a compare-and-swap; the eviction loop reads the entry of a
    candidate, and later tries to lock it.  Each of these accesses is one step, and
    clients pin and unpin between them.  What is one step beyond that is the
    server's own state, or entries that are absent or locked, which clients do not
    change; the search for a line in the chains of the table, which only the
    server extends, is part of the access it is for.  The theorem about the shared
    cache as a whole ([SharedCacheTrace]) has one client at work, the others being
    quiet: it waits for its answer whenever a server moves pages, and a round of a
    server is one step there.  Several users of a partition at once are those of
    [SharedServerSystem].  Its sequences have
    fewer than [2^63] calls, since the epochs of the messages wrap after [2^64],
    which the client's poll does not survive; for this reason the shared cache
    enters the layers above it as a [PinSpec] that is assumed, not as an instance.
    Three simplifications of the layers above it: [IntegratedCache.flush] leaves out
    that the destructor of a private cache flushes once more, which finds nothing,
    and gives its client id back; [DirectCache.miss] drops what a pin that throws
    has done to the cache below; and [CachedAllocator.bump] adds to the used space,
    tests and takes off again in one step, which differs only when the sizes in
    flight wrap [2^64].
    Benchmarks, the playground, scripts and plots are not part of the library;
    [deps] is third-party code. *)
From Stdlib Require Export ZArith Lia.
From stdpp Require Export base tactics option list numbers strings relations.

Open Scope Z_scope.

(** ** Outcomes of C++ code

    [Throw] is a C++ exception with its message, [AssertFail] an [assert]
    that fires, [Undefined] an out-of-range access or another undefined
    behaviour, [OutOfFuel] a loop that did not finish within the fuel the
    model gave it.  Theorems about loops show that the last one does not
    occur for the fuel chosen. *)
Inductive error :=
  | Throw (msg : string)
  | AssertFail
  | Undefined
  | OutOfFuel.

Inductive result (A : Type) :=
  | Ok (a : A)
  | Err (e : error).
Arguments Ok {A} _.
Arguments Err {A} _.

#[global] Instance error_eq_dec : EqDecision error.
Proof. solve_decision. Defined.
#[global] Instance result_eq_dec `{EqDecision A} : EqDecision (result A).
Proof. solve_decision. Defined.

#[global] Instance result_ret : MRet result := @Ok.
#[global] Instance result_bind : MBind result := fun A B f m =>
  match m with Ok a => f a | Err e => Err e end.
#[global] Instance result_fmap : FMap result := fun A B f m =>
  match m with Ok a => Ok (f a) | Err e => Err e end.

(** [assert(b)] of the code. *)
Definition assert (b : bool) : result () := if b then Ok tt else Err AssertFail.

(** [if (!b) throw std::runtime_error(msg)]. *)
Definition ensure (b : bool) (msg : string) : result () :=
  if b then Ok tt else Err (Throw msg).

Definition is_ok {A} (r : result A) : bool := match r with Ok _ => true | Err _ => false end.

Section result_lemmas.
Context {A B : Type}.
Implicit Types (m : result A) (k : A → result B).

Lemma bind_Ok m k b : (m ≫= k) = Ok b ↔ ∃ a, m = Ok a ∧ k a = Ok b.
Proof. destruct m as [a|e]; simpl; naive_solver. Qed.

Lemma bind_Ok_l a k : (Ok a ≫= k) = k a.
Proof. done. Qed.

Lemma bind_rew m a k : m = Ok a → (m ≫= k) = k a.
Proof. by intros ->. Qed.

Lemma bind_Err_l e k : (Err e ≫= k) = Err e.
Proof. done. Qed.
End result_lemmas.

Lemma assert_Ok b u : assert b = Ok u ↔ b = true.
Proof. destruct b, u; simpl; naive_solver. Qed.

Lemma ensure_Ok b msg u : ensure b msg = Ok u ↔ b = true.
Proof. destruct b, u; simpl; naive_solver. Qed.

(** ** Fixed-width unsigned integers: the wrap-around is written out. *)
Definition w64 (z : Z) : Z := z mod 2 ^ 64.
Definition w32 (z : Z) : Z := z mod 2 ^ 32.
Definition w16 (z : Z) : Z := z mod 2 ^ 16.
Definition MAX64 : Z := 2 ^ 64 - 1.

(** Conversion of a 64-bit value to [int] and back to [uint64_t]: the value
    is truncated to 32 bits and sign extended. *)
Definition to_int32 (z : Z) : Z :=
  let r := z mod 2 ^ 32 in if r <? 2 ^ 31 then r else r - 2 ^ 32.

(** The signed reading of a 64-bit word. *)
Definition to_int64 (z : Z) : Z :=
  let r := z mod 2 ^ 64 in if r <? 2 ^ 63 then r else r - 2 ^ 64.

Lemma w64_small z : 0 ≤ z < 2 ^ 64 → w64 z = z.
Proof. apply Z.mod_small. Qed.

Lemma w64_range z : 0 ≤ w64 z < 2 ^ 64.
Proof. apply Z.mod_pos_bound; lia. Qed.

Lemma to_int32_small z : 0 ≤ z < 2 ^ 31 → to_int32 z = z.
Proof.
  intros ?. unfold to_int32. rewrite Z.mod_small by lia.
  destruct (Z.ltb_spec z (2 ^ 31)); lia.
Qed.

Lemma to_int64_small z : 0 ≤ z < 2 ^ 63 → to_int64 z = z.
Proof. intros ?. unfold to_int64. rewrite Z.mod_small by lia. by rewrite (proj2 (Z.ltb_lt z _)) by lia. Qed.

(** ** Arrays and vectors indexed by machine words

    A C array is a list; reading or writing outside it is [Undefined]. *)
Section arrays.
Context {A : Type}.
Implicit Types (l : list A) (i j : Z) (x y : A).

Definition zget l i : option A := if decide (0 ≤ i) then l !! Z.to_nat i else None.
Definition zset l i x : list A := if decide (0 ≤ i) then <[Z.to_nat i := x]> l else l.

Definition aread l i : result A :=
  match zget l i with Some x => Ok x | None => Err Undefined end.
Definition awrite l i x : result (list A) :=
  match zget l i with Some _ => Ok (zset l i x) | None => Err Undefined end.

Definition zlen l : Z := Z.of_nat (length l).

Lemma zget_range l i x : zget l i = Some x → 0 ≤ i < zlen l.
Proof.
  unfold zget, zlen. case_decide; [|done].
  intros ?%lookup_lt_Some. lia.
Qed.

Lemma zget_is_Some l i : 0 ≤ i < zlen l → ∃ x, zget l i = Some x.
Proof.
  unfold zget, zlen. intros ?. rewrite decide_True by lia.
  apply lookup_lt_is_Some. lia.
Qed.

Lemma zget_None l i : zget l i = None ↔ i < 0 ∨ zlen l ≤ i.
Proof.
  unfold zget, zlen. case_decide; [|split; [lia|done]].
  rewrite lookup_ge_None. lia.
Qed.

Lemma zlen_zset l i x : zlen (zset l i x) = zlen l.
Proof. unfold zset, zlen. case_decide; [|done]. by rewrite length_insert. Qed.

Lemma zget_zset_eq l i x : 0 ≤ i < zlen l → zget (zset l i x) i = Some x.
Proof.
  unfold zget, zset, zlen. intros ?. rewrite !decide_True by lia.
  apply list_lookup_insert_eq. lia.
Qed.

Lemma zget_zset_ne l i j x : i ≠ j → zget (zset l i x) j = zget l j.
Proof.
  unfold zget, zset. intros ?. do 2 (case_decide; try done).
  apply list_lookup_insert_ne. lia.
Qed.

Lemma zget_zset l i j x :
  zget (zset l i x) j = if decide (i = j ∧ 0 ≤ i < zlen l) then Some x else zget l j.
Proof.
  case_decide as Hd.
  - destruct Hd as [<- ?]. by apply zget_zset_eq.
  - destruct (decide (i = j)) as [<-|]; [|by apply zget_zset_ne].
    unfold zget, zset, zlen in *. case_decide; [|done].
    rewrite list_insert_ge by lia. done.
Qed.

Lemma zget_nat l (n : nat) : zget l (Z.of_nat n) = l !! n.
Proof. unfold zget. rewrite decide_True by lia. by rewrite Nat2Z.id. Qed.

Lemma zget_replicate n x i : 0 ≤ i < Z.of_nat n → zget (replicate n x) i = Some x.
Proof.
  intros ?. unfold zget. rewrite decide_True by lia.
  apply lookup_replicate_2. lia.
Qed.

Lemma zget_replicate_inv n x i y : zget (replicate n x) i = Some y → y = x.
Proof. unfold zget. case_decide; [|done]. by intros [-> _]%lookup_replicate. Qed.

Lemma zlen_replicate n x : zlen (replicate n x) = Z.of_nat n.
Proof. unfold zlen. by rewrite length_replicate. Qed.

Lemma zset_id l i x : zget l i = Some x → zset l i x = l.
Proof.
  unfold zget, zset. case_decide; [|done]. apply list_insert_id.
Qed.

Lemma zset_zset l i x y : zset (zset l i x) i y = zset l i y.
Proof. unfold zset. case_decide; [|done]. apply list_insert_insert_eq. Qed.

Lemma aread_Ok l i x : aread l i = Ok x ↔ zget l i = Some x.
Proof. unfold aread. destruct (zget l i); naive_solver. Qed.

Lemma awrite_Ok l i x l' : awrite l i x = Ok l' ↔ 0 ≤ i < zlen l ∧ l' = zset l i x.
Proof.
  unfold awrite. destruct (zget l i) as [y|] eqn:E.
  - apply zget_range in E. naive_solver.
  - apply zget_None in E. split; [done|]. intros [? ?]. lia.
Qed.

Lemma aread_total l i : 0 ≤ i < zlen l → ∃ x, aread l i = Ok x ∧ zget l i = Some x.
Proof. intros [x Hx]%zget_is_Some. exists x. by rewrite aread_Ok. Qed.

Lemma awrite_total l i x : 0 ≤ i < zlen l → awrite l i x = Ok (zset l i x).
Proof. intros. by apply awrite_Ok. Qed.
End arrays.

(** A [std::vector] used as a stack: [back] and [pop_back]; both are undefined
    on an empty vector, which is the [None] here. *)
Definition vec_pop {A} (l : list A) : option (list A * A) :=
  match last l with
  | Some x => Some (take (length l - 1) l, x)
  | None => None
  end.

Section vectors.
Context {A : Type}.
Implicit Types (l : list A) (x : A).

Lemma vec_pop_snoc l x : vec_pop (l ++ [x]) = Some (l, x).
Proof.
  unfold vec_pop. rewrite last_snoc, length_app. simpl.
  do 2 f_equal. rewrite take_app_le by lia. apply take_ge. lia.
Qed.

Lemma vec_pop_Some l l' x : vec_pop l = Some (l', x) ↔ l = l' ++ [x].
Proof.
  split; [|intros ->; apply vec_pop_snoc].
  destruct l as [|y l0 _] using rev_ind; [done|].
  rewrite vec_pop_snoc. naive_solver.
Qed.

Lemma vec_pop_None l : vec_pop l = None ↔ l = [].
Proof.
  split; [|by intros ->].
  destruct l as [|y l0 _] using rev_ind; [done|]. by rewrite vec_pop_snoc.
Qed.
End vectors.

(** Choosing a value for every element of a list. *)
Lemma list_choose {A B} (P : A → B → Prop) (l : list A) :
  (∀ x, x ∈ l → ∃ y, P x y) → ∃ k, Forall2 P l k.
Proof.
  induction l as [|x l IH]; intros Hx; [by exists []|].
  destruct (Hx x) as [y Hy]; [by apply elem_of_cons; left|].
  destruct IH as [k Hk]; [intros z Hz; apply Hx; by apply elem_of_cons; right|].
  exists (y :: k). by constructor.
Qed.

(** Distinct elements have distinct images under a relation whose inverse is
    functional. *)
Lemma Forall2_NoDup {A B} (P : A → B → Prop) (l : list A) (k : list B) :
  (∀ x x' y, P x y → P x' y → x = x') → Forall2 P l k → NoDup l → NoDup k.
Proof.
  intros Hinj Hf. induction Hf as [|x y l k Hxy Hlk IH]; intros Hnd; [constructor|].
  apply NoDup_cons in Hnd as [Hx Hnd]. constructor; [|by apply IH].
  intros Hy. apply list_elem_of_lookup in Hy as [n Hn].
  destruct (Forall2_lookup_r _ _ _ _ _ Hlk Hn) as (x' & Hx' & Hp).
  rewrite (Hinj _ _ _ Hxy Hp) in Hx. by apply Hx, list_elem_of_lookup_2 with n.
Qed.

(** ** Automation *)

(** Turns [m ≫= k = Ok b], [assert], [ensure] and array accesses in the
    hypotheses into the facts they stand for. *)
Ltac inv_ok_step :=
  match goal with
  | H : (_ ≫= _) = Ok _ |- _ => apply bind_Ok in H as (? & ? & H)
  | H : mret _ = Ok _ |- _ => apply (inj Ok) in H
  | H : Ok _ = Ok _ |- _ => apply (inj Ok) in H
  | H : Err _ = Ok _ |- _ => discriminate H
  | H : assert _ = Ok _ |- _ => apply assert_Ok in H
  | H : ensure _ _ = Ok _ |- _ => apply ensure_Ok in H
  | H : aread _ _ = Ok _ |- _ => apply aread_Ok in H
  | H : awrite _ _ _ = Ok _ |- _ => apply awrite_Ok in H as [? ->]
  | H : (_, _) = (_, _) |- _ => apply pair_equal_spec in H as [? ?]
  end.

#[global] Instance Ok_inj {A} : Inj (=) (=) (@Ok A).
Proof. intros ?? [=]. done. Qed.

Ltac inv_ok := repeat (progress (repeat inv_ok_step; simplify_eq/=)).

(** Follows a computation to its result, through all branches. *)
Ltac follow Hr :=
  repeat match type of Hr with
  | _ ≫= _ = Ok _ => let y := fresh "y" in let E := fresh "E" in apply bind_Ok in Hr as (y & E & Hr)
  | (let '(_, _) := ?y in _) = Ok _ => destruct y
  | (match ?b with _ => _ end) = Ok _ => destruct b
  | Err _ = Ok _ => discriminate Hr
  | Ok _ = Ok _ => injection Hr as Hr
  end.

(** Boolean tests of the code, turned into the propositions they decide. *)
Ltac bool_to_prop :=
  repeat match goal with
  | H : _ && _ = true |- _ => apply andb_true_iff in H as [? ?]
  | H : _ || _ = false |- _ => apply orb_false_iff in H as [? ?]
  | H : negb _ = true |- _ => apply negb_true_iff in H
  | H : negb _ = false |- _ => apply negb_false_iff in H
  | H : (_ =? _) = true |- _ => apply Z.eqb_eq in H
  | H : (_ =? _) = false |- _ => apply Z.eqb_neq in H
  | H : (_ <? _) = true |- _ => apply Z.ltb_lt in H
  | H : (_ <? _) = false |- _ => apply Z.ltb_ge in H
  | H : (_ <=? _) = true |- _ => apply Z.leb_le in H
  | H : (_ <=? _) = false |- _ => apply Z.leb_gt in H
  end.

Create HintDb tricache.
Create Rewrite HintDb tricache.
#[export] Hint Resolve w64_range zget_zset_eq awrite_total : tricache.
#[export] Hint Rewrite @zlen_zset @zlen_replicate @length_insert @length_app @length_replicate : tricache.
