(* ===== verification/Util.v ===== *)
(** * Constants, [nextPowerOf2] and the round-robin partitioner

    [include/type.hpp], [include/util.hpp] and [include/partitioner.hpp]:
    the page geometry, the rounding of a size to a power of two that sizes
    the direct cache, and the map between a global virtual page id and a
    (partition, block) pair that every client and server computes. *)
From S2P Require Import Prelude.

Open Scope Z_scope.

(** ** [type.hpp]: the default build (no [DEF_PAGE_BITS]) *)
Definition CACHELINE_SIZE : Z := 64.
Definition CACHE_PAGE_BITS : Z := 12.
Definition CACHE_PAGE_SIZE : Z := Z.shiftl 1 CACHE_PAGE_BITS.
Definition CACHE_PAGE_MASK : Z := CACHE_PAGE_SIZE - 1.

Lemma CACHE_PAGE_SIZE_eq : CACHE_PAGE_SIZE = 4096.
Proof. reflexivity. Qed.

Lemma page_offset_mod a : Z.land a CACHE_PAGE_MASK = a mod CACHE_PAGE_SIZE.
Proof.
  change CACHE_PAGE_MASK with (Z.ones 12). rewrite Z.land_ones by lia. reflexivity.
Qed.

Lemma page_id_div a : Z.shiftr a CACHE_PAGE_BITS = a / CACHE_PAGE_SIZE.
Proof. rewrite Z.shiftr_div_pow2 by (unfold CACHE_PAGE_BITS; lia). reflexivity. Qed.

(** ** [util.hpp]: [nextPowerOf2] *)
Definition smear (s n : Z) : Z := Z.lor n (Z.shiftr n s).

Definition nextPowerOf2 (n0 : Z) : Z :=
  let n := w64 (n0 - 1) in
  let n := smear 1 n in
  let n := smear 2 n in
  let n := smear 4 n in
  let n := smear 8 n in
  let n := smear 16 n in
  let n := smear 32 n in
  w64 (n + 1).

(** The bits of [x] at positions [L-w+1 .. L] are set and none above [L] is. *)
Definition top_run (L w x : Z) : Prop :=
  0 ≤ x ∧ (∀ i, 0 ≤ i → L - w < i ≤ L → Z.testbit x i = true) ∧
  (∀ i, L < i → Z.testbit x i = false).

Lemma smear_top_run L w x : 0 < w → 0 ≤ L → top_run L w x → top_run L (2 * w) (smear w x).
Proof.
  intros Hw HL (Hx & Hone & Hzero). unfold smear. split; [|split].
  - apply Z.lor_nonneg. split; [done|]. by apply Z.shiftr_nonneg.
  - intros i Hi Hr. rewrite Z.lor_spec, Z.shiftr_spec by lia.
    destruct (decide (L - w < i)); [by rewrite Hone by lia|].
    rewrite (Hone (i + w)) by lia. apply orb_true_r.
  - intros i Hi. rewrite Z.lor_spec, Z.shiftr_spec by lia.
    by rewrite !Hzero by lia.
Qed.

Lemma top_run_ones L w x : 0 ≤ L → L < w → top_run L w x → x = Z.ones (L + 1).
Proof.
  intros HL Hw (Hx & Hone & Hzero). apply Z.bits_inj'. intros i Hi.
  destruct (decide (i ≤ L)).
  - rewrite Hone by lia. by rewrite Z.ones_spec_low by lia.
  - rewrite Hzero by lia. by rewrite Z.ones_spec_high by lia.
Qed.

Lemma top_run_start m : 0 < m → top_run (Z.log2 m) 1 m.
Proof.
  intros Hm. split; [lia|]. split.
  - intros i ? ?. replace i with (Z.log2 m) by lia. by apply Z.bit_log2.
  - intros i ?. apply Z.bits_above_log2; lia.
Qed.

Lemma smear_chain m : 0 < m < 2 ^ 64 →
  smear 32 (smear 16 (smear 8 (smear 4 (smear 2 (smear 1 m))))) = Z.ones (Z.log2 m + 1).
Proof.
  intros Hm. pose proof (Z.log2_nonneg m).
  assert (Z.log2 m < 64) by (apply Z.log2_lt_pow2; lia).
  apply (top_run_ones _ 64); [lia..|].
  repeat (match goal with |- top_run ?L _ (smear ?w ?x) =>
    apply (smear_top_run L w x); [lia|lia|] end).
  apply top_run_start. lia.
Qed.

(** [nextPowerOf2] returns the least power of two that is not below its
    argument, for every argument up to 2^63. *)
Lemma nextPowerOf2_spec n :
  1 ≤ n ≤ 2 ^ 63 → nextPowerOf2 n = 2 ^ Z.log2_up n.
Proof.
  intros Hn. unfold nextPowerOf2. rewrite (w64_small (n - 1)) by lia.
  destruct (decide (n = 1)) as [->|]; [done|].
  rewrite smear_chain by lia. rewrite Z.ones_equiv, Z.log2_up_eqn by lia.
  replace (Z.pred (2 ^ (Z.log2 (n - 1) + 1)) + 1) with (2 ^ Z.succ (Z.log2 (n - 1))) by
    (rewrite <- Z.add_1_r; lia).
  replace (Z.pred n) with (n - 1) by lia. apply w64_small.
  assert (Z.log2 (n - 1) < 63) by (apply Z.log2_lt_pow2; lia).
  split; [apply Z.pow_nonneg; lia|]. apply Z.pow_lt_mono_r; lia.
Qed.

(** Both ends of the range wrap to zero: [0] because [n--] underflows, and an
    argument above 2^63 because the power does not fit. *)
Lemma nextPowerOf2_zero : nextPowerOf2 0 = 0.
Proof. reflexivity. Qed.

(** ** [partitioner.hpp]: [RoundRobinPartitioner] *)
Record RoundRobinPartitioner := {
  num_partitions : Z;
  num_vpages : Z;
}.

Definition partitioner_wf (p : RoundRobinPartitioner) : Prop :=
  0 < num_partitions p < 2 ^ 64 ∧ 0 ≤ num_vpages p < 2 ^ 64.

(** [operator()(vpage_id)]: the partition and the block inside it. *)
Definition locate (p : RoundRobinPartitioner) (vpage_id : Z) : Z * Z :=
  (vpage_id mod num_partitions p, vpage_id / num_partitions p).

(** [num_blocks(partition_id)]. *)
Definition num_blocks (p : RoundRobinPartitioner) (partition_id : Z) : Z :=
  w64 (num_vpages p / num_partitions p +
       (if partition_id <? num_vpages p mod num_partitions p then 1 else 0)).

(** [operator()(partition_id, block_id)]: back to the global page id. *)
Definition vpage_of (p : RoundRobinPartitioner) (partition_id block_id : Z) : Z :=
  w64 (w64 (block_id * num_partitions p) + partition_id).

Section partitioner.
Context (p : RoundRobinPartitioner) (Hwf : partitioner_wf p).

Let np := num_partitions p.
Let nv := num_vpages p.

Lemma num_blocks_eq pid :
  0 ≤ pid → num_blocks p pid = nv / np + (if pid <? nv mod np then 1 else 0).
Proof.
  intros Hpid. unfold num_blocks. fold np nv.
  destruct Hwf as [H1 H2]. fold np in H1. fold nv in H2. apply w64_small. pose proof (Z.mod_pos_bound nv np ltac:(lia)).
  pose proof (Z.div_mod nv np ltac:(lia)).
  assert (0 ≤ nv / np) by (apply Z.div_pos; lia).
  assert (nv / np ≤ np * (nv / np)) by nia.
  destruct (Z.ltb_spec pid (nv mod np)); lia.
Qed.

Lemma block_bound_iff pid b :
  0 ≤ pid < np → 0 ≤ b → (b < num_blocks p pid ↔ b * np + pid < nv).
Proof.
  intros Hp Hb. rewrite num_blocks_eq by lia. destruct Hwf as [H1 H2]. fold np in H1. fold nv in H2.
  pose proof (Z.mod_pos_bound nv np ltac:(lia)).
  pose proof (Z.div_mod nv np ltac:(lia)).
  set (q := nv / np) in *.
  assert (Hmono : ∀ c, c ≤ b → c * np ≤ b * np) by (intros; apply Z.mul_le_mono_nonneg_r; lia).
  assert (Hmono' : ∀ c, b ≤ c → b * np ≤ c * np) by (intros; apply Z.mul_le_mono_nonneg_r; lia).
  destruct (Z.ltb_spec pid (nv mod np)); split; intros Hlt.
  - pose proof (Hmono' q). lia.
  - destruct (decide (b < q + 1)); [done|]. pose proof (Hmono (q + 1)). lia.
  - pose proof (Hmono' (q - 1)). lia.
  - destruct (decide (b < q)); [lia|]. pose proof (Hmono q). lia.
Qed.

Lemma vpage_of_small pid b :
  0 ≤ pid < np → 0 ≤ b < num_blocks p pid → vpage_of p pid b = b * np + pid.
Proof.
  intros Hp Hb. pose proof (proj1 (block_bound_iff pid b Hp ltac:(lia)) ltac:(lia)).
  destruct Hwf as [H1 H2]. fold np in H1. fold nv in H2.
  unfold vpage_of. fold np. rewrite (w64_small (b * np)) by nia. apply w64_small. nia.
Qed.

Lemma locate_range v :
  0 ≤ v < nv → 0 ≤ (locate p v).1 < np ∧ 0 ≤ (locate p v).2 < num_blocks p (locate p v).1.
Proof.
  intros Hv. destruct Hwf as [H1 H2]. fold np in H1. fold nv in H2.
  unfold locate. fold np. simpl.
  pose proof (Z.mod_pos_bound v np ltac:(lia)). pose proof (Z.div_mod v np ltac:(lia)).
  assert (0 ≤ v / np) by (apply Z.div_pos; lia).
  split; [done|]. split; [done|]. apply block_bound_iff; [done..|]. lia.
Qed.

Lemma locate_vpage_of pid b :
  0 ≤ pid < np → 0 ≤ b < num_blocks p pid → locate p (vpage_of p pid b) = (pid, b).
Proof.
  intros Hp Hb. rewrite vpage_of_small by done. unfold locate. fold np.
  rewrite (Z.add_comm (b * np)), Z.mod_add, Z.div_add by lia.
  by rewrite Z.mod_small, Z.div_small by lia.
Qed.

Lemma vpage_of_locate v :
  0 ≤ v < nv → vpage_of p (locate p v).1 (locate p v).2 = v.
Proof.
  intros Hv. destruct (locate_range v Hv) as [Hr Hb].
  rewrite vpage_of_small by done. unfold locate. fold np. simpl.
  pose proof (Z.div_mod v np ltac:(lia)). lia.
Qed.
End partitioner.

(** C34: the partitioner is a bijection between the global pages and the
    (partition, block) pairs within the partitions' sizes: [locate] lands in
    range, [vpage_of] undoes it, and [vpage_of] of an in-range pair is a valid
    global page that [locate] maps back. *)
Theorem partitioner_bijection p :
  partitioner_wf p →
  (∀ v, 0 ≤ v < num_vpages p →
     let '(pid, b) := locate p v in
     0 ≤ pid < num_partitions p ∧ 0 ≤ b < num_blocks p pid ∧ vpage_of p pid b = v) ∧
  (∀ pid b, 0 ≤ pid < num_partitions p → 0 ≤ b < num_blocks p pid →
     0 ≤ vpage_of p pid b < num_vpages p ∧ locate p (vpage_of p pid b) = (pid, b)).
Proof.
  intros Hwf. split.
  - intros v Hv. destruct (locate_range p Hwf v Hv) as [? ?].
    pose proof (vpage_of_locate p Hwf v Hv). by destruct (locate p v).
  - intros pid b Hp Hb. split; [|by apply locate_vpage_of].
    rewrite vpage_of_small by done.
    pose proof (proj1 (block_bound_iff p Hwf pid b Hp ltac:(lia)) ltac:(lia)).
    destruct Hwf. nia.
Qed.

Lemma partitioner_bijection_witness :
  let p := {| num_partitions := 3; num_vpages := 11 |} in
  partitioner_wf p ∧ vpage_of p 1 3 = 10 ∧ locate p (vpage_of p 1 3) = (1, 3).
Proof.
  intros p. assert (Hwf : partitioner_wf p) by (unfold partitioner_wf; simpl; lia).
  split; [done|]. split; [reflexivity|].
  destruct (partitioner_bijection p Hwf) as [_ H]. apply (H 1 3).
  - simpl. lia.
  - assert (num_blocks p 1 = 4) as -> by reflexivity. lia.
Defined.

(** Sum of the sizes of the first [n] partitions. *)
Fixpoint total_blocks (p : RoundRobinPartitioner) (n : nat) : Z :=
  match n with
  | O => 0
  | S n' => total_blocks p n' + num_blocks p (Z.of_nat n')
  end.

Lemma total_blocks_prefix p n :
  partitioner_wf p → Z.of_nat n ≤ num_partitions p →
  total_blocks p n = Z.of_nat n * (num_vpages p / num_partitions p) +
    Z.min (Z.of_nat n) (num_vpages p mod num_partitions p).
Proof.
  intros Hwf. destruct Hwf as [Hn Hv] eqn:E.
  pose proof (Z.mod_pos_bound (num_vpages p) (num_partitions p) ltac:(lia)).
  induction n as [|n IH]; intros Hle; simpl total_blocks; [lia|].
  rewrite IH, num_blocks_eq by (done || lia).
  destruct (Z.ltb_spec (Z.of_nat n) (num_vpages p mod num_partitions p)); lia.
Qed.

(** The partitions' sizes add up to the number of virtual pages, so the
    servers' devices together hold every page exactly once. *)
Lemma total_blocks_all p :
  partitioner_wf p → total_blocks p (Z.to_nat (num_partitions p)) = num_vpages p.
Proof.
  intros Hwf. rewrite total_blocks_prefix by (destruct Hwf; done || lia).
  destruct Hwf as [Hn Hv]. rewrite Z2Nat.id by lia.
  pose proof (Z.mod_pos_bound (num_vpages p) (num_partitions p) ltac:(lia)).
  pose proof (Z.div_mod (num_vpages p) (num_partitions p) ltac:(lia)). lia.
Qed.

#[export] Hint Resolve locate_range locate_vpage_of vpage_of_locate : tricache.
