(* ===== verification/Replacement.v ===== *)
(** * Replacement policies

    [include/replacement.hpp]: the classes [LRU] and [Clock] that pick the
    physical page to evict.  The caches take the policy as a template
    parameter [ReplacementType]; here it is the class [Replacement] with the
    laws of [ReplacementSpec], and both policies are instances. *)
From S2P Require Import Prelude.
From stdpp Require Import gmap sets fin_sets.

Open Scope Z_scope.

(** ** The interface the caches use *)
Class Replacement (R : Type) := {
  rep_init : Z → R;
  rep_push : R → Z → result R;
  rep_pop : R → result (R * (Z * Z));
  rep_access : R → Z → result R;
  rep_erase : R → Z → result R;
  rep_size : R → Z;
}.

(** What a policy promises: it keeps a set of candidate pages below [max];
    [push], [erase] and [pop] add and remove exactly the named page, [pop]
    succeeds as long as there is a candidate. *)
Class ReplacementSpec (R : Type) `{Replacement R} := {
  rep_members : R → gset Z;
  rep_inv : Z → R → Prop;
  rep_init_spec max : 0 < max < 2 ^ 63 →
    rep_inv max (rep_init max) ∧ rep_members (rep_init max) = ∅;
  rep_members_range max r p : rep_inv max r → p ∈ rep_members r → 0 ≤ p < max;
  rep_size_spec max r : rep_inv max r → rep_size r = Z.of_nat (size (rep_members r));
  rep_push_spec max r p : rep_inv max r → 0 ≤ p < max →
    ∃ r', rep_push r p = Ok r' ∧ rep_inv max r' ∧ rep_members r' = {[p]} ∪ rep_members r;
  rep_erase_spec max r p : rep_inv max r → 0 ≤ p < max →
    ∃ r', rep_erase r p = Ok r' ∧ rep_inv max r' ∧ rep_members r' = rep_members r ∖ {[p]};
  rep_access_spec max r p : rep_inv max r → p ∈ rep_members r →
    ∃ r', rep_access r p = Ok r' ∧ rep_inv max r' ∧ rep_members r' = rep_members r;
  rep_pop_spec max r : rep_inv max r → rep_members r ≠ ∅ →
    ∃ r' p nxt, rep_pop r = Ok (r', (p, nxt)) ∧ rep_inv max r' ∧ p ∈ rep_members r ∧
      rep_members r' = rep_members r ∖ {[p]} ∧ (max ≤ 2 ^ 31 → 0 ≤ nxt < max);
  rep_pop_empty max r : rep_inv max r → rep_members r = ∅ → rep_pop r = Err AssertFail;
}.

(** ** [class LRU] *)
Module LRU.

(** The [std::list] is a list of nodes, each with the page it holds; an
    iterator is the node's name, and [list.end()] is [None].  [fresh] names
    the next node allocated. *)
Record t := mk {
  max_ppage_id : Z;
  nodes : list (nat * Z);
  fresh : nat;
  states : list (option nat);
}.

Definition init (max : Z) : t := mk max [] 0 (replicate (Z.to_nat max) None).

(** [list.splice(list.begin(), list, it)]: the node moves to the front. *)
Definition splice_front (n : nat) (l : list (nat * Z)) : list (nat * Z) :=
  filter (λ x, x.1 = n) l ++ filter (λ x, x.1 ≠ n) l.

Definition access (s : t) (p : Z) : result t :=
  it ← aread (states s) p;
  _ ← assert (bool_decide (it ≠ None));
  match it with
  | Some n => Ok (mk (max_ppage_id s) (splice_front n (nodes s)) (fresh s) (states s))
  | None => Err Undefined
  end.

Definition push (s : t) (p : Z) : result t :=
  it ← aread (states s) p;
  match it with
  | None =>
      st ← awrite (states s) p (Some (fresh s));
      Ok (mk (max_ppage_id s) ((fresh s, p) :: nodes s) (S (fresh s)) st)
  | Some _ => access s p
  end.

(** [auto next_id = 0] has type [int], so the page read back is truncated to
    32 bits and sign extended on the way out. *)
Definition pop (s : t) : result (t * (Z * Z)) :=
  _ ← assert (bool_decide (nodes s ≠ []));
  match vec_pop (nodes s) with
  | Some (l, (_, p)) =>
      st ← awrite (states s) p None;
      let next_id := match last l with Some (_, q) => to_int32 q | None => 0 end in
      Ok (mk (max_ppage_id s) l (fresh s) st, (p, w64 next_id))
  | None => Err Undefined
  end.

Definition erase (s : t) (p : Z) : result t :=
  it ← aread (states s) p;
  match it with
  | Some n =>
      st ← awrite (states s) p None;
      Ok (mk (max_ppage_id s) (filter (λ x, x.1 ≠ n) (nodes s)) (fresh s) st)
  | None => Ok s
  end.

Definition size (s : t) : Z := zlen (nodes s).

(** The pages in recency order, most recent first. *)
Definition order (s : t) : list Z := snd <$> nodes s.

Record inv (max : Z) (s : t) : Prop := {
  inv_max : max_ppage_id s = max;
  inv_len : zlen (states s) = max;
  inv_nodup : NoDup (fst <$> nodes s);
  inv_fresh : ∀ n p, (n, p) ∈ nodes s → (n < fresh s)%nat;
  inv_states : ∀ n p, (n, p) ∈ nodes s ↔ zget (states s) p = Some (Some n);
}.

Lemma nodes_fun max s n p q : inv max s → (n, p) ∈ nodes s → (n, q) ∈ nodes s → p = q.
Proof.
  intros Hi Hp Hq. pose proof (inv_nodup _ _ Hi) as Hnd.
  apply list_elem_of_lookup in Hp as [i Hp]. apply list_elem_of_lookup in Hq as [j Hq].
  assert (i = j) as ->.
  { apply (NoDup_lookup _ i j n Hnd); rewrite list_lookup_fmap.
    - by rewrite Hp. - by rewrite Hq. }
  congruence.
Qed.

Lemma order_nodup max s : inv max s → NoDup (order s).
Proof.
  intros Hi. apply NoDup_alt. intros i j p Hp Hq. unfold order in *.
  rewrite list_lookup_fmap in Hp, Hq.
  apply fmap_Some in Hp as ([n p1] & E1 & Hp1). apply fmap_Some in Hq as ([m p2] & E2 & Hp2).
  simpl in *. subst p1 p2.
  assert (n = m) as ->.
  { pose proof (proj1 (inv_states _ _ Hi n p) (list_elem_of_lookup_2 _ _ _ E1)).
    pose proof (proj1 (inv_states _ _ Hi m p) (list_elem_of_lookup_2 _ _ _ E2)).
    congruence. }
  apply (NoDup_lookup _ i j m (inv_nodup _ _ Hi)); rewrite list_lookup_fmap.
  - by rewrite E1. - by rewrite E2.
Qed.

Lemma elem_order s p : p ∈ order s ↔ ∃ n, (n, p) ∈ nodes s.
Proof.
  unfold order. rewrite list_elem_of_fmap. split.
  - intros [[n q] [-> ?]]. by exists n.
  - intros [n ?]. by exists (n, p).
Qed.

Lemma inv_bound max s p : inv max s → p ∈ order s → 0 ≤ p < max.
Proof.
  intros Hi [n Hn]%elem_order. apply (inv_states _ _ Hi) in Hn.
  apply zget_range in Hn. by rewrite (inv_len _ _ Hi) in Hn.
Qed.

(** Filtering the nodes by name is filtering the pages by value. *)
Lemma order_filter_ne max s n p :
  inv max s → (n, p) ∈ nodes s →
  snd <$> filter (λ x, x.1 ≠ n) (nodes s) = filter (λ q, q ≠ p) (order s).
Proof.
  intros Hi Hn. unfold order.
  assert (Hall : Forall (λ x, x.1 ≠ n ↔ x.2 ≠ p) (nodes s)).
  { apply Forall_forall. intros [m q] Hm. simpl. split; intros Hne ->; apply Hne.
    - pose proof (proj1 (inv_states _ _ Hi _ _) Hn).
      pose proof (proj1 (inv_states _ _ Hi _ _) Hm). congruence.
    - eapply nodes_fun; eauto. }
  clear Hn Hi. induction Hall as [|[m q] l Hx Hl IH]; [done|]. simpl in Hx.
  rewrite fmap_cons, !filter_cons. simpl.
  destruct (decide (m ≠ n)), (decide (q ≠ p)); [|tauto..|done].
  rewrite fmap_cons. simpl. by f_equal.
Qed.

Lemma filter_order_fresh (p : Z) (l : list Z) : p ∉ l → filter (λ q, q ≠ p) l = l.
Proof.
  induction l as [|q l IH]; [done|]. intros [Hq Hl]%not_elem_of_cons.
  rewrite filter_cons_True by done. by rewrite IH.
Qed.

Lemma splice_nodes max s n p :
  inv max s → (n, p) ∈ nodes s → filter (λ x, x.1 = n) (nodes s) = [(n, p)].
Proof.
  intros Hi Hn. pose proof (inv_nodup _ _ Hi) as Hnd.
  assert (Hfun : ∀ q, (n, q) ∈ nodes s → q = p) by (intros; by eapply nodes_fun).
  clear Hi. induction (nodes s) as [|[m q] l IH]; [by apply elem_of_nil in Hn|].
  rewrite fmap_cons in Hnd. apply NoDup_cons in Hnd as [Hm Hnd]. simpl in Hm.
  rewrite filter_cons. simpl. case_decide as Hd.
  - subst m. rewrite (Hfun q) by left. f_equal.
    destruct (filter _ l) as [|[a b] l'] eqn:E; [done|].
    assert (Hab : (a, b) ∈ filter (λ x : nat * Z, x.1 = n) l) by (rewrite E; left).
    apply list_elem_of_filter in Hab as [Ha Hab]. simpl in Ha. subst a.
    destruct Hm. apply list_elem_of_fmap. by exists (n, b).
  - apply IH; [|done|]; [|intros; apply Hfun; by right].
    by apply elem_of_cons in Hn as [[=]|?].
Qed.

(** [access] moves a page that is in the list to its front. *)
Lemma lru_access_spec max s p :
  inv max s → p ∈ order s →
  ∃ s', access s p = Ok s' ∧ inv max s' ∧ order s' = p :: filter (λ q, q ≠ p) (order s).
Proof.
  intros Hi [n Hn]%elem_order. unfold access.
  rewrite (proj2 (aread_Ok _ _ _) (proj1 (inv_states _ _ Hi n p) Hn)). simpl.
  eexists. split; [done|]. split.
  - split; simpl; [apply Hi..| | |].
    + unfold splice_front. rewrite (splice_nodes max s n p) by done. simpl.
      apply NoDup_cons. split.
      * intros [[m q] [Hm1 Hm]]%list_elem_of_fmap. simpl in Hm1. subst m.
        apply list_elem_of_filter in Hm as [Hm _]. done.
      * eapply sublist_NoDup; [apply (inv_nodup _ _ Hi)|].
        apply fmap_sublist, sublist_filter.
    + intros m q. unfold splice_front. rewrite elem_of_app, !list_elem_of_filter.
      intros [[_ ?]|[_ ?]]; by eapply inv_fresh.
    + intros m q. rewrite <- (inv_states _ _ Hi). unfold splice_front.
      rewrite elem_of_app, !list_elem_of_filter. simpl.
      destruct (decide (m = n)); tauto.
  - unfold order at 1, splice_front. simpl. rewrite (splice_nodes max s n p) by done.
    simpl. f_equal. by eapply order_filter_ne.
Qed.

Lemma not_in_order max s p :
  inv max s → 0 ≤ p < max → p ∉ order s → zget (states s) p = Some None.
Proof.
  intros Hi Hp Hn. destruct (zget_is_Some (states s) p) as [it Hit].
  { by rewrite (inv_len _ _ Hi). }
  destruct it as [n|]; [|done]. destruct Hn. apply elem_order. exists n.
  by apply (inv_states _ _ Hi).
Qed.

(** [push]: the page becomes the most recent one, whether it was in the list
    or not; the other pages keep their order. *)
Lemma lru_push_spec max s p :
  inv max s → 0 ≤ p < max →
  ∃ s', push s p = Ok s' ∧ inv max s' ∧ order s' = p :: filter (λ q, q ≠ p) (order s).
Proof.
  intros Hi Hp. destruct (decide (p ∈ order s)) as [Hin|Hout].
  { destruct (lru_access_spec max s p Hi Hin) as (s' & Ha & ? & ?).
    exists s'. split; [|done]. unfold push. pose proof Hin as [n Hn]%elem_order.
    rewrite (proj2 (aread_Ok _ _ _) (proj1 (inv_states _ _ Hi n p) Hn)). done. }
  pose proof (not_in_order max s p Hi Hp Hout) as Hst.
  pose proof (inv_len _ _ Hi) as Hlen.
  unfold push. rewrite (proj2 (aread_Ok _ _ _) Hst). simpl.
  rewrite awrite_total by lia. simpl. eexists. split; [done|]. split.
  - split; simpl; [apply Hi|by rewrite zlen_zset| | |].
    + apply NoDup_cons. split; [|apply Hi].
      intros [[m q] [Hm1 Hm]]%list_elem_of_fmap. simpl in Hm1. subst m.
      apply (inv_fresh _ _ Hi) in Hm. lia.
    + intros m q [[= -> ->]|Hm]%elem_of_cons; [lia|].
      apply (inv_fresh _ _ Hi) in Hm. lia.
    + intros m q. rewrite elem_of_cons, zget_zset, (inv_states _ _ Hi).
      case_decide as Hd; [destruct Hd as [<- _]|].
      * rewrite Hst. split; [intros [[= ->]|]; done|]. intros [= ->]. by left.
      * split; [|tauto]. intros [[= -> ->]|?]; [|done]. destruct Hd. split; [done|lia].
  - unfold order at 1. simpl. fold (order s). by rewrite filter_order_fresh.
Qed.

Lemma lru_erase_spec max s p :
  inv max s → 0 ≤ p < max →
  ∃ s', erase s p = Ok s' ∧ inv max s' ∧ order s' = filter (λ q, q ≠ p) (order s).
Proof.
  intros Hi Hp. pose proof (inv_len _ _ Hi) as Hlen.
  destruct (decide (p ∈ order s)) as [Hin|Hout].
  - pose proof Hin as [n Hn]%elem_order. unfold erase.
    rewrite (proj2 (aread_Ok _ _ _) (proj1 (inv_states _ _ Hi n p) Hn)). simpl.
    rewrite awrite_total by lia. simpl. eexists. split; [done|]. split.
    + split; simpl; [apply Hi|by rewrite zlen_zset| | |].
      * eapply sublist_NoDup; [apply (inv_nodup _ _ Hi)|].
        apply fmap_sublist, sublist_filter.
      * intros m q [_ ?]%list_elem_of_filter. by eapply inv_fresh.
      * intros m q. rewrite list_elem_of_filter, zget_zset, (inv_states _ _ Hi). simpl.
        apply (inv_states _ _ Hi) in Hn. case_decide as Hd; [destruct Hd as [<- _]|].
        -- rewrite Hn. split; [|done]. intros [Hne [= ->]]. done.
        -- split; [tauto|]. intros Hm. split; [|done]. intros ->.
           apply Hd. split; [|lia]. apply (nodes_fun max s n); [done|..];
             by apply (inv_states _ _ Hi).
    + unfold order at 1. simpl. by eapply order_filter_ne.
  - exists s. unfold erase. rewrite (proj2 (aread_Ok _ _ _) (not_in_order max s p Hi Hp Hout)).
    simpl. split; [done|]. split; [done|]. by rewrite filter_order_fresh.
Qed.

(** [pop] takes the least recent page and hints at the next one. *)
Lemma lru_pop_spec max s l p :
  inv max s → order s = l ++ [p] →
  ∃ s', pop s = Ok (s', (p, w64 (default 0 (to_int32 <$> last l)))) ∧ inv max s' ∧ order s' = l.
Proof.
  intros Hi Ho. unfold order in Ho.
  apply fmap_app_inv in Ho as (l1 & l2 & Hl1 & Hl2 & Hn).
  symmetry in Hl2. apply fmap_cons_inv in Hl2 as ([n q] & l3 & Hq & Hl3 & ->).
  symmetry in Hl3. apply fmap_nil_inv in Hl3. subst l3. simpl in Hq. subst q.
  assert (Hin : (n, p) ∈ nodes s) by (rewrite Hn; set_solver).
  pose proof (proj1 (inv_states _ _ Hi n p) Hin) as Hst.
  pose proof (zget_range _ _ _ Hst). pose proof (inv_len _ _ Hi).
  unfold pop. rewrite bool_decide_true by (rewrite Hn; by destruct l1). simpl.
  rewrite Hn, vec_pop_snoc. rewrite awrite_total by lia. simpl. eexists. split.
  { do 3 f_equal. subst l. rewrite fmap_last. by destruct (last l1) as [[??]|]. }
  split; [|done]. pose proof (inv_nodup _ _ Hi) as Hnd. rewrite Hn, fmap_app in Hnd.
  apply NoDup_app in Hnd as (Hnd & Hfr & _).
  split; simpl; [apply Hi|by rewrite zlen_zset|done| |].
  - intros m q ?. apply (inv_fresh _ _ Hi m q). rewrite Hn. set_solver.
  - intros m q. rewrite zget_zset. case_decide as Hd.
    + destruct Hd as [<- _]. split; [|done]. intros Hm.
      assert (m = n) as ->.
      { pose proof (proj1 (inv_states _ _ Hi m p)) as Hmp. rewrite Hn in Hmp.
        specialize (Hmp ltac:(set_solver)). congruence. }
      destruct (Hfr n); [|set_solver]. apply list_elem_of_fmap. by exists (n, p).
    + rewrite <- (inv_states _ _ Hi), Hn, elem_of_app, list_elem_of_singleton.
      split; [tauto|]. intros [?|[= -> ->]]; [done|]. destruct Hd. split; [done|lia].
Qed.

Lemma lru_init_inv max : 0 ≤ max → inv max (init max).
Proof.
  intros. split; simpl; [done|rewrite zlen_replicate; lia|constructor|set_solver|].
  intros n p. split; [set_solver|]. by intros Hx%zget_replicate_inv.
Qed.

Definition members (s : t) : gset Z := list_to_set (order s).

Lemma members_filter_ne s p : list_to_set (filter (λ q, q ≠ p) (order s)) = members s ∖ {[p]}.
Proof.
  unfold members. apply set_eq. intros q.
  rewrite elem_of_difference, !elem_of_list_to_set, list_elem_of_filter, elem_of_singleton. tauto.
Qed.
End LRU.

#[export] Instance LRU_Replacement : Replacement LRU.t := {
  rep_init := LRU.init;
  rep_push := LRU.push;
  rep_pop := LRU.pop;
  rep_access := LRU.access;
  rep_erase := LRU.erase;
  rep_size := LRU.size;
}.

#[export] Program Instance LRU_ReplacementSpec : ReplacementSpec LRU.t := {
  rep_members := LRU.members;
  rep_inv := LRU.inv;
}.
Next Obligation. intros max ?. split; [apply LRU.lru_init_inv; lia|done]. Qed.
Next Obligation.
  intros max r p Hi Hp%elem_of_list_to_set. by eapply LRU.inv_bound.
Qed.
Next Obligation.
  intros max r Hi. cbn. unfold LRU.size, LRU.members, zlen.
  rewrite size_list_to_set by (by eapply LRU.order_nodup).
  unfold LRU.order. by rewrite length_fmap.
Qed.
Next Obligation.
  intros max r p Hi Hp. destruct (LRU.lru_push_spec max r p Hi Hp) as (r' & ? & ? & Ho).
  exists r'. split; [done|]. split; [done|]. unfold LRU.members at 1. rewrite Ho.
  rewrite list_to_set_cons, LRU.members_filter_ne. apply set_eq. intros q.
  destruct (decide (q = p)); set_solver.
Qed.
Next Obligation.
  intros max r p Hi Hp. destruct (LRU.lru_erase_spec max r p Hi Hp) as (r' & ? & ? & Ho).
  exists r'. split; [done|]. split; [done|]. unfold LRU.members at 1. rewrite Ho.
  apply LRU.members_filter_ne.
Qed.
Next Obligation.
  intros max r p Hi Hp%elem_of_list_to_set.
  destruct (LRU.lru_access_spec max r p Hi Hp) as (r' & ? & ? & Ho).
  exists r'. split; [done|]. split; [done|]. unfold LRU.members at 1. rewrite Ho.
  rewrite list_to_set_cons, LRU.members_filter_ne. unfold LRU.members. apply set_eq. intros q.
  destruct (decide (q = p)); set_solver.
Qed.
Next Obligation.
  intros max r Hi Hne. unfold LRU.members in *.
  destruct (LRU.order r) as [|p l _] eqn:Ho using rev_ind; [done|].
  destruct (LRU.lru_pop_spec max r l p Hi Ho) as (r' & Hp & Hi' & Ho').
  exists r', p. eexists. split; [exact Hp|]. split; [done|]. rewrite Ho'.
  pose proof (LRU.order_nodup _ _ Hi) as Hnd. rewrite Ho in Hnd.
  apply NoDup_app in Hnd as (_ & Hp' & _).
  assert (Hin : p ∈ LRU.order r) by (rewrite Ho; set_solver).
  pose proof (LRU.inv_bound _ _ _ Hi Hin) as Hpr.
  rewrite list_to_set_app_L. split; [set_solver|]. split.
  - apply set_eq. intros q. specialize (Hp' q). set_solver.
  - intros Hmax. destruct (last l) as [q|] eqn:El; simpl; [|rewrite w64_small by lia; lia].
    assert (Hq : q ∈ LRU.order r) by (rewrite Ho; apply elem_of_app; left; by apply last_Some_elem_of).
    pose proof (LRU.inv_bound _ _ _ Hi Hq). rewrite to_int32_small by lia.
    rewrite w64_small by lia. done.
Qed.
Next Obligation.
  intros max r Hi He. unfold LRU.members, LRU.order in *. cbn. unfold LRU.pop.
  destruct (LRU.nodes r) as [|[n p] l]; [done|]. exfalso.
  assert (p ∈ (∅ : gset Z)) by (rewrite <- He; set_solver). set_solver.
Qed.

(** ** [class Clock] *)
Module Clock.

(** [states[i]] is 0 for a page that is not a candidate, 1 for a candidate
    the hand may take and 2 for one that was used since the hand passed. *)
Record t := mk {
  max_ppage_id : Z;
  hand : Z;
  count : Z;
  states : list Z;
}.

Definition init (max : Z) : t := mk max 0 0 (replicate (Z.to_nat max) 0).

Definition access (s : t) (p : Z) : result t :=
  st ← aread (states s) p;
  _ ← assert (negb (st =? 0));
  st' ← awrite (states s) p 2;
  Ok (mk (max_ppage_id s) (hand s) (count s) st').

Definition push (s : t) (p : Z) : result t :=
  st ← aread (states s) p;
  if st =? 0 then
    st' ← awrite (states s) p 2;
    Ok (mk (max_ppage_id s) (hand s) (w64 (count s + 1)) st')
  else access s p.

Definition next_hand (max h : Z) : Z := w64 (h + 1) mod max.

(** [while (states[hand] != 1) { if (states[hand] == 2) states[hand] = 1;
    hand = (hand + 1) % max_ppage_id; }] *)
Fixpoint scan (fuel : nat) (max : Z) (st : list Z) (h : Z) : result (list Z * Z) :=
  match fuel with
  | O => Err OutOfFuel
  | S fuel' =>
      s ← aread st h;
      if s =? 1 then Ok (st, h)
      else
        st' ← (if s =? 2 then awrite st h 1 else Ok st);
        scan fuel' max st' (next_hand max h)
  end.

(** [size_t loops = 1024; while (states[hand] != 1 && --loops) hand = ...] *)
Fixpoint seek (loops : nat) (max : Z) (st : list Z) (h : Z) : result Z :=
  s ← aread st h;
  if s =? 1 then Ok h
  else match loops with
       | S (S _ as loops') => seek loops' max st (next_hand max h)
       | _ => Ok h
       end.

(** The hand passes every page at most twice before it stops. *)
Definition scan_fuel (s : t) : nat := S (2 * length (states s)).

Definition pop (s : t) : result (t * (Z * Z)) :=
  _ ← assert (0 <? count s);
  '(st, h) ← scan (scan_fuel s) (max_ppage_id s) (states s) (hand s);
  st' ← awrite st h 0;
  h' ← seek 1024 (max_ppage_id s) st' h;
  Ok (mk (max_ppage_id s) h' (w64 (count s - 1)) st', (h, h')).

Definition erase (s : t) (p : Z) : result t :=
  st ← aread (states s) p;
  if st =? 0 then Ok s
  else
    st' ← awrite (states s) p 0;
    Ok (mk (max_ppage_id s) (hand s) (w64 (count s - 1)) st').

Definition size (s : t) : Z := count s.

(** The candidate pages of a state array. *)
Definition cands (st : list Z) : gset Z :=
  list_to_set (filter (λ i, zget st i ≠ Some 0) (seqZ 0 (zlen st))).

Lemma elem_cands st i : i ∈ cands st ↔ ∃ s, zget st i = Some s ∧ s ≠ 0.
Proof.
  unfold cands. rewrite elem_of_list_to_set, list_elem_of_filter, elem_of_seqZ. split.
  - intros [Hne Hi]. destruct (zget_is_Some st i) as [s Hs]; [lia|]. exists s. split; [done|].
    congruence.
  - intros (s & Hs & Hne). pose proof (zget_range _ _ _ Hs). split; [congruence|lia].
Qed.

Record inv (max : Z) (s : t) : Prop := {
  inv_max : max_ppage_id s = max;
  inv_pos : 0 < max < 2 ^ 63;
  inv_len : zlen (states s) = max;
  inv_hand : 0 ≤ hand s < max;
  inv_vals : ∀ i x, zget (states s) i = Some x → 0 ≤ x ≤ 2;
  inv_count : count s = Z.of_nat (base.size (cands (states s)));
}.

Lemma cands_le st : Z.of_nat (base.size (cands st)) ≤ zlen st.
Proof.
  assert (cands st ⊆ list_to_set (seqZ 0 (zlen st))) as Hs%subseteq_size.
  { intros i (s & Hs & _)%elem_cands. apply zget_range in Hs.
    apply elem_of_list_to_set, elem_of_seqZ. lia. }
  rewrite (size_list_to_set (seqZ 0 (zlen st))), length_seqZ in Hs by apply NoDup_seqZ.
  unfold zlen in *. lia.
Qed.

Lemma cands_set_nonzero st i x :
  0 ≤ i < zlen st → x ≠ 0 → cands (zset st i x) = {[i]} ∪ cands st.
Proof.
  intros Hi Hx. apply set_eq. intros j.
  rewrite elem_of_union, elem_of_singleton, !elem_cands.
  destruct (decide (i = j)) as [<-|Hne].
  - rewrite zget_zset_eq by done. naive_solver.
  - rewrite zget_zset_ne by done. naive_solver.
Qed.

Lemma cands_set_zero st i :
  0 ≤ i < zlen st → cands (zset st i 0) = cands st ∖ {[i]}.
Proof.
  intros Hi. apply set_eq. intros j.
  rewrite elem_of_difference, elem_of_singleton, !elem_cands.
  destruct (decide (i = j)) as [<-|Hne].
  - rewrite zget_zset_eq by done. naive_solver.
  - rewrite zget_zset_ne by done. naive_solver.
Qed.

Lemma next_hand_range max h : 0 < max < 2 ^ 63 → 0 ≤ next_hand max h < max.
Proof. intros. apply Z.mod_pos_bound. lia. Qed.

Lemma next_hand_eq max h : 0 < max < 2 ^ 63 → 0 ≤ h < max →
  next_hand max h = if decide (h + 1 = max) then 0 else h + 1.
Proof.
  intros. unfold next_hand. rewrite w64_small by lia. case_decide as E.
  - rewrite E. apply Z.mod_same. lia.
  - apply Z.mod_small. lia.
Qed.

(** Steps the hand needs to get from [h] to [i]. *)
Definition dist (max h i : Z) : Z := if decide (h ≤ i) then i - h else i - h + max.

Lemma dist_step max h i : 0 < max < 2 ^ 63 → 0 ≤ h < max → 0 ≤ i < max → h ≠ i →
  dist max (next_hand max h) i = dist max h i - 1.
Proof.
  intros. rewrite next_hand_eq by done. unfold dist.
  repeat case_decide; lia.
Qed.

Lemma dist_range max h i : 0 ≤ h < max → 0 ≤ i < max → 0 ≤ dist max h i < max.
Proof. intros. unfold dist. case_decide; lia. Qed.

(** What one step of the sweep leaves: a 2 becomes a 1. *)
Definition aged (st : list Z) (h s : Z) : list Z := if s =? 2 then zset st h 1 else st.

Lemma scan_step fuel max st h s :
  zget st h = Some s → s ≠ 1 →
  scan (S fuel) max st h = scan fuel max (aged st h s) (next_hand max h).
Proof.
  intros Hs Hne. simpl. rewrite (proj2 (aread_Ok _ _ _) Hs). simpl.
  destruct (Z.eqb_spec s 1) as [|_]; [done|]. unfold aged.
  destruct (s =? 2); [|done]. rewrite awrite_total by (by eapply zget_range). done.
Qed.

Lemma zlen_aged st h s : zlen (aged st h s) = zlen st.
Proof. unfold aged. destruct (s =? 2); [apply zlen_zset|done]. Qed.

Lemma zget_aged st h s i :
  zget st h = Some s →
  zget (aged st h s) i = if decide (h = i ∧ s = 2) then Some 1 else zget st i.
Proof.
  intros Hs. unfold aged. pose proof (zget_range _ _ _ Hs).
  destruct (Z.eqb_spec s 2); case_decide as Hd; try (destruct Hd; done); [| |done].
  - destruct Hd as [<- _]. by apply zget_zset_eq.
  - apply zget_zset_ne. intros ->. by destruct Hd.
Qed.

(** A sweep only turns 2s into 1s. *)
Definition swept (st st' : list Z) : Prop :=
  zlen st' = zlen st ∧
  ∀ j x, zget st j = Some x → zget st' j = Some x ∨ (x = 2 ∧ zget st' j = Some 1).

Lemma swept_refl st : swept st st.
Proof. split; [done|]. naive_solver. Qed.

Lemma swept_trans st1 st2 st3 : swept st1 st2 → swept st2 st3 → swept st1 st3.
Proof.
  intros [L1 H1] [L2 H2]. split; [lia|]. intros j x Hj.
  destruct (H1 j x Hj) as [Hj2|[-> Hj2]]; destruct (H2 j _ Hj2) as [?|[? ?]]; naive_solver.
Qed.

Lemma swept_aged st h s : zget st h = Some s → swept st (aged st h s).
Proof.
  intros Hs. split; [apply zlen_aged|]. intros j x Hj. rewrite (zget_aged st h s j Hs).
  case_decide as Hd; [|by left]. destruct Hd as [<- ->]. right. split; [congruence|done].
Qed.

Lemma swept_inv st st' j y :
  swept st st' → zget st' j = Some y → ∃ x, zget st j = Some x ∧ (y = x ∨ x = 2 ∧ y = 1).
Proof.
  intros [L H] Hj. destruct (zget_is_Some st j) as [x Hx].
  { rewrite <- L. by eapply zget_range. }
  exists x. split; [done|]. destruct (H j x Hx) as [?|[? ?]]; naive_solver.
Qed.

Lemma swept_cands st st' : swept st st' → cands st' = cands st.
Proof.
  intros Hs. apply set_eq. intros j. rewrite !elem_cands. split.
  - intros (y & Hy & Hne). destruct (swept_inv _ _ _ _ Hs Hy) as (x & Hx & Hxy).
    exists x. split; [done|]. lia.
  - intros (x & Hx & Hne). destruct Hs as [_ Hs].
    destruct (Hs j x Hx) as [?|[-> ?]]; eexists; (split; [done|lia]).
Qed.

(** What the sweep from [h] establishes when page [i] is at 1: it stops at
    the first such page, at most [dist h i] steps away. *)
Definition stops_first (max : Z) (st st' : list Z) (h h' i : Z) : Prop :=
  swept st st' ∧ 0 ≤ h' < max ∧ zget st' h' = Some 1 ∧ zget st h' = Some 1 ∧
  dist max h h' ≤ dist max h i ∧
  ∀ j, 0 ≤ j < max → dist max h j < dist max h h' → zget st j ≠ Some 1.

Lemma dist_self max h : dist max h h = 0.
Proof. unfold dist. case_decide; lia. Qed.

Lemma dist_zero max h i : 0 ≤ h < max → 0 ≤ i < max → dist max h i = 0 → h = i.
Proof. unfold dist. case_decide; lia. Qed.

Lemma dist_next_self max h : 0 < max < 2 ^ 63 → 0 ≤ h < max →
  dist max (next_hand max h) h = max - 1.
Proof. intros. rewrite next_hand_eq by done. unfold dist. repeat case_decide; lia. Qed.

Lemma scan_one fuel : ∀ max st h i,
  0 < max < 2 ^ 63 → zlen st = max → 0 ≤ h < max → zget st i = Some 1 →
  dist max h i < Z.of_nat fuel →
  ∃ st' h', scan fuel max st h = Ok (st', h') ∧ stops_first max st st' h h' i.
Proof.
  induction fuel as [|fuel IH]; intros max st h i Hmax Hlen Hh Hi Hd.
  { pose proof (zget_range _ _ _ Hi). pose proof (dist_range max h i Hh ltac:(lia)). lia. }
  pose proof (zget_range _ _ _ Hi) as Hir. rewrite Hlen in Hir.
  destruct (zget_is_Some st h) as [s Hs]; [lia|].
  destruct (decide (s = 1)) as [->|Hne].
  { exists st, h. split.
    - simpl. by rewrite (proj2 (aread_Ok _ _ _) Hs).
    - split; [apply swept_refl|]. rewrite dist_self.
      pose proof (dist_range max h i Hh Hir).
      split_and!; [lia..|done|done|lia|]. intros j Hj.
      pose proof (dist_range max h j Hh Hj). lia. }
  assert (h ≠ i) by congruence.
  rewrite (scan_step fuel max st h s Hs Hne).
  destruct (IH max (aged st h s) (next_hand max h) i) as (st' & h' & Hsc & Hst); try done.
  { by rewrite zlen_aged. } { by apply next_hand_range. }
  { rewrite (zget_aged st h s i Hs), decide_False by tauto. done. }
  { rewrite dist_step by done. lia. }
  exists st', h'. split; [done|].
  destruct Hst as (Hsw & Hh' & H1 & H2 & Hle & Hfirst).
  rewrite (dist_step max h i) in Hle by done.
  assert (h ≠ h').
  { intros <-. rewrite dist_next_self in Hle by done.
    pose proof (dist_range max h i Hh Hir). lia. }
  rewrite (dist_step max h h') in Hle by done. rewrite (zget_aged st h s h' Hs) in H2.
  case_decide as Hd'; [tauto|].
  split; [apply (swept_trans _ (aged st h s)); [by apply swept_aged|done]|].
  rewrite (dist_step max h h') in Hfirst by done.
  split_and!; [lia..|done|done|lia|]. intros j Hj Hdj.
  destruct (decide (h = j)) as [<-|Hhj]; [congruence|].
  specialize (Hfirst j Hj). rewrite (dist_step max h j), (zget_aged st h s j Hs) in Hfirst by done.
  rewrite decide_False in Hfirst by tauto. apply Hfirst. lia.
Qed.

Lemma scan_two fuel : ∀ max st h i,
  0 < max < 2 ^ 63 → zlen st = max → 0 ≤ h < max → zget st i = Some 2 →
  dist max h i + max < Z.of_nat fuel →
  ∃ st' h', scan fuel max st h = Ok (st', h') ∧
    swept st st' ∧ 0 ≤ h' < max ∧ zget st' h' = Some 1.
Proof.
  induction fuel as [|fuel IH]; intros max st h i Hmax Hlen Hh Hi Hd;
    pose proof (zget_range _ _ _ Hi) as Hir; rewrite Hlen in Hir;
    pose proof (dist_range max h i Hh Hir); [lia|].
  destruct (zget_is_Some st h) as [s Hs]; [lia|].
  destruct (decide (s = 1)) as [->|Hne].
  { exists st, h. split; [simpl; by rewrite (proj2 (aread_Ok _ _ _) Hs)|].
    split; [apply swept_refl|done]. }
  rewrite (scan_step fuel max st h s Hs Hne).
  destruct (decide (h = i)) as [<-|Hhi].
  - assert (s = 2) as -> by congruence.
    destruct (scan_one fuel max (aged st h 2) (next_hand max h) h)
      as (st' & h' & Hsc & Hsw & ? & ? & _); try done.
    { by rewrite zlen_aged. } { by apply next_hand_range. }
    { rewrite (zget_aged st h 2 h Hs), decide_True by done. done. }
    { rewrite dist_next_self by done. lia. }
    exists st', h'. split; [done|]. split; [|done].
    apply (swept_trans _ (aged st h 2)); [by apply swept_aged|done].
  - destruct (IH max (aged st h s) (next_hand max h) i)
      as (st' & h' & Hsc & Hsw & ? & ?); try done.
    { by rewrite zlen_aged. } { by apply next_hand_range. }
    { rewrite (zget_aged st h s i Hs), decide_False by tauto. done. }
    { rewrite dist_step by done. lia. }
    exists st', h'. split; [done|]. split; [|done].
    apply (swept_trans _ (aged st h s)); [by apply swept_aged|done].
Qed.

(** The sweep finishes within the fuel whenever there is a candidate. *)
Lemma scan_total max s :
  inv max s → cands (states s) ≠ ∅ →
  ∃ st' h', scan (scan_fuel s) max (states s) (hand s) = Ok (st', h') ∧
    swept (states s) st' ∧ 0 ≤ h' < max ∧ zget st' h' = Some 1.
Proof.
  intros Hi Hc. apply set_choose_L in Hc as [i Hc]. apply elem_cands in Hc as (x & Hx & Hne).
  pose proof (inv_vals _ _ Hi i x Hx). pose proof (inv_pos _ _ Hi) as Hpos.
  pose proof (inv_len _ _ Hi) as Hlen. pose proof (inv_hand _ _ Hi) as Hh.
  pose proof (zget_range _ _ _ Hx) as Hir. rewrite Hlen in Hir.
  pose proof (dist_range max (hand s) i Hh Hir).
  assert (Z.of_nat (scan_fuel s) = 2 * max + 1).
  { unfold scan_fuel. unfold zlen in Hlen. lia. }
  destruct (decide (x = 1)) as [->|].
  - destruct (scan_one (scan_fuel s) max (states s) (hand s) i)
      as (st' & h' & Hsc & Hsw & ? & ? & _); [done..|lia|]. by exists st', h'.
  - assert (x = 2) as -> by lia. apply (scan_two _ _ _ _ i); [done..|lia].
Qed.

Lemma seek_total loops : ∀ max st h,
  0 < max < 2 ^ 63 → zlen st = max → 0 ≤ h < max →
  ∃ h', seek loops max st h = Ok h' ∧ 0 ≤ h' < max.
Proof.
  induction loops as [|[|loops] IH]; intros max st h Hmax Hlen Hh;
    destruct (aread_total st h ltac:(lia)) as (s & Hs & _); simpl; rewrite Hs; simpl;
    destruct (s =? 1); try (by exists h).
  apply IH; [done..|]. by apply next_hand_range.
Qed.

Lemma clock_init_inv max : 0 < max < 2 ^ 63 → inv max (init max) ∧ cands (states (init max)) = ∅.
Proof.
  intros Hm. assert (Hc : cands (states (init max)) = ∅).
  { apply set_eq. intros i. rewrite elem_cands. split; [|set_solver].
    intros (x & Hx%zget_replicate_inv & ?). lia. }
  split; [|done]. split; simpl.
  - done.
  - done.
  - rewrite zlen_replicate. lia.
  - lia.
  - intros i x ->%zget_replicate_inv. lia.
  - simpl in Hc. by rewrite Hc.
Qed.

(** Writing a legal value at a page updates the candidates and their count. *)
Lemma set_inv max s p x c :
  inv max s → 0 ≤ p < max → 0 ≤ x ≤ 2 →
  c = Z.of_nat (base.size (cands (zset (states s) p x))) →
  inv max (mk (max_ppage_id s) (hand s) c (zset (states s) p x)).
Proof.
  intros Hi Hp Hx Hc. split; simpl; [apply Hi..|by rewrite zlen_zset, (inv_len _ _ Hi)| | |done].
  - apply Hi.
  - intros i y. rewrite zget_zset. case_decide; [by intros [= <-]|]. apply Hi.
Qed.

Lemma clock_push_spec max s p :
  inv max s → 0 ≤ p < max →
  ∃ s', push s p = Ok s' ∧ inv max s' ∧ cands (states s') = {[p]} ∪ cands (states s).
Proof.
  intros Hi Hp. pose proof (inv_len _ _ Hi) as Hlen. pose proof (inv_pos _ _ Hi) as Hpos.
  assert (Hset : cands (zset (states s) p 2) = {[p]} ∪ cands (states s))
    by (apply cands_set_nonzero; lia).
  destruct (aread_total (states s) p ltac:(lia)) as (x & Hx & Hg).
  unfold push, access. rewrite Hx. simpl.
  destruct (Z.eqb_spec x 0) as [->|Hne]; simpl; rewrite awrite_total by lia; simpl;
    (eexists; split; [done|]); (split; [|done]); apply set_inv; try done || lia; rewrite Hset.
  - assert (p ∉ cands (states s)) by (rewrite elem_cands; naive_solver).
    rewrite size_union, size_singleton by set_solver.
    pose proof (cands_le (states s)). rewrite (inv_count _ _ Hi). rewrite w64_small; lia.
  - assert (p ∈ cands (states s)) by (rewrite elem_cands; eauto).
    rewrite (inv_count _ _ Hi). do 2 f_equal. set_solver.
Qed.

Lemma clock_access_spec max s p :
  inv max s → p ∈ cands (states s) →
  ∃ s', access s p = Ok s' ∧ inv max s' ∧ cands (states s') = cands (states s).
Proof.
  intros Hi Hc. pose proof Hc as (x & Hx & Hne)%elem_cands.
  pose proof (zget_range _ _ _ Hx) as Hr. pose proof (inv_len _ _ Hi) as Hlen.
  assert (Hset : cands (zset (states s) p 2) = cands (states s)).
  { rewrite cands_set_nonzero by lia. set_solver. }
  unfold access. rewrite (proj2 (aread_Ok _ _ _) Hx). simpl.
  destruct (Z.eqb_spec x 0); [done|]. simpl. rewrite awrite_total by lia. simpl.
  eexists. split; [done|]. split; [|done]. apply set_inv; try done || lia.
  by rewrite Hset, (inv_count _ _ Hi).
Qed.

Lemma size_remove (X : gset Z) p : p ∈ X → w64 (Z.of_nat (base.size X) - 1) =
  Z.of_nat (base.size (X ∖ {[p]})) ∨ 2 ^ 64 ≤ Z.of_nat (base.size X).
Proof.
  intros Hp. assert (base.size X ≠ 0%nat).
  { intros H0%size_empty_inv. set_solver. }
  rewrite size_difference by set_solver. rewrite size_singleton.
  destruct (decide (2 ^ 64 ≤ Z.of_nat (base.size X))); [by right|left].
  rewrite w64_small by lia. lia.
Qed.

Lemma clock_erase_spec max s p :
  inv max s → 0 ≤ p < max →
  ∃ s', erase s p = Ok s' ∧ inv max s' ∧ cands (states s') = cands (states s) ∖ {[p]}.
Proof.
  intros Hi Hp. pose proof (inv_len _ _ Hi) as Hlen. pose proof (inv_pos _ _ Hi) as Hpos.
  destruct (aread_total (states s) p ltac:(lia)) as (x & Hx & Hg).
  unfold erase. rewrite Hx. simpl. destruct (Z.eqb_spec x 0) as [->|Hne].
  - exists s. split; [done|]. split; [done|].
    assert (p ∉ cands (states s)) by (rewrite elem_cands; naive_solver). set_solver.
  - rewrite awrite_total by lia. simpl. eexists. split; [done|].
    pose proof (cands_set_zero (states s) p ltac:(lia)) as Hset. split; [|done].
    apply set_inv; try done || lia. rewrite Hset, (inv_count _ _ Hi).
    destruct (size_remove (cands (states s)) p) as [?|?]; [|done|].
    { apply elem_cands. eauto. }
    pose proof (cands_le (states s)). lia.
Qed.

Lemma clock_pop_spec max s :
  inv max s → cands (states s) ≠ ∅ →
  ∃ s' p nxt st', pop s = Ok (s', (p, nxt)) ∧ inv max s' ∧ p ∈ cands (states s) ∧
    cands (states s') = cands (states s) ∖ {[p]} ∧ 0 ≤ nxt < max ∧
    scan (scan_fuel s) max (states s) (hand s) = Ok (st', p).
Proof.
  intros Hi Hne. pose proof (inv_len _ _ Hi) as Hlen. pose proof (inv_pos _ _ Hi) as Hpos.
  destruct (scan_total max s Hi Hne) as (st' & p & Hsc & Hsw & Hp & Hone).
  assert (Hlen' : zlen st' = max) by (destruct Hsw; lia).
  pose proof (swept_cands _ _ Hsw) as Hc.
  assert (Hin : p ∈ cands (states s)) by (rewrite <- Hc; apply elem_cands; eauto with lia).
  pose proof (cands_set_zero st' p ltac:(lia)) as Hset.
  destruct (seek_total 1024 max (zset st' p 0) p) as (h' & Hsk & Hh'); [done| |done|].
  { by rewrite zlen_zset. }
  unfold pop. rewrite (inv_max _ _ Hi).
  assert ((0 <? count s) = true) as ->.
  { apply Z.ltb_lt. rewrite (inv_count _ _ Hi). pose proof (size_empty_inv (cands (states s))).
    destruct (decide (base.size (cands (states s)) = 0%nat)) as [E|]; [|lia].
    destruct Hne. apply leibniz_equiv. auto. }
  cbn [assert mbind result_bind]. rewrite Hsc. cbn [mbind result_bind].
  rewrite awrite_total by lia. cbn [mbind result_bind]. rewrite Hsk. cbn [mbind result_bind].
  eexists _, p, h', st'. split; [done|]. split; [|split; [done|split; [|done]]].
  - split; simpl; [done|done|by rewrite zlen_zset|done| |].
    + intros i y. rewrite zget_zset. case_decide; [intros [= <-]; lia|]. intros Hy.
      destruct (swept_inv _ _ _ _ Hsw Hy) as (x & Hx & Hxy).
      pose proof (inv_vals _ _ Hi i x Hx). lia.
    + rewrite Hset, Hc, (inv_count _ _ Hi).
      destruct (size_remove (cands (states s)) p Hin) as [?|?]; [done|].
      pose proof (cands_le (states s)). lia.
  - simpl. by rewrite Hset, Hc.
Qed.

(** Without a candidate the loop of [pop] never ends: in a build where
    [assert] is compiled out the caller hangs. *)
Lemma scan_diverges fuel max st h :
  zlen st = max → 0 < max < 2 ^ 63 → 0 ≤ h < max → cands st = ∅ →
  scan fuel max st h = Err OutOfFuel.
Proof.
  intros Hlen Hmax. revert h. induction fuel as [|fuel IH]; intros h Hh Hc; [done|].
  destruct (zget_is_Some st h) as [x Hx]; [lia|].
  assert (x = 0) as ->.
  { destruct (decide (x = 0)); [done|]. assert (h ∈ (∅ : gset Z)); [|set_solver].
    rewrite <- Hc. apply elem_cands. eauto. }
  rewrite (scan_step fuel max st h 0 Hx) by done. unfold aged. simpl.
  apply IH; [|done]. by apply next_hand_range.
Qed.
End Clock.

#[export] Instance Clock_Replacement : Replacement Clock.t := {
  rep_init := Clock.init;
  rep_push := Clock.push;
  rep_pop := Clock.pop;
  rep_access := Clock.access;
  rep_erase := Clock.erase;
  rep_size := Clock.size;
}.

#[export] Program Instance Clock_ReplacementSpec : ReplacementSpec Clock.t := {
  rep_members s := Clock.cands (Clock.states s);
  rep_inv := Clock.inv;
}.
Next Obligation. intros. by apply Clock.clock_init_inv. Qed.
Next Obligation.
  intros max r p Hi (x & Hx & _)%Clock.elem_cands. apply zget_range in Hx.
  by rewrite (Clock.inv_len _ _ Hi) in Hx.
Qed.
Next Obligation. intros max r Hi. apply (Clock.inv_count _ _ Hi). Qed.
Next Obligation. intros. by apply Clock.clock_push_spec. Qed.
Next Obligation. intros. by apply Clock.clock_erase_spec. Qed.
Next Obligation. intros. by apply Clock.clock_access_spec. Qed.
Next Obligation.
  intros max r Hi Hne. destruct (Clock.clock_pop_spec max r Hi Hne) as (r' & p & nxt & st' & ? & ? & ? & ? & ? & _).
  by exists r', p, nxt.
Qed.
Next Obligation.
  intros max r Hi He. cbn. unfold Clock.pop.
  pose proof (Clock.inv_count _ _ Hi) as Hc. cbn in He. rewrite He in Hc.
  by rewrite Hc.
Qed.

(** ** Properties *)

(** The calls a cache makes on its policy. *)
Inductive rep_op :=
  | OpPush (p : Z)
  | OpErase (p : Z)
  | OpPop.

Definition op_in_range (max : Z) (o : rep_op) : Prop :=
  match o with OpPush p | OpErase p => 0 ≤ p < max | OpPop => True end.

(** A run of calls on a policy, with the pages [pop] returned. *)
Fixpoint run_ops `{Replacement R} (r : R) (ops : list rep_op) : result (R * list Z) :=
  match ops with
  | [] => Ok (r, [])
  | OpPush p :: ops => r' ← rep_push r p; run_ops r' ops
  | OpErase p :: ops => r' ← rep_erase r p; run_ops r' ops
  | OpPop :: ops =>
      '(r', (p, _)) ← rep_pop r; '(r'', out) ← run_ops r' ops; Ok (r'', p :: out)
  end.

(** Least-recently-used replacement, as a recency list. *)
Fixpoint lru_reference (l : list Z) (ops : list rep_op) : result (list Z * list Z) :=
  match ops with
  | [] => Ok (l, [])
  | OpPush p :: ops => lru_reference (p :: filter (λ q, q ≠ p) l) ops
  | OpErase p :: ops => lru_reference (filter (λ q, q ≠ p) l) ops
  | OpPop :: ops =>
      match vec_pop l with
      | Some (l', p) => '(l'', out) ← lru_reference l' ops; Ok (l'', p :: out)
      | None => Err AssertFail
      end
  end.

Lemma lru_simulates max ops : ∀ s,
  LRU.inv max s → Forall (op_in_range max) ops →
  match run_ops s ops with
  | Ok (s', out) => lru_reference (LRU.order s) ops = Ok (LRU.order s', out)
  | Err e => lru_reference (LRU.order s) ops = Err e
  end.
Proof.
  induction ops as [|[p|p|] ops IH]; intros s Hi Hr; [done|..];
    apply Forall_cons in Hr as [Hp Hr]; cbn [run_ops lru_reference].
  - destruct (LRU.lru_push_spec max s p Hi Hp) as (s' & Hs & Hi' & Ho).
    cbn [rep_push LRU_Replacement]. rewrite Hs, <- Ho. by apply IH.
  - destruct (LRU.lru_erase_spec max s p Hi Hp) as (s' & Hs & Hi' & Ho).
    cbn [rep_erase LRU_Replacement]. rewrite Hs, <- Ho. by apply IH.
  - cbn [rep_pop LRU_Replacement].
    destruct (LRU.order s) as [|p l _] eqn:Ho using rev_ind.
    + assert (LRU.pop s = Err AssertFail) as ->; [|done].
      unfold LRU.pop, LRU.order in *. by destruct (LRU.nodes s).
    + destruct (LRU.lru_pop_spec max s l p Hi Ho) as (s' & Hs & Hi' & Ho').
      rewrite Hs, vec_pop_snoc. cbn [mbind result_bind]. specialize (IH s' Hi' Hr).
      rewrite <- Ho'. destruct (run_ops s' ops) as [[s'' out]|e]; by rewrite IH.
Qed.

(** C35: [LRU] implements least-recently-used replacement: for every sequence of
    in-range [push], [erase] and [pop] calls on a fresh [LRU], the pages popped
    (or the failing assertion of a [pop] on an empty policy) are those of the
    recency-list reference. *)
Theorem lru_refines_reference max ops :
  0 ≤ max → Forall (op_in_range max) ops →
  snd <$> run_ops (LRU.init max) ops = snd <$> lru_reference [] ops.
Proof.
  intros Hm Hr. pose proof (lru_simulates max ops _ (LRU.lru_init_inv max Hm) Hr) as H.
  change (LRU.order (LRU.init max)) with (@nil Z) in H.
  destruct (run_ops (LRU.init max) ops) as [[s' out]|e]; by rewrite H.
Qed.

Lemma lru_refines_reference_witness :
  let ops := [OpPush 0; OpPush 1; OpPush 2; OpPush 0; OpErase 2; OpPop; OpPop] in
  (0 ≤ 4 ∧ Forall (op_in_range 4) ops) ∧
  snd <$> run_ops (LRU.init 4) ops = Ok [1; 0].
Proof.
  intros ops. assert (Hr : Forall (op_in_range 4) ops).
  { repeat constructor; simpl; lia. }
  split; [by split|]. rewrite (lru_refines_reference 4 ops ltac:(lia) Hr). reflexivity.
Defined.

(** C36: [Clock::pop] terminates within two sweeps whenever it has a candidate,
    returns one of the candidates, removes exactly that one (the count and the
    other candidates stay), and leaves a hand inside the array. *)
Theorem clock_pop_total max s :
  Clock.inv max s → Clock.cands (Clock.states s) ≠ ∅ →
  ∃ s' v nxt, Clock.pop s = Ok (s', (v, nxt)) ∧ Clock.inv max s' ∧
    v ∈ Clock.cands (Clock.states s) ∧
    Clock.cands (Clock.states s') = Clock.cands (Clock.states s) ∖ {[v]} ∧ 0 ≤ nxt < max.
Proof.
  intros Hi Hne. destruct (Clock.clock_pop_spec max s Hi Hne) as (s' & v & nxt & st' & H).
  exists s', v, nxt. naive_solver.
Qed.

Lemma clock_pop_total_witness :
  let s := Clock.mk 3 1 2 [2; 0; 2] in
  Clock.inv 3 s ∧ ∃ v, v ∈ Clock.cands (Clock.states s).
Proof.
  intros s.
  assert (Hc : Clock.cands (Clock.states s) = {[0; 2]}) by (vm_compute; reflexivity).
  assert (Hi : Clock.inv 3 s).
  { split; [reflexivity|lia|reflexivity|simpl; lia| |].
    - intros i x Hx. apply zget_range in Hx as Hr. change (zlen (Clock.states s)) with 3 in Hr.
      assert (i = 0 ∨ i = 1 ∨ i = 2) as [->|[->| ->]] by lia; vm_compute in Hx;
        injection Hx as <-; lia.
    - by rewrite Hc. }
  split; [done|]. assert (Hne : Clock.cands (Clock.states s) ≠ ∅) by (rewrite Hc; set_solver).
  destruct (clock_pop_total 3 s Hi Hne) as (s' & v & nxt & _ & _ & Hv & _). by exists v.
Defined.

(** Second chance: while some candidate has not been used since the hand
    passed it, the victim is the first such page in clock order, so a page used
    since (state 2) is never evicted before it. *)
Theorem clock_second_chance max s i :
  Clock.inv max s → zget (Clock.states s) i = Some 1 →
  ∃ s' v nxt, Clock.pop s = Ok (s', (v, nxt)) ∧ zget (Clock.states s) v = Some 1 ∧
    ∀ j, 0 ≤ j < max →
      Clock.dist max (Clock.hand s) j < Clock.dist max (Clock.hand s) v →
      zget (Clock.states s) j ≠ Some 1.
Proof.
  intros Hi Hone.
  assert (Hne : Clock.cands (Clock.states s) ≠ ∅).
  { intros He. assert (i ∈ (∅ : gset Z)); [|set_solver]. rewrite <- He.
    apply Clock.elem_cands. eauto with lia. }
  destruct (Clock.clock_pop_spec max s Hi Hne) as (s' & v & nxt & st' & Hp & _ & _ & _ & _ & Hsc).
  exists s', v, nxt. split; [done|].
  pose proof (Clock.inv_len _ _ Hi) as Hlen. pose proof (Clock.inv_hand _ _ Hi) as Hh.
  pose proof (zget_range _ _ _ Hone) as Hir. rewrite Hlen in Hir.
  pose proof (Clock.dist_range max _ i Hh Hir).
  destruct (Clock.scan_one (Clock.scan_fuel s) max (Clock.states s) (Clock.hand s) i)
    as (st2 & h2 & Hsc2 & Hst); [apply Hi|done..| |].
  { unfold Clock.scan_fuel. unfold zlen in Hlen. lia. }
  rewrite Hsc in Hsc2. injection Hsc2 as <- <-.
  destruct Hst as (_ & _ & _ & ? & _ & ?). by split.
Qed.

Lemma clock_second_chance_witness :
  let s := Clock.mk 3 0 3 [2; 1; 2] in
  Clock.inv 3 s ∧ ∃ s' nxt, Clock.pop s = Ok (s', (1, nxt)).
Proof.
  intros s.
  assert (Hi : Clock.inv 3 s).
  { split; [reflexivity|lia|reflexivity|simpl; lia| |vm_compute; reflexivity].
    intros i x Hx. apply zget_range in Hx as Hr. change (zlen (Clock.states s)) with 3 in Hr.
    assert (i = 0 ∨ i = 1 ∨ i = 2) as [->|[->| ->]] by lia; vm_compute in Hx;
      injection Hx as <-; lia. }
  split; [done|].
  destruct (clock_second_chance 3 s 1 Hi eq_refl) as (s' & v & nxt & Hp & Hv & _).
  assert (v = 1) as ->.
  { apply zget_range in Hv as Hr. change (zlen (Clock.states s)) with 3 in Hr.
    assert (v = 0 ∨ v = 1 ∨ v = 2) as [->|[->| ->]] by lia; by vm_compute in Hv. }
  by exists s', nxt.
Defined.
