(* ===== verification/PteHeader.v ===== *)
(** * The page-table entry header and its atomic updates

    [CompactHashPageTable::pte_header] of
    [include/compact_hash_page_table.hpp]: a 16-bit word with the flags
    [exist], [busy], [dirty] and a 13-bit reference count, updated by
    compare-and-swap loops from several threads at once.  The first part has
    the four updates as functions of the old header; [Section cas] runs the
    loops of any number of threads on one word, interleaved at the level of
    single loads and compare-and-swaps, and shows that they apply these
    functions atomically. *)
From S2P Require Import Prelude.

Open Scope Z_scope.

Record pte_header := mk_header {
  h_exist : bool;
  h_busy : bool;
  h_dirty : bool;
  h_ref : Z;
}.

#[export] Instance pte_header_eq_dec : EqDecision pte_header.
Proof. solve_decision. Defined.

Definition EMPTY_HEADER : pte_header := mk_header false false false 0.

(** [uint16_t ref_count : 13] *)
Definition REF_MOD : Z := 2 ^ 13.

Definition header_ok (h : pte_header) : Prop := 0 ≤ h_ref h < REF_MOD.

(** [as_packed] and [from_packed]: the bit fields in declaration order from the
    least significant bit. *)
Definition as_packed (h : pte_header) : Z :=
  Z.b2z (h_exist h) + 2 * Z.b2z (h_busy h) + 4 * Z.b2z (h_dirty h) + 8 * h_ref h.

Definition from_packed (w : Z) : pte_header :=
  mk_header (Z.testbit w 0) (Z.testbit w 1) (Z.testbit w 2) (w / 8 mod REF_MOD).

Lemma testbit_odd_sum (b : bool) (x n : Z) : 0 ≤ n →
  ∀ w, w / 2 ^ n = Z.b2z b + 2 * x → Z.testbit w n = b.
Proof.
  intros Hn w Hw. apply Z.b2z_inj. rewrite Z.testbit_spec' by done. rewrite Hw.
  rewrite (Z.mul_comm 2), Z.mod_add by lia. destruct b; reflexivity.
Qed.

Lemma from_as_packed h : header_ok h → from_packed (as_packed h) = h.
Proof.
  destruct h as [e b d r]. unfold header_ok, as_packed, from_packed, REF_MOD.
  cbn [h_exist h_busy h_dirty h_ref]. intros Hr. f_equal.
  - apply (testbit_odd_sum _ (Z.b2z b + 2 * Z.b2z d + 4 * r)); [lia|].
    rewrite Z.pow_0_r, Z.div_1_r. lia.
  - apply (testbit_odd_sum _ (Z.b2z d + 2 * r)); [lia|]. destruct e, b, d; cbn [Z.b2z]; Z.to_euclidean_division_equations; lia.
  - apply (testbit_odd_sum _ r); [lia|]. destruct e, b, d; cbn [Z.b2z]; Z.to_euclidean_division_equations; lia.
  - destruct e, b, d; cbn [Z.b2z]; Z.to_euclidean_division_equations; lia.
Qed.

Lemma as_packed_range h : header_ok h → 0 ≤ as_packed h < 2 ^ 16.
Proof.
  destruct h as [[] [] [] r]; unfold header_ok, as_packed, REF_MOD; simpl; lia.
Qed.

Lemma as_from_packed w : 0 ≤ w < 2 ^ 16 → as_packed (from_packed w) = w.
Proof.
  intros Hw. unfold as_packed, from_packed, REF_MOD. cbn [h_exist h_busy h_dirty h_ref].
  rewrite !Z.testbit_spec' by lia. Z.to_euclidean_division_equations; lia.
Qed.

Lemma as_packed_inj h1 h2 : header_ok h1 → header_ok h2 → as_packed h1 = as_packed h2 → h1 = h2.
Proof. intros ? ? E. rewrite <- (from_as_packed h1), <- (from_as_packed h2) by done. by f_equal. Qed.

(** ** One round of each update

    The body of the [do]/[while] loop as a function of the header read: [None]
    when the operation returns without writing, [Some h'] when it tries to
    install [h'], together with the value it returns. *)
Abbreviation attempt A := (result (option pte_header * A)).

(** [new_header.ref_count++] and [--] on the 13-bit field. *)
Definition ref_inc (r : Z) : Z := (r + 1) mod REF_MOD.
Definition ref_dec (r : Z) : Z := (r - 1) mod REF_MOD.

Definition inc_ref_count (h : pte_header) : attempt (bool * Z) :=
  if negb (h_exist h) || h_busy h then Ok (None, (false, 0))
  else
    _ ← assert (h_ref h <? 2 ^ 16 - 1 - 1);
    Ok (Some (mk_header (h_exist h) (h_busy h) (h_dirty h) (ref_inc (h_ref h))), (true, h_ref h)).

Definition dec_ref_count (is_write : bool) (h : pte_header) : attempt (bool * Z) :=
  _ ← assert (h_exist h && negb (h_busy h) && (0 <? h_ref h));
  Ok (Some (mk_header (h_exist h) (h_busy h) (if is_write then true else h_dirty h)
              (ref_dec (h_ref h))), (true, h_ref h)).

Definition lock (h : pte_header) : attempt bool :=
  if negb (h_ref h =? 0) || h_busy h then Ok (None, false)
  else Ok (Some (mk_header (h_exist h) true (h_dirty h) (h_ref h)), true).

Definition unlock (h : pte_header) : attempt bool :=
  if negb (h_busy h) then Ok (None, false)
  else Ok (Some (mk_header (h_exist h) false (h_dirty h) (h_ref h)), true).

(** The header after an attempt that runs without interference. *)
Definition applied {A} (h : pte_header) (r : option pte_header * A) : pte_header :=
  default h r.1.

Lemma attempt_ok_inc h h' r : header_ok h → inc_ref_count h = Ok (Some h', r) → header_ok h'.
Proof.
  unfold inc_ref_count, header_ok. destruct (negb (h_exist h) || h_busy h); [done|].
  intros ? H. inv_ok. apply Z.mod_pos_bound. unfold REF_MOD. lia.
Qed.

Lemma attempt_ok_dec w h h' r : header_ok h → dec_ref_count w h = Ok (Some h', r) → header_ok h'.
Proof.
  unfold dec_ref_count, header_ok. intros ? H. inv_ok.
  apply Z.mod_pos_bound. unfold REF_MOD. lia.
Qed.

(** The assertion on the reference count cannot fire: the field is 13 bits
    wide and the bound is that of 16 bits. *)
Lemma inc_assert_vacuous h : header_ok h → is_ok (inc_ref_count h) = true.
Proof.
  unfold inc_ref_count, header_ok, REF_MOD. intros Hr.
  destruct (negb (h_exist h) || h_busy h); [done|].
  destruct (Z.ltb_spec (h_ref h) (2 ^ 16 - 1 - 1)); [done|lia].
Qed.

(** ** The compare-and-swap loops, interleaved

    [mem] is the 16-bit word.  A thread that runs an update first loads the
    word, then alternates the body of the loop with [compare_exchange_weak],
    which installs the new word if the memory still holds the one loaded (and
    may also fail spuriously); on failure it reloads the memory. *)
Section cas.
Context {A : Type}.

(** An update on the packed word. *)
Definition packed_attempt (f : pte_header → attempt A) (w : Z) : result (option Z * A) :=
  match f (from_packed w) with
  | Ok (n, r) => Ok (as_packed <$> n, r)
  | Err e => Err e
  end.

Inductive thread :=
  | Idle (f : pte_header → attempt A)
  | Loaded (f : pte_header → attempt A) (old : Z)
  | Done (r : result A).

Inductive cas_step : Z * list thread → Z * list thread → Prop :=
  | step_load mem ts i f :
      ts !! i = Some (Idle f) →
      cas_step (mem, ts) (mem, <[i := Loaded f mem]> ts)
  | step_assert mem ts i f old e :
      ts !! i = Some (Loaded f old) → packed_attempt f old = Err e →
      cas_step (mem, ts) (mem, <[i := Done (Err e)]> ts)
  | step_return mem ts i f old r :
      ts !! i = Some (Loaded f old) → packed_attempt f old = Ok (None, r) →
      cas_step (mem, ts) (mem, <[i := Done (Ok r)]> ts)
  | step_cas_ok mem ts i f new r :
      ts !! i = Some (Loaded f mem) → packed_attempt f mem = Ok (Some new, r) →
      cas_step (mem, ts) (new, <[i := Done (Ok r)]> ts)
  | step_cas_fail mem ts i f old new r :
      ts !! i = Some (Loaded f old) → packed_attempt f old = Ok (Some new, r) →
      cas_step (mem, ts) (mem, <[i := Loaded f mem]> ts).

(** The specification: a thread applies its update to the header in one step. *)
Inductive op :=
  | Pending (f : pte_header → attempt A)
  | Finished (r : result A).

Definition finish (f : pte_header → attempt A) (h : pte_header) : pte_header * result A :=
  match f h with
  | Ok (n, r) => (default h n, Ok r)
  | Err e => (h, Err e)
  end.

Inductive atomic_step : pte_header * list op → pte_header * list op → Prop :=
  | step_atomic h os i f :
      os !! i = Some (Pending f) →
      atomic_step (h, os) ((finish f h).1, <[i := Finished (finish f h).2]> os).

(** A thread whose next move returns without writing has taken effect at its
    last load. *)
Definition thread_rel (t : thread) (o : op) : Prop :=
  match t with
  | Idle f => o = Pending f
  | Loaded f old =>
      match packed_attempt f old with
      | Ok (None, r) => o = Finished (Ok r)
      | Ok (Some _, _) => o = Pending f
      | Err e => o = Finished (Err e)
      end
  | Done r => o = Finished r
  end.

Definition keeps_ok (f : pte_header → attempt A) : Prop :=
  ∀ h h' r, header_ok h → f h = Ok (Some h', r) → header_ok h'.

Definition op_ok (o : op) : Prop := match o with Pending f => keeps_ok f | Finished _ => True end.

Definition sim (c : Z * list thread) (a : pte_header * list op) : Prop :=
  c.1 = as_packed a.1 ∧ header_ok a.1 ∧ Forall2 thread_rel c.2 a.2 ∧ Forall op_ok a.2.

Lemma packed_attempt_spec f h : header_ok h →
  packed_attempt f (as_packed h) =
    match f h with Ok (n, r) => Ok (as_packed <$> n, r) | Err e => Err e end.
Proof. intros Hh. unfold packed_attempt. by rewrite from_as_packed. Qed.

(** Loading the word: the thread is either still pending, or, when what it read
    makes it return without writing, it takes effect now. *)
Lemma sim_load mem ts h os i f :
  sim (mem, ts) (h, os) → os !! i = Some (Pending f) →
  ∃ os', rtc atomic_step (h, os) (h, os') ∧ sim (mem, <[i := Loaded f mem]> ts) (h, os').
Proof.
  intros (Hm & Hh & Hts & Hok) Ho. simpl in *. subst mem.
  destruct (f h) as [[[h'|] r]|e] eqn:Hf.
  - exists os. split; [done|]. split_and!; try done. simpl.
    rewrite <- (list_insert_id os i (Pending f)) by done.
    apply Forall2_insert; [done|]. simpl. by rewrite packed_attempt_spec, Hf.
  - exists (<[i := Finished (Ok r)]> os). split.
    + apply rtc_once. pose proof (step_atomic h os i f Ho) as H.
      unfold finish in H. by rewrite Hf in H.
    + split_and!; try done; simpl; [|by apply Forall_insert].
      apply Forall2_insert; [done|]. simpl. by rewrite packed_attempt_spec, Hf.
  - exists (<[i := Finished (Err e)]> os). split.
    + apply rtc_once. pose proof (step_atomic h os i f Ho) as H.
      unfold finish in H. by rewrite Hf in H.
    + split_and!; try done; simpl; [|by apply Forall_insert].
      apply Forall2_insert; [done|]. simpl. by rewrite packed_attempt_spec, Hf.
Qed.

Lemma Forall2_get ts os i t : Forall2 thread_rel ts os → ts !! i = Some t →
  ∃ o, os !! i = Some o ∧ thread_rel t o.
Proof. intros H Ht. by apply (Forall2_lookup_l _ _ _ _ _ H). Qed.

(** A thread that is done: the specification did its step already. *)
Lemma sim_done mem ts h os i t t' :
  sim (mem, ts) (h, os) → ts !! i = Some t → (∀ o, thread_rel t o → thread_rel t' o) →
  sim (mem, <[i := t']> ts) (h, os).
Proof.
  intros (Hm & Hh & Hts & Hok) Ht Himp. split_and!; try done. simpl in *.
  destruct (Forall2_get _ _ _ _ Hts Ht) as (o & Ho & Hrel).
  rewrite <- (list_insert_id os i o) by done. apply Forall2_insert; [done|]. by apply Himp.
Qed.

Lemma cas_step_sim c c' a :
  cas_step c c' → sim c a → ∃ a', rtc atomic_step a a' ∧ sim c' a'.
Proof.
  intros Hstep Hsim. destruct a as [h os].
  destruct Hstep as [mem ts i f Ht|mem ts i f old e Ht Hf|mem ts i f old r Ht Hf
                    |mem ts i f new r Ht Hf|mem ts i f old new r Ht Hf].
  - pose proof Hsim as (_ & _ & Hts & _). destruct (Forall2_get _ _ _ _ Hts Ht) as (o & Ho & ->).
    destruct (sim_load _ _ _ _ _ _ Hsim Ho) as (os' & ? & ?). by exists (h, os').
  - exists (h, os). split; [done|]. apply (sim_done _ _ _ _ _ _ _ Hsim Ht). intros o. simpl.
    by rewrite Hf.
  - exists (h, os). split; [done|]. apply (sim_done _ _ _ _ _ _ _ Hsim Ht). intros o. simpl.
    by rewrite Hf.
  - pose proof Hsim as (Hm & Hh & Hts & Hok). simpl in *. subst mem.
    destruct (Forall2_get _ _ _ _ Hts Ht) as (o & Ho & Hrel).
    simpl in Hrel. rewrite Hf in Hrel. subst o. rewrite packed_attempt_spec in Hf by done.
    destruct (f h) as [[[h'|] r']|e] eqn:Hfh; simplify_eq/=.
    exists (h', <[i := Finished (Ok r)]> os). split.
    + apply rtc_once. pose proof (step_atomic h os i f Ho) as H.
      unfold finish in H. by rewrite Hfh in H.
    + pose proof (proj1 (Forall_lookup _ _) Hok i _ Ho) as Hkeep.
      split_and!; simpl; [done|by eapply Hkeep| |by apply Forall_insert].
      by apply Forall2_insert.
  - pose proof Hsim as (_ & _ & Hts & _). destruct (Forall2_get _ _ _ _ Hts Ht) as (o & Ho & Hrel).
    simpl in Hrel. rewrite Hf in Hrel. subst o.
    destruct (sim_load _ _ _ _ _ _ Hsim Ho) as (os' & ? & ?). by exists (h, os').
Qed.
End cas.
Arguments thread : clear implicits.
Arguments op : clear implicits.

(** C32: the compare-and-swap loops are linearizable: whatever the interleaving
    of the threads' loads and compare-and-swaps on one header word (spurious
    failures included), the memory and the results of the finished threads are
    those of some order in which each update was applied in a single step. *)
Theorem cas_linearizable {A} (fs : list (pte_header → attempt A)) h mem' ts' :
  header_ok h → Forall keeps_ok fs →
  rtc cas_step (as_packed h, Idle <$> fs) (mem', ts') →
  ∃ h' os', rtc atomic_step (h, Pending <$> fs) (h', os') ∧ mem' = as_packed h' ∧
    ∀ i r, ts' !! i = Some (Done r) → os' !! i = Some (Finished r).
Proof.
  intros Hh Hfs Hrun.
  assert (Hsim : sim (as_packed h, Idle <$> fs) (h, Pending <$> fs)).
  { split_and!; [done|done| |]; simpl.
    - apply Forall2_fmap_2. apply Forall_Forall2_diag. by apply Forall_true.
    - by apply Forall_fmap. }
  assert (∃ a', rtc atomic_step (h, Pending <$> fs) a' ∧ sim (mem', ts') a')
    as ([h' os'] & Ha & Hm & _ & Hts & _).
  { revert Hsim. generalize (h, Pending <$> fs).
    induction Hrun as [|c1 c2 c3 Hs Hr IH]; intros a Hsim; [by exists a|].
    destruct (cas_step_sim _ _ _ Hs Hsim) as (a1 & Ha1 & Hsim1).
    destruct (IH a1 Hsim1) as (a2 & Ha2 & ?). exists a2. split; [by etrans|done]. }
  exists h', os'. split; [done|]. split; [done|]. intros i r Hi.
  destruct (Forall2_get _ _ _ _ Hts Hi) as (o & Ho & Hrel). simpl in Hrel. by subst o.
Qed.

(** Two threads pin the same entry: both load a count of 0, the first one
    installs 1, the second one fails, reloads and installs 2. *)
Lemma cas_linearizable_witness :
  let h := mk_header true false false 0 in
  let fs := [inc_ref_count; inc_ref_count] in
  let ts' := [Done (Ok (true, 0)); Done (Ok (true, 1))] in
  rtc cas_step (as_packed h, Idle <$> fs) (17, ts') ∧
  ∃ h' os', rtc atomic_step (h, Pending <$> fs) (h', os') ∧ 17 = as_packed h' ∧
    os' !! 1%nat = Some (Finished (Ok (true, 1))).
Proof.
  intros h fs ts'.
  assert (Hrun : rtc cas_step (as_packed h, Idle <$> fs) (17, ts')).
  { eapply rtc_l; [by apply (step_load _ _ 0)|].
    eapply rtc_l; [by apply (step_load _ _ 1)|].
    eapply rtc_l; [by apply (step_cas_ok _ _ 0 inc_ref_count 9 (true, 0))|].
    eapply rtc_l; [by apply (step_cas_fail _ _ 1 inc_ref_count 1 9 (true, 0))|].
    eapply rtc_l; [by apply (step_cas_ok _ _ 1 inc_ref_count 17 (true, 1))|].
    reflexivity. }
  split; [done|].
  assert (Hh : header_ok h) by (unfold header_ok, REF_MOD; simpl; lia).
  assert (Hfs : Forall keeps_ok fs).
  { assert (keeps_ok inc_ref_count) by (intros ???; apply attempt_ok_inc).
    by apply Forall_cons_2; [|apply Forall_cons_2; [|apply Forall_nil_2]]. }
  destruct (cas_linearizable fs h 17 ts' Hh Hfs Hrun) as (h' & os' & ? & ? & Hd).
  exists h', os'. split; [done|]. split; [done|]. by apply Hd.
Defined.

(** The reference count is 13 bits wide while the assertion that guards it
    has the bound of 16 bits: the 8192nd concurrent pin of a page wraps its
    count to zero without any assertion firing, and the page can then be locked
    for eviction although it is pinned. *)
Lemma ref_count_wraps_unguarded h :
  h_exist h = true → h_busy h = false → h_ref h = REF_MOD - 1 →
  inc_ref_count h = Ok (Some (mk_header true false (h_dirty h) 0), (true, REF_MOD - 1)) ∧
  lock (mk_header true false (h_dirty h) 0) =
    Ok (Some (mk_header true true (h_dirty h) 0), true).
Proof.
  intros He Hb Hr. unfold inc_ref_count. rewrite He, Hb, Hr. split; reflexivity.
Qed.

