(* ===== verification/CompactHashPageTable.v ===== *)
(** * The compact hash page table

    [class CompactHashPageTable] of [include/compact_hash_page_table.hpp].
    A cache line packs the entries of eight consecutive virtual pages under
    one tag; the lines hang off [bucket_size] head lines, further lines of a
    bucket come from a pool and are linked by [next].  A pointer to a line is
    its index in [store], [nullptr] is [None].  Each method is a function of
    the table; the header updates are the atomic ones of [PteHeader.v]. *)
From S2P Require Import Prelude PteHeader.
From stdpp Require Import functions list gmap.

Open Scope Z_scope.

(** ** Data *)
Record unpacked_pte := mk_pte {
  p_exist : bool;
  p_busy : bool;
  p_dirty : bool;
  p_ref_count : Z;
  p_ppage_id : Z;
}.

Definition NUM_PACK_PAGES : Z := 8.
Definition EMPTY_TAG : Z := Z.shiftl 1 58 - 1.
Definition EMPTY_PPAGE_ID : Z := 2 ^ 32 - 1.

Record packed_cache_line := mk_line {
  l_tag : Z;
  l_num_using : Z;
  l_headers : list pte_header;
  l_ppage_ids : list Z;
  l_next : option Z;
}.

#[export] Instance line_eq_dec : EqDecision packed_cache_line.
Proof. solve_decision. Defined.

Definition EMPTY_LINE : packed_cache_line :=
  mk_line EMPTY_TAG 0 (replicate 8 EMPTY_HEADER) (replicate 8 EMPTY_PPAGE_ID) None.

Record table := mk_table {
  t_max_vpage_id : Z;
  t_max_ppage_id : Z;
  t_bucket_size : Z;
  t_store : list packed_cache_line;
  t_pool : list Z;
}.

Definition set_tag (l : packed_cache_line) (x : Z) :=
  mk_line x (l_num_using l) (l_headers l) (l_ppage_ids l) (l_next l).
Definition set_num_using (l : packed_cache_line) (x : Z) :=
  mk_line (l_tag l) x (l_headers l) (l_ppage_ids l) (l_next l).
Definition set_headers (l : packed_cache_line) (x : list pte_header) :=
  mk_line (l_tag l) (l_num_using l) x (l_ppage_ids l) (l_next l).
Definition set_ppage_ids (l : packed_cache_line) (x : list Z) :=
  mk_line (l_tag l) (l_num_using l) (l_headers l) x (l_next l).
Definition set_next (l : packed_cache_line) (x : option Z) :=
  mk_line (l_tag l) (l_num_using l) (l_headers l) (l_ppage_ids l) x.
Definition with_store (t : table) (s : list packed_cache_line) : table :=
  mk_table (t_max_vpage_id t) (t_max_ppage_id t) (t_bucket_size t) s (t_pool t).
Definition with_pool (t : table) (p : list Z) : table :=
  mk_table (t_max_vpage_id t) (t_max_ppage_id t) (t_bucket_size t) (t_store t) p.

(** [p->field = ...] for a line pointer. *)
Definition write_line (t : table) (i : Z) (l : packed_cache_line) : result table :=
  s ← awrite (t_store t) i l; Ok (with_store t s).

(** Dereferencing a pointer. *)
Definition read_line (t : table) (i : Z) : result packed_cache_line := aread (t_store t) i.

(** [CompactHashPageTable(_max_vpage_id, _max_ppage_id)] *)
Definition init (max_vpage_id max_ppage_id : Z) : table :=
  let bucket_size := w64 (max_ppage_id * 2) in
  mk_table max_vpage_id max_ppage_id bucket_size
    (replicate (Z.to_nat (bucket_size + max_ppage_id)) EMPTY_LINE)
    (seqZ bucket_size max_ppage_id).

(** ** Private helpers *)
Definition tag_of (vpage_id : Z) : Z := vpage_id / NUM_PACK_PAGES.
Definition offset_of (vpage_id : Z) : Z := vpage_id mod NUM_PACK_PAGES.

Definition get_bucket (t : table) (tag : Z) : Z := tag mod t_bucket_size t.

(** Walks along a chain have as many steps as the store has lines at most. *)
Definition chain_fuel (t : table) : nat := S (length (t_store t)).

Fixpoint find_from (fuel : nat) (t : table) (p : option Z) (tag : Z) : result (option Z) :=
  match p with
  | None => Ok None
  | Some i =>
      match fuel with
      | O => Err OutOfFuel
      | S fuel' =>
          l ← read_line t i;
          if l_tag l =? tag then Ok (Some i) else find_from fuel' t (l_next l) tag
      end
  end.

(** [for (num_retry = 0; num_retry < n; num_retry++)] around a search that
    returns as soon as it finds something. *)
Fixpoint retry {A} (n : positive) (search : () → result (option A)) : result (option A) :=
  match n with
  | xH => search ()
  | xO n' => r ← retry n' search;
             match r with Some a => Ok (Some a) | None => retry n' search end
  | xI n' => r ← search ();
             match r with
             | Some a => Ok (Some a)
             | None =>
                 r ← retry n' search;
                 match r with Some a => Ok (Some a) | None => retry n' search end
             end
  end.

Definition MAX_NUM_RETRY : positive := 1073741824.

Definition find_cacheline (t : table) (tag : Z) (should_exist : bool) : result (option Z) :=
  retry (if should_exist then MAX_NUM_RETRY else 1%positive)
    (λ _, find_from (chain_fuel t) t (Some (get_bucket t tag)) tag).

(** [(false, nullptr)] means creating at the head line of the bucket. *)
Fixpoint find_hint_from (fuel : nat) (t : table) (head i : Z) (tag : Z) :
    result (bool * option Z) :=
  match fuel with
  | O => Err OutOfFuel
  | S fuel' =>
      l ← read_line t i;
      if l_tag l =? tag then Ok (true, Some i)
      else
        match l_next l with
        | None =>
            h ← read_line t head;
            Ok (false, if l_tag h =? EMPTY_TAG then None else Some i)
        | Some j => find_hint_from fuel' t head j tag
        end
  end.

Definition find_cacheline_hint (t : table) (tag : Z) : result (bool * option Z) :=
  find_hint_from (chain_fuel t) t (get_bucket t tag) (get_bucket t tag) tag.

Fixpoint find_pre_from (fuel : nat) (t : table) (p : option Z) (target : option Z) :
    result (option Z) :=
  match p with
  | None => Ok None
  | Some i =>
      match fuel with
      | O => Err OutOfFuel
      | S fuel' =>
          l ← read_line t i;
          if decide (l_next l = target) then Ok (Some i)
          else find_pre_from fuel' t (l_next l) target
      end
  end.

Definition find_pre_cacheline (t : table) (tag : Z) (target : option Z) : result (option Z) :=
  find_pre_from (chain_fuel t) t (Some (get_bucket t tag)) target.

Definition empty_cacheline (l : packed_cache_line) : bool :=
  forallb (λ h, as_packed h =? as_packed EMPTY_HEADER) (l_headers l) &&
  forallb (λ p, p =? EMPTY_PPAGE_ID) (l_ppage_ids l).

Definition create_cacheline (t : table) (tag : Z) (pre : option Z) : result (table * Z) :=
  found ← find_cacheline_hint t tag;
  _ ← assert (bool_decide (found = (false, pre)));
  _ ← match pre with
      | None => Ok tt
      | Some p => l ← read_line t p; assert (bool_decide (l_next l = None))
      end;
  '(t, i) ←
    match pre with
    | None => Ok (t, get_bucket t tag)
    | Some _ =>
        _ ← assert (negb (zlen (t_pool t) =? 0));
        match vec_pop (t_pool t) with
        | Some (pool, i) => Ok (with_pool t pool, i)
        | None => Err Undefined
        end
    end;
  l ← read_line t i;
  _ ← assert (empty_cacheline l);
  t ← write_line t i (set_tag l (tag mod 2 ^ 58));
  match pre with
  | None => Ok (t, i)
  | Some p =>
      l ← read_line t p;
      t ← write_line t p (set_next l (Some i));
      Ok (t, i)
  end.

Definition delete_cacheline (t : table) (i : Z) : result table :=
  l ← read_line t i;
  found ← find_cacheline_hint t (l_tag l);
  _ ← assert (bool_decide (found = (true, Some i)));
  pre ← find_pre_cacheline t (l_tag l) (Some i);
  _ ←
    match pre with
    | None => Ok tt
    | Some p =>
        lp ← read_line t p;
        assert (bool_decide (get_bucket t (l_tag l) = i) || bool_decide (l_next lp = Some i))
    end;
  _ ← assert (empty_cacheline l);
  t ←
    match pre with
    | None => Ok t
    | Some p =>
        lp ← read_line t p;
        t ← write_line t p (set_next lp (l_next l));
        l ← read_line t i;
        t ← write_line t i (set_next l None);
        Ok (with_pool t (t_pool t ++ [i]))
    end;
  l ← read_line t i;
  write_line t i (set_tag l EMPTY_TAG).

(** ** Public operations

    Every operation starts by computing the tag and the offset and finding the
    line, or taking the caller's hint. *)
Definition resolve (t : table) (tag : Z) (hint : option Z) (should_exist : bool) :
    result (option Z) :=
  match hint with
  | Some i => Ok (Some i)
  | None => find_cacheline t tag should_exist
  end.

(** Applies an atomic update to one header of a line. *)
Definition update_header {A} (t : table) (i : Z) (off : Z) (f : pte_header → attempt A) :
    result (table * A) :=
  l ← read_line t i;
  h ← aread (l_headers l) off;
  r ← f h;
  hs ← awrite (l_headers l) off (applied h r);
  t ← write_line t i (set_headers l hs);
  Ok (t, r.2).

(** [tuple<bool, ppage_id_type, uint16_t>] value-initialised by [return {}]. *)
Definition pin_none : bool * Z * Z := (false, 0, 0).

Definition pin (t : table) (vpage_id : Z) (hint : option Z) : result (table * (bool * Z * Z)) :=
  let tag := tag_of vpage_id in
  let offset := offset_of vpage_id in
  cl ← resolve t tag hint false;
  match cl with
  | None => Ok (t, pin_none)
  | Some i =>
      l ← read_line t i;
      _ ← assert (l_tag l =? tag);
      '(t, (has_inc, pre_ref_count)) ← update_header t i offset inc_ref_count;
      if negb has_inc then Ok (t, pin_none)
      else
        l ← read_line t i;
        if negb (l_tag l =? tag) then
          '(t, (has_dec, _)) ← update_header t i offset (dec_ref_count false);
          _ ← assert has_dec;
          Ok (t, pin_none)
        else
          p ← aread (l_ppage_ids l) offset;
          Ok (t, (true, p, pre_ref_count))
  end.

Definition unpin (t : table) (vpage_id : Z) (is_write : bool) (hint : option Z) :
    result (table * Z) :=
  let tag := tag_of vpage_id in
  let offset := offset_of vpage_id in
  cl ← resolve t tag hint true;
  found ← find_cacheline t tag true;
  _ ← assert (bool_decide (found = cl));
  match cl with
  | None => Err AssertFail
  | Some i =>
      l ← read_line t i;
      _ ← assert (l_tag l =? tag);
      '(t, (has_dec, pre_ref_count)) ← update_header t i offset (dec_ref_count is_write);
      _ ← assert has_dec;
      Ok (t, pre_ref_count)
  end.

(** The line of an operation that needs one: [assert(cacheline && cacheline->tag == tag)]. *)
Definition the_line (t : table) (tag : Z) (hint : option Z) : result (Z * packed_cache_line) :=
  cl ← resolve t tag hint false;
  match cl with
  | None => Err AssertFail
  | Some i =>
      l ← read_line t i;
      _ ← assert (l_tag l =? tag);
      Ok (i, l)
  end.

Definition create_mapping (t : table) (vpage_id ppage_id ref_count : Z) (hint : option Z) :
    result (table * bool) :=
  let tag := tag_of vpage_id in
  let offset := offset_of vpage_id in
  '(i, l) ← the_line t tag hint;
  h ← aread (l_headers l) offset;
  _ ← assert (negb (h_exist h));
  '(t, is_lock) ← update_header t i offset lock;
  if negb is_lock then Ok (t, false)
  else
    l ← read_line t i;
    h ← aread (l_headers l) offset;
    _ ← assert (negb (h_exist h));
    _ ← assert (h_busy h);
    _ ← assert (negb (h_dirty h));
    _ ← assert (h_ref h =? 0);
    _ ← assert (ppage_id <? EMPTY_PPAGE_ID);
    hs ← awrite (l_headers l) offset (mk_header true (h_busy h) (h_dirty h) (ref_count mod REF_MOD));
    ps ← awrite (l_ppage_ids l) offset (w32 ppage_id);
    t ← write_line t i (mk_line (l_tag l) ((l_num_using l + 1) mod 2 ^ 4) hs ps (l_next l));
    Ok (t, true).

Definition delete_mapping (t : table) (vpage_id : Z) (hint : option Z) : result (table * bool) :=
  let tag := tag_of vpage_id in
  let offset := offset_of vpage_id in
  '(i, l) ← the_line t tag hint;
  h ← aread (l_headers l) offset;
  _ ← assert (h_exist h);
  '(t, is_lock) ← update_header t i offset lock;
  if negb is_lock then Ok (t, false)
  else
    l ← read_line t i;
    h ← aread (l_headers l) offset;
    _ ← assert (h_exist h);
    _ ← assert (h_busy h);
    _ ← assert (h_ref h =? 0);
    hs ← awrite (l_headers l) offset (mk_header false (h_busy h) false (h_ref h));
    ps ← awrite (l_ppage_ids l) offset EMPTY_PPAGE_ID;
    t ← write_line t i (mk_line (l_tag l) (l_num_using l) hs ps (l_next l));
    Ok (t, true).

Definition release_mapping_lock (t : table) (vpage_id : Z) (hint : option Z) :
    result (table * bool) :=
  let tag := tag_of vpage_id in
  let offset := offset_of vpage_id in
  '(i, _) ← the_line t tag hint;
  '(t, is_unlock) ← update_header t i offset unlock;
  if negb is_unlock then Ok (t, false)
  else
    l ← read_line t i;
    h ← aread (l_headers l) offset;
    t ← (if negb (h_exist h) then write_line t i (set_num_using l ((l_num_using l - 1) mod 2 ^ 4))
         else Ok t);
    l ← read_line t i;
    t ← (if l_num_using l =? 0 then delete_cacheline t i else Ok t);
    Ok (t, true).

Definition to_unpacked (l : packed_cache_line) (offset : Z) : result unpacked_pte :=
  h ← aread (l_headers l) offset;
  p ← aread (l_ppage_ids l) offset;
  Ok (mk_pte (h_exist h) (h_busy h) (h_dirty h) (h_ref h) p).

Definition no_pte : unpacked_pte := mk_pte false false false 0 EMPTY_PPAGE_ID.

Definition get_pte (t : table) (vpage_id : Z) (hint : option Z) : result unpacked_pte :=
  let tag := tag_of vpage_id in
  let offset := offset_of vpage_id in
  cl ← resolve t tag hint false;
  found ← find_cacheline t tag false;
  _ ← assert (bool_decide (found = cl));
  match cl with
  | None => Ok no_pte
  | Some i =>
      l ← read_line t i;
      if negb (l_tag l =? tag) then Ok no_pte else to_unpacked l offset
  end.

Definition find_or_create_hint (t : table) (vpage_id : Z) : result (table * Z) :=
  let tag := tag_of vpage_id in
  '(found, cl) ← find_cacheline_hint t tag;
  if (found : bool) then
    match cl with Some i => Ok (t, i) | None => Err Undefined end
  else create_cacheline t tag cl.

Definition find_hint (t : table) (vpage_id : Z) : result (option Z) :=
  find_cacheline t (tag_of vpage_id) false.

(** ** The invariant

    [tails b] lists the pool lines chained behind head line [b], in order. *)
Definition used (h : pte_header) : bool := h_exist h || h_busy h.

Definition count_used (hs : list pte_header) : Z := Z.of_nat (length (filter (λ h, used h = true) hs)).

Definition entry_wf (h : pte_header) (p : Z) : Prop :=
  header_ok h ∧
  if h_exist h then 0 ≤ p < EMPTY_PPAGE_ID
  else h_dirty h = false ∧ h_ref h = 0 ∧ p = EMPTY_PPAGE_ID.

Record line_wf (l : packed_cache_line) : Prop := {
  wf_headers : zlen (l_headers l) = NUM_PACK_PAGES;
  wf_ppage_ids : zlen (l_ppage_ids l) = NUM_PACK_PAGES;
  wf_num_using : l_num_using l = count_used (l_headers l);
  wf_entries : ∀ o h p, zget (l_headers l) o = Some h → zget (l_ppage_ids l) o = Some p → entry_wf h p;
  wf_empty : l_tag l = EMPTY_TAG → l_num_using l = 0;
}.

Fixpoint linked (st : list packed_cache_line) (i : Z) (ks : list Z) : Prop :=
  ∃ l, zget st i = Some l ∧
    match ks with
    | [] => l_next l = None
    | j :: ks' => l_next l = Some j ∧ linked st j ks'
    end.

Definition bucket (t : table) (b : Z) : Prop := 0 ≤ b < t_bucket_size t.
Definition chain (tails : Z → list Z) (b : Z) : list Z := b :: tails b.

Record table_inv (t : table) (tails : Z → list Z) : Prop := {
  ti_max : 0 < t_max_ppage_id t < EMPTY_PPAGE_ID;
  ti_bucket : t_bucket_size t = t_max_ppage_id t * 2;
  ti_store : zlen (t_store t) = t_bucket_size t + t_max_ppage_id t;
  ti_linked b : bucket t b → linked (t_store t) b (tails b);
  ti_pool_part i : t_bucket_size t ≤ i < t_bucket_size t + t_max_ppage_id t ↔
    i ∈ t_pool t ∨ ∃ b, bucket t b ∧ i ∈ tails b;
  ti_tail_nodup b : bucket t b → NoDup (tails b);
  ti_tail_disj b1 b2 i : bucket t b1 → bucket t b2 → i ∈ tails b1 → i ∈ tails b2 → b1 = b2;
  ti_pool_nodup : NoDup (t_pool t);
  ti_pool_disj b i : bucket t b → i ∈ tails b → i ∉ t_pool t;
  ti_pool_empty i : i ∈ t_pool t → zget (t_store t) i = Some EMPTY_LINE;
  ti_line i l : zget (t_store t) i = Some l → line_wf l;
  ti_tag b i l : bucket t b → i ∈ chain tails b → zget (t_store t) i = Some l →
    l_tag l = EMPTY_TAG ∧ i = b ∨ 0 ≤ l_tag l < EMPTY_TAG ∧ l_tag l mod t_bucket_size t = b;
  ti_unique b i j l1 l2 : bucket t b → i ∈ chain tails b → j ∈ chain tails b →
    zget (t_store t) i = Some l1 → zget (t_store t) j = Some l2 → l_tag l1 = l_tag l2 → i = j;
}.

(** The line of a tag. *)
Definition tag_ok (tag : Z) : Prop := 0 ≤ tag < EMPTY_TAG.
Definition holds (t : table) (tails : Z → list Z) (tag i : Z) (l : packed_cache_line) : Prop :=
  i ∈ chain tails (get_bucket t tag) ∧ zget (t_store t) i = Some l ∧ l_tag l = tag.
Definition absent (t : table) (tails : Z → list Z) (tag : Z) : Prop := ∀ i l, ¬ holds t tails tag i l.

(** The pages an address space can have: their tags do not reach [EMPTY_TAG]. *)
Definition vpage_ok (v : Z) : Prop := 0 ≤ v < NUM_PACK_PAGES * EMPTY_TAG.

Lemma tag_of_ok v : vpage_ok v → tag_ok (tag_of v).
Proof.
  unfold vpage_ok, tag_ok, tag_of, NUM_PACK_PAGES. intros ?.
  generalize dependent EMPTY_TAG. intros. Z.to_euclidean_division_equations; lia.
Qed.

Lemma offset_range v : 0 ≤ offset_of v < NUM_PACK_PAGES.
Proof. unfold offset_of, NUM_PACK_PAGES. apply Z.mod_pos_bound. lia. Qed.

Lemma page_split v v' : v = v' ↔ tag_of v = tag_of v' ∧ offset_of v = offset_of v'.
Proof.
  unfold tag_of, offset_of, NUM_PACK_PAGES. split; [by intros ->|].
  intros [Ht Ho]. rewrite (Z.div_mod v 8), (Z.div_mod v' 8) by lia. by rewrite Ht, Ho.
Qed.

(** *** Chains *)
Section chains.
Implicit Types (st : list packed_cache_line) (ks : list Z).

Lemma linked_head st i ks : linked st i ks → ∃ l, zget st i = Some l.
Proof. destruct ks; simpl; intros (l & Hl & _); by exists l. Qed.

Lemma linked_in st i ks j : linked st i ks → j ∈ i :: ks → ∃ l, zget st j = Some l.
Proof.
  revert i. induction ks as [|k ks IH]; intros i Hl Hj.
  - apply list_elem_of_singleton in Hj as ->. by eapply linked_head.
  - apply elem_of_cons in Hj as [->|Hj]; [by eapply linked_head|].
    destruct Hl as (l & _ & _ & Hl). by apply (IH k).
Qed.

(** A store that has the same links along the chain. *)
Lemma linked_ext st st' i ks :
  (∀ j l, j ∈ i :: ks → zget st j = Some l → ∃ l', zget st' j = Some l' ∧ l_next l' = l_next l) →
  linked st i ks → linked st' i ks.
Proof.
  revert i. induction ks as [|k ks IH]; intros i Hext Hl; simpl in *.
  - destruct Hl as (l & Hl & Hn). destruct (Hext i l) as (l' & ? & Hn'); [set_solver|done|].
    exists l'. by rewrite Hn'.
  - destruct Hl as (l & Hl & Hn & Hr). destruct (Hext i l) as (l' & ? & Hn'); [set_solver|done|].
    exists l'. rewrite Hn'. split_and!; try done. apply IH; [|done].
    intros j lj Hj. apply Hext. set_solver.
Qed.

Lemma linked_zset_ne st i ks j l : j ∉ i :: ks → linked st i ks → linked (zset st j l) i ks.
Proof.
  intros Hj. apply linked_ext. intros k lk Hk Hget. exists lk.
  rewrite zget_zset_ne by set_solver. done.
Qed.

Lemma linked_zset_next st i ks j l l' :
  zget st j = Some l → l_next l' = l_next l → linked st i ks → linked (zset st j l') i ks.
Proof.
  intros Hj Hn. apply linked_ext. intros k lk Hk Hget.
  destruct (decide (j = k)) as [<-|].
  - exists l'. rewrite zget_zset_eq by (by eapply zget_range). by simplify_eq.
  - exists lk. by rewrite zget_zset_ne.
Qed.

Lemma linked_snoc st i ks p lp k lk :
  linked st i ks → NoDup (i :: ks) → last (i :: ks) = Some p → zget st p = Some lp →
  k ∉ i :: ks → zget st k = Some lk → l_next lk = None →
  linked (zset st p (set_next lp (Some k))) i (ks ++ [k]).
Proof.
  revert i. induction ks as [|j ks IH]; intros i Hl Hnd Hlast Hp Hk Hgk Hnk.
  - simpl in *. simplify_eq. exists (set_next lp (Some k)).
    rewrite zget_zset_eq by (by eapply zget_range). split_and!; try done.
    exists lk. rewrite zget_zset_ne by set_solver. done.
  - rewrite last_cons_cons in Hlast. apply NoDup_cons in Hnd as [Hni Hnd].
    destruct Hl as (l & Hgl & Hn & Hr).
    assert (p ≠ i) by (intros ->; apply Hni; by apply last_Some_elem_of).
    exists l. rewrite zget_zset_ne by done. split_and!; try done.
    apply IH; try done. set_solver.
Qed.

Lemma linked_remove st i l1 p lp k lk l2 :
  linked st i (l1 ++ k :: l2) → NoDup (i :: l1 ++ k :: l2) → last (i :: l1) = Some p →
  zget st p = Some lp → zget st k = Some lk →
  linked (zset st p (set_next lp (l_next lk))) i (l1 ++ l2).
Proof.
  revert i. induction l1 as [|j l1 IH]; intros i Hl Hnd Hlast Hp Hk.
  - simpl in *. simplify_eq. destruct Hl as (l & Hgl & Hn & Hr).
    assert (l = lp) as -> by congruence.
    apply NoDup_cons in Hnd as [Hni Hnd].
    destruct l2 as [|m l2]; simpl in Hr; destruct Hr as (lk' & Hk' & Hr);
      assert (lk' = lk) as -> by congruence.
    + exists (set_next lp (l_next lk)). rewrite zget_zset_eq by (by eapply zget_range).
      by rewrite <- Hr.
    + destruct Hr as [Hnk Hr]. exists (set_next lp (l_next lk)).
      rewrite zget_zset_eq by (by eapply zget_range). split_and!; try done.
      apply linked_zset_ne; [set_solver|done].
  - rewrite last_cons_cons in Hlast. simpl in Hnd. apply NoDup_cons in Hnd as [Hni Hnd].
    destruct Hl as (l & Hgl & Hn & Hr).
    assert (p ≠ i).
    { intros ->. apply Hni. apply (elem_of_app (j :: l1)). left.
      by apply last_Some_elem_of. }
    exists l. rewrite zget_zset_ne by done. split_and!; try done. by apply IH.
Qed.

(** Walking a chain for a tag. *)
Lemma find_from_linked t i ks tag fuel :
  linked (t_store t) i ks → (length ks < fuel)%nat →
  ∃ r, find_from fuel t (Some i) tag = Ok r ∧
    match r with
    | Some j => j ∈ i :: ks ∧ ∃ l, zget (t_store t) j = Some l ∧ l_tag l = tag
    | None => ∀ j l, j ∈ i :: ks → zget (t_store t) j = Some l → l_tag l ≠ tag
    end.
Proof.
  revert i fuel. induction ks as [|k ks IH]; intros i fuel Hl Hf.
  - destruct fuel as [|fuel]; [lia|]. destruct Hl as (l & Hgl & Hn). simpl.
    unfold read_line. rewrite (proj2 (aread_Ok _ _ _) Hgl). simpl.
    destruct (Z.eqb_spec (l_tag l) tag) as [Ht|Ht].
    + exists (Some i). split; [done|]. split; [set_solver|]. by exists l.
    + exists None. rewrite Hn. split; [by destruct fuel|].
      intros j lj Hj. apply list_elem_of_singleton in Hj as ->. intros. by simplify_eq.
  - destruct fuel as [|fuel]; [simpl in Hf; lia|]. destruct Hl as (l & Hgl & Hn & Hr). simpl.
    unfold read_line. rewrite (proj2 (aread_Ok _ _ _) Hgl). simpl.
    destruct (Z.eqb_spec (l_tag l) tag) as [Ht|Ht].
    + exists (Some i). split; [done|]. split; [set_solver|]. by exists l.
    + rewrite Hn. destruct (IH k fuel Hr) as (r & Hfind & Hspec); [simpl in Hf; lia|].
      exists r. split; [done|]. destruct r as [j|].
      * destruct Hspec as [? ?]. split; [set_solver|done].
      * intros j lj Hj Hgj. apply elem_of_cons in Hj as [->|Hj]; [by simplify_eq|by eapply Hspec].
Qed.

Lemma find_hint_from_linked t head i ks tag fuel hl :
  linked (t_store t) i ks → (length ks < fuel)%nat → zget (t_store t) head = Some hl →
  ∃ r, find_hint_from fuel t head i tag = Ok r ∧
    match r with
    | (true, Some j) => j ∈ i :: ks ∧ ∃ l, zget (t_store t) j = Some l ∧ l_tag l = tag
    | (true, None) => False
    | (false, p) =>
        (∀ j l, j ∈ i :: ks → zget (t_store t) j = Some l → l_tag l ≠ tag) ∧
        p = if l_tag hl =? EMPTY_TAG then None else last (i :: ks)
    end.
Proof.
  intros Hl Hf Hhead. revert i fuel Hl Hf. induction ks as [|k ks IH]; intros i fuel Hl Hf.
  - destruct fuel as [|fuel]; [lia|]. destruct Hl as (l & Hgl & Hn). simpl.
    unfold read_line. rewrite (proj2 (aread_Ok _ _ _) Hgl). simpl.
    destruct (Z.eqb_spec (l_tag l) tag) as [Ht|Ht].
    + exists (true, Some i). split; [done|]. split; [set_solver|]. by exists l.
    + rewrite Hn, (proj2 (aread_Ok _ _ _) Hhead). simpl. eexists. split; [done|]. simpl.
      split; [|by destruct (l_tag hl =? EMPTY_TAG)].
      intros j lj Hj. apply list_elem_of_singleton in Hj as ->. intros. by simplify_eq.
  - destruct fuel as [|fuel]; [simpl in Hf; lia|]. destruct Hl as (l & Hgl & Hn & Hr). simpl.
    unfold read_line. rewrite (proj2 (aread_Ok _ _ _) Hgl). simpl.
    destruct (Z.eqb_spec (l_tag l) tag) as [Ht|Ht].
    + exists (true, Some i). split; [done|]. split; [set_solver|]. by exists l.
    + rewrite Hn. destruct (IH k fuel Hr) as (r & Hfind & Hspec); [simpl in Hf; lia|].
      exists r. split; [done|]. destruct r as [[] p].
      * destruct p as [j|]; [|done]. destruct Hspec as [? ?]. split; [set_solver|done].
      * destruct Hspec as [Hne ->]. split; [|done].
        intros j lj Hj Hgj. apply elem_of_cons in Hj as [->|Hj]; [by simplify_eq|by eapply Hne].
Qed.

(** The predecessor of a line that is not the head. *)
Lemma find_pre_from_linked t i l1 k l2 p fuel :
  linked (t_store t) i (l1 ++ k :: l2) → NoDup (i :: l1 ++ k :: l2) → last (i :: l1) = Some p →
  (length l1 < fuel)%nat → find_pre_from fuel t (Some i) (Some k) = Ok (Some p).
Proof.
  revert i fuel. induction l1 as [|j l1 IH]; intros i fuel Hl Hnd Hlast Hf;
    (destruct fuel as [|fuel]; [simpl in Hf; lia|]).
  - simpl in *. simplify_eq. destruct Hl as (l & Hgl & Hn & Hr).
    unfold read_line. rewrite (proj2 (aread_Ok _ _ _) Hgl). simpl.
    by rewrite decide_True.
  - destruct Hl as (l & Hgl & Hn & Hr). simpl.
    unfold read_line. rewrite (proj2 (aread_Ok _ _ _) Hgl). simpl.
    apply NoDup_cons in Hnd as [Hni Hnd]. rewrite Hn.
    rewrite decide_False by (simpl in Hnd; apply NoDup_cons in Hnd as [? _]; set_solver).
    apply IH; try done. simpl in Hf. lia.
Qed.

Lemma find_pre_from_none t i ks k fuel :
  linked (t_store t) i ks → k ∉ ks → (length ks < fuel)%nat →
  find_pre_from fuel t (Some i) (Some k) = Ok None.
Proof.
  revert i fuel. induction ks as [|j ks IH]; intros i fuel Hl Hk Hf;
    (destruct fuel as [|fuel]; [simpl in Hf; lia|]).
  - destruct Hl as (l & Hgl & Hn). simpl.
    unfold read_line. rewrite (proj2 (aread_Ok _ _ _) Hgl). simpl. rewrite Hn.
    rewrite decide_False by done. by destruct fuel.
  - destruct Hl as (l & Hgl & Hn & Hr). simpl.
    unfold read_line. rewrite (proj2 (aread_Ok _ _ _) Hgl). simpl. rewrite Hn.
    rewrite decide_False by set_solver. apply IH; [done|set_solver|simpl in Hf; lia].
Qed.
End chains.

(** A search that does not depend on the attempt gives the same answer however
    often it is tried. *)
Lemma retry_const {A} n (r : result (option A)) : retry n (λ _, r) = r.
Proof.
  induction n as [n IH|n IH|]; simpl; [| |done]; rewrite ?IH.
  - destruct r as [[a|]|e]; simpl; rewrite ?IH; done.
  - destruct r as [[a|]|e]; simpl; rewrite ?IH; done.
Qed.

(** ** Lookups under the invariant *)
Section lookups.
Context (t : table) (tails : Z → list Z) (Hi : table_inv t tails).

Lemma get_bucket_ok tag : bucket t (get_bucket t tag).
Proof. apply Z.mod_pos_bound. pose proof (ti_max _ _ Hi). rewrite (ti_bucket _ _ Hi). lia. Qed.

Lemma tail_range b i : bucket t b → i ∈ tails b →
  t_bucket_size t ≤ i < t_bucket_size t + t_max_ppage_id t.
Proof. intros Hb Hin. apply (ti_pool_part _ _ Hi). right. by exists b. Qed.

Lemma chain_nodup b : bucket t b → NoDup (chain tails b).
Proof.
  intros Hb. constructor; [|by apply (ti_tail_nodup _ _ Hi)].
  intros Hin. apply tail_range in Hin; [|done]. unfold bucket in Hb. lia.
Qed.

Lemma chain_range b i : bucket t b → i ∈ chain tails b → 0 ≤ i < zlen (t_store t).
Proof.
  intros Hb Hin. rewrite (ti_store _ _ Hi). pose proof (ti_max _ _ Hi).
  apply elem_of_cons in Hin as [->|Hin]; [unfold bucket in Hb; lia|].
  pose proof (tail_range b i Hb Hin). pose proof (ti_bucket _ _ Hi). lia.
Qed.

Lemma NoDup_bounded (l : list Z) n : NoDup l → (∀ i, i ∈ l → 0 ≤ i < Z.of_nat n) → (length l ≤ n)%nat.
Proof.
  intros Hnd Hr.
  assert (Hs : l ⊆ seqZ 0 (Z.of_nat n)).
  { intros i Hin. apply elem_of_seqZ. specialize (Hr i Hin). lia. }
  pose proof (submseteq_length _ _ (NoDup_submseteq _ _ Hnd Hs)) as Hl.
  rewrite length_seqZ in Hl. lia.
Qed.

Lemma chain_fuel_enough b : bucket t b → (length (tails b) < chain_fuel t)%nat.
Proof.
  intros Hb. pose proof (NoDup_bounded (chain tails b) (length (t_store t)) (chain_nodup b Hb)) as H.
  unfold chain_fuel. simpl in H. enough (S (length (tails b)) ≤ length (t_store t))%nat by lia.
  apply H. intros i Hin. by apply (chain_range b).
Qed.

Lemma holds_unique tag i j l1 l2 : holds t tails tag i l1 → holds t tails tag j l2 → i = j ∧ l1 = l2.
Proof.
  intros (Hc1 & Hg1 & Ht1) (Hc2 & Hg2 & Ht2).
  assert (i = j) as <-.
  { eapply (ti_unique _ _ Hi (get_bucket t tag)); eauto using get_bucket_ok. by rewrite Ht1. }
  by simplify_eq.
Qed.

Lemma find_cacheline_holds tag b i l : holds t tails tag i l → find_cacheline t tag b = Ok (Some i).
Proof.
  intros Hh. unfold find_cacheline. rewrite retry_const.
  pose proof (get_bucket_ok tag) as Hb.
  destruct (find_from_linked t _ _ tag (chain_fuel t) (ti_linked _ _ Hi _ Hb)) as (r & -> & Hr);
    [by apply chain_fuel_enough|].
  destruct r as [j|].
  - destruct Hr as (Hj & lj & Hgj & Htj). do 2 f_equal.
    symmetry. by eapply (holds_unique tag i j l lj).
  - destruct Hh as (Hc & Hg & Ht). by destruct (Hr i l Hc Hg).
Qed.

Lemma find_cacheline_absent tag b : absent t tails tag → find_cacheline t tag b = Ok None.
Proof.
  intros Ha. unfold find_cacheline. rewrite retry_const.
  pose proof (get_bucket_ok tag) as Hb.
  destruct (find_from_linked t _ _ tag (chain_fuel t) (ti_linked _ _ Hi _ Hb)) as (r & -> & Hr);
    [by apply chain_fuel_enough|].
  destruct r as [j|]; [|done]. destruct Hr as (Hj & lj & Hgj & Htj). by destruct (Ha j lj).
Qed.

Lemma holds_dec tag : (∃ i l, holds t tails tag i l) ∨ absent t tails tag.
Proof.
  pose proof (get_bucket_ok tag) as Hb.
  destruct (find_from_linked t _ _ tag (chain_fuel t) (ti_linked _ _ Hi _ Hb)) as (r & _ & Hr);
    [by apply chain_fuel_enough|].
  destruct r as [j|].
  - left. destruct Hr as (Hj & lj & Hgj & Htj). by exists j, lj.
  - right. intros i l (Hc & Hg & Ht). by apply (Hr i l).
Qed.

Lemma find_hint_holds tag i l : holds t tails tag i l → find_cacheline_hint t tag = Ok (true, Some i).
Proof.
  intros Hh. pose proof (get_bucket_ok tag) as Hb.
  destruct (linked_head _ _ _ (ti_linked _ _ Hi _ Hb)) as (hl & Hhl).
  destruct (find_hint_from_linked t (get_bucket t tag) _ _ tag (chain_fuel t) hl (ti_linked _ _ Hi _ Hb)) as (r & Hr & Hs);
    [by apply chain_fuel_enough|done|].
  unfold find_cacheline_hint. rewrite Hr. destruct r as [[] p].
  - destruct p as [j|]; [|done]. destruct Hs as (Hj & lj & Hgj & Htj).
    assert (i = j) as <- by (by eapply (holds_unique tag i j l lj)). done.
  - destruct Hs as [Hs _]. destruct Hh as (Hc & Hg & Ht). by destruct (Hs i l Hc Hg).
Qed.

Lemma find_hint_absent tag hl : absent t tails tag → zget (t_store t) (get_bucket t tag) = Some hl →
  find_cacheline_hint t tag =
    Ok (false, if l_tag hl =? EMPTY_TAG then None else last (chain tails (get_bucket t tag))).
Proof.
  intros Ha Hhl. pose proof (get_bucket_ok tag) as Hb.
  destruct (find_hint_from_linked t (get_bucket t tag) _ _ tag (chain_fuel t) hl (ti_linked _ _ Hi _ Hb)) as (r & Hr & Hs);
    [by apply chain_fuel_enough|done|].
  unfold find_cacheline_hint. rewrite Hr. destruct r as [[] p].
  - destruct p as [j|]; [|done]. destruct Hs as (Hj & lj & Hgj & Htj). by destruct (Ha j lj).
  - destruct Hs as [_ ->]. done.
Qed.

(** A hint is good when it is what a search would find. *)
Definition hint_ok (v : Z) (hint : option Z) : Prop :=
  match hint with None => True | Some i => ∃ l, holds t tails (tag_of v) i l end.

Lemma resolve_holds v i l hint b : hint_ok v hint → holds t tails (tag_of v) i l →
  resolve t (tag_of v) hint b = Ok (Some i).
Proof.
  intros Hh Hl. destruct hint as [j|]; simpl.
  - destruct Hh as [lj Hj]. by destruct (holds_unique _ _ _ _ _ Hl Hj) as [-> _].
  - by eapply find_cacheline_holds.
Qed.

Lemma the_line_holds v i l hint : hint_ok v hint → holds t tails (tag_of v) i l →
  the_line t (tag_of v) hint = Ok (i, l).
Proof.
  intros Hh Hl. unfold the_line. rewrite (resolve_holds _ _ _ _ _ Hh Hl). simpl.
  destruct Hl as (_ & Hg & Ht). unfold read_line. rewrite (proj2 (aread_Ok _ _ _) Hg). simpl.
  by rewrite Ht, Z.eqb_refl.
Qed.

Lemma holds_line tag i l : holds t tails tag i l → line_wf l.
Proof. intros (_ & Hg & _). by eapply (ti_line _ _ Hi). Qed.

Lemma holds_entry v i l : holds t tails (tag_of v) i l → ∃ h p,
  zget (l_headers l) (offset_of v) = Some h ∧ zget (l_ppage_ids l) (offset_of v) = Some p ∧
  entry_wf h p.
Proof.
  intros Hh. pose proof (holds_line _ _ _ Hh) as Hwf. pose proof (offset_range v).
  destruct (zget_is_Some (l_headers l) (offset_of v)) as [h Hgh]; [by rewrite (wf_headers _ Hwf)|].
  destruct (zget_is_Some (l_ppage_ids l) (offset_of v)) as [p Hgp]; [by rewrite (wf_ppage_ids _ Hwf)|].
  exists h, p. split_and!; [done..|]. by apply (wf_entries _ Hwf (offset_of v)).
Qed.

Definition pte_of (h : pte_header) (p : Z) : unpacked_pte :=
  mk_pte (h_exist h) (h_busy h) (h_dirty h) (h_ref h) p.

Lemma get_pte_holds v i l h p hint : hint_ok v hint → holds t tails (tag_of v) i l →
  zget (l_headers l) (offset_of v) = Some h → zget (l_ppage_ids l) (offset_of v) = Some p →
  get_pte t v hint = Ok (pte_of h p).
Proof.
  intros Hh Hl Hgh Hgp. unfold get_pte. rewrite (resolve_holds _ _ _ _ _ Hh Hl). simpl.
  rewrite (find_cacheline_holds _ _ _ _ Hl). simpl. rewrite bool_decide_true by done. simpl.
  destruct Hl as (_ & Hg & Ht). unfold read_line. rewrite (proj2 (aread_Ok _ _ _) Hg). simpl.
  rewrite Ht, Z.eqb_refl. simpl. unfold to_unpacked.
  by rewrite (proj2 (aread_Ok _ _ _) Hgh), (proj2 (aread_Ok _ _ _) Hgp).
Qed.

Lemma get_pte_absent v : absent t tails (tag_of v) → get_pte t v None = Ok no_pte.
Proof.
  intros Ha. unfold get_pte. simpl. by rewrite (find_cacheline_absent _ _ Ha).
Qed.

Lemma get_pte_total v : ∃ e, get_pte t v None = Ok e.
Proof.
  destruct (holds_dec (tag_of v)) as [(i & l & Hl)|Ha].
  - destruct (holds_entry v i l Hl) as (h & p & ? & ? & _). eexists.
    by apply (get_pte_holds v i l h p None).
  - eexists. by apply get_pte_absent.
Qed.

Lemma get_pte_exist v e : get_pte t v None = Ok e → p_exist e || p_busy e = true →
  ∃ i l h, holds t tails (tag_of v) i l ∧ zget (l_headers l) (offset_of v) = Some h ∧
    zget (l_ppage_ids l) (offset_of v) = Some (p_ppage_id e) ∧ e = pte_of h (p_ppage_id e) ∧
    entry_wf h (p_ppage_id e).
Proof.
  intros He Hx. destruct (holds_dec (tag_of v)) as [(i & l & Hl)|Ha].
  - destruct (holds_entry v i l Hl) as (h & p & Hh & Hp & Hwf).
    rewrite (get_pte_holds v i l h p None I Hl Hh Hp) in He. simplify_eq. by exists i, l, h.
  - rewrite get_pte_absent in He by done. by simplify_eq.
Qed.
End lookups.

(** ** Updating one line in place *)
Definition put (t : table) (i : Z) (l : packed_cache_line) : table :=
  with_store t (zset (t_store t) i l).

Definition put_entry (l : packed_cache_line) (o : Z) (h : pte_header) (p n : Z) : packed_cache_line :=
  mk_line (l_tag l) n (zset (l_headers l) o h) (zset (l_ppage_ids l) o p) (l_next l).

Lemma put_put t i l l' : put (put t i l) i l' = put t i l'.
Proof. unfold put, with_store. simpl. by rewrite zset_zset. Qed.

Lemma put_id t i l : zget (t_store t) i = Some l → put t i l = t.
Proof. intros Hg. unfold put, with_store. rewrite zset_id by done. by destruct t. Qed.

Lemma zget_put t i l l0 : zget (t_store t) i = Some l0 → zget (t_store (put t i l)) i = Some l.
Proof. intros Hg. apply zget_zset_eq. by eapply zget_range. Qed.

Lemma put_cases t i l l0 j lj : zget (t_store t) i = Some l0 → zget (t_store (put t i l)) j = Some lj →
  j = i ∧ lj = l ∨ j ≠ i ∧ zget (t_store t) j = Some lj.
Proof.
  intros Hg. unfold put. simpl. rewrite zget_zset. pose proof (zget_range _ _ _ Hg).
  case_decide as Hd; intros E; [left|right].
  - destruct Hd as [<- _]. by simplify_eq.
  - split; [|done]. intros ->. tauto.
Qed.

Lemma read_line_Ok t i l : zget (t_store t) i = Some l → read_line t i = Ok l.
Proof. apply aread_Ok. Qed.

Lemma write_line_Ok t i l l0 : zget (t_store t) i = Some l0 → write_line t i l = Ok (put t i l).
Proof.
  intros Hg. unfold write_line. rewrite awrite_total by (by eapply zget_range). done.
Qed.

Lemma update_header_Ok {A} t i l o h (f : pte_header → attempt A) r :
  zget (t_store t) i = Some l → zget (l_headers l) o = Some h → f h = Ok r →
  update_header t i o f = Ok (put t i (set_headers l (zset (l_headers l) o (applied h r))), r.2).
Proof.
  intros Hg Hh Hf. unfold update_header. rewrite (read_line_Ok _ _ _ Hg). simpl.
  rewrite (proj2 (aread_Ok _ _ _) Hh). simpl. rewrite Hf. simpl.
  rewrite awrite_total by (by eapply zget_range). simpl.
  by rewrite (write_line_Ok _ _ _ _ Hg).
Qed.

Lemma count_used_insert (hs : list pte_header) (n : nat) h h' : hs !! n = Some h →
  count_used (<[n := h']> hs) = count_used hs - Z.b2z (used h) + Z.b2z (used h').
Proof.
  unfold count_used. revert n. induction hs as [|h0 hs IH]; intros [|n] Hn; simplify_eq/=.
  - rewrite !filter_cons. destruct (used h), (used h');
      repeat first [rewrite decide_True by done|rewrite decide_False by done]; simpl; lia.
  - specialize (IH n Hn). rewrite !filter_cons. destruct (used h0);
      [rewrite !decide_True by done|rewrite !decide_False by done]; simpl; lia.
Qed.

Lemma count_used_zset (hs : list pte_header) o h h' : zget hs o = Some h →
  count_used (zset hs o h') = count_used hs - Z.b2z (used h) + Z.b2z (used h').
Proof.
  unfold zget, zset. intros Hg. case_decide; [|done]. by apply count_used_insert.
Qed.

Lemma count_used_range (hs : list pte_header) : 0 ≤ count_used hs ≤ zlen hs.
Proof.
  unfold count_used, zlen. pose proof (length_filter (λ h, used h = true) hs). lia.
Qed.

Lemma count_used_zero (hs : list pte_header) o h : count_used hs = 0 → zget hs o = Some h → used h = false.
Proof.
  unfold count_used, zget. intros Hc Hg. case_decide; [|done].
  apply list_elem_of_lookup_2 in Hg. destruct (used h) eqn:E; [|done].
  assert (Hin : h ∈ filter (λ h, used h = true) hs) by (by apply list_elem_of_filter).
  destruct (filter _ hs); [by apply elem_of_nil in Hin|simpl in Hc; lia].
Qed.

Lemma put_entry_wf l o h p h' p' n :
  line_wf l → l_tag l ≠ EMPTY_TAG → zget (l_headers l) o = Some h → zget (l_ppage_ids l) o = Some p →
  entry_wf h' p' → n = l_num_using l - Z.b2z (used h) + Z.b2z (used h') →
  line_wf (put_entry l o h' p' n).
Proof.
  intros [Hlh Hlp Hnu He Hem] Htag Hh Hp Hwf ->. split; simpl.
  - by rewrite zlen_zset. - by rewrite zlen_zset.
  - rewrite (count_used_zset _ _ h) by done. lia.
  - intros o2 h2 p2. rewrite !zget_zset. apply zget_range in Hh, Hp.
    destruct (decide (o = o2)) as [<-|Hne].
    + rewrite !decide_True by done. intros. by simplify_eq.
    + rewrite !decide_False by tauto. apply He.
  - done.
Qed.

Section put.
Context (t : table) (tails : Z → list Z) (Hi : table_inv t tails).

Lemma chain_not_pool b i : bucket t b → i ∈ chain tails b → i ∉ t_pool t.
Proof.
  intros Hb Hc Hp. apply elem_of_cons in Hc as [->|Hc].
  - assert (t_bucket_size t ≤ b < t_bucket_size t + t_max_ppage_id t); [|unfold bucket in Hb; lia].
    apply (ti_pool_part _ _ Hi). by left.
  - by eapply (ti_pool_disj _ _ Hi).
Qed.

Lemma holds_not_pool tag i l : holds t tails tag i l → i ∉ t_pool t.
Proof. intros (Hc & _ & _). eapply chain_not_pool; [|done]. by eapply get_bucket_ok. Qed.

Lemma put_inv tag i l l' : holds t tails tag i l → l_tag l' = l_tag l → l_next l' = l_next l →
  line_wf l' → table_inv (put t i l') tails.
Proof.
  intros Hh Ht Hn Hwf. pose proof (holds_not_pool _ _ _ Hh) as Hnp. pose proof Hh as (Hc & Hg & Htag).
  assert (Hback : ∀ j lj, zget (t_store (put t i l')) j = Some lj →
    ∃ lj0, zget (t_store t) j = Some lj0 ∧ l_tag lj = l_tag lj0).
  { intros j lj Hj. destruct (put_cases _ _ _ _ _ _ Hg Hj) as [[-> ->]|[_ ?]]; eauto. }
  split.
  - apply (ti_max _ _ Hi). - apply (ti_bucket _ _ Hi).
  - simpl. rewrite zlen_zset. apply (ti_store _ _ Hi).
  - intros b Hb. simpl. eapply linked_zset_next; [done..|]. by apply (ti_linked _ _ Hi).
  - apply (ti_pool_part _ _ Hi). - apply (ti_tail_nodup _ _ Hi). - apply (ti_tail_disj _ _ Hi).
  - apply (ti_pool_nodup _ _ Hi). - apply (ti_pool_disj _ _ Hi).
  - intros j Hj. simpl in *. rewrite zget_zset_ne by (by intros ->). by apply (ti_pool_empty _ _ Hi).
  - intros j lj Hj. destruct (put_cases _ _ _ _ _ _ Hg Hj) as [[_ ->]|[_ ?]]; [done|].
    by eapply (ti_line _ _ Hi).
  - intros b j lj Hb Hj Hgj. destruct (Hback _ _ Hgj) as (lj0 & ? & ->).
    by apply (ti_tag _ _ Hi b j).
  - intros b j k lj lk Hb Hj Hk Hgj Hgk Heq. destruct (Hback _ _ Hgj) as (lj0 & ? & E1).
    destruct (Hback _ _ Hgk) as (lk0 & ? & E2). rewrite E1, E2 in Heq.
    by eapply (ti_unique _ _ Hi b j k).
Qed.

Lemma put_holds tag i l l' tag' j lj : holds t tails tag i l → l_tag l' = l_tag l →
  holds (put t i l') tails tag' j lj ↔
    (tag' = tag ∧ j = i ∧ lj = l') ∨ (tag' ≠ tag ∧ holds t tails tag' j lj).
Proof.
  intros Hh Ht. pose proof Hh as (Hc & Hg & Htag). split.
  - intros (Hc' & Hg' & Ht'). destruct (put_cases _ _ _ _ _ _ Hg Hg') as [[-> ->]|[Hne Hgj]].
    + left. split; [congruence|done].
    + right. assert (holds t tails tag' j lj) as Hh' by done. split; [|done]. intros ->.
      by destruct (holds_unique _ _ Hi _ _ _ _ _ Hh Hh') as [-> _].
  - intros [(-> & -> & ->)|(Hne & Hc' & Hg' & Ht')].
    + split_and!; [done|by eapply zget_put|congruence].
    + split_and!; [done| |done]. simpl. rewrite zget_zset_ne; [done|]. intros ->. congruence.
Qed.

Lemma put_entry_view v i l h p h' p' n :
  vpage_ok v → holds t tails (tag_of v) i l →
  zget (l_headers l) (offset_of v) = Some h → zget (l_ppage_ids l) (offset_of v) = Some p →
  entry_wf h' p' → n = l_num_using l - Z.b2z (used h) + Z.b2z (used h') →
  let t' := put t i (put_entry l (offset_of v) h' p' n) in
  table_inv t' tails ∧
  (∀ v', get_pte t' v' None = if decide (v' = v) then Ok (pte_of h' p') else get_pte t v' None).
Proof.
  intros Hv Hh Hgh Hgp Hwf Hn t'.
  pose proof Hh as (Hc & Hg & Htag). pose proof (tag_of_ok v Hv) as Hok.
  assert (Hlwf : line_wf (put_entry l (offset_of v) h' p' n)).
  { eapply put_entry_wf; [by eapply (ti_line _ _ Hi)|unfold tag_ok in Hok; lia|done..]. }
  assert (Hi' : table_inv t' tails) by (by eapply put_inv).
  split; [done|]. intros v'.
  pose proof (put_holds _ _ _ (put_entry l (offset_of v) h' p' n) (tag_of v') i (put_entry l (offset_of v) h' p' n) Hh eq_refl) as Hput.
  destruct (decide (tag_of v' = tag_of v)) as [Htv|Htv].
  - assert (Hh' : holds t' tails (tag_of v') i (put_entry l (offset_of v) h' p' n)).
    { apply Hput. by left. }
    destruct (decide (offset_of v' = offset_of v)) as [Hov|Hov].
    + rewrite decide_True by (by apply page_split).
      eapply (get_pte_holds _ _ Hi'); [done|done|..]; simpl; rewrite Hov.
      * apply zget_zset_eq. by eapply zget_range.
      * apply zget_zset_eq. by eapply zget_range.
    + rewrite decide_False by (by intros ->).
      rewrite <- Htv in Hh. destruct (holds_entry _ _ Hi v' i l Hh) as (h2 & p2 & Hh2 & Hp2 & _).
      rewrite (get_pte_holds _ _ Hi v' i l h2 p2 None I Hh Hh2 Hp2).
      eapply (get_pte_holds _ _ Hi'); [done|done|..]; simpl; rewrite zget_zset_ne by done; done.
  - rewrite decide_False by (by intros ->).
    destruct (holds_dec _ _ Hi (tag_of v')) as [(j & lj & Hj)|Ha].
    + destruct (holds_entry _ _ Hi v' j lj Hj) as (h2 & p2 & Hh2 & Hp2 & _).
      rewrite (get_pte_holds _ _ Hi v' j lj h2 p2 None I Hj Hh2 Hp2).
      eapply (get_pte_holds _ _ Hi' v' j lj); [done| |done|done].
      by apply (put_holds _ _ _ _ _ _ _ Hh); [|right].
    + rewrite (get_pte_absent _ _ Hi) by done. apply (get_pte_absent _ _ Hi').
      intros j lj Hj. apply (put_holds _ _ _ _ _ _ _ Hh) in Hj as [(? & _)|[_ Hj]]; [done| |done].
      by apply (Ha j lj).
Qed.
End put.

(** ** Unlinking and linking lines *)
Definition same_entries (l l' : packed_cache_line) : Prop :=
  l_tag l' = l_tag l ∧ l_num_using l' = l_num_using l ∧
  l_headers l' = l_headers l ∧ l_ppage_ids l' = l_ppage_ids l.

Lemma same_entries_wf l l' : same_entries l l' → line_wf l → line_wf l'.
Proof.
  intros (Ht & Hn & Hh & Hp) [? ? ? ? ?]. split; rewrite ?Ht, ?Hn, ?Hh, ?Hp; done.
Qed.

Lemma zlen_list {A} (l : list A) n (x : A) : zlen l = Z.of_nat n →
  (∀ o y, zget l o = Some y → y = x) → l = replicate n x.
Proof.
  unfold zlen. intros Hlen Hx. apply list_eq. intros k.
  destruct (decide (k < n)%nat).
  - rewrite lookup_replicate_2 by done.
    destruct (lookup_lt_is_Some_2 l k) as [y Hy]; [lia|]. rewrite Hy. f_equal.
    apply (Hx (Z.of_nat k)). by rewrite zget_nat.
  - rewrite !lookup_ge_None_2; [done|rewrite length_replicate; lia|lia].
Qed.

Lemma unused_entry h p : entry_wf h p → used h = false → h = EMPTY_HEADER ∧ p = EMPTY_PPAGE_ID.
Proof.
  destruct h as [[] [] d r]; unfold entry_wf, used; simpl; try done.
  intros (_ & -> & -> & ->) _. done.
Qed.

(** A line without users is empty. *)
Lemma unused_line l : line_wf l → l_num_using l = 0 →
  l = mk_line (l_tag l) 0 (replicate 8 EMPTY_HEADER) (replicate 8 EMPTY_PPAGE_ID) (l_next l).
Proof.
  intros [Hlh Hlp Hnu He _] Hz.
  assert (Hall : ∀ o h p, zget (l_headers l) o = Some h → zget (l_ppage_ids l) o = Some p →
    h = EMPTY_HEADER ∧ p = EMPTY_PPAGE_ID).
  { intros o h p Hh Hp. apply unused_entry; [by eapply He|].
    by eapply count_used_zero; [rewrite <- Hnu|]. }
  destruct l as [tag n hs ps nx]; simpl in *. subst n. f_equal; [done|..].
  - apply (zlen_list hs 8 EMPTY_HEADER); [done|]. intros o h Hh.
    destruct (zget_is_Some ps o) as [p Hp]; [apply zget_range in Hh; by rewrite Hlp, <- Hlh|].
    by apply (Hall o h p).
  - apply (zlen_list ps 8 EMPTY_PPAGE_ID); [done|]. intros o p Hp.
    destruct (zget_is_Some hs o) as [h Hh]; [apply zget_range in Hp; by rewrite Hlh, <- Hlp|].
    by apply (Hall o h p).
Qed.

Lemma empty_cacheline_empty tag n nx :
  empty_cacheline (mk_line tag n (replicate 8 EMPTY_HEADER) (replicate 8 EMPTY_PPAGE_ID) nx) = true.
Proof. reflexivity. Qed.

Lemma empty_line_wf tag nx :
  line_wf (mk_line tag 0 (replicate 8 EMPTY_HEADER) (replicate 8 EMPTY_PPAGE_ID) nx).
Proof.
  split; try reflexivity. intros o h p.
  cbn [l_headers l_ppage_ids]. intros Hh%zget_replicate_inv Hp%zget_replicate_inv.
  subst. unfold entry_wf, header_ok, REF_MOD. simpl. lia.
Qed.

(** Two tables agree on a page when its line has the same entries in both, or
    when both have nothing for it. *)
Definition blank (t : table) (tails : Z → list Z) (tag : Z) : Prop :=
  ∀ i l, holds t tails tag i l → l_num_using l = 0.

Lemma get_pte_blank t tails v : table_inv t tails → blank t tails (tag_of v) → get_pte t v None = Ok no_pte.
Proof.
  intros Hi Hb. destruct (holds_dec _ _ Hi (tag_of v)) as [(i & l & Hl)|Ha]; [|by eapply get_pte_absent].
  pose proof (offset_range v). pose proof (Hb _ _ Hl) as Hz.
  pose proof (unused_line l (holds_line _ _ Hi _ _ _ Hl) Hz) as El.
  rewrite (get_pte_holds _ _ Hi v i l EMPTY_HEADER EMPTY_PPAGE_ID None I Hl); [done|..];
    rewrite El; cbn [l_headers l_ppage_ids]; by apply zget_replicate.
Qed.

Lemma get_pte_same t tails t' tails' v :
  table_inv t tails → table_inv t' tails' →
  (∀ i l, holds t tails (tag_of v) i l → ∃ i' l', holds t' tails' (tag_of v) i' l' ∧ same_entries l l') →
  (absent t tails (tag_of v) → absent t' tails' (tag_of v)) →
  get_pte t' v None = get_pte t v None.
Proof.
  intros Hi Hi' Hsame Habs. destruct (holds_dec _ _ Hi (tag_of v)) as [(i & l & Hl)|Ha].
  - destruct (Hsame _ _ Hl) as (i' & l' & Hl' & _ & _ & Eh & Ep).
    destruct (holds_entry _ _ Hi v i l Hl) as (h & p & Hh & Hp & _).
    rewrite (get_pte_holds _ _ Hi v i l h p None I Hl Hh Hp).
    apply (get_pte_holds _ _ Hi' v i' l'); [done|done|by rewrite Eh|by rewrite Ep].
  - rewrite (get_pte_absent _ _ Hi) by done. apply (get_pte_absent _ _ Hi'). auto.
Qed.

Section head_line.
Context (t : table) (tails : Z → list Z) (Hi : table_inv t tails).
Context (b : Z) (l : packed_cache_line) (x : Z) (Hb : bucket t b).
Context (Hg : zget (t_store t) b = Some l) (Hz : l_num_using l = 0).

Lemma head_tag_inv : x = EMPTY_TAG ∨ tag_ok x ∧ get_bucket t x = b ∧ absent t tails x →
  table_inv (put t b (set_tag l x)) tails.
Proof.
  intros Hx.
  assert (Hother : ∀ b' j lj, bucket t b' → j ∈ chain tails b' → j ≠ b → zget (t_store t) j = Some lj →
    b = b' → l_tag lj ≠ x).
  { intros b' j lj Hb' Hj Hne Hgj <- E. destruct Hx as [->|(_ & Hbx & Ha)].
    - destruct (ti_tag _ _ Hi b j lj) as [[_ ?]|[? _]]; [done..| |]; [done|lia].
    - apply (Ha j lj). split; [by rewrite Hbx|done]. }
  split.
  - apply (ti_max _ _ Hi). - apply (ti_bucket _ _ Hi).
  - simpl. rewrite zlen_zset. apply (ti_store _ _ Hi).
  - intros b' Hb'. simpl. eapply linked_zset_next; [done..|]. by apply (ti_linked _ _ Hi).
  - apply (ti_pool_part _ _ Hi). - apply (ti_tail_nodup _ _ Hi). - apply (ti_tail_disj _ _ Hi).
  - apply (ti_pool_nodup _ _ Hi). - apply (ti_pool_disj _ _ Hi).
  - intros j Hj. simpl in *. rewrite zget_zset_ne; [by apply (ti_pool_empty _ _ Hi)|].
    intros ->. unfold bucket in Hb.
    assert (t_bucket_size t ≤ j < t_bucket_size t + t_max_ppage_id t); [|lia].
    apply (ti_pool_part _ _ Hi). by left.
  - intros j lj [[-> ->]|[_ Hj]]%(put_cases _ _ _ _ _ _ Hg); [|by eapply (ti_line _ _ Hi)].
    rewrite (unused_line l) by (done || by eapply (ti_line _ _ Hi)). apply empty_line_wf.
  - intros b' j lj Hb' Hj [[-> ->]|[_ Hgj]]%(put_cases _ _ _ _ _ _ Hg); [|by apply (ti_tag _ _ Hi b' j)].
    assert (b = b') as <-.
    { apply elem_of_cons in Hj as [->|Hj]; [done|].
      pose proof (tail_range _ _ Hi b' b Hb' Hj). unfold bucket in Hb. lia. }
    simpl. destruct Hx as [->|(? & ? & _)]; [by left|by right].
  - intros b' j k lj lk Hb' Hj Hk [[-> ->]|[Hj1 Hgj]]%(put_cases _ _ _ _ _ _ Hg) [[-> ->]|[Hk1 Hgk]]%(put_cases _ _ _ _ _ _ Hg) E.
    + done.
    + exfalso. eapply (Hother b' k lk); try done. apply elem_of_cons in Hj as [->|Hj]; [done|].
      pose proof (tail_range _ _ Hi b' b Hb' Hj). unfold bucket in Hb. lia.
    + exfalso. eapply (Hother b' j lj); try done. apply elem_of_cons in Hk as [->|Hk]; [done|].
      pose proof (tail_range _ _ Hi b' b Hb' Hk). unfold bucket in Hb. lia.
    + by eapply (ti_unique _ _ Hi b' j k).
Qed.

(** Lines of the other tags are untouched. *)
Lemma head_tag_holds tag j lj : tag ≠ x → tag ≠ l_tag l →
  holds (put t b (set_tag l x)) tails tag j lj ↔ holds t tails tag j lj.
Proof.
  intros Hx Hl. split; intros (Hc & Hgj & Ht).
  - apply (put_cases _ _ _ _ _ _ Hg) in Hgj as [[-> ->]|[? ?]]; [simpl in Ht; congruence|done].
  - split_and!; [done| |done]. simpl. rewrite zget_zset_ne; [done|]. intros <-. congruence.
Qed.
End head_line.

(** Removing the line [i] from the tail of its bucket. *)
Section unlink.
Context (t : table) (tails : Z → list Z) (Hi : table_inv t tails).
Context (b i p : Z) (l lp : packed_cache_line) (l1 l2 : list Z) (Hb : bucket t b).
Context (Ht : tails b = l1 ++ i :: l2) (Hp : last (b :: l1) = Some p).
Context (Hgi : zget (t_store t) i = Some l) (Hgp : zget (t_store t) p = Some lp).

Definition unlinked : table :=
  with_pool (put (put t p (set_next lp (l_next l))) i EMPTY_LINE) (t_pool t ++ [i]).
Definition unlinked_tails : Z → list Z := <[b := l1 ++ l2]> tails.

Lemma unlink_in : i ∈ tails b.
Proof. rewrite Ht. set_solver. Qed.

Lemma unlink_pre : p ≠ i ∧ p ∈ chain tails b.
Proof.
  pose proof (chain_nodup _ _ Hi b Hb) as Hnd. unfold chain in Hnd. rewrite Ht in Hnd.
  assert (Hin : p ∈ b :: l1) by (by apply last_Some_elem_of). split.
  - intros ->. change (b :: l1 ++ i :: l2) with ((b :: l1) ++ i :: l2) in Hnd.
    apply NoDup_app in Hnd as (_ & Hd & _). apply (Hd i Hin). set_solver.
  - unfold chain. rewrite Ht. set_solver.
Qed.

Lemma unlink_tails b' j : bucket t b' → j ∈ unlinked_tails b' ↔ j ∈ tails b' ∧ j ≠ i.
Proof.
  intros Hb'. unfold unlinked_tails. pose proof (ti_tail_nodup _ _ Hi b Hb) as Hnd. rewrite Ht in Hnd.
  destruct (decide (b' = b)) as [->|Hne].
  - rewrite fn_lookup_insert, Ht. apply NoDup_app in Hnd as (Hnd1 & Hd & Hnd2).
    apply NoDup_cons in Hnd2 as [Hn2 _]. split; [|set_solver].
    intros Hj. split; [set_solver|]. intros ->. apply elem_of_app in Hj as [Hj|Hj]; [|done].
    apply (Hd i Hj). set_solver.
  - rewrite fn_lookup_insert_ne by done. split; [|tauto]. intros Hj. split; [done|]. intros ->.
    apply Hne. apply (ti_tail_disj _ _ Hi b' b i); [done..|apply unlink_in].
Qed.

Lemma unlink_chain b' j : bucket t b' → j ∈ chain unlinked_tails b' ↔ j ∈ chain tails b' ∧ j ≠ i.
Proof.
  intros Hb'. unfold chain. rewrite !elem_of_cons, unlink_tails by done.
  pose proof (tail_range _ _ Hi b i Hb unlink_in). unfold bucket in Hb'.
  split; [|tauto]. intros [->|?]; [|tauto]. split; [by left|lia].
Qed.

Lemma unlink_line j lj : zget (t_store unlinked) j = Some lj →
  j = i ∧ lj = EMPTY_LINE ∨ j ≠ i ∧ ∃ lj0, zget (t_store t) j = Some lj0 ∧ same_entries lj0 lj.
Proof.
  simpl. rewrite zget_zset, zlen_zset. pose proof (zget_range _ _ _ Hgi).
  case_decide as Hd; [destruct Hd as [<- _]; intros; left; naive_solver|].
  rewrite zget_zset. intros Hj. right. split; [intros ->; tauto|].
  case_decide as Hd2; [|by exists lj]. destruct Hd2 as [<- _]. exists lp. by simplify_eq.
Qed.

Lemma unlink_line_back j lj : j ≠ i → zget (t_store t) j = Some lj →
  ∃ lj', zget (t_store unlinked) j = Some lj' ∧ same_entries lj lj'.
Proof.
  intros Hne Hj. simpl. rewrite zget_zset_ne by done. rewrite zget_zset.
  case_decide as Hd; [|by exists lj]. destruct Hd as [<- _]. simplify_eq. by eexists.
Qed.

Lemma unlink_linked b' : bucket t b' → linked (t_store unlinked) b' (unlinked_tails b').
Proof.
  intros Hb'. pose proof (ti_linked _ _ Hi b' Hb') as Hl. simpl.
  apply linked_zset_ne.
  { change (i ∉ chain unlinked_tails b'). rewrite unlink_chain by done. tauto. }
  unfold unlinked_tails.
  destruct (decide (b' = b)) as [->|Hne].
  - rewrite fn_lookup_insert. rewrite Ht in Hl.
    apply (linked_remove _ _ _ p lp i l l2); [done| |done..].
    pose proof (chain_nodup _ _ Hi b Hb) as Hnd. unfold chain in Hnd. by rewrite Ht in Hnd.
  - rewrite fn_lookup_insert_ne by done. apply linked_zset_ne; [|done].
    destruct unlink_pre as [_ Hpc]. intros Hpc'. apply Hne.
    apply elem_of_cons in Hpc as [->|Hpc]; apply elem_of_cons in Hpc' as [Hpc'|Hpc'].
    + done.
    + pose proof (tail_range _ _ Hi b' _ Hb' Hpc'). unfold bucket in Hb. lia.
    + subst. pose proof (tail_range _ _ Hi b _ Hb Hpc). unfold bucket in Hb'. lia.
    + by apply (ti_tail_disj _ _ Hi b' b p).
Qed.

Lemma unlink_pool j : j ∈ t_pool unlinked ↔ j ∈ t_pool t ∨ j = i.
Proof. simpl. rewrite elem_of_app, list_elem_of_singleton. done. Qed.

Lemma unlink_inv : table_inv unlinked unlinked_tails.
Proof.
  assert (Hbk : ∀ b', bucket unlinked b' ↔ bucket t b') by done.
  split.
  - apply (ti_max _ _ Hi). - apply (ti_bucket _ _ Hi).
  - simpl. rewrite !zlen_zset. apply (ti_store _ _ Hi).
  - apply unlink_linked.
  - intros j. rewrite unlink_pool. change (t_bucket_size unlinked) with (t_bucket_size t).
    change (t_max_ppage_id unlinked) with (t_max_ppage_id t). rewrite (ti_pool_part _ _ Hi j).
    split.
    + intros [?|(b' & Hb' & Hj)]; [tauto|]. destruct (decide (j = i)); [tauto|].
      right. exists b'. by rewrite unlink_tails.
    + intros [[?| ->]|(b' & Hb' & Hj)]; [by left| |].
      * right. exists b. split; [done|apply unlink_in].
      * right. exists b'. apply unlink_tails in Hj; [|done]. tauto.
  - intros b' Hb'. unfold unlinked_tails. destruct (decide (b' = b)) as [->|].
    + rewrite fn_lookup_insert. pose proof (ti_tail_nodup _ _ Hi b Hb) as Hnd. rewrite Ht in Hnd.
      eapply sublist_NoDup; [done|]. apply sublist_app; [done|]. by apply sublist_cons.
    + rewrite fn_lookup_insert_ne by done. by apply (ti_tail_nodup _ _ Hi).
  - intros b1 b2 j Hb1 Hb2 [Hj1 _]%unlink_tails [Hj2 _]%unlink_tails; [|done..].
    by eapply (ti_tail_disj _ _ Hi b1 b2 j).
  - simpl. apply NoDup_app. split_and!; [apply (ti_pool_nodup _ _ Hi)| |apply NoDup_singleton].
    intros j Hj ->%list_elem_of_singleton. by apply (ti_pool_disj _ _ Hi b i Hb unlink_in).
  - intros b' j Hb' Hj. rewrite unlink_pool. apply unlink_tails in Hj as [Hj Hne]; [|done].
    intros [Hjp|?]; [|done]. by apply (ti_pool_disj _ _ Hi b' j).
  - intros j Hj. apply unlink_pool in Hj. simpl. destruct (decide (j = i)) as [->|Hne].
    + apply zget_zset_eq. rewrite zlen_zset. by eapply zget_range.
    + destruct Hj as [Hj|]; [|done]. rewrite !zget_zset_ne; [by apply (ti_pool_empty _ _ Hi)| |done].
      intros E. by apply (chain_not_pool _ _ Hi b j Hb); [rewrite <- E; apply unlink_pre|].
  - intros j lj [[_ ->]|(_ & lj0 & Hj & Hs)]%unlink_line; [apply empty_line_wf|].
    eapply same_entries_wf; [done|]. by eapply (ti_line _ _ Hi).
  - intros b' j lj Hb' [Hj Hne]%unlink_chain [[? _]|(_ & lj0 & Hgj & [-> _])]%unlink_line; [done| |done].
    by apply (ti_tag _ _ Hi b' j).
  - intros b' j k lj lk Hb' [Hj Hj']%unlink_chain [Hk Hk']%unlink_chain; [|done..].
    intros [[? _]|(_ & lj0 & Hgj & [-> _])]%unlink_line; [done|].
    intros [[? _]|(_ & lk0 & Hgk & [-> _])]%unlink_line; [done|].
    by apply (ti_unique _ _ Hi b' j k).
Qed.

Lemma unlink_holds tag j lj : tag ≠ l_tag l → holds t tails tag j lj →
  ∃ lj', holds unlinked unlinked_tails tag j lj' ∧ same_entries lj lj'.
Proof.
  intros Htag (Hc & Hg & Ht'). assert (Hne : j ≠ i) by (intros ->; congruence).
  destruct (unlink_line_back j lj Hne Hg) as (lj' & Hg' & Hs). exists lj'. split; [|done].
  split_and!; [|done|destruct Hs; congruence].
  apply unlink_chain; [apply (get_bucket_ok _ _ Hi)|done].
Qed.

Lemma unlink_holds_inv tag j lj : holds unlinked unlinked_tails tag j lj →
  ∃ lj0, holds t tails tag j lj0 ∧ same_entries lj0 lj ∧ j ≠ i.
Proof.
  intros (Hc & Hg & Ht'). apply unlink_chain in Hc as [Hc Hne]; [|by apply (get_bucket_ok _ _ Hi)].
  apply unlink_line in Hg as [[? _]|(_ & lj0 & Hg & Hs)]; [done|].
  exists lj0. split; [|done]. split_and!; [done|done|destruct Hs; congruence].
Qed.
End unlink.

(** Linking a line of the pool behind the last line of a bucket. *)
Section link.
Context (t : table) (tails : Z → list Z) (Hi : table_inv t tails).
Context (x i p : Z) (lp : packed_cache_line) (pool : list Z).
Context (Hx : tag_ok x) (Ha : absent t tails x) (Hpool : t_pool t = pool ++ [i]).
Context (Hp : last (chain tails (get_bucket t x)) = Some p) (Hgp : zget (t_store t) p = Some lp).

Definition linked_up : table :=
  put (put (with_pool t pool) i (set_tag EMPTY_LINE x)) p (set_next lp (Some i)).
Definition linked_tails : Z → list Z :=
  <[get_bucket t x := tails (get_bucket t x) ++ [i]]> tails.

Lemma link_bucket : bucket t (get_bucket t x).
Proof. by apply (get_bucket_ok _ _ Hi). Qed.

Lemma link_in_pool : i ∈ t_pool t.
Proof. rewrite Hpool. set_solver. Qed.

Lemma link_fresh b j : bucket t b → j ∈ chain tails b → j ≠ i.
Proof. intros Hb Hj ->. apply (chain_not_pool _ _ Hi b i Hb Hj). apply link_in_pool. Qed.

Lemma link_pre : p ∈ chain tails (get_bucket t x) ∧ p ≠ i.
Proof.
  assert (Hin : p ∈ chain tails (get_bucket t x)) by (by apply last_Some_elem_of).
  split; [done|]. eapply link_fresh; [apply link_bucket|done].
Qed.

Lemma link_range : 0 ≤ i < zlen (t_store t).
Proof. eapply zget_range. apply (ti_pool_empty _ _ Hi). apply link_in_pool. Qed.

Lemma link_tails b j : bucket t b → j ∈ linked_tails b ↔ j ∈ tails b ∨ j = i ∧ b = get_bucket t x.
Proof.
  intros Hb. unfold linked_tails. destruct (decide (b = get_bucket t x)) as [->|Hne].
  - rewrite fn_lookup_insert, elem_of_app, list_elem_of_singleton. tauto.
  - rewrite fn_lookup_insert_ne by done. tauto.
Qed.

Lemma link_chain b j : bucket t b →
  j ∈ chain linked_tails b ↔ j ∈ chain tails b ∨ j = i ∧ b = get_bucket t x.
Proof. intros Hb. unfold chain. rewrite !elem_of_cons, link_tails by done. tauto. Qed.

Lemma link_line j lj : zget (t_store linked_up) j = Some lj →
  j = i ∧ lj = set_tag EMPTY_LINE x ∨
  j ≠ i ∧ ∃ lj0, zget (t_store t) j = Some lj0 ∧ same_entries lj0 lj.
Proof.
  simpl. rewrite !zget_zset, zlen_zset. pose proof (zget_range _ _ _ Hgp).
  pose proof link_range. destruct link_pre as [_ Hpi].
  case_decide as Hd1.
  - destruct Hd1 as [<- _]. intros. simplify_eq. right. split; [done|]. by exists lp.
  - case_decide as Hd2.
    + destruct Hd2 as [<- _]. intros. simplify_eq. by left.
    + intros Hj. right. split; [|by exists lj]. intros ->. tauto.
Qed.

Lemma link_line_new : zget (t_store linked_up) i = Some (set_tag EMPTY_LINE x).
Proof.
  simpl. destruct link_pre as [_ Hpi]. rewrite zget_zset_ne by done.
  apply zget_zset_eq. apply link_range.
Qed.

Lemma link_line_back j lj : j ≠ i → zget (t_store t) j = Some lj →
  ∃ lj', zget (t_store linked_up) j = Some lj' ∧ same_entries lj lj'.
Proof.
  intros Hne Hj. simpl. rewrite zget_zset, zlen_zset.
  case_decide as Hd; [destruct Hd as [<- _]; simplify_eq; by eexists|].
  exists lj. by rewrite zget_zset_ne.
Qed.

Lemma link_linked b : bucket t b → linked (t_store linked_up) b (linked_tails b).
Proof.
  intros Hb. simpl. destruct link_pre as [Hpc Hpi].
  assert (Hl : linked (zset (t_store t) i (set_tag EMPTY_LINE x)) b (tails b)).
  { apply linked_zset_ne; [|by apply (ti_linked _ _ Hi)]. intros Hin. by eapply (link_fresh b). }
  unfold linked_tails. destruct (decide (b = get_bucket t x)) as [->|Hne].
  - rewrite fn_lookup_insert. eapply linked_snoc; [done|by apply (chain_nodup _ _ Hi)|done|..].
    + by rewrite zget_zset_ne.
    + intros Hin. by eapply (link_fresh (get_bucket t x)).
    + apply zget_zset_eq, link_range.
    + done.
  - rewrite fn_lookup_insert_ne by done. apply linked_zset_ne; [|done].
    intros Hpc'. apply Hne. pose proof link_bucket as Hbx.
    apply elem_of_cons in Hpc as [Hpc|Hpc]; apply elem_of_cons in Hpc' as [Hpc'|Hpc'].
    + congruence.
    + pose proof (tail_range _ _ Hi b _ Hb Hpc'). unfold bucket in Hbx. lia.
    + pose proof (tail_range _ _ Hi _ _ Hbx Hpc). unfold bucket in Hb. lia.
    + by apply (ti_tail_disj _ _ Hi b (get_bucket t x) p).
Qed.

Lemma link_chain_line b j lj : bucket t b → j ∈ chain linked_tails b →
  zget (t_store linked_up) j = Some lj →
  j = i ∧ b = get_bucket t x ∧ lj = set_tag EMPTY_LINE x ∨
  j ≠ i ∧ j ∈ chain tails b ∧ ∃ lj0, zget (t_store t) j = Some lj0 ∧ same_entries lj0 lj.
Proof.
  intros Hb Hj Hg. apply link_line in Hg as [[-> ->]|(Hne & H0)].
  - left. apply link_chain in Hj as [Hj|[_ ?]]; [|done|done].
    by destruct (link_fresh b i Hb Hj).
  - right. split; [done|]. apply link_chain in Hj as [Hj|[? _]]; [done|done|done].
Qed.

Lemma link_tag_ne b j lj : bucket t b → b = get_bucket t x → j ∈ chain tails b →
  zget (t_store t) j = Some lj → l_tag lj ≠ x.
Proof. intros Hb -> Hj Hg Ht. by apply (Ha j lj). Qed.

Lemma link_inv : table_inv linked_up linked_tails.
Proof.
  split.
  - apply (ti_max _ _ Hi). - apply (ti_bucket _ _ Hi).
  - simpl. rewrite !zlen_zset. apply (ti_store _ _ Hi).
  - apply link_linked.
  - intros j. change (t_bucket_size linked_up) with (t_bucket_size t).
    change (t_max_ppage_id linked_up) with (t_max_ppage_id t). rewrite (ti_pool_part _ _ Hi j).
    rewrite Hpool, elem_of_app, list_elem_of_singleton. simpl. split.
    + intros [[?| ->]|(b & Hb & Hj)]; [by left| |].
      * right. exists (get_bucket t x). split; [apply link_bucket|]. apply link_tails; [apply link_bucket|tauto].
      * right. exists b. split; [done|]. apply link_tails; [done|tauto].
    + intros [?|(b & Hb & Hj)]; [tauto|]. apply link_tails in Hj as [Hj|[-> _]]; [|tauto|done].
      right. by exists b.
  - intros b Hb. unfold linked_tails. destruct (decide (b = get_bucket t x)) as [->|].
    + rewrite fn_lookup_insert. apply NoDup_app. split_and!;
        [by apply (ti_tail_nodup _ _ Hi)| |apply NoDup_singleton].
      intros j Hj ->%list_elem_of_singleton. apply (link_fresh _ i Hb); [by apply elem_of_cons; right|done].
    + rewrite fn_lookup_insert_ne by done. by apply (ti_tail_nodup _ _ Hi).
  - intros b1 b2 j Hb1 Hb2 [Hj1|[-> E1]]%link_tails [Hj2|[E ->]]%link_tails; try done.
    + by eapply (ti_tail_disj _ _ Hi b1 b2 j).
    + subst j. destruct (link_fresh _ i Hb1); [by apply elem_of_cons; right|done].
    + destruct (link_fresh _ i Hb2); [by apply elem_of_cons; right|done].
  - simpl. pose proof (ti_pool_nodup _ _ Hi) as Hnd. rewrite Hpool in Hnd. by apply NoDup_app in Hnd as [? _].
  - intros b j Hb Hj Hjp. simpl in Hjp. apply link_tails in Hj as [Hj|[-> _]]; [| |done].
    + apply (ti_pool_disj _ _ Hi b j Hb Hj). rewrite Hpool. set_solver.
    + pose proof (ti_pool_nodup _ _ Hi) as Hnd. rewrite Hpool in Hnd.
      apply NoDup_app in Hnd as (_ & Hd & _). apply (Hd i Hjp). set_solver.
  - intros j Hj. change (j ∈ pool) in Hj.
    assert (Hjp : j ∈ t_pool t) by (rewrite Hpool; set_solver).
    assert (j ≠ i).
    { intros ->. pose proof (ti_pool_nodup _ _ Hi) as Hnd. rewrite Hpool in Hnd.
      apply NoDup_app in Hnd as (_ & Hd & _). apply (Hd i Hj). set_solver. }
    assert (j ≠ p).
    { intros ->. destruct link_pre as [Hpc _]. by apply (chain_not_pool _ _ Hi _ _ link_bucket Hpc). }
    simpl. rewrite !zget_zset_ne by done. by apply (ti_pool_empty _ _ Hi).
  - intros j lj [[_ ->]|(_ & lj0 & Hj & Hs)]%link_line; [apply empty_line_wf|].
    eapply same_entries_wf; [done|]. by eapply (ti_line _ _ Hi).
  - intros b j lj Hb Hj Hg.
    destruct (link_chain_line b j lj Hb Hj Hg) as [(-> & -> & ->)|(Hne & Hj0 & lj0 & Hg0 & -> & _)].
    + by right.
    + by apply (ti_tag _ _ Hi b j).
  - intros b j k lj lk Hb Hj Hk Hgj Hgk.
    destruct (link_chain_line b j lj Hb Hj Hgj) as [(-> & Eb & ->)|(Hne & Hj0 & lj0 & Hg0 & -> & _)];
    destruct (link_chain_line b k lk Hb Hk Hgk) as [(-> & Eb' & ->)|(Hne' & Hk0 & lk0 & Hg0' & -> & _)].
    + done.
    + intros E. by destruct (link_tag_ne b k lk0 Hb Eb Hk0 Hg0').
    + intros E. by destruct (link_tag_ne b j lj0 Hb Eb' Hj0 Hg0).
    + by apply (ti_unique _ _ Hi b j k).
Qed.

Lemma link_holds tag j lj : holds t tails tag j lj →
  ∃ lj', holds linked_up linked_tails tag j lj' ∧ same_entries lj lj'.
Proof.
  intros (Hc & Hg & Ht'). pose proof (get_bucket_ok _ _ Hi tag) as Hb.
  assert (Hne : j ≠ i) by (by eapply link_fresh).
  destruct (link_line_back j lj Hne Hg) as (lj' & Hg' & Hs). exists lj'. split; [|done].
  split_and!; [|done|destruct Hs; congruence]. apply link_chain; [done|by left].
Qed.

Lemma link_holds_new : holds linked_up linked_tails x i (set_tag EMPTY_LINE x).
Proof.
  split_and!; [|apply link_line_new|done]. apply link_chain; [apply link_bucket|by right].
Qed.

Lemma link_holds_inv tag j lj : holds linked_up linked_tails tag j lj →
  tag = x ∨ ∃ lj0, holds t tails tag j lj0.
Proof.
  intros (Hc & Hg & Ht'). pose proof (get_bucket_ok _ _ Hi tag) as Hb.
  destruct (link_chain_line _ j lj Hb Hc Hg) as [(-> & _ & ->)|(Hne & Hj0 & lj0 & Hg0 & Et & _)].
  - by left.
  - right. exists lj0. split_and!; [done|done|congruence].
Qed.
End link.

(** What creating and deleting lines leaves alone: the entries of every page,
    and the lines of the other tags. *)
Definition same_view (t t' : table) : Prop := ∀ v, vpage_ok v → get_pte t' v None = get_pte t v None.

Definition keeps_lines (t : table) (tails : Z → list Z) (t' : table) (tails' : Z → list Z) (tag : Z) : Prop :=
  ∀ tag' j lj, tag_ok tag' → tag' ≠ tag → holds t tails tag' j lj →
    ∃ lj', holds t' tails' tag' j lj' ∧ same_entries lj lj'.

(** No other tag gets a line. *)
Definition no_new_lines (t : table) (tails : Z → list Z) (t' : table) (tails' : Z → list Z) (tag : Z) : Prop :=
  ∀ tag' j lj, tag_ok tag' → tag' ≠ tag → holds t' tails' tag' j lj → ∃ lj0, holds t tails tag' j lj0.

Lemma same_view_intro t tails t' tails' tag :
  table_inv t tails → table_inv t' tails' → blank t tails tag → blank t' tails' tag →
  keeps_lines t tails t' tails' tag → no_new_lines t tails t' tails' tag → same_view t t'.
Proof.
  intros Hi Hi' Hb Hb' Hk Hinv v Hvok%tag_of_ok. destruct (decide (tag_of v = tag)) as [Hv|Hv].
  - subst tag. by rewrite (get_pte_blank _ _ _ Hi'), (get_pte_blank _ _ _ Hi).
  - eapply get_pte_same; [done|done| |].
    + intros i l Hl. destruct (Hk _ _ _ Hvok Hv Hl) as (l' & ? & ?). by exists i, l'.
    + intros Habs j lj Hj. destruct (Hinv _ _ _ Hvok Hv Hj) as (lj0 & Hj0). by eapply Habs.
Qed.

Lemma last_cons_some (x : Z) l : ∃ p, last (x :: l) = Some p.
Proof. destruct (last (x :: l)) as [p|] eqn:E; [by exists p|by apply last_None in E]. Qed.

(** What a change of the lines of one tag promises. *)
Definition line_change (t : table) (tails : Z → list Z) (t' : table) (tails' : Z → list Z) (tag : Z) : Prop :=
  table_inv t' tails' ∧ same_view t t' ∧ keeps_lines t tails t' tails' tag ∧
  t_max_vpage_id t' = t_max_vpage_id t ∧ t_max_ppage_id t' = t_max_ppage_id t ∧ no_new_lines t tails t' tails' tag.

Lemma line_change_intro t tails t' tails' tag :
  table_inv t tails → table_inv t' tails' → blank t tails tag → blank t' tails' tag →
  keeps_lines t tails t' tails' tag → no_new_lines t tails t' tails' tag →
  t_max_vpage_id t' = t_max_vpage_id t → t_max_ppage_id t' = t_max_ppage_id t → line_change t tails t' tails' tag.
Proof. intros. split_and!; try done. by eapply same_view_intro. Qed.

Section delete.
Context (t : table) (tails : Z → list Z) (Hi : table_inv t tails).
Context (tag i : Z) (l : packed_cache_line) (Hok : tag_ok tag) (Hh : holds t tails tag i l).
Context (Hz : l_num_using l = 0).

Lemma delete_blank : blank t tails tag.
Proof. intros j lj Hj. by destruct (holds_unique _ _ Hi _ _ _ _ _ Hh Hj) as [_ <-]. Qed.

Lemma delete_line_eq :
  l = mk_line (l_tag l) 0 (replicate 8 EMPTY_HEADER) (replicate 8 EMPTY_PPAGE_ID) (l_next l).
Proof. apply unused_line; [|done]. by eapply holds_line. Qed.

Lemma delete_empty : empty_cacheline l = true.
Proof. rewrite delete_line_eq. reflexivity. Qed.

Lemma delete_tag_ne : EMPTY_TAG ≠ l_tag l.
Proof. destruct Hh as (_ & _ & ->). unfold tag_ok in Hok. lia. Qed.

(** The head line of a bucket stays where it is and loses its tag. *)
Lemma delete_head : i = get_bucket t tag →
  delete_cacheline t i = Ok (put t i (set_tag l EMPTY_TAG)).
Proof.
  intros Ehead. pose proof Hh as (_ & Hg & Ht). pose proof (get_bucket_ok _ _ Hi tag) as Hb.
  unfold delete_cacheline. rewrite (read_line_Ok _ _ _ Hg). cbn [mbind result_bind]. rewrite Ht.
  rewrite (find_hint_holds _ _ Hi _ _ _ Hh). cbn [mbind result_bind].
  rewrite (bool_decide_true ((true, Some i) = (true, Some i))) by done. cbn [assert mbind result_bind].
  unfold find_pre_cacheline. rewrite (find_pre_from_none t _ (tails (get_bucket t tag))).
  2: by apply (ti_linked _ _ Hi). 3: by apply (chain_fuel_enough _ _ Hi).
  2: { intros Hin. pose proof (tail_range _ _ Hi _ _ Hb Hin). unfold bucket in Hb. lia. }
  rewrite delete_empty. simpl. rewrite (read_line_Ok _ _ _ Hg). simpl.
  by rewrite (write_line_Ok _ _ _ _ Hg).
Qed.

Lemma delete_head_change : i = get_bucket t tag →
  line_change t tails (put t i (set_tag l EMPTY_TAG)) tails tag ∧
  absent (put t i (set_tag l EMPTY_TAG)) tails tag.
Proof.
  intros Ehead. pose proof Hh as (_ & Hg & Ht). pose proof delete_tag_ne as Hne.
  assert (Hb : bucket t i) by (rewrite Ehead; by apply (get_bucket_ok _ _ Hi)).
  assert (Hi' : table_inv (put t i (set_tag l EMPTY_TAG)) tails) by (apply (head_tag_inv t tails Hi); auto).
  assert (Habs : absent (put t i (set_tag l EMPTY_TAG)) tails tag).
  { intros j lj (Hcj & Hgj & Htj). destruct (put_cases _ _ _ _ _ _ Hg Hgj) as [[-> ->]|[? Hgj']].
    - simpl in Htj. congruence.
    - by destruct (holds_unique _ _ Hi tag i j l lj Hh). }
  assert (Hkl : keeps_lines t tails (put t i (set_tag l EMPTY_TAG)) tails tag).
  { intros tag' j lj Ht' Hne' (Hcj & Hgj & Htj). exists lj. split; [|done]. split_and!; [done| |done].
    simpl. rewrite zget_zset_ne; [done|]. intros <-. congruence. }
  split; [|done]. apply line_change_intro; [done|done|apply delete_blank| |done| |done|done].
  - intros j lj Hj. by destruct (Habs j lj).
  - intros tag' j lj Ht' Hne' Hj. exists lj. apply (head_tag_holds t tails i l EMPTY_TAG Hg) in Hj;
      [done|unfold tag_ok in Ht'; lia|congruence].
Qed.

(** Another line is unlinked and returned to the pool. *)
Lemma delete_next l1 l2 p lp : tails (get_bucket t tag) = l1 ++ i :: l2 →
  last (get_bucket t tag :: l1) = Some p → zget (t_store t) p = Some lp → l_next lp = Some i.
Proof.
  intros Et Hp Hgp. pose proof (ti_linked _ _ Hi _ (get_bucket_ok _ _ Hi tag)) as Hl. rewrite Et in Hl.
  clear -Hl Hp Hgp. revert Hl Hp. generalize (get_bucket t tag) as h.
  induction l1 as [|j l1 IH]; intros h Hl Hp; simpl in *.
  - simplify_eq. destruct Hl as (? & ? & ? & _). by simplify_eq.
  - destruct Hl as (? & ? & ? & Hl). by apply (IH j).
Qed.

Lemma delete_tail l1 l2 p lp : tails (get_bucket t tag) = l1 ++ i :: l2 →
  last (get_bucket t tag :: l1) = Some p → zget (t_store t) p = Some lp →
  delete_cacheline t i = Ok (unlinked t i p l lp).
Proof.
  intros Et Hp Hgp. pose proof Hh as (_ & Hg & Ht). pose proof (get_bucket_ok _ _ Hi tag) as Hb.
  assert (Hpi : p ≠ i) by (eapply (unlink_pre t tails); done).
  pose proof (delete_next l1 l2 p lp Et Hp Hgp) as Hnext.
  unfold delete_cacheline. rewrite (read_line_Ok _ _ _ Hg). cbn [mbind result_bind]. rewrite Ht.
  rewrite (find_hint_holds _ _ Hi _ _ _ Hh). cbn [mbind result_bind].
  rewrite (bool_decide_true ((true, Some i) = (true, Some i))) by done. cbn [assert mbind result_bind].
  unfold find_pre_cacheline. rewrite (find_pre_from_linked t _ l1 i l2 p); [|..|done|].
  2: rewrite <- Et; by apply (ti_linked _ _ Hi).
  2: { pose proof (chain_nodup _ _ Hi _ Hb) as Hnd. unfold chain in Hnd. by rewrite Et in Hnd. }
  2: { pose proof (chain_fuel_enough _ _ Hi _ Hb) as Hf. rewrite Et, length_app in Hf. lia. }
  cbn [mbind result_bind]. rewrite (read_line_Ok _ _ _ Hgp). cbn [mbind result_bind].
  rewrite Hnext, (bool_decide_true (Some i = Some i)), orb_true_r by done.
  cbn [assert mbind result_bind]. rewrite delete_empty. simpl.
  rewrite (write_line_Ok _ _ _ _ Hgp). simpl.
  rewrite (read_line_Ok (put _ _ _) i l) by (simpl; by rewrite zget_zset_ne). simpl.
  rewrite (write_line_Ok (put _ _ _) i _ l) by (simpl; by rewrite zget_zset_ne). simpl.
  assert (Hnew : ∀ x, zget (zset (zset (t_store t) p x) i (set_next l None)) i = Some (set_next l None)).
  { intros x. apply zget_zset_eq. rewrite zlen_zset. by eapply zget_range. }
  rewrite (read_line_Ok (with_pool _ _) i (set_next l None)) by apply Hnew. simpl.
  rewrite (write_line_Ok (with_pool _ _) i _ (set_next l None)) by apply Hnew.
  unfold unlinked, put, with_pool, with_store. simpl. do 2 f_equal. rewrite !zset_zset. f_equal.
  rewrite delete_line_eq. reflexivity.
Qed.

Lemma delete_tail_change l1 l2 p lp : tails (get_bucket t tag) = l1 ++ i :: l2 →
  last (get_bucket t tag :: l1) = Some p → zget (t_store t) p = Some lp →
  let t' := unlinked t i p l lp in
  let tails' := unlinked_tails tails (get_bucket t tag) l1 l2 in
  line_change t tails t' tails' tag ∧ absent t' tails' tag.
Proof.
  intros Et Hp Hgp t' tails'. pose proof Hh as (_ & Hg & Ht).
  pose proof (get_bucket_ok _ _ Hi tag) as Hb.
  assert (Hi' : table_inv t' tails') by (by eapply unlink_inv).
  assert (Habs : absent t' tails' tag).
  { intros j lj Hj. eapply unlink_holds_inv in Hj as (lj0 & Hj0 & _ & Hne'); [|done..].
    by destruct (holds_unique _ _ Hi _ _ _ _ _ Hh Hj0). }
  assert (Hkl : keeps_lines t tails t' tails' tag).
  { intros tag' j lj _ Ht' Hj. eapply unlink_holds; try done. by rewrite Ht. }
  split; [|done]. apply line_change_intro; [done|done|apply delete_blank| |done| |done|done].
  - intros j lj Hj. by destruct (Habs j lj).
  - intros tag' j lj _ _ Hj. eapply unlink_holds_inv in Hj as (lj0 & Hj0 & _ & _); [|done..]. by exists lj0.
Qed.

Lemma delete_cacheline_spec : ∃ t' tails',
  delete_cacheline t i = Ok t' ∧ line_change t tails t' tails' tag ∧ absent t' tails' tag.
Proof.
  pose proof Hh as (Hc & Hg & Ht). pose proof (get_bucket_ok _ _ Hi tag) as Hb.
  apply elem_of_cons in Hc as [Ehead|Htail].
  - eexists _, _. split; [by apply delete_head|]. by apply delete_head_change.
  - destruct (list_elem_of_split _ _ Htail) as (l1 & l2 & Et).
    destruct (last_cons_some (get_bucket t tag) l1) as [p Hp].
    assert (Hpin : p ∈ get_bucket t tag :: l1) by (by apply last_Some_elem_of).
    destruct (linked_in _ _ _ p (ti_linked _ _ Hi _ Hb)) as [lp Hgp]; [rewrite Et; set_solver|].
    eexists _, _. split; [by eapply delete_tail|]. by apply delete_tail_change.
Qed.
End delete.

(** Creating the line of a tag that has none. *)
Section create.
Context (t : table) (tails : Z → list Z) (Hi : table_inv t tails).
Context (tag : Z) (Hok : tag_ok tag) (Ha : absent t tails tag).

(** There is room for a line when the head line is free or the pool has one. *)
Definition has_room : Prop :=
  t_pool t ≠ [] ∨ ∃ hl, zget (t_store t) (get_bucket t tag) = Some hl ∧ l_tag hl = EMPTY_TAG.

Lemma create_blank : blank t tails tag.
Proof. intros j lj Hj. by destruct (Ha j lj). Qed.

Lemma create_tag_mod : tag mod 2 ^ 58 = tag.
Proof. apply Z.mod_small. unfold tag_ok, EMPTY_TAG in Hok. change (Z.shiftl 1 58) with (2 ^ 58) in Hok. lia. Qed.

Lemma create_head hl : zget (t_store t) (get_bucket t tag) = Some hl → l_tag hl = EMPTY_TAG →
  create_cacheline t tag None = Ok (put t (get_bucket t tag) (set_tag hl tag), get_bucket t tag).
Proof.
  intros Hg Ht. unfold create_cacheline.
  rewrite (find_hint_absent _ _ Hi _ hl Ha Hg), Ht, Z.eqb_refl. simpl.
  rewrite (read_line_Ok _ _ _ Hg). simpl.
  assert (El := unused_line hl (ti_line _ _ Hi _ _ Hg) (wf_empty _ (ti_line _ _ Hi _ _ Hg) Ht)).
  rewrite El at 1. simpl. rewrite (write_line_Ok _ _ _ _ Hg). simpl. by rewrite create_tag_mod.
Qed.

Lemma create_head_change hl :
  zget (t_store t) (get_bucket t tag) = Some hl → l_tag hl = EMPTY_TAG →
  let t' := put t (get_bucket t tag) (set_tag hl tag) in
  line_change t tails t' tails tag ∧ holds t' tails tag (get_bucket t tag) (set_tag hl tag).
Proof.
  intros Hg Ht t'. pose proof (get_bucket_ok _ _ Hi tag) as Hb.
  assert (Hz : l_num_using hl = 0) by (by apply (wf_empty _ (ti_line _ _ Hi _ _ Hg))).
  assert (Hi' : table_inv t' tails) by (apply (head_tag_inv t tails Hi); auto).
  assert (Hnew : holds t' tails tag (get_bucket t tag) (set_tag hl tag)).
  { split_and!; [apply elem_of_cons; by left|by eapply zget_put|done]. }
  assert (Htne : tag ≠ EMPTY_TAG) by (unfold tag_ok in Hok; lia).
  assert (Hb' : blank t' tails tag).
  { intros j lj Hj. by destruct (holds_unique _ _ Hi' _ _ _ _ _ Hnew Hj) as [_ <-]. }
  assert (Hkl : ∀ tag' j lj, tag_ok tag' → tag' ≠ tag →
    holds t' tails tag' j lj ↔ holds t tails tag' j lj).
  { intros tag' j lj Hne Ht'. apply (head_tag_holds t tails _ hl tag Hg); [done|unfold tag_ok in Hne; lia]. }
  assert (Hk : keeps_lines t tails t' tails tag).
  { intros tag' j lj ? ? Hj. exists lj. split; [by apply Hkl|done]. }
  split; [|done]. apply line_change_intro; [done|done|apply create_blank|done|done| |done|done].
  intros tag' j lj ? ? Hj. exists lj. by apply Hkl.
Qed.

Lemma create_tail_eq hl p lp pool i : zget (t_store t) (get_bucket t tag) = Some hl →
  l_tag hl ≠ EMPTY_TAG → last (chain tails (get_bucket t tag)) = Some p →
  zget (t_store t) p = Some lp → l_next lp = None → t_pool t = pool ++ [i] →
  create_cacheline t tag (Some p) = Ok (linked_up t tag i p lp pool, i).
Proof.
  intros Hg Ht Hp Hgp Hn Hpool. unfold create_cacheline.
  rewrite (find_hint_absent _ _ Hi _ hl Ha Hg). apply Z.eqb_neq in Ht as ->. rewrite Hp.
  cbn [mbind result_bind]. rewrite (bool_decide_true ((false, Some p) = (false, Some p))) by done.
  cbn [assert mbind result_bind]. rewrite (read_line_Ok _ _ _ Hgp). cbn [mbind result_bind].
  rewrite Hn. cbn [assert mbind result_bind bool_decide decide_rel]. rewrite Hpool.
  assert (Hlen : (zlen (pool ++ [i]) =? 0) = false).
  { apply Z.eqb_neq. unfold zlen. rewrite length_app. simpl. lia. }
  rewrite Hlen, vec_pop_snoc. simpl.
  assert (Hgi : zget (t_store t) i = Some EMPTY_LINE) by (eapply ti_pool_empty; [done|rewrite Hpool; set_solver]).
  rewrite (read_line_Ok (with_pool t pool) i EMPTY_LINE) by done. simpl.
  rewrite (write_line_Ok (with_pool t pool) i _ EMPTY_LINE) by done. simpl.
  assert (Hpi : i ≠ p).
  { intros <-. assert (Hc : i ∈ chain tails (get_bucket t tag)) by (by apply last_Some_elem_of).
    apply (chain_not_pool _ _ Hi _ i (get_bucket_ok _ _ Hi tag) Hc). rewrite Hpool. set_solver. }
  rewrite (read_line_Ok (put _ _ _) p lp) by (simpl; by rewrite zget_zset_ne). simpl.
  rewrite (write_line_Ok (put _ _ _) p _ lp) by (simpl; by rewrite zget_zset_ne).
  rewrite create_tag_mod. reflexivity.
Qed.

Lemma last_next p lp : last (chain tails (get_bucket t tag)) = Some p → zget (t_store t) p = Some lp → l_next lp = None.
Proof.
  intros Hp Hgp. pose proof (ti_linked _ _ Hi _ (get_bucket_ok _ _ Hi tag)) as Hl.
  unfold chain in Hp. revert Hl Hp. generalize (get_bucket t tag) at 1 3 as h.
  induction (tails (get_bucket t tag)) as [|j ks IH]; intros h Hl Hp; simpl in *.
  - simplify_eq. destruct Hl as (? & ? & ?). by simplify_eq.
  - destruct Hl as (? & ? & ? & Hl). by apply (IH j).
Qed.

Lemma create_tail_change p lp pool i : last (chain tails (get_bucket t tag)) = Some p →
  zget (t_store t) p = Some lp → t_pool t = pool ++ [i] →
  let t' := linked_up t tag i p lp pool in
  let tails' := linked_tails t tails tag i in
  line_change t tails t' tails' tag ∧ holds t' tails' tag i (set_tag EMPTY_LINE tag).
Proof.
  intros Hp Hgp Hpool t' tails'.
  assert (Hi' : table_inv t' tails') by (by apply link_inv).
  assert (Hnew : holds t' tails' tag i (set_tag EMPTY_LINE tag)) by (by apply link_holds_new).
  assert (Hb' : blank t' tails' tag).
  { intros j lj Hj. by destruct (holds_unique _ _ Hi' _ _ _ _ _ Hnew Hj) as [_ <-]. }
  assert (Hk : keeps_lines t tails t' tails' tag).
  { intros tag' j lj ? ? Hj. by apply link_holds. }
  split; [|done]. apply line_change_intro; [done|done|apply create_blank|done|done| |done|done].
  intros tag' j lj ? ? Hj. apply link_holds_inv in Hj as [?|Hj]; done.
Qed.

Lemma create_line_spec : has_room → ∃ t' tails' p i l,
  find_cacheline_hint t tag = Ok (false, p) ∧ create_cacheline t tag p = Ok (t', i) ∧
  line_change t tails t' tails' tag ∧ holds t' tails' tag i l ∧ l_num_using l = 0.
Proof.
  intros Hroom. pose proof (get_bucket_ok _ _ Hi tag) as Hb.
  destruct (linked_head _ _ _ (ti_linked _ _ Hi _ Hb)) as (hl & Hg).
  destruct (decide (l_tag hl = EMPTY_TAG)) as [Ht|Ht].
  - assert (El := unused_line hl (ti_line _ _ Hi _ _ Hg) (wf_empty _ (ti_line _ _ Hi _ _ Hg) Ht)).
    eexists _, _, None, _, _. split; [|split; [by apply create_head|]].
    + by rewrite (find_hint_absent _ _ Hi _ hl Ha Hg), Ht, Z.eqb_refl.
    + destruct (create_head_change hl Hg Ht). split_and!; [done|done|]. by rewrite El.
  - destruct Hroom as [Hpool|(hl' & Hg' & ?)]; [|congruence].
    destruct (exists_last Hpool) as (pool & i & Epool).
    destruct (last_cons_some (get_bucket t tag) (tails (get_bucket t tag))) as [p Hp].
    destruct (linked_in _ _ _ p (ti_linked _ _ Hi _ Hb)) as [lp Hgp]; [by apply last_Some_elem_of|].
    eexists _, _, (Some p), i, _. split; [|split; [eapply create_tail_eq; try done; by eapply last_next|]].
    + rewrite (find_hint_absent _ _ Hi _ hl Ha Hg). apply Z.eqb_neq in Ht as ->. by rewrite <- Hp.
    + destruct (create_tail_change p lp pool i Hp Hgp Epool). split_and!; [done|done|reflexivity].
Qed.
End create.

(** ** The operations on a page whose line is there *)
Section operations.
Context (t : table) (tails : Z → list Z) (Hi : table_inv t tails).
Context (v i : Z) (l : packed_cache_line) (h : pte_header) (p : Z) (hint : option Z).
Context (Hv : vpage_ok v) (Hh : holds t tails (tag_of v) i l) (Hhint : hint_ok t tails v hint).
Context (Hgh : zget (l_headers l) (offset_of v) = Some h).
Context (Hgp : zget (l_ppage_ids l) (offset_of v) = Some p).
Context (Hwf : entry_wf h p).

Definition entry_put (h' : pte_header) (p' n : Z) : table := put t i (put_entry l (offset_of v) h' p' n).

Lemma set_headers_put_entry h' :
  set_headers l (zset (l_headers l) (offset_of v) h') = put_entry l (offset_of v) h' p (l_num_using l).
Proof. unfold set_headers, put_entry. by rewrite (zset_id (l_ppage_ids l) _ p). Qed.

Lemma op_line : zget (t_store t) i = Some l.
Proof. by destruct Hh as (_ & ? & _). Qed.

Lemma op_tag : l_tag l = tag_of v.
Proof. by destruct Hh as (_ & _ & ?). Qed.

Lemma op_update {A} (f : pte_header → attempt A) h' r : f h = Ok (Some h', r) →
  update_header t i (offset_of v) f = Ok (entry_put h' p (l_num_using l), r).
Proof.
  intros Hf. rewrite (update_header_Ok _ _ _ _ _ _ _ op_line Hgh Hf). simpl.
  by rewrite set_headers_put_entry.
Qed.

Lemma op_update_none {A} (f : pte_header → attempt A) r : f h = Ok (None, r) →
  update_header t i (offset_of v) f = Ok (t, r).
Proof.
  intros Hf. rewrite (update_header_Ok _ _ _ _ _ _ _ op_line Hgh Hf). simpl.
  rewrite zset_id by done. do 2 f_equal. rewrite <- (put_id _ _ _ op_line) at 2. by destruct l.
Qed.

Lemma op_get : get_pte t v None = Ok (pte_of h p).
Proof. by apply (get_pte_holds _ _ Hi v i l). Qed.

Lemma op_num_using : Z.b2z (used h) ≤ l_num_using l ≤ 8.
Proof.
  pose proof (holds_line _ _ Hi _ _ _ Hh) as Hl. rewrite (wf_num_using _ Hl).
  pose proof (count_used_range (l_headers l)) as Hc. rewrite (wf_headers _ Hl) in Hc.
  unfold NUM_PACK_PAGES in Hc. split; [|lia].
  destruct (used h) eqn:E; simpl; [|lia].
  destruct (decide (count_used (l_headers l) = 0)) as [Hz|]; [|lia].
  by rewrite (count_used_zero _ _ _ Hz Hgh) in E.
Qed.

(** Reading back the entry just written. *)
Lemma op_read_back h' p' n : read_line (entry_put h' p' n) i = Ok (put_entry l (offset_of v) h' p' n).
Proof. apply read_line_Ok. eapply zget_put. apply op_line. Qed.

Lemma op_header_back h' p' n : aread (l_headers (put_entry l (offset_of v) h' p' n)) (offset_of v) = Ok h'.
Proof. apply aread_Ok. simpl. apply zget_zset_eq. by eapply zget_range. Qed.

Lemma op_ppage_back h' p' n : aread (l_ppage_ids (put_entry l (offset_of v) h' p' n)) (offset_of v) = Ok p'.
Proof. apply aread_Ok. simpl. apply zget_zset_eq. by eapply zget_range. Qed.

(** Writing the entry once more replaces it. *)
Lemma op_awrite_header h' p' n h2 :
  awrite (l_headers (put_entry l (offset_of v) h' p' n)) (offset_of v) h2 =
    Ok (zset (l_headers l) (offset_of v) h2).
Proof.
  simpl. rewrite awrite_total by (rewrite zlen_zset; by eapply zget_range). by rewrite zset_zset.
Qed.

Lemma op_awrite_ppage h' p' n p2 :
  awrite (l_ppage_ids (put_entry l (offset_of v) h' p' n)) (offset_of v) p2 =
    Ok (zset (l_ppage_ids l) (offset_of v) p2).
Proof.
  simpl. rewrite awrite_total by (rewrite zlen_zset; by eapply zget_range). by rewrite zset_zset.
Qed.

Lemma op_write h' p' n x : write_line (entry_put h' p' n) i x = Ok (put t i x).
Proof.
  rewrite (write_line_Ok _ _ _ (put_entry l (offset_of v) h' p' n)) by (eapply zget_put, op_line).
  unfold entry_put. by rewrite put_put.
Qed.

Lemma pin_ok : h_exist h = true → h_busy h = false →
  pin t v hint = Ok (entry_put (mk_header true false (h_dirty h) (ref_inc (h_ref h))) p (l_num_using l),
                     (true, p, h_ref h)).
Proof.
  intros He Hb. unfold pin. rewrite (resolve_holds _ _ Hi v i l) by done. simpl.
  rewrite (read_line_Ok _ _ _ op_line). simpl. rewrite op_tag, Z.eqb_refl. simpl.
  assert (Hinc : inc_ref_count h =
    Ok (Some (mk_header true false (h_dirty h) (ref_inc (h_ref h))), (true, h_ref h))).
  { destruct Hwf as [Hok _]. pose proof (inc_assert_vacuous h Hok) as Hva.
    unfold inc_ref_count in *. rewrite He, Hb in *. simpl in *. destruct (h_ref h <? _); done. }
  rewrite (op_update _ _ _ Hinc). simpl. rewrite op_read_back. cbn [mbind result_bind].
  change (l_tag (put_entry _ _ _ _ _)) with (l_tag l). rewrite op_tag, Z.eqb_refl.
  cbn [negb]. by rewrite op_ppage_back.
Qed.

Lemma pin_fail : h_exist h && negb (h_busy h) = false → pin t v hint = Ok (t, pin_none).
Proof.
  intros He. unfold pin. rewrite (resolve_holds _ _ Hi v i l) by done. simpl.
  rewrite (read_line_Ok _ _ _ op_line). simpl. rewrite op_tag, Z.eqb_refl. simpl.
  rewrite (op_update_none inc_ref_count (false, 0)); [done|].
  unfold inc_ref_count. by destruct (h_exist h), (h_busy h).
Qed.

Lemma unpin_ok w : h_exist h = true → h_busy h = false → 0 < h_ref h →
  unpin t v w hint =
    Ok (entry_put (mk_header true false (if w then true else h_dirty h) (ref_dec (h_ref h))) p (l_num_using l),
        h_ref h).
Proof.
  intros He Hb Hr%Z.ltb_lt. unfold unpin.
  rewrite (bind_rew _ _ _ (resolve_holds _ _ Hi v i l hint true Hhint Hh)).
  rewrite (bind_rew _ _ _ (find_cacheline_holds _ _ Hi _ true _ _ Hh)).
  rewrite (bool_decide_true (Some i = Some i)), (bind_rew _ _ _ (eq_refl : assert true = Ok tt)) by done.
  cbv beta iota zeta. rewrite (bind_rew _ _ _ (read_line_Ok _ _ _ op_line)).
  rewrite op_tag, Z.eqb_refl, (bind_rew _ _ _ (eq_refl : assert true = Ok tt)). cbv beta.
  rewrite (op_update (dec_ref_count w) (mk_header true false (if w then true else h_dirty h) (ref_dec (h_ref h)))
             (true, h_ref h)); [done|].
  unfold dec_ref_count. by rewrite He, Hb, Hr.
Qed.

Lemma create_mapping_ok pp rc : h_exist h = false → h_busy h = false → 0 ≤ pp < EMPTY_PPAGE_ID →
  create_mapping t v pp rc hint =
    Ok (entry_put (mk_header true true false (rc mod REF_MOD)) pp (l_num_using l + 1), true).
Proof.
  intros He Hb Hpp. unfold create_mapping. rewrite (the_line_holds _ _ Hi v i l) by done. simpl.
  rewrite (proj2 (aread_Ok _ _ _) Hgh). simpl. rewrite He. simpl.
  destruct Hwf as [_ Hw]. rewrite He in Hw. destruct Hw as (Hd & Hr & _).
  rewrite (op_update lock (mk_header false true false 0) true).
  2: { unfold lock. by rewrite Hr, Hb, He, Hd. }
  cbn [mbind result_bind negb]. rewrite op_read_back. cbn [mbind result_bind].
  rewrite op_header_back. cbn [mbind result_bind h_exist h_busy h_dirty h_ref negb assert Z.eqb].
  rewrite (proj2 (Z.ltb_lt _ _)) by lia. cbn [assert mbind result_bind].
  change (l_num_using (put_entry l (offset_of v) (mk_header false true false 0) p (l_num_using l)))
    with (l_num_using l).
  pose proof op_num_using as Hnu.
  rewrite (Z.mod_small (l_num_using l + 1) (2 ^ 4)) by (destruct (used h); simpl in Hnu; lia).
  assert (E : w32 pp = pp) by (apply Z.mod_small; unfold EMPTY_PPAGE_ID in Hpp; lia). rewrite E.
  rewrite op_awrite_header. cbn [mbind result_bind].
  rewrite op_awrite_ppage. cbn [mbind result_bind]. by rewrite op_write.
Qed.
Lemma create_mapping_busy pp rc : h_exist h = false → h_busy h = true →
  create_mapping t v pp rc hint = Ok (t, false).
Proof.
  intros He Hb. unfold create_mapping. rewrite (the_line_holds _ _ Hi v i l) by done. simpl.
  rewrite (proj2 (aread_Ok _ _ _) Hgh). simpl. rewrite He. simpl.
  rewrite (op_update_none lock false); [done|]. unfold lock. by rewrite Hb, orb_true_r.
Qed.

Lemma delete_mapping_ok : h_exist h = true → h_busy h = false → h_ref h = 0 →
  delete_mapping t v hint =
    Ok (entry_put (mk_header false true false 0) EMPTY_PPAGE_ID (l_num_using l), true).
Proof.
  intros He Hb Hr. unfold delete_mapping. rewrite (the_line_holds _ _ Hi v i l) by done. simpl.
  rewrite (proj2 (aread_Ok _ _ _) Hgh). simpl. rewrite He. simpl.
  rewrite (op_update lock (mk_header true true (h_dirty h) 0) true).
  2: { unfold lock. by rewrite Hr, Hb, He. }
  cbn [mbind result_bind negb]. rewrite op_read_back. cbn [mbind result_bind].
  rewrite op_header_back. cbn [mbind result_bind h_exist h_busy h_dirty h_ref negb assert Z.eqb].
  rewrite op_awrite_header. cbn [mbind result_bind].
  rewrite op_awrite_ppage. cbn [mbind result_bind]. by rewrite op_write.
Qed.

Lemma delete_mapping_fail : h_exist h = true → negb (h_ref h =? 0) || h_busy h = true →
  delete_mapping t v hint = Ok (t, false).
Proof.
  intros He Hl. unfold delete_mapping. rewrite (the_line_holds _ _ Hi v i l) by done. simpl.
  rewrite (proj2 (aread_Ok _ _ _) Hgh). simpl. rewrite He. simpl.
  rewrite (op_update_none lock false); [done|]. unfold lock. by rewrite Hl.
Qed.

Lemma release_idle : h_busy h = false → release_mapping_lock t v hint = Ok (t, false).
Proof.
  intros Hb. unfold release_mapping_lock. rewrite (the_line_holds _ _ Hi v i l) by done. simpl.
  rewrite (op_update_none unlock false); [done|]. unfold unlock. by rewrite Hb.
Qed.

(** Releasing the lock: one user less when the entry was deleted, and the line
    goes away with its last user. *)
Definition released_num : Z := if h_exist h then l_num_using l else l_num_using l - 1.
Definition released : table :=
  entry_put (mk_header (h_exist h) false (h_dirty h) (h_ref h)) p released_num.

Lemma release_busy : h_busy h = true →
  release_mapping_lock t v hint =
    (t' ← (if released_num =? 0 then delete_cacheline released i else Ok released); Ok (t', true)).
Proof.
  intros Hb. unfold release_mapping_lock. rewrite (the_line_holds _ _ Hi v i l) by done. simpl.
  rewrite (op_update unlock (mk_header (h_exist h) false (h_dirty h) (h_ref h)) true).
  2: { unfold unlock. by rewrite Hb. }
  cbn [mbind result_bind negb]. rewrite op_read_back. cbn [mbind result_bind].
  rewrite op_header_back. cbn [mbind result_bind h_exist].
  assert (Hu : used h = true) by (unfold used; by rewrite Hb, orb_true_r).
  pose proof op_num_using as Hnu. rewrite Hu in Hnu. simpl in Hnu.
  unfold released, released_num. destruct (h_exist h) eqn:He; cbn [negb].
  - cbn [mbind result_bind]. rewrite op_read_back. done.
  - rewrite op_write. cbn [mbind result_bind].
    rewrite (read_line_Ok _ _ (put_entry l (offset_of v) (mk_header false false (h_dirty h) (h_ref h)) p
      (l_num_using l - 1))).
    2: { eapply eq_trans; [apply (zget_put t i _ l); apply op_line|].
         unfold set_num_using, put_entry. simpl. do 2 f_equal. apply Z.mod_small. lia. }
    cbn [mbind result_bind]. unfold entry_put. do 3 f_equal.
    all: unfold set_num_using, put_entry; simpl; by rewrite Z.mod_small by lia.
Qed.
End operations.

(** ** The specification: a map from virtual pages to entries

    [pte_step] is what a call does to the entry of its page; [None] is a call
    outside the contract the assertions state. *)
Inductive call :=
  | Pin
  | Unpin (is_write : bool)
  | CreateMapping (ppage_id ref_count : Z)
  | DeleteMapping
  | ReleaseLock.

Inductive reply :=
  | RPin (r : bool * Z * Z)
  | RCount (n : Z)
  | RBool (b : bool).

Definition run_call (c : call) (t : table) (v : Z) (hint : option Z) : result (table * reply) :=
  match c with
  | Pin => '(t, r) ← pin t v hint; Ok (t, RPin r)
  | Unpin w => '(t, r) ← unpin t v w hint; Ok (t, RCount r)
  | CreateMapping pp rc => '(t, r) ← create_mapping t v pp rc hint; Ok (t, RBool r)
  | DeleteMapping => '(t, r) ← delete_mapping t v hint; Ok (t, RBool r)
  | ReleaseLock => '(t, r) ← release_mapping_lock t v hint; Ok (t, RBool r)
  end.

Definition pte_step (c : call) (e : unpacked_pte) : option (unpacked_pte * reply) :=
  let '(mk_pte ex bu di rc pp) := e in
  match c with
  | Pin =>
      if ex && negb bu then Some (mk_pte ex bu di (ref_inc rc) pp, RPin (true, pp, rc))
      else Some (e, RPin pin_none)
  | Unpin w =>
      if ex && negb bu && (0 <? rc)
      then Some (mk_pte ex bu (if w then true else di) (ref_dec rc) pp, RCount rc) else None
  | CreateMapping pp' rc' =>
      if negb ex && (0 <=? pp') && (pp' <? EMPTY_PPAGE_ID) then
        if bu then Some (e, RBool false)
        else Some (mk_pte true true false (rc' mod REF_MOD) pp', RBool true)
      else None
  | DeleteMapping =>
      if ex then
        if negb (rc =? 0) || bu then Some (e, RBool false)
        else Some (mk_pte false true false 0 EMPTY_PPAGE_ID, RBool true)
      else None
  | ReleaseLock => if bu then Some (mk_pte ex false di rc pp, RBool true) else Some (e, RBool false)
  end.

(** The entry [v] becomes [e], the others stay. *)
Definition updates (t t' : table) (v : Z) (e : unpacked_pte) : Prop :=
  ∀ v', vpage_ok v' → get_pte t' v' None = if decide (v' = v) then Ok e else get_pte t v' None.

Lemma updates_same t v e : get_pte t v None = Ok e → updates t t v e.
Proof. intros He v' _. by destruct (decide (v' = v)) as [->|]. Qed.

Lemma update_step t tails v i l h p h' p' n : table_inv t tails → vpage_ok v →
  holds t tails (tag_of v) i l →
  zget (l_headers l) (offset_of v) = Some h → zget (l_ppage_ids l) (offset_of v) = Some p →
  entry_wf h' p' → n = l_num_using l - Z.b2z (used h) + Z.b2z (used h') →
  table_inv (entry_put t v i l h' p' n) tails ∧
  updates t (entry_put t v i l h' p' n) v (pte_of h' p') ∧
  holds (entry_put t v i l h' p' n) tails (tag_of v) i (put_entry l (offset_of v) h' p' n) ∧
  keeps_lines t tails (entry_put t v i l h' p' n) tails (tag_of v).
Proof.
  intros Hi Hv Hh Hgh Hgp Hwf Hn.
  destruct (put_entry_view _ _ Hi v i l h p h' p' n Hv Hh Hgh Hgp Hwf Hn) as [Hi' Hview].
  pose proof (λ tag' j lj, put_holds _ _ Hi (tag_of v) i l (put_entry l (offset_of v) h' p' n) tag' j lj Hh eq_refl) as Hput.
  split_and!; [done|intros v' _; apply Hview| |].
  - apply Hput. by left.
  - intros tag' j lj _ Hne Hj. exists lj. split; [|done].
    apply Hput. by right.
Qed.

Lemma entry_wf_ref_inc h p : entry_wf h p → h_exist h = true →
  entry_wf (mk_header true false (h_dirty h) (ref_inc (h_ref h))) p.
Proof.
  intros [Hok Hp] He. rewrite He in Hp. split; [|done].
  apply Z.mod_pos_bound. unfold REF_MOD. lia.
Qed.

Lemma entry_wf_ref_dec h p d : entry_wf h p → h_exist h = true →
  entry_wf (mk_header true false d (ref_dec (h_ref h))) p.
Proof.
  intros [Hok Hp] He. rewrite He in Hp. split; [|done].
  apply Z.mod_pos_bound. unfold REF_MOD. lia.
Qed.

Lemma entry_wf_unlock h p : entry_wf h p → entry_wf (mk_header (h_exist h) false (h_dirty h) (h_ref h)) p.
Proof. done. Qed.

Lemma entry_wf_mapped rc pp d b : 0 ≤ pp < EMPTY_PPAGE_ID →
  entry_wf (mk_header true b d (rc mod REF_MOD)) pp.
Proof. intros Hpp. split; [|done]. apply Z.mod_pos_bound. unfold REF_MOD. lia. Qed.

Lemma entry_wf_deleted : entry_wf (mk_header false true false 0) EMPTY_PPAGE_ID.
Proof. split; [|done]. unfold header_ok, REF_MOD. simpl. lia. Qed.

(** The line of a tag is where it was, or possibly gone. *)
Definition stays (gone : Prop) (t : table) (tails : Z → list Z) (t' : table) (tails' : Z → list Z) (tag : Z) : Prop :=
  ∀ j lj, holds t tails tag j lj → (gone ∧ absent t' tails' tag) ∨ ∃ lj', holds t' tails' tag j lj'.

Lemma stays_at gone t tails t' tails' tag i l l' : table_inv t tails → holds t tails tag i l → holds t' tails' tag i l' →
  stays gone t tails t' tails' tag.
Proof.
  intros Hi Hl Hl' j lj Hj. right. destruct (holds_unique _ _ Hi _ _ _ _ _ Hl Hj) as [<- _]. by exists l'.
Qed.

(** No tag gets a line; the one of [tag] has a user when a lock was released. *)
Definition lines_after (released : Prop) (t : table) (tails : Z → list Z) (t' : table) (tails' : Z → list Z) (tag : Z) : Prop :=
  (∀ tag' j lj, tag_ok tag' → holds t' tails' tag' j lj → ∃ lj0, holds t tails tag' j lj0) ∧
  (released → ∀ j lj, holds t' tails' tag j lj → l_num_using lj ≠ 0).

Lemma put_lines t tails v i l h' p' n : table_inv t tails → holds t tails (tag_of v) i l →
  ∀ tag' j lj, holds (entry_put t v i l h' p' n) tails tag' j lj → ∃ lj0, holds t tails tag' j lj0.
Proof.
  intros Hi Hh tag' j lj Hj. unfold entry_put in Hj. apply (put_holds _ _ Hi (tag_of v) i l (put_entry l (offset_of v) h' p' n) tag' j lj Hh eq_refl) in Hj as [(-> & -> & _)|[_ Hj]]; [by exists l|by exists lj].
Qed.

Lemma release_step t tails v i l h p hint : table_inv t tails → vpage_ok v →
  hint_ok t tails v hint → holds t tails (tag_of v) i l →
  zget (l_headers l) (offset_of v) = Some h → zget (l_ppage_ids l) (offset_of v) = Some p →
  entry_wf h p → h_busy h = true →
  ∃ t' tails', release_mapping_lock t v hint = Ok (t', true) ∧ table_inv t' tails' ∧
    updates t t' v (mk_pte (h_exist h) false (h_dirty h) (h_ref h) p) ∧
    keeps_lines t tails t' tails' (tag_of v) ∧ t_max_ppage_id t' = t_max_ppage_id t ∧
    stays True t tails t' tails' (tag_of v) ∧ lines_after True t tails t' tails' (tag_of v).
Proof.
  intros Hi Hv Hhint Hh Hgh Hgp Hwf Hb.
  rewrite (release_busy _ _ Hi v i l h p hint) by done.
  assert (Hn : released_num l h = l_num_using l - Z.b2z (used h) +
    Z.b2z (used (mk_header (h_exist h) false (h_dirty h) (h_ref h)))).
  { unfold released_num, used. simpl. rewrite Hb. destruct (h_exist h); simpl; lia. }
  destruct (update_step _ _ v i l h p _ p _ Hi Hv Hh Hgh Hgp (entry_wf_unlock h p Hwf) Hn)
    as (Hi' & Hup & Hh' & Hk). fold (released t v i l h p) in *.
  destruct (Z.eqb_spec (released_num l h) 0) as [Hz|Hz].
  2: { exists (released t v i l h p), tails. split_and!; try done; [by eapply stays_at|].
       split; [intros tag' j lj _; by apply put_lines|]. intros _ j lj Hj.
       by destruct (holds_unique _ _ Hi' _ _ _ _ _ Hh' Hj) as [_ <-]. }
  destruct (delete_cacheline_spec _ _ Hi' _ _ _ (tag_of_ok v Hv) Hh' Hz)
    as (t' & tails' & -> & (Hi2 & Hview & Hk2 & _ & Hm & Hnn2) & Habs).
  exists t', tails'. split_and!; [done|done| | |by rewrite Hm|by intros j lj _; left|].
  - intros v' Hv'. rewrite (Hview v' Hv'). by apply Hup.
  - intros tag' j lj Hok Hne Hj. destruct (Hk tag' j lj Hok Hne Hj) as (lj1 & Hj1 & Hs1).
    destruct (Hk2 tag' j lj1 Hok Hne Hj1) as (lj2 & Hj2 & Hs2). exists lj2. split; [done|].
    destruct Hs1 as (?&?&?&?), Hs2 as (?&?&?&?). split_and!; congruence.
  - split; [|intros _ j lj Hj; by destruct (Habs j lj)]. intros tag' j lj Hok Hj.
    destruct (decide (tag' = tag_of v)) as [->|Hne]; [by destruct (Habs j lj)|].
    destruct (Hnn2 tag' j lj Hok Hne Hj) as (lj1 & Hj1). by eapply put_lines.
Qed.

Lemma keeps_lines_refl t tails tag : keeps_lines t tails t tails tag.
Proof. intros tag' j lj _ _ Hj. by exists lj. Qed.

(** One call, with what it leaves of the rest of the table. *)
Lemma run_call_spec t tails c v hint e e' r :
  table_inv t tails → vpage_ok v → hint_ok t tails v hint →
  (∃ i l, holds t tails (tag_of v) i l) →
  get_pte t v None = Ok e → pte_step c e = Some (e', r) →
  ∃ t' tails', run_call c t v hint = Ok (t', r) ∧ table_inv t' tails' ∧ updates t t' v e' ∧
    keeps_lines t tails t' tails' (tag_of v) ∧ t_max_ppage_id t' = t_max_ppage_id t ∧
    stays (c = ReleaseLock) t tails t' tails' (tag_of v) ∧
    lines_after (c = ReleaseLock ∧ r = RBool true) t tails t' tails' (tag_of v).
Proof.
  intros Hi Hv Hhint (i & l & Hh) Hget Hstep.
  destruct (holds_entry _ _ Hi v i l Hh) as (h & p & Hgh & Hgp & Hwf).
  pose proof (op_get _ _ Hi v i l h p Hh Hgh Hgp) as Hget'. rewrite Hget in Hget'.
  apply (inj Ok) in Hget'. subst e.
  assert (Hsame : updates t t v (pte_of h p)) by (by apply updates_same).
  pose proof (keeps_lines_refl t tails (tag_of v)) as Hrefl.
  pose proof (stays_at (c = ReleaseLock) t tails t tails (tag_of v) i l l Hi Hh Hh) as Hst.
  assert (Hstep' : ∀ h' p' n, c ≠ ReleaseLock → entry_wf h' p' → n = l_num_using l - Z.b2z (used h) + Z.b2z (used h') →
    table_inv (entry_put t v i l h' p' n) tails ∧ updates t (entry_put t v i l h' p' n) v (pte_of h' p') ∧
    keeps_lines t tails (entry_put t v i l h' p' n) tails (tag_of v) ∧
    t_max_ppage_id (entry_put t v i l h' p' n) = t_max_ppage_id t ∧
    stays (c = ReleaseLock) t tails (entry_put t v i l h' p' n) tails (tag_of v) ∧
    lines_after (c = ReleaseLock ∧ r = RBool true) t tails (entry_put t v i l h' p' n) tails (tag_of v)).
  { intros h' p' n ? ? ?. destruct (update_step _ _ v i l h p h' p' n Hi Hv Hh Hgh Hgp) as (?&?&?&?); [done..|].
    split_and!; try done; [by eapply stays_at|]. split; [intros tag' j lj _; by apply put_lines|tauto]. }
  assert (Hno : ¬ (c = ReleaseLock ∧ r = RBool true) → lines_after (c = ReleaseLock ∧ r = RBool true) t tails t tails (tag_of v)).
  { intros Hn. split; [intros tag' j lj _ Hj; by exists lj|tauto]. }
  destruct c as [|w|pp rc| |]; simpl in Hstep.
  - destruct (h_exist h) eqn:He, (h_busy h) eqn:Hb; simplify_eq/=;
      try (exists t, tails; rewrite (pin_fail _ _ Hi v i l h p) by (done || by rewrite He, Hb); do 6 (split; [done|]); apply Hno; by intros [? ?]).
    rewrite (pin_ok _ _ Hi v i l h p) by done. eexists _, tails. split; [done|].
    apply Hstep'; [done|by apply entry_wf_ref_inc|]. unfold used. rewrite He. simpl. lia.
  - destruct (h_exist h) eqn:He, (h_busy h) eqn:Hb, (Z.ltb_spec 0 (h_ref h)); simplify_eq/=.
    rewrite (unpin_ok _ _ Hi v i l h p) by done. eexists _, tails. split; [done|].
    apply Hstep'; [done|by apply entry_wf_ref_dec|]. unfold used. rewrite He. simpl. lia.
  - destruct (h_exist h) eqn:He; simplify_eq/=.
    destruct (Z.leb_spec 0 pp), (Z.ltb_spec pp EMPTY_PPAGE_ID); simplify_eq/=.
    destruct (h_busy h) eqn:Hb; simplify_eq/=.
    + rewrite (create_mapping_busy _ _ Hi v i l h p) by done. exists t, tails. do 6 (split; [done|]). apply Hno. by intros [? ?].
    + rewrite (create_mapping_ok _ _ Hi v i l h p) by done. eexists _, tails. split; [done|].
      apply Hstep'; [done|by apply entry_wf_mapped|]. unfold used. rewrite He, Hb. simpl. lia.
  - destruct (h_exist h) eqn:He; simplify_eq/=.
    destruct (negb (h_ref h =? 0) || h_busy h) eqn:Hl; simplify_eq/=.
    + rewrite (delete_mapping_fail _ _ Hi v i l h p) by done. exists t, tails. do 6 (split; [done|]). apply Hno. by intros [? ?].
    + apply orb_false_iff in Hl as [Hr Hb]. apply negb_false_iff, Z.eqb_eq in Hr.
      rewrite (delete_mapping_ok _ _ Hi v i l h p) by done. eexists _, tails. split; [done|].
      apply Hstep'; [done|apply entry_wf_deleted|]. unfold used. rewrite He. simpl. lia.
  - destruct (h_busy h) eqn:Hb; simplify_eq/=.
    + destruct (release_step t tails v i l h p hint) as (t' & tails' & -> & ? & ? & ? & ? & Hs & [Hl1 Hl2]); [done..|].
      exists t', tails'. split_and!; try done; [|split; [done|intros _; by apply Hl2]]. intros j lj Hj. destruct (Hs j lj Hj) as [[_ ?]|?]; [by left|by right].
    + rewrite (release_idle _ _ Hi v i l h p) by done. exists t, tails. do 6 (split; [done|]). apply Hno. by intros [? ?].
Qed.

(** C24: the compact hash page table implements a map from virtual pages to
    entries: every call inside its contract, on a table that satisfies the
    invariant and with any hint a search would return, returns, changes the
    entry of its own page as [pte_step] says and no other entry, keeps the
    invariant, and leaves the lines of other tags (so the hints others hold)
    where they are. *)
Theorem compact_table_refines_map t tails c v hint e e' r :
  table_inv t tails → vpage_ok v → hint_ok t tails v hint →
  (∃ i l, holds t tails (tag_of v) i l) →
  get_pte t v None = Ok e → pte_step c e = Some (e', r) →
  ∃ t' tails', run_call c t v hint = Ok (t', r) ∧ table_inv t' tails' ∧ updates t t' v e' ∧
    keeps_lines t tails t' tails' (tag_of v).
Proof.
  intros Hi Hv Hhint Hl Hget Hstep.
  destruct (run_call_spec t tails c v hint e e' r Hi Hv Hhint Hl Hget Hstep) as (t' & tails' & ? & ? & ? & ? & _ & _ & _).
  by exists t', tails'.
Qed.

(** ** The initial table *)
Definition init_ok (max_ppage_id : Z) : Prop := 0 < max_ppage_id < EMPTY_PPAGE_ID.

Lemma init_bucket mv mp : init_ok mp → t_bucket_size (init mv mp) = mp * 2.
Proof.
  unfold init_ok, EMPTY_PPAGE_ID. intros ?. simpl. apply w64_small. lia.
Qed.

Lemma init_line mv mp i l : zget (t_store (init mv mp)) i = Some l → l = EMPTY_LINE.
Proof. apply zget_replicate_inv. Qed.

Lemma init_table_inv mv mp : init_ok mp → table_inv (init mv mp) (λ _, []).
Proof.
  intros Hmp. pose proof (init_bucket mv mp Hmp) as Hbs.
  split; try done.
  - rewrite Hbs. unfold init_ok in Hmp. simpl in *. rewrite zlen_replicate, Hbs. lia.
  - intros b Hb. exists EMPTY_LINE. split; [|done]. unfold bucket in Hb. rewrite Hbs in Hb.
    simpl in *. rewrite Hbs. unfold init_ok in Hmp. apply zget_replicate. lia.
  - intros i. rewrite Hbs. simpl in *. rewrite Hbs, elem_of_seqZ. split; [by left|].
    intros [?|(b & _ & Hb)]; [done|by apply elem_of_nil in Hb].
  - intros. constructor.
  - intros b1 b2 i _ _ Hin. by apply elem_of_nil in Hin.
  - apply NoDup_seqZ.
  - intros b i _ Hin. by apply elem_of_nil in Hin.
  - intros i Hin. simpl in *. rewrite Hbs in *. apply elem_of_seqZ in Hin.
    unfold init_ok in Hmp. apply zget_replicate. lia.
  - intros i l ->%init_line. apply empty_line_wf.
  - intros b i l _ Hin ->%init_line. left. by apply list_elem_of_singleton in Hin.
  - intros b i j l1 l2 _ Hin Hjn _ _ _. apply list_elem_of_singleton in Hin, Hjn. congruence.
Qed.

Lemma init_get mv mp v : init_ok mp → vpage_ok v → get_pte (init mv mp) v None = Ok no_pte.
Proof.
  intros Hmp Hv. apply (get_pte_absent _ _ (init_table_inv mv mp Hmp)). intros i l (_ & Hg & Ht).
  apply init_line in Hg as ->. pose proof (tag_of_ok v Hv) as Hok. rewrite <- Ht in Hok.
  unfold tag_ok in Hok. simpl in Hok. lia.
Qed.

(** The constructor builds an empty table: the invariant holds, nothing is
    mapped, and the pool has a line for every physical page. *)
Lemma compact_table_init mv mp : init_ok mp →
  table_inv (init mv mp) (λ _, []) ∧ (∀ v, vpage_ok v → get_pte (init mv mp) v None = Ok no_pte) ∧
  zlen (t_pool (init mv mp)) = mp.
Proof.
  intros Hmp. split_and!; [by apply init_table_inv|by intros v; apply init_get|].
  simpl. unfold init_ok in Hmp. unfold zlen. rewrite length_seqZ. lia.
Qed.

(** ** Finding or creating the line of a page *)

(** [find_or_create_hint] returns the line of the page, creating it when
    there is none and there is room, and does not change any entry. *)
Lemma find_or_create_hint_spec t tails v :
  table_inv t tails → vpage_ok v → has_room t (tag_of v) ∨ ¬ absent t tails (tag_of v) →
  ∃ t' tails' i l, find_or_create_hint t v = Ok (t', i) ∧ holds t' tails' (tag_of v) i l ∧
    line_change t tails t' tails' (tag_of v).
Proof.
  intros Hi Hv Hroom. destruct (holds_dec _ _ Hi (tag_of v)) as [(i & l & Hh)|Ha].
  - exists t, tails, i, l. unfold find_or_create_hint.
    rewrite (find_hint_holds _ _ Hi _ _ _ Hh). split; [done|]. split; [done|].
    split_and!; try done; [apply keeps_lines_refl|]. by intros tag' j lj _ _ Hj; exists lj.
  - destruct Hroom as [Hroom|?]; [|done].
    destruct (create_line_spec t tails Hi (tag_of v) (tag_of_ok v Hv) Ha Hroom)
      as (t' & tails' & p & i & l & Hf & Hc & Hch & Hh & _).
    exists t', tails', i, l. unfold find_or_create_hint. by rewrite Hf.
Qed.

(** *** Capacity *)
Definition in_use (t : table) (v : Z) : Prop :=
  ∃ e, get_pte t v None = Ok e ∧ p_exist e || p_busy e = true.

Lemma count_used_exists (hs : list pte_header) : count_used hs ≠ 0 →
  ∃ o h, zget hs o = Some h ∧ used h = true.
Proof.
  unfold count_used. intros Hn. destruct (filter (λ h, used h = true) hs) as [|h hs'] eqn:E; [done|].
  assert (Hin : h ∈ filter (λ h, used h = true) hs) by (rewrite E; by apply elem_of_cons; left).
  apply list_elem_of_filter in Hin as [Hu Hin]. apply list_elem_of_lookup in Hin as [n Hn'].
  exists (Z.of_nat n), h. by rewrite zget_nat.
Qed.

Lemma page_of_tag tag o : 0 ≤ o < NUM_PACK_PAGES →
  tag_of (tag * NUM_PACK_PAGES + o) = tag ∧ offset_of (tag * NUM_PACK_PAGES + o) = o.
Proof.
  unfold tag_of, offset_of, NUM_PACK_PAGES. intros ?. split; Z.to_euclidean_division_equations; lia.
Qed.

(** A line with a user has a page in use. *)
Lemma line_in_use t tails tag i l : table_inv t tails → tag_ok tag → holds t tails tag i l → l_num_using l ≠ 0 →
  ∃ v, vpage_ok v ∧ tag_of v = tag ∧ in_use t v.
Proof.
  intros Hi Htag Hh Hn. pose proof (holds_line _ _ Hi _ _ _ Hh) as Hwf.
  rewrite (wf_num_using _ Hwf) in Hn. destruct (count_used_exists _ Hn) as (o & h & Ho & Hu).
  assert (Hr : 0 ≤ o < NUM_PACK_PAGES) by (rewrite <- (wf_headers _ Hwf); by eapply zget_range).
  destruct (page_of_tag tag o Hr) as [Et Eo]. set (v := tag * NUM_PACK_PAGES + o) in *.
  exists v. split; [unfold vpage_ok, tag_ok, NUM_PACK_PAGES in *; lia|]. split; [done|]. rewrite <- Et in Hh. rewrite <- Eo in Ho.
  destruct (holds_entry _ _ Hi v i l Hh) as (h' & p & Hh' & Hp & _).
  assert (h' = h) as -> by congruence.
  exists (pte_of h p). split; [by apply (get_pte_holds _ _ Hi v i l)|done].
Qed.

(** A page in use has a line with a user. *)
Lemma in_use_user t tails v : table_inv t tails → in_use t v → ∃ i l, holds t tails (tag_of v) i l ∧ l_num_using l ≠ 0.
Proof.
  intros Hi (e & He & Hu). destruct (get_pte_exist t tails Hi v e He Hu) as (i & l & h & Hl & Hgh & _ & Ee & _).
  exists i, l. split; [done|]. rewrite (wf_num_using _ (holds_line _ _ Hi _ _ _ Hl)). intros Hz.
  pose proof (count_used_zero _ _ h Hz Hgh) as Hn. rewrite Ee in Hu. unfold used in Hn. simpl in Hu. congruence.
Qed.

Lemma compact_table_capacity_all t tails tag (vs : list Z) :
  table_inv t tails →
  (∀ tag' i l, tag_ok tag' → holds t tails tag' i l → l_num_using l ≠ 0) →
  (∀ v, vpage_ok v → in_use t v → v ∈ vs) → zlen vs ≤ t_max_ppage_id t →
  has_room t tag.
Proof.
  intros Hi Hfull Hvs Hlen. set (b0 := get_bucket t tag). pose proof (get_bucket_ok _ _ Hi tag : bucket t b0) as Hb0.
  destruct (linked_head _ _ _ (ti_linked _ _ Hi b0 Hb0)) as [hl Hhl].
  destruct (decide (l_tag hl = EMPTY_TAG)) as [Hempty|Hne]; [right; by exists hl|].
  left. intros Hpool. pose proof (ti_max _ _ Hi) as Hmax.
  assert (Huser : ∀ b i l, bucket t b → i ∈ chain tails b → zget (t_store t) i = Some l → l_tag l ≠ EMPTY_TAG →
    ∃ v, vpage_ok v ∧ in_use t v ∧ ∃ l', holds t tails (tag_of v) i l').
  { intros b i l Hb Hc Hl Hnl. destruct (ti_tag _ _ Hi b i l Hb Hc Hl) as [[? _]|[Hok Hbt]]; [done|].
    assert (Hh : holds t tails (l_tag l) i l) by (unfold holds, get_bucket; by rewrite Hbt).
    destruct (line_in_use _ _ _ _ _ Hi Hok Hh (Hfull _ i l Hok Hh)) as (v & Hv & Ev & Hu).
    exists v. split; [done|]. split; [done|]. exists l. by rewrite Ev. }
  destruct (list_choose (λ i v, vpage_ok v ∧ in_use t v ∧ ∃ l, holds t tails (tag_of v) i l)
    (b0 :: seqZ (t_bucket_size t) (t_max_ppage_id t))) as [ws Hws].
  { intros i [->|Hin%elem_of_seqZ]%elem_of_cons.
    { apply (Huser b0 b0 hl); [done|by apply elem_of_cons; left|done|done]. }
    apply (ti_pool_part _ _ Hi) in Hin as [Hin|(b & Hb & Hin)].
    { rewrite Hpool in Hin. by apply elem_of_nil in Hin. }
    assert (Hc : i ∈ chain tails b) by (by apply elem_of_cons; right).
    destruct (linked_in _ _ _ i (ti_linked _ _ Hi b Hb) Hc) as [l Hl].
    apply (Huser b i l); [done|done|done|]. intros E.
    destruct (ti_tag _ _ Hi b i l Hb Hc Hl) as [[_ ->]|[Hok _]]; [|lia].
    pose proof (tail_range _ _ Hi b b Hb Hin). unfold bucket in Hb. lia. }
  assert (Hnd : NoDup ws).
  { eapply Forall2_NoDup; [|exact Hws|].
    - intros i j v (_ & _ & l1 & H1) (_ & _ & l2 & H2). by destruct (holds_unique _ _ Hi _ _ _ _ _ H1 H2).
    - apply NoDup_cons. split; [|apply NoDup_seqZ]. rewrite elem_of_seqZ. unfold bucket in Hb0. lia. }
  assert (Hsub : ws ⊆ vs).
  { intros v Hin. apply list_elem_of_lookup in Hin as [n Hn].
    destruct (Forall2_lookup_r _ _ _ _ _ Hws Hn) as (i & _ & Hv & Hu & _). by apply Hvs. }
  apply Forall2_length in Hws. cbn [length] in Hws. rewrite length_seqZ in Hws.
  pose proof (submseteq_length _ _ (NoDup_submseteq _ _ Hnd Hsub)). unfold zlen in Hlen. lia.
Qed.

(** C30: when the pool runs dry.  As long as every line that has a tag has an
    entry in use, and no more pages are in use than the table has physical pages,
    there is room for the line of any further page: the head line of its bucket
    is free, or the pool has a line.  The first condition is the caller's to keep:
    a line whose entries are all unused is given back by the release of a mapping
    only, and a search that creates a line need not be followed by one. *)
Theorem compact_table_capacity t tails tag (vs : list Z) :
  table_inv t tails →
  (∀ tag' i l, tag_ok tag' → holds t tails tag' i l → l_num_using l ≠ 0) →
  (∀ v, vpage_ok v → in_use t v → v ∈ vs) → zlen vs ≤ t_max_ppage_id t →
  has_room t tag.
Proof. apply compact_table_capacity_all. Qed.

(** *** Witnesses *)
Definition table4 : table := init 100 4.
Definition table4_with_line : table := put table4 0 (set_tag EMPTY_LINE 0).

Lemma table4_inv : table_inv table4 (λ _, []).
Proof. apply init_table_inv. unfold init_ok, EMPTY_PPAGE_ID. lia. Qed.

Lemma table4_absent tag : tag_ok tag → absent table4 (λ _, []) tag.
Proof.
  intros Hok i l (_ & Hg & Ht). apply init_line in Hg as ->.
  unfold tag_ok in Hok. simpl in Ht. lia.
Qed.

Lemma table4_line : table_inv table4_with_line (λ _, []) ∧
  holds table4_with_line (λ _, []) 0 0 (set_tag EMPTY_LINE 0).
Proof.
  assert (Hok : tag_ok 0) by (split; [lia|reflexivity]).
  destruct (create_head_change table4 _ table4_inv 0 Hok (table4_absent 0 Hok) EMPTY_LINE) as [(Hi & _) Hh];
    [reflexivity..|]. done.
Qed.

Lemma compact_table_refines_map_witness :
  ∃ t' tails', run_call (CreateMapping 3 1) table4_with_line 5 None = Ok (t', RBool true) ∧
    table_inv t' tails' ∧ updates table4_with_line t' 5 (mk_pte true true false 1 3) ∧
    keeps_lines table4_with_line (λ _, []) t' tails' (tag_of 5).
Proof.
  destruct table4_line as [Hi Hh].
  apply (compact_table_refines_map _ (λ _, []) _ _ _ no_pte); [done| |done| |reflexivity|reflexivity].
  - split; [lia|reflexivity].
  - by eexists _, _.
Defined.

(** Page 5 is mapped: its line is the only one, and has it in use. *)
Lemma table4_mapped : ∃ t tails, run_call (CreateMapping 3 1) table4_with_line 5 None = Ok (t, RBool true) ∧ table_inv t tails ∧
  t_max_ppage_id t = 4 ∧ in_use t 5 ∧ (∀ tag i l, tag_ok tag → holds t tails tag i l → l_num_using l ≠ 0) ∧ ∀ v, vpage_ok v → in_use t v → v ∈ [5].
Proof.
  destruct table4_line as [Hi Hh].
  assert (∀ i l, zget (t_store table4_with_line) i = Some l → l = set_tag EMPTY_LINE 0 ∨ l = EMPTY_LINE) as Hlines.
  { intros i l Hg. change (zget (zset (t_store table4) 0 (set_tag EMPTY_LINE 0)) i = Some l) in Hg. destruct (decide (i = 0)) as [->|Hne].
    - left. vm_compute in Hg. by injection Hg as <-.
    - right. rewrite zget_zset_ne in Hg by done. by apply init_line in Hg. }
  assert (∀ tag i l, holds table4_with_line (λ _, []) tag i l → tag_ok tag → tag = 0) as Honly.
  { intros tag i l (_ & [->| ->]%Hlines & Ht) Hok; [by rewrite <- Ht|]. unfold tag_ok in Hok. simpl in Ht. lia. }
  assert (∀ v, ¬ in_use table4_with_line v) as Hnone.
  { intros v (e & He & Hu). rewrite (get_pte_blank _ (λ _, [])) in He; [by injection He as <-|done|].
    by intros i l (_ & [->| ->]%Hlines & _). }
  destruct (run_call_spec _ (λ _, []) (CreateMapping 3 1) 5 None no_pte (mk_pte true true false 1 3) (RBool true) Hi) as (t & tails & Hrun & Ht & Hup & _ & Hmax & _ & Hla & _);
    [by split|done|by eexists _, _|reflexivity|reflexivity|].
  assert (in_use t 5) as H5 by (exists (mk_pte true true false 1 3); by rewrite Hup by (by split)).
  exists t, tails. split; [exact Hrun|]. split; [exact Ht|]. split; [by rewrite Hmax|]. split; [exact H5|]. split.
  - intros tag i l Hok Hl. destruct (Hla tag i l Hok Hl) as [l0 Hl0]. rewrite (Honly tag i l0 Hl0 Hok) in Hl.
    destruct (in_use_user t tails 5 Ht H5) as (j & l5 & Hl5 & Hn). by destruct (holds_unique _ _ Ht _ _ _ _ _ Hl Hl5) as [_ ->].
  - intros v Hv (e & He & Hu). rewrite Hup in He by done. case_decide as E; [subst; by apply list_elem_of_singleton|]. destruct (Hnone v). by exists e.
Qed.

Lemma compact_table_capacity_witness : ∃ t, run_call (CreateMapping 3 1) table4_with_line 5 None = Ok (t, RBool true) ∧ in_use t 5 ∧ has_room t 7.
Proof.
  destruct table4_mapped as (t & tails & Hrun & Hi & Hmax & H5 & Hfull & Hall). exists t. split; [exact Hrun|]. split; [exact H5|].
  apply (compact_table_capacity t tails 7 [5] Hi Hfull Hall). rewrite Hmax. by vm_compute.
Defined.
