(* ===== verification/CompactTableLines.v ===== *)
(** * Lines without a user

    The pool of [CompactHashPageTable.v] does not run dry as long as every line
    that has a tag has an entry in use ([compact_table_capacity]).  A search
    that creates a line leaves one without a user until the mapping is created;
    the calls on the table keep all others in use.  This file states it of the
    table alone, as [SharedSingleThreadCache.v] uses it. *)
From S2P Require Import Prelude PteHeader CompactHashPageTable.
From stdpp Require Import gmap.

Open Scope Z_scope.

Definition has_line (t : table) (v : Z) : Prop := ∃ i, find_hint t v = Ok (Some i).

Definition users (t : table) (v : Z) : Prop := ∃ u, vpage_ok u ∧ tag_of u = tag_of v ∧ in_use t u.

(** A table for [m.1] physical pages and the virtual pages below [m.2]; every
    line has an entry in use, except possibly the one of tag [x]. *)
Definition used_but (m : Z * Z) (x : option Z) (t : table) : Prop :=
  t_max_ppage_id t = m.1 ∧ (∀ u, vpage_ok u → in_use t u → u < m.2) ∧ ∀ v, vpage_ok v → has_line t v → x = Some (tag_of v) ∨ users t v.

Section lines.
Context (t : table) (tails : Z → list Z) (Hi : table_inv t tails).

Lemma has_line_holds v : has_line t v ↔ ∃ i l, holds t tails (tag_of v) i l.
Proof using Hi.
  unfold has_line, find_hint. split.
  - intros [i E]. destruct (holds_dec _ _ Hi (tag_of v)) as [?|Ha]; [done|]. by rewrite (find_cacheline_absent _ _ Hi _ _ Ha) in E.
  - intros (i & l & Hl). exists i. by apply (find_cacheline_holds _ _ Hi _ _ _ _ Hl).
Qed.

Lemma in_use_has_line v : in_use t v → has_line t v.
Proof using Hi. intros Hu. apply has_line_holds. destruct (in_use_user _ _ v Hi Hu) as (i & l & ? & _). by exists i, l. Qed.

Lemma tag_has_page tag : tag_ok tag → ∃ v, vpage_ok v ∧ tag_of v = tag.
Proof using.
  intros Ht. exists (tag * NUM_PACK_PAGES + 0). split; [unfold vpage_ok, tag_ok, NUM_PACK_PAGES in *; lia|].
  apply (page_of_tag tag 0). by unfold NUM_PACK_PAGES.
Qed.

(** All lines in use: there is room for another. *)
Lemma used_room m tag (vs : list Z) : used_but m None t → (∀ v, 0 ≤ v < m.2 → in_use t v → v ∈ vs) → zlen vs ≤ m.1 →
  has_room t tag.
Proof using Hi.
  intros (Em & Hb & Hu) Hvs Hlen. rewrite <- Em in Hlen. apply (compact_table_capacity_all t tails tag vs Hi);
    [|intros v Hv Hin; apply Hvs; [split; [apply Hv|by apply Hb]|done]|done]. intros tag' i l Ht Hl.
  destruct (tag_has_page tag' Ht) as (v & Hv & <-). destruct (Hu v Hv) as [?|(u & Hvu & E & Hin)]; [apply has_line_holds; by exists i, l|done|].
  destruct (in_use_user _ _ u Hi Hin) as (j & lj & Hj & Hn). rewrite E in Hj. by destruct (holds_unique _ _ Hi _ _ _ _ _ Hl Hj) as [_ <-].
Qed.
End lines.

(** *** The calls *)
Definition but_tag (x : option Z) (v : Z) : option Z := if decide (x = Some (tag_of v)) then None else x.

Lemma used_call m P t tails t' tails' v e x : table_inv t tails → table_inv t' tails' → vpage_ok v → updates t t' v e →
  lines_after P t tails t' tails' (tag_of v) → t_max_ppage_id t' = t_max_ppage_id t → v < m.2 → p_exist e || p_busy e = true ∨ P → used_but m x t → used_but m (but_tag x v) t'.
Proof.
  intros Hi Hi' Hv Hup [Hl Hr] Hm Hvm Huse (Hx0 & Hb & Hx). split; [by rewrite Hm|]. split.
  { intros u Hu (e0 & He0 & Hu0). rewrite (Hup u Hu) in He0. case_decide; [by subst|]. apply Hb; [done|by exists e0]. }
  intros u Hu Hlu. apply (has_line_holds _ _ Hi') in Hlu as (i & l & Hl').
  destruct (decide (tag_of u = tag_of v)) as [E|E].
  - right. destruct Huse as [Huse|HP].
    + exists v. split; [done|]. split; [by symmetry|]. exists e. rewrite (Hup v Hv). by rewrite decide_True.
    + rewrite E in Hl'. destruct (line_in_use _ _ _ _ _ Hi' (tag_of_ok v Hv) Hl' (Hr HP _ _ Hl')) as (w & ? & ? & ?).
      exists w. by rewrite E.
  - destruct (Hl _ _ _ (tag_of_ok u Hu) Hl') as (l0 & Hl0).
    destruct (Hx u Hu) as [->|(w & Hw & Ew & (e0 & He0 & Hu0))]; [apply (has_line_holds _ _ Hi); by exists i, l0| |].
    + left. unfold but_tag. rewrite decide_False; [done|]. by intros [= ?].
    + right. exists w. split; [done|]. split; [done|]. exists e0. rewrite (Hup w Hw), decide_False; [done|]. by intros ->.
Qed.

Lemma used_line_change m t tails t' tails' v : table_inv t tails → vpage_ok v → line_change t tails t' tails' (tag_of v) →
  used_but m None t → used_but m (Some (tag_of v)) t'.
Proof.
  intros Hi Hv (Hi' & Hview & _ & _ & Hm & Hno) (Hx0 & Hb & Hx). split; [by rewrite Hm|]. split.
  { intros u Hu (e0 & He0 & Hu0). rewrite (Hview u Hu) in He0. apply Hb; [done|by exists e0]. }
  intros u Hu Hlu. apply (has_line_holds _ _ Hi') in Hlu as (i & l & Hl').
  destruct (decide (tag_of u = tag_of v)) as [E|E]; [left; by rewrite E|right].
  destruct (Hno _ _ _ (tag_of_ok u Hu) E Hl') as (l0 & Hl0).
  destruct (Hx u Hu) as [?|(w & Hw & Ew & (e0 & He0 & Hu0))]; [apply (has_line_holds _ _ Hi); by exists i, l0|done|].
  exists w. split; [done|]. split; [done|]. exists e0. by rewrite (Hview w Hw).
Qed.

Lemma used_weaken m x t : used_but m None t → used_but m x t.
Proof. intros (Hm & Hb & Hu). split; [done|]. split; [done|]. intros v Hv Hl. destruct (Hu v Hv Hl) as [?|?]; [done|by right]. Qed.

Lemma used_but_tag m x v t : used_but m (but_tag x v) t → used_but m x t.
Proof. unfold but_tag. case_decide; [apply used_weaken|done]. Qed.

Lemma init_used mv mp : init_ok mp → used_but (mp, mv) None (init mv mp).
Proof.
  intros Hmp. split; [done|]. split.
  { intros u Hu (e & He & Hue). rewrite init_get in He by done. injection He as <-. done. }
  intros v Hv Hl. apply (has_line_holds _ _ (init_table_inv mv mp Hmp)) in Hl as (i & l & _ & Hg & Ht).
  apply init_line in Hg as ->. pose proof (tag_of_ok v Hv) as Hok. rewrite <- Ht in Hok. unfold tag_ok in Hok. simpl in Hok. lia.
Qed.
