(* ===== verification/PageTable.v ===== *)
(** * The page tables of the single-threaded caches

    [include/page_table.hpp]: [HashPageTable] over a hopscotch map and
    [DirectPageTable], an array indexed by virtual page, and the page-table
    entry [template_page_table_state_type] of [include/single_thread_cache.hpp]
    in its two layouts.  [SingleThreadCache] is a template in the page table,
    so its model is written against the class [PageTable]; both tables are
    instances of [PageTableSpec]. *)
From S2P Require Import Prelude.
From stdpp Require Import gmap.

Open Scope Z_scope.

(** ** Entries *)
Record page_state := mk_ps {
  ps_ppage_id : Z;
  ps_exist : bool;
  ps_busy : bool;
  ps_dirty : bool;
  ps_ref_count : Z;
}.

#[export] Instance page_state_eq_dec : EqDecision page_state.
Proof. solve_decision. Defined.

(** [template_page_table_state_type<CompactState>]: the compact layout packs
    the entry into one word, with 52 bits for the physical page and 8 for the
    reference count. *)
Definition ppage_width (compact : bool) : Z := if compact then 64 - 12 else 64.
Definition ref_width (compact : bool) : Z := if compact then 8 else 32.

Definition state_wf (compact : bool) (s : page_state) : Prop :=
  0 ≤ ps_ppage_id s < 2 ^ ppage_width compact ∧ 0 ≤ ps_ref_count s < 2 ^ ref_width compact.

(** [page_table_state_type()] *)
Definition empty_state : page_state := mk_ps 0 false false false 0.

Definition packed_state (s : page_state) : Z :=
  ps_ppage_id s + 2 ^ 52 * Z.b2z (ps_exist s) + 2 ^ 53 * Z.b2z (ps_busy s) +
  2 ^ 54 * Z.b2z (ps_dirty s) + 2 ^ 55 * ps_ref_count s.

(** [operator==]: the wide layout compares two fields, the compact one the
    whole word. *)
Definition state_eqb (compact : bool) (s1 s2 : page_state) : bool :=
  if compact then packed_state s1 =? packed_state s2
  else (ps_ppage_id s1 =? ps_ppage_id s2) && eqb (ps_exist s1) (ps_exist s2).

Definition set_busy (s : page_state) (b : bool) : page_state :=
  mk_ps (ps_ppage_id s) (ps_exist s) b (ps_dirty s) (ps_ref_count s).
Definition set_dirty (s : page_state) (b : bool) : page_state :=
  mk_ps (ps_ppage_id s) (ps_exist s) (ps_busy s) b (ps_ref_count s).

(** Assignment to the reference count truncates to the width of the field. *)
Definition set_ref (compact : bool) (s : page_state) (n : Z) : page_state :=
  mk_ps (ps_ppage_id s) (ps_exist s) (ps_busy s) (ps_dirty s) (n mod 2 ^ ref_width compact).
Definition set_ppage (compact : bool) (s : page_state) (n : Z) : page_state :=
  mk_ps (n mod 2 ^ ppage_width compact) (ps_exist s) (ps_busy s) (ps_dirty s) (ps_ref_count s).

Lemma exist_not_empty compact s : state_wf compact s → ps_exist s = true →
  state_eqb compact s empty_state = false.
Proof.
  destruct compact, s as [p e b d r]; unfold state_wf, state_eqb; simpl; intros [Hp Hr] ->.
  - apply Z.eqb_neq. unfold packed_state. simpl. unfold ppage_width in Hp. destruct b, d; simpl; lia.
  - apply andb_false_r.
Qed.

Lemma empty_eqb compact : state_eqb compact empty_state empty_state = true.
Proof. by destruct compact. Qed.

(** ** The interface the cache uses *)
Class PageTable (T : Type) := {
  pt_init : Z → Z → T;
  pt_put : T → Z → page_state → result (T * bool);
  pt_get : T → Z → result (option page_state);
  pt_del : T → Z → result (T * bool);
}.

(** What a page table promises for the virtual pages below [max_vpage] and the
    entries that exist: it is a finite map. *)
Class PageTableSpec (compact : bool) (T : Type) `{PageTable T} := {
  pt_map : T → gmap Z page_state;
  pt_inv : Z → T → Prop;
  pt_init_spec mv mp : 0 ≤ mv → pt_inv mv (pt_init mv mp) ∧ pt_map (pt_init mv mp) = ∅;
  pt_get_spec mv t v : pt_inv mv t → 0 ≤ v < mv → pt_get t v = Ok (pt_map t !! v);
  pt_put_spec mv t v s : pt_inv mv t → 0 ≤ v < mv → state_wf compact s → ps_exist s = true →
    ∃ t', pt_put t v s = Ok (t', bool_decide (pt_map t !! v = None)) ∧ pt_inv mv t' ∧
      pt_map t' = <[v := s]> (pt_map t);
  pt_del_spec mv t v : pt_inv mv t → 0 ≤ v < mv →
    ∃ t', pt_del t v = Ok (t', bool_decide (pt_map t !! v ≠ None)) ∧ pt_inv mv t' ∧
      pt_map t' = delete v (pt_map t);
  pt_map_range mv t v s : pt_inv mv t → pt_map t !! v = Some s → 0 ≤ v < mv;
}.

(** ** [DirectPageTable] *)
Module Direct.

Record t := mk { max_vpage_id : Z; empty_value : page_state; store : list page_state }.

Definition init (max_vpage max_ppage : Z) : t :=
  mk max_vpage empty_state (replicate (Z.to_nat max_vpage) empty_state).

Section direct.
Context (compact : bool).

Definition put (s : t) (v : Z) (x : page_state) : result (t * bool) :=
  old ← aread (store s) v;
  let is_insert := state_eqb compact old (empty_value s) in
  st ← awrite (store s) v x;
  Ok (mk (max_vpage_id s) (empty_value s) st, is_insert).

Definition get (s : t) (v : Z) : result (option page_state) :=
  x ← aread (store s) v;
  Ok (if state_eqb compact x (empty_value s) then None else Some x).

Definition del (s : t) (v : Z) : result (t * bool) :=
  x ← aread (store s) v;
  let is_del := negb (state_eqb compact x (empty_value s)) in
  st ← awrite (store s) v (empty_value s);
  Ok (mk (max_vpage_id s) (empty_value s) st, is_del).

(** The map the array stands for. *)
Definition entry_list (st : list page_state) : list (Z * page_state) :=
  zip (seqZ 0 (zlen st)) st.
Definition to_map (s : t) : gmap Z page_state :=
  list_to_map (filter (λ x, state_eqb compact x.2 empty_state = false) (entry_list (store s))).

Definition direct_inv (mv : Z) (s : t) : Prop :=
  max_vpage_id s = mv ∧ zlen (store s) = mv ∧ empty_value s = empty_state.

Lemma elem_entry_list st v x : (v, x) ∈ entry_list st ↔ zget st v = Some x.
Proof.
  unfold entry_list. rewrite list_elem_of_lookup. split.
  - intros [k Hk]. apply lookup_zip_with_Some in Hk as (i & y & Heq & Hi & Hy). simplify_eq.
    apply lookup_seqZ in Hi as [-> _]. rewrite Z.add_0_l, zget_nat. done.
  - intros Hg. pose proof (zget_range _ _ _ Hg). exists (Z.to_nat v).
    apply lookup_zip_with_Some. exists v, x. split_and!; [done| |].
    + apply lookup_seqZ. lia.
    + unfold zget in Hg. by rewrite decide_True in Hg by lia.
Qed.

Lemma entry_list_nodup st : NoDup (entry_list st).*1.
Proof.
  unfold entry_list. rewrite fst_zip; [apply NoDup_seqZ|].
  rewrite length_seqZ. unfold zlen. lia.
Qed.

Lemma to_map_lookup s v x : to_map s !! v = Some x ↔
  zget (store s) v = Some x ∧ state_eqb compact x empty_state = false.
Proof.
  unfold to_map. rewrite <- elem_of_list_to_map.
  - rewrite list_elem_of_filter, elem_entry_list. simpl. tauto.
  - pose proof (entry_list_nodup (store s)) as Hnd.
    eapply sublist_NoDup; [exact Hnd|]. apply fmap_sublist, sublist_filter.
Qed.

Lemma to_map_get s v x : zget (store s) v = Some x →
  to_map s !! v = if state_eqb compact x empty_state then None else Some x.
Proof.
  intros Hg. destruct (to_map s !! v) as [y|] eqn:E.
  - apply to_map_lookup in E as [Hg' He]. simplify_eq. by rewrite He.
  - destruct (state_eqb compact x empty_state) eqn:He; [done|].
    assert (to_map s !! v = Some x) by (by apply to_map_lookup). congruence.
Qed.

Lemma to_map_out s v : zget (store s) v = None → to_map s !! v = None.
Proof.
  intros Hg. destruct (to_map s !! v) as [y|] eqn:E; [|done].
  apply to_map_lookup in E as [Hg' _]. congruence.
Qed.

(** Writing an array element. *)
Lemma to_map_zset s v x : 0 ≤ v < zlen (store s) →
  to_map (mk (max_vpage_id s) (empty_value s) (zset (store s) v x)) =
    if state_eqb compact x empty_state then delete v (to_map s) else <[v := x]> (to_map s).
Proof.
  intros Hv. apply map_eq. intros w. destruct (decide (v = w)) as [<-|Hne].
  - rewrite (to_map_get _ v x) by (simpl; by apply zget_zset_eq).
    destruct (state_eqb compact x empty_state); [by rewrite lookup_delete_eq|by rewrite lookup_insert_eq].
  - assert (E : to_map (mk (max_vpage_id s) (empty_value s) (zset (store s) v x)) !! w = to_map s !! w).
    { destruct (zget (store s) w) as [y|] eqn:Hg.
      - rewrite (to_map_get _ w y), (to_map_get s w y); [done|done|]. simpl. by rewrite zget_zset_ne.
      - rewrite !to_map_out; [done|done|]. simpl. by rewrite zget_zset_ne. }
    rewrite E. destruct (state_eqb compact x empty_state);
      [by rewrite lookup_delete_ne|by rewrite lookup_insert_ne].
Qed.

#[global] Instance direct_page_table : PageTable t :=
  {| pt_init := init; pt_put := put; pt_get := get; pt_del := del |}.

#[global] Program Instance direct_spec : PageTableSpec compact t :=
  {| pt_map := to_map; pt_inv := direct_inv |}.
Next Obligation.
  intros mv mp Hmv. simpl. split.
  - split_and!; [done| |done]. simpl. rewrite zlen_replicate. lia.
  - apply map_empty. intros v. destruct (to_map (init mv mp) !! v) as [x|] eqn:E; [|done].
    apply to_map_lookup in E as [Hg He]. simpl in Hg. apply zget_replicate_inv in Hg as ->.
    by rewrite empty_eqb in He.
Qed.
Next Obligation.
  intros mv s v (_ & Hlen & He) Hv. simpl. unfold get.
  destruct (aread_total (store s) v) as (x & -> & Hx); [lia|]. simpl.
  by rewrite (to_map_get s v x), He.
Qed.
Next Obligation.
  intros mv s v x (Hm & Hlen & He) Hv Hwf Hex. simpl. unfold put.
  destruct (aread_total (store s) v) as (y & -> & Hy); [lia|]. simpl.
  rewrite awrite_total by lia. simpl. rewrite He. eexists. split; [|split].
  - rewrite (to_map_get s v y) by done. do 2 f_equal. by destruct (state_eqb compact y empty_state).
  - split_and!; [done| |done]. simpl. by rewrite zlen_zset.
  - rewrite <- He. rewrite to_map_zset by lia. by rewrite exist_not_empty.
Qed.
Next Obligation.
  intros mv s v (Hm & Hlen & He) Hv. simpl. unfold del.
  destruct (aread_total (store s) v) as (y & -> & Hy); [lia|]. simpl.
  rewrite awrite_total by lia. simpl. rewrite He. eexists. split; [|split].
  - rewrite (to_map_get s v y) by done. do 2 f_equal. by destruct (state_eqb compact y empty_state).
  - split_and!; [done| |done]. simpl. by rewrite zlen_zset.
  - rewrite <- He at 1. rewrite to_map_zset by lia. by rewrite empty_eqb.
Qed.
Next Obligation.
  intros mv s v x (_ & Hlen & _) [Hg _]%to_map_lookup. apply zget_range in Hg. lia.
Qed.
End direct.
End Direct.

(** ** [HashPageTable]

    [tsl::hopscotch_map] is a library: its type and operations are parameters,
    with its documented behaviour as the laws of [HopscotchMap]. *)
Class HopscotchMap (M : Type) := {
  hm_reserve : Z → M;
  hm_find : M → Z → option page_state;
  hm_assign : M → Z → page_state → M;
  hm_emplace_hint : M → Z → page_state → M;
  hm_erase : M → Z → M * Z;
}.

Class HopscotchMapSpec (M : Type) `{HopscotchMap M} := {
  hm_map : M → gmap Z page_state;
  hm_reserve_map n : hm_map (hm_reserve n) = ∅;
  hm_find_map m v : hm_find m v = hm_map m !! v;
  hm_assign_map m v s x : hm_map m !! v = Some x → hm_map (hm_assign m v s) = <[v := s]> (hm_map m);
  hm_emplace_map m v s : hm_map m !! v = None → hm_map (hm_emplace_hint m v s) = <[v := s]> (hm_map m);
  hm_erase_map m v : hm_map (hm_erase m v).1 = delete v (hm_map m);
  hm_erase_count m v : (hm_erase m v).2 = if decide (hm_map m !! v = None) then 0 else 1;
}.

Module Hash.
Section hash.
Context {M : Type} `{HopscotchMapSpec M}.

Record t := mk { max_vpage_id : Z; max_ppage_id : Z; store : M }.

Definition init (max_vpage max_ppage : Z) : t := mk max_vpage max_ppage (hm_reserve max_ppage).

Definition put (s : t) (v : Z) (x : page_state) : result (t * bool) :=
  match hm_find (store s) v with
  | Some _ => Ok (mk (max_vpage_id s) (max_ppage_id s) (hm_assign (store s) v x), false)
  | None => Ok (mk (max_vpage_id s) (max_ppage_id s) (hm_emplace_hint (store s) v x), true)
  end.

Definition get (s : t) (v : Z) : result (option page_state) := Ok (hm_find (store s) v).

Definition del (s : t) (v : Z) : result (t * bool) :=
  let r := hm_erase (store s) v in
  Ok (mk (max_vpage_id s) (max_ppage_id s) r.1, negb (r.2 =? 0)).

Definition hash_inv (mv : Z) (s : t) : Prop :=
  max_vpage_id s = mv ∧ ∀ v x, hm_map (store s) !! v = Some x → 0 ≤ v < mv.

#[global] Instance hash_page_table : PageTable t :=
  {| pt_init := init; pt_put := put; pt_get := get; pt_del := del |}.

#[global] Program Instance hash_spec compact : PageTableSpec compact t :=
  {| pt_map s := hm_map (store s); pt_inv := hash_inv |}.
Next Obligation.
  intros _ mv mp Hmv. simpl. rewrite hm_reserve_map. split; [|done].
  split; [done|]. simpl. intros v x. by rewrite hm_reserve_map, lookup_empty.
Qed.
Next Obligation. intros _ mv s v _ _. simpl. unfold get. by rewrite hm_find_map. Qed.
Next Obligation.
  intros _ mv s v x [Hm Hr] Hv _ _. simpl. unfold put. rewrite hm_find_map.
  destruct (hm_map (store s) !! v) as [y|] eqn:E; eexists; (split; [done|]); simpl.
  - rewrite (hm_assign_map _ _ _ y) by done. split; [|done]. split; [done|]. simpl.
    rewrite (hm_assign_map _ _ _ y) by done. intros w z [[-> _]|[_ ?]]%lookup_insert_Some; [done|]. by eapply Hr.
  - rewrite hm_emplace_map by done. split; [|done]. split; [done|]. simpl.
    rewrite hm_emplace_map by done. intros w z [[-> _]|[_ ?]]%lookup_insert_Some; [done|]. by eapply Hr.
Qed.
Next Obligation.
  intros _ mv s v [Hm Hr] Hv. simpl. unfold del. eexists. split; [|split]; simpl.
  - rewrite hm_erase_count. do 2 f_equal. by destruct (hm_map (store s) !! v).
  - split; [done|]. intros w z. simpl. rewrite hm_erase_map. intros [_ ?]%lookup_delete_Some. by eapply Hr.
  - simpl. by rewrite hm_erase_map.
Qed.
Next Obligation. intros _ mv s v x [_ Hr] Hl. by eapply Hr. Qed.
End hash.
Arguments t : clear implicits.
End Hash.

(** A hopscotch map can be a finite map. *)
#[export] Instance gmap_hopscotch : HopscotchMap (gmap Z page_state) := {|
  hm_reserve _ := ∅;
  hm_find m v := m !! v;
  hm_assign m v s := <[v := s]> m;
  hm_emplace_hint m v s := <[v := s]> m;
  hm_erase m v := (delete v m, if m !! v is Some _ then 1 else 0);
|}.

#[export] Program Instance gmap_hopscotch_spec : HopscotchMapSpec (gmap Z page_state) := {| hm_map m := m |}.
Solve All Obligations with try (intros; simpl; done).
Next Obligation. intros m v. simpl. by destruct (m !! v). Qed.

(** ** Sequences of calls *)
Inductive pt_call :=
  | CallPut (v : Z) (s : page_state)
  | CallGet (v : Z)
  | CallDel (v : Z).

Definition pt_call_ok (compact : bool) (mv : Z) (c : pt_call) : Prop :=
  match c with
  | CallPut v s => 0 ≤ v < mv ∧ state_wf compact s ∧ ps_exist s = true
  | CallGet v | CallDel v => 0 ≤ v < mv
  end.

Section calls.
Context {T : Type} `{PageTable T}.

Definition pt_run1 (t : T) (c : pt_call) : result (T * (bool + option page_state)) :=
  match c with
  | CallPut v s => '(t, b) ← pt_put t v s; Ok (t, inl b)
  | CallGet v => r ← pt_get t v; Ok (t, inr r)
  | CallDel v => '(t, b) ← pt_del t v; Ok (t, inl b)
  end.

Fixpoint pt_run (t : T) (cs : list pt_call) : result (list (bool + option page_state)) :=
  match cs with
  | [] => Ok []
  | c :: cs => '(t, r) ← pt_run1 t c; rs ← pt_run t cs; Ok (r :: rs)
  end.
End calls.

(** What a finite map answers. *)
Definition map_run1 (m : gmap Z page_state) (c : pt_call) : gmap Z page_state * (bool + option page_state) :=
  match c with
  | CallPut v s => (<[v := s]> m, inl (bool_decide (m !! v = None)))
  | CallGet v => (m, inr (m !! v))
  | CallDel v => (delete v m, inl (bool_decide (m !! v ≠ None)))
  end.

Fixpoint map_run (m : gmap Z page_state) (cs : list pt_call) : list (bool + option page_state) :=
  match cs with
  | [] => []
  | c :: cs => (map_run1 m c).2 :: map_run (map_run1 m c).1 cs
  end.

Lemma pt_run_map compact {T} `{PageTableSpec compact T} mv t cs :
  pt_inv mv t → Forall (pt_call_ok compact mv) cs → pt_run t cs = Ok (map_run (pt_map t) cs).
Proof.
  intros Hi Hcs. revert t Hi. induction Hcs as [|c cs Hc _ IH]; intros t Hi; [done|].
  destruct c as [v s|v|v]; simpl in Hc; simpl.
  - destruct Hc as (Hv & Hwf & He).
    destruct (pt_put_spec mv t v s Hi Hv Hwf He) as (t' & -> & Hi' & Hm). simpl.
    by rewrite (IH t' Hi'), Hm.
  - rewrite (pt_get_spec mv t v Hi Hc). simpl. by rewrite (IH t Hi).
  - destruct (pt_del_spec mv t v Hi Hc) as (t' & -> & Hi' & Hm). simpl.
    by rewrite (IH t' Hi'), Hm.
Qed.

(** C37: [DirectPageTable] and [HashPageTable] are interchangeable: from their
    constructors, every sequence of calls on pages below [max_vpage_id] gets the
    same answers from both, those of a finite map. *)
Theorem page_tables_agree compact {M} `{HopscotchMapSpec M} mv mp cs :
  0 ≤ mv → Forall (pt_call_ok compact mv) cs →
  @pt_run _ (Direct.direct_page_table compact) (Direct.init mv mp) cs = Ok (map_run ∅ cs) ∧
  pt_run (Hash.init (M:=M) mv mp) cs = Ok (map_run ∅ cs).
Proof.
  intros Hmv Hcs. split.
  - destruct (pt_init_spec (PageTableSpec:=Direct.direct_spec compact) mv mp Hmv) as [Hi Hm].
    pose proof (pt_run_map (H0:=Direct.direct_spec compact) compact mv _ cs Hi Hcs) as E.
    rewrite Hm in E. exact E.
  - destruct (pt_init_spec (PageTableSpec:=Hash.hash_spec (M:=M) compact) mv mp Hmv) as [Hi Hm].
    pose proof (pt_run_map (H0:=Hash.hash_spec (M:=M) compact) compact mv _ cs Hi Hcs) as E.
    rewrite Hm in E. exact E.
Qed.

Lemma page_tables_agree_witness :
  let cs := [CallPut 3 (mk_ps 1 true false false 1); CallGet 3; CallDel 3; CallGet 3] in
  @pt_run _ (Direct.direct_page_table true) (Direct.init 10 4) cs = Ok (map_run ∅ cs) ∧
  pt_run (Hash.init (M:=gmap Z page_state) 10 4) cs = Ok (map_run ∅ cs).
Proof.
  intros cs. apply (page_tables_agree (M:=gmap Z page_state) true 10 4 cs); [lia|].
  repeat (apply Forall_cons_2 || apply Forall_nil_2); simpl; [|lia..].
  split; [lia|]. split; [|done]. unfold state_wf. simpl. lia.
Defined.
