(* ===== verification/SingleThreadCache.v ===== *)
(** * The single-threaded cache

    [class SingleThreadCache] of [include/single_thread_cache.hpp]: the state
    machine that moves a page through [Begin], [Initing], [Evicting] and
    [Loading].  The class is a template in its page table, its replacement
    policy and the eviction and load functions; here they are the classes
    [PageTable] and [Replacement] and two functions on an outer world, which
    report whether the I/O they started is complete.  Several requests can be in
    flight: [process] returns whenever one has to wait and is called again with
    its context later. *)
From S2P Require Import Prelude Replacement PageTable.
From stdpp Require Import gmap.

Open Scope Z_scope.

Inductive request_kind := KPin | KUnPin.
Inductive phase := Begin | Initing | Evicting | Loading | End_.

#[export] Instance request_kind_eq_dec : EqDecision request_kind.
Proof. solve_decision. Defined.
#[export] Instance phase_eq_dec : EqDecision phase.
Proof. solve_decision. Defined.

Definition EMPTY_VPAGE_ID : Z := MAX64.
Definition EMPTY_PPAGE_ID : Z := MAX64.

Section cache.
Context (compact : bool).
Context {PT : Type} `{PageTable PT} {R : Type} `{Replacement R}.
Context {W EC ES : Type} (ec0 : EC) (es0 : ES).
Context (evict_func : W → EC → Z → Z → bool → ES → W * EC * ES * bool).
Context (load_func : W → EC → Z → Z → ES → W * EC * ES * bool).

(** ** State *)
Record state_type := mk_state { s_vpage_id : Z; s_external : ES }.

Record cache := mk_cache {
  max_vpage_id : Z;
  max_ppage_id : Z;
  page_table : PT;
  pinned_size : Z;
  cur_id : Z;
  recycle_pool : list Z;
  states : list state_type;
  replacement : R;
}.

(** [external_state] points at the external state of a physical page. *)
Record context := mk_context {
  c_type : request_kind;
  c_phase : phase;
  c_processing : bool;
  c_dirty : bool;
  c_is_write : bool;
  c_is_unpin : bool;
  c_vpage_id : Z;
  c_pre_vpage_id : Z;
  c_ppage_id : Z;
  c_prefetch_ppage_id : Z;
  c_page_table_state : option page_state;
  c_external_state : option Z;
  c_pre_external_state : option ES;
  c_external_context : EC;
}.

(** A request and the world it runs in. *)
Record sys := mk_sys { world : W; the_cache : cache }.

Definition with_page_table (c : cache) (x : PT) : cache :=
  mk_cache (max_vpage_id c) (max_ppage_id c) x (pinned_size c) (cur_id c) (recycle_pool c) (states c) (replacement c).
Definition with_pinned_size (c : cache) (x : Z) : cache :=
  mk_cache (max_vpage_id c) (max_ppage_id c) (page_table c) x (cur_id c) (recycle_pool c) (states c) (replacement c).
Definition with_cur_id (c : cache) (x : Z) : cache :=
  mk_cache (max_vpage_id c) (max_ppage_id c) (page_table c) (pinned_size c) x (recycle_pool c) (states c) (replacement c).
Definition with_recycle_pool (c : cache) (x : list Z) : cache :=
  mk_cache (max_vpage_id c) (max_ppage_id c) (page_table c) (pinned_size c) (cur_id c) x (states c) (replacement c).
Definition with_states (c : cache) (x : list state_type) : cache :=
  mk_cache (max_vpage_id c) (max_ppage_id c) (page_table c) (pinned_size c) (cur_id c) (recycle_pool c) x (replacement c).
Definition with_replacement (c : cache) (x : R) : cache :=
  mk_cache (max_vpage_id c) (max_ppage_id c) (page_table c) (pinned_size c) (cur_id c) (recycle_pool c) (states c) x.

Definition set_phase (x : context) (p : phase) : context :=
  mk_context (c_type x) p (c_processing x) (c_dirty x) (c_is_write x) (c_is_unpin x) (c_vpage_id x)
    (c_pre_vpage_id x) (c_ppage_id x) (c_prefetch_ppage_id x) (c_page_table_state x) (c_external_state x)
    (c_pre_external_state x) (c_external_context x).
Definition set_processing (x : context) (b : bool) : context :=
  mk_context (c_type x) (c_phase x) b (c_dirty x) (c_is_write x) (c_is_unpin x) (c_vpage_id x)
    (c_pre_vpage_id x) (c_ppage_id x) (c_prefetch_ppage_id x) (c_page_table_state x) (c_external_state x)
    (c_pre_external_state x) (c_external_context x).
Definition set_is_unpin (x : context) (b : bool) : context :=
  mk_context (c_type x) (c_phase x) (c_processing x) (c_dirty x) (c_is_write x) b (c_vpage_id x)
    (c_pre_vpage_id x) (c_ppage_id x) (c_prefetch_ppage_id x) (c_page_table_state x) (c_external_state x)
    (c_pre_external_state x) (c_external_context x).
Definition set_ctx_ppage (x : context) (p : Z) : context :=
  mk_context (c_type x) (c_phase x) (c_processing x) (c_dirty x) (c_is_write x) (c_is_unpin x) (c_vpage_id x)
    (c_pre_vpage_id x) p (c_prefetch_ppage_id x) (c_page_table_state x) (c_external_state x)
    (c_pre_external_state x) (c_external_context x).
Definition set_state (x : context) (s : option page_state) : context :=
  mk_context (c_type x) (c_phase x) (c_processing x) (c_dirty x) (c_is_write x) (c_is_unpin x) (c_vpage_id x)
    (c_pre_vpage_id x) (c_ppage_id x) (c_prefetch_ppage_id x) s (c_external_state x)
    (c_pre_external_state x) (c_external_context x).
Definition set_external_state (x : context) (s : option Z) : context :=
  mk_context (c_type x) (c_phase x) (c_processing x) (c_dirty x) (c_is_write x) (c_is_unpin x) (c_vpage_id x)
    (c_pre_vpage_id x) (c_ppage_id x) (c_prefetch_ppage_id x) (c_page_table_state x) s
    (c_pre_external_state x) (c_external_context x).
Definition set_pre_external_state (x : context) (s : option ES) : context :=
  mk_context (c_type x) (c_phase x) (c_processing x) (c_dirty x) (c_is_write x) (c_is_unpin x) (c_vpage_id x)
    (c_pre_vpage_id x) (c_ppage_id x) (c_prefetch_ppage_id x) (c_page_table_state x) (c_external_state x)
    s (c_external_context x).
Definition set_external_context (x : context) (e : EC) : context :=
  mk_context (c_type x) (c_phase x) (c_processing x) (c_dirty x) (c_is_write x) (c_is_unpin x) (c_vpage_id x)
    (c_pre_vpage_id x) (c_ppage_id x) (c_prefetch_ppage_id x) (c_page_table_state x) (c_external_state x)
    (c_pre_external_state x) e.

(** ** Small operations *)
Definition empty_frame : state_type := mk_state EMPTY_VPAGE_ID es0.

(** [SingleThreadCache(...)] *)
Definition init (max_vpage max_ppage : Z) : cache :=
  mk_cache max_vpage max_ppage (pt_init max_vpage max_ppage) 0 0 []
    (replicate (Z.to_nat max_ppage) empty_frame) (rep_init max_ppage).

Definition size (c : cache) : Z := w64 (cur_id c - zlen (recycle_pool c)).
Definition is_empty (c : cache) : bool := w64 (cur_id c + zlen (recycle_pool c)) =? max_ppage_id c.
Definition full (c : cache) : bool :=
  (max_ppage_id c <=? cur_id c) && (zlen (recycle_pool c) =? 0).
Definition full_pin (c : cache) : bool := max_ppage_id c <=? pinned_size c.
Definition num_pinned (c : cache) : Z := pinned_size c.

Definition alloc (c : cache) : result (cache * Z) :=
  _ ← assert (negb (full c));
  match vec_pop (recycle_pool c) with
  | Some (pool, id) => Ok (with_recycle_pool c pool, id)
  | None =>
      if cur_id c <? max_ppage_id c then Ok (with_cur_id c (w64 (cur_id c + 1)), cur_id c)
      else Ok (c, 0)
  end.

Definition free (c : cache) (ppage : Z) : cache := with_recycle_pool c (recycle_pool c ++ [ppage]).

Definition init_state (c : cache) (ppage : Z) : result cache :=
  st ← awrite (states c) ppage empty_frame; Ok (with_states c st).

(** [std::optional::value] *)
Definition value {A} (o : option A) : result A :=
  match o with Some a => Ok a | None => Err (Throw "bad_optional_access") end.

Definition put (c : cache) (v : Z) (s : page_state) : result cache :=
  '(t, _) ← pt_put (page_table c) v s; Ok (with_page_table c t).
Definition del (c : cache) (v : Z) : result cache :=
  '(t, _) ← pt_del (page_table c) v; Ok (with_page_table c t).

(** ** [process]

    One turn of the loop; the boolean says whether the loop goes on
    ([continue]) or [process] returns. *)
Definition turn := (sys * context * bool)%type.

(** The calls of the eviction and load functions on a physical page. *)
Definition call_evict (s : sys) (x : context) : result (sys * context) :=
  st ← aread (states (the_cache s)) (c_ppage_id x);
  let '(w, e, ext, done_) :=
    evict_func (world s) (c_external_context x) (c_pre_vpage_id x) (c_ppage_id x) (c_dirty x) (s_external st) in
  sts ← awrite (states (the_cache s)) (c_ppage_id x) (mk_state (s_vpage_id st) ext);
  Ok (mk_sys w (with_states (the_cache s) sts),
      set_processing (set_external_context x e) (negb done_)).

Definition call_load (s : sys) (x : context) : result (sys * context) :=
  match c_external_state x with
  | None => Err Undefined
  | Some p =>
      st ← aread (states (the_cache s)) p;
      let '(w, e, ext, done_) :=
        load_func (world s) (c_external_context x) (c_vpage_id x) (c_ppage_id x) (s_external st) in
      sts ← awrite (states (the_cache s)) p (mk_state (s_vpage_id st) ext);
      Ok (mk_sys w (with_states (the_cache s) sts),
          set_processing (set_external_context x e) (negb done_))
  end.

Definition begin_turn (s : sys) (x : context) : result turn :=
  st ← pt_get (page_table (the_cache s)) (c_vpage_id x);
  let x := set_state x st in
  match st with
  | Some ps =>
      if negb (ps_exist ps) then Ok (s, set_state (set_phase x Initing) None, true)
      else if ps_busy ps then Ok (s, x, false)
      else Ok (s, set_phase x Initing, true)
  | None => Ok (s, set_phase x Initing, true)
  end.

Definition unpin_turn (s : sys) (x : context) : result turn :=
  let c := the_cache s in
  match c_page_table_state x with
  | Some ps =>
      _ ← assert (ps_exist ps);
      st ← aread (states c) (ps_ppage_id ps);
      _ ← assert (s_vpage_id st =? c_vpage_id x);
      let ps := if c_is_write x then set_dirty ps true else ps in
      '(c, ps, flag) ←
        (if 0 <? ps_ref_count ps then
           let ps := set_ref compact ps (ps_ref_count ps - 1) in
           if ps_ref_count ps =? 0 then
             r ← rep_push (replacement c) (ps_ppage_id ps);
             Ok (with_replacement (with_pinned_size c (w64 (pinned_size c - 1))) r, ps, true)
           else Ok (c, ps, true)
         else Ok (c, ps, false));
      c ← put c (c_vpage_id x) ps;
      Ok (mk_sys (world s) c, set_phase (set_is_unpin (set_state x (Some ps)) flag) End_, false)
  | None => Ok (s, set_phase (set_is_unpin x false) End_, false)
  end.

(** A pin of a page that is resident. *)
Definition pin_hit_turn (s : sys) (x : context) (ps : page_state) : result turn :=
  let c := the_cache s in
  _ ← assert (ps_exist ps);
  st ← aread (states c) (ps_ppage_id ps);
  _ ← assert (s_vpage_id st =? c_vpage_id x);
  c ← (if ps_ref_count ps =? 0 then
         r ← rep_erase (replacement c) (ps_ppage_id ps);
         Ok (with_pinned_size (with_replacement c r) (w64 (pinned_size c + 1)))
       else Ok c);
  let ps := set_ref compact ps (ps_ref_count ps + 1) in
  c ← put c (c_vpage_id x) ps;
  let x := set_ctx_ppage (set_state x (Some ps)) (ps_ppage_id ps) in
  let x := set_pre_external_state (set_external_state x (Some (ps_ppage_id ps))) None in
  Ok (mk_sys (world s) c, set_phase x End_, false).

(** A pin of a page that is not: take a free physical page, or start evicting one. *)
Definition pin_miss_turn (s : sys) (x : context) : result turn :=
  let c := the_cache s in
  if full_pin c then Ok (s, set_phase (set_ctx_ppage x EMPTY_PPAGE_ID) End_, false)
  else
    let c := with_pinned_size c (w64 (pinned_size c + 1)) in
    if full c then
      '(r, (p, nxt)) ← rep_pop (replacement c);
      let c := with_replacement c r in
      st ← aread (states c) p;
      let pre := s_vpage_id st in
      pre_ps ← pt_get (page_table c) pre;
      pre_ps ← value pre_ps;
      c ← put c pre (set_busy pre_ps true);
      c ← put c (c_vpage_id x) (mk_ps (p mod 2 ^ ppage_width compact) true true false 0);
      let x := mk_context (c_type x) Evicting (c_processing x) (ps_dirty pre_ps) (c_is_write x) (c_is_unpin x)
                 (c_vpage_id x) pre p nxt (c_page_table_state x) (c_external_state x)
                 (Some (s_external st)) ec0 in
      '(s, x) ← call_evict (mk_sys (world s) c) x;
      Ok (s, x, negb (c_processing x))
    else
      '(c, p) ← alloc c;
      Ok (mk_sys (world s) c, set_processing (set_phase (set_ctx_ppage x p) Evicting) false, true).

Definition initing_turn (s : sys) (x : context) : result turn :=
  match c_type x with
  | KUnPin => unpin_turn s x
  | KPin =>
      match c_page_table_state x with
      | Some ps => pin_hit_turn s x ps
      | None => pin_miss_turn s x
      end
  end.

Definition evicting_turn (s : sys) (x : context) : result turn :=
  if c_processing x then
    '(s, x) ← call_evict s x;
    Ok (s, x, negb (c_processing x))
  else
    let c := the_cache s in
    c ← match c_pre_external_state x with Some _ => del c (c_pre_vpage_id x) | None => Ok c end;
    c ← init_state c (c_ppage_id x);
    let ps := mk_ps (c_ppage_id x mod 2 ^ ppage_width compact) true true false 0 in
    c ← put c (c_vpage_id x) ps;
    st ← aread (states c) (c_ppage_id x);
    sts ← awrite (states c) (c_ppage_id x) (mk_state (c_vpage_id x) (s_external st));
    let c := with_states c sts in
    let x := set_phase (set_state x (Some ps)) Loading in
    let x := set_external_context (set_external_state x (Some (c_ppage_id x))) ec0 in
    '(s, x) ← call_load (mk_sys (world s) c) x;
    Ok (s, x, negb (c_processing x)).

Definition loading_turn (s : sys) (x : context) : result turn :=
  if c_processing x then
    '(s, x) ← call_load s x;
    Ok (s, x, negb (c_processing x))
  else
    ps ← value (c_page_table_state x);
    let ps := set_busy (set_ref compact (set_dirty ps false) 1) false in
    c ← put (the_cache s) (c_vpage_id x) ps;
    let x := set_phase (set_state x (Some ps)) End_ in
    _ ← match c_pre_external_state x with
        | Some _ => _ ← aread (states c) (c_prefetch_ppage_id x); Ok tt
        | None => Ok tt
        end;
    Ok (mk_sys (world s) c, x, false).

(** A context in phase [End] has no case: the loop spins. *)
Definition one_turn (s : sys) (x : context) : result turn :=
  match c_phase x with
  | Begin => begin_turn s x
  | Initing => initing_turn s x
  | Evicting => evicting_turn s x
  | Loading => loading_turn s x
  | End_ => Ok (s, x, true)
  end.

Fixpoint process_fuel (fuel : nat) (s : sys) (x : context) : result (sys * context) :=
  match fuel with
  | O => Err OutOfFuel
  | S fuel' =>
      '(s, x, continue) ← one_turn s x;
      if (continue : bool) then process_fuel fuel' s x else Ok (s, x)
  end.

(** A request passes through four phases, and turns twice in [Evicting] or
    [Loading] when the I/O it waits for completes: five turns are enough. *)
Definition process : sys → context → result (sys * context) := process_fuel 5.

(** The fields a caller leaves uninitialised are arbitrary; [x0] has them. *)
Definition pin_context (x0 : context) (v : Z) : context :=
  mk_context KPin Begin (c_processing x0) (c_dirty x0) (c_is_write x0) (c_is_unpin x0) v (c_pre_vpage_id x0)
    (c_ppage_id x0) (c_prefetch_ppage_id x0) None (c_external_state x0) None (c_external_context x0).
Definition unpin_context (x0 : context) (v : Z) (is_write : bool) : context :=
  mk_context KUnPin Begin (c_processing x0) (c_dirty x0) is_write (c_is_unpin x0) v (c_pre_vpage_id x0)
    (c_ppage_id x0) (c_prefetch_ppage_id x0) None (c_external_state x0) None (c_external_context x0).

Definition pin (s : sys) (x0 : context) (v : Z) : result (sys * context) := process s (pin_context x0 v).
Definition unpin (s : sys) (x0 : context) (v : Z) (is_write : bool) : result (sys * context) :=
  process s (unpin_context x0 v is_write).

(** ** [flush] *)
Record flush_context := mk_flush {
  fl_ppage_id : Z;
  fl_pre_vpage_id : Z;
  fl_dirty : bool;
  fl_external_context : EC;
  fl_processing : bool;
}.

Definition flush_evict (s : sys) (f : flush_context) : result (sys * flush_context) :=
  st ← aread (states (the_cache s)) (fl_ppage_id f);
  let '(w, e, ext, done_) :=
    evict_func (world s) (fl_external_context f) (fl_pre_vpage_id f) (fl_ppage_id f) (fl_dirty f) (s_external st) in
  sts ← awrite (states (the_cache s)) (fl_ppage_id f) (mk_state (s_vpage_id st) ext);
  Ok (mk_sys w (with_states (the_cache s) sts),
      mk_flush (fl_ppage_id f) (fl_pre_vpage_id f) (fl_dirty f) e (negb done_)).

(** The first loop starts an eviction for every physical page that holds one. *)
Fixpoint flush_start (ids : list Z) (s : sys) (fs : list flush_context) : result (sys * list flush_context) :=
  match ids with
  | [] => Ok (s, fs)
  | i :: ids' =>
      let c := the_cache s in
      st ← aread (states c) i;
      if s_vpage_id st =? EMPTY_VPAGE_ID then flush_start ids' s fs
      else
        ps ← pt_get (page_table c) (s_vpage_id st);
        ps ← value ps;
        '(c, dirty) ←
          (if negb (ps_ref_count ps =? 0) then Ok (c, true)
           else '(r, _) ← rep_pop (replacement c); Ok (with_replacement c r, ps_dirty ps));
        '(s, f) ← flush_evict (mk_sys (world s) c) (mk_flush i (s_vpage_id st) dirty ec0 false);
        flush_start ids' s (fs ++ [f])
  end.

(** One round of the second loop, from index [i] on: it polls the evictions in
    progress; [min_processing] ends as the index of the last one polled. *)
Fixpoint flush_round (i : nat) (n : nat) (s : sys) (fs : list flush_context) (min_processing : Z) :
    result (sys * list flush_context * Z) :=
  match n with
  | O => Ok (s, fs, min_processing)
  | S n' =>
      match fs !! i with
      | None => Err Undefined
      | Some f =>
          if fl_processing f then
            '(s, f') ← flush_evict s f;
            flush_round (S i) n' s (<[i := f']> fs) (Z.of_nat i)
          else flush_round (S i) n' s fs min_processing
      end
  end.

Fixpoint flush_poll (rounds : nat) (start : Z) (s : sys) (fs : list flush_context) :
    result (sys * list flush_context) :=
  match rounds with
  | O => Err OutOfFuel
  | S rounds' =>
      let m := max_ppage_id (the_cache s) in
      '(s, fs, min_processing) ←
        flush_round (Z.to_nat start) (length fs - Z.to_nat start) s fs m;
      if min_processing =? m then Ok (s, fs) else flush_poll rounds' min_processing s fs
  end.

Fixpoint flush_free (fs : list flush_context) (c : cache) : result cache :=
  match fs with
  | [] => Ok c
  | f :: fs' =>
      c ← del c (fl_pre_vpage_id f);
      c ← init_state c (fl_ppage_id f);
      flush_free fs' (free c (fl_ppage_id f))
  end.

(** [rounds] bounds how often the evictions are polled. *)
Definition flush (rounds : nat) (s : sys) : result sys :=
  '(s, fs) ← flush_start (seqZ 0 (max_ppage_id (the_cache s))) s [];
  '(s, fs) ← flush_poll rounds 0 s fs;
  c ← flush_free fs (the_cache s);
  Ok (mk_sys (world s) c).
End cache.
Arguments cache : clear implicits.
Arguments context : clear implicits.
Arguments sys : clear implicits.
Arguments state_type : clear implicits.

(** ** The invariant

    A request in progress owns a physical page.  [FAlloc] has taken a free one
    and has not touched the page table yet, [FEvict] is moving [pre] out of it
    (writing it back when [d] says that it is dirty),
    [FLoad] is reading [v] into it. *)
Inductive flight :=
  | FAlloc (v p : Z)
  | FEvict (v pre p : Z) (d : bool)
  | FLoad (v p : Z).

Definition f_vpage (f : flight) : Z := match f with FAlloc v _ | FEvict v _ _ _ | FLoad v _ => v end.
Definition f_ppage (f : flight) : Z := match f with FAlloc _ p | FEvict _ _ p _ | FLoad _ p => p end.

(** The virtual pages whose entries the request holds busy. *)
Definition f_busy (f : flight) : list Z :=
  match f with FAlloc _ _ => [] | FEvict v pre _ _ => [v; pre] | FLoad v _ => [v] end.

(** The virtual page recorded for its physical page. *)
Definition f_frame (f : flight) : Z :=
  match f with FAlloc _ _ => EMPTY_VPAGE_ID | FEvict _ pre _ _ => pre | FLoad v _ => v end.

Definition idle (s : page_state) : bool := negb (ps_busy s) && (ps_ref_count s =? 0).
Definition is_pinned (s : page_state) : bool := negb (ps_busy s) && negb (ps_ref_count s =? 0).

Definition pin_count (m : gmap Z page_state) : Z :=
  Z.of_nat (base.size (filter (λ x, is_pinned x.2 = true) m)).

Lemma pin_count_delete m v s : m !! v = Some s →
  pin_count m = pin_count (delete v m) + Z.b2z (is_pinned s).
Proof.
  intros Hm. unfold pin_count. rewrite <- (insert_delete_id m v s Hm) at 1.
  rewrite map_filter_insert. case_decide as Hd; simpl in Hd.
  - rewrite Hd, map_size_insert_None; [simpl; lia|].
    apply map_lookup_filter_None. left. apply lookup_delete_eq.
  - destruct (is_pinned s); [done|]. rewrite delete_delete_eq. simpl. lia.
Qed.

Lemma pin_count_insert m v s :
  pin_count (<[v := s]> m) = pin_count (delete v m) + Z.b2z (is_pinned s).
Proof.
  rewrite (pin_count_delete (<[v := s]> m) v s) by apply lookup_insert_eq.
  by rewrite delete_insert_eq.
Qed.

Lemma pin_count_fresh m v : m !! v = None → pin_count (delete v m) = pin_count m.
Proof. intros Hm. by rewrite delete_id. Qed.

Lemma pin_count_list m :
  pin_count m = zlen (filter (λ x, is_pinned x.2 = true) (map_to_list m)).
Proof.
  unfold pin_count, zlen. f_equal. rewrite <- length_map_to_list.
  apply Permutation_length. apply NoDup_Permutation.
  - apply NoDup_map_to_list.
  - apply NoDup_filter, NoDup_map_to_list.
  - intros [k x]. rewrite list_elem_of_filter, !elem_of_map_to_list.
    rewrite map_lookup_filter_Some. tauto.
Qed.

Lemma pin_count_nonneg m : 0 ≤ pin_count m.
Proof. unfold pin_count. lia. Qed.

Lemma small_state_wf compact p e b d r : 0 ≤ p < 2 ^ 31 → 0 ≤ r ≤ 1 → state_wf compact (mk_ps p e b d r).
Proof. unfold state_wf, ppage_width, ref_width. destruct compact; simpl; lia. Qed.

Lemma ppage_small compact p : 0 ≤ p < 2 ^ 31 → p mod 2 ^ ppage_width compact = p.
Proof. intros. apply Z.mod_small. unfold ppage_width. destruct compact; lia. Qed.

Lemma one_ref_small compact : 1 mod 2 ^ ref_width compact = 1.
Proof. by destruct compact. Qed.

Section invariant.
Context (compact : bool).
Context {PT : Type} `{PageTableSpec compact PT} {R : Type} `{ReplacementSpec R}.
Context {W EC ES : Type} (ec0 : EC) (es0 : ES).
Abbreviation cache_t := (cache PT R ES).

Definition ptm (c : cache_t) : gmap Z page_state := pt_map (compact:=compact) (page_table c).

Definition frame_is (c : cache_t) (p u : Z) : Prop :=
  ∃ st, zget (states c) p = Some st ∧ s_vpage_id st = u.

(** The physical page is not handed out. *)
Definition is_free (c : cache_t) (p : Z) : Prop :=
  p ∈ recycle_pool c ∨ cur_id c ≤ p < max_ppage_id c.

Definition resident (c : cache_t) (v : Z) (s : page_state) : Prop :=
  ptm c !! v = Some s ∧ ps_busy s = false.

Record cache_inv (c : cache_t) (fl : list flight) : Prop := {
  ci_max : 0 < max_ppage_id c ≤ 2 ^ 31;
  ci_vmax : 0 ≤ max_vpage_id c < 2 ^ 64 - 1;
  ci_pt : pt_inv (compact:=compact) (max_vpage_id c) (page_table c);
  ci_rep : rep_inv (max_ppage_id c) (replacement c);
  ci_states : zlen (states c) = max_ppage_id c;
  ci_cur : 0 ≤ cur_id c ≤ max_ppage_id c;
  ci_pool_nodup : NoDup (recycle_pool c);
  ci_pool p : p ∈ recycle_pool c → 0 ≤ p < cur_id c;
  ci_entry v s : ptm c !! v = Some s →
    ps_exist s = true ∧ state_wf compact s ∧ 0 ≤ ps_ppage_id s < cur_id c;
  ci_resident v s : resident c v s →
    frame_is c (ps_ppage_id s) v ∧ (ps_ppage_id s ∉ recycle_pool c) ∧ (ps_ppage_id s ∉ (f_ppage <$> fl));
  ci_busy v s : ptm c !! v = Some s → ps_busy s = true → (∃ f, f ∈ fl ∧ v ∈ f_busy f);
  ci_flight f : f ∈ fl →
    0 ≤ f_ppage f < cur_id c ∧ (f_ppage f ∉ recycle_pool c) ∧ frame_is c (f_ppage f) (f_frame f) ∧
    0 ≤ f_vpage f < max_vpage_id c ∧
    (∀ u, u ∈ f_busy f → ∃ s, ptm c !! u = Some s ∧ ps_busy s = true ∧ ps_ppage_id s = f_ppage f);
  ci_flight_ppage : NoDup (f_ppage <$> fl);
  ci_flight_busy : NoDup (mjoin (f_busy <$> fl));
  ci_members p : p ∈ rep_members (replacement c) ↔
    ∃ v s, ptm c !! v = Some s ∧ idle s = true ∧ ps_ppage_id s = p;
  ci_pinned : pinned_size c = pin_count (ptm c) + zlen fl;
  ci_used p : 0 ≤ p < cur_id c →
    p ∈ recycle_pool c ∨ (∃ v s, resident c v s ∧ ps_ppage_id s = p) ∨ p ∈ (f_ppage <$> fl);
  ci_free p : is_free c p → frame_is c p EMPTY_VPAGE_ID;
}.

Lemma ptm_range c fl v s : cache_inv c fl → ptm c !! v = Some s → 0 ≤ v < max_vpage_id c.
Proof. intros Hi Hm. by eapply (pt_map_range (compact:=compact)); [apply Hi|]. Qed.

Lemma frame_is_fun c p u v : frame_is c p u → frame_is c p v → u = v.
Proof. intros (st & Hg & <-) (st' & Hg' & <-). by simplify_eq. Qed.

(** Two resident pages do not share a physical page. *)
Lemma resident_inj c fl v1 v2 s1 s2 : cache_inv c fl → resident c v1 s1 → resident c v2 s2 →
  ps_ppage_id s1 = ps_ppage_id s2 → v1 = v2.
Proof.
  intros Hi Hr1 Hr2 E. destruct (ci_resident _ _ Hi _ _ Hr1) as (F1 & _).
  destruct (ci_resident _ _ Hi _ _ Hr2) as (F2 & _). rewrite E in F1. by eapply frame_is_fun.
Qed.

Lemma idle_resident c v s : ptm c !! v = Some s → idle s = true → resident c v s ∧ ps_ref_count s = 0.
Proof.
  unfold idle. intros Hm Hd. apply andb_true_iff in Hd as [Hb Hr].
  apply negb_true_iff in Hb. apply Z.eqb_eq in Hr. done.
Qed.

Lemma not_pinned_idle s : ps_busy s = false → is_pinned s = negb (idle s).
Proof. unfold is_pinned, idle. intros ->. simpl. done. Qed.

(** The number of handed-out physical pages: each is resident and idle, or
    counted in [pinned_size]. *)
Lemma pop_candidate c fl : cache_inv c fl → full c = true → full_pin c = false →
  rep_members (replacement c) ≠ ∅.
Proof.
  intros Hi Hf Hp He. unfold full, full_pin in *. bool_to_prop.
  assert (Hpool : recycle_pool c = []) by (destruct (recycle_pool c); [done|unfold zlen in *; simpl in *; lia]).
  pose proof (ci_pinned _ _ Hi) as Hc. pose proof (ci_cur _ _ Hi) as Hcur.
  set (ks := filter (λ x, is_pinned x.2 = true) (map_to_list (ptm c))).
  assert (Hsub : seqZ 0 (max_ppage_id c) ⊆ ((λ x, ps_ppage_id x.2) <$> ks) ++ (f_ppage <$> fl)).
  { intros p Hin%elem_of_seqZ. apply elem_of_app.
    destruct (ci_used _ _ Hi p) as [Hin'|[(v & s & [Hm Hb] & <-)|?]]; [lia| | |by right].
    - rewrite Hpool in Hin'. by apply elem_of_nil in Hin'.
    - left. apply list_elem_of_fmap. exists (v, s). split; [done|].
      apply list_elem_of_filter. simpl. rewrite elem_of_map_to_list. split; [|done].
      rewrite not_pinned_idle by done. destruct (idle s) eqn:Hid; [|done].
      assert (ps_ppage_id s ∈ (∅ : gset Z)); [|set_solver].
      rewrite <- He. apply (ci_members _ _ Hi). by exists v, s. }
  pose proof (submseteq_length _ _ (NoDup_submseteq _ _ (NoDup_seqZ 0 (max_ppage_id c)) Hsub)) as Hlen.
  rewrite length_seqZ, length_app, !length_fmap in Hlen.
  rewrite pin_count_list in Hc. fold ks in Hc. unfold zlen in *. lia.
Qed.

(** A new cache: everything free. *)
Lemma init_cache_inv mv mp : 0 ≤ mv < 2 ^ 64 - 1 → 0 < mp ≤ 2 ^ 31 →
  cache_inv (init es0 mv mp) [].
Proof.
  intros Hmv Hmp. destruct (pt_init_spec (compact:=compact) mv mp) as [Hpt Hm]; [lia|].
  destruct (rep_init_spec mp) as [Hr Hmem]; [lia|].
  assert (Hptm : ptm (init es0 mv mp) = ∅) by done.
  split; try done; unfold resident; rewrite ?Hptm; simpl; try set_solver; try lia.
  - rewrite zlen_replicate. lia.
  - constructor.
  - constructor.
  - constructor.
  - intros p [Hp|Hp]; simpl in Hp; [by apply elem_of_nil in Hp|].
    exists (empty_frame es0). split; [|done]. simpl. apply zget_replicate. lia.
Qed.

Lemma flight_head_unique c f fl f' u : cache_inv c (f :: fl) → u ∈ f_busy f → f' ∈ fl → u ∉ f_busy f'.
Proof.
  intros Hi Hu Hf' Hu'. pose proof (ci_flight_busy _ _ Hi) as Hnd. simpl in Hnd.
  apply NoDup_app in Hnd as (_ & Hd & _). apply (Hd u Hu). apply list_elem_of_join.
  exists (f_busy f'). split; [done|]. by apply list_elem_of_fmap_2.
Qed.

(** ** What the turns do to the invariant *)

(** Changing external states only. *)
Definition same_frames (sts sts' : list (state_type ES)) : Prop :=
  zlen sts' = zlen sts ∧
  ∀ p st, zget sts p = Some st → ∃ st', zget sts' p = Some st' ∧ s_vpage_id st' = s_vpage_id st.

Lemma frame_is_same c sts p u : same_frames (states c) sts → frame_is c p u → frame_is (with_states c sts) p u.
Proof. intros [_ Hs] (st & Hg & <-). destruct (Hs p st Hg) as (st' & ? & ?). by exists st'. Qed.

Lemma states_inv c fl sts : cache_inv c fl → same_frames (states c) sts → cache_inv (with_states c sts) fl.
Proof.
  intros Hi Hs. destruct Hi. split; try done.
  - simpl. destruct Hs as [-> _]. done.
  - intros v s Hr. destruct (ci_resident0 v s Hr) as (?&?&?). split; [by apply frame_is_same|done].
  - intros f Hf. destruct (ci_flight0 f Hf) as (?&?&?&?). split; [done|]. split; [done|].
    split; [by apply frame_is_same|done].
  - intros p Hp. apply frame_is_same; [done|]. by apply ci_free0.
Qed.

Lemma same_frames_zset (c : cache_t) p st ext : zget (states c) p = Some st →
  same_frames (states c) (zset (states c) p (mk_state (s_vpage_id st) ext)).
Proof.
  intros Hg. split; [apply zlen_zset|]. intros q st' Hg'. rewrite zget_zset.
  case_decide as Hd; [|by exists st']. destruct Hd as [<- _]. simplify_eq. by eexists.
Qed.

(** Rewriting the entry of a resident page. *)
Record entry_change (c c' : cache_t) (v : Z) (s s' : page_state) : Prop := {
  ec_resident : resident c v s;
  ec_max_vpage : max_vpage_id c' = max_vpage_id c;
  ec_max_ppage : max_ppage_id c' = max_ppage_id c;
  ec_cur : cur_id c' = cur_id c;
  ec_pool : recycle_pool c' = recycle_pool c;
  ec_states : states c' = states c;
  ec_pt : pt_inv (compact:=compact) (max_vpage_id c) (page_table c');
  ec_map : ptm c' = <[v := s']> (ptm c);
  ec_rep : rep_inv (max_ppage_id c) (replacement c');
  ec_members : rep_members (replacement c') =
    if idle s' then {[ps_ppage_id s]} ∪ rep_members (replacement c)
    else rep_members (replacement c) ∖ {[ps_ppage_id s]};
  ec_pinned : pinned_size c' = pinned_size c - Z.b2z (is_pinned s) + Z.b2z (is_pinned s');
  ec_exist : ps_exist s' = true;
  ec_wf : state_wf compact s';
  ec_busy : ps_busy s' = false;
  ec_ppage : ps_ppage_id s' = ps_ppage_id s;
}.

Lemma entry_change_inv c c' fl v s s' : cache_inv c fl → entry_change c c' v s s' → cache_inv c' fl.
Proof.
  intros Hi Hc. pose proof (ec_map _ _ _ _ _ Hc) as Hm. pose proof (ec_resident _ _ _ _ _ Hc) as [Hv Hb].
  pose proof (ec_busy _ _ _ _ _ Hc) as Hb'. pose proof (ec_ppage _ _ _ _ _ Hc) as Hpp.
  assert (Hfr : ∀ p u, frame_is c' p u ↔ frame_is c p u).
  { intros p u. unfold frame_is. by rewrite (ec_states _ _ _ _ _ Hc). }
  assert (Hres : ∀ u x, resident c' u x → ∃ y, resident c u y ∧ ps_ppage_id y = ps_ppage_id x).
  { intros u x [Hx Hbx]. rewrite Hm in Hx. apply lookup_insert_Some in Hx as [[<- <-]|[_ Hx]].
    - exists s. split; [done|]. by rewrite Hpp. - by exists x. }
  destruct Hc. destruct Hi. split; rewrite ?ec_max_vpage0, ?ec_max_ppage0, ?ec_cur0, ?ec_pool0, ?ec_states0; try done.
  - intros u x. rewrite Hm. intros [[<- <-]|[_ Hx]]%lookup_insert_Some; [|by apply ci_entry0 with u].
    rewrite Hpp. split_and!; [done..| |]; by apply (ci_entry0 v s).
  - intros u x Hx. destruct (Hres u x Hx) as (y & Hy & <-).
    destruct (ci_resident0 u y Hy) as (?&?&?). split_and!; [by apply Hfr|done|done].
  - intros u x. rewrite Hm. intros [[<- <-]|[_ Hx]]%lookup_insert_Some; [congruence|by apply ci_busy0].
  - intros f Hf. destruct (ci_flight0 f Hf) as (?&?&?&?&Hbf). split; [done|]. split; [done|].
    split; [by apply Hfr|]. split; [done|].
    intros u Hu. destruct (Hbf u Hu) as (x & Hx & ? & ?). exists x. split; [|done].
    rewrite Hm, lookup_insert_ne; [done|]. intros ->. congruence.
  - intros p. rewrite ec_members0. destruct (idle s') eqn:Hid.
    + rewrite elem_of_union, elem_of_singleton, ci_members0. split.
      * intros [->|(u & x & Hx & Hix & Hpx)]; [exists v, s'; by rewrite Hm, lookup_insert_eq|].
        destruct (decide (u = v)) as [->|Hne]; [exists v, s'; rewrite Hm, lookup_insert_eq; split_and!; congruence|].
        exists u, x. by rewrite Hm, lookup_insert_ne.
      * intros (u & x & Hx & Hix & <-). rewrite Hm in Hx.
        apply lookup_insert_Some in Hx as [[<- <-]|[_ Hx]]; [by left|]. right. by exists u, x.
    + rewrite elem_of_difference, elem_of_singleton, ci_members0. split.
      * intros [(u & x & Hx & Hix & Hpx) Hne]. exists u, x. rewrite Hm, lookup_insert_ne; [done|].
        intros ->. congruence.
      * intros (u & x & Hx & Hix & <-). rewrite Hm in Hx.
        apply lookup_insert_Some in Hx as [[<- <-]|[Hne Hx]]; [congruence|]. split; [by exists u, x|].
        intros E. apply Hne. destruct (idle_resident _ _ _ Hx Hix) as [Hrx _].
        eapply (resident_inj c fl v u s x); [by split|done|done|done].
  - rewrite ec_pinned0, ci_pinned0, Hm, pin_count_insert, (pin_count_delete (ptm c) v s Hv). lia.
  - intros p Hp. destruct (ci_used0 p Hp) as [?|[(u & x & [Hx Hbx] & <-)|?]]; [by left| |by right; right].
    right. left. destruct (decide (u = v)) as [->|Hne].
    + exists v, s'. unfold resident. rewrite Hm, lookup_insert_eq. split_and!; congruence.
    + exists u, x. unfold resident. by rewrite Hm, lookup_insert_ne.
  - intros p Hp. apply Hfr, ci_free0. unfold is_free in *. by rewrite <- ec_pool0, <- ec_cur0, <- ec_max_ppage0.
Qed.
Definition busy_state (p : Z) : page_state := mk_ps p true true false 0.

Lemma busy_state_wf p : 0 ≤ p < 2 ^ 31 → state_wf compact (busy_state p).
Proof. intros. apply small_state_wf; lia. Qed.

Lemma set_busy_wf s b : state_wf compact s → state_wf compact (set_busy s b).
Proof. done. Qed.

Lemma frame_is_eq (c c' : cache_t) p u : states c' = states c → frame_is c' p u ↔ frame_is c p u.
Proof. intros E. unfold frame_is. by rewrite E. Qed.

Lemma flight_busy_pages c fl f u s : cache_inv c fl → f ∈ fl → u ∈ f_busy f → resident c u s → False.
Proof.
  intros Hi Hf Hu [Hm Hb]. destruct (ci_flight _ _ Hi f Hf) as (_&_&_&_&Hbf).
  destruct (Hbf u Hu) as (x & Hx & ? & _). congruence.
Qed.

Lemma busy_absent c fl u : cache_inv c fl → ptm c !! u = None → u ∉ mjoin (f_busy <$> fl).
Proof.
  intros Hi Hu Hin. apply list_elem_of_join in Hin as (bs & Hub & Hbs).
  apply list_elem_of_fmap in Hbs as (f & -> & Hf).
  destruct (ci_flight _ _ Hi f Hf) as (_&_&_&_&Hbf). destruct (Hbf u Hub) as (x & Hx & _). congruence.
Qed.

Lemma busy_resident c fl u s : cache_inv c fl → resident c u s → u ∉ mjoin (f_busy <$> fl).
Proof.
  intros Hi Hr Hin. apply list_elem_of_join in Hin as (bs & Hub & Hbs).
  apply list_elem_of_fmap in Hbs as (f & -> & Hf). by eapply flight_busy_pages.
Qed.

(** Eviction starts: [pre] was idle in [p]. *)
Lemma evict_start_inv c c' fl v pre p d s :
  cache_inv c fl → 0 ≤ v < max_vpage_id c → ptm c !! v = None →
  ptm c !! pre = Some s → idle s = true → ps_ppage_id s = p →
  max_vpage_id c' = max_vpage_id c → max_ppage_id c' = max_ppage_id c →
  cur_id c' = cur_id c → recycle_pool c' = recycle_pool c → states c' = states c →
  pt_inv (compact:=compact) (max_vpage_id c) (page_table c') →
  ptm c' = <[v := busy_state p]> (<[pre := set_busy s true]> (ptm c)) →
  rep_inv (max_ppage_id c) (replacement c') →
  rep_members (replacement c') = rep_members (replacement c) ∖ {[p]} →
  pinned_size c' = pinned_size c + 1 →
  cache_inv c' (FEvict v pre p d :: fl).
Proof.
  intros Hi Hv Hvn Hpre Hid Hp Emv Emp Ecur Epool Est Hpt Hm Hrep Hmem Hpin.
  destruct (idle_resident _ _ _ Hpre Hid) as [Hres Href].
  assert (Hne : v ≠ pre) by (intros ->; congruence).
  destruct (ci_entry _ _ Hi pre s Hpre) as (Hex & Hwf & Hpr). rewrite Hp in Hpr.
  destruct (ci_resident _ _ Hi pre s Hres) as (Hfr & Hnp & Hnf). rewrite Hp in *.
  assert (Hold : ∀ u x, resident c' u x → resident c u x ∧ u ≠ pre ∧ u ≠ v).
  { intros u x [Hx Hb]. rewrite Hm in Hx. apply lookup_insert_Some in Hx as [[<- <-]|[Hn1 Hx]]; [done|].
    apply lookup_insert_Some in Hx as [[<- <-]|[Hn2 Hx]]; [done|]. done. }
  assert (Hnew : ∀ u x, ptm c !! u = Some x → u ≠ pre → ptm c' !! u = Some x).
  { intros u x Hx Hn. rewrite Hm, !lookup_insert_ne; [done|done|]. intros ->. congruence. }
  assert (Hdisj : ∀ u x, resident c u x → u ≠ pre → ps_ppage_id x ≠ p).
  { intros u x Hx Hn E. apply Hn. apply (resident_inj c fl u pre x s); congruence. }
  pose proof (ci_max _ _ Hi). pose proof (ci_cur _ _ Hi).
  split; rewrite ?Emv, ?Emp, ?Ecur, ?Epool, ?Est; try apply Hi; try done.
  - intros u x. rewrite Hm. intros [[<- <-]|[_ Hx]]%lookup_insert_Some.
    { split; [done|]. split; [apply busy_state_wf; lia|done]. }
    apply lookup_insert_Some in Hx as [[<- <-]|[_ Hx]]; [|by apply (ci_entry _ _ Hi u)].
    simpl. by rewrite Hp.
  - intros u x Hx. apply Hold in Hx as (Hx & Hn & _). destruct (ci_resident _ _ Hi u x Hx) as (?&?&?).
    split; [by apply (frame_is_eq c c')|]. split; [done|]. simpl. intros [E|?]%elem_of_cons; [|done].
    by apply (Hdisj u x).
  - intros u x Hx Hb. rewrite Hm in Hx. apply lookup_insert_Some in Hx as [[<- <-]|[_ Hx]].
    { exists (FEvict v pre p d). split; [by apply elem_of_cons; left|]. simpl. set_solver. }
    apply lookup_insert_Some in Hx as [[<- <-]|[_ Hx]].
    { exists (FEvict v pre p d). split; [by apply elem_of_cons; left|]. simpl. set_solver. }
    destruct (ci_busy _ _ Hi u x Hx Hb) as (f & ? & ?). exists f. split; [by apply elem_of_cons; right|done].
  - intros f [->|Hf]%elem_of_cons.
    + simpl. split; [done|]. split; [done|]. split; [by apply (frame_is_eq c c')|]. split; [done|].
      intros u [->|[->|Hu]%elem_of_cons]%elem_of_cons; [| |by apply elem_of_nil in Hu].
      * exists (busy_state p). by rewrite Hm, lookup_insert_eq.
      * exists (set_busy s true). by rewrite Hm, lookup_insert_ne, lookup_insert_eq.
    + destruct (ci_flight _ _ Hi f Hf) as (?&?&?&?&Hbf). split; [done|]. split; [done|].
      split; [by apply (frame_is_eq c c')|]. split; [done|].
      intros u Hu. destruct (Hbf u Hu) as (x & Hx & ? & ?). exists x. split; [|done].
      apply Hnew; [done|]. intros ->. destruct Hres. congruence.
  - simpl. constructor; [done|apply Hi].
  - change (NoDup ([v; pre] ++ mjoin (f_busy <$> fl))). apply NoDup_app. split_and!; [| |apply Hi].
    + repeat constructor; set_solver.
    + intros u [->|[->|Hu]%elem_of_cons]%elem_of_cons; [by eapply busy_absent|by eapply busy_resident|by apply elem_of_nil in Hu].
  - intros q. rewrite Hmem, elem_of_difference, elem_of_singleton, (ci_members _ _ Hi). split.
    + intros [(u & x & Hx & Hix & Hq) Hqn]. exists u, x. split; [|done]. apply Hnew; [done|]. intros ->. congruence.
    + intros (u & x & Hx & Hix & Hq).
      destruct (Hold u x) as (Hr & Hn & _); [by apply idle_resident|].
      destruct Hr as [Hr0 Hb0]. split; [by exists u, x|]. intros ->. by apply (Hdisj u x).
  - rewrite Hpin, (ci_pinned _ _ Hi), Hm, pin_count_insert. unfold zlen. simpl.
    rewrite pin_count_fresh by (rewrite lookup_insert_ne by done; done).
    rewrite pin_count_insert, (pin_count_delete (ptm c) pre s Hpre).
    assert (is_pinned s = false) as -> by (rewrite not_pinned_idle by apply Hres; by rewrite Hid).
    simpl. lia.
  - intros q Hq. destruct (ci_used _ _ Hi q Hq) as [?|[(u & x & Hx & <-)|?]]; [by left| |].
    + right. destruct (decide (u = pre)) as [->|Hn].
      * right. simpl. destruct Hx as [Hx _]. apply elem_of_cons. left. congruence.
      * left. exists u, x. split; [|done]. destruct Hx. split; [by apply Hnew|done].
    + right. right. simpl. by apply elem_of_cons; right.
  - intros q Hq. apply (frame_is_eq c c'); [done|]. apply (ci_free _ _ Hi). unfold is_free in *.
    by rewrite <- Epool, <- Ecur, <- Emp.
Qed.
(** A free physical page is taken. *)
Lemma take_inv c c' fl v p : cache_inv c fl → 0 ≤ v < max_vpage_id c → is_free c p →
  max_vpage_id c' = max_vpage_id c → max_ppage_id c' = max_ppage_id c →
  page_table c' = page_table c → states c' = states c → replacement c' = replacement c →
  pinned_size c' = pinned_size c + 1 →
  cur_id c ≤ cur_id c' ≤ max_ppage_id c → 0 ≤ p < cur_id c' → NoDup (recycle_pool c') →
  (∀ q, q ∈ recycle_pool c' ↔ q ∈ recycle_pool c ∧ q ≠ p) →
  (∀ q, 0 ≤ q < cur_id c' → q = p ∨ 0 ≤ q < cur_id c) →
  cache_inv c' (FAlloc v p :: fl).
Proof.
  intros Hi Hv Hfree Emv Emp Ept Est Erep Hpin Hcur Hp Hnd Hpool Hused.
  assert (Hm : ptm c' = ptm c) by (unfold ptm; by rewrite Ept).
  assert (Hpn : ∀ q, q ∉ recycle_pool c → 0 ≤ q < cur_id c → q ≠ p).
  { intros q Hq Hqc ->. destruct Hfree; [done|lia]. }
  assert (Hfr := ci_free _ _ Hi p Hfree).
  pose proof (ci_max _ _ Hi). pose proof (ci_cur _ _ Hi).
  split; rewrite ?Emv, ?Emp, ?Ept, ?Est, ?Erep, ?Hm; try apply Hi; try done; try lia.
  - intros q [Hq _]%Hpool. pose proof (ci_pool _ _ Hi q Hq). lia.
  - intros u x Hx. destruct (ci_entry _ _ Hi u x Hx) as (?&?&?). split; [done|]. split; [done|lia].
  - intros u x [Hx Hb]. rewrite Hm in Hx. destruct (ci_resident _ _ Hi u x (conj Hx Hb)) as (?&?&?).
    destruct (ci_entry _ _ Hi u x Hx) as (_&_&?).
    split; [by apply (frame_is_eq c c')|]. split; [rewrite Hpool; tauto|]. simpl.
    intros [E|?]%elem_of_cons; [|done]. by apply (Hpn (ps_ppage_id x)).
  - intros u x Hx Hb. destruct (ci_busy _ _ Hi u x Hx Hb) as (f & ? & ?).
    exists f. split; [by apply elem_of_cons; right|done].
  - intros f [->|Hf]%elem_of_cons.
    + simpl. split; [done|]. split; [rewrite Hpool; tauto|]. split; [by apply (frame_is_eq c c')|].
      split; [done|]. intros u Hu. by apply elem_of_nil in Hu.
    + destruct (ci_flight _ _ Hi f Hf) as (?&?&?&?&Hbf). split; [lia|]. split; [rewrite Hpool; tauto|].
      split; [by apply (frame_is_eq c c')|]. split; [done|]. done.
  - simpl. constructor; [|apply Hi]. intros (f & -> & Hf)%list_elem_of_fmap.
    destruct (ci_flight _ _ Hi f Hf) as (?&?&_). by apply (Hpn (f_ppage f)).
  - rewrite Hpin, (ci_pinned _ _ Hi). unfold zlen. simpl. lia.
  - intros q Hq. destruct (decide (q = p)) as [->|Hne]; [right; right; simpl; by apply elem_of_cons; left|].
    destruct (Hused q Hq) as [?|Hq']; [done|].
    destruct (ci_used _ _ Hi q Hq') as [?|[(u & x & [Hx Hb] & <-)|?]]; [left; by apply Hpool| |].
    + right. left. exists u, x. split; [|done]. split; [by rewrite Hm|done].
    + right. right. simpl. by apply elem_of_cons; right.
  - intros q Hq. apply (frame_is_eq c c'); [done|]. apply (ci_free _ _ Hi). destruct Hq as [Hq|Hq].
    + left. by apply Hpool.
    + right. rewrite Emp in Hq. lia.
Qed.

Lemma alloc_inv c fl v : cache_inv c fl → 0 ≤ v < max_vpage_id c → full c = false →
  full_pin c = false →
  ∃ c' p, alloc (with_pinned_size c (w64 (pinned_size c + 1))) = Ok (c', p) ∧
    cache_inv c' (FAlloc v p :: fl) ∧ page_table c' = page_table c ∧ states c' = states c ∧
    max_vpage_id c' = max_vpage_id c ∧ max_ppage_id c' = max_ppage_id c.
Proof.
  intros Hi Hv Hf Hfp. unfold full_pin in Hfp. apply Z.leb_gt in Hfp.
  pose proof (ci_max _ _ Hi). pose proof (ci_cur _ _ Hi).
  assert (0 ≤ pinned_size c).
  { rewrite (ci_pinned _ _ Hi). pose proof (pin_count_nonneg (ptm c)). unfold zlen. lia. }
  rewrite w64_small by lia. unfold alloc.
  change (full (with_pinned_size c (pinned_size c + 1))) with (full c). rewrite Hf. simpl.
  destruct (vec_pop (recycle_pool c)) as [[pool p]|] eqn:Hpop.
  - apply vec_pop_Some in Hpop. pose proof (ci_pool_nodup _ _ Hi) as Hnd. rewrite Hpop in Hnd.
    apply NoDup_app in Hnd as (Hnd & Hd & _).
    assert (Hin : p ∈ recycle_pool c) by (rewrite Hpop; set_solver).
    pose proof (ci_pool _ _ Hi p Hin).
    eexists _, p. split; [done|]. split; [|done].
    apply (take_inv c); try done; simpl; try lia; try (by left).
    intros q. rewrite Hpop, elem_of_app, list_elem_of_singleton. split; [|tauto].
    intros Hq. split; [by left|]. intros ->. apply (Hd p Hq). set_solver.
  - apply vec_pop_None in Hpop. unfold full in Hf. rewrite Hpop in Hf. rewrite andb_true_r in Hf.
    apply Z.leb_gt in Hf. rewrite (proj2 (Z.ltb_lt _ _)) by lia. rewrite w64_small by lia.
    eexists _, _. split; [done|]. split; [|done].
    apply (take_inv c); try done; simpl; try lia; try (right; lia).
    + rewrite Hpop. constructor.
    + rewrite Hpop. set_solver.
Qed.

(** The page table after the eviction: the old page is gone. *)
Definition evicted_map (f : flight) (m : gmap Z page_state) : gmap Z page_state :=
  match f with FEvict _ pre _ _ => delete pre m | _ => m end.

(** The eviction is complete and the load starts. *)
Lemma load_start_inv c c' fl f : cache_inv c (f :: fl) →
  match f with FAlloc v _ => ptm c !! v = None | FEvict _ _ _ _ => True | FLoad _ _ => False end →
  max_vpage_id c' = max_vpage_id c → max_ppage_id c' = max_ppage_id c →
  cur_id c' = cur_id c → recycle_pool c' = recycle_pool c → replacement c' = replacement c →
  pinned_size c' = pinned_size c →
  pt_inv (compact:=compact) (max_vpage_id c) (page_table c') →
  ptm c' = <[f_vpage f := busy_state (f_ppage f)]> (evicted_map f (ptm c)) →
  zlen (states c') = zlen (states c) →
  frame_is c' (f_ppage f) (f_vpage f) →
  (∀ q u, q ≠ f_ppage f → frame_is c q u → frame_is c' q u) →
  cache_inv c' (FLoad (f_vpage f) (f_ppage f) :: fl).
Proof.
  intros Hi Hf Emv Emp Ecur Epool Erep Hpin Hpt Hm Hlen Hframe Hothers.
  set (v := f_vpage f) in *. set (p := f_ppage f) in *.
  assert (Hfin : f ∈ f :: fl) by (by apply elem_of_cons; left).
  destruct (ci_flight _ _ Hi f Hfin) as (Hp & Hnp & Hfr & Hv & Hbf). fold p in Hp, Hnp, Hfr. fold v in Hv.
  pose proof (ci_flight_ppage _ _ Hi) as Hndp. simpl in Hndp. apply NoDup_cons in Hndp as [Hpfl Hndp].
  pose proof (ci_flight_busy _ _ Hi) as Hndb. simpl in Hndb. apply NoDup_app in Hndb as (Hnd1 & Hdb & Hnd2).
  pose proof (ci_max _ _ Hi). pose proof (ci_cur _ _ Hi).
  (* the entries of the new map *)
  assert (Hvb : v ∈ f_busy f ∨ ptm c !! v = None).
  { destruct f; simpl in *; [by right|left; set_solver|done]. }
  assert (Hnew : ∀ u x, ptm c' !! u = Some x → u = v ∧ x = busy_state p ∨ (u ∉ f_busy f) ∧ u ≠ v ∧ ptm c !! u = Some x).
  { intros u x Hx. rewrite Hm in Hx. apply lookup_insert_Some in Hx as [[<- <-]|[Hne Hx]]; [by left|]. right.
    destruct f as [v0 p0|v0 pre p0 d0|v0 p0]; simpl in *; [split_and!; [set_solver|done..]| |done].
    apply lookup_delete_Some in Hx as [? ?]. split_and!; [set_solver|done..]. }
  assert (Hkeep : ∀ u x, u ∉ f_busy f → ptm c !! u = Some x → ptm c' !! u = Some x).
  { intros u x Hu Hx. rewrite Hm. destruct (decide (u = v)) as [->|Hne]; [destruct Hvb; [done|congruence]|].
    rewrite lookup_insert_ne by done. destruct f as [v0 p0|v0 pre p0 d0|v0 p0]; simpl in *; [done| |done].
    rewrite lookup_delete_ne; [done|]. set_solver. }
  assert (Hrb : ∀ u x, resident c u x → u ∉ f_busy f).
  { intros u x Hr Hu. by eapply flight_busy_pages. }
  split; rewrite ?Emv, ?Emp, ?Ecur, ?Epool, ?Erep; try apply Hi; try done.
  - by rewrite Hlen, (ci_states _ _ Hi).
  - intros u x Hx. apply Hnew in Hx as [[-> ->]|(_ & _ & Hx)]; [|by apply (ci_entry _ _ Hi u)].
    split; [done|]. split; [apply busy_state_wf; lia|done].
  - intros u x [Hx Hb]. apply Hnew in Hx as [[-> ->]|(Hu & _ & Hx)]; [done|].
    destruct (ci_resident _ _ Hi u x (conj Hx Hb)) as (?&?&Hn). simpl in Hn.
    split; [|done]. apply Hothers; [|done]. set_solver.
  - intros u x Hx Hb. apply Hnew in Hx as [[-> ->]|(Hu & _ & Hx)].
    + exists (FLoad v p). split; [by apply elem_of_cons; left|]. simpl. set_solver.
    + destruct (ci_busy _ _ Hi u x Hx Hb) as (g & [->|Hg]%elem_of_cons & Hgu); [done|].
      exists g. split; [by apply elem_of_cons; right|done].
  - intros g [->|Hg]%elem_of_cons.
    + simpl. split; [done|]. split; [done|]. split; [done|]. split; [done|].
      intros u [->|Hu]%elem_of_cons; [|by apply elem_of_nil in Hu].
      exists (busy_state p). by rewrite Hm, lookup_insert_eq.
    + assert (Hg' : g ∈ f :: fl) by (by apply elem_of_cons; right).
      destruct (ci_flight _ _ Hi g Hg') as (?&?&?&?&Hbg). split; [done|]. split; [done|]. split.
      { apply Hothers; [|done]. intros E. apply Hpfl. fold p. rewrite <- E. by apply list_elem_of_fmap_2. }
      split; [done|]. intros u Hu. destruct (Hbg u Hu) as (x & Hx & ?). exists x. split; [|done].
      apply Hkeep; [|done]. intros Huf. by eapply (flight_head_unique c f fl g u).
  - change (NoDup ([v] ++ mjoin (f_busy <$> fl))). apply NoDup_app. split_and!; [apply NoDup_singleton| |done].
    intros u ->%list_elem_of_singleton. destruct Hvb as [Hvb|Hvn]; [by apply Hdb|].
    intros Hin. apply (busy_absent _ _ v Hi Hvn). simpl. apply elem_of_app. by right.
  - intros q. rewrite (ci_members _ _ Hi). split; intros (u & x & Hx & Hix & <-).
    + exists u, x. split; [|done]. apply Hkeep; [|done]. apply (Hrb u x). by apply idle_resident.
    + apply Hnew in Hx as [[-> ->]|(Hu & _ & Hx)]; [done|]. by exists u, x.
  - rewrite Hpin, (ci_pinned _ _ Hi), Hm, pin_count_insert. unfold zlen. simpl.
    assert (Hpc : pin_count (delete v (evicted_map f (ptm c))) = pin_count (ptm c)); [|lia].
    assert (Hbz : ∀ u, u ∈ f_busy f → ∀ m, m !! u = ptm c !! u → pin_count (delete u m) = pin_count m).
    { intros u Hu m Hmu. destruct (Hbf u Hu) as (x & Hx & Hbx & _).
      rewrite (pin_count_delete m u x) by congruence. unfold is_pinned. rewrite Hbx. simpl. lia. }
    destruct f as [v0 p0|v0 pre p0 d0|v0 p0]; simpl in *; [by rewrite delete_id| |done].
    apply NoDup_cons in Hnd1 as [Hvp _].
    rewrite Hbz; [apply Hbz; set_solver|set_solver|]. rewrite lookup_delete_ne; [done|set_solver].
  - intros q Hq. destruct (ci_used _ _ Hi q Hq) as [?|[(u & x & Hx & <-)|Hqf]]; [by left| |by right; right].
    right. left. exists u, x. split; [|done]. destruct Hx as [Hx Hb]. split; [|done].
    apply Hkeep; [|done]. by apply (Hrb u x).
  - intros q Hq. apply Hothers.
    + intros ->. destruct Hq as [Hq|Hq]; rewrite ?Epool, ?Ecur, ?Emp in Hq; [done|lia].
    + apply (ci_free _ _ Hi). unfold is_free in *. by rewrite <- Epool, <- Ecur, <- Emp.
Qed.
(** The load is complete: the page is resident with one pin. *)
Lemma load_end_inv c c' fl v p : cache_inv c (FLoad v p :: fl) →
  max_vpage_id c' = max_vpage_id c → max_ppage_id c' = max_ppage_id c →
  cur_id c' = cur_id c → recycle_pool c' = recycle_pool c → replacement c' = replacement c →
  pinned_size c' = pinned_size c → states c' = states c →
  pt_inv (compact:=compact) (max_vpage_id c) (page_table c') →
  ptm c' = <[v := mk_ps p true false false 1]> (ptm c) →
  cache_inv c' fl.
Proof.
  intros Hi Emv Emp Ecur Epool Erep Hpin Est Hpt Hm.
  assert (Hfin : FLoad v p ∈ FLoad v p :: fl) by (by apply elem_of_cons; left).
  destruct (ci_flight _ _ Hi _ Hfin) as (Hp & Hnp & Hfr & Hv & Hbf). simpl in Hp, Hnp, Hfr, Hv, Hbf.
  destruct (Hbf v) as (s & Hs & Hsb & Hsp); [set_solver|].
  pose proof (ci_flight_ppage _ _ Hi) as Hndp. simpl in Hndp. apply NoDup_cons in Hndp as [Hpfl Hndp].
  pose proof (ci_flight_busy _ _ Hi) as Hndb.
  change (NoDup ([v] ++ mjoin (f_busy <$> fl))) in Hndb. apply NoDup_app in Hndb as (_ & Hdb & Hnd2).
  pose proof (ci_max _ _ Hi). pose proof (ci_cur _ _ Hi).
  assert (Hnew : ∀ u x, ptm c' !! u = Some x →
    u = v ∧ x = mk_ps p true false false 1 ∨ u ≠ v ∧ ptm c !! u = Some x).
  { intros u x Hx. rewrite Hm in Hx. apply lookup_insert_Some in Hx as [[<- <-]|[Hne Hx]]; [by left|].
    right. by split. }
  assert (Hkeep : ∀ u x, u ≠ v → ptm c !! u = Some x → ptm c' !! u = Some x).
  { intros u x Hu Hx. by rewrite Hm, lookup_insert_ne. }
  split; rewrite ?Emv, ?Emp, ?Ecur, ?Epool, ?Erep, ?Est; try apply Hi; try done.
  - intros u x Hx. apply Hnew in Hx as [[-> ->]|(_ & Hx)]; [|by apply (ci_entry _ _ Hi u)].
    split; [done|]. split; [apply small_state_wf; lia|done].
  - intros u x [Hx Hb]. apply Hnew in Hx as [[-> ->]|(Hu & Hx)].
    + split; [by apply (frame_is_eq c c')|]. done.
    + destruct (ci_resident _ _ Hi u x (conj Hx Hb)) as (?&?&Hn). simpl in Hn.
      split; [by apply (frame_is_eq c c')|]. split; [done|]. set_solver.
  - intros u x Hx Hb. apply Hnew in Hx as [[-> ->]|(Hu & Hx)]; [done|].
    destruct (ci_busy _ _ Hi u x Hx Hb) as (g & [->|Hg]%elem_of_cons & Hgu); [|by exists g].
    simpl in Hgu. by apply list_elem_of_singleton in Hgu.
  - intros g Hg. assert (Hg' : g ∈ FLoad v p :: fl) by (by apply elem_of_cons; right).
    destruct (ci_flight _ _ Hi g Hg') as (?&?&?&?&Hbg). split; [done|]. split; [done|].
    split; [by apply (frame_is_eq c c')|]. split; [done|].
    intros u Hu. destruct (Hbg u Hu) as (x & Hx & ?). exists x. split; [|done].
    apply Hkeep; [|done]. intros ->. apply (Hdb v); [set_solver|]. apply list_elem_of_join.
    exists (f_busy g). split; [done|]. by apply list_elem_of_fmap_2.
  - intros q. rewrite (ci_members _ _ Hi). split; intros (u & x & Hx & Hix & <-).
    + exists u, x. split; [|done]. apply Hkeep; [|done]. intros ->.
      destruct (idle_resident _ _ _ Hx Hix) as [[_ ?] _]. congruence.
    + apply Hnew in Hx as [[-> ->]|(Hu & Hx)]; [done|]. by exists u, x.
  - rewrite Hpin, (ci_pinned _ _ Hi), Hm, pin_count_insert, (pin_count_delete (ptm c) v s Hs).
    unfold zlen, is_pinned. rewrite Hsb. simpl. lia.
  - intros q Hq. destruct (ci_used _ _ Hi q Hq) as [?|[(u & x & Hx & <-)|Hqf]]; [by left| |].
    + right. left. exists u, x. split; [|done]. destruct Hx as [Hx Hb]. split; [|done].
      apply Hkeep; [|done]. intros ->. congruence.
    + simpl in Hqf. apply elem_of_cons in Hqf as [->|?]; [|by right; right].
      right. left. exists v, (mk_ps p true false false 1). split; [|done]. split; [|done].
      by rewrite Hm, lookup_insert_eq.
  - intros q Hq. apply (frame_is_eq c c'); [done|]. apply (ci_free _ _ Hi). unfold is_free in *.
    by rewrite <- Epool, <- Ecur, <- Emp.
Qed.

(** ** Calls on the parts *)
Lemma put_ok c fl v s : cache_inv c fl → 0 ≤ v < max_vpage_id c → state_wf compact s → ps_exist s = true →
  ∃ t, put c v s = Ok (with_page_table c t) ∧ pt_inv (compact:=compact) (max_vpage_id c) t ∧
    pt_map (compact:=compact) t = <[v := s]> (ptm c).
Proof.
  intros Hi Hv Hwf He. destruct (pt_put_spec (compact:=compact) _ _ v s (ci_pt _ _ Hi) Hv Hwf He) as (t & Ht & ? & ?).
  exists t. unfold put. by rewrite Ht.
Qed.

Lemma pt_put_ok t mv v s : pt_inv (compact:=compact) mv t → 0 ≤ v < mv → state_wf compact s → ps_exist s = true →
  ∃ t', pt_put t v s = Ok (t', bool_decide (pt_map (compact:=compact) t !! v = None)) ∧
    pt_inv (compact:=compact) mv t' ∧ pt_map (compact:=compact) t' = <[v := s]> (pt_map (compact:=compact) t).
Proof. intros. by apply pt_put_spec. Qed.

Lemma put_eq (c : cache_t) t b v s : pt_put (page_table c) v s = Ok (t, b) → put c v s = Ok (with_page_table c t).
Proof. intros E. unfold put. by rewrite E. Qed.

Lemma frame_read c fl p u : cache_inv c fl → frame_is c p u →
  ∃ ext, aread (states c) p = Ok (mk_state u ext) ∧ zget (states c) p = Some (mk_state u ext).
Proof.
  intros _ ([u' ext] & Hg & <-). exists ext. split; [by apply aread_Ok|done].
Qed.
End invariant.
