(* ===== verification/SingleThreadCacheSpec.v ===== *)
(** * What the single-threaded cache promises

    The promise of [SingleThreadCache.v] to its users, for every interleaving of
    requests in progress: no assertion fails, nothing reads out of range, every
    call of [process] returns, a physical page is never used twice, and the
    frame a pin hands out holds the current contents of its page, whatever was
    evicted and loaded in between.  The I/O functions are parameters with the
    laws of [IoSpec], which allow transfers to run in the background. *)
From S2P Require Import Prelude Replacement PageTable SingleThreadCache.
From stdpp Require Import gmap.

Open Scope Z_scope.

(** ** The laws of the I/O functions

    [frame_of] and [disk_of] are the contents of a physical page and of the
    backing store of a virtual page.  [loading] are the physical pages that a
    transfer may be writing in the background, [writing] the virtual pages whose
    backing store may be. *)
Class IoSpec {W EC ES : Type} (D : Type)
    (evict_func : W → EC → Z → Z → bool → ES → W * EC * ES * bool)
    (load_func : W → EC → Z → Z → ES → W * EC * ES * bool) := {
  frame_of : W → Z → D;
  disk_of : W → Z → D;
  loading : W → gset Z;
  writing : W → gset Z;
  evict_law w e v p d ext w' e' ext' b :
    evict_func w e v p d ext = (w', e', ext', b) → p ∉ loading w →
    loading w' ⊆ loading w ∧
    (∀ q, q ∉ loading w → frame_of w' q = frame_of w q) ∧
    (∀ u, u ≠ v → u ∉ writing w → disk_of w' u = disk_of w u) ∧
    writing w' ⊆ (if d && negb b then {[v]} ∪ writing w else writing w ∖ {[v]}) ∧
    (if d then b = true → disk_of w' v = frame_of w p
     else v ∉ writing w → disk_of w' v = disk_of w v);
  load_law w e v p ext w' e' ext' b :
    load_func w e v p ext = (w', e', ext', b) → v ∉ writing w →
    writing w' ⊆ writing w ∧
    (∀ u, u ∉ writing w → disk_of w' u = disk_of w u) ∧
    (∀ q, q ≠ p → q ∉ loading w → frame_of w' q = frame_of w q) ∧
    loading w' ⊆ (if b then loading w ∖ {[p]} else {[p]} ∪ loading w) ∧
    (b = true → frame_of w' p = disk_of w v);
}.

Section spec.
Context (compact : bool).
Context {PT : Type} `{PageTableSpec compact PT} {R : Type} `{ReplacementSpec R}.
Context {W EC ES D : Type} (ec0 : EC) (es0 : ES).
Context (evict_func : W → EC → Z → Z → bool → ES → W * EC * ES * bool).
Context (load_func : W → EC → Z → Z → ES → W * EC * ES * bool).
Context `{!IoSpec D evict_func load_func}.

Abbreviation cache_t := (cache PT R ES).
Abbreviation sys_t := (sys PT R W ES).
Abbreviation ctx := (context EC ES).
Abbreviation pmap c := (ptm compact c).

(** [mem] is the memory the users see and [wc v] the number of users that hold
    a pin of [v] and have written, or may still write, to it. *)
Record data_inv (mem : Z → D) (wc : Z → Z) (w : W) (c : cache_t) (fl : list flight) : Prop := {
  di_resident v s : resident compact c v s →
    frame_of w (ps_ppage_id s) = mem v ∧ (ps_ppage_id s ∉ loading w);
  di_clean v s : resident compact c v s → ps_dirty s = false → wc v = 0 → disk_of w v = mem v;
  di_wc v s : resident compact c v s → 0 ≤ wc v ≤ ps_ref_count s;
  di_wc_out v : (∀ s, ¬ resident compact c v s) → wc v = 0;
  di_absent v : 0 ≤ v < max_vpage_id c → pmap c !! v = None → disk_of w v = mem v;
  di_load v p : FLoad v p ∈ fl → disk_of w v = mem v;
  di_evict v pre p d : FEvict v pre p d ∈ fl → disk_of w v = mem v ∧ (p ∉ loading w) ∧
    if d then frame_of w p = mem pre else disk_of w pre = mem pre;
  di_writing u : u ∈ writing w → ∃ v p, FEvict v u p true ∈ fl;
  di_loading q : q ∈ loading w → ∃ v, FLoad v q ∈ fl;
}.

Definition inv (mem : Z → D) (wc : Z → Z) (s : sys_t) (fl : list flight) : Prop :=
  cache_inv compact (the_cache s) fl ∧ data_inv mem wc (world s) (the_cache s) fl.

(** *** Facts about the requests in progress *)
Lemma mjoin_nodup_in (fl : list flight) f : NoDup (mjoin (f_busy <$> fl)) → f ∈ fl → NoDup (f_busy f).
Proof.
  induction fl as [|g fl IH]; [by intros _ ?%elem_of_nil|].
  intros (Hg & _ & Hr)%NoDup_app [->|Hf]%elem_of_cons; [done|by apply IH].
Qed.

Lemma mjoin_nodup_unique (fl : list flight) f g u : NoDup (mjoin (f_busy <$> fl)) →
  f ∈ fl → g ∈ fl → u ∈ f_busy f → u ∈ f_busy g → f = g.
Proof.
  assert (Hin : ∀ (l : list flight) h, h ∈ l → u ∈ f_busy h → u ∈ mjoin (f_busy <$> l)).
  { intros l h Hh Hu. apply list_elem_of_join. exists (f_busy h). split; [done|]. by apply list_elem_of_fmap_2. }
  induction fl as [|h fl IH]; [by intros _ ?%elem_of_nil|].
  intros (Hh & Hd & Hr)%NoDup_app [->|Hf]%elem_of_cons [->|Hg]%elem_of_cons Huf Hug.
  - done.
  - destruct (Hd u Huf). by apply (Hin fl g).
  - destruct (Hd u Hug). by apply (Hin fl f).
  - by apply IH.
Qed.

Section facts.
Context (mem : Z → D) (wc : Z → Z) (w : W) (c : cache_t) (fl : list flight).
Context (Hi : cache_inv compact c fl) (Hd : data_inv mem wc w c fl).

Lemma writing_busy u : u ∈ writing w → ∃ s, pmap c !! u = Some s ∧ ps_busy s = true.
Proof.
  intros Hu. destruct (di_writing _ _ _ _ _ Hd u Hu) as (v & p & Hf).
  destruct (ci_flight _ _ _ Hi _ Hf) as (_&_&_&_&Hb).
  destruct (Hb u) as (s' & Hs' & ? & _); [simpl; set_solver|]. by exists s'.
Qed.

Lemma resident_not_writing v s : resident compact c v s → v ∉ writing w.
Proof. intros [Hs Hb] (s' & Hs' & Hb')%writing_busy. congruence. Qed.

Lemma absent_not_writing v : pmap c !! v = None → v ∉ writing w.
Proof. intros Hn (s' & Hs' & _)%writing_busy. congruence. Qed.

Lemma target_not_writing f : f ∈ fl → f_busy f ≠ [] → f_vpage f ∉ writing w.
Proof.
  intros Hf Hne Hu'. destruct (di_writing _ _ _ _ _ Hd _ Hu') as (v' & p & Hf').
  assert (Hu : f_vpage f ∈ f_busy f) by (destruct f; simpl in *; set_solver).
  pose proof (ci_flight_busy _ _ _ Hi) as Hnd.
  assert (f = FEvict v' (f_vpage f) p true) as E.
  { apply (mjoin_nodup_unique fl _ _ (f_vpage f)); try done. simpl. set_solver. }
  pose proof (mjoin_nodup_in fl f Hnd Hf) as Hndf. destruct f as [|v0 pre p0 d0|]; simplify_eq/=.
  apply NoDup_cons in Hndf as [Hv _]. set_solver.
Qed.

(** The page written back by a clean eviction is not being written. *)
Lemma clean_not_writing v pre p : FEvict v pre p false ∈ fl → pre ∉ writing w.
Proof.
  intros Hf Hu. destruct (di_writing _ _ _ _ _ Hd _ Hu) as (v' & p' & Hf').
  pose proof (mjoin_nodup_unique fl _ _ pre (ci_flight_busy _ _ _ Hi) Hf Hf') as Hun.
  specialize (Hun ltac:(simpl; set_solver) ltac:(simpl; set_solver)). done.
Qed.

Lemma flights_disjoint f g : f ∈ fl → g ∈ fl → f_ppage f = f_ppage g → f = g.
Proof.
  pose proof (ci_flight_ppage _ _ _ Hi) as Hnd. revert Hnd. clear.
  induction fl as [|h l IH]; [by intros _ ?%elem_of_nil|]. simpl.
  intros [Hh Hnd]%NoDup_cons [->|Hf]%elem_of_cons [->|Hg]%elem_of_cons E.
  - done.
  - destruct Hh. rewrite E. by apply list_elem_of_fmap_2.
  - destruct Hh. rewrite <- E. by apply list_elem_of_fmap_2.
  - by apply IH.
Qed.

Lemma resident_flight v s f : resident compact c v s → f ∈ fl → ps_ppage_id s ≠ f_ppage f.
Proof.
  intros Hr Hf E. destruct (ci_resident _ _ _ Hi v s Hr) as (_ & _ & Hn). apply Hn. rewrite E.
  by apply list_elem_of_fmap_2.
Qed.
End facts.

(** External states do not matter to the data. *)
Lemma data_inv_states mem wc w c fl sts : data_inv mem wc w c fl → data_inv mem wc w (with_states c sts) fl.
Proof. intros []. by split. Qed.

(** *** One call of the eviction function *)
Lemma call_evict_ok mem wc s fl x v :
  inv mem wc s fl → FEvict v (c_pre_vpage_id x) (c_ppage_id x) (c_dirty x) ∈ fl →
  ∃ w' sts e' b, call_evict evict_func s x =
      Ok (mk_sys w' (with_states (the_cache s) sts), set_processing (set_external_context x e') b) ∧
    inv mem wc (mk_sys w' (with_states (the_cache s) sts)) fl ∧
    (b = false → disk_of w' (c_pre_vpage_id x) = mem (c_pre_vpage_id x) ∧
       (c_pre_vpage_id x ∉ writing w')).
Proof.
  intros [Hi Hd] Hf. set (pre := c_pre_vpage_id x) in *. set (p := c_ppage_id x) in *.
  set (w := world s). set (c := the_cache s) in *.
  destruct (ci_flight _ _ _ Hi _ Hf) as (Hp & _ & Hfr & _ & Hb).
  destruct Hfr as ([u ext] & Hg & Hu). simpl in Hu, Hg. subst u.
  destruct (di_evict _ _ _ _ _ Hd _ _ _ _ Hf) as (Hdv & Hpl & Hdata).
  unfold call_evict. fold p c. rewrite (proj2 (aread_Ok _ _ _) Hg). cbn [mbind result_bind s_external s_vpage_id].
  fold pre w.
  destruct (evict_func w (c_external_context x) pre p (c_dirty x) ext) as [[[w' e'] ext'] b] eqn:Hev.
  rewrite awrite_total by (by eapply zget_range). cbn [mbind result_bind].
  destruct (evict_law _ _ _ _ _ _ _ _ _ _ Hev Hpl) as (Hl & Hfm & Hdk & Hw & Hown).
  eexists w', _, e', (negb b). split; [done|].
  assert (Hsf : same_frames (states c) (zset (states c) p (mk_state pre ext'))).
  { by apply (same_frames_zset c p (mk_state pre ext)). }
  assert (Hfin : b = true → disk_of w' pre = mem pre ∧ (pre ∉ writing w')).
  { intros ->. rewrite andb_false_r in Hw. split; [|set_solver].
    destruct (c_dirty x) eqn:Ed; [by rewrite Hown|]. rewrite Hown; [done|].
    by apply (clean_not_writing mem wc w c fl Hi Hd v pre p). }
  split; [|intros Hb'; apply Hfin; by destruct b].
  split; [by apply states_inv|]. simpl. apply data_inv_states.
  assert (Hnp : ∀ u r, resident compact c u r → u ≠ pre).
  { intros u r [Hr1 Hr2] ->. destruct (Hb pre) as (y & Hy & ? & _); [simpl; set_solver|]. congruence. }
  split.
  - intros u r Hr. destruct (di_resident _ _ _ _ _ Hd u r Hr) as [Hm Hn].
    split; [by rewrite Hfm|set_solver].
  - intros u r Hr Hdr Hwc. rewrite Hdk; [by eapply (di_clean _ _ _ _ _ Hd)|by eapply Hnp|].
    by eapply (resident_not_writing mem wc w c fl).
  - apply Hd. - apply Hd.
  - intros u Hu Hn. rewrite Hdk; [by apply (di_absent _ _ _ _ _ Hd)| |by eapply (absent_not_writing mem wc w c fl)].
    intros ->. destruct (Hb pre) as (y & Hy & _); [simpl; set_solver|congruence].
  - intros u q Hq. rewrite Hdk; [by eapply (di_load _ _ _ _ _ Hd)| |].
    + intros ->. pose proof (mjoin_nodup_unique fl _ _ pre (ci_flight_busy _ _ _ Hi) Hf Hq) as Hun.
      specialize (Hun ltac:(simpl; set_solver) ltac:(simpl; set_solver)). done.
    + by apply (target_not_writing mem wc w c fl Hi Hd (FLoad u q)).
  - intros u pre2 p2 d2 Hf2. destruct (di_evict _ _ _ _ _ Hd _ _ _ _ Hf2) as (Hdu & Hp2 & Hdata3).
    split; [|split].
    + rewrite Hdk; [done| |by apply (target_not_writing mem wc w c fl Hi Hd (FEvict u pre2 p2 d2))].
      intros ->. pose proof (mjoin_nodup_unique fl _ _ pre (ci_flight_busy _ _ _ Hi) Hf Hf2) as Hun.
      specialize (Hun ltac:(simpl; set_solver) ltac:(simpl; set_solver)). simplify_eq.
      pose proof (mjoin_nodup_in fl _ (ci_flight_busy _ _ _ Hi) Hf) as Hnd2. simpl in Hnd2.
      apply NoDup_cons in Hnd2 as [Hnd2 _]. set_solver.
    + set_solver.
    + destruct d2; [by rewrite Hfm|].
      pose proof (clean_not_writing mem wc w c fl Hi Hd u pre2 p2 Hf2) as Hnw.
      destruct (decide (pre2 = pre)) as [->|Hne]; [|by rewrite Hdk].
      pose proof (mjoin_nodup_unique fl _ _ pre (ci_flight_busy _ _ _ Hi) Hf Hf2) as Hun.
      specialize (Hun ltac:(simpl; set_solver) ltac:(simpl; set_solver)). injection Hun as _ _ Ed.
      rewrite Ed in Hown. by rewrite Hown.
  - intros u Hu. apply Hw in Hu. destruct (c_dirty x && negb b) eqn:Edb.
    + apply elem_of_union in Hu as [->%elem_of_singleton|Hu]; [|by apply (di_writing _ _ _ _ _ Hd)].
      exists v, p. destruct (c_dirty x); [done|discriminate Edb].
    + apply (di_writing _ _ _ _ _ Hd). set_solver.
  - intros q Hq. apply (di_loading _ _ _ _ _ Hd). set_solver.
Qed.
(** *** One call of the load function *)
Lemma call_load_ok mem wc s fl x :
  inv mem wc s fl → FLoad (c_vpage_id x) (c_ppage_id x) ∈ fl → c_external_state x = Some (c_ppage_id x) →
  ∃ w' sts e' b, call_load load_func s x =
      Ok (mk_sys w' (with_states (the_cache s) sts), set_processing (set_external_context x e') b) ∧
    inv mem wc (mk_sys w' (with_states (the_cache s) sts)) fl ∧
    (b = false → frame_of w' (c_ppage_id x) = mem (c_vpage_id x) ∧ (c_ppage_id x ∉ loading w')).
Proof.
  intros [Hi Hd] Hf Hx. set (v := c_vpage_id x) in *. set (p := c_ppage_id x) in *.
  set (w := world s). set (c := the_cache s) in *.
  destruct (ci_flight _ _ _ Hi _ Hf) as (Hp & _ & Hfr & _ & Hb).
  destruct Hfr as ([u ext] & Hg & Hu). simpl in Hu, Hg. subst u.
  pose proof (di_load _ _ _ _ _ Hd _ _ Hf) as Hdv.
  pose proof (target_not_writing mem wc w c fl Hi Hd _ Hf ltac:(done)) as Hvw. simpl in Hvw.
  unfold call_load. rewrite Hx. fold c. rewrite (proj2 (aread_Ok _ _ _) Hg).
  cbn [mbind result_bind s_external s_vpage_id]. fold p v w.
  destruct (load_func w (c_external_context x) v p ext) as [[[w' e'] ext'] b] eqn:Hev.
  rewrite awrite_total by (by eapply zget_range). cbn [mbind result_bind].
  destruct (load_law _ _ _ _ _ _ _ _ _ Hev Hvw) as (Hw & Hdk & Hfm & Hl & Hown).
  eexists w', _, e', (negb b). split; [done|].
  assert (Hsf : same_frames (states c) (zset (states c) p (mk_state v ext'))).
  { by apply (same_frames_zset c p (mk_state v ext)). }
  assert (Hother : ∀ g, g ∈ fl → g ≠ FLoad v p → f_ppage g ≠ p).
  { intros g Hgf Hne E. apply Hne. by apply (flights_disjoint c fl Hi). }
  assert (Hll : ∀ q, q ≠ p → q ∉ loading w → q ∉ loading w').
  { intros q Hq Hn Hin. apply Hl in Hin. destruct b; set_solver. }
  split.
  2: { intros Hb'. destruct b; [|done]. rewrite Hown by done. split; [done|]. set_solver. }
  split; [by apply states_inv|]. simpl. apply data_inv_states.
  split.
  - intros u r Hr. destruct (di_resident _ _ _ _ _ Hd u r Hr) as [Hm Hn].
    pose proof (resident_flight c fl Hi u r _ Hr Hf) as Hne. simpl in Hne.
    split; [by rewrite Hfm|by apply Hll].
  - intros u r Hr Hdr Hwc. rewrite Hdk; [by eapply (di_clean _ _ _ _ _ Hd)|].
    by eapply (resident_not_writing mem wc w c fl).
  - apply Hd. - apply Hd.
  - intros u Hu Hn. rewrite Hdk; [by apply (di_absent _ _ _ _ _ Hd)|by eapply (absent_not_writing mem wc w c fl)].
  - intros u q Hq. rewrite Hdk; [by eapply (di_load _ _ _ _ _ Hd)|].
    by apply (target_not_writing mem wc w c fl Hi Hd (FLoad u q)).
  - intros u pre p2 d2 Hf2. destruct (di_evict _ _ _ _ _ Hd _ _ _ _ Hf2) as (Hdu & Hp2 & Hdata3).
    assert (Hne : p2 ≠ p) by (by apply (Hother (FEvict u pre p2 d2))).
    split; [rewrite Hdk; [done|by apply (target_not_writing mem wc w c fl Hi Hd (FEvict u pre p2 d2))]|].
    split; [by apply Hll|]. destruct d2; [by rewrite Hfm|]. rewrite Hdk; [done|].
    by apply (clean_not_writing mem wc w c fl Hi Hd u pre p2).
  - intros u Hu. apply (di_writing _ _ _ _ _ Hd). by apply Hw.
  - intros q Hq. apply Hl in Hq. destruct b.
    + apply (di_loading _ _ _ _ _ Hd). set_solver.
    + apply elem_of_union in Hq as [->%elem_of_singleton|Hq]; [by exists v|by apply (di_loading _ _ _ _ _ Hd)].
Qed.

(** *** The data across the changes of the tables *)
Lemma same_max_range (c c' : cache_t) v : max_vpage_id c' = max_vpage_id c →
  0 ≤ v < max_vpage_id c' → 0 ≤ v < max_vpage_id c.
Proof. intros ->. done. Qed.

(** The entry of a resident page is rewritten; the last pin is only given up
    when the page is dirty or nobody has written. *)
Lemma entry_change_data mem wc wc' w c c' fl v s s' :
  cache_inv compact c fl → data_inv mem wc w c fl → entry_change compact c c' v s s' →
  (∀ u, u ≠ v → wc' u = wc u) → 0 ≤ wc' v ≤ ps_ref_count s' →
  (ps_dirty s' = false → wc' v = 0 → disk_of w v = mem v) →
  data_inv mem wc' w c' fl.
Proof.
  intros Hi Hd Hc Hwo Hwc Hclean.
  pose proof (ec_map _ _ _ _ _ _ Hc) as Hm. pose proof (ec_resident _ _ _ _ _ _ Hc) as Hres.
  pose proof (ec_busy _ _ _ _ _ _ Hc) as Hb'. pose proof (ec_ppage _ _ _ _ _ _ Hc) as Hpp.
  assert (Hr : ∀ u x, resident compact c' u x → u = v ∧ x = s' ∨ u ≠ v ∧ resident compact c u x).
  { intros u x [Hx Hb]. rewrite Hm in Hx. apply lookup_insert_Some in Hx as [[<- <-]|[? Hx]]; [by left|by right]. }
  assert (Hk : ∀ u x, u ≠ v → pmap c !! u = Some x → pmap c' !! u = Some x).
  { intros u x Hu Hx. by rewrite Hm, lookup_insert_ne. }
  split.
  - intros u x [[-> ->]|[_ Hx]]%Hr; [rewrite Hpp; by eapply di_resident|by eapply di_resident].
  - intros u x [[-> ->]|[Hu Hx]]%Hr; [done|]. rewrite Hwo by done. by eapply di_clean.
  - intros u x [[-> ->]|[Hu Hx]]%Hr; [done|]. rewrite Hwo by done. by eapply di_wc.
  - intros u Hu. assert (u ≠ v).
    { intros ->. apply (Hu s'). split; [by rewrite Hm, lookup_insert_eq|done]. }
    rewrite Hwo by done. apply (di_wc_out _ _ _ _ _ Hd). intros x [Hx Hb]. apply (Hu x). split; [by apply Hk|done].
  - intros u Hu Hn. apply (di_absent _ _ _ _ _ Hd); [by rewrite <- (ec_max_vpage _ _ _ _ _ _ Hc)|].
    rewrite Hm in Hn. by apply lookup_insert_None in Hn as [? _].
  - apply Hd.
  - apply Hd.
  - apply Hd.
  - apply Hd.
Qed.

Lemma evict_start_data mem wc w c c' fl v pre p d s :
  cache_inv compact c fl → data_inv mem wc w c fl → 0 ≤ v < max_vpage_id c → pmap c !! v = None →
  pmap c !! pre = Some s → idle s = true → ps_ppage_id s = p → ps_dirty s = d →
  max_vpage_id c' = max_vpage_id c →
  pmap c' = <[v := busy_state p]> (<[pre := set_busy s true]> (pmap c)) →
  data_inv mem wc w c' (FEvict v pre p d :: fl).
Proof.
  intros Hi Hd Hv Hvn Hpre Hid Hp Hdirty Emv Hm.
  destruct (idle_resident _ _ _ _ Hpre Hid) as [Hres Href].
  assert (Hne : v ≠ pre) by (intros ->; congruence).
  pose proof (di_wc _ _ _ _ _ Hd pre s Hres) as Hwc. rewrite Href in Hwc.
  destruct (di_resident _ _ _ _ _ Hd pre s Hres) as [Hfrm Hnl]. rewrite Hp in *.
  assert (Hr : ∀ u x, resident compact c' u x → resident compact c u x).
  { intros u x [Hx Hb]. rewrite Hm in Hx. apply lookup_insert_Some in Hx as [[<- <-]|[_ Hx]]; [done|].
    apply lookup_insert_Some in Hx as [[<- <-]|[_ Hx]]; done. }
  assert (Hk : ∀ u x, u ≠ pre → pmap c !! u = Some x → pmap c' !! u = Some x).
  { intros u x Hu Hx. rewrite Hm, !lookup_insert_ne; [done|done|]. intros ->. congruence. }
  split.
  - intros u x Hx%Hr. by eapply di_resident.
  - intros u x Hx%Hr. by eapply di_clean.
  - intros u x Hx%Hr. by eapply di_wc.
  - intros u Hu. destruct (decide (u = pre)) as [->|Hup]; [lia|].
    apply (di_wc_out _ _ _ _ _ Hd). intros x [Hx Hb]. apply (Hu x). split; [by apply Hk|done].
  - intros u Hu Hn. rewrite Emv in Hu. apply (di_absent _ _ _ _ _ Hd); [done|].
    rewrite Hm in Hn. apply lookup_insert_None in Hn as [Hn _]. by apply lookup_insert_None in Hn as [? _].
  - intros u q Hq. apply elem_of_cons in Hq as [?|Hq]; [done|]. by eapply di_load.
  - intros u pre2 p2 d2 [E|Hf]%elem_of_cons; [|by apply (di_evict _ _ _ _ _ Hd) in Hf].
    injection E as -> -> -> ->. split; [by apply (di_absent _ _ _ _ _ Hd)|]. split; [done|].
    destruct d eqn:Eds; [done|]. eapply (di_clean _ _ _ _ _ Hd); [done|done|lia].
  - intros u Hu. destruct (di_writing _ _ _ _ _ Hd u Hu) as (v2 & p2 & Hf).
    exists v2, p2. by apply elem_of_cons; right.
  - intros q Hq. destruct (di_loading _ _ _ _ _ Hd q Hq) as [u ?]. exists u. by apply elem_of_cons; right.
Qed.

Lemma take_data mem wc w c c' fl v p : data_inv mem wc w c fl → page_table c' = page_table c →
  max_vpage_id c' = max_vpage_id c → data_inv mem wc w c' (FAlloc v p :: fl).
Proof.
  intros Hd Ept Emv. assert (Hm : pmap c' = pmap c) by (unfold SingleThreadCache.ptm; by rewrite Ept).
  assert (Hr : ∀ u x, resident compact c' u x ↔ resident compact c u x) by (intros; unfold resident; by rewrite Hm).
  split.
  - intros u x Hx%Hr. by eapply di_resident.
  - intros u x Hx%Hr. by eapply di_clean.
  - intros u x Hx%Hr. by eapply di_wc.
  - intros u Hu. apply (di_wc_out _ _ _ _ _ Hd). intros x Hx. by apply (Hu x), Hr.
  - intros u. rewrite Emv, Hm. apply Hd.
  - intros u q [?|Hq]%elem_of_cons; [done|]. by eapply di_load.
  - intros u pre2 p2 d2 [?|Hf]%elem_of_cons; [done|]. by apply (di_evict _ _ _ _ _ Hd) in Hf.
  - intros u Hu. destruct (di_writing _ _ _ _ _ Hd u Hu) as (v2 & p2 & Hf).
    exists v2, p2. by apply elem_of_cons; right.
  - intros q Hq. destruct (di_loading _ _ _ _ _ Hd q Hq) as [u ?]. exists u. by apply elem_of_cons; right.
Qed.
(** What is known when an eviction is complete. *)
Definition evicted (mem : Z → D) (w : W) (c : cache_t) (f : flight) : Prop :=
  match f with
  | FAlloc v _ => pmap c !! v = None
  | FEvict _ pre _ _ => disk_of w pre = mem pre ∧ (pre ∉ writing w)
  | FLoad _ _ => False
  end.

Lemma load_start_data mem wc w c c' fl f :
  cache_inv compact c (f :: fl) → data_inv mem wc w c (f :: fl) → evicted mem w c f →
  max_vpage_id c' = max_vpage_id c →
  pmap c' = <[f_vpage f := busy_state (f_ppage f)]> (evicted_map f (pmap c)) →
  data_inv mem wc w c' (FLoad (f_vpage f) (f_ppage f) :: fl).
Proof.
  intros Hi Hd Hev Emv Hm. set (v := f_vpage f) in *. set (p := f_ppage f) in *.
  assert (Hfin : f ∈ f :: fl) by (by apply elem_of_cons; left).
  destruct (ci_flight _ _ _ Hi f Hfin) as (_ & _ & _ & Hv & Hbf). fold v in Hv.
  pose proof (ci_flight_busy _ _ _ Hi) as Hnd.
  assert (Hvd : disk_of w v = mem v).
  { destruct f as [v0 p0|v0 pre p0 d0|]; simpl in *; [by apply (di_absent _ _ _ _ _ Hd)| |done].
    by destruct (di_evict _ _ _ _ _ Hd _ _ _ _ Hfin). }
  assert (Hr : ∀ u x, resident compact c' u x → resident compact c u x).
  { intros u x [Hx Hb]. rewrite Hm in Hx. apply lookup_insert_Some in Hx as [[<- <-]|[_ Hx]]; [done|].
    split; [|done]. destruct f; simpl in Hx; [done|by apply lookup_delete_Some in Hx as [_ ?]|done]. }
  assert (Hk : ∀ u x, u ∉ f_busy f → u ≠ v → pmap c !! u = Some x → pmap c' !! u = Some x).
  { intros u x Hu Huv Hx. rewrite Hm, lookup_insert_ne by done. destruct f; simpl in *; [done| |done].
    rewrite lookup_delete_ne; [done|set_solver]. }
  assert (Hrb : ∀ u x, resident compact c u x → (u ∉ f_busy f) ∧ u ≠ v).
  { intros u x Hx. assert (Hu : u ∉ f_busy f) by (intros Hu; by eapply (flight_busy_pages compact c)).
    split; [done|]. intros ->. destruct f as [v0 p0|v0 pre p0 d0|]; simpl in *; [|set_solver|done].
    destruct Hx as [Hx _]. unfold v in Hx. simpl in Hx. congruence. }
  split.
  - intros u x Hx%Hr. by eapply di_resident.
  - intros u x Hx%Hr. by eapply di_clean.
  - intros u x Hx%Hr. by eapply di_wc.
  - intros u Hu. apply (di_wc_out _ _ _ _ _ Hd). intros x Hx. apply (Hu x).
    destruct (Hrb u x Hx). destruct Hx. split; [by apply Hk|done].
  - intros u Hu Hn. rewrite Emv in Hu. rewrite Hm in Hn. apply lookup_insert_None in Hn as [Hn Hne].
    destruct f as [v0 p0|v0 pre p0 d0|]; simpl in *; [by apply (di_absent _ _ _ _ _ Hd)| |done].
    apply lookup_delete_None in Hn as [<-|Hn]; [by destruct Hev|by apply (di_absent _ _ _ _ _ Hd)].
  - intros u q [E|Hq]%elem_of_cons; [by simplify_eq|]. eapply (di_load _ _ _ _ _ Hd). by apply elem_of_cons; right.
  - intros u pre2 p2 d2 [?|Hf]%elem_of_cons; [done|].
    apply (di_evict _ _ _ _ _ Hd u pre2 p2 d2). by apply elem_of_cons; right.
  - intros u Hu. destruct (di_writing _ _ _ _ _ Hd u Hu) as (v2 & p2 & Hf).
    apply elem_of_cons in Hf as [<-|Hf]; [by destruct Hev|].
    exists v2, p2. by apply elem_of_cons; right.
  - intros q Hq. destruct (di_loading _ _ _ _ _ Hd q Hq) as [u Hu].
    apply elem_of_cons in Hu as [<-|Hu]; [done|]. exists u. by apply elem_of_cons; right.
Qed.

Lemma load_end_data mem wc w c c' fl v p :
  cache_inv compact c (FLoad v p :: fl) → data_inv mem wc w c (FLoad v p :: fl) →
  frame_of w p = mem v → p ∉ loading w →
  max_vpage_id c' = max_vpage_id c → pmap c' = <[v := mk_ps p true false false 1]> (pmap c) →
  data_inv mem wc w c' fl.
Proof.
  intros Hi Hd Hfm Hnl Emv Hm.
  assert (Hfin : FLoad v p ∈ FLoad v p :: fl) by (by apply elem_of_cons; left).
  destruct (ci_flight _ _ _ Hi _ Hfin) as (_ & _ & _ & Hv & Hbf). simpl in Hv, Hbf.
  assert (Hnr : ∀ x, ¬ resident compact c v x).
  { intros x Hx. eapply (flight_busy_pages compact c); [exact Hi|exact Hfin| |exact Hx]. simpl. set_solver. }
  pose proof (di_wc_out _ _ _ _ _ Hd v Hnr) as Hwc.
  assert (Hr : ∀ u x, resident compact c' u x →
    u = v ∧ x = mk_ps p true false false 1 ∨ u ≠ v ∧ resident compact c u x).
  { intros u x [Hx Hb]. rewrite Hm in Hx. apply lookup_insert_Some in Hx as [[<- <-]|[? Hx]]; [by left|by right]. }
  assert (Hk : ∀ u x, u ≠ v → pmap c !! u = Some x → pmap c' !! u = Some x).
  { intros u x Hu Hx. by rewrite Hm, lookup_insert_ne. }
  split.
  - intros u x [[-> ->]|[_ Hx]]%Hr; [done|by eapply di_resident].
  - intros u x [[-> ->]|[_ Hx]]%Hr; [|by eapply di_clean]. intros _ _. by eapply (di_load _ _ _ _ _ Hd).
  - intros u x [[-> ->]|[_ Hx]]%Hr; [|by eapply di_wc]. rewrite Hwc. simpl. lia.
  - intros u Hu. apply (di_wc_out _ _ _ _ _ Hd). intros x Hx. apply (Hu x). destruct Hx.
    split; [|done]. apply Hk; [|done]. intros ->. by apply (Hnr x).
  - intros u Hu Hn. rewrite Emv in Hu. rewrite Hm in Hn. apply lookup_insert_None in Hn as [Hn _].
    by apply (di_absent _ _ _ _ _ Hd).
  - intros u q Hq. eapply (di_load _ _ _ _ _ Hd). by apply elem_of_cons; right.
  - intros u pre2 p2 d2 Hf. apply (di_evict _ _ _ _ _ Hd u pre2 p2 d2). by apply elem_of_cons; right.
  - intros u Hu. destruct (di_writing _ _ _ _ _ Hd u Hu) as (v2 & p2 & Hf).
    apply elem_of_cons in Hf as [?|Hf]; [done|]. by exists v2, p2.
  - intros q Hq. destruct (di_loading _ _ _ _ _ Hd q Hq) as [u Hu].
    apply elem_of_cons in Hu as [E|Hu]; [|by exists u]. simplify_eq. done.
Qed.
(** *** The turns of a pin that misses *)
Abbreviation one_turn := (one_turn compact ec0 es0 evict_func load_func).
Abbreviation process_fuel := (process_fuel compact ec0 es0 evict_func load_func).
Abbreviation process := (process compact ec0 es0 evict_func load_func).

(** The prefetched page of a context that evicts is a valid index. *)
Definition prefetch_ok (c : cache_t) (x : ctx) : Prop :=
  c_pre_external_state x ≠ None → 0 ≤ c_prefetch_ppage_id x < max_ppage_id c.

(** The context of a request that waits for the I/O of [f]. *)
Definition waits (c : cache_t) (x : ctx) (f : flight) : Prop :=
  c_type x = KPin ∧ c_processing x = true ∧ prefetch_ok c x ∧
  match f with
  | FAlloc _ _ => False
  | FEvict v pre p d =>
      c_phase x = Evicting ∧ v = c_vpage_id x ∧ pre = c_pre_vpage_id x ∧ p = c_ppage_id x ∧
      d = c_dirty x ∧ c_pre_external_state x ≠ None
  | FLoad v p =>
      c_phase x = Loading ∧ v = c_vpage_id x ∧ p = c_ppage_id x ∧
      c_page_table_state x = Some (busy_state p) ∧ c_external_state x = Some p
  end.

(** The pin of [v] has succeeded. *)
Definition pinned (mem : Z → D) (s : sys_t) (x : ctx) (v : Z) : Prop :=
  c_phase x = End_ ∧ ∃ e, resident compact (the_cache s) v e ∧ 0 < ps_ref_count e ∧
    c_ppage_id x = ps_ppage_id e ∧ frame_of (world s) (c_ppage_id x) = mem v.

(** It has, or the request waits for I/O. *)
Definition progress (mem : Z → D) (wc : Z → Z) (s : sys_t) (x : ctx) (v : Z) (fl : list flight) : Prop :=
  (inv mem wc s fl ∧ pinned mem s x v) ∨
  (∃ f, inv mem wc s (f :: fl) ∧ waits (the_cache s) x f ∧ f_vpage f = v).

Lemma put_run mem wc s fl v e : inv mem wc s fl → 0 ≤ v < max_vpage_id (the_cache s) →
  state_wf compact e → ps_exist e = true →
  ∃ t, put (the_cache s) v e = Ok (with_page_table (the_cache s) t) ∧
    pt_inv (compact:=compact) (max_vpage_id (the_cache s)) t ∧
    pt_map (compact:=compact) t = <[v := e]> (pmap (the_cache s)).
Proof. intros [Hi _] Hv Hwf He. by eapply put_ok. Qed.

(** The page is loaded: [process] publishes it and returns. *)
Lemma loaded_run mem wc s fl x : inv mem wc s (FLoad (c_vpage_id x) (c_ppage_id x) :: fl) →
  c_phase x = Loading → c_processing x = false → c_page_table_state x = Some (busy_state (c_ppage_id x)) →
  prefetch_ok (the_cache s) x →
  frame_of (world s) (c_ppage_id x) = mem (c_vpage_id x) → c_ppage_id x ∉ loading (world s) →
  ∃ s' x', process_fuel 1 s x = Ok (s', x') ∧ progress mem wc s' x' (c_vpage_id x) fl ∧
    max_ppage_id (the_cache s') = max_ppage_id (the_cache s) ∧ max_vpage_id (the_cache s') = max_vpage_id (the_cache s).
Proof.
  intros Hinv Hph Hpr Hst Hpf Hfm Hnl. pose proof Hinv as [Hi Hd].
  set (v := c_vpage_id x) in *. set (p := c_ppage_id x) in *.
  assert (Hfin : FLoad v p ∈ FLoad v p :: fl) by (by apply elem_of_cons; left).
  destruct (ci_flight _ _ _ Hi _ Hfin) as (Hp & _ & _ & Hv & _). simpl in Hp, Hv.
  pose proof (ci_max _ _ _ Hi). pose proof (ci_cur _ _ _ Hi).
  unfold SingleThreadCache.process_fuel, SingleThreadCache.one_turn, loading_turn.
  rewrite Hph, Hpr, Hst. cbn [value mbind result_bind].
  assert (E : set_busy (set_ref compact (set_dirty (busy_state p) false) 1) false = mk_ps p true false false 1).
  { unfold set_busy, set_ref, set_dirty, busy_state. simpl. f_equal. apply one_ref_small. }
  rewrite E. destruct (put_run mem wc s _ v (mk_ps p true false false 1) Hinv Hv) as (t & Hput & Hpt & Hm);
    [apply small_state_wf; lia|done|].
  fold v. rewrite Hput. cbn [mbind result_bind].
  set (c' := with_page_table (the_cache s) t) in *.
  assert (Hi' : cache_inv compact c' fl) by (by apply (load_end_inv compact (the_cache s) c' fl v p)).
  assert (Hd' : data_inv mem wc (world s) c' fl) by (by apply (load_end_data mem wc (world s) (the_cache s) c' fl v p)).
  assert (Hread : match c_pre_external_state (set_phase (set_state x (Some (mk_ps p true false false 1))) End_) with
    | Some _ => _ ← aread (states c') (c_prefetch_ppage_id (set_phase (set_state x (Some (mk_ps p true false false 1))) End_)); Ok tt
    | None => Ok tt end = Ok tt).
  { simpl. destruct (c_pre_external_state x) as [ext|] eqn:Ee; [|done].
    destruct (aread_total (states c') (c_prefetch_ppage_id x)) as (st & Hst' & _).
    { simpl. rewrite (ci_states _ _ _ Hi). apply Hpf. congruence. }
    simpl in Hst'. by rewrite Hst'. }
  rewrite Hread. cbn [mbind result_bind].
  eexists _, _. split; [done|]. split; [|done]. left. split; [by split|]. split; [done|].
  exists (mk_ps p true false false 1). simpl. split_and!; try done. split; [|done].
  change (pmap c' !! v = Some (mk_ps p true false false 1)).
  unfold SingleThreadCache.ptm at 1. simpl. by rewrite Hm, lookup_insert_eq.
Qed.

Lemma process_fuel_S n s x : process_fuel (S n) s x =
  '(s, x, continue) ← one_turn s x; if (continue : bool) then process_fuel n s x else Ok (s, x).
Proof. done. Qed.
(** After a call of the load function. *)
Lemma load_called_run mem wc s fl x :
  inv mem wc s (FLoad (c_vpage_id x) (c_ppage_id x) :: fl) → c_type x = KPin → c_phase x = Loading →
  c_page_table_state x = Some (busy_state (c_ppage_id x)) → c_external_state x = Some (c_ppage_id x) →
  prefetch_ok (the_cache s) x →
  (c_processing x = false →
     frame_of (world s) (c_ppage_id x) = mem (c_vpage_id x) ∧ (c_ppage_id x ∉ loading (world s))) →
  ∃ s' x', (if negb (c_processing x) then process_fuel 1 s x else Ok (s, x)) = Ok (s', x') ∧
    progress mem wc s' x' (c_vpage_id x) fl ∧ max_ppage_id (the_cache s') = max_ppage_id (the_cache s) ∧
    max_vpage_id (the_cache s') = max_vpage_id (the_cache s).
Proof.
  intros Hinv Hty Hph Hst Hes Hpf Hfin. destruct (c_processing x) eqn:Hpr; simpl.
  - exists s, x. split; [done|]. split; [|done]. right. exists (FLoad (c_vpage_id x) (c_ppage_id x)). done.
  - destruct Hfin as [? ?]; [done|]. by apply loaded_run.
Qed.

Lemma loading_waits_run mem wc s fl x :
  inv mem wc s (FLoad (c_vpage_id x) (c_ppage_id x) :: fl) → c_type x = KPin → c_phase x = Loading →
  c_processing x = true →
  c_page_table_state x = Some (busy_state (c_ppage_id x)) → c_external_state x = Some (c_ppage_id x) →
  prefetch_ok (the_cache s) x →
  ∃ s' x', process_fuel 2 s x = Ok (s', x') ∧ progress mem wc s' x' (c_vpage_id x) fl ∧
    max_ppage_id (the_cache s') = max_ppage_id (the_cache s) ∧ max_vpage_id (the_cache s') = max_vpage_id (the_cache s).
Proof.
  intros Hinv Hty Hph Hpr Hst Hes Hpf. rewrite process_fuel_S.
  unfold SingleThreadCache.one_turn, loading_turn. rewrite Hph, Hpr.
  destruct (call_load_ok mem wc s _ x Hinv) as (w' & sts & e' & b & -> & Hinv' & Hfin);
    [by apply elem_of_cons; left|done|].
  cbn [mbind result_bind].
  destruct (load_called_run mem wc _ fl (set_processing (set_external_context x e') b) Hinv')
    as (s2 & x2 & E & Hp & Hm1 & Hm2); [done..|]. by exists s2, x2.
Qed.

(** The old page is out: [process] starts the load. *)
Lemma evicted_run mem wc s fl x f :
  inv mem wc s (f :: fl) → evicted mem (world s) (the_cache s) f →
  c_type x = KPin → c_phase x = Evicting → c_processing x = false →
  c_vpage_id x = f_vpage f → c_ppage_id x = f_ppage f → prefetch_ok (the_cache s) x →
  match f with
  | FEvict _ pre _ _ => c_pre_external_state x ≠ None ∧ c_pre_vpage_id x = pre
  | _ => c_pre_external_state x = None
  end →
  ∃ s' x', process_fuel 2 s x = Ok (s', x') ∧ progress mem wc s' x' (c_vpage_id x) fl ∧
    max_ppage_id (the_cache s') = max_ppage_id (the_cache s) ∧ max_vpage_id (the_cache s') = max_vpage_id (the_cache s).
Proof.
  intros Hinv Hev Hty Hph Hpr Hxv Hxp Hpf Hpre. pose proof Hinv as [Hi Hd].
  assert (Hfin : f ∈ f :: fl) by (by apply elem_of_cons; left).
  destruct (ci_flight _ _ _ Hi _ Hfin) as (Hp & _ & Hfr & Hv & Hb).
  rewrite <- Hxp in Hp, Hfr. rewrite <- Hxv in Hv. pose proof (ci_max _ _ _ Hi). pose proof (ci_cur _ _ _ Hi).
  set (v := c_vpage_id x) in *. set (p := c_ppage_id x) in *. set (c := the_cache s) in *.
  rewrite process_fuel_S. unfold SingleThreadCache.one_turn, evicting_turn. rewrite Hph, Hpr. fold c p v.
  (* the old entry *)
  assert (Hdel : ∃ t, match c_pre_external_state x with Some _ => del c (c_pre_vpage_id x) | None => Ok c end =
      Ok (with_page_table c t) ∧ pt_inv (compact:=compact) (max_vpage_id c) t ∧
      pt_map (compact:=compact) t = evicted_map f (pmap c)).
  { destruct f as [v0 p0|v0 pre p0 d0|]; simpl in Hpre; [| |done].
    - rewrite Hpre. exists (page_table c). split; [by destruct c|]. split; [apply Hi|done].
    - destruct Hpre as [Hne <-]. destruct (c_pre_external_state x); [|done].
      destruct (Hb (c_pre_vpage_id x)) as (y & Hy & _); [simpl; set_solver|].
      destruct (pt_del_spec (compact:=compact) (max_vpage_id c) (page_table c) (c_pre_vpage_id x)) as (t & Ht & ? & ?);
        [apply Hi|by eapply ptm_range|].
      exists t. unfold del. by rewrite Ht. }
  destruct Hdel as (t1 & -> & Hpt1 & Hm1). cbn [mbind result_bind].
  unfold init_state. change (states (with_page_table c t1)) with (states c).
  rewrite awrite_total by (rewrite (ci_states _ _ _ Hi); lia). cbn [mbind result_bind].
  rewrite ppage_small by lia. change (mk_ps p true true false 0) with (busy_state p).
  destruct (pt_put_spec (compact:=compact) (max_vpage_id c) t1 v (busy_state p)) as (t2 & Ht2 & Hpt2 & Hm2);
    [done|done|apply busy_state_wf; lia|done|].
  rewrite (put_eq (with_states (with_page_table c t1) (zset (states c) p (empty_frame es0)))
             t2 _ v (busy_state p) Ht2). cbn [mbind result_bind].
  cbn [states with_page_table with_states].
  assert (Hget : zget (zset (states c) p (empty_frame es0)) p = Some (empty_frame es0)).
  { apply zget_zset_eq. rewrite (ci_states _ _ _ Hi). lia. }
  rewrite (proj2 (aread_Ok _ _ _) Hget). cbn [mbind result_bind].
  rewrite awrite_total by (by eapply zget_range). cbn [mbind result_bind].
  set (sts := zset (zset (states c) p (empty_frame es0)) p (mk_state v (s_external (empty_frame es0)))).
  set (c' := with_states _ sts).
  assert (Hm' : pmap c' = <[f_vpage f := busy_state (f_ppage f)]> (evicted_map f (pmap c))).
  { unfold SingleThreadCache.ptm at 1. simpl. rewrite Hm2, Hm1. by rewrite <- Hxv, <- Hxp. }
  assert (Hi' : cache_inv compact c' (FLoad (f_vpage f) (f_ppage f) :: fl)).
  { apply (load_start_inv compact c c' fl f); try done.
    - by destruct f.
    - simpl. unfold sts. by rewrite !zlen_zset.
    - exists (mk_state v (s_external (empty_frame es0))). split; [|simpl; by rewrite <- Hxv].
      rewrite <- Hxp. simpl. unfold sts. apply zget_zset_eq. by eapply zget_range.
    - intros q u Hq (st & Hst & Hu). exists st. split; [|done]. simpl. unfold sts. rewrite <- Hxp in Hq.
      by rewrite !zget_zset_ne. }
  assert (Hd' : data_inv mem wc (world s) c' (FLoad (f_vpage f) (f_ppage f) :: fl)).
  { by apply (load_start_data mem wc (world s) c). }
  rewrite <- Hxv, <- Hxp in Hi', Hd'.
  set (x1 := set_external_context _ ec0).
  destruct (call_load_ok mem wc (mk_sys (world s) c') _ x1 (conj Hi' Hd')) as (w' & sts' & e' & b & -> & Hinv' & Hfin');
    [by apply elem_of_cons; left|done|].
  cbn [mbind result_bind].
  destruct (load_called_run mem wc _ fl (set_processing (set_external_context x1 e') b) Hinv')
    as (s2 & x2 & E & Hp2 & Hx1 & Hx2); [done..|]. by exists s2, x2.
Qed.
Lemma process_fuel_mono n m s x r : process_fuel n s x = Ok r → (n ≤ m)%nat → process_fuel m s x = Ok r.
Proof.
  revert m s x. induction n as [|n IH]; intros m s x Hr Hm; [done|].
  destruct m as [|m]; [lia|]. rewrite process_fuel_S in *.
  destruct (one_turn s x) as [[[s1 x1] [|]]|e]; simpl in *; [|done|done]. apply IH; [done|lia].
Qed.

(** After a call of the eviction function. *)
Lemma evict_called_run mem wc s fl x :
  inv mem wc s (FEvict (c_vpage_id x) (c_pre_vpage_id x) (c_ppage_id x) (c_dirty x) :: fl) →
  c_type x = KPin → c_phase x = Evicting → prefetch_ok (the_cache s) x → c_pre_external_state x ≠ None →
  (c_processing x = false →
     disk_of (world s) (c_pre_vpage_id x) = mem (c_pre_vpage_id x) ∧
     (c_pre_vpage_id x ∉ writing (world s))) →
  ∃ s' x', (if negb (c_processing x) then process_fuel 2 s x else Ok (s, x)) = Ok (s', x') ∧
    progress mem wc s' x' (c_vpage_id x) fl ∧ max_ppage_id (the_cache s') = max_ppage_id (the_cache s) ∧
    max_vpage_id (the_cache s') = max_vpage_id (the_cache s).
Proof.
  intros Hinv Hty Hph Hpf Hpre Hfin. destruct (c_processing x) eqn:Hpr; simpl.
  - exists s, x. split; [done|]. split; [|done]. right. eexists. split; [exact Hinv|]. done.
  - apply (evicted_run mem wc s fl x (FEvict (c_vpage_id x) (c_pre_vpage_id x) (c_ppage_id x) (c_dirty x))); try done. by apply Hfin.
Qed.

Lemma evicting_waits_run mem wc s fl x :
  inv mem wc s (FEvict (c_vpage_id x) (c_pre_vpage_id x) (c_ppage_id x) (c_dirty x) :: fl) →
  c_type x = KPin → c_phase x = Evicting → c_processing x = true →
  prefetch_ok (the_cache s) x → c_pre_external_state x ≠ None →
  ∃ s' x', process_fuel 3 s x = Ok (s', x') ∧ progress mem wc s' x' (c_vpage_id x) fl ∧
    max_ppage_id (the_cache s') = max_ppage_id (the_cache s) ∧ max_vpage_id (the_cache s') = max_vpage_id (the_cache s).
Proof.
  intros Hinv Hty Hph Hpr Hpf Hpre. rewrite process_fuel_S.
  unfold SingleThreadCache.one_turn, evicting_turn. rewrite Hph, Hpr.
  destruct (call_evict_ok mem wc s _ x (c_vpage_id x) Hinv) as (w' & sts & e' & b & -> & Hinv' & Hfin);
    [by apply elem_of_cons; left|].
  cbn [mbind result_bind].
  destruct (evict_called_run mem wc _ fl (set_processing (set_external_context x e') b) Hinv')
    as (s2 & x2 & E & Hp & ? & ?); [done..|]. by exists s2, x2.
Qed.

(** *** A pin that misses *)
Lemma pin_miss_run mem wc s fl x :
  inv mem wc s fl → c_type x = KPin → c_phase x = Initing → c_page_table_state x = None →
  c_pre_external_state x = None →
  0 ≤ c_vpage_id x < max_vpage_id (the_cache s) → pmap (the_cache s) !! c_vpage_id x = None →
  ∃ s' x', process_fuel 4 s x = Ok (s', x') ∧
    (if full_pin (the_cache s)
     then s' = s ∧ c_phase x' = End_ ∧ c_ppage_id x' = EMPTY_PPAGE_ID
     else progress mem wc s' x' (c_vpage_id x) fl) ∧
    max_ppage_id (the_cache s') = max_ppage_id (the_cache s) ∧ max_vpage_id (the_cache s') = max_vpage_id (the_cache s).
Proof.
  intros Hinv Hty Hph Hst Hpe Hv Hvn. pose proof Hinv as [Hi Hd]. rewrite process_fuel_S.
  unfold SingleThreadCache.one_turn, initing_turn, pin_miss_turn. rewrite Hph, Hty, Hst.
  set (c := the_cache s) in *. set (v := c_vpage_id x) in *.
  destruct (full_pin c) eqn:Hfp; [eexists _, _; by split|].
  pose proof (ci_max _ _ _ Hi). pose proof (ci_cur _ _ _ Hi).
  pose proof (alloc_inv compact c fl v Hi Hv) as Halloc.
  assert (Hps : w64 (pinned_size c + 1) = pinned_size c + 1).
  { pose proof Hfp as Hfp'. unfold full_pin in Hfp'. apply Z.leb_gt in Hfp'. apply w64_small.
    rewrite (ci_pinned _ _ _ Hi) in *. pose proof (pin_count_nonneg (pmap c)). unfold zlen in *. lia. }
  change (full (with_pinned_size c (w64 (pinned_size c + 1)))) with (full c).
  destruct (full c) eqn:Hfull.
  - (* evict *)
    pose proof (pop_candidate compact c fl Hi Hfull Hfp) as Hne.
    destruct (rep_pop_spec _ _ (ci_rep _ _ _ Hi) Hne) as (r & p & nxt & Hpop & Hrep & Hp & Hmem & Hnxt).
    pose proof (proj1 (ci_members _ _ _ Hi p) Hp) as (pre & e & He & Hid & Hpp).
    destruct (idle_resident _ _ _ _ He Hid) as [Hres Href].
    destruct (ci_resident _ _ _ Hi pre e Hres) as (([u ext] & Hg & Hu) & _). simpl in Hu. subst u.
    rewrite Hpp in Hg. destruct (ci_entry _ _ _ Hi pre e He) as (Hex & Hwf & Hpr). rewrite Hpp in Hpr.
    cbn [replacement with_pinned_size with_replacement]. rewrite Hpop. cbn [mbind result_bind].
    change (states (with_replacement (with_pinned_size c (w64 (pinned_size c + 1))) r)) with (states c).
    rewrite (proj2 (aread_Ok _ _ _) Hg). cbn [mbind result_bind s_vpage_id s_external page_table with_replacement with_pinned_size].
    pose proof (ptm_range compact c fl pre e Hi He) as Hprer.
    rewrite (pt_get_spec (compact:=compact) _ _ _ (ci_pt _ _ _ Hi) Hprer).
    change (pt_map (page_table c)) with (pmap c). rewrite He. cbn [mbind result_bind value].
    destruct (pt_put_spec (compact:=compact) _ (page_table c) pre (set_busy e true) (ci_pt _ _ _ Hi) Hprer Hwf Hex)
      as (t1 & Ht1 & Hpt1 & Hm1).
    rewrite (put_eq (with_replacement (with_pinned_size c (w64 (pinned_size c + 1))) r) t1 _ pre (set_busy e true) Ht1).
    cbn [mbind result_bind]. rewrite ppage_small by lia. change (mk_ps p true true false 0) with (busy_state p).
    destruct (pt_put_spec (compact:=compact) (max_vpage_id c) t1 v (busy_state p)) as (t2 & Ht2 & Hpt2 & Hm2);
      [done|done|apply busy_state_wf; lia|done|].
    rewrite (put_eq (with_page_table (with_replacement (with_pinned_size c (w64 (pinned_size c + 1))) r) t1)
               t2 _ v (busy_state p) Ht2). cbn [mbind result_bind].
    set (c' := with_page_table _ t2).
    assert (Hm' : pmap c' = <[v := busy_state p]> (<[pre := set_busy e true]> (pmap c))).
    { unfold SingleThreadCache.ptm at 1. simpl. by rewrite Hm2, Hm1. }
    set (x1 := mk_context _ _ _ _ _ _ _ _ _ _ _ _ _ _).
    assert (Hinv1 : inv mem wc (mk_sys (world s) c') (FEvict v pre p (ps_dirty e) :: fl)).
    { split.
      - by apply (evict_start_inv compact c c' fl v pre p (ps_dirty e) e).
      - by apply (evict_start_data mem wc (world s) c c' fl v pre p (ps_dirty e) e). }
    destruct (call_evict_ok mem wc (mk_sys (world s) c') _ x1 v Hinv1) as (w' & sts & e' & b & -> & Hinv' & Hfin);
      [by apply elem_of_cons; left|].
    cbn [mbind result_bind].
    destruct (evict_called_run mem wc _ fl (set_processing (set_external_context x1 e') b) Hinv')
      as (s2 & x2 & E & Hp2 & Hx1 & Hx2); [done|done| |done|done|].
    { intros _. simpl. apply Hnxt. lia. }
    exists s2, x2. split; [|done]. destruct b; cbn [negb c_processing set_processing] in *; [done|].
    eapply process_fuel_mono; [exact E|lia].
  - (* a free page *)
    destruct Halloc as (c' & p & Hal & Hi' & Ept & Est & Emv & Emp); [done|done|].
    rewrite Hal. cbn [mbind result_bind].
    assert (Hm : pmap c' = pmap c) by (unfold SingleThreadCache.ptm; by rewrite Ept).
    destruct (evicted_run mem wc (mk_sys (world s) c') fl
      (set_processing (set_phase (set_ctx_ppage x p) Evicting) false) (FAlloc v p)) as (s2 & x2 & E & Hp2 & Hx1 & Hx2);
      try done.
    + split; [done|]. by apply (take_data mem wc (world s) c c').
    + simpl. by rewrite Hm.
    + exists s2, x2. split; [|simpl in *; rewrite Hx1, Hx2, Emp, Emv; done].
      eapply process_fuel_mono; [exact E|lia].
Qed.
(** *** Pins and unpins of resident pages *)

(** Every counted pin has a physical page of its own. *)
Lemma pinned_bound (c : cache_t) fl : cache_inv compact c fl → 0 ≤ pinned_size c ≤ max_ppage_id c.
Proof.
  intros Hi. rewrite (ci_pinned _ _ _ Hi), pin_count_list.
  set (ks := filter (λ x, is_pinned x.2 = true) (map_to_list (pmap c))).
  assert (Hks : ∀ k e, (k, e) ∈ ks → resident compact c k e).
  { intros k e [Hp Hk]%list_elem_of_filter. apply elem_of_map_to_list in Hk. split; [done|].
    simpl in Hp. unfold is_pinned in Hp. by destruct (ps_busy e). }
  assert (Hnd : NoDup (((λ x, ps_ppage_id x.2) <$> ks) ++ (f_ppage <$> fl))).
  { apply NoDup_app. split_and!; [| |apply Hi].
    - assert (Hndk : NoDup ks.*1).
      { eapply sublist_NoDup; [apply (NoDup_fst_map_to_list (pmap c))|]. apply fmap_sublist, sublist_filter. }
      revert Hks Hndk. clear -Hi. induction ks as [|[k e] ks IH]; intros Hks Hnd; [constructor|].
      simpl in *. apply NoDup_cons in Hnd as [Hk Hnd]. constructor.
      + intros ([k2 e2] & E & Hin)%list_elem_of_fmap. simpl in E.
        assert (k = k2) as <-.
        { eapply (resident_inj compact c fl); [done| | |exact E]; apply Hks; set_solver. }
        apply Hk. apply list_elem_of_fmap. by exists (k, e2).
      + apply IH; [|done]. intros. apply Hks. by apply elem_of_cons; right.
    - intros p ([k e] & -> & Hin)%list_elem_of_fmap. simpl.
      by destruct (ci_resident _ _ _ Hi k e (Hks k e Hin)) as (_ & _ & ?). }
  assert (Hsub : ((λ x, ps_ppage_id x.2) <$> ks) ++ (f_ppage <$> fl) ⊆ seqZ 0 (max_ppage_id c)).
  { pose proof (ci_cur _ _ _ Hi). intros p [Hp|Hp]%elem_of_app; apply elem_of_seqZ.
    - apply list_elem_of_fmap in Hp as ([k e] & -> & Hin). simpl. destruct (Hks k e Hin) as [Hm _].
      pose proof (ci_entry _ _ _ Hi k e Hm). lia.
    - apply list_elem_of_fmap in Hp as (f & -> & Hf). destruct (ci_flight _ _ _ Hi f Hf) as (? & _). lia. }
  pose proof (submseteq_length _ _ (NoDup_submseteq _ _ Hnd Hsub)) as Hlen.
  pose proof (ci_max _ _ _ Hi).
  rewrite length_app, !length_fmap, length_seqZ in Hlen. unfold zlen. lia.
Qed.

Lemma member_resident (c : cache_t) fl v e : cache_inv compact c fl → resident compact c v e →
  ps_ppage_id e ∈ rep_members (replacement c) ↔ idle e = true.
Proof.
  intros Hi Hr. rewrite (ci_members _ _ _ Hi). split.
  - intros (u & x & Hx & Hid & Hp). destruct (idle_resident _ _ _ _ Hx Hid) as [Hrx _].
    assert (u = v) as -> by (by eapply (resident_inj compact c fl)).
    destruct Hr, Hrx. congruence.
  - intros Hid. destruct Hr. by exists v, e.
Qed.

Lemma pin_hit_run mem wc s fl x e :
  inv mem wc s fl → resident compact (the_cache s) (c_vpage_id x) e →
  ps_ref_count e + 1 < 2 ^ ref_width compact →
  ∃ s' x', pin_hit_turn compact s x e = Ok (s', x', false) ∧ inv mem wc s' fl ∧
    pinned mem s' x' (c_vpage_id x) ∧ pmap (the_cache s') !! c_vpage_id x = Some (set_ref compact e (ps_ref_count e + 1)).
Proof.
  intros [Hi Hd] Hres Href. pose proof Hres as [Hm Hb].
  set (c := the_cache s) in *. set (v := c_vpage_id x) in *. set (p := ps_ppage_id e).
  destruct (ci_entry _ _ _ Hi v e Hm) as (Hex & Hwf & Hpr). fold p in Hpr.
  destruct (ci_resident _ _ _ Hi v e Hres) as (([u ext] & Hg & Hu) & _). simpl in Hu. subst u. fold p in Hg.
  pose proof (pinned_bound c fl Hi) as Hpb. pose proof (ci_max _ _ _ Hi). pose proof (ci_cur _ _ _ Hi).
  unfold pin_hit_turn. rewrite Hex. cbn [assert mbind result_bind]. fold c p v.
  rewrite (proj2 (aread_Ok _ _ _) Hg). cbn [mbind result_bind s_vpage_id].
  rewrite Z.eqb_refl. cbn [assert mbind result_bind].
  set (e' := set_ref compact e (ps_ref_count e + 1)).
  assert (Hr0 : 0 ≤ ps_ref_count e) by apply Hwf.
  assert (He' : ps_ref_count e' = ps_ref_count e + 1) by (apply Z.mod_small; lia).
  assert (Hwf' : state_wf compact e') by (split; [apply Hwf|rewrite He'; lia]).
  assert (Hid' : idle e' = false).
  { unfold idle. rewrite He'. rewrite (proj2 (Z.eqb_neq _ _)) by lia. apply andb_false_r. }
  assert (Hpin' : is_pinned e' = true) by (rewrite not_pinned_idle by done; by rewrite Hid').
  pose proof (member_resident c fl v e Hi Hres) as Hmem. fold p in Hmem.
  assert (Hstep : ∃ c1, (if ps_ref_count e =? 0 then
      r ← rep_erase (replacement c) p;
      Ok (with_pinned_size (with_replacement c r) (w64 (pinned_size c + 1))) else Ok c) = Ok c1 ∧
    max_vpage_id c1 = max_vpage_id c ∧ max_ppage_id c1 = max_ppage_id c ∧ cur_id c1 = cur_id c ∧
    recycle_pool c1 = recycle_pool c ∧ states c1 = states c ∧ page_table c1 = page_table c ∧
    rep_inv (max_ppage_id c) (replacement c1) ∧
    rep_members (replacement c1) = rep_members (replacement c) ∖ {[p]} ∧
    pinned_size c1 = pinned_size c - Z.b2z (is_pinned e) + 1).
  { rewrite not_pinned_idle by done. unfold idle in *. rewrite Hb in *. simpl in *.
    destruct (ps_ref_count e =? 0).
    - destruct (rep_erase_spec _ _ p (ci_rep _ _ _ Hi)) as (r & -> & ? & ?); [lia|].
      eexists. split; [done|]. simpl. rewrite w64_small by lia. split_and!; try done. lia.
    - exists c. split_and!; try done; [apply Hi| |simpl; lia].
      apply set_eq. intros q. rewrite elem_of_difference, elem_of_singleton.
      split; [|tauto]. intros Hq. split; [done|]. intros ->. by apply Hmem in Hq. }
  destruct Hstep as (c1 & -> & E1 & E2 & E3 & E4 & E5 & E6 & E7 & E8 & E9). cbn [mbind result_bind].
  fold e'. pose proof (ptm_range compact c fl v e Hi Hm) as Hv.
  destruct (pt_put_spec (compact:=compact) (max_vpage_id c) (page_table c) v e' (ci_pt _ _ _ Hi) Hv Hwf' Hex) as (t & Ht & Hpt & Hmt).
  rewrite <- E6 in Ht. rewrite (put_eq c1 t _ v e' Ht). cbn [mbind result_bind].
  eexists _, _. split; [done|].
  assert (Hm' : pmap (with_page_table c1 t) = <[v := e']> (pmap c)) by done.
  assert (Hch : entry_change compact c (with_page_table c1 t) v e e').
  { split; try done. - by rewrite Hid'. - rewrite Hpin'. simpl. lia. }
  split; [|split].
  - split; [by apply (entry_change_inv compact c _ fl v e e')|].
    apply (entry_change_data mem wc wc (world s) c _ fl v e e' Hi Hd Hch); [done| |].
    + pose proof (di_wc _ _ _ _ _ Hd v e Hres). lia.
    + intros Hdr Hwc. by apply (di_clean _ _ _ _ _ Hd v e).
  - split; [done|]. exists e'. split; [split; [|done]; cbn [the_cache]; by rewrite Hm', lookup_insert_eq|].
    split; [rewrite He'; lia|]. split; [done|]. by apply (di_resident _ _ _ _ _ Hd v e).
  - simpl. by rewrite Hm', lookup_insert_eq.
Qed.

Lemma unpin_run mem wc wc' s fl (x : ctx) e :
  inv mem wc s fl → c_page_table_state x = Some e → resident compact (the_cache s) (c_vpage_id x) e →
  (∀ u, u ≠ c_vpage_id x → wc' u = wc u) → 0 ≤ wc' (c_vpage_id x) ≤ Z.max 0 (ps_ref_count e - 1) →
  (c_is_write x = false → wc' (c_vpage_id x) = wc (c_vpage_id x)) →
  ∃ s' x', unpin_turn compact s x = Ok (s', x', false) ∧ inv mem wc' s' fl ∧ c_phase x' = End_ ∧
    c_is_unpin x' = (0 <? ps_ref_count e) ∧
    pmap (the_cache s') !! c_vpage_id x =
      Some (mk_ps (ps_ppage_id e) true false (c_is_write x || ps_dirty e) (Z.max 0 (ps_ref_count e - 1))).
Proof.
  intros [Hi Hd] Hst Hres Hwo Hwc Hwr. pose proof Hres as [Hm Hb].
  set (c := the_cache s) in *. set (v := c_vpage_id x) in *. set (p := ps_ppage_id e).
  destruct (ci_entry _ _ _ Hi v e Hm) as (Hex & Hwf & Hpr). fold p in Hpr.
  destruct (ci_resident _ _ _ Hi v e Hres) as (([u ext] & Hg & Hu) & _). simpl in Hu. subst u. fold p in Hg.
  pose proof (pinned_bound c fl Hi) as Hpb. pose proof (ci_max _ _ _ Hi). pose proof (ci_cur _ _ _ Hi).
  unfold unpin_turn. rewrite Hst, Hex. cbn [assert mbind result_bind]. fold c p v.
  rewrite (proj2 (aread_Ok _ _ _) Hg). cbn [mbind result_bind s_vpage_id].
  rewrite Z.eqb_refl. cbn [assert mbind result_bind].
  set (e1 := if c_is_write x then set_dirty e true else e).
  assert (Er : ps_ref_count e1 = ps_ref_count e) by (unfold e1; by destruct (c_is_write x)).
  rewrite Er.
  set (e' := mk_ps p true false (c_is_write x || ps_dirty e) (Z.max 0 (ps_ref_count e - 1))).
  assert (Hr0 : 0 ≤ ps_ref_count e < 2 ^ ref_width compact) by apply Hwf.
  assert (Hwf' : state_wf compact e') by (split; [apply Hwf|simpl; lia]).
  assert (He1 : e1 = mk_ps p true false (c_is_write x || ps_dirty e) (ps_ref_count e)).
  { unfold e1. destruct (c_is_write x); simpl; [unfold set_dirty; by rewrite Hex, Hb|].
    rewrite <- Hex, <- Hb. by destruct e. }
  pose proof (member_resident c fl v e Hi Hres) as Hmem. fold p in Hmem.
  assert (Hidd : idle e = (ps_ref_count e =? 0)) by (unfold idle; by rewrite Hb).
  assert (Hpd : is_pinned e = negb (ps_ref_count e =? 0)) by (rewrite not_pinned_idle by done; by rewrite Hidd).
  assert (Hpd' : is_pinned e' = negb (Z.max 0 (ps_ref_count e - 1) =? 0)) by done.
  assert (Hidd' : idle e' = (Z.max 0 (ps_ref_count e - 1) =? 0)) by done.
  assert (Hstep : ∃ c1, (if 0 <? ps_ref_count e then
      if ps_ref_count (set_ref compact e1 (ps_ref_count e - 1)) =? 0 then
        r ← rep_push (replacement c) (ps_ppage_id (set_ref compact e1 (ps_ref_count e - 1)));
        Ok (with_replacement (with_pinned_size c (w64 (pinned_size c - 1))) r,
            set_ref compact e1 (ps_ref_count e - 1), true)
      else Ok (c, set_ref compact e1 (ps_ref_count e - 1), true) else Ok (c, e1, false)) = Ok (c1, e', 0 <? ps_ref_count e) ∧
    max_vpage_id c1 = max_vpage_id c ∧ max_ppage_id c1 = max_ppage_id c ∧ cur_id c1 = cur_id c ∧
    recycle_pool c1 = recycle_pool c ∧ states c1 = states c ∧ page_table c1 = page_table c ∧
    rep_inv (max_ppage_id c) (replacement c1) ∧
    rep_members (replacement c1) = (if idle e' then {[p]} ∪ rep_members (replacement c)
      else rep_members (replacement c) ∖ {[p]}) ∧
    pinned_size c1 = pinned_size c - Z.b2z (is_pinned e) + Z.b2z (is_pinned e')).
  { rewrite Hpd, Hpd', Hidd'. rewrite Hidd in Hmem. destruct (Z.ltb_spec 0 (ps_ref_count e)) as [Hpos|Hz].
    - rewrite (proj2 (Z.eqb_neq (ps_ref_count e) 0)) in * by lia.
      assert (Eset : set_ref compact e1 (ps_ref_count e - 1) = e').
      { rewrite He1. unfold set_ref, e'. simpl. f_equal. rewrite Z.mod_small by lia. lia. }
      rewrite Eset. change (ps_ref_count e') with (Z.max 0 (ps_ref_count e - 1)).
      change (ps_ppage_id e') with p.
      assert (Hnz : 0 < pinned_size c).
      { rewrite (ci_pinned _ _ _ Hi), (pin_count_delete _ v e Hm), Hpd. pose proof (pin_count_nonneg (delete v (pmap c))).
        unfold zlen. simpl. lia. }
      destruct (Z.eqb_spec (Z.max 0 (ps_ref_count e - 1)) 0) as [Hm0|Hm0].
      + destruct (rep_push_spec _ _ p (ci_rep _ _ _ Hi)) as (r & -> & ? & ?); [lia|].
        eexists. split; [done|]. simpl. rewrite w64_small by lia. split_and!; try done. lia.
      + exists c. split_and!; try done; [apply Hi| |simpl; lia].
        apply set_eq. intros q. rewrite elem_of_difference, elem_of_singleton.
        split; [|tauto]. intros Hq. split; [done|]. intros ->. by apply Hmem in Hq.
    - assert (Hz0 : ps_ref_count e = 0) by lia.
      exists c. split; [rewrite He1; unfold e'; by rewrite Hz0|]. rewrite Hz0 in Hmem. rewrite Hz0. simpl.
      split_and!; try done; [apply Hi| |lia].
      assert (p ∈ rep_members (replacement c)) by (by apply Hmem). set_solver. }
  destruct Hstep as (c1 & -> & E1 & E2 & E3 & E4 & E5 & E6 & E7 & E8 & E9). cbn [mbind result_bind].
  pose proof (ptm_range compact c fl v e Hi Hm) as Hv.
  destruct (pt_put_spec (compact:=compact) (max_vpage_id c) (page_table c) v e' (ci_pt _ _ _ Hi) Hv Hwf' eq_refl) as (t & Ht & Hpt & Hmt).
  rewrite <- E6 in Ht. rewrite (put_eq c1 t _ v e' Ht). cbn [mbind result_bind].
  assert (Hm' : pmap (with_page_table c1 t) = <[v := e']> (pmap c)) by done.
  assert (Hch : entry_change compact c (with_page_table c1 t) v e e') by (by split).
  eexists _, _. split; [done|]. split; [|split; [done|split; [done|simpl; by rewrite Hm', lookup_insert_eq]]].
  split; [by apply (entry_change_inv compact c _ fl v e e')|].
  apply (entry_change_data mem wc wc' (world s) c _ fl v e e' Hi Hd Hch); [done|done|].
  simpl. intros [Hnw Hdr]%orb_false_iff Hwc0. apply (di_clean _ _ _ _ _ Hd v e Hres Hdr).
  by rewrite <- Hwr.
Qed.
(** The order of the requests in progress does not matter. *)
Lemma inv_perm mem wc s fl fl' : fl ≡ₚ fl' → inv mem wc s fl → inv mem wc s fl'.
Proof.
  intros Hp [Hi Hd].
  assert (Hin : ∀ f, f ∈ fl' ↔ f ∈ fl) by (intros f; by rewrite Hp).
  assert (Hpp : f_ppage <$> fl' ≡ₚ f_ppage <$> fl) by (by rewrite Hp).
  assert (Hpb : mjoin (f_busy <$> fl') ≡ₚ mjoin (f_busy <$> fl)) by (by rewrite Hp).
  split.
  - destruct Hi. split; try done.
    + intros v s0 Hr. destruct (ci_resident v s0 Hr) as (?&?&?). split; [done|]. split; [done|]. by rewrite Hpp.
    + intros v s0 ? ?. destruct (ci_busy v s0) as (f & ? & ?); [done..|]. exists f. by rewrite Hin.
    + intros f Hf. apply ci_flight. by apply Hin.
    + by rewrite Hpp. + by rewrite Hpb.
    + unfold zlen. by rewrite <- Hp.
    + intros p Hpr. rewrite Hpp. by apply ci_used.
  - destruct Hd. split; try done.
    + intros v p Hf. apply (di_load0 v p). by apply Hin.
    + intros v pre p d Hf. apply (di_evict0 v pre p d). by apply Hin.
    + intros u Hu. destruct (di_writing0 u Hu) as (v & p & Hf). exists v, p. by apply Hin.
    + intros q Hq. destruct (di_loading0 q Hq) as (v & Hf). exists v. by apply Hin.
Qed.

(** C15: pinning refines reading a flat memory.  In every reachable situation,
    with any requests in progress, processing a pin of [v] from its first phase
    returns (no assertion fails, nothing is read out of range, the loop ends)
    and: on a resident page it succeeds at once; on a page another request is
    moving it changes nothing and waits; on an absent page it reports failure
    exactly when every physical page is pinned, and otherwise either succeeds or
    waits for its I/O.  Whenever it succeeds the physical page returned holds
    the current contents of [v].  The invariant is kept. *)
Theorem pin_refines_memory mem wc s fl x :
  let v := c_vpage_id x in
  inv mem wc s fl → c_type x = KPin → c_phase x = Begin → c_pre_external_state x = None →
  0 ≤ v < max_vpage_id (the_cache s) →
  (∀ e, resident compact (the_cache s) v e → ps_ref_count e + 1 < 2 ^ ref_width compact) →
  ∃ s' x', process s x = Ok (s', x') ∧
    match pmap (the_cache s) !! v with
    | Some e =>
        if ps_busy e then s' = s ∧ c_phase x' = Begin
        else inv mem wc s' fl ∧ pinned mem s' x' v
    | None =>
        if full_pin (the_cache s) then s' = s ∧ c_phase x' = End_ ∧ c_ppage_id x' = EMPTY_PPAGE_ID
        else progress mem wc s' x' v fl
    end.
Proof.
  intros v Hinv Hty Hph Hpe Hv Href. pose proof Hinv as [Hi Hd].
  unfold SingleThreadCache.process. rewrite process_fuel_S.
  unfold SingleThreadCache.one_turn at 1. rewrite Hph. unfold begin_turn. fold v.
  rewrite (pt_get_spec (compact:=compact) _ _ _ (ci_pt _ _ _ Hi) Hv). cbn [mbind result_bind].
  change (pt_map (page_table (the_cache s))) with (pmap (the_cache s)).
  destruct (pmap (the_cache s) !! v) as [e|] eqn:He.
  - destruct (ci_entry _ _ _ Hi v e He) as (Hex & _ & _). rewrite Hex. cbn [negb].
    destruct (ps_busy e) eqn:Hb; [by eexists _, _|].
    cbn [mbind result_bind]. rewrite process_fuel_S.
    unfold SingleThreadCache.one_turn at 1, initing_turn.
    cbn [c_phase c_type c_page_table_state set_phase set_state]. rewrite Hty.
    destruct (pin_hit_run mem wc s fl (set_phase (set_state x (Some e)) Initing) e)
      as (s' & x' & -> & Hinv' & Hp & _); [done|done|by apply Href|].
    by exists s', x'.
  - cbn [mbind result_bind].
    destruct (pin_miss_run mem wc s fl (set_phase (set_state x None) Initing)) as (s' & x' & -> & Hr & _);
      [done..|]. exists s', x'. split; [done|]. by destruct (full_pin (the_cache s)).
Qed.

(** *** What a poll calls *)
Lemma call_evict_world (s s' : sys_t) (x x' : ctx) : call_evict evict_func s x = Ok (s', x') → ∃ ext ext' b,
  evict_func (world s) (c_external_context x) (c_pre_vpage_id x) (c_ppage_id x) (c_dirty x) ext = (world s', c_external_context x', ext', b) ∧
  c_processing x' = negb b ∧ c_phase x' = c_phase x ∧ c_vpage_id x' = c_vpage_id x ∧ c_ppage_id x' = c_ppage_id x.
Proof.
  unfold call_evict. intros (st & _ & Hr)%bind_Ok. destruct (evict_func _ _ _ _ _ _) as [[[w e] ext'] b] eqn:E.
  apply bind_Ok in Hr as (sts & _ & [= <- <-]). by exists (s_external st), ext', b.
Qed.

Lemma call_load_world (s s' : sys_t) (x x' : ctx) : call_load load_func s x = Ok (s', x') → ∃ ext ext' b,
  load_func (world s) (c_external_context x) (c_vpage_id x) (c_ppage_id x) ext = (world s', c_external_context x', ext', b) ∧
  c_processing x' = negb b ∧ c_phase x' = c_phase x.
Proof.
  unfold call_load. destruct (c_external_state x) as [p|]; [|done]. intros (st & _ & Hr)%bind_Ok.
  destruct (load_func _ _ _ _ _) as [[[w e] ext'] b] eqn:E. apply bind_Ok in Hr as (sts & _ & [= <- <-]). by exists (s_external st), ext', b.
Qed.

(** A request in [x'] has the answer [b] of the load function, and its context. *)
Definition has_answer (x' : ctx) (e : EC) (b : bool) : Prop :=
  c_phase x' = (if b then End_ else Loading) ∧ c_external_context x' = e.

(** A poll of a waiting request calls the function it waits for, for the page and
    the frame of the request; when the eviction is done it calls the load
    function too, for the first time. *)
Inductive polls (s : sys_t) (x : ctx) (s' : sys_t) (x' : ctx) : Prop :=
  | polls_evict ext ext' : c_phase x = Evicting → c_phase x' = Evicting →
      evict_func (world s) (c_external_context x) (c_pre_vpage_id x) (c_ppage_id x) (c_dirty x) ext = (world s', c_external_context x', ext', false) →
      polls s x s' x'
  | polls_load ext ext' e b : c_phase x = Loading → has_answer x' e b →
      load_func (world s) (c_external_context x) (c_vpage_id x) (c_ppage_id x) ext = (world s', e, ext', b) → polls s x s' x'
  | polls_both w e0 ext0 ext0' ext ext' e b : c_phase x = Evicting → has_answer x' e b →
      evict_func (world s) (c_external_context x) (c_pre_vpage_id x) (c_ppage_id x) (c_dirty x) ext0 = (w, e0, ext0', true) →
      load_func w ec0 (c_vpage_id x) (c_ppage_id x) ext = (world s', e, ext', b) → polls s x s' x'.

(** The rest of a poll, when the load function has been called. *)
Lemma answer_run n s x s' x' (b : bool) : c_phase x = Loading → c_processing x = negb b →
  (if b then process_fuel (S n) s x = Ok (s', x') else s' = s ∧ x' = x) → world s' = world s ∧ has_answer x' (c_external_context x) b.
Proof.
  intros Hph Hpr Hr. unfold has_answer. destruct b; [|by destruct Hr as [-> ->]]. rewrite process_fuel_S in Hr.
  unfold SingleThreadCache.one_turn, loading_turn in Hr. cbn [negb] in Hpr. rewrite Hph, Hpr in Hr. apply bind_Ok in Hr as ([[s1 x1] b1] & E & Hr).
  follow E; try done; subst; by injection Hr as <- <-.
Qed.

Lemma turn_continues n s x s' x' : process_fuel (S n) s x = Ok (s', x') → ∃ s1 x1 (b : bool),
  one_turn s x = Ok (s1, x1, b) ∧ if b then process_fuel n s1 x1 = Ok (s', x') else s' = s1 ∧ x' = x1.
Proof. rewrite process_fuel_S. intros ([[s1 x1] b] & E & Hr)%bind_Ok. exists s1, x1, b. split; [done|]. destruct b; [done|]. by injection Hr as <- <-. Qed.

Lemma evicting_polls n s x s' x' : c_phase x = Evicting → c_processing x = true → process_fuel (S (S (S n))) s x = Ok (s', x') → polls s x s' x'.
Proof.
  intros Hph Hpr (s1 & x1 & b & E & Hr)%turn_continues. unfold SingleThreadCache.one_turn, evicting_turn in E. rewrite Hph, Hpr in E.
  apply bind_Ok in E as ([s2 x2] & E & [= <- <- <-]). apply call_evict_world in E as (ext & ext' & b0 & E & Hp & Hph2 & Hv & Hpp). rewrite Hp in Hr.
  destruct b0; cbn [negb] in Hp, Hr; [|destruct Hr as [-> ->]; eapply polls_evict; [done|congruence|exact E]].
  apply turn_continues in Hr as (s3 & x3 & b3 & E3 & Hr). unfold SingleThreadCache.one_turn, evicting_turn in E3. rewrite Hph2, Hph, Hp in E3.
  apply bind_Ok in E3 as (c1 & _ & E3). apply bind_Ok in E3 as (c2 & _ & E3). apply bind_Ok in E3 as (c3 & _ & E3).
  apply bind_Ok in E3 as (st & _ & E3). apply bind_Ok in E3 as (sts & _ & E3). apply bind_Ok in E3 as ([s4 x4] & E3 & [= <- <- <-]).
  apply call_load_world in E3 as (ext3 & ext3' & b3 & E3 & Hp3 & Hph3). cbn in E3, Hph3. rewrite Hv, Hpp in E3. rewrite Hp3, negb_involutive in Hr.
  destruct (answer_run n s4 x4 s' x' b3) as [Ew Ha]; [done|done|by destruct b3|]. rewrite <- Ew in E3. by eapply polls_both.
Qed.

Lemma loading_polls n s x s' x' : c_phase x = Loading → c_processing x = true → process_fuel (S (S n)) s x = Ok (s', x') → polls s x s' x'.
Proof.
  intros Hph Hpr (s1 & x1 & b & E & Hr)%turn_continues. unfold SingleThreadCache.one_turn, loading_turn in E. rewrite Hph, Hpr in E.
  apply bind_Ok in E as ([s2 x2] & E & [= <- <- <-]). apply call_load_world in E as (ext & ext' & b0 & E & Hp & Hph2). rewrite Hp, negb_involutive in Hr.
  destruct (answer_run n s2 x2 s' x' b0) as [Ew Ha]; [congruence|done|by destruct b0|]. rewrite <- Ew in E. by eapply polls_load.
Qed.

(** C16: when a request that waits for I/O is processed again, whatever the other
    requests did in between, the call returns.  It calls the function the request
    waits for, for its page and its frame, and acts on the answer: while an
    eviction is not done the request waits on; when it is done the load starts in
    the same call; when a load is done the page is pinned with its current
    contents. *)
Theorem resume_refines_memory mem wc s fl fl' x f :
  inv mem wc s fl → fl ≡ₚ f :: fl' → waits (the_cache s) x f →
  ∃ s' x', process s x = Ok (s', x') ∧ polls s x s' x' ∧ progress mem wc s' x' (f_vpage f) fl'.
Proof.
  intros Hinv Hperm (Hty & Hpr & Hpf & Hf). apply (inv_perm _ _ _ _ _ Hperm) in Hinv.
  unfold SingleThreadCache.process. destruct f as [|v pre p d|v p]; [done| |].
  - destruct Hf as (Hph & -> & -> & -> & -> & Hpre).
    destruct (evicting_waits_run mem wc s fl' x) as (s' & x' & Hrun & Hp & _); [done..|].
    apply (process_fuel_mono _ 5) in Hrun; [|lia]. exists s', x'. split; [done|]. split; [by apply (evicting_polls 2)|done].
  - destruct Hf as (Hph & -> & -> & Hst & Hes).
    destruct (loading_waits_run mem wc s fl' x) as (s' & x' & Hrun & Hp & _); [done..|].
    apply (process_fuel_mono _ 5) in Hrun; [|lia]. exists s', x'. split; [done|]. split; [by apply (loading_polls 3)|done].
Qed.

(** C22: unpinning.  An unpin of a resident page returns at once: it takes one
    pin off if there is one (and reports whether there was), marks the page
    dirty if it was written, and keeps the invariant; a reader may only give up
    a pin that no writer holds.  On a page that is being moved the request
    waits; on an absent page it reports [false] and changes nothing. *)
Theorem unpin_refines_memory mem wc wc' s fl x :
  let v := c_vpage_id x in
  inv mem wc s fl → c_type x = KUnPin → c_phase x = Begin → 0 ≤ v < max_vpage_id (the_cache s) →
  (∀ u, u ≠ v → wc' u = wc u) → (c_is_write x = false → wc' v = wc v) →
  (∀ e, resident compact (the_cache s) v e → 0 ≤ wc' v ≤ Z.max 0 (ps_ref_count e - 1)) →
  ∃ s' x', process s x = Ok (s', x') ∧
    match pmap (the_cache s) !! v with
    | Some e =>
        if ps_busy e then s' = s ∧ c_phase x' = Begin
        else inv mem wc' s' fl ∧ c_phase x' = End_ ∧ c_is_unpin x' = (0 <? ps_ref_count e) ∧
          pmap (the_cache s') !! v =
            Some (mk_ps (ps_ppage_id e) true false (c_is_write x || ps_dirty e) (Z.max 0 (ps_ref_count e - 1)))
    | None => s' = s ∧ c_phase x' = End_ ∧ c_is_unpin x' = false
    end.
Proof.
  intros v Hinv Hty Hph Hv Hwo Hwr Hwc. pose proof Hinv as [Hi Hd].
  unfold SingleThreadCache.process. rewrite process_fuel_S.
  unfold SingleThreadCache.one_turn at 1. rewrite Hph. unfold begin_turn. fold v.
  rewrite (pt_get_spec (compact:=compact) _ _ _ (ci_pt _ _ _ Hi) Hv). cbn [mbind result_bind].
  change (pt_map (page_table (the_cache s))) with (pmap (the_cache s)).
  destruct (pmap (the_cache s) !! v) as [e|] eqn:He.
  - destruct (ci_entry _ _ _ Hi v e He) as (Hex & _ & _). rewrite Hex. cbn [negb].
    destruct (ps_busy e) eqn:Hb; [by eexists _, _|].
    cbn [mbind result_bind]. rewrite process_fuel_S.
    unfold SingleThreadCache.one_turn at 1, initing_turn.
    cbn [c_phase c_type c_page_table_state set_phase set_state]. rewrite Hty.
    destruct (unpin_run mem wc wc' s fl (set_phase (set_state x (Some e)) Initing) e)
      as (s' & x' & -> & Hinv' & Hp & Hu & Hm); [done|done|done|done|by apply Hwc|done|].
    exists s', x'. split; [done|]. by split_and!.
  - cbn [mbind result_bind]. rewrite process_fuel_S.
    unfold SingleThreadCache.one_turn at 1, initing_turn.
    cbn [c_phase c_type c_page_table_state set_phase set_state]. rewrite Hty.
    unfold unpin_turn. cbn [c_page_table_state set_phase set_state mbind result_bind].
    eexists _, _. by split.
Qed.

(** A user that holds a pin of [v] for writing stores [d] through the pointer. *)
Lemma write_keeps_inv mem wc s fl v e w' d :
  inv mem wc s fl → resident compact (the_cache s) v e → 0 < wc v →
  frame_of w' (ps_ppage_id e) = d →
  (∀ q, q ≠ ps_ppage_id e → frame_of w' q = frame_of (world s) q) →
  (∀ u, disk_of w' u = disk_of (world s) u) → loading w' = loading (world s) → writing w' = writing (world s) →
  inv (λ u, if decide (u = v) then d else mem u) wc (mk_sys w' (the_cache s)) fl.
Proof.
  intros [Hi Hd] Hres Hwc Hfm Hfo Hdk Hl Hw. split; [done|]. cbn [world the_cache].
  assert (Hbusy : ∀ f u, f ∈ fl → u ∈ f_busy f → u ≠ v).
  { intros f u Hf Hu ->. by eapply (flight_busy_pages compact (the_cache s)). }
  assert (Hpp : ∀ f, f ∈ fl → f_ppage f ≠ ps_ppage_id e).
  { intros f Hf E. by eapply (resident_flight (the_cache s) fl Hi v e f). }
  split; rewrite ?Hl, ?Hw; try apply Hd.
  - intros u r Hr. destruct (di_resident _ _ _ _ _ Hd u r Hr) as [Hm Hn]. rewrite ?Hl. split; [|done].
    case_decide as Hu.
    + subst u. destruct Hr, Hres. congruence.
    + rewrite Hfo; [done|]. intros E. apply Hu. by eapply (resident_inj compact (the_cache s) fl).
  - intros u r Hr Hdr Hwu. rewrite Hdk. rewrite decide_False by (intros ->; lia). by eapply di_clean.
  - intros u Hu Hn. rewrite Hdk. rewrite decide_False by (intros ->; destruct Hres; congruence). by apply (di_absent _ _ _ _ _ Hd).
  - intros u p Hf. rewrite Hdk. rewrite decide_False; [by eapply di_load|]. apply (Hbusy _ _ Hf). simpl. set_solver.
  - intros u pre p d' Hf. destruct (di_evict _ _ _ _ _ Hd _ _ _ _ Hf) as (? & ? & Hdata).
    pose proof (Hbusy _ u Hf ltac:(simpl; set_solver)). pose proof (Hbusy _ pre Hf ltac:(simpl; set_solver)).
    rewrite !Hdk, !decide_False by done. split; [done|]. split; [done|].
    destruct d'; [|done]. rewrite Hfo; [done|]. by apply (Hpp _ Hf).
Qed.
(** A user that holds a pin says that it may write. *)
Lemma writer_keeps_inv mem wc s fl v e : inv mem wc s fl → resident compact (the_cache s) v e → wc v < ps_ref_count e →
  inv mem (λ u, if decide (u = v) then wc u + 1 else wc u) s fl.
Proof.
  intros [Hi Hd] Hv Hlt. split; [done|]. pose proof (di_wc _ _ _ _ _ Hd v e Hv) as Hw0.
  assert (∀ u s0, resident compact (the_cache s) u s0 → u = v → s0 = e) as Hsame by (intros u s0 [E1 _] ->; destruct Hv as [E2 _]; congruence).
  split; try apply Hd.
  - intros u s0 Hu Hdr. case_decide as E; [subst; lia|]. by apply (di_clean _ _ _ _ _ Hd u s0).
  - intros u s0 Hu. pose proof (di_wc _ _ _ _ _ Hd u s0 Hu). case_decide as E; [|done]. rewrite (Hsame u s0 Hu E) in *. subst u. lia.
  - intros u Hu. rewrite decide_False; [by apply (di_wc_out _ _ _ _ _ Hd)|]. intros ->. by apply (Hu e).
Qed.
End spec.

(** ** An instance

    Two physical pages, ten virtual ones.  Evictions are synchronous; a load is
    started by one call and completed by the next call for the same physical
    page. *)
Record toy_world := mk_toy { toy_frames : Z → Z; toy_disk : Z → Z; toy_pending : option Z }.

Definition upd (f : Z → Z) (k x : Z) : Z → Z := λ i, if decide (i = k) then x else f i.

Definition toy_evict (w : toy_world) (e : ()) (v p : Z) (d : bool) (x : ()) : toy_world * () * () * bool :=
  (mk_toy (toy_frames w) (if d then upd (toy_disk w) v (toy_frames w p) else toy_disk w) (toy_pending w),
   tt, tt, true).

Definition toy_load (w : toy_world) (e : ()) (v p : Z) (x : ()) : toy_world * () * () * bool :=
  if decide (toy_pending w = Some p)
  then (mk_toy (upd (toy_frames w) p (toy_disk w v)) (toy_disk w) None, tt, tt, true)
  else (mk_toy (toy_frames w) (toy_disk w) (Some p), tt, tt, false).

Definition toy_loading (w : toy_world) : gset Z :=
  match toy_pending w with Some p => {[p]} | None => ∅ end.

#[export] Program Instance toy_io : IoSpec Z toy_evict toy_load := {|
  frame_of := toy_frames;
  disk_of := toy_disk;
  loading := toy_loading;
  writing _ := ∅;
|}.
Next Obligation.
  intros w e v p d ext w' e' ext' b [= <- _ _ <-] Hp. simpl. split_and!; try done.
  - intros u Hu _. destruct d; [|done]. unfold upd. by rewrite decide_False.
  - destruct d; [|done]. intros _. unfold upd. by rewrite decide_True.
Qed.
Next Obligation.
  intros w e v p ext w' e' ext' b Hl _. unfold toy_load in Hl.
  destruct (decide (toy_pending w = Some p)) as [E|E]; injection Hl as <- _ _ <-; unfold toy_loading; simpl; split_and!; try done.
  - intros q Hq _. unfold upd. by rewrite decide_False.
  - intros _. unfold upd. by rewrite decide_True.
  - apply union_subseteq_l.
Qed.

Definition toy_cache : cache Direct.t LRU.t () :=
  @init _ (Direct.direct_page_table false) _ _ _ tt 10 2.
Definition toy_sys : sys Direct.t LRU.t toy_world () :=
  mk_sys (mk_toy (λ _, 0) (λ v, v * 100) None) toy_cache.
Definition toy_context (k : request_kind) (ph : phase) (v : Z) : context () () :=
  mk_context k ph false false false false v 0 0 0 None None None tt.

Lemma toy_inv : inv (H0:=Direct.direct_spec false) false toy_evict toy_load (λ v, v * 100) (λ _, 0) toy_sys [].
Proof.
  assert (Hn : ∀ v s, ¬ resident (H0:=Direct.direct_spec false) false toy_cache v s).
  { intros v s [Hm _]. change (ptm (H0:=Direct.direct_spec false) false toy_cache) with (Direct.to_map false (Direct.init 10 2)) in Hm.
    apply Direct.to_map_lookup in Hm as [Hg He]. simpl in Hg. apply (zget_replicate_inv 10 empty_state) in Hg as ->. done. }
  split.
  - apply (init_cache_inv (H0:=Direct.direct_spec false) false tt 10 2); lia.
  - split; try done.
    + intros v s Hr. by destruct (Hn v s).
    + intros v s Hr. by destruct (Hn v s).
    + intros v pre p d Hf. by apply elem_of_nil in Hf.
Qed.

Definition toy_process : sys Direct.t LRU.t toy_world () → context () () → result (sys Direct.t LRU.t toy_world () * context () ()) :=
  @process false _ (Direct.direct_page_table false) _ _ _ _ _ tt tt toy_evict toy_load.

(** A pin of page 3: it is absent and there is room, so it succeeds or waits. *)
Lemma pin_refines_memory_witness :
  ∃ s' x', toy_process toy_sys (toy_context KPin Begin 3) = Ok (s', x') ∧
    progress (H0:=Direct.direct_spec false) false toy_evict toy_load (λ v, v * 100) (λ _, 0) s' x' 3 [].
Proof.
  destruct (pin_refines_memory (H0:=Direct.direct_spec false) false tt tt toy_evict toy_load _ _ toy_sys []
              (toy_context KPin Begin 3) toy_inv) as (s' & x' & Hrun & Hp); try done.
  - intros e [Hm _]. discriminate Hm.
  - exists s', x'. split; [exact Hrun|]. exact Hp.
Defined.

(** The load of page 3 was started; processing the request again completes it. *)
Definition toy_start : result (sys Direct.t LRU.t toy_world () * context () ()) :=
  @process_fuel false _ (Direct.direct_page_table false) _ _ _ _ _ tt tt toy_evict toy_load 4 toy_sys (toy_context KPin Initing 3).

Lemma toy_waiting : ∃ (s : sys Direct.t LRU.t toy_world ()) (x : context () ()), toy_start = Ok (s, x) ∧ inv (H0:=Direct.direct_spec false) false toy_evict toy_load (λ v, v * 100) (λ _, 0) s [FLoad 3 0] ∧
  waits (the_cache s) x (FLoad 3 0).
Proof.
  destruct (pin_miss_run (H0:=Direct.direct_spec false) false tt tt toy_evict toy_load _ _ toy_sys []
              (toy_context KPin Initing 3) toy_inv) as (s & x & Hrun & Hp & _); try done.
  pose proof (f_equal (λ r, match r with
    | Ok (_, x) => (c_phase x, c_vpage_id x, c_ppage_id x) | Err _ => (End_, 0, 0) end) Hrun) as E.
  vm_compute in E. injection E as Ep Ev Epp. symmetry in Ep.
  change (c_phase x = Loading) in Ep. change (3 = c_vpage_id x) in Ev. change (0 = c_ppage_id x) in Epp.
  destruct Hp as [[_ [Hend _]]|(f & Hi & Hw & Hv)]; [congruence|].
  exists s, x. split; [exact Hrun|]. assert (f = FLoad 3 0) as ->; [|done].
  destruct Hw as (_ & _ & _ & Hf). destruct f as [|v pre p d|v p]; [done| |].
  - destruct Hf as (? & _). congruence.
  - destruct Hf as (_ & -> & -> & _). congruence.
Qed.

Lemma resume_refines_memory_witness : ∃ s x s' x',
  toy_process s x = Ok (s', x') ∧ polls tt toy_evict toy_load s x s' x' ∧
  progress (H0:=Direct.direct_spec false) false toy_evict toy_load (λ v, v * 100) (λ _, 0) s' x' 3 [].
Proof.
  destruct toy_waiting as (s & x & _ & Hi & Hw). exists s, x.
  exact (resume_refines_memory (H0:=Direct.direct_spec false) false tt tt toy_evict toy_load _ _ s [FLoad 3 0] []
           x (FLoad 3 0) Hi (Permutation_refl _) Hw).
Defined.

(** When it is done page 3 is pinned once, and clean. *)
Definition toy_page (s : sys Direct.t LRU.t toy_world ()) : option page_state := ptm (H0:=Direct.direct_spec false) false (the_cache s) !! 3.

Lemma toy_pinned : ∃ s, inv (H0:=Direct.direct_spec false) false toy_evict toy_load (λ v, v * 100) (λ _, 0) s [] ∧
  toy_page s = Some (mk_ps 0 true false false 1) ∧ max_vpage_id (the_cache s) = 10.
Proof.
  destruct toy_waiting as (s & x & Hs & Hi & Hw). destruct Hw as (Hty & Hpr & Hpf & Hph & Ev & Ep & Hst & Hes).
  rewrite Ep in Hst, Hes. assert (FLoad 3 0 = FLoad (c_vpage_id x) (c_ppage_id x)) as Ef by congruence. rewrite Ef in Hi.
  destruct (loading_waits_run (H0:=Direct.direct_spec false) false tt tt toy_evict toy_load _ _ s [] x Hi) as (s' & x' & Hrun & Hp & _); try done.
  assert (match toy_start with Ok (s, x) => match @process_fuel false _ (Direct.direct_page_table false) _ _ _ _ _ tt tt toy_evict toy_load 2 s x with
    Ok (s', x') => c_phase x' = End_ ∧ toy_page s' = Some (mk_ps 0 true false false 1) ∧ max_vpage_id (the_cache s') = 10 | Err _ => False end | Err _ => False end)
    as Hall by (vm_compute; done).
  rewrite Hs, Hrun in Hall. exists s'. destruct Hall as (He & Hpage & Hmax). split; [|done].
  destruct Hp as [[Hi' _]|(f & _ & (_ & _ & _ & Hf) & _)]; [exact Hi'|]. destruct f; [done| |]; destruct Hf as (E & _); congruence.
Qed.

(** The holder of the pin writes to page 3 and unpins it. *)
Definition toy_stored (s : sys Direct.t LRU.t toy_world ()) : sys Direct.t LRU.t toy_world () :=
  mk_sys (mk_toy (upd (toy_frames (world s)) 0 777) (toy_disk (world s)) (toy_pending (world s))) (the_cache s).
Definition toy_memory (v : Z) : Z := if decide (v = 3) then 777 else v * 100.
Definition toy_unpin : context () () := mk_context KUnPin Begin false false true false 3 0 0 0 None None None tt.

Lemma unpin_refines_memory_witness : ∃ s s' x', toy_page s = Some (mk_ps 0 true false false 1) ∧ toy_process s toy_unpin = Ok (s', x') ∧
  inv (H0:=Direct.direct_spec false) false toy_evict toy_load toy_memory (λ _, 0) s' [] ∧ c_is_unpin x' = true ∧ toy_page s' = Some (mk_ps 0 true false true 0).
Proof.
  destruct toy_pinned as (s & Hi & Hpage & Hmax). assert (resident (H0:=Direct.direct_spec false) false (the_cache s) 3 (mk_ps 0 true false false 1)) as Hr by done.
  pose proof (writer_keeps_inv (H0:=Direct.direct_spec false) false toy_evict toy_load _ _ s [] 3 _ Hi Hr eq_refl) as Hi1. clear Hi. rename Hi1 into Hi.
  apply (write_keeps_inv (H0:=Direct.direct_spec false) false toy_evict toy_load _ _ s [] 3 (mk_ps 0 true false false 1) (world (toy_stored s)) 777) in Hi;
    [|done|done|done|by intros q Hq; cbn; unfold upd; rewrite decide_False|done|done|done].
  destruct (unpin_refines_memory (H0:=Direct.direct_spec false) false tt tt toy_evict toy_load toy_memory _ (λ _, 0) (toy_stored s) [] toy_unpin Hi)
    as (s' & x' & Hrun & Hp); [done|done|cbn; rewrite Hmax; done|..].
  - intros u Hu. cbn in Hu. by rewrite decide_False.
  - done.
  - intros e [He _]. change (toy_page s = Some e) in He. rewrite Hpage in He. injection He as <-. done.
  - exists (toy_stored s), s', x'. split; [exact Hpage|]. split; [exact Hrun|]. cbn [the_cache toy_stored c_vpage_id toy_unpin] in Hp.
    fold (toy_page s) in Hp. rewrite Hpage in Hp. cbn in Hp. destruct Hp as (Hi' & _ & Hu & Hpage'). split; [exact Hi'|]. split; [exact Hu|exact Hpage'].
Defined.

(** ** Flushing with slow evictions

    An eviction takes several calls: [slow_need v] of them for page [v]. *)
Record slow_world := mk_slow { slow_frames : Z → Z; slow_disk : Z → Z; slow_calls : Z → Z }.

Definition slow_need (v : Z) : Z := if v =? 1 then 4 else 2.

Definition slow_evict (w : slow_world) (e : ()) (v p : Z) (d : bool) (x : ()) : slow_world * () * () * bool :=
  let n := slow_calls w v + 1 in
  if slow_need v <=? n
  then (mk_slow (slow_frames w) (if d then upd (slow_disk w) v (slow_frames w p) else slow_disk w)
          (upd (slow_calls w) v 0), tt, tt, true)
  else (mk_slow (slow_frames w) (slow_disk w) (upd (slow_calls w) v n), tt, tt, false).

Definition slow_load (w : slow_world) (e : ()) (v p : Z) (x : ()) : slow_world * () * () * bool :=
  (mk_slow (upd (slow_frames w) p (slow_disk w v)) (slow_disk w) (slow_calls w), tt, tt, true).

Definition slow_sys_t := sys Direct.t LRU.t slow_world ().

Definition slow_process : slow_sys_t → context () () → result (slow_sys_t * context () ()) :=
  @process false _ (Direct.direct_page_table false) _ _ _ _ _ tt tt slow_evict slow_load.
Definition slow_flush (rounds : nat) (s : slow_sys_t) : result slow_sys_t :=
  @flush _ (Direct.direct_page_table false) _ _ _ _ _ tt tt slow_evict rounds s.

(** Pin page [v], store [x] through the pointer, unpin it as written. *)
Definition slow_store (s : slow_sys_t) (v x : Z) : result slow_sys_t :=
  '(s, c) ← slow_process s (toy_context KPin Begin v);
  let w := mk_slow (upd (slow_frames (world s)) (c_ppage_id c) x) (slow_disk (world s)) (slow_calls (world s)) in
  '(s, _) ← slow_process (mk_sys w (the_cache s))
             (mk_context KUnPin Begin false false true false v 0 0 0 None None None tt);
  Ok s.

Definition slow_start : slow_sys_t := mk_sys (mk_slow (λ _, 0) (λ _, 0) (λ _, 0)) toy_cache.

Definition slow_scenario : result slow_sys_t :=
  s ← slow_store slow_start 1 11;
  s ← slow_store s 2 22;
  slow_flush 100 s.

