(* ===== verification/SharedSingleThreadCache.v ===== *)
(** * The server side of the shared cache

    [class SharedSingleThreadCache] of
    [include/shared_single_thread_cache.hpp]: the state machine of
    [SingleThreadCache.v] over the compact hash page table, whose headers the
    clients pin and unpin directly.  The server learns of direct pins later,
    through [notify_pin] and [notify_unpin], so a page in the replacement policy
    may be pinned when it is chosen: the eviction loop tries the next one. *)
From S2P Require Import Prelude Replacement PteHeader CompactHashPageTable.
From stdpp Require Import gmap.

Open Scope Z_scope.

Inductive request_kind := KPin | KUnPin.
Inductive phase := Begin | Initing | Evicting | Loading | End_.

Definition EMPTY_VPAGE_ID : Z := MAX64.
Definition NO_PPAGE : Z := MAX64.

Section cache.
Context {R : Type} `{Replacement R}.
Context {W EC ES : Type} (ec0 : EC) (es0 : ES).
(** The eviction and load functions of the client class; they may throw. *)
Context (evict_func : W → EC → Z → Z → bool → ES → result (W * EC * ES * bool)).
Context (load_func : W → EC → Z → Z → ES → result (W * EC * ES * bool)).

(** ** State *)
Record state_type := mk_state { s_vpage_id : Z; s_external : ES }.

Record cache := mk_cache {
  max_vpage_id : Z;
  max_ppage_id : Z;
  page_table : table;
  pinned_size : Z;
  cur_id : Z;
  recycle_pool : list Z;
  states : list state_type;
  replacement : R;
}.

(** [hint] and [pre_hint] are lines of the page table, [external_state] the
    external state of a physical page. *)
Record context := mk_context {
  c_type : request_kind;
  c_phase : phase;
  c_processing : bool;
  c_dirty : bool;
  c_is_write : bool;
  c_is_unpin : bool;
  c_vpage_id : Z;
  c_pre_vpage_id : Z;
  c_ppage_id : Z;
  c_prefetch_ppage_id : Z;
  c_hint : option Z;
  c_pre_hint : option Z;
  c_pte : unpacked_pte;
  c_external_state : option Z;
  c_pre_external_state : option ES;
  c_external_context : EC;
}.

Record sys := mk_sys { world : W; the_cache : cache }.

Definition with_page_table (c : cache) (x : table) : cache :=
  mk_cache (max_vpage_id c) (max_ppage_id c) x (pinned_size c) (cur_id c) (recycle_pool c) (states c) (replacement c).
Definition with_pinned_size (c : cache) (x : Z) : cache :=
  mk_cache (max_vpage_id c) (max_ppage_id c) (page_table c) x (cur_id c) (recycle_pool c) (states c) (replacement c).
Definition with_cur_id (c : cache) (x : Z) : cache :=
  mk_cache (max_vpage_id c) (max_ppage_id c) (page_table c) (pinned_size c) x (recycle_pool c) (states c) (replacement c).
Definition with_recycle_pool (c : cache) (x : list Z) : cache :=
  mk_cache (max_vpage_id c) (max_ppage_id c) (page_table c) (pinned_size c) (cur_id c) x (states c) (replacement c).
Definition with_states (c : cache) (x : list state_type) : cache :=
  mk_cache (max_vpage_id c) (max_ppage_id c) (page_table c) (pinned_size c) (cur_id c) (recycle_pool c) x (replacement c).
Definition with_replacement (c : cache) (x : R) : cache :=
  mk_cache (max_vpage_id c) (max_ppage_id c) (page_table c) (pinned_size c) (cur_id c) (recycle_pool c) (states c) x.
Definition on_cache (s : sys) (f : cache → cache) : sys := mk_sys (world s) (f (the_cache s)).

Definition set_phase (x : context) (p : phase) : context :=
  mk_context (c_type x) p (c_processing x) (c_dirty x) (c_is_write x) (c_is_unpin x) (c_vpage_id x)
    (c_pre_vpage_id x) (c_ppage_id x) (c_prefetch_ppage_id x) (c_hint x) (c_pre_hint x) (c_pte x)
    (c_external_state x) (c_pre_external_state x) (c_external_context x).
Definition set_processing (x : context) (b : bool) : context :=
  mk_context (c_type x) (c_phase x) b (c_dirty x) (c_is_write x) (c_is_unpin x) (c_vpage_id x)
    (c_pre_vpage_id x) (c_ppage_id x) (c_prefetch_ppage_id x) (c_hint x) (c_pre_hint x) (c_pte x)
    (c_external_state x) (c_pre_external_state x) (c_external_context x).
Definition set_is_unpin (x : context) (b : bool) : context :=
  mk_context (c_type x) (c_phase x) (c_processing x) (c_dirty x) (c_is_write x) b (c_vpage_id x)
    (c_pre_vpage_id x) (c_ppage_id x) (c_prefetch_ppage_id x) (c_hint x) (c_pre_hint x) (c_pte x)
    (c_external_state x) (c_pre_external_state x) (c_external_context x).
Definition set_ctx_ppage (x : context) (p : Z) : context :=
  mk_context (c_type x) (c_phase x) (c_processing x) (c_dirty x) (c_is_write x) (c_is_unpin x) (c_vpage_id x)
    (c_pre_vpage_id x) p (c_prefetch_ppage_id x) (c_hint x) (c_pre_hint x) (c_pte x)
    (c_external_state x) (c_pre_external_state x) (c_external_context x).
Definition set_lookup (x : context) (hint : option Z) (e : unpacked_pte) : context :=
  mk_context (c_type x) (c_phase x) (c_processing x) (c_dirty x) (c_is_write x) (c_is_unpin x) (c_vpage_id x)
    (c_pre_vpage_id x) (c_ppage_id x) (c_prefetch_ppage_id x) hint (c_pre_hint x) e
    (c_external_state x) (c_pre_external_state x) (c_external_context x).
Definition set_external_state (x : context) (s : option Z) : context :=
  mk_context (c_type x) (c_phase x) (c_processing x) (c_dirty x) (c_is_write x) (c_is_unpin x) (c_vpage_id x)
    (c_pre_vpage_id x) (c_ppage_id x) (c_prefetch_ppage_id x) (c_hint x) (c_pre_hint x) (c_pte x)
    s (c_pre_external_state x) (c_external_context x).
Definition set_pre_external_state (x : context) (s : option ES) : context :=
  mk_context (c_type x) (c_phase x) (c_processing x) (c_dirty x) (c_is_write x) (c_is_unpin x) (c_vpage_id x)
    (c_pre_vpage_id x) (c_ppage_id x) (c_prefetch_ppage_id x) (c_hint x) (c_pre_hint x) (c_pte x)
    (c_external_state x) s (c_external_context x).
Definition set_external_context (x : context) (e : EC) : context :=
  mk_context (c_type x) (c_phase x) (c_processing x) (c_dirty x) (c_is_write x) (c_is_unpin x) (c_vpage_id x)
    (c_pre_vpage_id x) (c_ppage_id x) (c_prefetch_ppage_id x) (c_hint x) (c_pre_hint x) (c_pte x)
    (c_external_state x) (c_pre_external_state x) e.

(** The victim found by the eviction loop. *)
Definition set_victim (x : context) (p nxt pre : Z) (pre_hint : option Z) (ext : ES) (dirty : bool) : context :=
  mk_context (c_type x) (c_phase x) (c_processing x) dirty (c_is_write x) (c_is_unpin x) (c_vpage_id x)
    pre p nxt (c_hint x) pre_hint (c_pte x) (c_external_state x) (Some ext) (c_external_context x).

(** ** Small operations *)
Definition empty_frame : state_type := mk_state EMPTY_VPAGE_ID es0.

Definition init (max_vpage max_ppage : Z) : cache :=
  mk_cache max_vpage max_ppage (CompactHashPageTable.init max_vpage max_ppage) 0 0 []
    (replicate (Z.to_nat max_ppage) empty_frame) (rep_init max_ppage).

Definition size (c : cache) : Z := w64 (cur_id c - zlen (recycle_pool c)).
Definition is_empty (c : cache) : bool := w64 (cur_id c + zlen (recycle_pool c)) =? max_ppage_id c.
Definition full (c : cache) : bool :=
  (max_ppage_id c <=? cur_id c) && (zlen (recycle_pool c) =? 0).
(** [pinned_size] is an [int64_t] here: direct unpins can be reported before
    the pins they match. *)
Definition full_pin (c : cache) : bool := to_int64 (max_ppage_id c) <=? pinned_size c.
Definition num_pinned (c : cache) : Z := pinned_size c.

Definition alloc (c : cache) : result (cache * Z) :=
  _ ← assert (negb (full c));
  match vec_pop (recycle_pool c) with
  | Some (pool, id) => Ok (with_recycle_pool c pool, id)
  | None =>
      if cur_id c <? max_ppage_id c then Ok (with_cur_id c (w64 (cur_id c + 1)), cur_id c)
      else Ok (c, 0)
  end.

Definition free (c : cache) (ppage : Z) : cache := with_recycle_pool c (recycle_pool c ++ [ppage]).

Definition init_state (c : cache) (ppage : Z) : result cache :=
  st ← awrite (states c) ppage empty_frame; Ok (with_states c st).

(** ** Notifications of direct pins *)
Definition notify_pin (c : cache) (v : Z) : result cache :=
  let c := with_pinned_size c (pinned_size c + 1) in
  e ← get_pte (page_table c) v None;
  if 0 <? p_ref_count e then
    r ← rep_erase (replacement c) (p_ppage_id e); Ok (with_replacement c r)
  else Ok c.

Definition notify_unpin (c : cache) (v : Z) : result cache :=
  let c := with_pinned_size c (pinned_size c - 1) in
  e ← get_pte (page_table c) v None;
  if p_exist e && (p_ref_count e =? 0) then
    r ← rep_push (replacement c) (p_ppage_id e); Ok (with_replacement c r)
  else Ok c.

(** ** [process] *)
Definition turn := (sys * context * bool)%type.

(** [evict_func(..., context.pre_external_state.value())] *)
Definition call_evict (s : sys) (x : context) : result (sys * context) :=
  match c_pre_external_state x with
  | None => Err (Throw "bad_optional_access")
  | Some ext =>
      '(w, e, ext, done_) ←
        evict_func (world s) (c_external_context x) (c_pre_vpage_id x) (c_ppage_id x) (c_dirty x) ext;
      Ok (mk_sys w (the_cache s),
          set_processing (set_pre_external_state (set_external_context x e) (Some ext)) (negb done_))
  end.

Definition call_load (s : sys) (x : context) : result (sys * context) :=
  match c_external_state x with
  | None => Err Undefined
  | Some p =>
      st ← aread (states (the_cache s)) p;
      '(w, e, ext, done_) ←
        load_func (world s) (c_external_context x) (c_vpage_id x) (c_ppage_id x) (s_external st);
      sts ← awrite (states (the_cache s)) p (mk_state (s_vpage_id st) ext);
      Ok (mk_sys w (with_states (the_cache s) sts),
          set_processing (set_external_context x e) (negb done_))
  end.

Definition begin_turn (s : sys) (x : context) : result turn :=
  '(t, i) ← find_or_create_hint (page_table (the_cache s)) (c_vpage_id x);
  let s := on_cache s (λ c, with_page_table c t) in
  e ← get_pte t (c_vpage_id x) (Some i);
  let x := set_lookup x (Some i) e in
  if p_busy e then Ok (s, x, false) else Ok (s, set_phase x Initing, true).

Definition unpin_turn (s : sys) (x : context) : result turn :=
  let c := the_cache s in
  let x := set_is_unpin x false in
  if p_exist (c_pte x) then
    st ← aread (states c) (p_ppage_id (c_pte x));
    _ ← assert (s_vpage_id st =? c_vpage_id x);
    '(t, pre_ref_count) ← CompactHashPageTable.unpin (page_table c) (c_vpage_id x) (c_is_write x) (c_hint x);
    let c := with_page_table c t in
    if pre_ref_count =? 1 then
      r ← rep_push (replacement c) (p_ppage_id (c_pte x));
      Ok (mk_sys (world s) (with_replacement (with_pinned_size c (pinned_size c - 1)) r),
          set_phase (set_is_unpin x true) End_, false)
    else Ok (mk_sys (world s) c, set_phase x End_, false)
  else Ok (s, set_phase x End_, false).

Definition pin_hit_turn (s : sys) (x : context) : result turn :=
  let c := the_cache s in
  st ← aread (states c) (p_ppage_id (c_pte x));
  _ ← assert (s_vpage_id st =? c_vpage_id x);
  '(t, (success, ppage_id, pre_ref_count)) ←
    CompactHashPageTable.pin (page_table c) (c_vpage_id x) (c_hint x);
  _ ← assert success;
  let c := with_page_table c t in
  c ← (if pre_ref_count =? 0 then
         r ← rep_erase (replacement c) (p_ppage_id (c_pte x));
         Ok (with_pinned_size (with_replacement c r) (pinned_size c + 1))
       else Ok c);
  let x := set_pre_external_state
             (set_external_state (set_ctx_ppage x ppage_id) (Some (p_ppage_id (c_pte x)))) None in
  Ok (mk_sys (world s) c, set_phase x End_, false).

(** A candidate of the eviction loop: its frame, the frame to prefetch, its page,
    the line of the page and the entry that was read. *)
Record candidate := mk_candidate { k_ppage : Z; k_prefetch : Z; k_page : Z; k_hint : option Z; k_pte : unpacked_pte }.

(** One round of the eviction loop reads the table and then changes it.  The
    entry of the next candidate of the policy is read, [None] when it is pinned
    or locked. *)
Definition read_victim (c : cache) : result (cache * option candidate) :=
  '(r, (p, nxt)) ← rep_pop (replacement c);
  let c := with_replacement c r in
  st ← aread (states c) p;
  let pre := s_vpage_id st in
  pre_hint ← find_hint (page_table c) pre;
  _ ← assert (bool_decide (pre_hint ≠ None));
  e ← get_pte (page_table c) pre pre_hint;
  if negb (p_ref_count e =? 0) || p_busy e then Ok (c, None) else Ok (c, Some (mk_candidate p nxt pre pre_hint e)).

(** The victim: its frame, the frame to prefetch, its page and the line of the
    page, its external state, and the dirty flag of the entry that was read. *)
Definition victim := (Z * Z * Z * option Z * ES * bool)%type.

(** [delete_mapping] locks the entry, unless it is pinned or locked now. *)
Definition lock_victim (c : cache) (k : candidate) : result (cache * option victim) :=
  '(t, deleted) ← delete_mapping (page_table c) (k_page k) (k_hint k);
  let c := with_page_table c t in
  if (deleted : bool) then
    st ← aread (states c) (k_ppage k);
    Ok (c, Some (k_ppage k, k_prefetch k, k_page k, k_hint k, s_external st, p_dirty (k_pte k)))
  else Ok (c, None).

Definition try_victim (c : cache) : result (cache * option victim) :=
  '(c, k) ← read_victim c;
  match k with
  | Some k => lock_victim c k
  | None => Ok (c, None)
  end.

Fixpoint find_victim (fuel : nat) (c : cache) : result (cache * victim) :=
  match fuel with
  | O => Err OutOfFuel
  | S fuel' =>
      '(c, v) ← try_victim c;
      match v with
      | Some v => Ok (c, v)
      | None => find_victim fuel' c
      end
  end.

(** Every round removes a candidate; with none left [pop] fails. *)
Definition victim_fuel (c : cache) : nat := S (Z.to_nat (rep_size (replacement c))).

(** The rest of the turn, when the victim is locked. *)
Definition evict_victim (s : sys) (x : context) (vic : victim) : result turn :=
  let '(p, nxt, pre, pre_hint, ext, dirty) := vic in
  let x := set_victim x p nxt pre pre_hint ext dirty in
  '(t, success) ← create_mapping (page_table (the_cache s)) (c_vpage_id x) p 1 (c_hint x);
  _ ← assert success;
  let x := set_external_context (set_phase x Evicting) ec0 in
  '(s, x) ← call_evict (mk_sys (world s) (with_page_table (the_cache s) t)) x;
  Ok (s, x, negb (c_processing x)).

Definition pin_miss_turn (s : sys) (x : context) : result turn :=
  let c := the_cache s in
  if full_pin c then Ok (s, set_phase (set_ctx_ppage x NO_PPAGE) End_, false)
  else
    let c := with_pinned_size c (pinned_size c + 1) in
    if full c then
      '(c, vic) ← find_victim (victim_fuel c) c;
      evict_victim (mk_sys (world s) c) x vic
    else
      '(c, p) ← alloc c;
      '(t, success) ← create_mapping (page_table c) (c_vpage_id x) p 1 (c_hint x);
      _ ← assert success;
      Ok (mk_sys (world s) (with_page_table c t),
          set_processing (set_phase (set_ctx_ppage x p) Evicting) false, true).

Definition initing_turn (s : sys) (x : context) : result turn :=
  match c_type x with
  | KUnPin => unpin_turn s x
  | KPin => if p_exist (c_pte x) then pin_hit_turn s x else pin_miss_turn s x
  end.

Definition evicting_turn (s : sys) (x : context) : result turn :=
  if c_processing x then
    '(s, x) ← call_evict s x;
    Ok (s, x, negb (c_processing x))
  else
    let c := the_cache s in
    c ← match c_pre_external_state x with
        | Some _ =>
            '(t, _) ← release_mapping_lock (page_table c) (c_pre_vpage_id x) (c_pre_hint x);
            Ok (with_page_table c t)
        | None => Ok c
        end;
    c ← init_state c (c_ppage_id x);
    st ← aread (states c) (c_ppage_id x);
    sts ← awrite (states c) (c_ppage_id x) (mk_state (c_vpage_id x) (s_external st));
    let x := set_external_context (set_external_state (set_phase x Loading) (Some (c_ppage_id x))) ec0 in
    '(s, x) ← call_load (mk_sys (world s) (with_states c sts)) x;
    Ok (s, x, negb (c_processing x)).

Definition loading_turn (s : sys) (x : context) : result turn :=
  if c_processing x then
    '(s, x) ← call_load s x;
    Ok (s, x, negb (c_processing x))
  else
    let c := the_cache s in
    '(t, _) ← release_mapping_lock (page_table c) (c_vpage_id x) (c_hint x);
    let c := with_page_table c t in
    let x := set_phase x End_ in
    _ ← match c_pre_external_state x with
        | Some _ => _ ← aread (states c) (c_prefetch_ppage_id x); Ok tt
        | None => Ok tt
        end;
    e ← get_pte t (c_vpage_id x) None;
    _ ← assert (p_ppage_id e =? c_ppage_id x);
    st ← aread (states c) (c_ppage_id x);
    _ ← assert (s_vpage_id st =? c_vpage_id x);
    Ok (mk_sys (world s) c, x, false).

Definition one_turn (s : sys) (x : context) : result turn :=
  match c_phase x with
  | Begin => begin_turn s x
  | Initing => initing_turn s x
  | Evicting => evicting_turn s x
  | Loading => loading_turn s x
  | End_ => Err AssertFail
  end.

Fixpoint process_fuel (fuel : nat) (s : sys) (x : context) : result (sys * context) :=
  match fuel with
  | O => Err OutOfFuel
  | S fuel' =>
      '(s, x, continue) ← one_turn s x;
      if (continue : bool) then process_fuel fuel' s x else Ok (s, x)
  end.

Definition process : sys → context → result (sys * context) := process_fuel 5.

(** The fields a caller leaves uninitialised are arbitrary; [x0] has them. *)
Definition pin_context (x0 : context) (v : Z) : context :=
  mk_context KPin Begin (c_processing x0) (c_dirty x0) (c_is_write x0) (c_is_unpin x0) v (c_pre_vpage_id x0)
    (c_ppage_id x0) (c_prefetch_ppage_id x0) (c_hint x0) (c_pre_hint x0) (c_pte x0) (c_external_state x0) None
    (c_external_context x0).
Definition unpin_context (x0 : context) (v : Z) (is_write : bool) : context :=
  mk_context KUnPin Begin (c_processing x0) (c_dirty x0) is_write (c_is_unpin x0) v (c_pre_vpage_id x0)
    (c_ppage_id x0) (c_prefetch_ppage_id x0) (c_hint x0) (c_pre_hint x0) (c_pte x0) (c_external_state x0) None
    (c_external_context x0).
Definition pin (s : sys) (x0 : context) (v : Z) : result (sys * context) := process s (pin_context x0 v).
Definition unpin (s : sys) (x0 : context) (v : Z) (is_write : bool) : result (sys * context) :=
  process s (unpin_context x0 v is_write).

(** ** [flush] *)
Record flush_context := mk_flush {
  fl_ppage_id : Z;
  fl_pre_vpage_id : Z;
  fl_dirty : bool;
  fl_external_context : EC;
  fl_processing : bool;
}.

Definition flush_evict (s : sys) (f : flush_context) : result (sys * flush_context) :=
  st ← aread (states (the_cache s)) (fl_ppage_id f);
  '(w, e, ext, done_) ←
    evict_func (world s) (fl_external_context f) (fl_pre_vpage_id f) (fl_ppage_id f) (fl_dirty f) (s_external st);
  sts ← awrite (states (the_cache s)) (fl_ppage_id f) (mk_state (s_vpage_id st) ext);
  Ok (mk_sys w (with_states (the_cache s) sts),
      mk_flush (fl_ppage_id f) (fl_pre_vpage_id f) (fl_dirty f) e (negb done_)).

Fixpoint flush_start (ids : list Z) (s : sys) (fs : list flush_context) : result (sys * list flush_context) :=
  match ids with
  | [] => Ok (s, fs)
  | i :: ids' =>
      let c := the_cache s in
      st ← aread (states c) i;
      if s_vpage_id st =? EMPTY_VPAGE_ID then flush_start ids' s fs
      else
        e ← get_pte (page_table c) (s_vpage_id st) None;
        let dirty := if negb (p_ref_count e =? 0) then true else p_dirty e in
        '(s, f) ← flush_evict s (mk_flush i (s_vpage_id st) dirty ec0 false);
        flush_start ids' s (fs ++ [f])
  end.

(** [while (replacement.size() > 0) replacement.pop();] *)
Fixpoint flush_policy (fuel : nat) (r : R) : result R :=
  if 0 <? rep_size r then
    match fuel with
    | O => Err OutOfFuel
    | S fuel' => '(r, _) ← rep_pop r; flush_policy fuel' r
    end
  else Ok r.

Fixpoint flush_round (i : nat) (n : nat) (s : sys) (fs : list flush_context) (min_processing : Z) :
    result (sys * list flush_context * Z) :=
  match n with
  | O => Ok (s, fs, min_processing)
  | S n' =>
      match fs !! i with
      | None => Err Undefined
      | Some f =>
          if fl_processing f then
            '(s, f') ← flush_evict s f;
            flush_round (S i) n' s (<[i := f']> fs) (Z.of_nat i)
          else flush_round (S i) n' s fs min_processing
      end
  end.

Fixpoint flush_poll (rounds : nat) (start : Z) (s : sys) (fs : list flush_context) :
    result (sys * list flush_context) :=
  match rounds with
  | O => Err OutOfFuel
  | S rounds' =>
      let m := max_ppage_id (the_cache s) in
      '(s, fs, min_processing) ←
        flush_round (Z.to_nat start) (length fs - Z.to_nat start) s fs m;
      if min_processing =? m then Ok (s, fs) else flush_poll rounds' min_processing s fs
  end.

Fixpoint flush_free (fs : list flush_context) (c : cache) : result cache :=
  match fs with
  | [] => Ok c
  | f :: fs' =>
      '(t, _) ← delete_mapping (page_table c) (fl_pre_vpage_id f) None;
      c ← init_state (with_page_table c t) (fl_ppage_id f);
      let c := free c (fl_ppage_id f) in
      '(t, _) ← release_mapping_lock (page_table c) (fl_pre_vpage_id f) None;
      flush_free fs' (with_page_table c t)
  end.

Definition flush (rounds : nat) (s : sys) : result sys :=
  '(s, fs) ← flush_start (seqZ 0 (max_ppage_id (the_cache s))) s [];
  r ← flush_policy (Z.to_nat (rep_size (replacement (the_cache s)))) (replacement (the_cache s));
  '(s, fs) ← flush_poll rounds 0 (on_cache s (λ c, with_replacement c r)) fs;
  c ← flush_free fs (the_cache s);
  Ok (mk_sys (world s) c).
End cache.
Arguments cache : clear implicits.
Arguments context : clear implicits.
Arguments sys : clear implicits.
Arguments state_type : clear implicits.
