(* ===== verification/SharedSingleThreadCacheSpec.v ===== *)
(** * The server side of the shared cache: properties

    The eviction loop of [SharedSingleThreadCache.process] against the page
    table the clients pin directly. *)
From S2P Require Import Prelude Replacement PteHeader CompactHashPageTable CompactTableLines SharedSingleThreadCache.
From stdpp Require Import gmap.

Open Scope Z_scope.

(** ** Candidates of the policy *)
Section victims.
Context {R : Type} `{ReplacementSpec R} {ES : Type}.
Implicit Types (c : cache R ES) (p v : Z).

Definition members c : gset Z := rep_members (replacement c).

(** Virtual page [v] is mapped to physical page [p]. *)
Definition maps c v p (e : unpacked_pte) : Prop :=
  get_pte (page_table c) v None = Ok e ∧ p_exist e = true ∧ p_ppage_id e = p.

(** Every candidate of the policy is a mapped page. *)
Record cand_inv c (tails : Z → list Z) : Prop := {
  cv_table : table_inv (page_table c) tails;
  cv_rep : rep_inv (max_ppage_id c) (replacement c);
  cv_cand p : p ∈ members c → ∃ st e,
    zget (states c) p = Some st ∧ vpage_ok (s_vpage_id st) ∧ maps c (s_vpage_id st) p e;
}.

(** A candidate the loop may take: neither pinned nor locked. *)
Definition evictable c p : Prop := ∃ st e,
  zget (states c) p = Some st ∧ maps c (s_vpage_id st) p e ∧ p_ref_count e = 0 ∧ p_busy e = false.

Definition deleted_pte : unpacked_pte := mk_pte false true false 0 EMPTY_PPAGE_ID.

Lemma mapped_line (t : table) tails v e : table_inv t tails → get_pte t v None = Ok e → p_exist e = true →
  ∃ i l, holds t tails (tag_of v) i l.
Proof.
  intros Hi He Hx. destruct (get_pte_exist t tails Hi v e He) as (i & l & h & Hl & _); [by rewrite Hx|].
  by exists i, l.
Qed.

Lemma get_pte_hint t tails v i l : table_inv t tails → holds t tails (tag_of v) i l →
  get_pte t v (Some i) = get_pte t v None.
Proof.
  intros Hi Hl. destruct (holds_entry t tails Hi v i l Hl) as (h & p & Hh & Hp & _).
  rewrite (get_pte_holds t tails Hi v i l h p (Some i)), (get_pte_holds t tails Hi v i l h p None); try done.
  by exists l.
Qed.

(** Dropping a candidate. *)
Lemma drop_cand c tails r p : cand_inv c tails → rep_inv (max_ppage_id c) r →
  rep_members r = members c ∖ {[p]} → cand_inv (with_replacement c r) tails.
Proof.
  intros [Ht Hr Hc] Hr' Hm. split; [done|done|].
  intros q Hq. apply Hc. unfold members in Hq |- *. simpl in Hq. rewrite Hm in Hq. set_solver.
Qed.

(** One round of the loop, its two parts together. *)
Lemma try_victim_eq c : try_victim c =
  ('(r, (p, nxt)) ← rep_pop (replacement c);
   st ← aread (states c) p;
   ph ← find_hint (page_table c) (s_vpage_id st);
   _ ← assert (bool_decide (ph ≠ None));
   e ← get_pte (page_table c) (s_vpage_id st) ph;
   if negb (p_ref_count e =? 0) || p_busy e then Ok (with_replacement c r, None)
   else
     '(t, deleted) ← delete_mapping (page_table c) (s_vpage_id st) ph;
     if (deleted : bool) then Ok (with_page_table (with_replacement c r) t, Some (p, nxt, s_vpage_id st, ph, s_external st, p_dirty e))
     else Ok (with_page_table (with_replacement c r) t, None)).
Proof.
  unfold try_victim, read_victim. destruct (rep_pop (replacement c)) as [[r [p nxt]]|]; [|done]. cbn [mbind result_bind states with_replacement page_table].
  destruct (aread (states c) p) as [st|] eqn:Est; [|done]. cbn [mbind result_bind].
  destruct (find_hint (page_table c) (s_vpage_id st)) as [ph|]; [|done]. cbn [mbind result_bind].
  destruct (assert _) as [[]|]; [|done]. cbn [mbind result_bind].
  destruct (get_pte (page_table c) (s_vpage_id st) ph) as [e|]; [|done]. cbn [mbind result_bind].
  destruct (negb (p_ref_count e =? 0) || p_busy e); [done|]. cbn [mbind result_bind lock_victim k_page k_hint k_ppage k_prefetch k_pte page_table with_replacement].
  unfold lock_victim. cbn [k_page k_hint k_ppage k_prefetch k_pte page_table with_replacement].
  destruct (delete_mapping (page_table c) (s_vpage_id st) ph) as [[t []]|]; [|done|done]. cbn [mbind result_bind states with_page_table with_replacement].
  by rewrite Est.
Qed.

(** One round of the loop. *)
Lemma try_victim_spec c tails : cand_inv c tails → members c ≠ ∅ → ∃ r p nxt st e i,
  rep_inv (max_ppage_id c) r ∧ p ∈ members c ∧ rep_members r = members c ∖ {[p]} ∧
  zget (states c) p = Some st ∧ vpage_ok (s_vpage_id st) ∧ maps c (s_vpage_id st) p e ∧
  hint_ok (page_table c) tails (s_vpage_id st) (Some i) ∧ (max_ppage_id c ≤ 2 ^ 31 → 0 ≤ nxt < max_ppage_id c) ∧
  ((p_ref_count e = 0 ∧ p_busy e = false ∧ ∃ t' tails',
      try_victim c = Ok (with_page_table (with_replacement c r) t',
        Some (p, nxt, s_vpage_id st, Some i, s_external st, p_dirty e)) ∧
      cand_inv (with_page_table (with_replacement c r) t') tails' ∧
      updates (page_table c) t' (s_vpage_id st) deleted_pte ∧
      keeps_lines (page_table c) tails t' tails' (tag_of (s_vpage_id st)) ∧
      t_max_ppage_id t' = t_max_ppage_id (page_table c) ∧
      stays False (page_table c) tails t' tails' (tag_of (s_vpage_id st)) ∧
      (∀ m x, used_but m x (page_table c) → used_but m x t')) ∨
   (¬ evictable c p ∧ try_victim c = Ok (with_replacement c r, None))).
Proof.
  intros Hi Hne. pose proof Hi as [Ht Hr Hc].
  destruct (rep_pop_spec _ _ Hr Hne) as (r & p & nxt & Hpop & Hr' & Hp & Hm & Hnx).
  destruct (Hc p Hp) as (st & e & Hst & Hv & Hmap). pose proof Hmap as (Hget & Hx & Hpp).
  destruct (mapped_line _ _ _ _ Ht Hget Hx) as (i & l & Hl).
  assert (Hhint : hint_ok (page_table c) tails (s_vpage_id st) (Some i)) by (by exists l).
  exists r, p, nxt, st, e, i. do 8 (split; [done|]).
  rewrite try_victim_eq, (bind_rew _ _ _ Hpop). cbv beta iota zeta.
  cbn [states with_replacement page_table].
  rewrite (bind_rew _ _ _ (proj2 (aread_Ok _ _ _) Hst)).
  rewrite (bind_rew (find_hint (page_table c) (s_vpage_id st)) (Some i) _ (find_cacheline_holds _ _ Ht _ _ _ _ Hl)).
  rewrite (bool_decide_true (Some i ≠ None)), (bind_rew _ _ _ (eq_refl : assert true = Ok tt)) by done.
  rewrite (bind_rew _ e _ (eq_trans (get_pte_hint _ _ _ _ _ Ht Hl) Hget)).
  destruct (negb (p_ref_count e =? 0) || p_busy e) eqn:Hb.
  - right. split; [|done]. intros (st' & e' & Hst' & (Hget' & _) & Hrc & Hbu).
    assert (st' = st) as -> by congruence. assert (e' = e) as -> by congruence.
    by rewrite Hrc, Hbu in Hb.
  - apply orb_false_iff in Hb as [Hrc Hbu]. apply negb_false_iff, Z.eqb_eq in Hrc.
    left. split; [done|]. split; [done|].
    destruct (run_call_spec (page_table c) tails DeleteMapping (s_vpage_id st) (Some i) e deleted_pte (RBool true))
      as (t' & tails' & Hrun & Ht' & Hup & Hk & Hmax & Hsty & Hla); [done|done|done|by exists i, l|done| |].
    { destruct e as [ex bu di rc pp]; simpl in *. by subst. }
    simpl in Hrun. apply bind_Ok in Hrun as ((t1 & b) & Hdel & Hrun). simpl in Hrun.
    assert (t1 = t') as -> by congruence. assert (b = true) as -> by congruence. clear Hrun.
    exists t', tails'. split; [by rewrite (bind_rew _ _ _ Hdel)|].
    assert (Hsty' : stays False (page_table c) tails t' tails' (tag_of (s_vpage_id st))).
    { intros j lj Hj. destruct (Hsty j lj Hj) as [[? _]|?]; [done|by right]. }
    assert (Hused : ∀ m x, used_but m x (page_table c) → used_but m x t').
    { intros m y Hy. apply (used_but_tag m y (s_vpage_id st)).
      apply (used_call _ _ _ _ _ _ _ _ _ Ht Ht' Hv Hup Hla); [done| |by left|done].
      destruct Hy as (_ & Hb & _). apply Hb; [done|]. exists e. by rewrite Hx. }
    split; [|done]. split; [done|done|].
    intros q Hq. unfold members in Hq. simpl in Hq. rewrite Hm in Hq.
    apply elem_of_difference in Hq as [Hq Hqp]. rewrite elem_of_singleton in Hqp.
    destruct (Hc q Hq) as (sq & eq & Hsq & Hvq & Hgq & Hxq & Hpq).
    exists sq, eq. split; [done|]. split; [done|]. split; [|done]. simpl.
    rewrite (Hup _ Hvq). rewrite decide_False; [done|]. intros E. apply Hqp. congruence.
Qed.

(** What the loop leaves behind and hands on. *)
Definition victim_of c tails c' (vic : Z * Z * Z * option Z * ES * bool) tails' : Prop :=
  ∃ p nxt i st e r t', vic = (p, nxt, s_vpage_id st, Some i, s_external st, p_dirty e) ∧
  c' = with_page_table (with_replacement c r) t' ∧
  p ∈ members c ∧ zget (states c) p = Some st ∧ maps c (s_vpage_id st) p e ∧
  p_ref_count e = 0 ∧ p_busy e = false ∧ hint_ok (page_table c) tails (s_vpage_id st) (Some i) ∧
  updates (page_table c) t' (s_vpage_id st) deleted_pte ∧
  keeps_lines (page_table c) tails t' tails' (tag_of (s_vpage_id st)) ∧
  t_max_ppage_id t' = t_max_ppage_id (page_table c) ∧
  stays False (page_table c) tails t' tails' (tag_of (s_vpage_id st)) ∧
  (max_ppage_id c ≤ 2 ^ 31 → 0 ≤ nxt < max_ppage_id c) ∧
  rep_members r ⊆ members c ∖ {[p]} ∧
  (∀ q, q ∈ members c → q ≠ p → q ∉ rep_members r → ¬ evictable c q) ∧
  (∀ m x, used_but m x (page_table c) → used_but m x t').

Lemma members_size c tails p : cand_inv c tails → p ∈ members c →
  rep_size (replacement c) = Z.of_nat (S (size (members c ∖ {[p]}))).
Proof.
  intros [_ Hr _] Hp. rewrite (rep_size_spec _ _ Hr). f_equal. fold (members c).
  rewrite (union_difference_L {[p]} (members c)) at 1 by set_solver.
  rewrite size_union by set_solver. by rewrite size_singleton.
Qed.

Lemma find_victim_run c tails n : cand_inv c tails → (size (members c) < n)%nat →
  (∃ p, p ∈ members c ∧ evictable c p) →
  ∃ c' vic tails', find_victim n c = Ok (c', vic) ∧ cand_inv c' tails' ∧ victim_of c tails c' vic tails'.
Proof.
  revert c. induction n as [|n IH]; intros c Hi Hn (q & Hq & Hev); [lia|].
  destruct (try_victim_spec c tails Hi) as (r & p & nxt & st & e & i & Hr & Hp & Hm & Hst & Hv & Hmap & Hh & Hnx & Hcase);
    [set_solver|].
  simpl. destruct Hcase as [(Hrc & Hbu & t' & tails' & Hrun & Hi' & Hup & Hk & Hmax & Hsty & Hused)|(Hnev & Hrun)];
    rewrite (bind_rew _ _ _ Hrun); cbv beta iota zeta.
  - eexists _, _, tails'. split; [done|]. split; [done|].
    exists p, nxt, i, st, e, r, t'. rewrite Hm. do 14 (split; [done|]). split; [|done].
    intros q' Hq' Hqp Hn'. set_solver.
  - assert (Hqp : q ≠ p) by (by intros ->).
    assert (Hsz : (size (members (with_replacement c r)) < n)%nat).
    { unfold members. simpl. rewrite Hm. pose proof (members_size c tails p Hi Hp) as E.
      rewrite (rep_size_spec _ _ (cv_rep _ _ Hi)) in E. fold (members c) in E. lia. }
    destruct (IH _ (drop_cand c tails r p Hi Hr Hm) Hsz) as (c' & vic & tails' & Hf & Hi' & Hvic).
    { exists q. split; [|done]. unfold members. simpl. rewrite Hm. set_solver. }
    exists c', vic, tails'. split; [done|]. split; [done|].
    destruct Hvic as (p' & nxt' & i' & st' & e' & r' & t' & -> & -> & Hp' & Hst' & Hmap' & ? & ? & ? & ? & ? & ? & ? & ? & Hsub & Hskip & Hused).
    unfold members in Hp', Hsub, Hskip. simpl in *. rewrite Hm in Hp', Hsub, Hskip.
    exists p', nxt', i', st', e', r', t'. split; [done|]. split; [done|]. split; [set_solver|].
    do 10 (split; [done|]). split; [set_solver|]. split; [|done].
    intros q' Hq' Hqp' Hnr. destruct (decide (q' = p)) as [->|Hne]; [done|].
    apply (Hskip q'); [set_solver|done|done].
Qed.

Lemma find_victim_stuck c tails n : cand_inv c tails → (size (members c) < n)%nat →
  (∀ p, p ∈ members c → ¬ evictable c p) → find_victim n c = Err AssertFail.
Proof.
  revert c. induction n as [|n IH]; intros c Hi Hn Hno; [lia|]. simpl.
  destruct (decide (members c = ∅)) as [He|Hne].
  - rewrite try_victim_eq. by rewrite (rep_pop_empty _ _ (cv_rep _ _ Hi) He).
  - destruct (try_victim_spec c tails Hi Hne) as (r & p & nxt & st & e & i & Hr & Hp & Hm & Hst & Hv & Hmap & Hh & Hnx & Hcase).
    destruct Hcase as [(Hrc & Hbu & _)|(_ & Hrun)].
    { destruct (Hno p Hp). by exists st, e. }
    rewrite (bind_rew _ _ _ Hrun). cbv beta iota zeta.
    apply IH; [by eapply drop_cand| |].
    + unfold members. simpl. rewrite Hm. pose proof (members_size c tails p Hi Hp) as E.
      rewrite (rep_size_spec _ _ (cv_rep _ _ Hi)) in E. fold (members c) in E. lia.
    + intros q Hq. apply (Hno q). unfold members in Hq |- *. simpl in Hq. rewrite Hm in Hq. set_solver.
Qed.

Lemma victim_fuel_enough c tails : cand_inv c tails → (size (members c) < victim_fuel c)%nat.
Proof.
  intros Hi. unfold victim_fuel. rewrite (rep_size_spec _ _ (cv_rep _ _ Hi)), Nat2Z.id. unfold members. lia.
Qed.

(** C33: the eviction loop returns whenever some candidate of the policy is
    neither pinned nor locked, and takes such a page: its entry is deleted and
    locked in one step, no other entry changes, the candidates it passed over
    were pinned or locked, and the policy keeps only mapped pages. *)
Theorem eviction_loop_takes_evictable c tails : cand_inv c tails →
  (∃ p, p ∈ members c ∧ evictable c p) →
  ∃ c' vic tails', find_victim (victim_fuel c) c = Ok (c', vic) ∧ cand_inv c' tails' ∧
    victim_of c tails c' vic tails'.
Proof. intros Hi. apply find_victim_run; [done|]. by eapply victim_fuel_enough. Qed.

(** When every candidate is pinned or locked the loop runs the policy
    empty and the [assert] in its [pop] fails: [full_pin] does not exclude it,
    since direct pins whose notification has not arrived are not counted. *)
Lemma eviction_loop_runs_dry c tails : cand_inv c tails →
  (∀ p, p ∈ members c → ¬ evictable c p) → find_victim (victim_fuel c) c = Err AssertFail.
Proof. intros Hi. apply (find_victim_stuck c tails); [done|]. by eapply victim_fuel_enough. Qed.
End victims.

(** *** Witnesses

    Page 5 mapped to physical page 0 with [n] pins, the only candidate. *)
Lemma sample_table n : 0 ≤ n < REF_MOD → ∃ t tails, table_inv t tails ∧
  get_pte t 5 None = Ok (mk_pte true false false n 0).
Proof.
  intros Hn. destruct table4_line as [Hi Hh].
  assert (Hv : vpage_ok 5) by (split; [lia|reflexivity]).
  destruct (run_call_spec _ _ (CreateMapping 0 n) 5 None no_pte (mk_pte true true false n 0) (RBool true) Hi Hv I)
    as (t1 & tails1 & _ & Hi1 & Hup1 & _ & _ & _ & _); [by eexists _, _|reflexivity| |].
  { simpl. by rewrite (Z.mod_small n). }
  assert (Hg1 : get_pte t1 5 None = Ok (mk_pte true true false n 0)).
  { rewrite (Hup1 5 Hv). by rewrite decide_True. }
  destruct (run_call_spec _ _ ReleaseLock 5 None (mk_pte true true false n 0) (mk_pte true false false n 0) (RBool true) Hi1 Hv I)
    as (t2 & tails2 & _ & Hi2 & Hup2 & _ & _ & _ & _); [by eapply mapped_line|done|done|].
  exists t2, tails2. split; [done|]. rewrite (Hup2 5 Hv). by rewrite decide_True.
Qed.

Lemma sample_cache n : 0 ≤ n < REF_MOD → ∃ (c : cache LRU.t ()) tails, cand_inv c tails ∧ members c = {[0]} ∧
  zget (states c) 0 = Some (mk_state 5 tt) ∧ get_pte (page_table c) 5 None = Ok (mk_pte true false false n 0).
Proof.
  intros Hn. destruct (sample_table n Hn) as (t & tails & Hi & Hg).
  destruct (rep_init_spec (R:=LRU.t) 4) as [Hr Hm]; [lia|].
  destruct (rep_push_spec 4 _ 0 Hr) as (r & _ & Hr' & Hm'); [lia|]. rewrite Hm in Hm'.
  exists (mk_cache 100 4 t 0 1 [] [mk_state 5 tt] r), tails.
  assert (Hmem : members (mk_cache 100 4 t 0 1 [] [mk_state 5 tt] r) = {[0]}).
  { unfold members. cbn [replacement]. rewrite Hm'. set_solver. }
  split; [|done]. split; [done|done|].
  intros p Hp. rewrite Hmem in Hp. apply elem_of_singleton in Hp as ->.
  exists (mk_state 5 tt), (mk_pte true false false n 0). split; [done|]. split; [change (vpage_ok 5); split; [lia|reflexivity]|done].
Qed.

Lemma eviction_loop_takes_evictable_witness : ∃ (c : cache LRU.t ()) c' vic tails tails',
  members c = {[0]} ∧ find_victim (victim_fuel c) c = Ok (c', vic) ∧ victim_of c tails c' vic tails'.
Proof.
  destruct (sample_cache 0) as (c & tails & Hi & Hm & Hst & Hg); [done|].
  destruct (eviction_loop_takes_evictable c tails Hi) as (c' & vic & tails' & ? & _ & ?).
  - exists 0. split; [set_solver|]. by exists (mk_state 5 tt), (mk_pte true false false 0 0).
  - by exists c, c', vic, tails, tails'.
Defined.

