(* ===== verification/SharedServer.v ===== *)
(** * The shared cache under direct pins: the invariant

    A partition of the shared cache at work: the state machine of
    [SharedSingleThreadCache.v] with any number of requests in progress, the
    clients pinning and unpinning pages in its table at any time, and the
    notifications of these pins, which arrive later and in any order.  This file
    has the contract of the I/O functions, the invariant, and what every change
    of the tables does to it; [SharedServerData.v] adds the contents of the
    pages and [SharedServerSpec.v] has the theorems. *)
From S2P Require Import Prelude Replacement PteHeader CompactHashPageTable CompactTableLines SharedSingleThreadCache SharedSingleThreadCacheSpec.
From stdpp Require Import gmap.

Open Scope Z_scope.

(** ** The contract of the I/O functions

    A transfer in progress is the eviction of a page from a frame or the load of
    a page into one; it has the external context of its last call.  [io_inv]
    relates the world to the transfers in progress.  A call that returns [true]
    ends its transfer. *)
Inductive transfer (EC : Type) :=
  | TEvict (v p : Z) (d : bool) (e : EC)
  | TLoad (v p : Z) (e : EC).
Arguments TEvict {EC} _ _ _ _.
Arguments TLoad {EC} _ _ _.

Section transfers.
Context {EC : Type}.
Implicit Types (t : transfer EC) (ts : list (transfer EC)).

Definition tr_page t : Z := match t with TEvict v _ _ _ | TLoad v _ _ => v end.
Definition tr_frame t : Z := match t with TEvict _ p _ _ | TLoad _ p _ => p end.
(** The frame is being written; the page's backing store is. *)
Definition fills ts p : Prop := ∃ v e, TLoad v p e ∈ ts.
Definition stores ts v : Prop := ∃ p e, TEvict v p true e ∈ ts.
End transfers.

Class IoContract {W EC ES : Type} (D : Type) (ec0 : EC)
    (evict_func : W → EC → Z → Z → bool → ES → result (W * EC * ES * bool))
    (load_func : W → EC → Z → Z → ES → result (W * EC * ES * bool)) := {
  frame_of : W → Z → D;
  disk_of : W → Z → D;
  (** pages and frames of the partition; frames that were loaded once *)
  io_pages : W → Z;
  io_frames : W → Z;
  touched : W → gset Z;
  io_inv : W → list (transfer EC) → Prop;
  io_perm w ts ts' : ts ≡ₚ ts' → io_inv w ts → io_inv w ts';
  (** the user of a frame writes to it *)
  frame_write : W → Z → D → W → Prop;
  frame_write_law w ts p d w' : frame_write w p d w' → io_inv w ts → 0 ≤ p < io_frames w →
    p ∈ touched w → p ∉ (tr_frame <$> ts) →
    io_inv w' ts ∧ touched w' = touched w ∧ io_pages w' = io_pages w ∧ io_frames w' = io_frames w ∧
    frame_of w' p = d ∧ (∀ q, 0 ≤ q < io_frames w → q ≠ p → frame_of w' q = frame_of w q) ∧
    (∀ u, 0 ≤ u < io_pages w → disk_of w' u = disk_of w u);
  (** a call for the eviction of [v] from [p], the first or a later one *)
  evict_law w ts v p d e ext :
    (e = ec0 ∧ io_inv w ts ∧ (∀ q, 0 ≤ q < io_frames w → q ∈ touched w)) ∨ io_inv w (TEvict v p d e :: ts) →
    0 ≤ v < io_pages w → 0 ≤ p < io_frames w → v ∉ (tr_page <$> ts) → p ∉ (tr_frame <$> ts) →
    ∃ w' e' ext' b, evict_func w e v p d ext = Ok (w', e', ext', b) ∧
      io_inv w' (if b then ts else TEvict v p d e' :: ts) ∧
      touched w' = touched w ∧ io_pages w' = io_pages w ∧ io_frames w' = io_frames w ∧
      (∀ q, 0 ≤ q < io_frames w → ¬ fills ts q → frame_of w' q = frame_of w q) ∧
      (∀ u, 0 ≤ u < io_pages w → u ≠ v → ¬ stores ts u → disk_of w' u = disk_of w u) ∧
      (d = false → disk_of w' v = disk_of w v) ∧
      (d = true → b = true → disk_of w' v = frame_of w p);
  (** a call for the load of [v] into [p] *)
  load_law w ts v p e ext :
    (e = ec0 ∧ io_inv w ts) ∨ io_inv w (TLoad v p e :: ts) →
    0 ≤ v < io_pages w → 0 ≤ p < io_frames w → v ∉ (tr_page <$> ts) → p ∉ (tr_frame <$> ts) →
    ∃ w' e' ext' b, load_func w e v p ext = Ok (w', e', ext', b) ∧
      io_inv w' (if b then ts else TLoad v p e' :: ts) ∧
      touched w' = {[p]} ∪ touched w ∧ io_pages w' = io_pages w ∧ io_frames w' = io_frames w ∧
      (∀ q, 0 ≤ q < io_frames w → q ≠ p → ¬ fills ts q → frame_of w' q = frame_of w q) ∧
      (∀ u, 0 ≤ u < io_pages w → ¬ stores ts u → disk_of w' u = disk_of w u) ∧
      (b = true → frame_of w' p = disk_of w v);
}.

(** ** The page table with hints that stay valid *)
Definition hints_ok (t : table) (H : list (Z * Z)) : Prop := ∃ tails, table_inv t tails ∧
  ∀ u k, (u, k) ∈ H → hint_ok t tails u (Some k).

Lemma hints_sub t H H' : hints_ok t H → (∀ x, x ∈ H' → x ∈ H) → hints_ok t H'.
Proof. intros (tails & Hi & Hh) Hs. exists tails. split; [done|]. intros u k Hu. by apply Hh, Hs. Qed.

(** A hint survives a call on another page, and on its own while it is in use
    or when the call removes no line. *)
Lemma hint_kept gone t tails t' tails' v u k : table_inv t' tails' → vpage_ok u →
  keeps_lines t tails t' tails' (tag_of v) → stays gone t tails t' tails' (tag_of v) → ¬ gone ∨ in_use t' u →
  hint_ok t tails u (Some k) → hint_ok t' tails' u (Some k).
Proof.
  intros Hi' Hu Hk Hs Huse (l & Hl). destruct (decide (tag_of u = tag_of v)) as [E|E].
  - rewrite E in Hl. destruct (Hs k l Hl) as [[Hg Ha]|(l' & Hl')]; [|exists l'; by rewrite E].
    destruct Huse as [?|Huse]; [done|]. destruct (in_use_user t' tails' u Hi' Huse) as (i & l' & Hl' & _). rewrite E in Hl'. by destruct (Ha i l').
  - destruct (Hk (tag_of u) k l (tag_of_ok u Hu) E Hl) as (l' & Hl' & _). by exists l'.
Qed.

Lemma table_call t H c v hint e e' r : hints_ok t H → vpage_ok v → (∀ u k, (u, k) ∈ H → vpage_ok u) →
  match hint with None => p_exist e || p_busy e = true | Some k => (v, k) ∈ H end →
  get_pte t v None = Ok e → pte_step c e = Some (e', r) →
  ∃ t', run_call c t v hint = Ok (t', r) ∧ updates t t' v e' ∧
    (∀ m x, v < m.2 → p_exist e' || p_busy e' = true ∨ c = ReleaseLock ∧ r = RBool true → used_but m x t → used_but m (but_tag x v) t') ∧
    ∀ H', (∀ u k, (u, k) ∈ H' → (u, k) ∈ H ∧ (c ≠ ReleaseLock ∨ in_use t' u)) → hints_ok t' H'.
Proof.
  intros (tails & Hi & Hh) Hv Hok Hhint Hget Hstep.
  assert (Hho : hint_ok t tails v hint) by (destruct hint; [by apply Hh|done]).
  assert (Hline : ∃ i l, holds t tails (tag_of v) i l).
  { destruct hint as [k|]; [destruct Hho as (l & Hl); by exists k, l|]. destruct (in_use_user t tails v Hi) as (i & l & ? & _); [by exists e|by exists i, l]. }
  destruct (run_call_spec t tails c v hint e e' r Hi Hv Hho Hline Hget Hstep) as (t' & tails' & Hrun & Hi' & Hup & Hk & Hmx & Hs & Hla).
  exists t'. split; [done|]. split; [done|]. split; [intros m x Hvm Huse Hx; by apply (used_call _ _ _ _ _ _ _ _ _ Hi Hi' Hv Hup Hla)|]. intros H' HH. exists tails'. split; [done|].
  intros u k Hu. destruct (HH u k Hu) as [HuH Huse].
  apply (hint_kept (c = ReleaseLock) t tails t' tails' v); [done|by apply (Hok u k)|done|done|done|by apply Hh].
Qed.

(** There is a line for the page, or room for one. *)
Definition line_available (t : table) (v : Z) : Prop := has_room t (tag_of v) ∨ ∃ i, find_hint t v = Ok (Some i).

Lemma in_use_available t H v : hints_ok t H → in_use t v → line_available t v.
Proof.
  intros (tails & Hi & _) Hu. destruct (in_use_user t tails v Hi Hu) as (i & l & Hl & _). right. exists i.
  by apply (find_cacheline_holds _ _ Hi _ _ _ _ Hl).
Qed.

(** A valid hint is what the search for the line finds, and the other way round. *)
Lemma hint_find t H v i : hints_ok t H → (v, i) ∈ H → find_hint t v = Ok (Some i).
Proof. intros (tails & Hi & Hh) (l & Hl)%Hh. by apply (find_cacheline_holds _ _ Hi _ _ _ _ Hl). Qed.

Lemma find_hint_ok t H v : hints_ok t H → in_use t v → ∃ i, find_hint t v = Ok (Some i) ∧ hints_ok t ((v, i) :: H).
Proof.
  intros (tails & Hi & Hh) Hu. destruct (in_use_user t tails v Hi Hu) as (i & l & Hl & _). exists i.
  split; [by apply (find_cacheline_holds _ _ Hi _ _ _ _ Hl)|]. exists tails. split; [done|].
  intros u k [[= -> ->]|Huk]%elem_of_cons; [by exists l|by apply Hh].
Qed.

Lemma table_hint t H v : hints_ok t H → vpage_ok v → (∀ u k, (u, k) ∈ H → vpage_ok u) → line_available t v →
  ∃ t' i, find_or_create_hint t v = Ok (t', i) ∧ same_view t t' ∧ t_max_ppage_id t' = t_max_ppage_id t ∧
    hints_ok t' ((v, i) :: H) ∧ (in_use t v → t' = t) ∧ (∀ m, used_but m None t → used_but m (Some (tag_of v)) t').
Proof.
  intros (tails & Hi & Hh) Hv Hok Hav. destruct (holds_dec _ _ Hi (tag_of v)) as [(i & l & Hl)|Ha].
  - exists t, i. unfold find_or_create_hint. rewrite (find_hint_holds _ _ Hi _ _ _ Hl). split; [done|]. split; [done|].
    split; [done|]. split; [|split; [done|intros m; apply used_weaken]]. exists tails. split; [done|]. intros u k [[= -> ->]|Hu]%elem_of_cons; [by exists l|by apply Hh].
  - assert (Hroom : has_room t (tag_of v)).
    { destruct Hav as [?|(i & Hf)]; [done|]. unfold find_hint in Hf. by rewrite (find_cacheline_absent _ _ Hi _ _ Ha) in Hf. }
    destruct (create_line_spec t tails Hi (tag_of v) (tag_of_ok v Hv) Ha Hroom) as (t' & tails' & p & i & l & Hf & Hc & Hch & Hl & _).
    exists t', i. unfold find_or_create_hint. rewrite Hf. cbn [mbind result_bind]. split; [done|].
    pose proof Hch as (Hi' & Hview & Hk & _ & Hm & _). split; [done|]. split; [done|]. split; [|split].
    + exists tails'. split; [done|]. intros u k [[= -> ->]|Hu]%elem_of_cons; [by exists l|].
      destruct (Hh u k Hu) as (lu & Hlu). destruct (decide (tag_of u = tag_of v)) as [E|E].
      { rewrite E in Hlu. by destruct (Ha k lu). }
      destruct (Hk (tag_of u) k lu (tag_of_ok u (Hok u k Hu)) E Hlu) as (l' & Hl' & _). by exists l'.
    + intros Hu. destruct (in_use_user t tails v Hi Hu) as (j & lj & Hj & _). by destruct (Ha j lj).
    + intros m. by apply (used_line_change _ _ _ _ _ _ Hi Hv Hch).
Qed.

(** Every line is in use, and no more pages than there are frames are. *)
Lemma used_available m t H v (vs : list Z) : hints_ok t H → used_but m None t →
  (∀ u, 0 ≤ u < m.2 → in_use t u → u ∈ vs) → zlen vs ≤ m.1 → line_available t v.
Proof. intros (tails & Hi & _) Hu Hvs Hlen. left. by apply (used_room t tails Hi m (tag_of v) vs). Qed.

(** The search for a line only fails when there is none left. *)
Lemma hint_available t H v r : hints_ok t H → vpage_ok v → find_or_create_hint t v = Ok r → line_available t v.
Proof.
  intros (tails & Hi & _) Hv Hr. destruct (holds_dec _ _ Hi (tag_of v)) as [(i & l & Hl)|Ha].
  - right. exists i. by apply (find_cacheline_holds _ _ Hi _ _ _ _ Hl).
  - left. destruct (linked_head _ _ _ (ti_linked _ _ Hi _ (get_bucket_ok _ _ Hi (tag_of v)))) as (hl & Hg).
    destruct (decide (l_tag hl = EMPTY_TAG)) as [E|E]; [right; by exists hl|left]. intros Hpool.
    destruct (last_cons_some (get_bucket t (tag_of v)) (tails (get_bucket t (tag_of v)))) as [p Hp].
    revert Hr. unfold find_or_create_hint, create_cacheline. rewrite (find_hint_absent _ _ Hi _ hl Ha Hg).
    apply Z.eqb_neq in E as ->. unfold chain in *. rewrite Hp. cbn [mbind result_bind].
    intros ([] & _ & Hr)%bind_Ok. apply bind_Ok in Hr as ([] & _ & Hr). rewrite Hpool in Hr. done.
Qed.

(** Reading an entry with a valid hint. *)
Lemma table_get t H v k : hints_ok t H → (v, k) ∈ H → get_pte t v (Some k) = get_pte t v None.
Proof. intros (tails & Hi & Hh) Hin. destruct (Hh v k Hin) as (l & Hl). by apply (get_pte_hint t tails v k l). Qed.

Lemma table_total t H v : hints_ok t H → ∃ e, get_pte t v None = Ok e.
Proof. intros (tails & Hi & _). by apply (get_pte_total _ _ Hi). Qed.

Lemma table_pin_absent t H v : hints_ok t H → ¬ in_use t v → CompactHashPageTable.pin t v None = Ok (t, pin_none).
Proof.
  intros (tails & Hi & _) Hnu. destruct (holds_dec _ _ Hi (tag_of v)) as [(i & l & Hl)|Ha].
  - destruct (holds_entry _ _ Hi v i l Hl) as (h & p & Hgh & Hgp & Hwf).
    apply (pin_fail _ _ Hi v i l h p None); try done.
    destruct (h_exist h) eqn:He; [|done]. destruct Hnu. exists (pte_of h p).
    split; [by apply (op_get _ _ Hi v i l)|]. simpl. by rewrite He.
  - unfold CompactHashPageTable.pin. simpl. by rewrite (find_cacheline_absent _ _ Hi _ _ Ha).
Qed.

(** ** The invariant *)

(** A pin or an unpin of a client that the server has not been told of. *)
Inductive note := NPin (v : Z) | NUnpin (v : Z).

Definition note_sum (ns : list note) : Z :=
  foldr (λ n a, a + match n with NPin _ => 1 | NUnpin _ => -1 end) 0 ns.

(** A request in progress: a frame was taken for it ([FAlloc]), another page is
    being evicted from it, or its page is being loaded.  [tr] is the external
    context of its transfer, [None] before the first call and after the last. *)
Inductive flight (EC : Type) :=
  | FAlloc (v p hint : Z)
  | FEvict (v pre p : Z) (d : bool) (hint pre_hint : Z) (tr : option EC)
  | FLoad (v p hint : Z) (tr : option EC).
Arguments FAlloc {EC} _ _ _.
Arguments FEvict {EC} _ _ _ _ _ _ _.
Arguments FLoad {EC} _ _ _ _.

Section flights.
Context {EC : Type}.
Implicit Types (f : flight EC).

Definition f_page f : Z := match f with FAlloc v _ _ | FEvict v _ _ _ _ _ _ | FLoad v _ _ _ => v end.
Definition f_frame f : Z := match f with FAlloc _ p _ | FEvict _ _ p _ _ _ _ | FLoad _ p _ _ => p end.
Definition f_busy f : list Z := match f with FEvict v pre _ _ _ _ _ => [v; pre] | _ => [f_page f] end.
Definition f_hints f : list (Z * Z) :=
  match f with
  | FAlloc v _ h | FLoad v _ h _ => [(v, h)]
  | FEvict v pre _ _ h ph _ => [(v, h); (pre, ph)]
  end.
Definition f_transfer f : option (transfer EC) :=
  match f with
  | FAlloc _ _ _ => None
  | FEvict _ pre p d _ _ tr => TEvict pre p d <$> tr
  | FLoad v p _ tr => TLoad v p <$> tr
  end.
Definition f_moving f : Prop := is_Some (f_transfer f).
Definition transfers (fl : list (flight EC)) : list (transfer EC) := omap f_transfer fl.

Lemma f_hints_busy f u k : (u, k) ∈ f_hints f → u ∈ f_busy f.
Proof. destruct f; simpl; set_solver. Qed.

Lemma elem_of_busy (fl : list (flight EC)) u : u ∈ mjoin (f_busy <$> fl) ↔ ∃ f, f ∈ fl ∧ u ∈ f_busy f.
Proof.
  rewrite list_elem_of_join. split.
  - intros (l & Hu & (f & -> & Hf)%list_elem_of_fmap). by exists f.
  - intros (f & Hf & Hu). exists (f_busy f). split; [done|]. by apply list_elem_of_fmap_2.
Qed.

Lemma elem_of_hints (fl : list (flight EC)) x : x ∈ mjoin (f_hints <$> fl) ↔ ∃ f, f ∈ fl ∧ x ∈ f_hints f.
Proof.
  rewrite list_elem_of_join. split.
  - intros (l & Hu & (f & -> & Hf)%list_elem_of_fmap). by exists f.
  - intros (f & Hf & Hu). exists (f_hints f). split; [done|]. by apply list_elem_of_fmap_2.
Qed.

(** The pages and frames of the transfers are those of the requests. *)
Lemma elem_of_transfers fl (t : transfer EC) : t ∈ transfers fl ↔ ∃ f, f ∈ fl ∧ f_transfer f = Some t.
Proof. unfold transfers. by rewrite list_elem_of_omap. Qed.

Lemma transfer_page f t : f_transfer f = Some t → tr_page t ∈ f_busy f ∧ tr_frame t = f_frame f.
Proof. destruct f as [| ?????? [e|] |??? [e|]]; simpl; intros [= <-]; simpl; split; set_solver. Qed.

Lemma fills_flight fl q : fills (transfers fl) q → ∃ v h tr, FLoad v q h tr ∈ fl.
Proof.
  intros (v & e & (f & Hf & Et)%elem_of_transfers).
  destruct f as [| ?????? [e'|] |v' q' h [e'|]]; simplify_eq/=. by eexists _, _, _.
Qed.

Lemma stores_flight fl u : stores (transfers fl) u → ∃ v p h ph tr, FEvict v u p true h ph tr ∈ fl.
Proof.
  intros (p & e & (f & Hf & Et)%elem_of_transfers).
  destruct f as [| v' u' p' d' h ph [e'|] |??? [e'|]]; simplify_eq/=. by eexists _, _, _, _, _.
Qed.
End flights.

Section server.
Context {R : Type} `{ReplacementSpec R} {W EC ES D : Type} (ec0 : EC) (es0 : ES).
Context (evict_func : W → EC → Z → Z → bool → ES → result (W * EC * ES * bool)).
Context (load_func : W → EC → Z → Z → ES → result (W * EC * ES * bool)).
Context `{!IoContract D ec0 evict_func load_func}.

Abbreviation cache_t := (cache R ES).
Abbreviation sys_t := (sys R W ES).
Abbreviation ctx := (context EC ES).
Implicit Types (c : cache_t) (fl : list (flight EC)) (held : gmap Z Z) (notes : list note) (f : flight EC).

Definition ent c (v : Z) : unpacked_pte :=
  match get_pte (page_table c) v None with Ok e => e | Err _ => no_pte end.
Definition okp c (v : Z) : Prop := 0 ≤ v < max_vpage_id c.
Definition resident c (v : Z) : Prop := okp c v ∧ p_exist (ent c v) = true ∧ p_busy (ent c v) = false.
Definition pp c (v : Z) : Z := p_ppage_id (ent c v).
Definition frame_is c (p u : Z) : Prop := ∃ st, zget (states c) p = Some st ∧ s_vpage_id st = u.
Definition held_of held (v : Z) : Z := default 0 (held !! v).

Definition busy_pte (p : Z) : unpacked_pte := mk_pte true true false 1 p.

Definition flight_ok c f : Prop :=
  Forall (okp c) (f_busy f) ∧ ent c (f_page f) = busy_pte (f_frame f) ∧
  match f with
  | FEvict _ pre _ _ _ _ _ => ent c pre = deleted_pte
  | FLoad v p _ _ => frame_is c p v
  | FAlloc _ _ _ => True
  end.

(** [held] counts the pins the users of the partition hold. *)
Record srv_inv c fl held notes : Prop := {
  si_max : 0 < max_ppage_id c ≤ 2 ^ 31;
  si_vmax : 0 ≤ max_vpage_id c ≤ NUM_PACK_PAGES * EMPTY_TAG;
  si_table : hints_ok (page_table c) (mjoin (f_hints <$> fl));
  si_rep : rep_inv (max_ppage_id c) (replacement c);
  si_states : zlen (states c) = max_ppage_id c;
  si_cur : 0 ≤ cur_id c ≤ max_ppage_id c;
  si_pool_nodup : NoDup (recycle_pool c);
  si_pool p : p ∈ recycle_pool c → 0 ≤ p < cur_id c;
  si_resident v : resident c v →
    frame_is c (pp c v) v ∧ 0 ≤ pp c v < cur_id c ∧ (pp c v ∉ recycle_pool c) ∧ (pp c v ∉ (f_frame <$> fl)) ∧
    p_ref_count (ent c v) = held_of held v;
  si_held v n : held !! v = Some n → 0 < n < REF_MOD ∧ resident c v;
  si_busy v : okp c v → p_busy (ent c v) = true → ∃ f, f ∈ fl ∧ v ∈ f_busy f;
  si_flight f : f ∈ fl → 0 ≤ f_frame f < cur_id c ∧ (f_frame f ∉ recycle_pool c) ∧ flight_ok c f;
  si_frames : NoDup (f_frame <$> fl);
  si_pages : NoDup (mjoin (f_busy <$> fl));
  si_members p : p ∈ members c → ∃ v, resident c v ∧ pp c v = p;
  si_idle v : resident c v → held !! v = None → pp c v ∈ members c ∨ NUnpin v ∈ notes;
  si_pinned : pinned_size c + note_sum notes = Z.of_nat (base.size held) + zlen fl;
  si_used p : 0 ≤ p < cur_id c →
    p ∈ recycle_pool c ∨ (∃ v, resident c v ∧ pp c v = p) ∨ p ∈ (f_frame <$> fl);
}.

(** *** First facts *)
Section facts.
Context c fl held notes (Hi : srv_inv c fl held notes).

Lemma okp_vpage v : okp c v → vpage_ok v.
Proof using Hi. pose proof (si_vmax _ _ _ _ Hi). unfold okp, vpage_ok. lia. Qed.

Lemma hint_page u k : (u, k) ∈ mjoin (f_hints <$> fl) → okp c u ∧ in_use (page_table c) u.
Proof using Hi.
  intros (f & Hf & Hu%f_hints_busy)%elem_of_hints. destruct (si_flight _ _ _ _ Hi f Hf) as (_ & _ & Hok & He & Hr).
  split; [by apply (Forall_forall (okp c) (f_busy f))|].
  assert (Hb : p_busy (ent c u) = true).
  { destruct f; simpl in *; [|destruct (decide (u = pre)) as [->|]; [by rewrite Hr|]|];
      (assert (u = v) as -> by set_solver; by rewrite He). }
  unfold ent in Hb. destruct (get_pte (page_table c) u None) as [e|] eqn:Eg; [|done]. exists e. split; [done|].
  by rewrite Hb, orb_true_r.
Qed.

Lemma hint_vpage u k : (u, k) ∈ mjoin (f_hints <$> fl) → vpage_ok u.
Proof using Hi. intros [Hu _]%hint_page. by apply okp_vpage. Qed.

Lemma ent_get v : get_pte (page_table c) v None = Ok (ent c v).
Proof using Hi. destruct (table_total _ _ v (si_table _ _ _ _ Hi)) as [e He]. unfold ent. by rewrite He. Qed.

Lemma in_use_ent v : in_use (page_table c) v ↔ p_exist (ent c v) || p_busy (ent c v) = true.
Proof using Hi.
  split; [|intros Hu; exists (ent c v); by rewrite ent_get].
  intros (e & He & Hu). rewrite ent_get in He. by injection He as <-.
Qed.

Lemma srv_frame_is_fun p u v : frame_is c p u → frame_is c p v → u = v.
Proof using. intros (st & Hg & <-) (st' & Hg' & <-). by simplify_eq. Qed.

(** Two resident pages do not share a frame. *)
Lemma srv_resident_inj v1 v2 : resident c v1 → resident c v2 → pp c v1 = pp c v2 → v1 = v2.
Proof using Hi.
  intros H1 H2 E. destruct (si_resident _ _ _ _ Hi v1 H1) as (F1 & _), (si_resident _ _ _ _ Hi v2 H2) as (F2 & _).
  rewrite E in F1. by eapply srv_frame_is_fun.
Qed.

Lemma srv_flight_busy_pages f u : f ∈ fl → u ∈ f_busy f → okp c u ∧ p_busy (ent c u) = true.
Proof using Hi.
  intros Hf Hu. destruct (si_flight _ _ _ _ Hi f Hf) as (_ & _ & Hok & He & Hr).
  split; [by apply (Forall_forall (okp c) (f_busy f))|].
  destruct f; simpl in *; [|destruct (decide (u = pre)) as [->|]; [by rewrite Hr|]|];
    (assert (u = v) as -> by set_solver; by rewrite He).
Qed.

Lemma resident_not_busy v : resident c v → v ∉ mjoin (f_busy <$> fl).
Proof using Hi. intros (_ & _ & Hb) (f & Hf & Hu)%elem_of_busy. destruct (srv_flight_busy_pages f v Hf Hu). congruence. Qed.

Lemma busy_unique f g u : f ∈ fl → g ∈ fl → u ∈ f_busy f → u ∈ f_busy g → f = g.
Proof using Hi.
  pose proof (si_pages _ _ _ _ Hi) as Hnd. revert Hnd. clear.
  induction fl as [|h l IH]; [by intros _ ?%elem_of_nil|].
  intros (Hh & Hd & Hr)%NoDup_app [->|Hf]%elem_of_cons [->|Hg]%elem_of_cons Hu Hv.
  - done.
  - destruct (Hd u Hu). apply elem_of_busy. by exists g.
  - destruct (Hd u Hv). apply elem_of_busy. by exists f.
  - by apply IH.
Qed.

Lemma frame_unique f g : f ∈ fl → g ∈ fl → f_frame f = f_frame g → f = g.
Proof using Hi.
  pose proof (si_frames _ _ _ _ Hi) as Hnd. revert Hnd. clear.
  induction fl as [|h l IH]; [by intros _ ?%elem_of_nil|].
  intros [Hh Hr]%NoDup_cons [->|Hf]%elem_of_cons [->|Hg]%elem_of_cons E.
  - done.
  - destruct Hh. rewrite E. by apply list_elem_of_fmap_2.
  - destruct Hh. rewrite <- E. by apply list_elem_of_fmap_2.
  - by apply IH.
Qed.

Lemma resident_frame v f : resident c v → f ∈ fl → pp c v ≠ f_frame f.
Proof using Hi.
  intros Hr Hf E. destruct (si_resident _ _ _ _ Hi v Hr) as (_ & _ & _ & Hn & _). apply Hn. rewrite E.
  by apply list_elem_of_fmap_2.
Qed.

Lemma member_range p : p ∈ members c → 0 ≤ p < max_ppage_id c.
Proof using Hi. by apply (rep_members_range _ _ _ (si_rep _ _ _ _ Hi)). Qed.

Lemma srv_member_resident v : resident c v → pp c v ∈ members c → ∀ u, resident c u → pp c u = pp c v → u = v.
Proof using Hi. intros Hv _ u Hu E. by apply srv_resident_inj. Qed.
End facts.

(** *** What the changes of the tables do to the invariant *)
Record same_shape c c' : Prop := {
  ss_vpage : max_vpage_id c' = max_vpage_id c;
  ss_ppage : max_ppage_id c' = max_ppage_id c;
  ss_cur : cur_id c' = cur_id c;
  ss_pool : recycle_pool c' = recycle_pool c;
  ss_states : states c' = states c;
}.

Lemma updates_ent c t v e u : updates (page_table c) t v e → vpage_ok u →
  ent (with_page_table c t) u = if decide (u = v) then e else ent c u.
Proof. intros Hup Hu. unfold ent. cbn [page_table with_page_table]. rewrite (Hup u Hu). by case_decide. Qed.

(** The entry of a resident page changes with its pins; the page may enter or
    leave the candidates. *)
Lemma user_change c c' fl held held' notes notes' v e' :
  srv_inv c fl held notes → same_shape c c' →
  hints_ok (page_table c') (mjoin (f_hints <$> fl)) → rep_inv (max_ppage_id c) (replacement c') →
  resident c v → (∀ u, okp c u → ent c' u = if decide (u = v) then e' else ent c u) →
  p_exist e' = true → p_busy e' = false → p_ppage_id e' = pp c v → p_ref_count e' = held_of held' v →
  (∀ u, u ≠ v → held' !! u = held !! u) → (∀ n, held' !! v = Some n → 0 < n < REF_MOD) →
  (∀ q, q ∈ members c' → q ∈ members c ∨ q = pp c v) → (∀ q, q ∈ members c → q ≠ pp c v → q ∈ members c') →
  (held' !! v = None → pp c v ∈ members c' ∨ NUnpin v ∈ notes') →
  (∀ u, u ≠ v → NUnpin u ∈ notes → NUnpin u ∈ notes') →
  pinned_size c' + note_sum notes' - Z.of_nat (base.size held') = pinned_size c + note_sum notes - Z.of_nat (base.size held) →
  srv_inv c' fl held' notes'.
Proof.
  intros Hi [Emv Emp Ecur Epool Est] Ht Hr Hv Hent Hx Hb Hp Hrc Hheld Hrange Hm1 Hm2 Hidle Hnotes Hpin.
  assert (Hok : ∀ u, okp c' u ↔ okp c u) by (intros u; unfold okp; by rewrite Emv).
  pose proof (proj1 Hv) as Hvok.
  assert (Hev : ent c' v = e') by (rewrite Hent by done; by rewrite decide_True).
  assert (Heu : ∀ u, okp c u → u ≠ v → ent c' u = ent c u) by (intros u Hu Hne; rewrite Hent by done; by rewrite decide_False).
  assert (Hpp : ∀ u, okp c u → pp c' u = pp c u).
  { intros u Hu. unfold pp at 1. destruct (decide (u = v)) as [->|Hne]; [by rewrite Hev|by rewrite Heu]. }
  assert (Hres : ∀ u, resident c' u ↔ resident c u).
  { intros u. unfold resident. rewrite Hok. destruct (decide (u = v)) as [->|Hne]; [rewrite Hev; unfold resident in Hv; tauto|].
    split; intros (Hu & H1); [rewrite Heu in H1 by done|rewrite <- Heu in H1 by done]; tauto. }
  assert (Hfr : ∀ p u, frame_is c' p u ↔ frame_is c p u) by (intros p u; unfold frame_is; by rewrite Est).
  split; rewrite ?Emv, ?Emp, ?Ecur, ?Epool, ?Est; try apply Hi; try done.
  - intros u Hu. apply Hres in Hu. pose proof (proj1 Hu) as Huok. rewrite (Hpp u Huok), Hfr.
    destruct (si_resident _ _ _ _ Hi u Hu) as (?&?&?&?&Hrf). do 4 (split; [done|]).
    destruct (decide (u = v)) as [->|Hne]; [by rewrite Hev|]. rewrite Heu by done. rewrite Hrf. unfold held_of. by rewrite Hheld.
  - intros u n Hn. rewrite Hres. destruct (decide (u = v)) as [->|Hne]; [split; [by apply Hrange|done]|].
    rewrite Hheld in Hn by done. by apply (si_held _ _ _ _ Hi).
  - intros u Hu Hbu. apply Hok in Hu. apply (si_busy _ _ _ _ Hi u Hu).
    destruct (decide (u = v)) as [->|Hne]; [rewrite Hev in Hbu; congruence|by rewrite Heu in Hbu by done].
  - intros f Hf. destruct (si_flight _ _ _ _ Hi f Hf) as (H1 & H2 & H3 & H4 & H5). split; [done|]. split; [done|].
    assert (Hfb : ∀ u, u ∈ f_busy f → ent c' u = ent c u).
    { intros u Hu. destruct (srv_flight_busy_pages c fl held notes Hi f u Hf Hu) as [Huok Hub]. apply Heu; [done|].
      intros ->. destruct Hv as (_ & _ & Hvb). congruence. }
    split; [eapply Forall_impl; [exact H3|]; intros u; apply Hok|]. split.
    + rewrite Hfb; [done|]. destruct f; simpl; set_solver.
    + destruct f; simpl in *; [done|rewrite Hfb; [done|set_solver]|by apply Hfr].
  - intros q Hq. destruct (Hm1 q Hq) as [Hq'| ->]; [|exists v; split; [by apply Hres|by apply Hpp]].
    destruct (si_members _ _ _ _ Hi q Hq') as (u & Hu & <-). exists u. split; [by apply Hres|apply Hpp, Hu].
  - intros u Hu Hn. apply Hres in Hu. rewrite (Hpp u (proj1 Hu)). destruct (decide (u = v)) as [->|Hne]; [by apply Hidle|].
    rewrite Hheld in Hn by done. destruct (si_idle _ _ _ _ Hi u Hu Hn) as [Hmem|Hnote]; [left|right; by apply Hnotes].
    apply Hm2; [done|]. intros E. apply Hne. by apply (srv_resident_inj c fl held notes Hi).
  - pose proof (si_pinned _ _ _ _ Hi). lia.
  - intros p Hp0. destruct (si_used _ _ _ _ Hi p Hp0) as [?|[(u & Hu & <-)|?]]; [by left| |by right; right].
    right. left. exists u. split; [by apply Hres|apply Hpp, Hu].
Qed.

(** Only the candidates and the count of pins change. *)
Lemma policy_change c c' fl held notes notes' :
  srv_inv c fl held notes → same_shape c c' → page_table c' = page_table c → rep_inv (max_ppage_id c) (replacement c') →
  (∀ q, q ∈ members c' → q ∈ members c ∨ ∃ v, resident c v ∧ pp c v = q) →
  (∀ v, resident c v → held !! v = None → pp c v ∈ members c ∨ NUnpin v ∈ notes → pp c v ∈ members c' ∨ NUnpin v ∈ notes') →
  pinned_size c' + note_sum notes' = pinned_size c + note_sum notes →
  srv_inv c' fl held notes'.
Proof.
  intros Hi [Emv Emp Ecur Epool Est] Ept Hr Hm1 Hidle Hpin.
  assert (Hent : ∀ u, ent c' u = ent c u) by (intros u; unfold ent; by rewrite Ept).
  assert (Hpp : ∀ u, pp c' u = pp c u) by (intros u; unfold pp; by rewrite Hent).
  assert (Hok : ∀ u, okp c' u ↔ okp c u) by (intros u; unfold okp; by rewrite Emv).
  assert (Hres : ∀ u, resident c' u ↔ resident c u) by (intros u; unfold resident; by rewrite Hok, Hent).
  assert (Hfr : ∀ p u, frame_is c' p u ↔ frame_is c p u) by (intros p u; unfold frame_is; by rewrite Est).
  split; rewrite ?Emv, ?Emp, ?Ecur, ?Epool, ?Est, ?Ept; try apply Hi; try done.
  - intros u Hu. apply Hres in Hu. rewrite Hpp, Hent, Hfr. by apply (si_resident _ _ _ _ Hi).
  - intros u n Hn. rewrite Hres. by apply (si_held _ _ _ _ Hi).
  - intros u Hu Hbu. rewrite Hent in Hbu. apply Hok in Hu. by apply (si_busy _ _ _ _ Hi u Hu).
  - intros f Hf. destruct (si_flight _ _ _ _ Hi f Hf) as (H1 & H2 & H3 & H4 & H5). split; [done|]. split; [done|].
    split; [eapply Forall_impl; [exact H3|]; intros u; apply Hok|]. rewrite Hent. split; [done|].
    destruct f; [done|by rewrite Hent|by apply Hfr].
  - intros q Hq. destruct (Hm1 q Hq) as [Hq'|(u & Hu & <-)]; [|exists u; by rewrite Hres].
    destruct (si_members _ _ _ _ Hi q Hq') as (u & Hu & <-). exists u. by rewrite Hres.
  - intros u Hu Hn. apply Hres in Hu. rewrite Hpp. apply Hidle; [done|done|]. by apply (si_idle _ _ _ _ Hi).
  - pose proof (si_pinned _ _ _ _ Hi). lia.
  - intros p Hp0. destruct (si_used _ _ _ _ Hi p Hp0) as [?|[(u & Hu & <-)|?]]; [by left| |by right; right].
    right. left. exists u. by rewrite Hres.
Qed.

(** The entries of the pages of a request, and of the others, after a change. *)
Lemma flight_ok_ext c c' f : (∀ u, okp c' u ↔ okp c u) → (∀ u, u ∈ f_busy f → ent c' u = ent c u) →
  (∀ u, frame_is c (f_frame f) u → frame_is c' (f_frame f) u) → flight_ok c f → flight_ok c' f.
Proof.
  intros Hok Hent Hfr (H1 & H2 & H3). split; [eapply Forall_impl; [exact H1|]; intros u; apply Hok|]. split.
  - rewrite Hent; [done|]. destruct f; simpl; set_solver.
  - destruct f; simpl in *; [done|rewrite Hent; [done|set_solver]|by apply Hfr].
Qed.

Lemma f_page_busy f : f_page f ∈ f_busy f.
Proof. destruct f; simpl; set_solver. Qed.

(** An absent page is in no request. *)
Lemma absent_not_busy c fl held notes v : srv_inv c fl held notes → p_busy (ent c v) = false → v ∉ mjoin (f_busy <$> fl).
Proof.
  intros Hi Hb (f & Hf & Hu)%elem_of_busy. destruct (srv_flight_busy_pages c fl held notes Hi f v Hf Hu). congruence.
Qed.

Lemma srv_evict_start_inv c c' fl held notes v pre p d h ph tr :
  srv_inv c fl held notes → same_shape c c' → okp c v → p_exist (ent c v) = false → p_busy (ent c v) = false →
  resident c pre → pp c pre = p → held !! pre = None →
  hints_ok (page_table c') ((v, h) :: (pre, ph) :: mjoin (f_hints <$> fl)) →
  (∀ u, okp c u → ent c' u = if decide (u = v) then busy_pte p else if decide (u = pre) then deleted_pte else ent c u) →
  rep_inv (max_ppage_id c) (replacement c') → (∀ q, q ∈ members c' → q ∈ members c ∧ q ≠ p) →
  (∀ u, resident c u → pp c u ∈ members c → u ≠ pre → pp c u ∉ members c' → held !! u ≠ None) →
  pinned_size c' = pinned_size c + 1 →
  srv_inv c' (FEvict v pre p d h ph tr :: fl) held notes.
Proof.
  intros Hi [Emv Emp Ecur Epool Est] Hv Hvx Hvb Hpre Hp Hhpre Ht Hent Hr Hm1 Hm2 Hpin.
  assert (Hne : v ≠ pre) by (intros ->; destruct Hpre as (_ & ? & _); congruence).
  assert (Hok : ∀ u, okp c' u ↔ okp c u) by (intros u; unfold okp; by rewrite Emv).
  assert (Ev : ent c' v = busy_pte p) by (rewrite Hent by done; by rewrite decide_True).
  assert (Epre : ent c' pre = deleted_pte) by (rewrite Hent by apply Hpre; by rewrite decide_False, decide_True).
  assert (Eo : ∀ u, okp c u → u ≠ v → u ≠ pre → ent c' u = ent c u) by (intros u Hu ??; rewrite Hent by done; by rewrite !decide_False).
  assert (Hfr : ∀ q u, frame_is c' q u ↔ frame_is c q u) by (intros q u; unfold frame_is; by rewrite Est).
  assert (Hres : ∀ u, resident c' u ↔ resident c u ∧ u ≠ pre).
  { intros u. unfold resident at 1. rewrite Hok. split.
    - intros (Hu & Hx & Hb). destruct (decide (u = v)) as [->|Huv]; [rewrite Ev in Hb; done|].
      destruct (decide (u = pre)) as [->|Hup]; [rewrite Epre in Hx; done|]. by rewrite Eo in Hx, Hb.
    - intros ((Hu & Hx & Hb) & Hup). split; [done|]. assert (u ≠ v) by (intros ->; congruence). by rewrite Eo. }
  assert (Hpp : ∀ u, resident c' u → pp c' u = pp c u).
  { intros u [(Hu & Hx & Hb) Hup]%Hres. unfold pp. rewrite Eo; [done|done|intros ->; congruence|done]. }
  destruct (si_resident _ _ _ _ Hi pre Hpre) as (Hpf & Hpc & Hpn & Hpfl & _). rewrite Hp in *.
  split; rewrite ?Emv, ?Emp, ?Ecur, ?Epool, ?Est; try apply Hi; try done.
  - intros u Hu. pose proof (Hpp u Hu) as Eu. apply Hres in Hu as [Hu Hup]. rewrite Eu, Hfr.
    destruct (si_resident _ _ _ _ Hi u Hu) as (?&?&?&?&Hrc). split; [done|]. split; [done|]. split; [done|]. split.
    + simpl. intros [E|?]%elem_of_cons; [|done]. apply Hup. apply (srv_resident_inj c fl held notes Hi); [done|done|congruence].
    + rewrite Eo; [done|apply Hu|intros ->; destruct Hu as (_ & ? & _); congruence|done].
  - intros u n Hn. destruct (si_held _ _ _ _ Hi u n Hn) as [? Hu]. split; [done|]. apply Hres. split; [done|]. intros ->. congruence.
  - intros u Hu Hb. destruct (decide (u = v)) as [->|Huv]; [eexists; split; [by apply elem_of_cons; left|simpl; set_solver]|].
    destruct (decide (u = pre)) as [->|Hup]; [eexists; split; [by apply elem_of_cons; left|simpl; set_solver]|].
    apply Hok in Hu. rewrite Eo in Hb by done. destruct (si_busy _ _ _ _ Hi u Hu Hb) as (f & ? & ?).
    exists f. split; [by apply elem_of_cons; right|done].
  - intros f [->|Hf]%elem_of_cons.
    + simpl. split; [done|]. split; [done|]. split; [|done]. simpl. constructor; [by apply Hok|]. constructor; [|done]. by apply Hok, Hpre.
    + destruct (si_flight _ _ _ _ Hi f Hf) as (H1 & H2 & H3). split; [done|]. split; [done|].
      apply (flight_ok_ext c); [done| |intros u; apply Hfr|done].
      intros u Hu. destruct (srv_flight_busy_pages c fl held notes Hi f u Hf Hu) as [Huok Hub].
      apply Eo; [done|intros ->; congruence|intros ->; destruct Hpre as (_ & _ & ?); congruence].
  - simpl. constructor; [done|]. apply Hi.
  - change (NoDup ([v; pre] ++ mjoin (f_busy <$> fl))). apply NoDup_app. split_and!.
    + constructor; [set_solver|]. apply NoDup_singleton.
    + intros u Hu. assert (u = v ∨ u = pre) as [->| ->] by set_solver.
      * by apply (absent_not_busy c fl held notes). * by apply (resident_not_busy c fl held notes Hi).
    + apply Hi.
  - intros q Hq. destruct (Hm1 q Hq) as [Hq' Hqp]. destruct (si_members _ _ _ _ Hi q Hq') as (u & Hu & Eu).
    assert (Hu' : resident c' u) by (apply Hres; split; [done|]; intros ->; congruence).
    exists u. split; [done|]. by rewrite Hpp.
  - intros u Hu Hn. rewrite Hpp by done. apply Hres in Hu as [Hu Hup].
    destruct (si_idle _ _ _ _ Hi u Hu Hn) as [Hmem|?]; [|by right]. left.
    destruct (decide (pp c u ∈ members c')) as [|Hnm]; [done|]. by destruct (Hm2 u Hu Hmem Hup Hnm).
  - rewrite Hpin. pose proof (si_pinned _ _ _ _ Hi). unfold zlen in *. simpl. lia.
  - intros q Hq. destruct (si_used _ _ _ _ Hi q Hq) as [?|[(u & Hu & Eu)|?]]; [by left| |right; right; simpl; by apply elem_of_cons; right].
    destruct (decide (u = pre)) as [->|Hup]; [right; right; simpl; apply elem_of_cons; left; congruence|].
    right. left. assert (Hu' : resident c' u) by (by apply Hres). exists u. split; [done|]. by rewrite Hpp.
Qed.

(** A free frame is taken. *)
Lemma srv_take_inv c c' fl held notes v p h :
  srv_inv c fl held notes → okp c v → p_exist (ent c v) = false → p_busy (ent c v) = false →
  max_vpage_id c' = max_vpage_id c → max_ppage_id c' = max_ppage_id c → states c' = states c → replacement c' = replacement c →
  p ∈ recycle_pool c ∨ cur_id c ≤ p < max_ppage_id c →
  cur_id c ≤ cur_id c' ≤ max_ppage_id c → 0 ≤ p < cur_id c' → NoDup (recycle_pool c') →
  (∀ q, q ∈ recycle_pool c' ↔ q ∈ recycle_pool c ∧ q ≠ p) →
  (∀ q, 0 ≤ q < cur_id c' → q = p ∨ 0 ≤ q < cur_id c) →
  hints_ok (page_table c') ((v, h) :: mjoin (f_hints <$> fl)) →
  (∀ u, okp c u → ent c' u = if decide (u = v) then busy_pte p else ent c u) →
  pinned_size c' = pinned_size c + 1 →
  srv_inv c' (FAlloc v p h :: fl) held notes.
Proof.
  intros Hi Hv Hvx Hvb Emv Emp Est Erep Hfree Hcur Hp Hnd Hpool Hused Ht Hent Hpin.
  assert (Hok : ∀ u, okp c' u ↔ okp c u) by (intros u; unfold okp; by rewrite Emv).
  assert (Ev : ent c' v = busy_pte p) by (rewrite Hent by done; by rewrite decide_True).
  assert (Eo : ∀ u, okp c u → u ≠ v → ent c' u = ent c u) by (intros u Hu ?; rewrite Hent by done; by rewrite !decide_False).
  assert (Hfr : ∀ q u, frame_is c' q u ↔ frame_is c q u) by (intros q u; unfold frame_is; by rewrite Est).
  assert (Hmem : members c' = members c) by (unfold members; by rewrite Erep).
  assert (Hres : ∀ u, resident c' u ↔ resident c u).
  { intros u. unfold resident. rewrite Hok. destruct (decide (u = v)) as [->|Huv].
    - rewrite Ev, Hvx, Hvb. simpl. naive_solver.
    - split; intros (Hu & H1); [rewrite Eo in H1 by done|rewrite <- Eo in H1 by done]; tauto. }
  assert (Hpp : ∀ u, resident c u → pp c' u = pp c u).
  { intros u (Hu & Hx & Hb). unfold pp. rewrite Eo; [done|done|]. intros ->. congruence. }
  assert (Hpn : ∀ q, q ∉ recycle_pool c → 0 ≤ q < cur_id c → q ≠ p).
  { intros q Hq Hqc ->. destruct Hfree; [done|lia]. }
  pose proof (si_cur _ _ _ _ Hi).
  split; rewrite ?Emv, ?Emp, ?Est, ?Erep; try apply Hi; try done; try lia.
  - intros q [Hq _]%Hpool. pose proof (si_pool _ _ _ _ Hi q Hq). lia.
  - intros u Hu. apply Hres in Hu. rewrite (Hpp u Hu), Hfr.
    destruct (si_resident _ _ _ _ Hi u Hu) as (?&?&?&?&Hrc). split; [done|]. split; [lia|]. split; [rewrite Hpool; tauto|]. split.
    + simpl. intros [E|?]%elem_of_cons; [|done]. by apply (Hpn (pp c u)).
    + rewrite Eo; [done|apply Hu|]. intros ->. destruct Hu as (_ & ? & _). congruence.
  - intros u n Hn. rewrite Hres. by apply (si_held _ _ _ _ Hi).
  - intros u Hu Hb. destruct (decide (u = v)) as [->|Huv]; [eexists; split; [by apply elem_of_cons; left|simpl; set_solver]|].
    apply Hok in Hu. rewrite Eo in Hb by done. destruct (si_busy _ _ _ _ Hi u Hu Hb) as (f & ? & ?).
    exists f. split; [by apply elem_of_cons; right|done].
  - intros f [->|Hf]%elem_of_cons.
    + simpl. split; [done|]. split; [rewrite Hpool; tauto|]. split; [|done]. simpl. constructor; [by apply Hok|done].
    + destruct (si_flight _ _ _ _ Hi f Hf) as (Hf1 & Hf2 & Hf3). split; [lia|]. split; [rewrite Hpool; tauto|].
      apply (flight_ok_ext c); [done| |intros u; apply Hfr|done].
      intros u Hu. destruct (srv_flight_busy_pages c fl held notes Hi f u Hf Hu) as [Huok Hub].
      apply Eo; [done|intros ->; congruence].
  - simpl. constructor; [|apply Hi]. intros (f & -> & Hf)%list_elem_of_fmap.
    destruct (si_flight _ _ _ _ Hi f Hf) as (?&?&_). by apply (Hpn (f_frame f)).
  - change (NoDup ([v] ++ mjoin (f_busy <$> fl))). apply NoDup_app. split; [apply NoDup_singleton|]. split; [|apply Hi].
    intros u ->%list_elem_of_singleton. by apply (absent_not_busy c fl held notes).
  - intros q Hq. rewrite Hmem in Hq. destruct (si_members _ _ _ _ Hi q Hq) as (u & Hu & <-). exists u. split; [by apply Hres|by apply Hpp].
  - intros u Hu Hn. apply Hres in Hu. rewrite Hpp, Hmem by done. by apply (si_idle _ _ _ _ Hi).
  - rewrite Hpin. pose proof (si_pinned _ _ _ _ Hi). unfold zlen in *. simpl. lia.
  - intros q Hq. destruct (decide (q = p)) as [->|Hne]; [right; right; simpl; by apply elem_of_cons; left|].
    destruct (Hused q Hq) as [?|Hq']; [done|].
    destruct (si_used _ _ _ _ Hi q Hq') as [?|[(u & Hu & <-)|?]]; [left; by apply Hpool| |].
    + right. left. exists u. split; [by apply Hres|by apply Hpp].
    + right. right. simpl. by apply elem_of_cons; right.
Qed.

(** The page a request evicts, and the line it holds for its own. *)
Definition f_old f : option Z := match f with FEvict _ pre _ _ _ _ _ => Some pre | _ => None end.
Definition f_hint f : Z := match f with FAlloc _ _ h | FEvict _ _ _ _ h _ _ | FLoad _ _ h _ => h end.
Definition freed_pte : unpacked_pte := mk_pte false false false 0 EMPTY_PPAGE_ID.

Lemma f_busy_split f : ∀ u, u ∈ f_busy f ↔ u = f_page f ∨ f_old f = Some u.
Proof. intros u. destruct f; simpl; set_solver. Qed.

(** The old page is out and the load starts. *)
Lemma srv_load_start_inv c c' fl held notes f tr :
  let v := f_page f in let p := f_frame f in
  srv_inv c (f :: fl) held notes → (∀ u q h tr0, f ≠ FLoad u q h tr0) →
  max_vpage_id c' = max_vpage_id c → max_ppage_id c' = max_ppage_id c → cur_id c' = cur_id c →
  recycle_pool c' = recycle_pool c → replacement c' = replacement c → pinned_size c' = pinned_size c →
  zlen (states c') = zlen (states c) → frame_is c' p v → (∀ q u, q ≠ p → frame_is c q u → frame_is c' q u) →
  hints_ok (page_table c') ((v, f_hint f) :: mjoin (f_hints <$> fl)) →
  (∀ u, okp c u → ent c' u = if decide (f_old f = Some u) then freed_pte else ent c u) →
  srv_inv c' (FLoad v p (f_hint f) tr :: fl) held notes.
Proof.
  intros v p Hi Hnl Emv Emp Ecur Epool Erep Hpin Hlen Hframe Hothers Ht Hent.
  assert (Hfin : f ∈ f :: fl) by (by apply elem_of_cons; left).
  destruct (si_flight _ _ _ _ Hi f Hfin) as (Hp & Hnp & (Hfok & Hfe & Hfo)). fold p in Hp, Hnp, Hfe. fold v in Hfe.
  pose proof (si_frames _ _ _ _ Hi) as Hndp. simpl in Hndp. apply NoDup_cons in Hndp as [Hpfl Hndp]. fold p in Hpfl.
  pose proof (si_pages _ _ _ _ Hi) as Hndb. simpl in Hndb. apply NoDup_app in Hndb as (Hnd1 & Hdb & Hnd2).
  assert (Hok : ∀ u, okp c' u ↔ okp c u) by (intros u; unfold okp; by rewrite Emv).
  assert (Hvb : v ∈ f_busy f) by apply f_page_busy.
  assert (Hvok : okp c v) by (by apply (Forall_forall (okp c) (f_busy f))).
  assert (Hvo : f_old f ≠ Some v).
  { unfold v. destruct f as [|v0 pre p0 d0 h0 ph0 tr0|]; simpl in *; [done| |done]. intros [= ->].
    apply NoDup_cons in Hnd1 as [Hn _]. set_solver. }
  assert (Hold : ∀ u, f_old f = Some u → ent c u = deleted_pte ∧ okp c u ∧ u ∈ f_busy f).
  { intros u Hu. assert (u ∈ f_busy f) by (apply f_busy_split; by right). split; [|split; [by apply (Forall_forall (okp c) (f_busy f))|done]].
    destruct f; simpl in *; simplify_eq. done. }
  assert (Hmem : members c' = members c) by (unfold members; by rewrite Erep).
  assert (Hkeep : ∀ u, okp c u → u ∉ f_busy f → ent c' u = ent c u).
  { intros u Hu Hn. rewrite Hent by done. rewrite decide_False; [done|]. intros E. apply Hn, f_busy_split. by right. }
  assert (Hev : ent c' v = busy_pte p) by (rewrite Hent by done; by rewrite decide_False).
  assert (Hres : ∀ u, resident c' u ↔ resident c u).
  { intros u. unfold resident. rewrite Hok. destruct (decide (f_old f = Some u)) as [E|E].
    - destruct (Hold u E) as (Eu & Hu & _). rewrite Hent, decide_True by done. rewrite Eu. simpl. naive_solver.
    - split; intros (Hu & Hxb); rewrite Hent in * by done; rewrite decide_False in * by done; tauto. }
  assert (Hpp : ∀ u, resident c u → pp c' u = pp c u).
  { intros u Hu. unfold pp. rewrite Hkeep; [done|apply Hu|]. intros Hb.
    destruct (srv_flight_busy_pages c (f :: fl) held notes Hi f u Hfin Hb) as [_ ?]. destruct Hu as (_ & _ & ?). congruence. }
  split; rewrite ?Emv, ?Emp, ?Ecur, ?Epool, ?Erep; try apply Hi; try done.
  - rewrite Hlen. apply Hi.
  - intros u Hu. apply Hres in Hu. rewrite (Hpp u Hu).
    destruct (si_resident _ _ _ _ Hi u Hu) as (?&?&?&Hn&Hrc). split.
    { apply Hothers; [|done]. by apply (resident_frame c (f :: fl) held notes Hi u f Hu). }
    split; [done|]. split; [done|]. split; [done|]. rewrite Hkeep; [done|apply Hu|]. intros Hb.
    destruct (srv_flight_busy_pages c (f :: fl) held notes Hi f u Hfin Hb) as [_ ?]. destruct Hu as (_ & _ & ?). congruence.
  - intros u n Hn. rewrite Hres. by apply (si_held _ _ _ _ Hi).
  - intros u Hu Hb. apply Hok in Hu. rewrite Hent in Hb by done. case_decide as Ed; [done|].
    destruct (si_busy _ _ _ _ Hi u Hu Hb) as (g & [->|Hg]%elem_of_cons & Hgu).
    + exists (FLoad v p (f_hint f) tr). split; [by apply elem_of_cons; left|].
      apply f_busy_split in Hgu as [->|?]; [simpl; set_solver|done].
    + exists g. split; [by apply elem_of_cons; right|done].
  - intros g [->|Hg]%elem_of_cons.
    + simpl. split; [done|]. split; [done|]. split; [simpl; constructor; [by apply Hok|done]|]. done.
    + assert (Hg' : g ∈ f :: fl) by (by apply elem_of_cons; right).
      destruct (si_flight _ _ _ _ Hi g Hg') as (Hg1 & Hg2 & Hg3). split; [done|]. split; [done|].
      apply (flight_ok_ext c); [done| | |done].
      * intros u Hu. destruct (srv_flight_busy_pages c (f :: fl) held notes Hi g u Hg' Hu) as [Huok _].
        apply Hkeep; [done|]. intros Huf. apply (Hdb u Huf). apply elem_of_busy. by exists g.
      * intros u. apply Hothers. intros E. apply Hpfl. rewrite <- E. by apply list_elem_of_fmap_2.
  - change (NoDup ([v] ++ mjoin (f_busy <$> fl))). apply NoDup_app. split; [apply NoDup_singleton|]. split; [|done].
    intros u ->%list_elem_of_singleton. by apply Hdb.
  - intros q Hq. rewrite Hmem in Hq. destruct (si_members _ _ _ _ Hi q Hq) as (u & Hu & <-). exists u. split; [by apply Hres|by apply Hpp].
  - intros u Hu Hn. apply Hres in Hu. rewrite Hpp, Hmem by done. by apply (si_idle _ _ _ _ Hi).
  - rewrite Hpin. apply (si_pinned _ _ _ _ Hi).
  - intros q Hq. destruct (si_used _ _ _ _ Hi q Hq) as [?|[(u & Hu & <-)|?]]; [by left| |by right; right].
    right. left. exists u. split; [by apply Hres|by apply Hpp].
Qed.

(** The page is loaded: its request becomes a pin. *)
Lemma srv_load_end_inv c c' fl held notes v p h tr :
  srv_inv c (FLoad v p h tr :: fl) held notes → same_shape c c' → replacement c' = replacement c →
  pinned_size c' = pinned_size c → hints_ok (page_table c') (mjoin (f_hints <$> fl)) →
  (∀ u, okp c u → ent c' u = if decide (u = v) then mk_pte true false false 1 p else ent c u) →
  srv_inv c' fl (<[v := 1]> held) notes ∧ held !! v = None ∧ resident c' v ∧ pp c' v = p.
Proof.
  intros Hi [Emv Emp Ecur Epool Est] Erep Hpin Ht Hent.
  assert (Hfin : FLoad v p h tr ∈ FLoad v p h tr :: fl) by (by apply elem_of_cons; left).
  destruct (si_flight _ _ _ _ Hi _ Hfin) as (Hp & Hnp & (Hfok & Hfe & Hfr0)). simpl in Hp, Hnp, Hfok, Hfe, Hfr0.
  pose proof (si_frames _ _ _ _ Hi) as Hndp. simpl in Hndp. apply NoDup_cons in Hndp as [Hpfl Hndp].
  pose proof (si_pages _ _ _ _ Hi) as Hndb. change (NoDup ([v] ++ mjoin (f_busy <$> fl))) in Hndb.
  apply NoDup_app in Hndb as (_ & Hdb & Hnd2).
  assert (Hok : ∀ u, okp c' u ↔ okp c u) by (intros u; unfold okp; by rewrite Emv).
  assert (Hvok : okp c v) by (apply Forall_cons in Hfok; tauto).
  assert (Hheld : held !! v = None).
  { destruct (held !! v) as [n|] eqn:E; [|done]. destruct (si_held _ _ _ _ Hi v n E) as (_ & _ & _ & Hb). by rewrite Hfe in Hb. }
  assert (Hmem : members c' = members c) by (unfold members; by rewrite Erep).
  assert (Ev : ent c' v = mk_pte true false false 1 p) by (rewrite Hent by done; by rewrite decide_True).
  assert (Eo : ∀ u, okp c u → u ≠ v → ent c' u = ent c u) by (intros u Hu ?; rewrite Hent by done; by rewrite decide_False).
  assert (Hfr : ∀ q u, frame_is c' q u ↔ frame_is c q u) by (intros q u; unfold frame_is; by rewrite Est).
  assert (Hresv : resident c' v) by (unfold resident; rewrite Hok, Ev; done).
  assert (Hnres : ¬ resident c v) by (intros (_ & _ & Hb); by rewrite Hfe in Hb).
  assert (Hres : ∀ u, resident c' u ↔ u = v ∨ resident c u).
  { intros u. destruct (decide (u = v)) as [->|Hne]; [tauto|]. unfold resident. rewrite Hok.
    split; [intros (Hu & Hxb); right; rewrite Eo in Hxb by done; done|intros [?|(Hu & Hxb)]; [done|]; rewrite Eo by done; done]. }
  assert (Hpp : ∀ u, resident c u → pp c' u = pp c u).
  { intros u Hu. unfold pp. rewrite Eo; [done|apply Hu|by intros ->]. }
  assert (Hppv : pp c' v = p) by (unfold pp; by rewrite Ev).
  split; [|done]. split; rewrite ?Emv, ?Emp, ?Ecur, ?Epool, ?Est, ?Erep; try apply Hi; try done.
  - intros u [->|Hu]%Hres.
    + rewrite Hppv, Ev, Hfr. unfold held_of. rewrite lookup_insert_eq. done.
    + rewrite (Hpp u Hu), Hfr. destruct (si_resident _ _ _ _ Hi u Hu) as (?&?&?&Hn&Hrc). simpl in Hn.
      split; [done|]. split; [done|]. split; [done|]. split; [set_solver|].
      assert (u ≠ v) by (by intros ->). rewrite Eo by (done || apply Hu). rewrite Hrc. unfold held_of. by rewrite lookup_insert_ne.
  - intros u n. destruct (decide (u = v)) as [->|Hne].
    + rewrite lookup_insert_eq. intros [= <-]. split; [unfold REF_MOD; lia|done].
    + rewrite lookup_insert_ne by done. intros Hn. rewrite Hres. destruct (si_held _ _ _ _ Hi u n Hn). tauto.
  - intros u Hu Hb. apply Hok in Hu. destruct (decide (u = v)) as [->|Hne]; [by rewrite Ev in Hb|].
    rewrite Eo in Hb by done. destruct (si_busy _ _ _ _ Hi u Hu Hb) as (g & [->|Hg]%elem_of_cons & Hgu); [|by exists g].
    simpl in Hgu. by apply list_elem_of_singleton in Hgu.
  - intros g Hg. assert (Hg' : g ∈ FLoad v p h tr :: fl) by (by apply elem_of_cons; right).
    destruct (si_flight _ _ _ _ Hi g Hg') as (Hg1 & Hg2 & Hg3). split; [done|]. split; [done|].
    apply (flight_ok_ext c); [done| |intros u; apply Hfr|done].
    intros u Hu. destruct (srv_flight_busy_pages c _ held notes Hi g u Hg' Hu) as [Huok _].
    apply Eo; [done|]. intros ->. apply (Hdb v); [set_solver|]. apply elem_of_busy. by exists g.
  - intros q Hq. rewrite Hmem in Hq. destruct (si_members _ _ _ _ Hi q Hq) as (u & Hu & <-).
    exists u. split; [apply Hres; by right|by apply Hpp].
  - intros u [->|Hu]%Hres Hn; [by rewrite lookup_insert_eq in Hn|].
    rewrite Hpp, Hmem by done. apply (si_idle _ _ _ _ Hi); [done|]. rewrite lookup_insert_ne in Hn; [done|by intros ->].
  - rewrite Hpin, map_size_insert_None by done. pose proof (si_pinned _ _ _ _ Hi) as E. unfold zlen in *. simpl in E. lia.
  - intros q Hq. destruct (si_used _ _ _ _ Hi q Hq) as [?|[(u & Hu & <-)|Hqf]]; [by left| |].
    + right. left. exists u. split; [apply Hres; by right|by apply Hpp].
    + simpl in Hqf. apply elem_of_cons in Hqf as [->|?]; [|by right; right]. right. left. by exists v.
Qed.

(** External states and the contexts of the transfers do not matter. *)
Definition same_frames (sts sts' : list (state_type ES)) : Prop := zlen sts' = zlen sts ∧
  ∀ p st, zget sts p = Some st → ∃ st', zget sts' p = Some st' ∧ s_vpage_id st' = s_vpage_id st.

Lemma srv_same_frames_zset (sts : list (state_type ES)) p st ext : zget sts p = Some st →
  same_frames sts (zset sts p (mk_state (s_vpage_id st) ext)).
Proof.
  intros Hg. split; [apply zlen_zset|]. intros q st' Hg'. rewrite zget_zset.
  case_decide as Hd; [|by exists st']. destruct Hd as [<- _]. simplify_eq. by eexists.
Qed.

Definition same_request f f' : Prop := f_page f' = f_page f ∧ f_frame f' = f_frame f ∧ f_busy f' = f_busy f ∧
  f_hints f' = f_hints f ∧ ∀ c, flight_ok c f → flight_ok c f'.

Lemma srv_states_inv c fl f f' held notes sts : srv_inv c (f :: fl) held notes → same_frames (states c) sts →
  same_request f f' → srv_inv (with_states c sts) (f' :: fl) held notes.
Proof.
  intros Hi [Hl Hs] (Ev & Ep & Eb & Eh & Hfok).
  assert (Hfr : ∀ q u, frame_is c q u → frame_is (with_states c sts) q u).
  { intros q u (st & Hg & <-). destruct (Hs q st Hg) as (st' & ? & ?). by exists st'. }
  destruct Hi. split; try done.
  - simpl in *. by rewrite Eh.
  - simpl in *. by rewrite Hl.
  - intros u Hu. destruct (si_resident0 u Hu) as (?&?&?&?&?). split; [by apply Hfr|]. simpl in *. rewrite Ep. done.
  - intros u Hu Hb. destruct (si_busy0 u Hu Hb) as (g & [->|Hg]%elem_of_cons & Hgu).
    + exists f'. split; [by apply elem_of_cons; left|by rewrite Eb].
    + exists g. split; [by apply elem_of_cons; right|done].
  - intros g [->|Hg]%elem_of_cons.
    + destruct (si_flight0 f) as (?&?&?); [by apply elem_of_cons; left|]. rewrite Ep. split; [done|]. split; [done|].
      apply Hfok. apply (flight_ok_ext c); [done|done|intros u; apply Hfr|done].
    + destruct (si_flight0 g) as (?&?&?); [by apply elem_of_cons; right|]. split; [done|]. split; [done|].
      apply (flight_ok_ext c); [done|done|intros u; apply Hfr|done].
  - simpl in *. by rewrite Ep.
  - simpl in *. by rewrite Eb.
  - intros q Hq. simpl in *. rewrite Ep. by apply si_used0.
Qed.
(** The constructor. *)
Lemma init_ent mv mp v : 0 < mp ≤ 2 ^ 31 → 0 ≤ mv ≤ NUM_PACK_PAGES * EMPTY_TAG → okp (init es0 mv mp : cache_t) v →
  ent (init es0 mv mp : cache_t) v = no_pte.
Proof.
  intros Hmp Hmv Hv. unfold ent. cbn [page_table init]. rewrite (init_get mv mp v); [done|unfold init_ok, EMPTY_PPAGE_ID; lia|].
  unfold okp, vpage_ok in *. simpl in *. lia.
Qed.

Lemma init_not_resident mv mp v : 0 < mp ≤ 2 ^ 31 → 0 ≤ mv ≤ NUM_PACK_PAGES * EMPTY_TAG → ¬ resident (init es0 mv mp : cache_t) v.
Proof. intros Hmp Hmv (Hv & Hx & _). by rewrite init_ent in Hx. Qed.

Lemma init_srv_inv mv mp : 0 < mp ≤ 2 ^ 31 → 0 ≤ mv ≤ NUM_PACK_PAGES * EMPTY_TAG → srv_inv (init es0 mv mp : cache_t) [] ∅ [].
Proof.
  intros Hmp31 Hmv. assert (Hmp : init_ok mp) by (unfold init_ok, EMPTY_PPAGE_ID; lia).
  destruct (rep_init_spec (R:=R) mp) as [Hri Hrm]; [lia|].
  pose proof (λ v, init_not_resident mv mp v Hmp31 Hmv) as Hnr. pose proof (λ v, init_ent mv mp v Hmp31 Hmv) as Hent. set (c := init es0 mv mp : cache_t) in *.
  split; try done; cbn [max_ppage_id max_vpage_id page_table replacement states cur_id recycle_pool c init]; try lia.
  - exists (λ _, []). split; [by apply init_table_inv|]. intros u k Hu. simpl in Hu. set_solver.
  - unfold zlen. rewrite length_replicate. lia.
  - constructor.
  - intros p Hp. set_solver.
  - intros v Hv. by destruct (Hnr v).
  - intros v Hv Hb. by rewrite Hent in Hb.
  - intros f Hf. set_solver.
  - constructor.
  - constructor.
  - intros p Hp. unfold members in Hp. simpl in Hp. rewrite Hrm in Hp. set_solver.
  - intros v Hv. by destruct (Hnr v).
Qed.
End server.
