(* ===== verification/SharedServerData.v ===== *)
(** * The shared cache under direct pins: the data

    Where the current contents of every page are: in its frame, in its backing
    store or on the way between them, for any I/O functions that satisfy the
    [IoContract], and what the calls of these functions and the changes of the
    tables do to it. *)
From S2P Require Import Prelude Replacement PteHeader CompactHashPageTable SharedSingleThreadCache SharedSingleThreadCacheSpec SharedServer.
From stdpp Require Import gmap.

Open Scope Z_scope.

Section data.
Context {R : Type} `{ReplacementSpec R} {W EC ES D : Type} (ec0 : EC) (es0 : ES).
Context (evict_func : W → EC → Z → Z → bool → ES → result (W * EC * ES * bool)).
Context (load_func : W → EC → Z → Z → ES → result (W * EC * ES * bool)).
Context `{!IoContract D ec0 evict_func load_func}.

Abbreviation cache_t := (cache R ES).
Abbreviation sys_t := (sys R W ES).
Abbreviation ctx := (context EC ES).
Implicit Types (c : cache_t) (s : sys_t) (x : ctx) (fl : list (flight EC)) (held : gmap Z Z) (notes : list note) (f : flight EC).
Implicit Types (mem : Z → D) (wc : Z → Z) (w : W).

(** The first load of the frame is still to come. *)
Definition f_fresh f : Prop := match f with FAlloc _ _ _ | FLoad _ _ _ None => True | _ => False end.

(** [mem] is the memory the users see, [wc v] the number of pins of [v] whose
    holder has written, or may still write. *)
Record srv_data mem wc w c fl held : Prop := {
  sd_pages : io_pages w = max_vpage_id c;
  sd_frames : io_frames w = max_ppage_id c;
  sd_io : io_inv w (transfers fl);
  sd_touched p : 0 ≤ p < cur_id c → p ∈ touched w ∨ ∃ f, f ∈ fl ∧ f_fresh f ∧ f_frame f = p;
  sd_resident v : resident c v → frame_of w (pp c v) = mem v;
  sd_clean v : resident c v → p_dirty (ent c v) = false → wc v = 0 → disk_of w v = mem v;
  sd_wc v : 0 ≤ wc v ≤ held_of held v;
  sd_absent v : okp c v → p_exist (ent c v) = false → p_busy (ent c v) = false → disk_of w v = mem v;
  sd_target f : f ∈ fl → disk_of w (f_page f) = mem (f_page f);
  sd_evict v pre p d h ph tr : FEvict v pre p d h ph tr ∈ fl →
    if d then frame_of w p = mem pre else disk_of w pre = mem pre;
}.

Definition inv mem wc s fl held notes : Prop :=
  srv_inv (the_cache s) fl held notes ∧ srv_data mem wc (world s) (the_cache s) fl held.

(** *** The transfers in progress *)
Section facts.
Context c fl held notes (Hi : srv_inv c fl held notes).

Lemma flight_range f : f ∈ fl → okp c (f_page f) ∧ 0 ≤ f_frame f < max_ppage_id c.
Proof using Hi.
  intros Hf. destruct (si_flight _ _ _ _ Hi f Hf) as (Hp & _ & Hok & _). pose proof (si_cur _ _ _ _ Hi).
  split; [|lia]. apply (Forall_forall (okp c) (f_busy f)); [done|apply f_page_busy].
Qed.

Lemma evict_range v pre p d h ph tr : FEvict v pre p d h ph tr ∈ fl → okp c pre.
Proof using Hi.
  intros Hf. destruct (si_flight _ _ _ _ Hi _ Hf) as (_ & _ & Hok & _).
  apply (Forall_forall (okp c) (f_busy (FEvict v pre p d h ph tr))); [done|simpl; set_solver].
Qed.

(** Only the evicted page of a dirty eviction is being stored. *)
Lemma stored_page u : stores (transfers fl) u → ∃ v p h ph tr, FEvict v u p true h ph tr ∈ fl ∧ v ≠ u ∧
  p_exist (ent c u) = false ∧ p_busy (ent c u) = true.
Proof using Hi.
  intros (v & p & h & ph & tr & Hf)%stores_flight. exists v, p, h, ph, tr. split; [done|].
  destruct (si_flight _ _ _ _ Hi _ Hf) as (_ & _ & _ & He & Ho). simpl in He, Ho. rewrite Ho.
  split; [|done]. intros ->. by rewrite Ho in He.
Qed.

Lemma target_not_stored f : f ∈ fl → ¬ stores (transfers fl) (f_page f).
Proof using Hi.
  intros Hf (v & p & h & ph & tr & Hf' & Hne & Hx & _)%stored_page.
  destruct (si_flight _ _ _ _ Hi _ Hf) as (_ & _ & _ & He & _). by rewrite He in Hx.
Qed.

Lemma resident_not_stored v : resident c v → ¬ stores (transfers fl) v.
Proof using Hi. intros (_ & Hx & _) (? & ? & ? & ? & ? & _ & _ & Hx' & _)%stored_page. congruence. Qed.

Lemma absent_not_stored v : p_busy (ent c v) = false → ¬ stores (transfers fl) v.
Proof using Hi. intros Hb (? & ? & ? & ? & ? & _ & _ & _ & Hb')%stored_page. congruence. Qed.

Lemma clean_not_stored v pre p h ph tr : FEvict v pre p false h ph tr ∈ fl → ¬ stores (transfers fl) pre.
Proof using Hi.
  intros Hf (v' & p' & h' & ph' & tr' & Hf' & _)%stored_page.
  pose proof (busy_unique c fl held notes Hi _ _ pre Hf Hf') as E.
  specialize (E ltac:(simpl; set_solver) ltac:(simpl; set_solver)). done.
Qed.

Lemma filled_frame q : fills (transfers fl) q → ∃ v h tr, FLoad v q h tr ∈ fl.
Proof using. apply fills_flight. Qed.

Lemma resident_not_filled v : resident c v → ¬ fills (transfers fl) (pp c v).
Proof using Hi. intros Hr (u & h & tr & Hf)%filled_frame. by apply (resident_frame c fl held notes Hi v _ Hr Hf). Qed.

Lemma evicted_not_filled v pre p d h ph tr : FEvict v pre p d h ph tr ∈ fl → ¬ fills (transfers fl) p.
Proof using Hi.
  intros Hf (u & h' & tr' & Hf')%filled_frame. by pose proof (frame_unique c fl held notes Hi _ _ Hf Hf' eq_refl).
Qed.
End facts.

(** The transfer of the first request against the others. *)
Lemma head_transfer c f fl held notes : srv_inv c (f :: fl) held notes →
  (∀ u, u ∈ f_busy f → u ∉ (tr_page <$> transfers fl)) ∧ (f_frame f ∉ (tr_frame <$> transfers fl)).
Proof.
  intros Hi. assert (Hin : f ∈ f :: fl) by (by apply elem_of_cons; left). split.
  - intros u Hu (t & -> & (g & Hg & Et)%elem_of_transfers)%list_elem_of_fmap.
    destruct (transfer_page g t Et) as [Hb _]. pose proof (si_pages _ _ _ _ Hi) as Hnd. simpl in Hnd.
    apply NoDup_app in Hnd as (_ & Hd & _). apply (Hd (tr_page t) Hu). apply elem_of_busy. by exists g.
  - intros (t & E & (g & Hg & Et)%elem_of_transfers)%list_elem_of_fmap.
    destruct (transfer_page g t Et) as [_ Hp]. pose proof (si_frames _ _ _ _ Hi) as Hnd. simpl in Hnd.
    apply NoDup_cons in Hnd as [Hn _]. apply Hn. rewrite E, Hp. by apply list_elem_of_fmap_2.
Qed.

(** The world changed by one call of an I/O function. *)
Lemma io_step_data mem wc w w' c f f' fl held notes :
  srv_inv c (f :: fl) held notes → srv_data mem wc w c (f :: fl) held → same_request (R:=R) (ES:=ES) f f' →
  (f_frame f ∈ touched w') ∨ ¬ f_fresh f →
  io_inv w' (transfers (f' :: fl)) → io_pages w' = io_pages w → io_frames w' = io_frames w →
  (∀ p, p ∈ touched w → p ∈ touched w') →
  (∀ u, okp c u → u ∉ f_busy f → ¬ stores (transfers fl) u → disk_of w' u = disk_of w u) →
  disk_of w' (f_page f) = disk_of w (f_page f) →
  (∀ q, 0 ≤ q < max_ppage_id c → q ≠ f_frame f → ¬ fills (transfers fl) q → frame_of w' q = frame_of w q) →
  (∀ v pre p d h ph tr, f' = FEvict v pre p d h ph tr → if d then frame_of w' p = mem pre else disk_of w' pre = mem pre) →
  srv_data mem wc w' c (f' :: fl) held.
Proof.
  intros Hi Hd (Ev & Ep & Eb & _ & _) Hfresh Hio Epg Efr Htch Hdisk Hown Hframe Hevict.
  assert (Hin : f ∈ f :: fl) by (by apply elem_of_cons; left).
  assert (Hsub : ∀ u, stores (transfers fl) u → stores (transfers (f :: fl)) u).
  { intros u (p & e & (g & Hg & Et)%elem_of_transfers). exists p, e. apply elem_of_transfers. exists g. split; [by apply elem_of_cons; right|done]. }
  assert (Hfil : ∀ q, fills (transfers fl) q → fills (transfers (f :: fl)) q).
  { intros u (p & e & (g & Hg & Et)%elem_of_transfers). exists p, e. apply elem_of_transfers. exists g. split; [by apply elem_of_cons; right|done]. }
  assert (Hother : ∀ g, g ∈ fl → ∀ u, u ∈ f_busy g → u ∉ f_busy f).
  { intros g Hg u Hu Hu'. pose proof (si_pages _ _ _ _ Hi) as Hnd. simpl in Hnd.
    apply NoDup_app in Hnd as (_ & Hdd & _). apply (Hdd u Hu'). apply elem_of_busy. by exists g. }
  pose proof (si_cur _ _ _ _ Hi) as Hcur.
  split.
  - rewrite Epg. apply Hd. - rewrite Efr. apply Hd. - done.
  - intros p Hp. destruct (sd_touched _ _ _ _ _ _ Hd p Hp) as [?|(g & [->|Hg]%elem_of_cons & Hfg & <-)]; [left; by apply Htch| |].
    + destruct Hfresh; [by left|done].
    + right. exists g. split; [by apply elem_of_cons; right|done].
  - intros v Hv. destruct (si_resident _ _ _ _ Hi v Hv) as (_ & Hpv & _ & Hn & _). rewrite Hframe; [by apply (sd_resident _ _ _ _ _ _ Hd)|lia| |].
    + apply (resident_frame c (f :: fl) held notes Hi v f Hv Hin).
    + intros Hf. by apply (resident_not_filled c _ held notes Hi v Hv), Hfil.
  - intros v Hv Hdr Hwc. rewrite Hdisk; [by apply (sd_clean _ _ _ _ _ _ Hd)|apply Hv| |].
    + intros Hb. destruct (srv_flight_busy_pages c _ held notes Hi f v Hin Hb) as [_ Hbb]. destruct Hv as (_ & _ & ?). congruence.
    + intros Hs. by apply (resident_not_stored c _ held notes Hi v Hv), Hsub.
  - apply Hd.
  - intros v Hv Hx Hb. rewrite Hdisk; [by apply (sd_absent _ _ _ _ _ _ Hd)|done| |].
    + intros Hbb. destruct (srv_flight_busy_pages c _ held notes Hi f v Hin Hbb) as [_ ?]. congruence.
    + intros Hs. by apply (absent_not_stored c _ held notes Hi v Hb), Hsub.
  - intros g [->|Hg]%elem_of_cons; [rewrite Ev, Hown; by apply (sd_target _ _ _ _ _ _ Hd)|].
    assert (Hg' : g ∈ f :: fl) by (by apply elem_of_cons; right).
    rewrite Hdisk; [by apply (sd_target _ _ _ _ _ _ Hd)|by apply (flight_range c _ held notes Hi g)| |].
    + apply (Hother g Hg). apply f_page_busy.
    + intros Hs. by apply (target_not_stored c _ held notes Hi g Hg'), Hsub.
  - intros v pre p d h ph tr [E|Hg]%elem_of_cons; [by apply (Hevict _ _ _ _ _ _ _ (eq_sym E))|].
    assert (Hg' : FEvict v pre p d h ph tr ∈ f :: fl) by (by apply elem_of_cons; right).
    pose proof (sd_evict _ _ _ _ _ _ Hd _ _ _ _ _ _ _ Hg') as Hev.
    pose proof (flight_range c _ held notes Hi _ Hg') as [_ Hpr]. simpl in Hpr.
    destruct d.
    + rewrite Hframe; [done|done| |].
      * intros E. pose proof (si_frames _ _ _ _ Hi) as Hnd. simpl in Hnd. apply NoDup_cons in Hnd as [Hn _].
        apply Hn. rewrite <- E. change p with (f_frame (FEvict v pre p true h ph tr)). by apply list_elem_of_fmap_2.
      * intros Hf. by apply (evicted_not_filled c _ held notes Hi v pre p true h ph tr Hg'), Hfil.
    + rewrite Hdisk; [done|by apply (evict_range c _ held notes Hi v pre p false h ph tr)| |].
      * apply (Hother _ Hg). simpl. set_solver.
      * intros Hs. by apply (clean_not_stored c _ held notes Hi v pre p h ph tr Hg'), Hsub.
Qed.

Lemma full_touched mem wc w c fl held : srv_data mem wc w c fl held → full c = true → cur_id c ≤ max_ppage_id c →
  (∀ f, f ∈ fl → ¬ f_fresh f) → ∀ q, 0 ≤ q < io_frames w → q ∈ touched w.
Proof.
  intros Hd Hf Hcur Hna q Hq. rewrite (sd_frames _ _ _ _ _ _ Hd) in Hq. unfold full in Hf.
  apply andb_true_iff in Hf as [Hf _]. apply Z.leb_le in Hf.
  destruct (sd_touched _ _ _ _ _ _ Hd q) as [?|(f & Hin & Hfr & _)]; [lia|done|by destruct (Hna f Hin)].
Qed.

Lemma moving_not_fresh fl f : Forall f_moving fl → f ∈ fl → ¬ f_fresh f.
Proof.
  intros Hm Hin. rewrite Forall_forall in Hm. destruct (Hm _ Hin) as [t Ht].
  destruct f as [| ?????? [e|] |??? [e|]]; naive_solver.
Qed.

(** *** One call of the eviction function *)
Lemma srv_call_evict_ok mem wc s fl held notes x v pre p d h ph tr ext :
  inv mem wc s (FEvict v pre p d h ph tr :: fl) held notes → Forall f_moving fl →
  c_pre_vpage_id x = pre → c_ppage_id x = p → c_dirty x = d → c_pre_external_state x = Some ext →
  (tr = None ∧ c_external_context x = ec0 ∧ full (the_cache s) = true) ∨ tr = Some (c_external_context x) →
  ∃ w' e' ext' b, call_evict evict_func s x = Ok (mk_sys w' (the_cache s),
      set_processing (set_pre_external_state (set_external_context x e') (Some ext')) (negb b)) ∧
    inv mem wc (mk_sys w' (the_cache s)) (FEvict v pre p d h ph (if b then None else Some e') :: fl) held notes ∧
    (b = true → disk_of w' pre = mem pre).
Proof.
  intros [Hi Hd] Hmov Hpre Hp Hdx Hext Htr. set (f := FEvict v pre p d h ph tr) in *.
  assert (Hin : f ∈ f :: fl) by (by apply elem_of_cons; left).
  pose proof (flight_range _ _ _ _ Hi f Hin) as [Hv Hpr]. simpl in Hv, Hpr.
  pose proof (evict_range _ _ _ _ Hi v pre p d h ph tr Hin) as Hpreok.
  destruct (head_transfer _ f fl held notes Hi) as [Htp Htf].
  assert (Hpreb : pre ∈ f_busy f) by (simpl; set_solver).
  pose proof (Htp pre Hpreb) as Hpt. simpl in Htf.
  pose proof (sd_pages _ _ _ _ _ _ Hd) as Epg. pose proof (sd_frames _ _ _ _ _ _ Hd) as Efr.
  pose proof (sd_io _ _ _ _ _ _ Hd) as Hio.
  assert (Hstart : (c_external_context x = ec0 ∧ io_inv (world s) (transfers fl) ∧
      (∀ q, 0 ≤ q < io_frames (world s) → q ∈ touched (world s))) ∨
      io_inv (world s) (TEvict pre p d (c_external_context x) :: transfers fl)).
  { destruct Htr as [(-> & -> & Hfull)| ->]; [left|right; exact Hio]. split; [done|]. split; [exact Hio|].
    eapply full_touched; [exact Hd|done|apply Hi|]. intros g [->|Hk]%elem_of_cons; [by intros []|]. by apply (moving_not_fresh fl). }
  destruct (evict_law (world s) (transfers fl) pre p d (c_external_context x) ext Hstart)
    as (w' & e' & ext' & b & Hev & Hio' & Htch & Epg' & Efr' & Hfrm & Hdsk & Hclean & Hdone);
    [rewrite Epg; exact Hpreok|rewrite Efr; exact Hpr|done|done|].
  exists w', e', ext', b. unfold call_evict. rewrite Hext, Hpre, Hp, Hdx, Hev. cbn [mbind result_bind]. split; [done|].
  pose proof (sd_evict _ _ _ _ _ _ Hd _ _ _ _ _ _ _ Hin) as Hdata.
  assert (Hpf : frame_of w' p = frame_of (world s) p).
  { apply Hfrm; [lia|]. intros Hfl. apply (evicted_not_filled _ _ held notes Hi v pre p d h ph tr Hin).
    destruct Hfl as (u & e & Hue). exists u, e. unfold transfers in *. simpl. destruct tr; simpl; [by apply elem_of_cons; right|done]. }
  split.
  - assert (Hreq : same_request (R:=R) (ES:=ES) f (FEvict v pre p d h ph (if b then None else Some e'))) by done.
    split.
    + simpl. destruct (the_cache s) as [mv mp pt ps ci rp sts rep] eqn:Ec.
      apply (srv_states_inv _ fl f _ held notes sts Hi); [|done]. split; [done|]. intros q st Hq. by exists st.
    + apply (io_step_data mem wc (world s) w' _ f _ fl held notes Hi Hd Hreq); try done.
      * right. by intros [].
      * unfold transfers in *. simpl. destruct b; exact Hio'.
      * intros q Hq. by rewrite Htch.
      * intros u Hu Hub Hst. apply Hdsk; [rewrite Epg; exact Hu| |done]. intros ->. done.
      * apply Hdsk; [rewrite Epg; exact Hv| |].
        { simpl. intros E. pose proof (si_pages _ _ _ _ Hi) as Hnd. simpl in Hnd. rewrite E in Hnd.
          apply NoDup_cons in Hnd as [Hn _]. set_solver. }
        intros Hst. apply (target_not_stored _ _ held notes Hi f Hin).
        destruct Hst as (u & e & Hue). exists u, e. unfold transfers in *. simpl. destruct tr; simpl; [by apply elem_of_cons; right|done].
      * intros q Hq Hne Hfl. apply Hfrm; [lia|done].
      * intros v0 pre0 p0 d0 h0 ph0 tr0 [= <- <- <- <- _ _ _]. destruct d; [by rewrite Hpf|]. by rewrite Hclean.
  - intros ->. destruct d; [by rewrite Hdone|by rewrite Hclean].
Qed.

(** *** One call of the load function *)
Lemma srv_call_load_ok mem wc s fl held notes x v p h tr :
  inv mem wc s (FLoad v p h tr :: fl) held notes →
  c_vpage_id x = v → c_ppage_id x = p → c_external_state x = Some p →
  (tr = None ∧ c_external_context x = ec0) ∨ tr = Some (c_external_context x) →
  ∃ w' sts e' b, call_load load_func s x = Ok (mk_sys w' (with_states (the_cache s) sts),
      set_processing (set_external_context x e') (negb b)) ∧
    inv mem wc (mk_sys w' (with_states (the_cache s) sts)) (FLoad v p h (if b then None else Some e') :: fl) held notes ∧
    (p ∈ touched w') ∧ (b = true → frame_of w' p = mem v).
Proof.
  intros [Hi Hd] Hxv Hxp Hext Htr. set (f := FLoad v p h tr) in *.
  assert (Hin : f ∈ f :: fl) by (by apply elem_of_cons; left).
  pose proof (flight_range _ _ _ _ Hi f Hin) as [Hv Hpr]. simpl in Hv, Hpr.
  destruct (head_transfer _ f fl held notes Hi) as [Htp Htf].
  pose proof (Htp v (f_page_busy f)) as Hvt. simpl in Htf.
  pose proof (sd_pages _ _ _ _ _ _ Hd) as Epg. pose proof (sd_frames _ _ _ _ _ _ Hd) as Efr.
  pose proof (sd_io _ _ _ _ _ _ Hd) as Hio.
  destruct (si_flight _ _ _ _ Hi f Hin) as (_ & _ & _ & _ & ([u ext] & Hg & Hu)). simpl in Hg, Hu. subst u.
  assert (Hstart : (c_external_context x = ec0 ∧ io_inv (world s) (transfers fl)) ∨
      io_inv (world s) (TLoad v p (c_external_context x) :: transfers fl)).
  { destruct Htr as [(-> & ->)| ->]; [left|right; exact Hio]. split; [done|exact Hio]. }
  destruct (load_law (world s) (transfers fl) v p (c_external_context x) ext Hstart)
    as (w' & e' & ext' & b & Hev & Hio' & Htch & Epg' & Efr' & Hfrm & Hdsk & Hdone);
    [rewrite Epg; exact Hv|rewrite Efr; exact Hpr|done|done|].
  unfold call_load. rewrite Hext, (bind_rew _ _ _ (proj2 (aread_Ok _ _ _) Hg)), Hxv, Hxp. cbn [s_external s_vpage_id].
  rewrite Hev. cbn [mbind result_bind]. rewrite awrite_total by (by eapply zget_range). cbn [mbind result_bind].
  assert (Hvs : ¬ stores (transfers fl) v).
  { intros Hst. apply (target_not_stored _ _ held notes Hi f Hin).
    destruct Hst as (u & e & Hue). exists u, e. unfold transfers in *. simpl. destruct tr; simpl; [by apply elem_of_cons; right|done]. }
  eexists w', _, e', b. split; [done|].
  assert (Hreq : same_request (R:=R) (ES:=ES) f (FLoad v p h (if b then None else Some e'))) by done.
  split; [split|split; [rewrite Htch; set_solver|]].
  - apply (srv_states_inv _ fl f); [done|by apply (srv_same_frames_zset _ p (mk_state v ext))|done].
  - assert (Hd' : srv_data mem wc w' (the_cache s) (FLoad v p h (if b then None else Some e') :: fl) held); [|by destruct Hd'; split].
    apply (io_step_data mem wc (world s) w' _ f _ fl held notes Hi Hd Hreq); try done.
    + left. rewrite Htch. simpl. set_solver.
    + unfold transfers in *. simpl. destruct b; exact Hio'.
    + intros q Hq. rewrite Htch. set_solver.
    + intros u Hu Hub Hst. apply Hdsk; [rewrite Epg; exact Hu|done].
    + apply Hdsk; [rewrite Epg; exact Hv|done].
    + intros q Hq Hne Hfl. apply Hfrm; [lia|done|done].
  - intros ->. rewrite Hdone by done. by apply (sd_target _ _ _ _ _ _ Hd f).
Qed.

(** *** The data across the changes of the tables *)
Lemma user_change_data mem wc wc' w c c' fl held held' v e' :
  srv_data mem wc w c fl held → same_shape c c' → resident c v →
  (∀ u, okp c u → ent c' u = if decide (u = v) then e' else ent c u) →
  p_exist e' = true → p_busy e' = false → p_ppage_id e' = pp c v →
  (∀ u, u ≠ v → held' !! u = held !! u) → (∀ u, u ≠ v → wc' u = wc u) → 0 ≤ wc' v ≤ held_of held' v →
  (p_dirty e' = false → wc' v = 0 → disk_of w v = mem v) →
  srv_data mem wc' w c' fl held'.
Proof.
  intros Hd [Emv Emp Ecur Epool Est] Hv Hent Hx Hb Hp Hheld Hwc Hwcv Hclean. pose proof (proj1 Hv) as Hvok.
  assert (Hok : ∀ u, okp c' u ↔ okp c u) by (intros u; unfold okp; by rewrite Emv).
  assert (Hev : ent c' v = e') by (rewrite Hent by done; by rewrite decide_True).
  assert (Heu : ∀ u, okp c u → u ≠ v → ent c' u = ent c u) by (intros u Hu Hne; rewrite Hent by done; by rewrite decide_False).
  assert (Hpp : ∀ u, okp c u → pp c' u = pp c u).
  { intros u Hu. unfold pp at 1. destruct (decide (u = v)) as [->|Hne]; [by rewrite Hev|by rewrite Heu]. }
  assert (Hres : ∀ u, resident c' u → resident c u).
  { intros u Hu. destruct (decide (u = v)) as [->|Hne]; [done|]. destruct Hu as (Hu%Hok & Hxb). rewrite Heu in Hxb by done. done. }
  split; rewrite ?Emv, ?Emp, ?Ecur; try apply Hd.
  - intros u Hu%Hres. rewrite Hpp by apply Hu. by apply (sd_resident _ _ _ _ _ _ Hd).
  - intros u Hu%Hres Hdr Hw0. destruct (decide (u = v)) as [->|Hne]; [rewrite Hev in Hdr; by apply Hclean|].
    rewrite Heu in Hdr by (done || apply Hu). rewrite Hwc in Hw0 by done. by apply (sd_clean _ _ _ _ _ _ Hd).
  - intros u. destruct (decide (u = v)) as [->|Hne]; [done|]. rewrite Hwc by done. unfold held_of. rewrite Hheld by done.
    apply (sd_wc _ _ _ _ _ _ Hd).
  - intros u Hu Hxu Hbu. apply Hok in Hu. destruct (decide (u = v)) as [->|Hne]; [rewrite Hev in Hxu; congruence|].
    rewrite Heu in Hxu, Hbu by done. by apply (sd_absent _ _ _ _ _ _ Hd).
Qed.

Lemma same_entries_data mem wc w c c' fl held : srv_data mem wc w c fl held → same_shape c c' →
  (∀ u, okp c u → ent c' u = ent c u) → srv_data mem wc w c' fl held.
Proof.
  intros Hd [Emv Emp Ecur Epool Est] Hent.
  assert (Hok : ∀ u, okp c' u ↔ okp c u) by (intros u; unfold okp; by rewrite Emv).
  assert (Hres : ∀ u, resident c' u → resident c u) by (intros u (Hu%Hok & Hxb); rewrite Hent in Hxb by done; done).
  split; rewrite ?Emv, ?Emp, ?Ecur; try apply Hd.
  - intros u Hu%Hres. unfold pp. rewrite Hent by apply Hu. by apply (sd_resident _ _ _ _ _ _ Hd).
  - intros u Hu%Hres Hdr Hw0. rewrite Hent in Hdr by apply Hu. by apply (sd_clean _ _ _ _ _ _ Hd).
  - intros u Hu Hxu Hbu. apply Hok in Hu. rewrite Hent in Hxu, Hbu by done. by apply (sd_absent _ _ _ _ _ _ Hd).
Qed.

(** The eviction starts: [d] is the flag the victim is taken to have, and [mem']
    what its page holds then: its frame if it is to be stored, its block if not. *)
Lemma srv_evict_start_flag mem mem' wc w c c' fl held notes v pre p (d : bool) h ph :
  srv_inv c fl held notes → srv_data mem wc w c fl held → same_shape c c' →
  okp c v → p_exist (ent c v) = false → p_busy (ent c v) = false → resident c pre → pp c pre = p →
  (∀ u, u ≠ pre → mem' u = mem u) → (if d then frame_of w p else disk_of w pre) = mem' pre →
  (∀ u, okp c u → ent c' u = if decide (u = v) then busy_pte p else if decide (u = pre) then deleted_pte else ent c u) →
  srv_data mem' wc w c' (FEvict v pre p d h ph None :: fl) held.
Proof.
  intros Hi Hd [Emv Emp Ecur Epool Est] Hv Hvx Hvb Hpre Hp Hmem Hflag Hent.
  assert (Hok : ∀ u, okp c' u ↔ okp c u) by (intros u; unfold okp; by rewrite Emv).
  assert (Hcase : ∀ u, okp c u → u = v ∧ ent c' u = busy_pte p ∨ u = pre ∧ ent c' u = deleted_pte ∨ u ≠ pre ∧ ent c' u = ent c u).
  { intros u Hu. rewrite Hent by done. repeat case_decide; naive_solver. }
  assert (Hvp : v ≠ pre) by (intros ->; destruct Hpre as (_ & ? & _); congruence).
  assert (Hres : ∀ u, resident c' u → resident c u ∧ ent c' u = ent c u ∧ u ≠ pre).
  { intros u (Hu%Hok & Hx & Hb). destruct (Hcase u Hu) as [[-> E]|[[-> E]|[? E]]]; rewrite E in Hx, Hb; done. }
  split; rewrite ?Emv, ?Emp, ?Ecur; try apply Hd.
  - intros q Hq. destruct (sd_touched _ _ _ _ _ _ Hd q Hq) as [?|(g & ? & ?)]; [by left|right; exists g; split; [by apply elem_of_cons; right|done]].
  - intros u (Hu & E & Hne)%Hres. unfold pp. rewrite E, Hmem by done. by apply (sd_resident _ _ _ _ _ _ Hd).
  - intros u (Hu & E & Hne)%Hres Hdr Hw0. rewrite E in Hdr. rewrite Hmem by done. by apply (sd_clean _ _ _ _ _ _ Hd).
  - intros u Hu Hxu Hbu. apply Hok in Hu. destruct (Hcase u Hu) as [[-> E]|[[-> E]|[Hne E]]]; rewrite E in Hxu, Hbu; try done.
    rewrite Hmem by done. by apply (sd_absent _ _ _ _ _ _ Hd).
  - intros f [->|Hf]%elem_of_cons.
    + cbn [f_page]. rewrite Hmem by done. by apply (sd_absent _ _ _ _ _ _ Hd).
    + rewrite Hmem; [by apply (sd_target _ _ _ _ _ _ Hd)|]. intros E. destruct (si_flight _ _ _ _ Hi f Hf) as (_ & _ & _ & He & _).
      rewrite E in He. destruct Hpre as (_ & _ & Hb). by rewrite He in Hb.
  - intros v0 pre0 p0 d0 h0 ph0 tr0 [E|Hf]%elem_of_cons; [injection E as -> -> -> -> _ _ _; by destruct d|].
    rewrite Hmem; [by apply (sd_evict _ _ _ _ _ _ Hd _ _ _ _ _ _ _ Hf)|]. intros ->.
    destruct (si_flight _ _ _ _ Hi _ Hf) as (_ & _ & _ & _ & Ho). destruct Hpre as (_ & _ & Hb). simpl in Ho. by rewrite Ho in Hb.
Qed.

Lemma srv_evict_start_data mem wc w c c' fl held notes v pre p d h ph :
  srv_inv c fl held notes → srv_data mem wc w c fl held → same_shape c c' →
  okp c v → p_exist (ent c v) = false → p_busy (ent c v) = false →
  resident c pre → pp c pre = p → held !! pre = None → p_dirty (ent c pre) = d →
  (∀ u, okp c u → ent c' u = if decide (u = v) then busy_pte p else if decide (u = pre) then deleted_pte else ent c u) →
  srv_data mem wc w c' (FEvict v pre p d h ph None :: fl) held.
Proof.
  intros Hi Hd Hss Hv Hvx Hvb Hpre Hp Hh Hdirty Hent. apply (srv_evict_start_flag mem mem wc w c c' fl held notes); try done.
  pose proof (sd_wc _ _ _ _ _ _ Hd pre) as Hw. unfold held_of in Hw. rewrite Hh in Hw. simpl in Hw. destruct d.
  - rewrite <- Hp. by apply (sd_resident _ _ _ _ _ _ Hd).
  - apply (sd_clean _ _ _ _ _ _ Hd); [done|done|lia].
Qed.

Lemma srv_take_data mem wc w c c' fl held v p h : srv_data mem wc w c fl held →
  max_vpage_id c' = max_vpage_id c → max_ppage_id c' = max_ppage_id c →
  (∀ q, 0 ≤ q < cur_id c' → q = p ∨ 0 ≤ q < cur_id c) →
  okp c v → p_exist (ent c v) = false → p_busy (ent c v) = false →
  (∀ u, okp c u → ent c' u = if decide (u = v) then busy_pte p else ent c u) →
  srv_data mem wc w c' (FAlloc v p h :: fl) held.
Proof.
  intros Hd Emv Emp Hcur Hv Hvx Hvb Hent.
  assert (Hok : ∀ u, okp c' u ↔ okp c u) by (intros u; unfold okp; by rewrite Emv).
  assert (Hcase : ∀ u, okp c u → u = v ∧ ent c' u = busy_pte p ∨ ent c' u = ent c u).
  { intros u Hu. rewrite Hent by done. case_decide; naive_solver. }
  assert (Hres : ∀ u, resident c' u → resident c u ∧ ent c' u = ent c u).
  { intros u (Hu%Hok & Hx & Hb). destruct (Hcase u Hu) as [[-> E]|E]; rewrite E in Hx, Hb; done. }
  split; rewrite ?Emv, ?Emp; try apply Hd.
  - intros q Hq. destruct (Hcur q Hq) as [->|Hq'].
    + right. exists (FAlloc v p h). split; [by apply elem_of_cons; left|done].
    + destruct (sd_touched _ _ _ _ _ _ Hd q Hq') as [?|(g & ? & ?)]; [by left|right; exists g; split; [by apply elem_of_cons; right|done]].
  - intros u [Hu E]%Hres. unfold pp. rewrite E. by apply (sd_resident _ _ _ _ _ _ Hd).
  - intros u [Hu E]%Hres Hdr Hw0. rewrite E in Hdr. by apply (sd_clean _ _ _ _ _ _ Hd).
  - intros u Hu Hxu Hbu. apply Hok in Hu. destruct (Hcase u Hu) as [[-> E]|E]; rewrite E in Hxu, Hbu; try done.
    by apply (sd_absent _ _ _ _ _ _ Hd).
  - intros f [->|Hf]%elem_of_cons; [by apply (sd_absent _ _ _ _ _ _ Hd)|by apply (sd_target _ _ _ _ _ _ Hd)].
  - intros v0 pre0 p0 d0 h0 ph0 tr0 [E|Hf]%elem_of_cons; [done|by apply (sd_evict _ _ _ _ _ _ Hd _ _ _ _ _ _ _ Hf)].
Qed.

Lemma srv_load_start_data mem wc w c c' fl held notes f : srv_inv c (f :: fl) held notes → srv_data mem wc w c (f :: fl) held →
  f_transfer f = None → max_vpage_id c' = max_vpage_id c → max_ppage_id c' = max_ppage_id c → cur_id c' = cur_id c →
  (∀ u, f_old f = Some u → disk_of w u = mem u) →
  (∀ u, okp c u → ent c' u = if decide (f_old f = Some u) then freed_pte else ent c u) →
  srv_data mem wc w c' (FLoad (f_page f) (f_frame f) (f_hint f) None :: fl) held.
Proof.
  intros Hi Hd Htr Emv Emp Ecur Hout Hent.
  assert (Hin : f ∈ f :: fl) by (by apply elem_of_cons; left).
  assert (Hok : ∀ u, okp c' u ↔ okp c u) by (intros u; unfold okp; by rewrite Emv).
  assert (Hcase : ∀ u, okp c u → f_old f = Some u ∧ ent c' u = freed_pte ∨ ent c' u = ent c u).
  { intros u Hu. rewrite Hent by done. case_decide; naive_solver. }
  assert (Hres : ∀ u, resident c' u → resident c u ∧ ent c' u = ent c u).
  { intros u (Hu%Hok & Hx & Hb). destruct (Hcase u Hu) as [[_ E]|E]; rewrite E in Hx, Hb; done. }
  split; rewrite ?Emv, ?Emp, ?Ecur; try apply Hd.
  - pose proof (sd_io _ _ _ _ _ _ Hd) as Hio. unfold transfers in *. simpl in *. by rewrite Htr in Hio.
  - intros q Hq. destruct (sd_touched _ _ _ _ _ _ Hd q Hq) as [?|(g & [->|Hg]%elem_of_cons & ? & <-)]; [by left| |].
    + right. eexists. split; [by apply elem_of_cons; left|]. done.
    + right. exists g. split; [by apply elem_of_cons; right|done].
  - intros u [Hu E]%Hres. unfold pp. rewrite E. by apply (sd_resident _ _ _ _ _ _ Hd).
  - intros u [Hu E]%Hres Hdr Hw0. rewrite E in Hdr. by apply (sd_clean _ _ _ _ _ _ Hd).
  - intros u Hu Hxu Hbu. apply Hok in Hu. destruct (Hcase u Hu) as [[Eo E]|E]; [by apply Hout|]. rewrite E in Hxu, Hbu.
    by apply (sd_absent _ _ _ _ _ _ Hd).
  - intros g [->|Hg]%elem_of_cons; [by apply (sd_target _ _ _ _ _ _ Hd f)|apply (sd_target _ _ _ _ _ _ Hd)]. by apply elem_of_cons; right.
  - intros v0 pre0 p0 d0 h0 ph0 tr0 [E|Hf]%elem_of_cons; [done|].
    apply (sd_evict _ _ _ _ _ _ Hd v0 pre0 p0 d0 h0 ph0 tr0). by apply elem_of_cons; right.
Qed.

Lemma srv_load_end_data mem wc w c c' fl held notes v p h : srv_inv c (FLoad v p h None :: fl) held notes →
  srv_data mem wc w c (FLoad v p h None :: fl) held → same_shape c c' → frame_of w p = mem v → (p ∈ touched w) →
  (∀ u, okp c u → ent c' u = if decide (u = v) then mk_pte true false false 1 p else ent c u) →
  srv_data mem wc w c' fl (<[v := 1]> held).
Proof.
  intros Hi Hd [Emv Emp Ecur Epool Est] Hfm Htch Hent.
  set (f := FLoad v p h None) in *. assert (Hin : f ∈ f :: fl) by (by apply elem_of_cons; left).
  assert (Hok : ∀ u, okp c' u ↔ okp c u) by (intros u; unfold okp; by rewrite Emv).
  assert (Hcase : ∀ u, okp c u → u = v ∧ ent c' u = mk_pte true false false 1 p ∨ u ≠ v ∧ ent c' u = ent c u).
  { intros u Hu. rewrite Hent by done. case_decide; naive_solver. }
  assert (Hvh : held !! v = None).
  { destruct (held !! v) as [n|] eqn:E; [|done]. destruct (si_held _ _ _ _ Hi v n E) as (_ & _ & _ & Hb).
    destruct (srv_flight_busy_pages _ _ _ _ Hi f v Hin (f_page_busy f)) as [_ Hbb]. congruence. }
  assert (Hres : ∀ u, resident c' u → u = v ∧ ent c' u = mk_pte true false false 1 p ∨ resident c u ∧ ent c' u = ent c u).
  { intros u (Hu%Hok & Hx & Hb). destruct (Hcase u Hu) as [?|[? E]]; [by left|]. right. rewrite E in Hx, Hb. done. }
  split; rewrite ?Emv, ?Emp, ?Ecur; try apply Hd.
  - intros q Hq. destruct (sd_touched _ _ _ _ _ _ Hd q Hq) as [?|(g & [->|Hg]%elem_of_cons & ? & <-)]; [by left|by left|].
    right. by exists g.
  - intros u [[-> E]|[Hu E]]%Hres; unfold pp; rewrite E; [done|by apply (sd_resident _ _ _ _ _ _ Hd)].
  - intros u [[-> E]|[Hu E]]%Hres Hdr Hw0; [by apply (sd_target _ _ _ _ _ _ Hd f)|]. rewrite E in Hdr. by apply (sd_clean _ _ _ _ _ _ Hd).
  - intros u. pose proof (sd_wc _ _ _ _ _ _ Hd u) as Hw. unfold held_of in *.
    destruct (decide (u = v)) as [->|Hne]; [rewrite lookup_insert_eq; rewrite Hvh in Hw; simpl in *; lia|by rewrite lookup_insert_ne].
  - intros u Hu Hxu Hbu. apply Hok in Hu. destruct (Hcase u Hu) as [[-> E]|[? E]]; rewrite E in Hxu, Hbu; [done|].
    by apply (sd_absent _ _ _ _ _ _ Hd).
  - intros g Hg. apply (sd_target _ _ _ _ _ _ Hd). by apply elem_of_cons; right.
  - intros v0 pre0 p0 d0 h0 ph0 tr0 Hf. apply (sd_evict _ _ _ _ _ _ Hd v0 pre0 p0 d0 h0 ph0 tr0). by apply elem_of_cons; right.
Qed.
End data.
