(* ===== verification/SharedServerSpec.v ===== *)
(** * The shared cache under direct pins: what it promises

    A partition refines a flat memory: whoever holds a pin of a page has a frame
    with the current contents of that page, whatever the server evicts and loads
    for others in the meantime, and however late the notifications of the pins
    arrive.  The I/O functions are those of any [IoContract]. *)
From S2P Require Import Prelude Replacement PteHeader CompactHashPageTable CompactTableLines SharedSingleThreadCache SharedSingleThreadCacheSpec SharedServer SharedServerData.
From stdpp Require Import gmap.

Open Scope Z_scope.

Section spec.
Context {R : Type} `{ReplacementSpec R} {W EC ES D : Type} (ec0 : EC) (es0 : ES).
Context (evict_func : W → EC → Z → Z → bool → ES → result (W * EC * ES * bool)).
Context (load_func : W → EC → Z → Z → ES → result (W * EC * ES * bool)).
Context `{!IoContract D ec0 evict_func load_func}.

Abbreviation cache_t := (cache R ES).
Abbreviation sys_t := (sys R W ES).
Abbreviation ctx := (context EC ES).
Abbreviation inv := (inv ec0 evict_func load_func).
Implicit Types (c : cache_t) (s : sys_t) (x : ctx) (fl : list (flight EC)) (held : gmap Z Z) (notes : list note) (f : flight EC).
Implicit Types (mem : Z → D) (wc : Z → Z) (w : W).

Definition used_pte (e : unpacked_pte) : bool := p_exist e || p_busy e.

(** *** Calls on the page table *)
Lemma entry_call c Hs v hint cl e' r : 0 ≤ max_vpage_id c ≤ NUM_PACK_PAGES * EMPTY_TAG →
  hints_ok (page_table c) Hs → (∀ u k, (u, k) ∈ Hs → okp c u) → okp c v →
  match hint with None => used_pte (ent c v) = true | Some k => (v, k) ∈ Hs end →
  pte_step cl (ent c v) = Some (e', r) →
  ∃ t, run_call cl (page_table c) v hint = Ok (t, r) ∧
    (∀ u, okp c u → ent (with_page_table c t) u = if decide (u = v) then e' else ent c u) ∧
    (∀ m tg, v < m.2 → used_pte e' = true ∨ cl = ReleaseLock ∧ r = RBool true → used_but m tg (page_table c) → used_but m (but_tag tg v) t) ∧
    ∀ H', (∀ u k, (u, k) ∈ H' → (u, k) ∈ Hs ∧ (cl ≠ ReleaseLock ∨ used_pte (ent (with_page_table c t) u) = true)) →
      hints_ok t H'.
Proof.
  intros Hmax Hh Hok Hv Hhint Hstep.
  assert (Hvp : ∀ u, okp c u → vpage_ok u) by (unfold okp, vpage_ok; lia).
  assert (Hget : ∀ u, get_pte (page_table c) u None = Ok (ent c u)).
  { intros u. destruct (table_total _ _ u Hh) as [e He]. unfold ent. by rewrite He. }
  destruct (table_call (page_table c) Hs cl v hint (ent c v) e' r Hh) as (t & Hrun & Hup & Hused & Hkeep);
    [by apply Hvp|intros u k Hu; by apply Hvp, (Hok u k)|done|done|done|].
  exists t. split; [done|]. split; [intros u Hu; apply updates_ent; [done|by apply Hvp]|]. split; [done|].
  intros H' HH. apply Hkeep. intros u k Hu. destruct (HH u k Hu) as [HuH Hor]. split; [done|].
  destruct Hor as [?|Huse]; [by left|right]. unfold used_pte, ent in Huse. simpl in Huse.
  destruct (get_pte t u None) as [e|] eqn:E; [|done]. by exists e.
Qed.

Lemma pin_run_call t v hint t' b p n : run_call Pin t v hint = Ok (t', RPin (b, p, n)) → CompactHashPageTable.pin t v hint = Ok (t', (b, p, n)).
Proof. simpl. intros ([t1 r] & E & [= <- <-])%bind_Ok. done. Qed.
Lemma unpin_run_call t v (b : bool) hint t' n : run_call (Unpin b) t v hint = Ok (t', RCount n) → CompactHashPageTable.unpin t v b hint = Ok (t', n).
Proof. simpl. intros ([t1 r] & E & [= <- <-])%bind_Ok. done. Qed.
Lemma create_run_call t v p n hint t' b : run_call (CreateMapping p n) t v hint = Ok (t', RBool b) → create_mapping t v p n hint = Ok (t', b).
Proof. simpl. intros ([t1 r] & E & [= <- <-])%bind_Ok. done. Qed.
Lemma delete_run_call t v hint t' b : run_call DeleteMapping t v hint = Ok (t', RBool b) → delete_mapping t v hint = Ok (t', b).
Proof. simpl. intros ([t1 r] & E & [= <- <-])%bind_Ok. done. Qed.
Lemma release_run_call t v hint t' b : run_call ReleaseLock t v hint = Ok (t', RBool b) → release_mapping_lock t v hint = Ok (t', b).
Proof. simpl. intros ([t1 r] & E & [= <- <-])%bind_Ok. done. Qed.

(** *** The hints of the requests *)
Lemma hint_okp c fl held notes u k : srv_inv c fl held notes → (u, k) ∈ mjoin (f_hints <$> fl) → okp c u ∧ used_pte (ent c u) = true.
Proof.
  intros Hi Hin. destruct (hint_page c fl held notes Hi u k Hin) as [Hu Huse]. split; [done|].
  by apply (in_use_ent c fl held notes Hi).
Qed.

Lemma hint_busy c fl held notes u k : srv_inv c fl held notes → (u, k) ∈ mjoin (f_hints <$> fl) → p_busy (ent c u) = true.
Proof.
  intros Hi (f & Hf & Hu%f_hints_busy)%elem_of_hints. by apply (srv_flight_busy_pages c fl held notes Hi f u).
Qed.

(** *** Requests that wait, and requests that are done *)
Definition prefetch_ok c x : Prop := c_pre_external_state x ≠ None → 0 ≤ c_prefetch_ppage_id x < max_ppage_id c.

Definition waits c x f : Prop :=
  c_type x = KPin ∧ c_processing x = true ∧ c_vpage_id x = f_page f ∧ c_ppage_id x = f_frame f ∧
  c_hint x = Some (f_hint f) ∧ prefetch_ok c x ∧
  match f with
  | FAlloc _ _ _ => False
  | FEvict _ pre _ d _ ph tr => c_phase x = Evicting ∧ c_pre_vpage_id x = pre ∧ c_dirty x = d ∧ c_pre_hint x = Some ph ∧
      c_pre_external_state x ≠ None ∧ tr = Some (c_external_context x)
  | FLoad _ p _ tr => c_phase x = Loading ∧ c_external_state x = Some p ∧ tr = Some (c_external_context x)
  end.

Definition pinned mem s x (v : Z) : Prop :=
  c_phase x = End_ ∧ resident (the_cache s) v ∧ c_ppage_id x = pp (the_cache s) v ∧
  frame_of (world s) (c_ppage_id x) = mem v.

(** The page of the request is pinned, or the request waits for its transfer. *)
Definition progress mem wc s x fl held notes : Prop :=
  let v := c_vpage_id x in
  (inv mem wc s fl (<[v := 1]> held) notes ∧ held !! v = None ∧ pinned mem s x v) ∨
  (∃ f, inv mem wc s (f :: fl) held notes ∧ waits (the_cache s) x f ∧ f_page f = v).

(** Every line of the table has an entry in use, if so before, or if the line of
    tag [tg] may have had none. *)
Definition lines_kept (tg : option Z) c c' : Prop := max_vpage_id c' = max_vpage_id c ∧
  ∀ m, (∀ u, okp c u → u < m.2) → used_but m tg (page_table c) → used_but m None (page_table c').

(** A page with pins stays where it is. *)
Definition held_page c (u : Z) : Prop := resident c u ∧ 0 < p_ref_count (ent c u).
Definition stays_at c c' (u : Z) : Prop := held_page c' u ∧ pp c' u = pp c u.
Definition pins_kept c c' : Prop := ∀ u, held_page c u → stays_at c c' u.

Definition kept tg c c' : Prop := lines_kept tg c c' ∧ pins_kept c c'.

Lemma kept_refl c : kept None c c.
Proof. done. Qed.

Lemma lines_kept_trans tg c c1 c2 : lines_kept tg c c1 → lines_kept None c1 c2 → lines_kept tg c c2.
Proof.
  intros [E1 H1] [E2 H2]. split; [congruence|]. intros m Hm Hu. apply H2; [|by apply H1]. intros u. unfold okp. rewrite E1. apply Hm.
Qed.

Lemma kept_trans tg c c1 c2 : kept tg c c1 → kept None c1 c2 → kept tg c c2.
Proof.
  intros [H1 P1] [H2 P2]. split; [by eapply lines_kept_trans|]. intros u Hu. destruct (P1 u Hu) as [Hu1 E1]. destruct (P2 u Hu1) as [Hu2 E2].
  split; [done|congruence].
Qed.

Lemma same_stays c c' u : max_vpage_id c' = max_vpage_id c → ent c' u = ent c u → held_page c u → stays_at c c' u.
Proof. intros Em Ee. unfold stays_at, held_page, resident, okp, pp. by rewrite Em, Ee. Qed.

(** One page changes that has no pins. *)
Lemma change_pins c c' (v : Z) e' : max_vpage_id c' = max_vpage_id c → ¬ held_page c v →
  (∀ u, okp c u → ent c' u = if decide (u = v) then e' else ent c u) → pins_kept c c'.
Proof.
  intros Em Hv Hent u Hu. apply same_stays; [done| |done]. rewrite Hent by apply Hu. rewrite decide_False; [done|]. by intros ->.
Qed.

Lemma busy_not_held c v : p_busy (ent c v) = true → ¬ held_page c v.
Proof. intros Hb ((_ & _ & E) & _). congruence. Qed.

Lemma absent_not_held c v : p_exist (ent c v) = false → ¬ held_page c v.
Proof. intros Hb ((_ & E & _) & _). congruence. Qed.

Lemma old_busy c fl held notes f u : srv_inv c fl held notes → f ∈ fl → f_old f = Some u → p_busy (ent c u) = true.
Proof.
  intros Hi Hf Ho. apply (srv_flight_busy_pages c fl held notes Hi f u Hf). destruct f; simpl in *; [done| |done].
  injection Ho as ->. set_solver.
Qed.

Lemma unheld_page c fl held notes u : srv_inv c fl held notes → held !! u = None → ¬ held_page c u.
Proof.
  intros Hi Hn [Hr Hpos]. destruct (si_resident _ _ _ _ Hi u Hr) as (_ & _ & _ & _ & Hrc). unfold held_of in Hrc. rewrite Hn in Hrc. simpl in Hrc. lia.
Qed.

Abbreviation one_turn := (one_turn ec0 es0 evict_func load_func).
Abbreviation process_fuel := (process_fuel ec0 es0 evict_func load_func).
Abbreviation process := (process ec0 es0 evict_func load_func).

Lemma srv_process_fuel_S n s x : process_fuel (S n) s x =
  '(s, x, continue) ← one_turn s x; if (continue : bool) then process_fuel n s x else Ok (s, x).
Proof. done. Qed.

(** *** The end of a load *)
Definition loaded_pte (p : Z) : unpacked_pte := mk_pte true false false 1 p.

Lemma loading_turn_run s fl held notes x h : let c := the_cache s in let v := c_vpage_id x in let p := c_ppage_id x in
  srv_inv c (FLoad v p h None :: fl) held notes → c_processing x = false → c_hint x = Some h → prefetch_ok c x →
  ∃ t, let c' := with_page_table c t in
    loading_turn load_func s x = Ok (mk_sys (world s) c', set_phase x End_, false) ∧
    srv_inv c' fl (<[v := 1]> held) notes ∧ held !! v = None ∧ resident c' v ∧ pp c' v = p ∧
    (∀ u, okp c u → ent c' u = if decide (u = v) then loaded_pte p else ent c u) ∧
    (∀ m, v < m.2 → used_but m None (page_table c) → used_but m None t).
Proof.
  intros c v p Hi Hpr Hhint Hpf. set (f := FLoad v p h None) in *.
  assert (Hin : f ∈ f :: fl) by (by apply elem_of_cons; left).
  destruct (si_flight _ _ _ _ Hi f Hin) as (_ & _ & _ & He & (st & Hst & Hsv)). simpl in He, Hst.
  pose proof (flight_range _ _ _ _ Hi f Hin) as [Hv Hpr0]. simpl in Hv, Hpr0.
  unfold loading_turn. rewrite Hpr. fold c v. rewrite Hhint.
  destruct (entry_call c (mjoin (f_hints <$> f :: fl)) v (Some h) ReleaseLock (loaded_pte p) (RBool true)) as (t & Hrun & Hent & Hused & Hkeep);
    [apply Hi|apply Hi|intros u k Hu; by apply (hint_okp c _ held notes u k Hi)|done|simpl; set_solver|by rewrite He|].
  rewrite (bind_rew _ _ _ (release_run_call _ _ _ _ _ Hrun)). cbv beta iota zeta.
  cbn [c_pre_external_state c_prefetch_ppage_id states with_page_table set_phase c_vpage_id c_ppage_id].
  assert (Hread : match c_pre_external_state x with Some _ => _ ← aread (states c) (c_prefetch_ppage_id x); Ok tt | None => Ok tt end = Ok tt).
  { destruct (c_pre_external_state x) as [ext|] eqn:Ee; [|done].
    destruct (aread_total (states c) (c_prefetch_ppage_id x)) as (st' & Hst' & _).
    { rewrite (si_states _ _ _ _ Hi). apply Hpf. congruence. }
    simpl in Hst'. by rewrite Hst'. }
  rewrite (bind_rew _ _ _ Hread). fold p v.
  set (c' := with_page_table c t) in *.
  assert (Hh' : hints_ok (page_table c') (mjoin (f_hints <$> fl))).
  { apply Hkeep. intros u k Hu. assert (Hu' : (u, k) ∈ mjoin (f_hints <$> f :: fl)) by (simpl; set_solver). split; [done|]. right.
    destruct (hint_okp c _ held notes u k Hi Hu') as [Huok Huse]. rewrite Hent by done. case_decide; done. }
  assert (Hss : same_shape c c') by done.
  destruct (srv_load_end_inv c c' fl held notes v p h None Hi Hss eq_refl eq_refl Hh' Hent) as (Hi' & Hhn & Hres & Hpp).
  assert (Hget : get_pte t v None = Ok (loaded_pte p)).
  { change (get_pte (page_table c') v None = Ok (loaded_pte p)). rewrite (ent_get c' fl (<[v := 1]> held) notes Hi').
    rewrite Hent by done. by rewrite decide_True. }
  exists t. split; [|do 5 (split; [done|]); intros m Hm Hx; by apply (Hused m None Hm); [left|]].
  rewrite (bind_rew _ _ _ Hget). cbn [p_ppage_id loaded_pte]. rewrite Z.eqb_refl. cbn [assert mbind result_bind].
  rewrite (bind_rew _ _ _ (proj2 (aread_Ok _ _ _) Hst)). rewrite Hsv, Z.eqb_refl. done.
Qed.

Lemma srv_loaded_run mem wc s fl held notes x h :
  inv mem wc s (FLoad (c_vpage_id x) (c_ppage_id x) h None :: fl) held notes →
  c_phase x = Loading → c_processing x = false → c_hint x = Some h → prefetch_ok (the_cache s) x →
  frame_of (world s) (c_ppage_id x) = mem (c_vpage_id x) → (c_ppage_id x ∈ touched (world s)) →
  ∃ s' x', process_fuel 1 s x = Ok (s', x') ∧ progress mem wc s' x' fl held notes ∧ c_vpage_id x' = c_vpage_id x ∧
    kept None (the_cache s) (the_cache s').
Proof.
  intros [Hi Hd] Hph Hpr Hhint Hpf Hfm Htch.
  destruct (loading_turn_run s fl held notes x h Hi Hpr Hhint Hpf) as (t & Hrun & Hi' & Hhn & Hres & Hpp & Hent & Hu).
  set (f := FLoad (c_vpage_id x) (c_ppage_id x) h None) in *. assert (f ∈ f :: fl) as Hin by (by apply elem_of_cons; left).
  assert (kept None (the_cache s) (with_page_table (the_cache s) t)) as Hk.
  { split; [split; [done|]; intros m Hm; by apply Hu, Hm, (flight_range _ _ _ _ Hi f)|]. eapply (change_pins _ _ (c_vpage_id x)); [done| |exact Hent].
    apply busy_not_held, (srv_flight_busy_pages _ _ _ _ Hi f _ Hin), (f_page_busy f). }
  unfold SharedSingleThreadCache.process_fuel, SharedSingleThreadCache.one_turn. rewrite Hph, Hrun.
  eexists _, _. split; [done|]. split; [|done]. left. split.
  - split; [done|]. by apply (srv_load_end_data ec0 evict_func load_func mem wc (world s) (the_cache s) _ fl held notes _ (c_ppage_id x) h).
  - split; [done|]. split; [done|]. split; [done|]. split; [exact (eq_sym Hpp)|exact Hfm].
Qed.

(** A call of the load function, and what [process] does with its outcome. *)
Lemma load_call_run mem wc s fl held notes x h tr :
  inv mem wc s (FLoad (c_vpage_id x) (c_ppage_id x) h tr :: fl) held notes →
  c_type x = KPin → c_phase x = Loading → c_hint x = Some h → c_external_state x = Some (c_ppage_id x) →
  prefetch_ok (the_cache s) x → (tr = None ∧ c_external_context x = ec0) ∨ tr = Some (c_external_context x) →
  ∃ s1 x1 s' x', call_load load_func s x = Ok (s1, x1) ∧
    (if negb (c_processing x1) then process_fuel 1 s1 x1 else Ok (s1, x1)) = Ok (s', x') ∧
    progress mem wc s' x' fl held notes ∧ c_vpage_id x' = c_vpage_id x ∧ kept None (the_cache s) (the_cache s').
Proof.
  intros Hinv Hty Hph Hhint Hes Hpf Htr.
  destruct (srv_call_load_ok ec0 evict_func load_func mem wc s fl held notes x _ _ h tr Hinv eq_refl eq_refl Hes Htr)
    as (w' & sts & e' & b & Hcall & Hinv' & Htch & Hdone).
  eexists _, _. destruct b; cbn [negb].
  - destruct (srv_loaded_run mem wc _ fl held notes (set_processing (set_external_context x e') false) h Hinv')
      as (s' & x' & Hrun & Hp & Hv); [done|done|done|done|by apply Hdone|done|].
    exists s', x'. split; [exact Hcall|]. split; [exact Hrun|]. split; [exact Hp|exact Hv].
  - eexists _, _. split; [exact Hcall|]. split; [done|]. split; [|done]. right.
    eexists. split; [exact Hinv'|]. split; [|done]. do 6 (split; [done|]). done.
Qed.

Lemma srv_loading_waits_run mem wc s fl held notes x h :
  inv mem wc s (FLoad (c_vpage_id x) (c_ppage_id x) h (Some (c_external_context x)) :: fl) held notes →
  c_type x = KPin → c_phase x = Loading → c_processing x = true → c_hint x = Some h →
  c_external_state x = Some (c_ppage_id x) → prefetch_ok (the_cache s) x →
  ∃ s' x', process_fuel 2 s x = Ok (s', x') ∧ progress mem wc s' x' fl held notes ∧ c_vpage_id x' = c_vpage_id x ∧
    kept None (the_cache s) (the_cache s').
Proof.
  intros Hinv Hty Hph Hpr Hhint Hes Hpf.
  destruct (load_call_run mem wc s fl held notes x h _ Hinv) as (s1 & x1 & s' & x' & Hcall & Hrun & Hp & Hv); try done; [by right|].
  exists s', x'. split; [|done]. rewrite srv_process_fuel_S. unfold SharedSingleThreadCache.one_turn, loading_turn. rewrite Hph, Hpr.
  rewrite (bind_rew _ _ _ Hcall). cbv beta iota zeta. exact Hrun.
Qed.

(** The lock on the evicted page is released; nothing is evicted from a frame
    that was free. *)
Lemma release_old c fl held notes x f : srv_inv c (f :: fl) held notes →
  match f_old f with Some pre => c_pre_external_state x ≠ None ∧ c_pre_vpage_id x = pre | None => c_pre_external_state x = None end →
  (∀ v p h tr, f ≠ FLoad v p h tr) → (∀ v pre p d h ph tr, f = FEvict v pre p d h ph tr → c_pre_hint x = Some ph) →
  ∃ t, match c_pre_external_state x with
       | Some _ => '(t, _) ← release_mapping_lock (page_table c) (c_pre_vpage_id x) (c_pre_hint x); Ok (with_page_table c t)
       | None => Ok c
       end = Ok (with_page_table c t) ∧
    hints_ok t ((f_page f, f_hint f) :: mjoin (f_hints <$> fl)) ∧
    (∀ u, okp c u → ent (with_page_table c t) u = if decide (f_old f = Some u) then freed_pte else ent c u) ∧
    (∀ m, (∀ u, okp c u → u < m.2) → used_but m None (page_table c) → used_but m None t).
Proof.
  intros Hi Hold Hnl Hph.
  assert (Hin : f ∈ f :: fl) by (by apply elem_of_cons; left).
  destruct f as [v p h|v pre p d h ph tr|v p h tr]; simpl in Hold; [| |by destruct (Hnl v p h tr)].
  - rewrite Hold. exists (page_table c). split; [by destruct c|]. split; [apply Hi|]. split; [|done]. intros u Hu. simpl. by destruct c.
  - destruct Hold as [Hne Epre]. destruct (c_pre_external_state x) as [ext|]; [|done]. rewrite Epre, (Hph _ _ _ _ _ _ _ eq_refl).
    pose proof (evict_range _ _ _ _ Hi v pre p d h ph tr Hin) as Hpre.
    destruct (si_flight _ _ _ _ Hi _ Hin) as (_ & _ & _ & Hev & Hep). simpl in Hev, Hep.
    destruct (entry_call c (mjoin (f_hints <$> FEvict v pre p d h ph tr :: fl)) pre (Some ph) ReleaseLock freed_pte (RBool true)) as (t & Hrun & Hent & Hused & Hkeep);
      [apply Hi|apply Hi|intros u k Hu; by apply (hint_okp c _ held notes u k Hi)|done|simpl; set_solver|by rewrite Hep|].
    exists t. rewrite (bind_rew _ _ _ (release_run_call _ _ _ _ _ Hrun)). split; [done|]. split; [|split].
    + apply Hkeep. intros u k Hu.
      assert (Hu' : (u, k) ∈ mjoin (f_hints <$> FEvict v pre p d h ph tr :: fl)) by (simpl in *; set_solver). split; [done|]. right.
      destruct (hint_okp c _ held notes u k Hi Hu') as [Huok Huse]. rewrite Hent by done. rewrite decide_False; [done|].
      intros ->. apply elem_of_cons in Hu as [[= E _]|Hu].
      * rewrite E in Hep. rewrite Hev in Hep. done.
      * apply elem_of_hints in Hu as (g & Hg & Hgu). apply f_hints_busy in Hgu.
        pose proof (si_pages _ _ _ _ Hi) as Hnd. simpl in Hnd. change (NoDup ([v; pre] ++ mjoin (f_busy <$> fl))) in Hnd.
        apply NoDup_app in Hnd as (_ & Hdd & _). apply (Hdd pre); [set_solver|]. apply elem_of_busy. by exists g.
    + intros u Hu. rewrite Hent by done. simpl. repeat case_decide; naive_solver.
    + intros m Hm Hx. apply (Hused m None); [by apply Hm|by right|done].
Qed.

(** The old page is out: [process] starts the load. *)
Definition load_context x : ctx := set_external_context (set_external_state (set_phase x Loading) (Some (c_ppage_id x))) ec0.

Lemma evicted_turn_run s fl held notes x f : let c := the_cache s in let v := c_vpage_id x in let p := c_ppage_id x in
  srv_inv c (f :: fl) held notes → (∀ v p h tr, f ≠ FLoad v p h tr) → c_processing x = false → v = f_page f → p = f_frame f →
  match f_old f with Some pre => c_pre_external_state x ≠ None ∧ c_pre_vpage_id x = pre | None => c_pre_external_state x = None end →
  (∀ v pre p d h ph tr, f = FEvict v pre p d h ph tr → c_pre_hint x = Some ph) →
  ∃ t, let c' := with_states (with_page_table c t) (zset (zset (states c) p (empty_frame es0)) p (mk_state v es0)) in
    evicting_turn ec0 es0 evict_func load_func s x =
      ('(s', x') ← call_load load_func (mk_sys (world s) c') (load_context x); Ok (s', x', negb (c_processing x'))) ∧
    srv_inv c' (FLoad v p (f_hint f) None :: fl) held notes ∧
    (∀ u, okp c u → ent c' u = if decide (f_old f = Some u) then freed_pte else ent c u) ∧
    (∀ m, (∀ u, okp c u → u < m.2) → used_but m None (page_table c) → used_but m None t).
Proof.
  intros c v p Hi Hnl Hpr Hxv Hxp Hold Hpreh.
  destruct (release_old c fl held notes x f Hi Hold Hnl Hpreh) as (t & Hrel & Hh' & Hent & Hused).
  assert (Hin : f ∈ f :: fl) by (by apply elem_of_cons; left).
  pose proof (flight_range _ _ _ _ Hi f Hin) as [Hv Hp]. rewrite <- Hxp in Hp. pose proof (si_states _ _ _ _ Hi) as Hlen.
  exists t. set (c' := with_states (with_page_table c t) (zset (zset (states c) p (empty_frame es0)) p (mk_state v es0))).
  assert (Hrange : 0 ≤ p < zlen (zset (states c) p (empty_frame es0))) by (rewrite zlen_zset; lia).
  cbn zeta. split; [|split; [|done]].
  - unfold evicting_turn. rewrite Hpr. fold c p v. rewrite (bind_rew _ _ _ Hrel).
    assert (Hinit : init_state es0 (with_page_table c t) p =
      Ok (with_states (with_page_table c t) (zset (states c) p (empty_frame es0)))).
    { unfold init_state. cbn [states with_page_table]. rewrite awrite_total by lia. done. }
    rewrite (bind_rew _ _ _ Hinit).
    cbn [states with_states]. rewrite (bind_rew (aread _ p) (empty_frame es0) _); [|apply aread_Ok; apply zget_zset_eq; lia].
    rewrite (bind_rew _ _ _ (awrite_total _ p _ Hrange)). done.
  - rewrite Hxv, Hxp. apply (srv_load_start_inv c c' fl held notes f None Hi); try done.
    + unfold c'. cbn [states with_states]. by rewrite !zlen_zset.
    + rewrite <- Hxp, <- Hxv. exists (mk_state v es0). split; [|done]. unfold c'. cbn [states with_states]. by apply zget_zset_eq.
    + rewrite <- Hxp. intros q u Hq (st & Hst & Hu). exists st. split; [|done]. unfold c'. cbn [states with_states]. by rewrite !zget_zset_ne.
Qed.

Lemma srv_evicted_run mem wc s fl held notes x f : inv mem wc s (f :: fl) held notes →
  f_transfer f = None → (∀ v p h tr, f ≠ FLoad v p h tr) → (∀ u, f_old f = Some u → disk_of (world s) u = mem u) →
  c_type x = KPin → c_phase x = Evicting → c_processing x = false →
  c_vpage_id x = f_page f → c_ppage_id x = f_frame f → c_hint x = Some (f_hint f) → prefetch_ok (the_cache s) x →
  match f_old f with Some pre => c_pre_external_state x ≠ None ∧ c_pre_vpage_id x = pre | None => c_pre_external_state x = None end →
  (∀ v pre p d h ph tr, f = FEvict v pre p d h ph tr → c_pre_hint x = Some ph) →
  ∃ s' x', process_fuel 2 s x = Ok (s', x') ∧ progress mem wc s' x' fl held notes ∧ c_vpage_id x' = c_vpage_id x ∧
    kept None (the_cache s) (the_cache s').
Proof.
  intros [Hi Hd] Htr Hnl Hout Hty Hph Hpr Hxv Hxp Hhint Hpf Hold Hpreh.
  destruct (evicted_turn_run s fl held notes x f Hi Hnl Hpr Hxv Hxp Hold Hpreh) as (t & Hrun & Hi' & Hent & Hu). cbn zeta in *.
  set (c' := with_states _ _) in *. assert (kept None (the_cache s) c') as Hk.
  { split; [split; [done|exact Hu]|]. intros u Hu0. apply same_stays; [done| |done]. rewrite Hent by apply Hu0. rewrite decide_False; [done|].
    intros Eo. eapply (busy_not_held _ u); [|exact Hu0]. by eapply (old_busy _ _ _ _ f u Hi (list_elem_of_here _ _)). }
  assert (Hd' : srv_data ec0 evict_func load_func mem wc (world s) c' (FLoad (c_vpage_id x) (c_ppage_id x) (f_hint f) None :: fl) held).
  { rewrite Hxv, Hxp. by apply (srv_load_start_data ec0 evict_func load_func mem wc (world s) (the_cache s) c' fl held notes f Hi Hd). }
  destruct (load_call_run mem wc (mk_sys (world s) c') fl held notes (load_context x) (f_hint f) None) as (s1 & x2 & s' & x' & Hcall & Hrun' & Hpg & Hvp & Hk');
    [by split|done|done|done|done|exact Hpf|by left|].
  exists s', x'. split; [|split; [done|split; [done|by apply (kept_trans _ _ c')]]]. rewrite srv_process_fuel_S. unfold SharedSingleThreadCache.one_turn. rewrite Hph, Hrun.
  rewrite (bind_rew _ _ _ Hcall). exact Hrun'.
Qed.

(** A call of the eviction function, and what [process] does with its outcome. *)
Lemma evict_call_run mem wc s fl held notes x f : inv mem wc s (f :: fl) held notes → Forall f_moving fl →
  match f with
  | FEvict v pre p d h ph tr => c_vpage_id x = v ∧ c_pre_vpage_id x = pre ∧ c_ppage_id x = p ∧ c_dirty x = d ∧
      c_hint x = Some h ∧ c_pre_hint x = Some ph ∧ c_pre_external_state x ≠ None ∧
      ((tr = None ∧ c_external_context x = ec0 ∧ full (the_cache s) = true) ∨ tr = Some (c_external_context x))
  | _ => False
  end → c_type x = KPin → c_phase x = Evicting → prefetch_ok (the_cache s) x →
  ∃ s1 x1 s' x', call_evict evict_func s x = Ok (s1, x1) ∧
    (if negb (c_processing x1) then process_fuel 2 s1 x1 else Ok (s1, x1)) = Ok (s', x') ∧
    progress mem wc s' x' fl held notes ∧ c_vpage_id x' = c_vpage_id x ∧ kept None (the_cache s) (the_cache s').
Proof.
  intros Hinv Hmov Hf Hty Hph Hpf. destruct f as [|v pre p d h ph tr|]; [done| |done].
  destruct Hf as (Hv & Hpre & Hp & Hdx & Hhint & Hph' & Hne & Htr).
  destruct (c_pre_external_state x) as [ext|] eqn:Hext; [|done].
  destruct (srv_call_evict_ok ec0 evict_func load_func mem wc s fl held notes x v pre p d h ph tr ext Hinv Hmov Hpre Hp Hdx Hext Htr)
    as (w' & e' & ext' & b & Hcall & Hinv' & Hdone).
  eexists _, _. destruct b; cbn [negb].
  - set (x1 := set_processing (set_pre_external_state (set_external_context x e') (Some ext')) false).
    destruct (srv_evicted_run mem wc _ fl held notes x1 _ Hinv') as (s' & x' & Hrun & Hpg & Hvp); try done.
    + intros u [= <-]. by apply Hdone.
    + unfold prefetch_ok in *. intros _. apply Hpf. by rewrite Hext.
    + intros v0 pre0 p0 d0 h0 ph0 tr0 [= <- <- <- <- <- <- <-]. done.
    + exists s', x'. split; [exact Hcall|]. split; [exact Hrun|]. split; [exact Hpg|exact Hvp].
  - eexists _, _. split; [exact Hcall|]. split; [done|]. split; [|done]. right.
    eexists. split; [exact Hinv'|]. split; [|done]. unfold waits. cbn [f_page f_frame f_hint]. do 5 (split; [done|]).
    split; [|done]. unfold prefetch_ok in *. intros _. apply Hpf. by rewrite Hext.
Qed.

Lemma srv_evicting_waits_run mem wc s fl held notes x f : inv mem wc s (f :: fl) held notes → Forall f_moving fl →
  waits (the_cache s) x f → c_phase x = Evicting →
  ∃ s' x', process_fuel 3 s x = Ok (s', x') ∧ progress mem wc s' x' fl held notes ∧ c_vpage_id x' = c_vpage_id x ∧
    kept None (the_cache s) (the_cache s').
Proof.
  intros Hinv Hmov (Hty & Hpr & Hv & Hp & Hhint & Hpf & Hf) Hph.
  destruct f as [|v pre p d h ph tr|]; [done| |by destruct Hf as (E & _); congruence].
  destruct Hf as (_ & Hpre & Hdx & Hph' & Hne & Htr).
  destruct (evict_call_run mem wc s fl held notes x _ Hinv Hmov) as (s1 & x1 & s' & x' & Hcall & Hrun & Hpg & Hvp); [|done|done|done|].
  { do 7 (split; [done|]). by right. }
  exists s', x'. split; [|done]. rewrite srv_process_fuel_S. unfold SharedSingleThreadCache.one_turn, evicting_turn. rewrite Hph, Hpr.
  rewrite (bind_rew _ _ _ Hcall). cbv beta iota zeta. exact Hrun.
Qed.

(** *** The eviction loop *)

(** A page the loop can evict. *)
Definition can_evict c held (v : Z) : Prop := resident c v ∧ pp c v ∈ members c ∧ held !! v = None.

Lemma srv_cand c fl held notes n Hs : srv_inv c fl held notes → hints_ok (page_table c) Hs →
  ∃ tails, cand_inv (with_pinned_size c n) tails ∧ ∀ u k, (u, k) ∈ Hs → hint_ok (page_table c) tails u (Some k).
Proof.
  intros Hi (tails & Ht & Hh). exists tails. split; [|done]. split; [done|apply Hi|].
  intros p Hp. destruct (si_members _ _ _ _ Hi p Hp) as (v & Hv & <-).
  destruct (si_resident _ _ _ _ Hi v Hv) as ((st & Hst & Hsv) & _). exists st, (ent c v). split; [done|]. rewrite Hsv.
  split; [apply (okp_vpage c fl held notes Hi), Hv|]. split; [apply (ent_get c fl held notes Hi)|]. split; [apply Hv|done].
Qed.

Lemma evictable_can c fl held notes n p : srv_inv c fl held notes → p ∈ members c →
  evictable (with_pinned_size c n) p ↔ ∃ v, can_evict c held v ∧ pp c v = p.
Proof.
  intros Hi Hp. destruct (si_members _ _ _ _ Hi p Hp) as (v & Hv & Epp).
  destruct (si_resident _ _ _ _ Hi v Hv) as ((st & Hst & Hsv) & _ & _ & _ & Hrc). rewrite Epp in Hst.
  pose proof (ent_get c fl held notes Hi v) as Hget. split.
  - intros (st' & e & Hst' & (Hget' & _) & Hrc0 & _). simpl in Hst', Hget'. assert (st' = st) as -> by congruence.
    rewrite Hsv, Hget in Hget'. injection Hget' as <-. exists v. split; [|done]. split; [done|]. split; [by rewrite Epp|].
    destruct (held !! v) as [k|] eqn:Ek; [|done]. destruct (si_held _ _ _ _ Hi v k Ek) as [Hk _].
    unfold held_of in Hrc. rewrite Ek in Hrc. simpl in Hrc. lia.
  - intros (u & (Hu & _ & Hn) & Eu). assert (u = v) as -> by (apply (srv_resident_inj c fl held notes Hi); congruence).
    exists st, (ent c v). split; [done|]. split; [split; [by rewrite Hsv|split; [apply Hv|done]]|].
    unfold held_of in Hrc. rewrite Hn in Hrc. split; [done|]. by destruct Hv as (_ & _ & ->).
Qed.

Lemma victim_run c fl held notes n Hs : srv_inv c fl held notes → hints_ok (page_table c) Hs →
  (∀ u k, (u, k) ∈ Hs → okp c u) → (∃ v, can_evict c held v) →
  ∃ c' p nxt pre ph ext, find_victim (victim_fuel (with_pinned_size c n)) (with_pinned_size c n) =
      Ok (c', (p, nxt, pre, Some ph, ext, p_dirty (ent c pre))) ∧
    same_shape c c' ∧ pinned_size c' = n ∧ resident c pre ∧ pp c pre = p ∧ held !! pre = None ∧ 0 ≤ nxt < max_ppage_id c ∧
    (∀ u, okp c u → ent c' u = if decide (u = pre) then deleted_pte else ent c u) ∧
    rep_inv (max_ppage_id c) (replacement c') ∧ (∀ q, q ∈ members c' → q ∈ members c ∧ q ≠ p) ∧
    (∀ u, resident c u → pp c u ∈ members c → u ≠ pre → pp c u ∉ members c' → held !! u ≠ None) ∧
    hints_ok (page_table c') ((pre, ph) :: Hs) ∧
    (∀ m tg, used_but m tg (page_table c) → used_but m tg (page_table c')) ∧
    ∃ st, zget (states c) p = Some st ∧ s_external st = ext.
Proof.
  intros Hi Hh Hok (v & Hv & Hvm & Hvn). destruct (srv_cand c fl held notes n Hs Hi Hh) as (tails & Hc & Hht).
  destruct (find_victim_run _ tails _ Hc (victim_fuel_enough _ _ Hc)) as (c' & vic & tails' & Hrun & Hc' & Hvic).
  { exists (pp c v). split; [done|]. apply (evictable_can c fl held notes n _ Hi Hvm). by exists v. }
  destruct Hvic as (p & nxt & i & st & e & r & t' & -> & -> & Hp & Hst & Hmap & Hrc & Hb & Hhint & Hup & Hkl & _ & Hsty & Hnx & Hsub & Hskip & Hused).
  change (members (with_pinned_size c n)) with (members c) in *. cbn [states with_pinned_size page_table max_ppage_id] in *.
  destruct (proj1 (evictable_can c fl held notes n p Hi Hp)) as (pre & (Hpre & _ & Hpn) & Epp); [by exists st, e|].
  destruct (si_resident _ _ _ _ Hi pre Hpre) as ((st2 & Hst2 & Hsv) & _). rewrite Epp in Hst2.
  assert (st2 = st) as -> by congruence. rewrite Hsv in *.
  destruct Hmap as (Hget & _). change (page_table (with_pinned_size c n)) with (page_table c) in Hget.
  rewrite (ent_get c fl held notes Hi) in Hget. injection Hget as <-.
  eexists _, p, nxt, pre, i, (s_external st). split; [exact Hrun|].
  assert (Hres : ∀ u, resident c u → pp c u = p → u = pre) by (intros u Hu E; apply (srv_resident_inj c fl held notes Hi); congruence).
  split; [done|]. split; [done|]. split; [done|]. split; [done|]. split; [done|].
  split; [apply Hnx; apply Hi|]. split; [intros u Hu; apply (updates_ent c t' pre deleted_pte u Hup); by apply (okp_vpage c fl held notes Hi)|].
  split; [apply (cv_rep _ _ Hc')|]. unfold members at 1. cbn [replacement with_page_table with_replacement].
  split; [intros q Hq; apply Hsub in Hq; set_solver|]. split.
  - intros u Hu Hum Hne Hnm E. apply (Hskip (pp c u) Hum); [intros E'; by apply Hne, Hres|done|].
    apply (evictable_can c fl held notes n _ Hi Hum). exists u. done.
  - split; [|split; [done|by exists st]]. exists tails'. split; [apply (cv_table _ _ Hc')|]. intros u k [[= -> ->]|Hu]%elem_of_cons.
    + apply (hint_kept False (page_table c) tails t' tails' pre); try done; [apply (cv_table _ _ Hc')|by apply (okp_vpage c fl held notes Hi), Hpre|left; by intros []].
    + apply (hint_kept False (page_table c) tails t' tails' pre); try done; [apply (cv_table _ _ Hc')|by apply (okp_vpage c fl held notes Hi), (Hok u k)|left; by intros []|by apply Hht].
Qed.

Lemma victim_stuck c fl held notes n : srv_inv c fl held notes → (∀ v, ¬ can_evict c held v) →
  find_victim (victim_fuel (with_pinned_size c n)) (with_pinned_size c n) = Err AssertFail.
Proof.
  intros Hi Hno. destruct (srv_cand c fl held notes n _ Hi (si_table _ _ _ _ Hi)) as (tails & Hc & _).
  apply (find_victim_stuck _ tails _ Hc (victim_fuel_enough _ _ Hc)). intros p Hp Hev.
  apply (evictable_can c fl held notes n p Hi Hp) in Hev as (v & Hv & _). by apply (Hno v).
Qed.

(** *** A pin that misses *)
Lemma srv_process_fuel_mono n k s x r : process_fuel n s x = Ok r → process_fuel (n + k) s x = Ok r.
Proof.
  revert s x. induction n as [|n IH]; intros s x; [done|]. change (S n + k)%nat with (S (n + k)). rewrite !srv_process_fuel_S.
  destruct (one_turn s x) as [[[s1 x1] []]|]; [|done|done]. cbn [mbind result_bind]. apply IH.
Qed.

(** The entry of the page is created, locked, with one pin. *)
Lemma create_run c Hs v p h : 0 ≤ max_vpage_id c ≤ NUM_PACK_PAGES * EMPTY_TAG → hints_ok (page_table c) Hs →
  (∀ u k, (u, k) ∈ Hs → okp c u) → okp c v → (v, h) ∈ Hs → 0 ≤ p < 2 ^ 31 →
  p_exist (ent c v) = false → p_busy (ent c v) = false →
  ∃ t, create_mapping (page_table c) v p 1 (Some h) = Ok (t, true) ∧ hints_ok t Hs ∧
    (∀ u, okp c u → ent (with_page_table c t) u = if decide (u = v) then busy_pte p else ent c u) ∧
    (∀ m tg, v < m.2 → used_but m tg (page_table c) → used_but m (but_tag tg v) t).
Proof.
  intros Hm Hh Hok Hv Hin Hp Hx Hb.
  destruct (entry_call c Hs v (Some h) (CreateMapping p 1) (busy_pte p) (RBool true) Hm Hh Hok Hv Hin) as (t & Hrun & Hent & Hused & Hkeep).
  { destruct (ent c v) as [ex bu di rc q]. simpl in Hx, Hb. subst. unfold pte_step, EMPTY_PPAGE_ID. cbn [negb andb].
    rewrite (proj2 (Z.leb_le 0 p)), (proj2 (Z.ltb_lt p _)) by (unfold MAX64; lia). cbn [andb]. done. }
  exists t. split; [by apply create_run_call|]. split; [|split; [done|intros m tg Hvm; apply Hused; [done|by left]]]. apply Hkeep. intros u k Hu. split; [done|]. by left.
Qed.

Lemma alloc_spec c fl held notes n : srv_inv c fl held notes → full c = false →
  ∃ c' p, alloc (with_pinned_size c n) = Ok (c', p) ∧ page_table c' = page_table c ∧ states c' = states c ∧
    replacement c' = replacement c ∧ pinned_size c' = n ∧ max_vpage_id c' = max_vpage_id c ∧ max_ppage_id c' = max_ppage_id c ∧
    (p ∈ recycle_pool c ∨ cur_id c ≤ p < max_ppage_id c) ∧ cur_id c ≤ cur_id c' ≤ max_ppage_id c ∧ 0 ≤ p < cur_id c' ∧
    NoDup (recycle_pool c') ∧ (∀ q, q ∈ recycle_pool c' ↔ q ∈ recycle_pool c ∧ q ≠ p) ∧
    (∀ q, 0 ≤ q < cur_id c' → q = p ∨ 0 ≤ q < cur_id c).
Proof.
  intros Hi Hf. pose proof (si_max _ _ _ _ Hi) as Hmax. pose proof (si_cur _ _ _ _ Hi) as Hcur. unfold alloc.
  change (full (with_pinned_size c n)) with (full c). rewrite Hf. cbn [negb assert mbind result_bind recycle_pool with_pinned_size].
  destruct (vec_pop (recycle_pool c)) as [[pool p]|] eqn:Hpop.
  - apply vec_pop_Some in Hpop. pose proof (si_pool_nodup _ _ _ _ Hi) as Hnd. rewrite Hpop in Hnd.
    apply NoDup_app in Hnd as (Hnd & Hdj & _).
    assert (Hin : p ∈ recycle_pool c) by (rewrite Hpop; set_solver). pose proof (si_pool _ _ _ _ Hi p Hin).
    eexists _, p. split; [done|]. cbn. do 6 (split; [done|]). split; [by left|]. split; [lia|]. split; [lia|]. split; [done|].
    split; [|intros q Hq; by right].
    intros q. rewrite Hpop, elem_of_app, list_elem_of_singleton. split; [|tauto].
    intros Hq. split; [by left|]. intros ->. apply (Hdj p Hq). set_solver.
  - apply vec_pop_None in Hpop. unfold full in Hf. rewrite Hpop in Hf. change (zlen [] =? 0) with true in Hf.
    rewrite andb_true_r in Hf. apply Z.leb_gt in Hf. cbn [cur_id max_ppage_id with_pinned_size].
    rewrite (proj2 (Z.ltb_lt _ _)), w64_small by lia.
    eexists _, _. split; [done|]. cbn. do 6 (split; [done|]). split; [right; lia|]. split; [lia|]. split; [lia|].
    rewrite Hpop. split; [constructor|]. split; [intros q; set_solver|]. intros q Hq. lia.
Qed.

(** The contexts of a request that evicts a page, and of one that has a free frame. *)
Definition victim_context x p nxt pre ph ext d : ctx :=
  set_external_context (set_phase (set_victim x p nxt pre (Some ph) ext d) Evicting) ec0.
Definition alloc_context x p : ctx := set_processing (set_phase (set_ctx_ppage x p) Evicting) false.

(** What a miss does to the tables: a page is evicted, or a free frame taken. *)
Definition evict_start s x held c2 v pre p d ph : Prop := let c := the_cache s in
  full c = true ∧ same_shape c c2 ∧ resident c pre ∧ pp c pre = p ∧ held !! pre = None ∧ p_dirty (ent c pre) = d ∧
  (∀ u, okp c u → ent c2 u = if decide (u = v) then busy_pte p else if decide (u = pre) then deleted_pte else ent c u) ∧
  ∃ nxt st, zget (states c) p = Some st ∧ 0 ≤ nxt < max_ppage_id c ∧
    pin_miss_turn ec0 evict_func s x =
      ('(s', x') ← call_evict evict_func (mk_sys (world s) c2) (victim_context x p nxt pre ph (s_external st) d); Ok (s', x', negb (c_processing x'))).

Definition alloc_start s x c2 v p : Prop := let c := the_cache s in
  full c = false ∧ max_vpage_id c2 = max_vpage_id c ∧ max_ppage_id c2 = max_ppage_id c ∧ states c2 = states c ∧
  (∀ u, resident c u → pp c u ≠ p) ∧ (∀ q, 0 ≤ q < cur_id c2 → q = p ∨ 0 ≤ q < cur_id c) ∧
  (∀ u, okp c u → ent c2 u = if decide (u = v) then busy_pte p else ent c u) ∧
  pin_miss_turn ec0 evict_func s x = Ok (mk_sys (world s) c2, alloc_context x p, true).

(** The victim is found and locked; [d] is the dirty flag that was read of it. *)
Lemma evict_turn_run s fl held notes x h : let c := the_cache s in let v := c_vpage_id x in let c0 := with_pinned_size c (pinned_size c + 1) in
  srv_inv c fl held notes → hints_ok (page_table c) ((v, h) :: mjoin (f_hints <$> fl)) →
  okp c v → p_exist (ent c v) = false → p_busy (ent c v) = false → c_hint x = Some h → (∃ u, can_evict c held u) →
  ∃ c1 c2 p nxt pre ph st, find_victim (victim_fuel c0) c0 = Ok (c1, (p, nxt, pre, Some ph, s_external st, p_dirty (ent c pre))) ∧
    same_shape c c2 ∧ resident c pre ∧ pp c pre = p ∧ held !! pre = None ∧
    (∀ u, okp c u → ent c2 u = if decide (u = v) then busy_pte p else if decide (u = pre) then deleted_pte else ent c u) ∧
    zget (states c) p = Some st ∧ 0 ≤ nxt < max_ppage_id c ∧
    (∀ m, v < m.2 → used_but m (Some (tag_of v)) (page_table c) → used_but m None (page_table c2)) ∧
    ∀ d, srv_inv c2 (FEvict v pre p d h ph None :: fl) held notes ∧
      evict_victim ec0 evict_func (mk_sys (world s) c1) x (p, nxt, pre, Some ph, s_external st, d) =
        ('(s', x') ← call_evict evict_func (mk_sys (world s) c2) (victim_context x p nxt pre ph (s_external st) d); Ok (s', x', negb (c_processing x'))).
Proof.
  intros c v c0 Hi Hh Hv Hvx Hvb Hhint Hev. fold c in Hi. pose proof (si_max _ _ _ _ Hi) as Hmax.
  assert (Hok : ∀ u k, (u, k) ∈ (v, h) :: mjoin (f_hints <$> fl) → okp c u).
  { intros u k [[= -> ->]|Hu]%elem_of_cons; [done|]. by apply (hint_okp c fl held notes u k Hi). }
  assert (Htag : but_tag (Some (tag_of v)) v = None) by (unfold but_tag; by rewrite decide_True).
  destruct (victim_run c fl held notes (pinned_size c + 1) _ Hi Hh Hok Hev)
    as (c' & p & nxt & pre & ph & ext & Hrun & Hss & Hps & Hpre & Hpp & Hpn & Hnx & Hent & Hrep & Hm1 & Hm2 & Hh' & Hu' & st & Hst & Hext).
  destruct (si_resident _ _ _ _ Hi pre Hpre) as (_ & Hpr & _). rewrite Hpp in Hpr.
  assert (Hne : v ≠ pre) by (intros E; destruct Hpre as (_ & ? & _); congruence).
  assert (Hok' : ∀ u, okp c' u ↔ okp c u) by (intros u; unfold okp; by rewrite (ss_vpage _ _ Hss)).
  assert (Ev : ent c' v = ent c v) by (rewrite Hent by done; by rewrite decide_False).
  destruct (create_run c' ((pre, ph) :: (v, h) :: mjoin (f_hints <$> fl)) v p h) as (t & Hcr & Hht & Hent2 & Hu2);
    [rewrite (ss_vpage _ _ Hss); apply Hi|done| |by apply Hok'|set_solver|pose proof (si_cur _ _ _ _ Hi); lia|by rewrite Ev|by rewrite Ev|].
  { intros u k [[= -> ->]|Hu]%elem_of_cons; apply Hok'; [apply Hpre|by apply (Hok u k)]. }
  set (c2 := with_page_table c' t). assert (Hss2 : same_shape c c2) by (destruct Hss; by split).
  assert (Hent' : ∀ u, okp c u → ent c2 u = if decide (u = v) then busy_pte p else if decide (u = pre) then deleted_pte else ent c u).
  { intros u Hu. unfold c2. rewrite Hent2 by (by apply Hok'). case_decide; [done|]. by apply Hent. }
  exists c', c2, p, nxt, pre, ph, st. rewrite Hext. do 8 (split; [done|]). split; [|intros d; split].
  - intros m Hm Hx. rewrite <- Htag. by apply (Hu2 m (Some (tag_of v))), Hu'.
  - apply (srv_evict_start_inv c c2 fl held notes v pre p d h ph None Hi Hss2 Hv Hvx Hvb Hpre Hpp Hpn); try done.
    eapply hints_sub; [exact Hht|]. intros y. rewrite !elem_of_cons. tauto.
  - unfold evict_victim. cbn [c_hint c_vpage_id set_victim the_cache world]. fold v. rewrite Hhint, (bind_rew _ _ _ Hcr). reflexivity.
Qed.

Lemma miss_turn_run s fl held notes x h : let c := the_cache s in let v := c_vpage_id x in
  srv_inv c fl held notes → hints_ok (page_table c) ((v, h) :: mjoin (f_hints <$> fl)) →
  okp c v → p_exist (ent c v) = false → p_busy (ent c v) = false → c_hint x = Some h → full_pin c = false →
  (full c = true → ∃ u, can_evict c held u) →
  ∃ c2 f, f_page f = v ∧ f_hint f = h ∧ f_transfer f = None ∧ srv_inv c2 (f :: fl) held notes ∧
    (∀ m, v < m.2 → used_but m (Some (tag_of v)) (page_table c) → used_but m None (page_table c2)) ∧
    match f with
    | FEvict _ pre p d _ ph _ => evict_start s x held c2 v pre p d ph
    | FAlloc _ p _ => alloc_start s x c2 v p
    | FLoad _ _ _ _ => False
    end.
Proof.
  intros c v Hi Hh Hv Hvx Hvb Hhint Hfp Hev. fold c in Hi.
  pose proof (si_max _ _ _ _ Hi) as Hmax. pose proof (si_cur _ _ _ _ Hi) as Hcur.
  assert (Hok : ∀ u k, (u, k) ∈ (v, h) :: mjoin (f_hints <$> fl) → okp c u).
  { intros u k [[= -> ->]|Hu]%elem_of_cons; [done|]. by apply (hint_okp c fl held notes u k Hi). }
  assert (Htag : but_tag (Some (tag_of v)) v = None) by (unfold but_tag; by rewrite decide_True).
  unfold evict_start, alloc_start, pin_miss_turn. fold c v. rewrite Hfp. cbv zeta.
  change (full (with_pinned_size c (pinned_size c + 1))) with (full c). destruct (full c) eqn:Hfull.
  - destruct (evict_turn_run s fl held notes x h Hi Hh Hv Hvx Hvb Hhint (Hev eq_refl))
      as (c1 & c2 & p & nxt & pre & ph & st & Hrun & Hss & Hpre & Hpp & Hpn & Hent & Hst & Hnx & Hu & Hd). fold c in Hrun.
    destruct (Hd (p_dirty (ent c pre))) as [Hi2 Hevict]. exists c2, (FEvict v pre p (p_dirty (ent c pre)) h ph None).
    do 5 (split; [done|]). do 7 (split; [done|]). exists nxt, st. do 2 (split; [done|]). rewrite (bind_rew _ _ _ Hrun). exact Hevict.
  - destruct (alloc_spec c fl held notes (pinned_size c + 1) Hi Hfull)
      as (c' & p & Hal & Ept & Est & Erep & Eps & Emv & Emp & Hfree & Hc' & Hp & Hnd & Hpool & Hused).
    assert (Hent0 : ∀ u, ent c' u = ent c u) by (intros u; unfold ent; by rewrite Ept).
    assert (Hok' : ∀ u, okp c' u ↔ okp c u) by (intros u; unfold okp; by rewrite Emv).
    destruct (create_run c' ((v, h) :: mjoin (f_hints <$> fl)) v p h) as (t & Hcr & Hht & Hent2 & Hu2);
      [rewrite Emv; apply Hi|by rewrite Ept|intros u k Hu; by apply Hok', (Hok u k)|by apply Hok'|set_solver|lia|by rewrite Hent0|by rewrite Hent0|].
    set (c2 := with_page_table c' t).
    assert (Hent' : ∀ u, okp c u → ent c2 u = if decide (u = v) then busy_pte p else ent c u).
    { intros u Hu. unfold c2. rewrite Hent2 by (by apply Hok'). by rewrite Hent0. }
    exists c2, (FAlloc v p h). do 3 (split; [done|]). split; [by apply (srv_take_inv c c2 fl held notes v p h Hi Hv Hvx Hvb)|].
    split; [intros m Hm Hx; rewrite <- Htag; apply (Hu2 m (Some (tag_of v))); [done|by rewrite Ept]|].
    do 4 (split; [done|]). split; [|split; [exact Hused|split; [done|]]].
    + intros u Hu E. destruct (si_resident _ _ _ _ Hi u Hu) as (_ & Hpu & Hnp & _). rewrite E in Hpu, Hnp. destruct Hfree; [done|lia].
    + rewrite (bind_rew _ _ _ Hal). cbv beta iota zeta. fold v. rewrite Hhint, (bind_rew _ _ _ Hcr). reflexivity.
Qed.

Lemma srv_pin_miss_run mem wc s fl held notes x h : let c := the_cache s in let v := c_vpage_id x in
  inv mem wc s fl held notes → Forall f_moving fl → hints_ok (page_table c) ((v, h) :: mjoin (f_hints <$> fl)) →
  okp c v → p_exist (ent c v) = false → p_busy (ent c v) = false →
  c_type x = KPin → c_hint x = Some h → c_pre_external_state x = None → full_pin c = false →
  (full c = true → ∃ u, can_evict c held u) →
  ∃ s1 x1 b s' x', pin_miss_turn ec0 evict_func s x = Ok (s1, x1, b) ∧
    (if b then process_fuel 2 s1 x1 else Ok (s1, x1)) = Ok (s', x') ∧ progress mem wc s' x' fl held notes ∧ c_vpage_id x' = v ∧
    kept (Some (tag_of v)) c (the_cache s').
Proof.
  intros c v [Hi Hd] Hmov Hh Hv Hvx Hvb Hty Hhint Hpe Hfp Hev. fold c in Hi, Hd.
  destruct (miss_turn_run s fl held notes x h Hi Hh Hv Hvx Hvb Hhint Hfp Hev) as (c2 & f & Hfv & Hfh & Htr & Hi2 & Hu & Hf).
  destruct f as [v0 p h0|v0 pre p d h0 ph tr|]; [| |done]; simpl in Hfv, Hfh; subst v0 h0.
  - destruct Hf as (_ & Emv & Emp & Est & _ & Hcur & Hent & Hrun).
    assert (kept (Some (tag_of v)) c c2) as Hk.
    { split; [split; [done|]; intros m Hm; by apply Hu, Hm|]. by apply (change_pins _ _ v (busy_pte p)), Hent; [|apply absent_not_held]. }
    destruct (srv_evicted_run mem wc (mk_sys (world s) c2) fl held notes (alloc_context x p) (FAlloc v p h)) as (s' & x' & Hr & Hpg & Hvp & Hk'); try done.
    + split; [done|]. by apply (srv_take_data ec0 evict_func load_func mem wc (world s) c c2 fl held v p h Hd).
    + eexists _, _, _, s', x'. split; [exact Hrun|]. split; [exact Hr|]. split; [exact Hpg|]. split; [exact Hvp|]. by apply (kept_trans _ _ c2).
  - destruct tr; [done|]. destruct Hf as (Hfull & Hss & Hpre & Hpp & Hpn & Hdx & Hent & nxt & st & Hst & Hnx & Hrun).
    assert (kept (Some (tag_of v)) c c2) as Hk.
    { split; [split; [apply (ss_vpage _ _ Hss)|]; intros m Hm; by apply Hu, Hm|]. intros u Hu0. apply same_stays; [apply (ss_vpage _ _ Hss)| |done].
      rewrite Hent by apply Hu0. rewrite !decide_False; [done| |intros ->; by eapply (absent_not_held c v)].
      intros ->. by apply (unheld_page c fl held notes pre Hi Hpn). }
    destruct (evict_call_run mem wc (mk_sys (world s) c2) fl held notes (victim_context x p nxt pre ph (s_external st) d) (FEvict v pre p d h ph None))
      as (s1 & x1 & s' & x' & Hcall & Hr & Hpg & Hvp & Hk'); [| | |done|done| |].
    + split; [done|]. by apply (srv_evict_start_data ec0 evict_func load_func mem wc (world s) c c2 fl held notes v pre p d h ph Hi Hd Hss).
    + done.
    + do 7 (split; [done|]). left. split; [done|]. split; [done|]. change (full c2 = true). destruct Hss as [_ E1 E2 E3 _].
      unfold full. rewrite E1, E2, E3. exact Hfull.
    + intros _. destruct Hss as [_ E1 _ _ _]. cbn [the_cache]. rewrite E1. exact Hnx.
    + rewrite (bind_rew _ _ _ Hcall) in Hrun. eexists _, _, _, s', x'. split; [exact Hrun|]. split; [exact Hr|]. split; [exact Hpg|].
      split; [exact Hvp|]. by apply (kept_trans _ _ c2).
Qed.

(** *** The first phase *)
Lemma entries_inv c t fl held notes : srv_inv c fl held notes → (∀ u, okp c u → ent (with_page_table c t) u = ent c u) →
  hints_ok t (mjoin (f_hints <$> fl)) → srv_inv (with_page_table c t) fl held notes.
Proof.
  intros Hi Hent Hh.
  assert (Hres : ∀ u, resident (with_page_table c t) u ↔ resident c u).
  { intros u. unfold resident. change (okp (with_page_table c t) u) with (okp c u).
    split; intros (Hu & Hx & Hb); (split; [exact Hu|]); [rewrite <- (Hent u Hu)|rewrite (Hent u Hu)]; done. }
  assert (Hpp : ∀ u, okp c u → pp (with_page_table c t) u = pp c u) by (intros u Hu; unfold pp; by rewrite Hent).
  split; try apply Hi; try done.
  - intros u [Hu Hr]%Hres. rewrite Hpp, Hent by done. by apply (si_resident _ _ _ _ Hi).
  - intros u n Hn. rewrite Hres. by apply (si_held _ _ _ _ Hi).
  - intros u Hu Hb. rewrite Hent in Hb by done. by apply (si_busy _ _ _ _ Hi).
  - intros f Hf. destruct (si_flight _ _ _ _ Hi f Hf) as (H1 & H2 & H3). split; [done|]. split; [done|].
    apply (flight_ok_ext c); [done| |done|done]. intros u Hu.
    destruct (srv_flight_busy_pages c fl held notes Hi f u Hf Hu) as [Huok _]. by apply Hent.
  - intros q Hq. destruct (si_members _ _ _ _ Hi q Hq) as (u & Hu & <-). exists u. split; [by apply Hres|apply Hpp, Hu].
  - intros u [Hu Hr]%Hres Hn. rewrite Hpp by done. by apply (si_idle _ _ _ _ Hi).
  - intros q Hq. destruct (si_used _ _ _ _ Hi q Hq) as [?|[(u & Hu & <-)|?]]; [by left| |by right; right].
    right. left. exists u. split; [by apply Hres|apply Hpp, Hu].
Qed.

Lemma begin_run mem wc s fl held notes x : let c := the_cache s in let v := c_vpage_id x in
  inv mem wc s fl held notes → okp c v → line_available (page_table c) v →
  ∃ t i, begin_turn s x =
      (let s1 := mk_sys (world s) (with_page_table c t) in let x1 := set_lookup x (Some i) (ent c v) in
       if p_busy (ent c v) then Ok (s1, x1, false) else Ok (s1, set_phase x1 Initing, true)) ∧
    inv mem wc (mk_sys (world s) (with_page_table c t)) fl held notes ∧
    hints_ok t ((v, i) :: mjoin (f_hints <$> fl)) ∧
    (∀ u, okp c u → ent (with_page_table c t) u = ent c u) ∧ (used_pte (ent c v) = true → with_page_table c t = c) ∧
    (∀ m, used_but m None (page_table c) → used_but m (Some (tag_of v)) t).
Proof.
  intros c v [Hi Hd] Hv Hav. fold c in Hi, Hd.
  destruct (table_hint (page_table c) _ v (si_table _ _ _ _ Hi)) as (t & i & Hf & Hview & _ & Hh & Hsame & Hlines);
    [by apply (okp_vpage c fl held notes Hi)|apply (hint_vpage c fl held notes Hi)|done|].
  assert (Hh' : hints_ok t (mjoin (f_hints <$> fl))) by (eapply hints_sub; [exact Hh|]; intros y Hy; by apply elem_of_cons; right).
  assert (Hent : ∀ u, okp c u → ent (with_page_table c t) u = ent c u).
  { intros u Hu. unfold ent. cbn [page_table with_page_table]. rewrite (Hview u); [done|]. by apply (okp_vpage c fl held notes Hi). }
  pose proof (entries_inv c t fl held notes Hi Hent Hh') as Hi'.
  exists t, i. unfold begin_turn. fold c v. rewrite (bind_rew _ _ _ Hf). cbv beta iota zeta.
  assert (Hget : get_pte t v (Some i) = Ok (ent c v)).
  { rewrite (table_get t _ v i Hh) by (by apply elem_of_cons; left).
    rewrite <- (Hent v Hv). apply (ent_get (with_page_table c t) fl held notes Hi'). }
  rewrite (bind_rew _ _ _ Hget). cbv beta iota zeta. unfold on_cache. fold c. split; [done|]. split.
  { split; [exact Hi'|]. apply (same_entries_data ec0 evict_func load_func mem wc (world s) c); [done|done|exact Hent]. }
  split; [done|]. split; [done|]. split; [|exact Hlines]. intros Hu. rewrite Hsame; [by destruct c|].
  by apply (in_use_ent c fl held notes Hi).
Qed.

(** *** A pin of a resident page *)
Definition add_pin held (v : Z) : gmap Z Z := <[v := held_of held v + 1]> held.
Definition drop_pin held (v : Z) : gmap Z Z := if held_of held v =? 1 then delete v held else <[v := held_of held v - 1]> held.

Lemma held_of_add held v : held_of (add_pin held v) v = held_of held v + 1.
Proof. unfold held_of at 1, add_pin. by rewrite lookup_insert_eq. Qed.

Lemma held_pos c fl held notes v : srv_inv c fl held notes → 0 ≤ held_of held v < REF_MOD ∧ (held_of held v = 0 ↔ held !! v = None).
Proof.
  intros Hi. unfold held_of. destruct (held !! v) as [n|] eqn:E; simpl; [|by unfold REF_MOD].
  destruct (si_held _ _ _ _ Hi v n E). split; [lia|]. split; [lia|done].
Qed.

Lemma size_add held v : Z.of_nat (base.size (add_pin held v)) = Z.of_nat (base.size held) + (if decide (held !! v = None) then 1 else 0).
Proof.
  unfold add_pin. case_decide as E.
  - rewrite map_size_insert_None by done. lia.
  - destruct (held !! v) as [n|] eqn:En; [|done]. rewrite map_size_insert_Some by done. lia.
Qed.

Lemma table_pin c fl held notes v hint Hs : srv_inv c fl held notes → hints_ok (page_table c) Hs →
  (∀ u k, (u, k) ∈ Hs → okp c u) → match hint with None => True | Some k => (v, k) ∈ Hs end →
  resident c v → held_of held v + 1 < REF_MOD →
  ∃ t, CompactHashPageTable.pin (page_table c) v hint = Ok (t, (true, pp c v, held_of held v)) ∧ hints_ok t Hs ∧
    (∀ u, okp c u → ent (with_page_table c t) u =
       if decide (u = v) then mk_pte true false (p_dirty (ent c v)) (held_of held v + 1) (pp c v) else ent c u) ∧
    (∀ m tg, v < m.2 → used_but m tg (page_table c) → used_but m (but_tag tg v) t).
Proof.
  intros Hi Hh Hok Hhint Hv Hrm. destruct (si_resident _ _ _ _ Hi v Hv) as (_ & _ & _ & _ & Hrc).
  pose proof (held_pos c fl held notes v Hi) as [Hpos _].
  destruct (entry_call c Hs v hint Pin (mk_pte true false (p_dirty (ent c v)) (held_of held v + 1) (pp c v))
    (RPin (true, pp c v, held_of held v)) (si_vmax _ _ _ _ Hi) Hh Hok (proj1 Hv)) as (t & Hrun & Hent & Hused & Hkeep).
  - destruct hint; [done|]. unfold used_pte. by destruct Hv as (_ & -> & _).
  - destruct Hv as (_ & Hx & Hb). unfold pp. destruct (ent c v) as [ex bu di rc q]. simpl in *. subst. simpl.
    unfold ref_inc. rewrite (Z.mod_small _ REF_MOD) by lia. done.
  - exists t. split; [by apply pin_run_call|]. split; [|split; [done|intros m tg Hvm; apply Hused; [done|by left]]]. apply Hkeep. intros u k Hu. split; [done|by left].
Qed.

Lemma add_other held v u : u ≠ v → add_pin held v !! u = held !! u.
Proof. intros Hu. unfold add_pin. by rewrite lookup_insert_ne. Qed.

(** One more pin of a resident page, taken in the table. *)
Definition hit_pte c held v : unpacked_pte := mk_pte true false (p_dirty (ent c v)) (held_of held v + 1) (pp c v).

Lemma hit_pins c c2 fl held notes v : srv_inv c fl held notes → max_vpage_id c2 = max_vpage_id c →
  (∀ u, okp c u → ent c2 u = if decide (u = v) then hit_pte c held v else ent c u) → pins_kept c c2.
Proof.
  intros Hi Em Hent u Hu. pose proof (held_pos c fl held notes v Hi) as [Hpos _]. destruct (decide (u = v)) as [->|Hne].
  - assert (ent c2 v = hit_pte c held v) as E by (rewrite Hent by apply Hu; by rewrite decide_True).
    unfold stays_at, held_page, resident, okp, pp at 1. rewrite Em, E. cbn. split; [|done]. split; [|lia]. split; [apply Hu|done].
  - apply same_stays; [done| |done]. rewrite Hent by apply Hu. by rewrite decide_False.
Qed.

Lemma pin_change_inv c c2 fl held notes notes' v t Hs :
  srv_inv c fl held notes → same_shape c c2 → page_table c2 = t → hints_ok t Hs →
  (∀ y, y ∈ mjoin (f_hints <$> fl) → y ∈ Hs) → resident c v → held_of held v + 1 < REF_MOD →
  (∀ u, okp c u → ent (with_page_table c t) u = if decide (u = v) then hit_pte c held v else ent c u) →
  rep_inv (max_ppage_id c) (replacement c2) →
  (∀ q, q ∈ members c2 → q ∈ members c) → (∀ q, q ∈ members c → q ≠ pp c v → q ∈ members c2) →
  (∀ u, u ≠ v → NUnpin u ∈ notes → NUnpin u ∈ notes') →
  pinned_size c2 + note_sum notes' = pinned_size c + note_sum notes + (if decide (held !! v = None) then 1 else 0) →
  srv_inv c2 fl (add_pin held v) notes' ∧ (∀ u, okp c u → ent c2 u = if decide (u = v) then hit_pte c held v else ent c u) ∧
  resident c2 v ∧ pp c2 v = pp c v.
Proof.
  intros Hi Hss Ept Hht Hsub Hv Hrm Hent Hrep Hm1 Hm2 Hnotes Hps.
  pose proof (held_pos c fl held notes v Hi) as [Hpos _].
  assert (Hent2 : ∀ u, okp c u → ent c2 u = if decide (u = v) then hit_pte c held v else ent c u).
  { intros u Hu. rewrite <- Hent by done. unfold ent. by rewrite Ept. }
  assert (Hev : ent c2 v = hit_pte c held v) by (rewrite Hent2 by apply Hv; by rewrite decide_True).
  assert (Hh2 : hints_ok (page_table c2) (mjoin (f_hints <$> fl))) by (rewrite Ept; by apply (hints_sub t Hs)).
  split; [|split; [done|split; [|unfold pp at 1; by rewrite Hev]]].
  - apply (user_change c c2 fl held (add_pin held v) notes notes' v _ Hi Hss Hh2 Hrep Hv Hent2); try done.
    + by rewrite held_of_add.
    + intros u Hu. by apply add_other.
    + unfold add_pin. rewrite lookup_insert_eq. intros n [= <-]. lia.
    + intros q Hq. left. by apply Hm1.
    + unfold add_pin. by rewrite lookup_insert_eq.
    + rewrite size_add. lia.
  - unfold resident. rewrite Hev. unfold okp. rewrite (ss_vpage _ _ Hss). split; [apply Hv|done].
Qed.

Lemma pin_change mem wc s c2 fl held notes notes' v t Hs : let c := the_cache s in
  inv mem wc s fl held notes → same_shape c c2 → page_table c2 = t → hints_ok t Hs →
  (∀ y, y ∈ mjoin (f_hints <$> fl) → y ∈ Hs) → resident c v → held_of held v + 1 < REF_MOD →
  (∀ u, okp c u → ent (with_page_table c t) u = if decide (u = v) then hit_pte c held v else ent c u) →
  rep_inv (max_ppage_id c) (replacement c2) →
  (∀ q, q ∈ members c2 → q ∈ members c) → (∀ q, q ∈ members c → q ≠ pp c v → q ∈ members c2) →
  (∀ u, u ≠ v → NUnpin u ∈ notes → NUnpin u ∈ notes') →
  pinned_size c2 + note_sum notes' = pinned_size c + note_sum notes + (if decide (held !! v = None) then 1 else 0) →
  inv mem wc (mk_sys (world s) c2) fl (add_pin held v) notes' ∧ resident c2 v ∧ pp c2 v = pp c v.
Proof.
  intros c [Hi Hd] Hss Ept Hht Hsub Hv Hrm Hent Hrep Hm1 Hm2 Hnotes Hps. fold c in Hi, Hd.
  destruct (pin_change_inv c c2 fl held notes notes' v t Hs Hi Hss Ept Hht Hsub Hv Hrm Hent Hrep Hm1 Hm2 Hnotes Hps) as (Hi2 & Hent2 & Hr).
  split; [split; [done|]|done].
  apply (user_change_data ec0 evict_func load_func mem wc wc (world s) c c2 fl held (add_pin held v) v _ Hd Hss Hv Hent2); try done.
  - intros u Hu. by apply add_other.
  - rewrite held_of_add. pose proof (sd_wc _ _ _ _ _ _ _ _ _ Hd v). lia.
  - intros Hdr Hw. by apply (sd_clean _ _ _ _ _ _ _ _ _ Hd).
Qed.

(** A pin of a resident page through the server. *)
Definition hit_context x p : ctx :=
  set_phase (set_pre_external_state (set_external_state (set_ctx_ppage x p) (Some p)) None) End_.

Lemma hit_turn_run s fl held notes x h : let c := the_cache s in let v := c_vpage_id x in
  srv_inv c fl held notes → hints_ok (page_table c) ((v, h) :: mjoin (f_hints <$> fl)) →
  resident c v → c_hint x = Some h → p_ppage_id (c_pte x) = pp c v → held_of held v + 1 < REF_MOD →
  ∃ c2, pin_hit_turn s x = Ok (mk_sys (world s) c2, hit_context x (pp c v), false) ∧ same_shape c c2 ∧
    srv_inv c2 fl (add_pin held v) notes ∧ resident c2 v ∧ pp c2 v = pp c v ∧
    (∀ u, okp c u → ent c2 u = if decide (u = v) then hit_pte c held v else ent c u) ∧
    (∀ m tg, v < m.2 → used_but m tg (page_table c) → used_but m (but_tag tg v) (page_table c2)).
Proof.
  intros c v Hi Hh Hv Hhint Hpte Hrm. fold c in Hi.
  destruct (si_resident _ _ _ _ Hi v Hv) as ((st & Hst & Hsv) & Hpr & Hnp & Hnf & Hrc).
  pose proof (held_pos c fl held notes v Hi) as [Hpos Hzero]. pose proof (si_cur _ _ _ _ Hi).
  assert (Hok : ∀ u k, (u, k) ∈ (v, h) :: mjoin (f_hints <$> fl) → okp c u).
  { intros u k [[= -> ->]|Hu]%elem_of_cons; [apply Hv|]. by apply (hint_okp c fl held notes u k Hi). }
  destruct (table_pin c fl held notes v (Some h) _ Hi Hh Hok) as (t & Hpin & Hht & Hent & Hu); [set_solver|done|done|].
  unfold pin_hit_turn. fold c v. rewrite Hpte, (bind_rew _ _ _ (proj2 (aread_Ok _ _ _) Hst)), Hsv, Z.eqb_refl.
  cbn [assert mbind result_bind]. rewrite Hhint, (bind_rew _ _ _ Hpin). cbv beta iota zeta. cbn [assert mbind result_bind].
  set (c1 := with_page_table c t).
  assert (Hstep : ∃ c2, (if held_of held v =? 0 then
      r ← rep_erase (replacement c1) (pp c v); Ok (with_pinned_size (with_replacement c1 r) (pinned_size c1 + 1)) else Ok c1) = Ok c2 ∧
    same_shape c c2 ∧ page_table c2 = t ∧ rep_inv (max_ppage_id c) (replacement c2) ∧
    (∀ q, q ∈ members c2 → q ∈ members c) ∧ (∀ q, q ∈ members c → q ≠ pp c v → q ∈ members c2) ∧
    pinned_size c2 = pinned_size c + (if decide (held !! v = None) then 1 else 0)).
  { destruct (Z.eqb_spec (held_of held v) 0) as [E|E].
    - destruct (rep_erase_spec _ _ (pp c v) (si_rep _ _ _ _ Hi)) as (r & Hr & Hri & Hrm'); [lia|].
      eexists. change (replacement c1) with (replacement c). rewrite (bind_rew _ _ _ Hr). split; [done|]. split; [done|]. split; [done|].
      split; [done|]. unfold members. cbn. rewrite Hrm', decide_True by (by apply Hzero). split; [set_solver|]. split; [set_solver|]. done.
    - exists c1. split; [done|]. split; [done|]. split; [done|]. split; [apply Hi|]. split; [done|]. split; [done|].
      rewrite decide_False by (by rewrite <- Hzero). cbn. lia. }
  destruct Hstep as (c2 & -> & Hss & Ept & Hrep & Hm1 & Hm2 & Hps). cbn [mbind result_bind].
  destruct (pin_change_inv c c2 fl held notes notes v t _ Hi Hss Ept Hht) as (Hi2 & Hent2 & Hres & Epp); try done.
  { intros y Hy. by apply elem_of_cons; right. }
  { rewrite Hps. lia. }
  exists c2. split; [done|]. split; [done|]. split; [done|]. split; [done|]. split; [done|]. split; [done|].
  rewrite Ept. exact Hu.
Qed.

Lemma srv_pin_hit_run mem wc s fl held notes x h : let c := the_cache s in let v := c_vpage_id x in
  inv mem wc s fl held notes → hints_ok (page_table c) ((v, h) :: mjoin (f_hints <$> fl)) →
  resident c v → c_hint x = Some h → p_ppage_id (c_pte x) = pp c v → held_of held v + 1 < REF_MOD →
  ∃ s' x', pin_hit_turn s x = Ok (s', x', false) ∧ inv mem wc s' fl (add_pin held v) notes ∧ pinned mem s' x' v ∧
    kept (Some (tag_of v)) c (the_cache s').
Proof.
  intros c v [Hi Hd] Hh Hv Hhint Hpte Hrm. fold c in Hi, Hd.
  destruct (hit_turn_run s fl held notes x h Hi Hh Hv Hhint Hpte Hrm) as (c2 & Hrun & Hss & Hi2 & Hres & Epp & Hent & Hlines).
  assert (kept (Some (tag_of v)) c c2) as Hk.
  { split; [|by apply (hit_pins c c2 fl held notes v Hi (ss_vpage _ _ Hss))]. split; [apply (ss_vpage _ _ Hss)|]. intros m Hm Hl. replace None with (but_tag (Some (tag_of v)) v) by (unfold but_tag; by rewrite decide_True).
    apply Hlines; [apply Hm, Hv|done]. }
  eexists _, _. split; [exact Hrun|]. split; [split; [done|]|split; [|exact Hk]].
  - apply (user_change_data ec0 evict_func load_func mem wc wc (world s) c c2 fl held (add_pin held v) v _ Hd Hss Hv Hent); try done.
    + intros u Hu. by apply add_other.
    + rewrite held_of_add. pose proof (sd_wc _ _ _ _ _ _ _ _ _ Hd v). lia.
    + intros Hdr Hw. by apply (sd_clean _ _ _ _ _ _ _ _ _ Hd).
  - split; [done|]. split; [done|]. split; [exact (eq_sym Epp)|]. by apply (sd_resident _ _ _ _ _ _ _ _ _ Hd).
Qed.
End spec.
