(* ===== verification/SharedServerUse.v ===== *)
(** * The shared cache under direct pins: the calls of its users

    What the invariant says after the pins and unpins of the clients, through
    the server or directly in the page table, after the notifications and after
    the writes to a pinned page. *)
From S2P Require Import Prelude Replacement PteHeader CompactHashPageTable CompactTableLines SharedSingleThreadCache SharedSingleThreadCacheSpec SharedServer SharedServerData SharedServerSpec.
From stdpp Require Import gmap.

Open Scope Z_scope.

Section use.
Context {R : Type} `{ReplacementSpec R} {W EC ES D : Type} (ec0 : EC) (es0 : ES).
Context (evict_func : W → EC → Z → Z → bool → ES → result (W * EC * ES * bool)).
Context (load_func : W → EC → Z → Z → ES → result (W * EC * ES * bool)).
Context `{!IoContract D ec0 evict_func load_func}.

Abbreviation cache_t := (cache R ES).
Abbreviation sys_t := (sys R W ES).
Abbreviation ctx := (context EC ES).
Abbreviation inv := (inv ec0 evict_func load_func).
Abbreviation srv_data := (srv_data ec0 evict_func load_func).
Abbreviation process := (process ec0 es0 evict_func load_func).
Abbreviation pinned := (pinned ec0 evict_func load_func).
Implicit Types (c : cache_t) (s : sys_t) (x : ctx) (fl : list (flight EC)) (held : gmap Z Z) (notes : list note) (f : flight EC).
Implicit Types (mem : Z → D) (wc : Z → Z) (w : W).

(** *** The order of requests and notifications does not matter *)
Lemma note_sum_perm ns ns' : ns ≡ₚ ns' → note_sum ns = note_sum ns'.
Proof. unfold note_sum. induction 1; simpl; lia. Qed.

Lemma srv_perm c fl fl' held notes notes' : srv_inv c fl held notes → fl ≡ₚ fl' → notes ≡ₚ notes' → srv_inv c fl' held notes'.
Proof.
  intros Hi Hfl Hn.
  assert (Hin : ∀ f, f ∈ fl' ↔ f ∈ fl) by (intros f; by rewrite Hfl).
  assert (Hnin : ∀ n, n ∈ notes' ↔ n ∈ notes) by (intros n; by rewrite Hn).
  assert (Hfr : ∀ p, p ∈ (f_frame <$> fl') ↔ p ∈ (f_frame <$> fl)) by (intros p; by rewrite Hfl).
  split; try apply Hi.
  - eapply hints_sub; [apply Hi|]. intros y Hy. by rewrite Hfl.
  - intros v Hv. rewrite Hfr. by apply (si_resident _ _ _ _ Hi).
  - intros v Hv Hb. destruct (si_busy _ _ _ _ Hi v Hv Hb) as (f & Hf & ?). exists f. by rewrite Hin.
  - intros f Hf%Hin. by apply (si_flight _ _ _ _ Hi).
  - rewrite <- Hfl. apply Hi.
  - rewrite <- Hfl. apply Hi.
  - intros v Hv Hh. rewrite Hnin. by apply (si_idle _ _ _ _ Hi).
  - rewrite <- (note_sum_perm _ _ Hn). unfold zlen. rewrite <- Hfl. apply Hi.
  - intros p Hp. rewrite Hfr. by apply (si_used _ _ _ _ Hi).
Qed.

Lemma data_perm mem wc w c fl fl' held : srv_data mem wc w c fl held → fl ≡ₚ fl' → srv_data mem wc w c fl' held.
Proof.
  intros Hd Hfl. assert (Hin : ∀ f, f ∈ fl' ↔ f ∈ fl) by (intros f; by rewrite Hfl). split; try apply Hd.
  - apply (io_perm w (transfers fl)); [|apply Hd]. unfold transfers. by rewrite Hfl.
  - intros p Hp. destruct (sd_touched _ _ _ _ _ _ _ _ _ Hd p Hp) as [?|(f & Hf & ?)]; [by left|right]. exists f. by rewrite Hin.
  - intros f Hf%Hin. by apply (sd_target _ _ _ _ _ _ _ _ _ Hd).
  - intros v pre p d h ph tr Hf%Hin. by apply (sd_evict _ _ _ _ _ _ _ _ _ Hd v pre p d h ph tr).
Qed.

Lemma srv_inv_perm mem wc s fl fl' held notes notes' : inv mem wc s fl held notes → fl ≡ₚ fl' → notes ≡ₚ notes' → inv mem wc s fl' held notes'.
Proof. intros [Hi Hd] Hfl Hn. split; [by eapply srv_perm|by eapply data_perm]. Qed.

(** *** Changes of one entry *)
Lemma held_of_drop held v : 0 < held_of held v → held_of (drop_pin held v) v = held_of held v - 1.
Proof.
  intros Hp. unfold drop_pin. destruct (Z.eqb_spec (held_of held v) 1) as [E|E]; unfold held_of at 1.
  - rewrite lookup_delete_eq. simpl. lia.
  - by rewrite lookup_insert_eq.
Qed.

Lemma drop_other held v u : u ≠ v → drop_pin held v !! u = held !! u.
Proof. intros Hu. unfold drop_pin. case_match; [by rewrite lookup_delete_ne|by rewrite lookup_insert_ne]. Qed.

Lemma drop_none held v : 0 < held_of held v → drop_pin held v !! v = None ↔ held_of held v = 1.
Proof.
  intros Hp. unfold drop_pin. destruct (Z.eqb_spec (held_of held v) 1) as [E|E].
  - by rewrite lookup_delete_eq.
  - by rewrite lookup_insert_eq.
Qed.

Lemma size_drop held v : 0 < held_of held v →
  Z.of_nat (base.size (drop_pin held v)) = Z.of_nat (base.size held) - (if decide (held_of held v = 1) then 1 else 0).
Proof.
  intros Hp. assert (Hn : ∃ n, held !! v = Some n) by (unfold held_of in Hp; destruct (held !! v) as [n|] eqn:E; [by exists n|simpl in Hp; lia]).
  destruct Hn as [n Hn]. unfold drop_pin. destruct (Z.eqb_spec (held_of held v) 1) as [E|E]; case_decide; try lia.
  - rewrite map_size_delete_Some by done.
    assert (base.size held ≠ 0%nat) by (intros E0%map_size_empty_inv; by rewrite E0 in Hn). lia.
  - rewrite map_size_insert_Some by done. lia.
Qed.

(** One pin of a resident page less. *)
Definition unpin_wc wc (v : Z) (is_write : bool) : Z → Z := λ u, if decide (u = v) then wc u - Z.b2z is_write else wc u.

Definition unpinned_pte c held v (is_write : bool) : unpacked_pte :=
  mk_pte true false (if is_write then true else p_dirty (ent c v)) (held_of held v - 1) (pp c v).

Lemma table_unpin c fl held notes v (is_write : bool) hint Hs : srv_inv c fl held notes → hints_ok (page_table c) Hs →
  (∀ u k, (u, k) ∈ Hs → okp c u) → match hint with None => True | Some k => (v, k) ∈ Hs end →
  resident c v → 0 < held_of held v →
  ∃ t, CompactHashPageTable.unpin (page_table c) v is_write hint = Ok (t, held_of held v) ∧ hints_ok t Hs ∧
    (∀ u, okp c u → ent (with_page_table c t) u = if decide (u = v) then unpinned_pte c held v is_write else ent c u) ∧
    (∀ m tg, v < m.2 → used_but m tg (page_table c) → used_but m (but_tag tg v) t).
Proof.
  intros Hi Hh Hok Hhint Hv Hpos. destruct (si_resident _ _ _ _ Hi v Hv) as (_ & _ & _ & _ & Hrc).
  pose proof (held_pos c fl held notes v Hi) as [Hrm _].
  destruct (entry_call c Hs v hint (Unpin is_write) (unpinned_pte c held v is_write) (RCount (held_of held v))
    (si_vmax _ _ _ _ Hi) Hh Hok (proj1 Hv)) as (t & Hrun & Hent & Hused & Hkeep).
  - destruct hint; [done|]. unfold used_pte. by destruct Hv as (_ & -> & _).
  - unfold unpinned_pte. destruct Hv as (_ & Hx & Hb). unfold pp. destruct (ent c v) as [ex bu di rc q]. simpl in *. subst. simpl.
    rewrite (proj2 (Z.ltb_lt 0 _)) by done. unfold ref_dec. rewrite (Z.mod_small _ REF_MOD) by lia. done.
  - exists t. split; [by apply unpin_run_call|]. split; [|split; [done|intros m tg Hvm; apply Hused; [done|by left]]]. apply Hkeep. intros u k Hu. split; [done|by left].
Qed.

Lemma unpin_change_inv c c2 fl held notes notes' v (is_write : bool) t Hs :
  srv_inv c fl held notes → same_shape c c2 → page_table c2 = t → hints_ok t Hs →
  (∀ y, y ∈ mjoin (f_hints <$> fl) → y ∈ Hs) → resident c v → 0 < held_of held v →
  (∀ u, okp c u → ent (with_page_table c t) u = if decide (u = v) then unpinned_pte c held v is_write else ent c u) →
  rep_inv (max_ppage_id c) (replacement c2) →
  (∀ q, q ∈ members c2 → q ∈ members c ∨ q = pp c v) → (∀ q, q ∈ members c → q ∈ members c2) →
  (held_of held v = 1 → pp c v ∈ members c2 ∨ NUnpin v ∈ notes') →
  (∀ u, NUnpin u ∈ notes → NUnpin u ∈ notes') →
  pinned_size c2 + note_sum notes' = pinned_size c + note_sum notes - (if decide (held_of held v = 1) then 1 else 0) →
  srv_inv c2 fl (drop_pin held v) notes' ∧
  (∀ u, okp c u → ent c2 u = if decide (u = v) then unpinned_pte c held v is_write else ent c u).
Proof.
  intros Hi Hss Ept Hht Hsub Hv Hpos Hent Hrep Hm1 Hm2 Hidle Hnotes Hps.
  pose proof (held_pos c fl held notes v Hi) as [Hrm _].
  assert (Hent2 : ∀ u, okp c u → ent c2 u = if decide (u = v) then unpinned_pte c held v is_write else ent c u).
  { intros u Hu. rewrite <- Hent by done. unfold ent. by rewrite Ept. }
  assert (Hh2 : hints_ok (page_table c2) (mjoin (f_hints <$> fl))) by (rewrite Ept; by apply (hints_sub t Hs)).
  split; [|done]. apply (user_change c c2 fl held (drop_pin held v) notes notes' v _ Hi Hss Hh2 Hrep Hv Hent2); try done.
  - by rewrite held_of_drop.
  - intros u Hu. by apply drop_other.
  - intros n Hn. pose proof (held_of_drop held v Hpos) as E. unfold held_of at 1 in E. rewrite Hn in E. simpl in E.
    destruct (decide (held_of held v = 1)) as [E1|]; [|lia]. apply (drop_none held v Hpos) in E1. congruence.
  - intros q Hq _. by apply Hm2.
  - intros Hn. apply Hidle. by apply drop_none.
  - intros u _. apply Hnotes.
  - rewrite size_drop by done. lia.
Qed.

Lemma unpin_change_data mem wc w c c2 fl held v (is_write : bool) : srv_data mem wc w c fl held → same_shape c c2 →
  resident c v → 0 < held_of held v → 0 ≤ wc v - Z.b2z is_write ≤ held_of held v - 1 →
  (∀ u, okp c u → ent c2 u = if decide (u = v) then unpinned_pte c held v is_write else ent c u) →
  srv_data mem (unpin_wc wc v is_write) w c2 fl (drop_pin held v).
Proof.
  intros Hd Hss Hv Hpos Hwc Hent2.
  apply (user_change_data ec0 evict_func load_func mem wc _ w c c2 fl held (drop_pin held v) v _ Hd Hss Hv Hent2); try done.
  - intros u Hu. by apply drop_other.
  - intros u Hu. unfold unpin_wc. by rewrite decide_False.
  - unfold unpin_wc. rewrite held_of_drop, decide_True by done. lia.
  - unfold unpin_wc, unpinned_pte. rewrite decide_True by done. destruct is_write; [done|]. cbn [p_dirty Z.b2z].
    intros Hdr Hw. apply (sd_clean _ _ _ _ _ _ _ _ _ Hd); [done|done|lia].
Qed.

(** *** The clients' calls in the page table *)
Lemma note_sum_cons n ns : note_sum (n :: ns) = note_sum ns + match n with NPin _ => 1 | NUnpin _ => -1 end.
Proof. done. Qed.

Ltac count_notes := cbn [pinned_size with_page_table with_replacement with_pinned_size]; rewrite ?note_sum_cons in *; lia.

Lemma with_same c : with_page_table c (page_table c) = c.
Proof. by destruct c. Qed.

Lemma unchanged_entries mem wc s t fl held notes : inv mem wc s fl held notes →
  (∀ u, okp (the_cache s) u → ent (with_page_table (the_cache s) t) u = ent (the_cache s) u) →
  hints_ok t (mjoin (f_hints <$> fl)) → inv mem wc (mk_sys (world s) (with_page_table (the_cache s) t)) fl held notes.
Proof.
  intros [Hi Hd] Hent Hh. split; [by apply entries_inv|].
  by apply (same_entries_data ec0 evict_func load_func mem wc (world s) (the_cache s)).
Qed.

Lemma held_resident c fl held notes v : srv_inv c fl held notes → 0 < held_of held v → resident c v.
Proof.
  intros Hi Hp. unfold held_of in Hp. destruct (held !! v) as [n|] eqn:E; [|simpl in Hp; lia]. by apply (si_held _ _ _ _ Hi v n).
Qed.

Lemma hints_okp c fl held notes : srv_inv c fl held notes → ∀ u k, (u, k) ∈ mjoin (f_hints <$> fl) → okp c u.
Proof. intros Hi u k Hu. by apply (hint_okp c fl held notes u k Hi). Qed.

(** A client tries to pin the page itself. *)
Lemma client_pin_run mem wc s fl held notes v : let c := the_cache s in
  inv mem wc s fl held notes → okp c v → held_of held v + 1 < REF_MOD →
  ∃ t (success : bool) p n, CompactHashPageTable.pin (page_table c) v None = Ok (t, (success, p, n)) ∧
    let s' := mk_sys (world s) (with_page_table c t) in
    kept None c (the_cache s') ∧
    if success then
      inv mem wc s' fl (add_pin held v) (if n =? 0 then NPin v :: notes else notes) ∧
      resident (the_cache s') v ∧ pp (the_cache s') v = p ∧ n = held_of held v ∧ frame_of (world s) p = mem v
    else inv mem wc s' fl held notes ∧ ¬ resident c v.
Proof.
  intros c Hinv Hv Hrm. pose proof Hinv as [Hi Hd]. fold c in Hi, Hd. pose proof (hints_okp c fl held notes Hi) as Hok.
  destruct (ent c v) as [ex bu di rc q] eqn:Eent. destruct bu.
  - destruct (entry_call c (mjoin (f_hints <$> fl)) v None Pin (ent c v) (RPin pin_none)) as (t & Hrun & Hent & Hused & Hkeep);
      [apply Hi|apply Hi|done|done|by unfold used_pte; rewrite Eent; apply orb_true_r|rewrite Eent; simpl; by rewrite andb_false_r|].
    exists t, false, 0, 0. split; [exact (pin_run_call _ _ _ _ _ _ _ Hrun)|]. split; [|split].
    + split; [split; [done|]|]; [intros m Hm; apply (Hused m None); [by apply Hm|]; left; unfold used_pte; rewrite Eent; apply orb_true_r|].
      intros u Hu. apply same_stays; [done| |done]. rewrite Hent by apply Hu. by destruct (decide (u = v)) as [->|].
    + apply unchanged_entries; [done|intros u Hu; fold c in Hu |- *; rewrite Hent by done; by destruct (decide (u = v)) as [->|]|].
      apply Hkeep. intros u k Hu. split; [done|by left].
    + intros (_ & _ & Hb). by rewrite Eent in Hb.
  - destruct ex.
    + assert (Hr : resident c v) by (split; [done|by rewrite Eent]).
      destruct (table_pin c fl held notes v None _ Hi (si_table _ _ _ _ Hi) Hok I Hr Hrm) as (t & Hrun & Hht & Hent & Hused).
      exists t, true, (pp c v), (held_of held v). split; [done|].
      split; [split; [split; [done|]; intros m Hm; apply (Hused m None); by apply Hm|by apply (hit_pins c _ fl held notes v)]|]. pose proof (held_pos c fl held notes v Hi) as [_ Hzero].
      destruct (pin_change ec0 evict_func load_func mem wc s (with_page_table c t) fl held notes
        (if held_of held v =? 0 then NPin v :: notes else notes) v t (mjoin (f_hints <$> fl)) Hinv) as (Hinv' & Hres & Epp); try done.
      * apply Hi.
      * intros u _ Hu. case_match; [by apply elem_of_cons; right|done].
      * fold c. destruct (Z.eqb_spec (held_of held v) 0) as [E|E].
        -- rewrite decide_True by (by apply Hzero). count_notes.
        -- rewrite decide_False by (by rewrite <- Hzero). count_notes.
      * split; [exact Hinv'|]. split; [done|]. split; [done|]. split; [done|]. by apply (sd_resident _ _ _ _ _ _ _ _ _ Hd).
    + exists (page_table c), false, 0, 0. split.
      { apply (table_pin_absent _ (mjoin (f_hints <$> fl))); [apply Hi|]. intros Hu. apply (in_use_ent c fl held notes Hi) in Hu. by rewrite Eent in Hu. }
      cbn zeta. rewrite with_same. split; [done|]. split; [by destruct s|]. intros (_ & Hx & _). by rewrite Eent in Hx.
Qed.

Lemma client_unpin_run mem wc s fl held notes v (is_write : bool) : let c := the_cache s in
  inv mem wc s fl held notes → 0 < held_of held v → 0 ≤ wc v - Z.b2z is_write ≤ held_of held v - 1 →
  ∃ t n, CompactHashPageTable.unpin (page_table c) v is_write None = Ok (t, n) ∧ n = held_of held v ∧
    inv mem (unpin_wc wc v is_write) (mk_sys (world s) (with_page_table c t)) fl (drop_pin held v)
      (if n =? 1 then NUnpin v :: notes else notes) ∧ lines_kept None c (with_page_table c t) ∧
    ∀ u, resident c u → pp (with_page_table c t) u = pp c u.
Proof.
  intros c Hinv Hpos Hwc. pose proof Hinv as [Hi Hd]. fold c in Hi, Hd. pose proof (held_resident c fl held notes v Hi Hpos) as Hr.
  destruct (table_unpin c fl held notes v is_write None _ Hi (si_table _ _ _ _ Hi) (hints_okp c fl held notes Hi) I Hr Hpos) as (t & Hrun & Hht & Hent & Hused).
  exists t, (held_of held v). split; [done|]. split; [done|]. apply and_comm, conj.
  { split; [split; [done|]; intros m Hm; apply (Hused m None); by apply Hm, Hr|]. intros u Hu. unfold pp at 1. rewrite Hent by apply Hu.
    by destruct (decide (u = v)) as [->|]. }
  destruct (unpin_change_inv c (with_page_table c t) fl held notes (if held_of held v =? 1 then NUnpin v :: notes else notes) v is_write t
    (mjoin (f_hints <$> fl)) Hi) as (Hi2 & Hent2); try done.
  - apply Hi.
  - intros q Hq. by left.
  - intros E. right. rewrite E. simpl. set_solver.
  - intros u Hu. case_match; [by apply elem_of_cons; right|done].
  - destruct (Z.eqb_spec (held_of held v) 1) as [E|E]; [rewrite decide_True by done|rewrite decide_False by done]; count_notes.
  - split; [exact Hi2|]. by apply (unpin_change_data mem wc (world s) c (with_page_table c t)).
Qed.

(** *** Notifications *)
Definition note_page (n : note) : Z := match n with NPin v | NUnpin v => v end.
Definition deliver c (n : note) : result cache_t := match n with NPin v => notify_pin c v | NUnpin v => notify_unpin c v end.

Lemma entry_cases c fl held notes v : srv_inv c fl held notes → okp c v →
  resident c v ∨ (∃ f, f ∈ fl ∧ ent c v = busy_pte (f_frame f)) ∨ (p_exist (ent c v) = false ∧ p_ref_count (ent c v) = 0).
Proof.
  intros Hi Hv. destruct (p_busy (ent c v)) eqn:Hb.
  - destruct (si_busy _ _ _ _ Hi v Hv Hb) as (f & Hf & Hin). destruct (si_flight _ _ _ _ Hi f Hf) as (_ & _ & _ & He & Ho).
    destruct f as [u p h|u pre p d h ph tr|u p h tr]; simpl in *.
    + right. left. exists (FAlloc u p h). split; [done|]. assert (v = u) as -> by set_solver. done.
    + destruct (decide (v = u)) as [->|Hne]; [right; left; by eexists; split|]. right. right.
      assert (v = pre) as -> by set_solver. by rewrite Ho.
    + right. left. exists (FLoad u p h tr). split; [done|]. assert (v = u) as -> by set_solver. done.
  - destruct (p_exist (ent c v)) eqn:Hx; [by left|]. right. right. split; [done|].
    destruct (si_table _ _ _ _ Hi) as (tails & Ht & _). pose proof (ent_get c fl held notes Hi v) as Hg.
    destruct (holds_dec _ _ Ht (tag_of v)) as [(i & l & Hl)|Ha].
    + destruct (holds_entry _ _ Ht v i l Hl) as (h & p & Hgh & Hgp & _ & Hwf).
      rewrite (op_get _ _ Ht v i l h p Hl Hgh Hgp) in Hg. injection Hg as Eg. rewrite <- Eg in Hx |- *. simpl in Hx |- *.
      rewrite Hx in Hwf. apply Hwf.
    + rewrite (get_pte_absent _ _ Ht v Ha) in Hg. injection Hg as Eg. by rewrite <- Eg.
Qed.

Lemma notify_run mem wc s fl held notes n : let c := the_cache s in
  inv mem wc s fl held (n :: notes) → okp c (note_page n) →
  ∃ c', deliver c n = Ok c' ∧ inv mem wc (mk_sys (world s) c') fl held notes.
Proof.
  intros c [Hi Hd] Hv. fold c in Hi, Hd. set (v := note_page n) in *. pose proof (ent_get c fl held _ Hi v) as Hget.
  pose proof (si_cur _ _ _ _ Hi) as Hcur.
  assert (Hfin : ∀ c', same_shape c c' → page_table c' = page_table c → srv_inv c' fl held notes →
    inv mem wc (mk_sys (world s) c') fl held notes).
  { intros c' Hss Ept Hi'. split; [done|]. apply (same_entries_data ec0 evict_func load_func mem wc (world s) c); [done|done|].
    intros u _. unfold ent. simpl. by rewrite Ept. }
  assert (Hrange : 0 < p_ref_count (ent c v) → 0 ≤ p_ppage_id (ent c v) < max_ppage_id c ∧
    ∀ u, resident c u → held !! u = None → pp c u ≠ p_ppage_id (ent c v)).
  { intros Hpos. destruct (entry_cases c fl held _ v Hi Hv) as [Hr|[(f & Hf & E)|[_ E]]]; [| |lia].
    - destruct (si_resident _ _ _ _ Hi v Hr) as (_ & Hpr & _ & _ & Hrc). split; [fold (pp c v); lia|]. intros u Hu Hn E.
      assert (u = v) as -> by (by apply (srv_resident_inj c fl held _ Hi)). unfold held_of in Hrc. rewrite Hn in Hrc. simpl in Hrc. lia.
    - rewrite E. simpl. pose proof (flight_range _ _ _ _ Hi f Hf). split; [lia|]. intros u Hu _. by apply (resident_frame c fl held _ Hi). }
  destruct n as [w|w]; subst v; cbn [note_page deliver] in *; unfold notify_pin, notify_unpin; cbn [page_table with_pinned_size];
    rewrite (bind_rew _ _ _ Hget); cbv beta iota zeta; cbn [replacement with_pinned_size].
  - destruct (Z.ltb_spec 0 (p_ref_count (ent c w))) as [Hpos|Hz].
    + destruct (Hrange Hpos) as [Hpr Hno]. destruct (rep_erase_spec _ _ (p_ppage_id (ent c w)) (si_rep _ _ _ _ Hi) Hpr) as (r & Hr & Hri & Hrm).
      rewrite (bind_rew _ _ _ Hr). eexists. split; [done|]. apply Hfin; [done|done|].
      apply (policy_change c _ fl held (NPin w :: notes) notes Hi); try done; unfold members; cbn [replacement with_replacement pinned_size with_pinned_size].
      * intros q Hq. left. rewrite Hrm in Hq. set_solver.
      * intros u Hu Hn [Hm|Hnote]; [left|right; set_solver]. rewrite Hrm. pose proof (Hno u Hu Hn). set_solver.
      * count_notes.
    + eexists. split; [done|]. apply Hfin; [done|done|]. apply (policy_change c _ fl held (NPin w :: notes) notes Hi); try done.
      * apply Hi.
      * intros q Hq. by left.
      * intros u Hu Hn [Hm|Hnote]; [by left|right; set_solver].
      * count_notes.
  - destruct (p_exist (ent c w) && (p_ref_count (ent c w) =? 0)) eqn:Hc.
    + apply andb_true_iff in Hc as [Hx Hz%Z.eqb_eq].
      assert (Hr : resident c w).
      { destruct (entry_cases c fl held _ w Hi Hv) as [?|[(f & Hf & E)|[E _]]]; [done|rewrite E in Hz; done|congruence]. }
      destruct (si_resident _ _ _ _ Hi w Hr) as (_ & Hpr & _).
      destruct (rep_push_spec _ _ (p_ppage_id (ent c w)) (si_rep _ _ _ _ Hi)) as (r & Hpu & Hri & Hrm); [fold (pp c w); lia|].
      rewrite (bind_rew _ _ _ Hpu). eexists. split; [done|]. apply Hfin; [done|done|].
      apply (policy_change c _ fl held (NUnpin w :: notes) notes Hi); try done; unfold members; cbn [replacement with_replacement pinned_size with_pinned_size].
      * intros q Hq. rewrite Hrm in Hq. apply elem_of_union in Hq as [->%elem_of_singleton|Hq]; [right; by exists w|by left].
      * intros u Hu Hn [Hm|[[= ->]|Hnote]%elem_of_cons]; [left; rewrite Hrm; set_solver|left; rewrite Hrm; unfold pp; set_solver|by right].
      * count_notes.
    + eexists. split; [done|]. apply Hfin; [done|done|]. apply (policy_change c _ fl held (NUnpin w :: notes) notes Hi); try done.
      * apply Hi.
      * intros q Hq. by left.
      * intros u Hu Hn [Hm|[[= ->]|Hnote]%elem_of_cons]; [by left| |by right]. exfalso.
        destruct (si_resident _ _ _ _ Hi w Hu) as (_ & _ & _ & _ & Hrc). destruct Hu as (_ & Hx & _).
        rewrite Hx in Hc. apply Z.eqb_neq in Hc. unfold held_of in Hrc. rewrite Hn in Hrc. done.
      * count_notes.
Qed.
(** *** Writes *)

(** The holders of pins may start to write. *)
Lemma writers_run mem wc wc' s fl held notes : inv mem wc s fl held notes → (∀ u, wc u ≤ wc' u) → (∀ u, wc' u ≤ held_of held u) →
  inv mem wc' s fl held notes.
Proof.
  intros [Hi Hd] Hge Hle. split; [done|]. split; try apply Hd.
  - intros u Hu Hdr Hz. apply (sd_clean _ _ _ _ _ _ _ _ _ Hd); [done|done|]. pose proof (sd_wc _ _ _ _ _ _ _ _ _ Hd u). pose proof (Hge u). lia.
  - intros u. pose proof (sd_wc _ _ _ _ _ _ _ _ _ Hd u). pose proof (Hge u). pose proof (Hle u). lia.
Qed.

Definition store mem (v : Z) (d : D) : Z → D := λ u, if decide (u = v) then d else mem u.

Lemma client_write_run mem wc s fl held notes v d w' : let c := the_cache s in
  inv mem wc s fl held notes → 0 < wc v → frame_write (world s) (pp c v) d w' →
  inv (store mem v d) wc (mk_sys w' c) fl held notes.
Proof.
  intros c [Hi Hd] Hw Hwr. fold c in Hi, Hd. split; [done|]. cbn [world the_cache].
  assert (Hr : resident c v) by (apply (held_resident c fl held notes v Hi); pose proof (sd_wc _ _ _ _ _ _ _ _ _ Hd v); lia).
  destruct (si_resident _ _ _ _ Hi v Hr) as (_ & Hpr & _ & Hnf & _). pose proof (si_cur _ _ _ _ Hi) as Hcur.
  assert (Hmem : ∀ u, u ≠ v → store mem v d u = mem u) by (intros u Hu; unfold store; by rewrite decide_False).
  destruct (frame_write_law (world s) (transfers fl) (pp c v) d w' Hwr (sd_io _ _ _ _ _ _ _ _ _ Hd))
    as (Hio & Ht & Epg & Efr & Hown & Hother & Hdisk).
  { rewrite (sd_frames _ _ _ _ _ _ _ _ _ Hd). lia. }
  { destruct (sd_touched _ _ _ _ _ _ _ _ _ Hd (pp c v)) as [?|(f & Hf & _ & E)]; [lia|done|].
    by destruct (resident_frame c fl held notes Hi v f Hr Hf). }
  { intros (t & E & (g & Hg & Et)%elem_of_transfers)%list_elem_of_fmap. destruct (transfer_page g t Et) as [_ Hp].
    apply Hnf. rewrite E, Hp. by apply list_elem_of_fmap_2. }
  assert (Hbusy : ∀ f u, f ∈ fl → u ∈ f_busy f → u ≠ v).
  { intros f u Hf Hu ->. destruct (srv_flight_busy_pages c fl held notes Hi f v Hf Hu) as [_ Hb]. destruct Hr as (_ & _ & ?). congruence. }
  rewrite (sd_frames _ _ _ _ _ _ _ _ _ Hd) in Hother. rewrite (sd_pages _ _ _ _ _ _ _ _ _ Hd) in Hdisk.
  split; rewrite ?Epg, ?Efr, ?Ht; try apply Hd; try done.
  - intros u Hu. destruct (decide (u = v)) as [->|Hne]; [rewrite Hown; unfold store; by rewrite decide_True|].
    rewrite Hmem by done. destruct (si_resident _ _ _ _ Hi u Hu) as (_ & Hpu & _).
    rewrite Hother; [by apply (sd_resident _ _ _ _ _ _ _ _ _ Hd)|lia|]. intros E. by apply Hne, (srv_resident_inj c fl held notes Hi).
  - intros u Hu Hdr H0w. assert (u ≠ v) by (intros ->; lia). rewrite Hmem by done. rewrite Hdisk by apply Hu.
    by apply (sd_clean _ _ _ _ _ _ _ _ _ Hd).
  - intros u Hu Hx Hb. assert (u ≠ v) by (intros ->; destruct Hr as (_ & ? & _); congruence). rewrite Hmem by done.
    rewrite Hdisk by done. by apply (sd_absent _ _ _ _ _ _ _ _ _ Hd).
  - intros f Hf. pose proof (Hbusy f _ Hf (f_page_busy f)) as Hne. rewrite Hmem by done.
    rewrite Hdisk by apply (flight_range c fl held notes Hi f Hf). by apply (sd_target _ _ _ _ _ _ _ _ _ Hd).
  - intros u pre p d0 h ph tr Hf. pose proof (sd_evict _ _ _ _ _ _ _ _ _ Hd _ _ _ _ _ _ _ Hf) as He.
    assert (Hne : pre ≠ v) by (apply (Hbusy _ pre Hf); simpl; set_solver). rewrite Hmem by done.
    pose proof (evict_range c fl held notes Hi _ _ _ _ _ _ _ Hf) as Hpre.
    destruct d0; [|by rewrite Hdisk]. rewrite Hother; [done| |].
    + apply (flight_range c fl held notes Hi _ Hf).
    + intros E. by apply (resident_frame c fl held notes Hi v _ Hr Hf).
Qed.

(** *** A request that starts *)
Definition starts x (k : request_kind) (v : Z) : Prop :=
  c_type x = k ∧ c_phase x = Begin ∧ c_vpage_id x = v ∧ c_pre_external_state x = None.

(** The answers of [process] to a pin of [v]: the page is locked by another
    request and the pin is tried again later; it is refused; the page is pinned;
    or the request waits for a transfer. *)
Inductive pin_outcome mem wc s x fl held notes (v : Z) : Prop :=
  | pin_retry : inv mem wc s fl held notes → starts x KPin v → p_busy (ent (the_cache s) v) = true → pin_outcome mem wc s x fl held notes v
  | pin_refused : inv mem wc s fl held notes → c_phase x = End_ → c_ppage_id x = NO_PPAGE →
      full_pin (the_cache s) = true → pin_outcome mem wc s x fl held notes v
  | pin_done : inv mem wc s fl (add_pin held v) notes → pinned mem s x v → pin_outcome mem wc s x fl held notes v
  | pin_waits f : inv mem wc s (f :: fl) held notes → waits (the_cache s) x f → f_page f = v → pin_outcome mem wc s x fl held notes v.

Lemma progress_outcome mem wc s x fl held notes v : c_vpage_id x = v →
  progress ec0 evict_func load_func mem wc s x fl held notes → pin_outcome mem wc s x fl held notes v.
Proof.
  intros <- [(Hinv & Hn & Hp)|(f & Hinv & Hw & Hf)]; [|by apply (pin_waits _ _ _ _ _ _ _ _ f)].
  apply pin_done; [|done]. unfold add_pin, held_of. by rewrite Hn.
Qed.

(** The eviction loop finds a page when all the frames are taken. *)
Definition not_stuck c held : Prop := full c = true → full_pin c = false → ∃ u, can_evict c held u.

Lemma can_evict_same c t held u : (∀ u, okp c u → ent (with_page_table c t) u = ent c u) →
  can_evict c held u → can_evict (with_page_table c t) held u.
Proof.
  intros Hent ((Hu & Hx & Hb) & Hm & Hn). unfold can_evict, resident, pp, okp in *. cbn [max_vpage_id with_page_table].
  by rewrite Hent.
Qed.

Lemma process_begin s x : c_phase x = Begin → process s x =
  '(s, x, continue) ← begin_turn s x; if (continue : bool) then process_fuel ec0 es0 evict_func load_func 4 s x else Ok (s, x).
Proof. intros Hph. unfold SharedSingleThreadCache.process. rewrite srv_process_fuel_S. unfold one_turn. by rewrite Hph. Qed.

Lemma process_initing n s x : c_phase x = Initing → process_fuel ec0 es0 evict_func load_func (S n) s x =
  '(s, x, continue) ← initing_turn ec0 evict_func s x; if (continue : bool) then process_fuel ec0 es0 evict_func load_func n s x else Ok (s, x).
Proof. intros Hph. rewrite srv_process_fuel_S. unfold one_turn. by rewrite Hph. Qed.

Lemma found_kept (v : Z) (t : table) c c' : (∀ m, used_but m None (page_table c) → used_but m (Some (tag_of v)) t) →
  (∀ u, okp c u → ent (with_page_table c t) u = ent c u) → kept (Some (tag_of v)) (with_page_table c t) c' → kept None c c'.
Proof.
  intros Ht Hent [[Em Hk] Hp]. split; [split; [exact Em|]; intros m Hm Hu; by apply Hk, Ht|]. intros u Hu.
  destruct (same_stays c (with_page_table c t) u eq_refl (Hent u (proj1 (proj1 Hu))) Hu) as [Hu1 E1]. destruct (Hp u Hu1) as [Hu2 E2].
  split; [done|congruence].
Qed.

(** A call of [process] that has read the entry of its page, which was not
    locked: since then the pins and the dirty flag of the entry may have changed. *)
Definition called c x (i : Z) : Prop := let v := c_vpage_id x in
  c_phase x = Initing ∧ c_hint x = Some i ∧ c_pre_external_state x = None ∧ okp c v ∧ p_busy (ent c v) = false ∧
  p_exist (c_pte x) = p_exist (ent c v) ∧ p_ppage_id (c_pte x) = pp c v.

Lemma begin_called c t x i : okp c (c_vpage_id x) → c_pre_external_state x = None → p_busy (ent c (c_vpage_id x)) = false →
  (∀ u, okp c u → ent (with_page_table c t) u = ent c u) →
  called (with_page_table c t) (set_phase (set_lookup x (Some i) (ent c (c_vpage_id x))) Initing) i.
Proof.
  intros Hv Hpe Hb Hent. unfold called, pp. cbn [c_phase c_hint c_pre_external_state c_vpage_id c_pte set_phase set_lookup].
  change (okp (with_page_table c t)) with (okp c). by rewrite Hent.
Qed.

(** The rest of a pin. *)
Lemma pin_finish_run mem wc s fl held notes x i : let c := the_cache s in let v := c_vpage_id x in
  inv mem wc s fl held notes → Forall f_moving fl → called c x i → c_type x = KPin →
  hints_ok (page_table c) ((v, i) :: mjoin (f_hints <$> fl)) → held_of held v + 1 < REF_MOD →
  (p_exist (ent c v) = false → not_stuck c held) →
  ∃ s' x', process_fuel ec0 es0 evict_func load_func 4 s x = Ok (s', x') ∧ pin_outcome mem wc s' x' fl held notes v ∧
    (full_pin c = false → kept (Some (tag_of v)) c (the_cache s')).
Proof.
  intros c v Hinv Hmov (Hph & Hhint & Hpe & Hv & Hb & Hex & Hpp) Hty Hh Hrm Hns. fold c v in Hv, Hb, Hex, Hpp.
  rewrite process_initing by done. unfold initing_turn. rewrite Hty, Hex. destruct (p_exist (ent c v)) eqn:Hx.
  - destruct (srv_pin_hit_run ec0 evict_func load_func mem wc s fl held notes x i) as (s' & x' & Hrun & Hinv' & Hp & Hk); [done|done|by split|done|done|done|].
    rewrite (bind_rew _ _ _ Hrun). eexists _, _. split; [done|]. split; [by apply pin_done|done].
  - destruct (full_pin c) eqn:Hfp.
    + unfold pin_miss_turn. fold c. rewrite Hfp. cbn [mbind result_bind]. eexists _, _. split; [done|]. split; [by apply pin_refused|done].
    + destruct (srv_pin_miss_run ec0 es0 evict_func load_func mem wc s fl held notes x i)
        as (s2 & x2 & b & s' & x' & Hrun & Hcont & Hpg & Hvp & Hk); try done.
      { intros Hfull. by apply Hns. }
      rewrite (bind_rew _ _ _ Hrun). exists s', x'. split; [|split; [by apply progress_outcome|done]].
      destruct b; [|done]. by apply (srv_process_fuel_mono ec0 es0 evict_func load_func 2 1).
Qed.

Lemma pin_request_run mem wc s fl held notes x v : let c := the_cache s in
  inv mem wc s fl held notes → Forall f_moving fl → starts x KPin v → okp c v → line_available (page_table c) v →
  held_of held v + 1 < REF_MOD → (p_exist (ent c v) = false → p_busy (ent c v) = false → not_stuck c held) →
  ∃ s' x', process s x = Ok (s', x') ∧ pin_outcome mem wc s' x' fl held notes v ∧
    (full_pin c = false → kept None c (the_cache s')).
Proof.
  intros c Hinv Hmov (Hty & Hph & Hxv & Hpe) Hv Hav Hrm Hns. subst v. set (v := c_vpage_id x) in *.
  destruct (begin_run ec0 evict_func load_func mem wc s fl held notes x Hinv Hv Hav) as (t & i & Hbeg & Hinv1 & Hh & Hent & Hsame & Hlines).
  fold c v in Hbeg, Hinv1, Hh, Hent, Hsame. rewrite process_begin by done. rewrite Hbeg. cbv zeta.
  set (s1 := mk_sys (world s) (with_page_table c t)) in *. set (x1 := set_lookup x (Some i) (ent c v)).
  destruct (p_busy (ent c v)) eqn:Hb.
  { eexists _, _. split; [done|]. split; [|cbn [the_cache s1]; rewrite Hsame; [done|unfold used_pte; by rewrite Hb, orb_true_r]].
    apply pin_retry; [done|done|]. change (the_cache s1) with (with_page_table c t). by rewrite Hent. }
  cbn [mbind result_bind].
  destruct (pin_finish_run mem wc s1 fl held notes (set_phase x1 Initing) i) as (s' & x' & Hrun & Ho & Hk); [done|done|by apply begin_called|done|done|done| |].
  - intros Hx. change (the_cache s1) with (with_page_table c t) in Hx. rewrite Hent in Hx by done. intros Hfull Hfp.
    destruct (Hns Hx eq_refl Hfull Hfp) as (u & Hu). exists u. by apply can_evict_same.
  - exists s', x'. split; [done|]. split; [exact Ho|]. intros Hfp. by apply (found_kept v t), Hk.
Qed.

(** A request that waits is polled again. *)
Lemma resume_run mem wc s fl held notes x f : inv mem wc s (f :: fl) held notes → Forall f_moving fl →
  waits (the_cache s) x f → ∃ s' x', process s x = Ok (s', x') ∧ c_vpage_id x' = f_page f ∧
    progress ec0 evict_func load_func mem wc s' x' fl held notes ∧ kept None (the_cache s) (the_cache s').
Proof.
  intros Hinv Hmov Hw. pose proof Hw as (Hty & Hpr & Hxv & Hxp & Hhint & Hpf & Hf). destruct f as [|v pre p d h ph tr|v p h tr]; [done| |].
  - destruct (srv_evicting_waits_run ec0 es0 evict_func load_func mem wc s fl held notes x _ Hinv Hmov Hw (proj1 Hf)) as (s' & x' & Hrun & Hpg & Hvp & Hk).
    exists s', x'. split; [by apply (srv_process_fuel_mono ec0 es0 evict_func load_func 3 2)|]. by rewrite Hvp.
  - destruct Hf as (Hph & Hes & ->). simpl in *. subst v p.
    destruct (srv_loading_waits_run ec0 es0 evict_func load_func mem wc s fl held notes x h Hinv) as (s' & x' & Hrun & Hpg & Hvp & Hk); try done.
    exists s', x'. split; [by apply (srv_process_fuel_mono ec0 es0 evict_func load_func 2 3)|]. by rewrite Hvp.
Qed.
(** An unpin through the server. *)
Lemma unpin_turn_tables s fl held notes x i : let c := the_cache s in let v := c_vpage_id x in
  srv_inv c fl held notes → hints_ok (page_table c) ((v, i) :: mjoin (f_hints <$> fl)) →
  c_hint x = Some i → p_exist (c_pte x) = true → p_ppage_id (c_pte x) = pp c v → 0 < held_of held v →
  ∃ c2 x', unpin_turn s x = Ok (mk_sys (world s) c2, x', false) ∧ c_phase x' = End_ ∧ same_shape c c2 ∧
    srv_inv c2 fl (drop_pin held v) notes ∧
    (∀ u, okp c u → ent c2 u = if decide (u = v) then unpinned_pte c held v (c_is_write x) else ent c u) ∧
    (∀ m tg, v < m.2 → used_but m tg (page_table c) → used_but m (but_tag tg v) (page_table c2)).
Proof.
  intros c v Hi Hh Hhint Hxx Hpte Hpos. fold c in Hi.
  pose proof (held_resident c fl held notes v Hi Hpos) as Hr. pose proof (proj1 (proj2 Hr)) as Hx.
  destruct (si_resident _ _ _ _ Hi v Hr) as ((st & Hst & Hsv) & Hpr & _). pose proof (si_cur _ _ _ _ Hi) as Hcur.
  assert (Hok : ∀ u k, (u, k) ∈ (v, i) :: mjoin (f_hints <$> fl) → okp c u).
  { intros u k [[= -> ->]|Hu]%elem_of_cons; [apply Hr|]. by apply (hints_okp c fl held notes Hi u k). }
  destruct (table_unpin c fl held notes v (c_is_write x) (Some i) _ Hi Hh Hok) as (t & Hrun & Hht & Hent & Hu); [set_solver|done|done|].
  assert (Hsub : ∀ y, y ∈ mjoin (f_hints <$> fl) → y ∈ (v, i) :: mjoin (f_hints <$> fl)) by (intros y Hy; by apply elem_of_cons; right).
  unfold unpin_turn. cbn [c_pte set_is_unpin c_vpage_id c_is_write c_hint]. fold c v. rewrite Hxx, Hpte, Hhint.
  assert (Has : assert (s_vpage_id st =? v) = Ok tt) by (by rewrite Hsv, Z.eqb_refl).
  rewrite (bind_rew _ _ _ (proj2 (aread_Ok _ _ _) Hst)), (bind_rew _ _ _ Has), (bind_rew _ _ _ Hrun). cbv beta iota zeta.
  destruct (Z.eqb_spec (held_of held v) 1) as [E|E].
  - destruct (rep_push_spec _ _ (pp c v) (si_rep _ _ _ _ Hi)) as (r & Hpu & Hri & Hrm); [lia|].
    change (replacement (with_page_table c t)) with (replacement c). rewrite (bind_rew _ _ _ Hpu).
    eexists _, _. split; [reflexivity|]. split; [reflexivity|]. split; [done|]. apply and_assoc. split; [|done].
    apply (unpin_change_inv c _ fl held notes notes v (c_is_write x) t ((v, i) :: mjoin (f_hints <$> fl)) Hi); try done;
      unfold members; cbn [replacement with_replacement with_pinned_size with_page_table].
    + intros q. rewrite Hrm. set_solver.
    + intros q. rewrite Hrm. set_solver.
    + intros _. left. rewrite Hrm. set_solver.
    + rewrite decide_True by done. count_notes.
  - eexists _, _. split; [reflexivity|]. split; [reflexivity|]. split; [done|]. apply and_assoc. split; [|done].
    apply (unpin_change_inv c _ fl held notes notes v (c_is_write x) t ((v, i) :: mjoin (f_hints <$> fl)) Hi); try done.
    + apply Hi.
    + intros q Hq. by left.
    + rewrite decide_False by done. count_notes.
Qed.

Lemma unpin_turn_run mem wc s fl held notes x i : let c := the_cache s in let v := c_vpage_id x in
  inv mem wc s fl held notes → hints_ok (page_table c) ((v, i) :: mjoin (f_hints <$> fl)) →
  c_hint x = Some i → p_exist (c_pte x) = true → p_ppage_id (c_pte x) = pp c v → 0 < held_of held v → 0 ≤ wc v - Z.b2z (c_is_write x) ≤ held_of held v - 1 →
  ∃ s' x', unpin_turn s x = Ok (s', x', false) ∧ c_phase x' = End_ ∧
    inv mem (unpin_wc wc v (c_is_write x)) s' fl (drop_pin held v) notes.
Proof.
  intros c v [Hi Hd] Hh Hhint Hxx Hpte Hpos Hwc. fold c in Hi, Hd.
  destruct (unpin_turn_tables s fl held notes x i Hi Hh Hhint Hxx Hpte Hpos) as (c2 & x' & Hrun & Hend & Hss & Hi2 & Hent & _).
  exists (mk_sys (world s) c2), x'. split; [done|]. split; [done|]. split; [done|].
  apply (unpin_change_data mem wc (world s) c c2); [done|done|by apply (held_resident c fl held notes)|done|done|done].
Qed.

(** The rest of an unpin. *)
Lemma unpin_finish_run mem wc s fl held notes x i : let c := the_cache s in let v := c_vpage_id x in
  inv mem wc s fl held notes → called c x i → c_type x = KUnPin → hints_ok (page_table c) ((v, i) :: mjoin (f_hints <$> fl)) →
  0 < held_of held v → 0 ≤ wc v - Z.b2z (c_is_write x) ≤ held_of held v - 1 →
  ∃ s' x', process_fuel ec0 es0 evict_func load_func 4 s x = Ok (s', x') ∧ c_phase x' = End_ ∧
    inv mem (unpin_wc wc v (c_is_write x)) s' fl (drop_pin held v) notes.
Proof.
  intros c v Hinv (Hph & Hhint & Hpe & Hv & Hb & Hex & Hpp) Hty Hh Hpos Hwc. fold c v in Hv, Hb, Hex, Hpp.
  pose proof Hinv as [Hi _]. pose proof (held_resident c fl held notes v Hi Hpos) as (_ & Hx & _).
  destruct (unpin_turn_run mem wc s fl held notes x i Hinv Hh Hhint) as (s' & x' & Hrun & Hend & Hinv'); [congruence|done|done|done|].
  exists s', x'. split; [|done]. rewrite process_initing by done. unfold initing_turn. rewrite Hty. by rewrite (bind_rew _ _ _ Hrun).
Qed.

Lemma unpin_request_run mem wc s fl held notes x v :
  inv mem wc s fl held notes → starts x KUnPin v → 0 < held_of held v →
  0 ≤ wc v - Z.b2z (c_is_write x) ≤ held_of held v - 1 →
  ∃ s' x', process s x = Ok (s', x') ∧ c_phase x' = End_ ∧
    inv mem (unpin_wc wc v (c_is_write x)) s' fl (drop_pin held v) notes.
Proof.
  intros Hinv (Hty & Hph & Hxv & Hpe) Hpos Hwc. subst v. pose proof Hinv as [Hi _]. set (c := the_cache s) in *. set (v := c_vpage_id x) in *.
  pose proof (held_resident c fl held notes v Hi Hpos) as (Hv & Hx & Hb).
  assert (Hav : line_available (page_table c) v).
  { apply (in_use_available _ _ v (si_table _ _ _ _ Hi)). apply (in_use_ent c fl held notes Hi). by rewrite Hx. }
  destruct (begin_run ec0 evict_func load_func mem wc s fl held notes x Hinv Hv Hav) as (t & i & Hbeg & Hinv1 & Hh & Hent & _ & _).
  fold c v in Hbeg, Hinv1, Hh, Hent. rewrite process_begin by done. rewrite Hbeg. cbv zeta. rewrite Hb. cbn [mbind result_bind].
  apply (unpin_finish_run mem wc (mk_sys (world s) (with_page_table c t)) fl held notes (set_phase (set_lookup x (Some i) (ent c v)) Initing) i); try done.
  by apply begin_called.
Qed.

(** *** With no notification on its way, the eviction loop finds a page *)
Lemma no_notes_not_stuck c fl held : srv_inv c fl held [] → not_stuck c held.
Proof.
  intros Hi Hfull Hfp. pose proof (si_max _ _ _ _ Hi) as Hmax. pose proof (si_cur _ _ _ _ Hi) as Hcur. pose proof (si_pinned _ _ _ _ Hi) as Hpin.
  apply andb_true_iff in Hfull as [Hc%Z.leb_le Hz%Z.eqb_eq]. unfold full_pin in Hfp. apply Z.leb_gt in Hfp. rewrite to_int64_small in Hfp by lia.
  assert (Hpool : recycle_pool c = []) by (destruct (recycle_pool c); [done|unfold zlen in Hz; simpl in Hz; lia]).
  set (taken := (pp c <$> (map_to_list held).*1) ++ (f_frame <$> fl)).
  assert (Hlen : zlen taken < max_ppage_id c).
  { unfold taken, zlen. rewrite length_app, !length_fmap, length_map_to_list. simpl in Hpin. unfold zlen in Hpin. lia. }
  destruct (decide (Exists (λ p, p ∉ taken) (seqZ 0 (max_ppage_id c)))) as [(p & Hp & Hnt)%Exists_exists|Hall].
  - apply elem_of_seqZ in Hp. destruct (si_used _ _ _ _ Hi p) as [Hin|[(v & Hv & Epp)|Hin]]; [lia|rewrite Hpool in Hin; set_solver| |set_solver].
    assert (Hh : held !! v = None).
    { destruct (held !! v) as [n|] eqn:E; [|done]. destruct Hnt. apply elem_of_app. left. rewrite <- Epp. apply list_elem_of_fmap_2.
      apply list_elem_of_fmap. exists (v, n). split; [done|]. by apply elem_of_map_to_list. }
    exists v. split; [done|]. split; [|done]. destruct (si_idle _ _ _ _ Hi v Hv Hh) as [?|Hin]; [done|set_solver].
  - exfalso. assert (Hsub : seqZ 0 (max_ppage_id c) ⊆ taken).
    { intros p Hp. destruct (decide (p ∈ taken)); [done|]. destruct Hall. apply Exists_exists. by exists p. }
    pose proof (NoDup_submseteq _ _ (NoDup_seqZ 0 (max_ppage_id c)) Hsub) as Hs. apply submseteq_length in Hs.
    rewrite length_seqZ in Hs. unfold zlen in Hlen. lia.
Qed.
End use.
