(* ===== verification/SharedServerCall.v ===== *)
(** * The server inside a call

    A call of [process] reads the entry of its page, and the eviction loop that
    of a candidate, before it changes the table.  In between the clients pin and
    unpin pages directly.  This file says what the server still knows then: the
    entries it has read may have other pins and another dirty flag. *)
From S2P Require Import Prelude Replacement PteHeader CompactHashPageTable CompactTableLines SharedSingleThreadCache SharedSingleThreadCacheSpec SharedServer SharedServerData SharedServerSpec SharedServerUse.
From stdpp Require Import gmap.

Open Scope Z_scope.

Section calls.
Context {R : Type} `{ReplacementSpec R} {W EC ES D : Type} (ec0 : EC) (es0 : ES).
Context (evict_func : W → EC → Z → Z → bool → ES → result (W * EC * ES * bool)).
Context (load_func : W → EC → Z → Z → ES → result (W * EC * ES * bool)).
Context `{!IoContract D ec0 evict_func load_func}.

Abbreviation cache_t := (cache R ES).
Abbreviation sys_t := (sys R W ES).
Abbreviation ctx := (context EC ES).
Abbreviation inv := (inv ec0 evict_func load_func).
Abbreviation process_fuel := (process_fuel ec0 es0 evict_func load_func).
Implicit Types (c : cache_t) (s : sys_t) (x : ctx) (fl : list (flight EC)) (held : gmap Z Z) (notes : list note) (Hs : list (Z * Z)) (k : candidate).
Implicit Types (mem : Z → D) (wc : Z → Z).

(** Where the server is in a call: it has read the entry of the page of its
    request; it is in the eviction loop, between two candidates; or it has read
    the entry of a candidate. *)
Inductive call := InCall (x : ctx) | Searching (x : ctx) | Reading (x : ctx) (k : candidate).

(** ** What the clients leave as it was *)
Definition same_place (e e' : unpacked_pte) : Prop :=
  p_exist e' = p_exist e ∧ p_busy e' = p_busy e ∧ p_ppage_id e' = p_ppage_id e ∧ (p_dirty e = true → p_dirty e' = true).

Definition hints_in c Hs : Prop := ∀ u i, (u, i) ∈ Hs → okp c u.

Lemma client_pin_keeps c fl held notes v t r Hs : srv_inv c fl held notes → okp c v → held_of held v + 1 < REF_MOD →
  hints_ok (page_table c) Hs → hints_in c Hs → CompactHashPageTable.pin (page_table c) v None = Ok (t, r) →
  hints_ok t Hs ∧ ∀ u, okp c u → same_place (ent c u) (ent (with_page_table c t) u).
Proof.
  intros Hi Hv Hrm Hh Hok Hr. destruct (ent c v) as [ex bu di rc q] eqn:Eent. destruct bu.
  - destruct (entry_call c Hs v None Pin (ent c v) (RPin pin_none)) as (t' & Hrun & Hent & _ & Hkeep);
      [apply Hi|done|done|done|by unfold used_pte; rewrite Eent; apply orb_true_r|rewrite Eent; simpl; by rewrite andb_false_r|].
    rewrite (pin_run_call _ _ _ _ _ _ _ Hrun) in Hr. injection Hr as <- _. split; [apply Hkeep; intros u i Hu; split; [done|by left]|].
    intros u Hu. rewrite Hent by done. by destruct (decide (u = v)) as [->|].
  - destruct ex.
    + assert (resident c v) as Hres by (split; [done|by rewrite Eent]).
      destruct (table_pin c fl held notes v None Hs Hi Hh Hok I Hres Hrm) as (t' & Hrun & Hht & Hent & _).
      rewrite Hrun in Hr. injection Hr as <- _. split; [done|]. intros u Hu. rewrite Hent by done. case_decide as E; [subst u|done].
      rewrite Eent. unfold pp. by rewrite Eent.
    + rewrite (table_pin_absent _ Hs) in Hr; [|done|].
      * injection Hr as <- _. split; [done|]. intros u _. by rewrite with_same.
      * intros Hu. apply (in_use_ent c fl held notes Hi) in Hu. by rewrite Eent in Hu.
Qed.

Lemma client_unpin_keeps c fl held notes v (is_write : bool) t n Hs : srv_inv c fl held notes → 0 < held_of held v →
  hints_ok (page_table c) Hs → hints_in c Hs → CompactHashPageTable.unpin (page_table c) v is_write None = Ok (t, n) →
  hints_ok t Hs ∧ ∀ u, okp c u → same_place (ent c u) (ent (with_page_table c t) u).
Proof.
  intros Hi Hpos Hh Hok Hr. pose proof (held_resident c fl held notes v Hi Hpos) as Hres.
  destruct (table_unpin c fl held notes v is_write None Hs Hi Hh Hok I Hres Hpos) as (t' & Hrun & Hht & Hent & _).
  rewrite Hrun in Hr. injection Hr as <- _. split; [done|]. intros u Hu. rewrite Hent by done. case_decide as E; [subst u|done].
  destruct Hres as (_ & Hx & Hb). unfold unpinned_pte, same_place, pp. cbn. rewrite Hx, Hb. do 3 (split; [done|]). by destruct is_write.
Qed.

(** ** The cache as if the search had not begun *)

(** The count of pins has that of the request, and the policy has lost the
    candidate that was read. *)
Inductive paused c : cache_t → option call → list (Z * Z) → Prop :=
  | no_call : paused c c None []
  | in_call x i : called c x i → paused c c (Some (InCall x)) [(c_vpage_id x, i)]
  | searching x i : called c x i → c_type x = KPin → p_exist (c_pte x) = false → full_pin c = false → full c = true →
      paused c (with_pinned_size c (pinned_size c + 1)) (Some (Searching x)) [(c_vpage_id x, i)]
  | reading x i k r ph : called c x i → c_type x = KPin → p_exist (c_pte x) = false → full_pin c = false → full c = true →
      rep_pop (replacement c) = Ok (r, (k_ppage k, k_prefetch k)) → resident c (k_page k) → pp c (k_page k) = k_ppage k →
      k_hint k = Some ph → (p_dirty (k_pte k) = true → p_dirty (ent c (k_page k)) = true) →
      paused c (with_replacement (with_pinned_size c (pinned_size c + 1)) r) (Some (Reading x k)) [(c_vpage_id x, i); (k_page k, ph)].

Lemma called_same c t x i : (∀ u, okp c u → same_place (ent c u) (ent (with_page_table c t) u)) → called c x i →
  called (with_page_table c t) x i.
Proof.
  intros Hs (H1 & H2 & H3 & H4 & H5 & H6 & H7). destruct (Hs _ H4) as (E1 & E2 & E3 & _). unfold called, pp.
  change (okp (with_page_table c t)) with (okp c). rewrite E1, E2, E3. done.
Qed.

Lemma resident_same c t u : (∀ u, okp c u → same_place (ent c u) (ent (with_page_table c t) u)) → resident c u →
  resident (with_page_table c t) u ∧ pp (with_page_table c t) u = pp c u.
Proof.
  intros Hs (H1 & H2 & H3). destruct (Hs _ H1) as (E1 & E2 & E3 & _). unfold resident, pp.
  change (okp (with_page_table c t)) with (okp c). by rewrite E1, E2, E3.
Qed.

(** The clients act while the server is inside the call. *)
Lemma paused_client c c' cl Hs t : (∀ u, okp c u → same_place (ent c u) (ent (with_page_table c t) u)) → paused c c' cl Hs →
  paused (with_page_table c t) (with_page_table c' t) cl Hs.
Proof.
  intros Hsame [|x i Hc|x i Hc|x i k r ph Hc Hty Hx Hfp Hf Hp Hr Epp Hh Hd]; [constructor|constructor; by apply called_same| |].
  - apply (searching (with_page_table c t)); try done. by apply called_same.
  - destruct (resident_same c t (k_page k) Hsame Hr) as [Hr' Epp']. apply (reading (with_page_table c t) x i k r ph); try done; [by apply called_same|congruence|].
    intros Hk. destruct (Hsame _ (proj1 Hr)) as (_ & _ & _ & E). auto.
Qed.

Lemma paused_table c c' cl Hs : paused c c' cl Hs → page_table c' = page_table c ∧ max_vpage_id c' = max_vpage_id c ∧ max_ppage_id c' = max_ppage_id c.
Proof. by intros []. Qed.

Lemma paused_in c c' cl Hs : paused c c' cl Hs → hints_in c Hs.
Proof.
  intros [|x i Hc|x i Hc|x i k r ph Hc _ _ _ _ _ Hr]; intros u j; [by intros ?%elem_of_nil|..]; destruct Hc as (_ & _ & _ & Hv & _).
  1-2: by intros [= -> ->]%list_elem_of_singleton. intros [[= -> ->]|[= -> ->]%list_elem_of_singleton]%elem_of_cons; [done|apply Hr].
Qed.
(** ** The eviction loop, an access at a time *)
(** A candidate that is pinned is dropped. *)
Lemma drop_candidate mem wc w c fl held notes r v nxt : inv mem wc (mk_sys w c) fl held notes →
  rep_pop (replacement c) = Ok (r, (pp c v, nxt)) → resident c v → p_ref_count (ent c v) ≠ 0 →
  inv mem wc (mk_sys w (with_replacement c r)) fl held notes.
Proof.
  intros [Hi Hd] Hpop Hv Hrc. cbn [the_cache world] in *.
  assert (members c ≠ ∅) as Hne by (intros E; by rewrite (rep_pop_empty _ _ (si_rep _ _ _ _ Hi) E) in Hpop).
  destruct (rep_pop_spec _ _ (si_rep _ _ _ _ Hi) Hne) as (r' & p & nxt' & Hpop' & Hr' & Hp & Hm & _).
  rewrite Hpop in Hpop'. injection Hpop' as <- <- <-. destruct (si_resident _ _ _ _ Hi v Hv) as (_ & _ & _ & _ & Eh).
  split; [|by apply (same_entries_data ec0 evict_func load_func mem wc w c)].
  apply (policy_change c _ fl held notes notes Hi); try done; unfold members in *; cbn [the_cache replacement with_replacement].
  - intros q Hq. rewrite Hm in Hq. left. set_solver.
  - intros u Hu Hn [Hin|?]; [left|by right]. rewrite Hm. apply elem_of_difference. split; [done|]. intros E%elem_of_singleton.
    assert (u = v) as -> by (by apply (srv_resident_inj c fl held notes Hi)). unfold held_of in Eh. rewrite Hn in Eh. done.
Qed.

(** What the loop reads of the next candidate. *)
Lemma read_victim_run c fl held notes c1 Hs r q nxt : srv_inv c fl held notes → replacement c1 = replacement c → page_table c1 = page_table c → states c1 = states c →
  hints_ok (page_table c) Hs → rep_pop (replacement c) = Ok (r, (q, nxt)) → ∃ pre ph,
  resident c pre ∧ pp c pre = q ∧ hints_ok (page_table c) ((pre, ph) :: Hs) ∧
  read_victim c1 = Ok (with_replacement c1 r,
    if p_ref_count (ent c pre) =? 0 then Some (mk_candidate q nxt pre (Some ph) (ent c pre)) else None).
Proof.
  intros Hi Er Et Es Hh Hpop.
  assert (members c ≠ ∅) as Hne by (intros E; by rewrite (rep_pop_empty _ _ (si_rep _ _ _ _ Hi) E) in Hpop).
  destruct (rep_pop_spec _ _ (si_rep _ _ _ _ Hi) Hne) as (r' & p & nxt' & Hpop' & _ & Hp & _).
  rewrite Hpop in Hpop'. injection Hpop' as <- <- <-. destruct (si_members _ _ _ _ Hi q Hp) as (pre & Hpre & Epp).
  destruct (si_resident _ _ _ _ Hi pre Hpre) as ((st & Hst & Hsv) & _). rewrite Epp in Hst. pose proof Hpre as (_ & Hx & Hb).
  destruct (find_hint_ok (page_table c) Hs pre Hh) as (ph & Hf & Hh'); [apply (in_use_ent c fl held notes Hi); by rewrite Hx|].
  exists pre, ph. do 3 (split; [done|]). unfold read_victim. rewrite Er, (bind_rew _ _ _ Hpop). cbv beta iota zeta.
  cbn [states page_table with_replacement]. rewrite Es, Et, (bind_rew _ _ _ (proj2 (aread_Ok _ _ _) Hst)), Hsv, (bind_rew _ _ _ Hf).
  rewrite (bool_decide_true (Some ph ≠ None)), (bind_rew _ _ _ (eq_refl : assert true = Ok tt)) by done.
  assert (get_pte (page_table c) pre (Some ph) = Ok (ent c pre)) as Hg.
  { rewrite (table_get _ _ pre ph Hh') by (by left). apply (ent_get c fl held notes Hi). }
  rewrite (bind_rew _ _ _ Hg), Hb, orb_false_r. by destruct (p_ref_count (ent c pre) =? 0).
Qed.

(** The lock of a candidate fails when the page is pinned now. *)
Lemma lock_victim_run c fl held notes c1 Hs k ph : srv_inv c fl held notes → page_table c1 = page_table c → states c1 = states c →
  hints_ok (page_table c) Hs → hints_in c Hs → (k_page k, ph) ∈ Hs → k_hint k = Some ph → resident c (k_page k) → pp c (k_page k) = k_ppage k → ∃ t,
  if p_ref_count (ent c (k_page k)) =? 0 then ∃ st, zget (states c) (k_ppage k) = Some st ∧ s_vpage_id st = k_page k ∧
    lock_victim c1 k = Ok (with_page_table c1 t, Some (k_ppage k, k_prefetch k, k_page k, k_hint k, s_external st, p_dirty (k_pte k)))
  else lock_victim c1 k = Ok (with_page_table c1 t, None) ∧ hints_ok t Hs ∧ ∀ u, okp c u → ent (with_page_table c t) u = ent c u.
Proof.
  intros Hi Et Es Hh Hok Hin Hhint Hr Epp. pose proof Hr as (Hv & Hx & Hb).
  destruct (si_resident _ _ _ _ Hi _ Hr) as ((st & Hst & Hsv) & _). rewrite Epp in Hst. unfold lock_victim. rewrite Et, Hhint.
  destruct (Z.eqb_spec (p_ref_count (ent c (k_page k))) 0) as [E|E].
  - destruct (entry_call c Hs (k_page k) (Some ph) DeleteMapping deleted_pte (RBool true) (si_vmax _ _ _ _ Hi) Hh Hok Hv Hin) as (t & Hrun & _).
    { destruct (ent c (k_page k)) as [ex bu di rc pg]. simpl in *. by subst. }
    exists t, st. do 2 (split; [done|]). rewrite (bind_rew _ _ _ (delete_run_call _ _ _ _ _ Hrun)). cbn [states with_page_table].
    by rewrite Es, (bind_rew _ _ _ (proj2 (aread_Ok _ _ _) Hst)).
  - destruct (entry_call c Hs (k_page k) (Some ph) DeleteMapping (ent c (k_page k)) (RBool false) (si_vmax _ _ _ _ Hi) Hh Hok Hv Hin) as (t & Hrun & Hent & _ & Hkeep).
    { apply Z.eqb_neq in E. destruct (ent c (k_page k)) as [ex bu di rc pg]. simpl in *. by rewrite Hx, E. }
    exists t. split; [by rewrite (bind_rew _ _ _ (delete_run_call _ _ _ _ _ Hrun))|]. split; [apply Hkeep; intros u i Hu; split; [done|by left]|].
    intros u Hu. rewrite Hent by done. by destruct (decide (u = k_page k)) as [->|].
Qed.
(** The three accesses of a round, in a call that is paused. *)
Lemma read_step mem wc w c c1 fl held notes x Hs Hf c' (o : option candidate) : inv mem wc (mk_sys w c) fl held notes → paused c c1 (Some (Searching x)) Hs →
  hints_ok (page_table c) (Hs ++ Hf) → read_victim c1 = Ok (c', o) → ∃ c2 Hs', inv mem wc (mk_sys w c2) fl held notes ∧
  paused c2 c' (Some (match o with Some k => Reading x k | None => Searching x end)) Hs' ∧ hints_ok (page_table c2) (Hs' ++ Hf).
Proof.
  intros Hinv Hp Hh Hr. inversion Hp as [| |x0 i Hc Hty Hx Hfp Hfull|]; subst. pose proof Hinv as [Hi _]. cbn [the_cache] in Hi.
  assert (∃ r q nxt, rep_pop (replacement c) = Ok (r, (q, nxt))) as (r & q & nxt & Hpop).
  { unfold read_victim in Hr. apply bind_Ok in Hr as ([r [q nxt]] & Hpop & _). by exists r, q, nxt. }
  destruct (read_victim_run c fl held notes (with_pinned_size c (pinned_size c + 1)) _ r q nxt Hi eq_refl eq_refl eq_refl Hh Hpop)
    as (pre & ph & Hpre & Epp & Hh' & Hr'). rewrite Hr in Hr'. injection Hr' as -> ->.
  destruct (Z.eqb_spec (p_ref_count (ent c pre)) 0) as [E|E].
  - exists c, [(c_vpage_id x, i); (pre, ph)]. split; [done|]. split.
    + by apply (reading c x i (mk_candidate q nxt pre (Some ph) (ent c pre)) r ph).
    + eapply hints_sub; [exact Hh'|]. intros y. cbn [app]. rewrite !elem_of_cons. tauto.
  - exists (with_replacement c r), [(c_vpage_id x, i)]. subst q. split; [by apply (drop_candidate mem wc w c fl held notes r pre nxt)|]. split; [|done].
    by apply (searching (with_replacement c r)).
Qed.

Lemma skip_step mem wc w c c1 fl held notes x k Hs Hf c' : inv mem wc (mk_sys w c) fl held notes → paused c c1 (Some (Reading x k)) Hs →
  hints_ok (page_table c) (Hs ++ Hf) → hints_in c Hf → (∀ y, y ∈ mjoin (f_hints <$> fl) → y ∈ Hf) → lock_victim c1 k = Ok (c', None) → ∃ c2 Hs', inv mem wc (mk_sys w c2) fl held notes ∧
  paused c2 c' (Some (Searching x)) Hs' ∧ hints_ok (page_table c2) (Hs' ++ Hf).
Proof.
  intros Hinv Hp Hh Hin Hfl Hr. pose proof (paused_in _ _ _ _ Hp) as Hin1. inversion Hp as [| | |x0 i k0 r ph Hc Hty Hx Hfp Hfull Hpop Hpre Epp Hhint Hd]; subst.
  pose proof Hinv as [Hi _]. cbn [the_cache] in Hi.
  destruct (lock_victim_run c fl held notes (with_replacement (with_pinned_size c (pinned_size c + 1)) r) _ k ph Hi eq_refl eq_refl Hh) as (t & Hcase); try done.
  { intros u j [Hu|Hu]%elem_of_app; [by eapply Hin1|by eapply Hin]. }
  { cbn. set_solver. }
  destruct (Z.eqb_spec (p_ref_count (ent c (k_page k))) 0) as [E|E]; [destruct Hcase as (st & _ & _ & Hr'); congruence|].
  destruct Hcase as (Hr' & Hht & Hent). rewrite Hr in Hr'. injection Hr' as ->. set (c2 := with_page_table c t).
  assert (∀ u, okp c u → same_place (ent c u) (ent c2 u)) as Hsame by (intros u Hu; unfold c2; by rewrite Hent).
  assert (inv mem wc (mk_sys w c2) fl held notes) as Hinv2.
  { apply (unchanged_entries ec0 evict_func load_func mem wc (mk_sys w c) t fl held notes Hinv Hent). eapply hints_sub; [exact Hht|].
    intros y Hy. apply elem_of_app. right. by apply Hfl. }
  destruct (resident_same c t _ Hsame Hpre) as [Hpre2 Epp2]. exists (with_replacement c2 r), [(c_vpage_id x, i)]. split; [|split].
  - apply (drop_candidate mem wc w c2 fl held notes r (k_page k) (k_prefetch k)); [done| |done|].
    + unfold c2. rewrite Epp2, Epp. exact Hpop.
    + unfold c2. by rewrite Hent by apply Hpre.
  - apply (searching (with_replacement c2 r)); try done. by apply called_same.
  - eapply hints_sub; [exact Hht|]. intros y. cbn [app]. rewrite !elem_of_cons. tauto.
Qed.

(** The flag that was read says what the entry says now, if the page is not
    pinned: the lock then is what a round in one piece would do. *)
Definition flag_current c k : Prop := p_ref_count (ent c (k_page k)) = 0 → p_dirty (ent c (k_page k)) = p_dirty (k_pte k).

(** The loop in one piece finds the same victim, with the flag of the entry now. *)
Lemma lock_search c c1 fl held notes x k Hs Hf c' vic : srv_inv c fl held notes → paused c c1 (Some (Reading x k)) Hs →
  hints_ok (page_table c) (Hs ++ Hf) → hints_in c Hf → lock_victim c1 k = Ok (c', Some vic) →
  let c0 := with_pinned_size c (pinned_size c + 1) in ∃ ext,
  vic = (k_ppage k, k_prefetch k, k_page k, k_hint k, ext, p_dirty (k_pte k)) ∧ p_ref_count (ent c (k_page k)) = 0 ∧
  find_victim (victim_fuel c0) c0 = Ok (c', (k_ppage k, k_prefetch k, k_page k, k_hint k, ext, p_dirty (ent c (k_page k)))) ∧
  can_evict c held (k_page k).
Proof.
  intros Hi Hp Hh Hin Hr c0. pose proof (paused_in _ _ _ _ Hp) as Hin1. inversion Hp as [| | |x0 i k0 r ph Hc Hty Hx Hfp Hfull Hpop Hpre Epp Hhint Hd]; subst.
  fold c0 in Hp, Hr.
  destruct (lock_victim_run c fl held notes (with_replacement c0 r) _ k ph Hi eq_refl eq_refl Hh) as (t & Hcase); try done.
  { intros u j [Hu|Hu]%elem_of_app; [by eapply Hin1|by eapply Hin]. }
  { cbn. set_solver. }
  destruct (Z.eqb_spec (p_ref_count (ent c (k_page k))) 0) as [E|E]; [|destruct Hcase as (Hr' & _); congruence].
  destruct Hcase as (st & Hst & Hsv & Hr'). rewrite Hr in Hr'. injection Hr' as -> ->.
  destruct (read_victim_run c fl held notes c0 _ r _ _ Hi eq_refl eq_refl eq_refl Hh Hpop) as (pre & ph' & Hpre' & Epp' & Hh' & Hrd).
  assert (pre = k_page k) as -> by (apply (srv_resident_inj c fl held notes Hi); [done|done|congruence]).
  assert (ph' = ph) as ->.
  { pose proof (hint_find _ _ _ _ Hh' (list_elem_of_here _ _)) as E1. rewrite (hint_find _ _ (k_page k) ph Hh) in E1; [by injection E1|cbn; set_solver]. }
  rewrite E in Hrd. cbn [Z.eqb] in Hrd. exists (s_external st). split; [done|]. split; [done|]. split.
  - unfold victim_fuel. cbn [find_victim]. unfold try_victim. rewrite (bind_rew _ _ _ Hrd). cbv beta iota zeta.
    unfold lock_victim in Hr |- *. cbn [k_page k_hint k_ppage k_prefetch k_pte]. rewrite Hhint in Hr |- *.
    apply bind_Ok in Hr as ([t' [|]] & Hdel & Hr); [|done]. rewrite (bind_rew _ _ _ Hdel).
    apply bind_Ok in Hr as (st' & Hst' & [= -> Est]). rewrite (bind_rew _ _ _ Hst'). cbn [mbind result_bind]. by rewrite Est.
  - split; [done|]. assert (members c ≠ ∅) as Hne by (intros E'; by rewrite (rep_pop_empty _ _ (si_rep _ _ _ _ Hi) E') in Hpop).
    destruct (rep_pop_spec _ _ (si_rep _ _ _ _ Hi) Hne) as (r' & p & nxt' & Hpop' & _ & Hp' & _).
    rewrite Hpop in Hpop'. injection Hpop' as _ <- _. split; [by rewrite Epp|].
    destruct (si_resident _ _ _ _ Hi _ Hpre) as (_ & _ & _ & _ & Eh). destruct (held_pos c fl held notes (k_page k) Hi) as [_ Hz]. apply (proj1 Hz). by rewrite <- Eh.
Qed.

Lemma lock_step c c1 fl held notes w x k Hs Hf c' vic : srv_inv c fl held notes → paused c c1 (Some (Reading x k)) Hs →
  hints_ok (page_table c) (Hs ++ Hf) → hints_in c Hf → lock_victim c1 k = Ok (c', Some vic) → flag_current c k →
  initing_turn ec0 evict_func (mk_sys w c) x = evict_victim ec0 evict_func (mk_sys w c') x vic ∧ can_evict c held (k_page k).
Proof.
  intros Hi Hp Hh Hin Hr Hflag. destruct (lock_search c c1 fl held notes x k Hs Hf c' vic Hi Hp Hh Hin Hr) as (ext & -> & E & Hfind & Hcan). split; [|done].
  inversion Hp as [| | |x0 i k0 r ph Hc Hty Hx Hfp Hfull]; subst.
  unfold initing_turn. rewrite Hty, Hx. unfold pin_miss_turn. cbn [the_cache world]. rewrite Hfp. cbv zeta.
  change (full (with_pinned_size c (pinned_size c + 1))) with (full c). by rewrite Hfull, (bind_rew _ _ _ Hfind), (Hflag E).
Qed.

(** A victim that was read clean is dropped as if it were: what was stored to it
    since the read is gone, and its page is what its block holds. *)
Lemma clean_lock_run mem wc w c c1 fl held notes x k Hs c' vic : inv mem wc (mk_sys w c) fl held notes → Forall f_moving fl →
  paused c c1 (Some (Reading x k)) Hs → hints_ok (page_table c) (Hs ++ mjoin (f_hints <$> fl)) → lock_victim c1 k = Ok (c', Some vic) →
  p_dirty (k_pte k) = false → ∃ s1 x1 b s' x', evict_victim ec0 evict_func (mk_sys w c') x vic = Ok (s1, x1, b) ∧
  (if b then process_fuel 3 s1 x1 else Ok (s1, x1)) = Ok (s', x') ∧ c_vpage_id x' = c_vpage_id x ∧
  progress ec0 evict_func load_func (store mem (k_page k) (disk_of w (k_page k))) wc s' x' fl held notes.
Proof.
  intros [Hi Hd] Hmov Hp Hh Hr Hk. cbn [the_cache world] in Hi, Hd.
  destruct (lock_search c c1 fl held notes x k Hs _ c' vic Hi Hp Hh) as (ext & -> & _ & Hfind & Hcan); [intros u i Hu; by apply (hints_okp c fl _ _ Hi u i)|done|].
  inversion Hp as [| | |x0 i k0 r ph Hc Hty Hx Hfp Hfull _ Hpre Epp _ _]; subst. destruct Hc as (Hph & Hhint & Hpe & Hv & Hb & Hex & _).
  destruct (evict_turn_run ec0 evict_func (mk_sys w c) fl held notes x i Hi) as (c3 & c2 & p & nxt & pre & ph' & st & Hfind' & Hss & _ & _ & Hpn & Hent & Hst & Hnx & _ & Hev);
    [|done|cbn [the_cache]; congruence|done|done|by exists (k_page k)|].
  { eapply hints_sub; [exact Hh|]. intros y. cbn [app the_cache]. rewrite !elem_of_cons. tauto. }
  cbn [the_cache world] in *. rewrite Hfind in Hfind'. injection Hfind' as <- <- <- <- Ehint -> _. destruct (Hev false) as [Hi2 Hrun].
  destruct (evict_call_run ec0 es0 evict_func load_func (store mem (k_page k) (disk_of w (k_page k))) wc (mk_sys w c2) fl held notes
    (victim_context ec0 x (k_ppage k) (k_prefetch k) (k_page k) ph' (s_external st) false) (FEvict (c_vpage_id x) (k_page k) (k_ppage k) false i ph' None))
    as (s1 & x1 & s' & x' & Hcall & Hr' & Hpg & Hvp & _); [|done| |done|done| |].
  - split; [exact Hi2|]. apply (srv_evict_start_flag ec0 evict_func load_func mem _ wc w c c2 fl held notes); try done; [congruence| |].
    + intros u Hu. unfold store. by rewrite decide_False.
    + unfold store. by rewrite decide_True.
  - do 7 (split; [done|]). left. do 2 (split; [done|]). change (full c2 = true). destruct Hss as [_ E1 E2 E3 _].
    unfold full. rewrite E1, E2, E3. exact Hfull.
  - intros _. cbn [the_cache]. by rewrite (ss_ppage _ _ Hss).
  - rewrite Ehint, Hk. rewrite (bind_rew _ _ _ Hcall) in Hrun. eexists _, _, _, s', x'. split; [exact Hrun|].
    split; [|by split; [exact Hvp|]]. cbn [c_processing] in *. destruct (c_processing x1); [done|].
    by apply (srv_process_fuel_mono ec0 es0 evict_func load_func 2 1).
Qed.
End calls.
Arguments call : clear implicits.
