(* ===== verification/SharedServerSystem.v ===== *)
(** * The shared cache under direct pins: the system

    The steps of a partition with its users, in any order: requests that start,
    are polled again and end, direct pins and unpins in the page table,
    notifications that arrive late and out of order, and writes to pinned pages.
    The clients also act while the server is inside a call of [process], between
    its accesses to the entries they change.  Every reachable state keeps the
    invariant, so a partition refines a flat memory, as long as no page is locked
    for eviction whose dirty flag was set after the server has read it. *)
From S2P Require Import Prelude Replacement PteHeader CompactHashPageTable SharedSingleThreadCache SharedSingleThreadCacheSpec SharedServer SharedServerData SharedServerSpec SharedServerUse SharedServerCall.
From stdpp Require Import gmap.

Open Scope Z_scope.

Section system.
Context {R : Type} `{ReplacementSpec R} {W EC ES D : Type} (ec0 : EC) (es0 : ES).
Context (evict_func : W → EC → Z → Z → bool → ES → result (W * EC * ES * bool)).
Context (load_func : W → EC → Z → Z → ES → result (W * EC * ES * bool)).

Abbreviation cache_t := (cache R ES).
Abbreviation sys_t := (sys R W ES).
Abbreviation ctx := (context EC ES).
Abbreviation process := (process ec0 es0 evict_func load_func).
Abbreviation process_fuel := (process_fuel ec0 es0 evict_func load_func).

(** ** The sizes of a partition do not change *)
Definition same_sizes (c c' : cache_t) : Prop := max_vpage_id c' = max_vpage_id c ∧ max_ppage_id c' = max_ppage_id c.

Lemma same_sizes_refl (c : cache_t) : same_sizes c c.
Proof. done. Qed.

Lemma same_sizes_trans (c1 c2 c3 : cache_t) : same_sizes c1 c2 → same_sizes c2 c3 → same_sizes c1 c3.
Proof. unfold same_sizes. intuition congruence. Qed.

Lemma read_victim_sizes (c c' : cache_t) (o : option candidate) : read_victim c = Ok (c', o) → same_sizes c c'.
Proof. unfold read_victim. intros Hr. follow Hr; by subst. Qed.

Lemma lock_victim_sizes (c c' : cache_t) (k : candidate) (o : option victim) : lock_victim c k = Ok (c', o) → same_sizes c c'.
Proof. unfold lock_victim. intros Hr. follow Hr; by subst. Qed.

Lemma find_victim_sizes n (c c' : cache_t) v : find_victim n c = Ok (c', v) → same_sizes c c'.
Proof.
  revert c. induction n as [|n IH]; intros c Hr; [done|]. simpl in Hr. apply bind_Ok in Hr as ([c1 o] & E & Hr).
  assert (Hs : same_sizes c c1) by (rewrite try_victim_eq in E; follow E; by subst). destruct o as [v'|]; [by simplify_eq|].
  by eapply same_sizes_trans; [|apply IH].
Qed.

Lemma call_evict_sizes (s s' : sys_t) (x x' : ctx) : call_evict evict_func s x = Ok (s', x') → the_cache s' = the_cache s.
Proof. unfold call_evict. intros Hr. follow Hr; by subst. Qed.

Lemma call_load_sizes (s s' : sys_t) (x x' : ctx) : call_load load_func s x = Ok (s', x') → same_sizes (the_cache s) (the_cache s').
Proof. unfold call_load. intros Hr. follow Hr; by subst. Qed.

Lemma evict_victim_sizes (s s' : sys_t) (x x' : ctx) (v : victim) (b : bool) :
  evict_victim ec0 evict_func s x v = Ok (s', x', b) → same_sizes (the_cache s) (the_cache s').
Proof.
  unfold evict_victim. destruct v as [[[[[p nxt] pre] ph] ext] d]. intros ([t ok] & _ & Hr)%bind_Ok. apply bind_Ok in Hr as (_ & _ & Hr).
  apply bind_Ok in Hr as ([s1 x1] & E1 & Hr). apply call_evict_sizes in E1. injection Hr as <- <- <-. by rewrite E1.
Qed.

Lemma pin_miss_sizes (s s' : sys_t) (x x' : ctx) (b : bool) :
  pin_miss_turn ec0 evict_func s x = Ok (s', x', b) → same_sizes (the_cache s) (the_cache s').
Proof.
  unfold pin_miss_turn. intros Hr. destruct (full_pin (the_cache s)); [by injection Hr as <- <- <-|]. cbv zeta in Hr.
  destruct (full _).
  - apply bind_Ok in Hr as ([c1 v] & E & Hr). apply find_victim_sizes in E. apply evict_victim_sizes in Hr.
    by eapply same_sizes_trans; [exact E|].
  - apply bind_Ok in Hr as ([c1 p] & E & Hr).
    assert (Hs : same_sizes (the_cache s) c1).
    { unfold alloc in E. apply bind_Ok in E as (_ & _ & E). destruct (vec_pop _) as [[pool q]|]; [by simplify_eq/=|]. case_match; by simplify_eq/=. }
    follow Hr. by subst.
Qed.

Lemma one_turn_sizes (s s' : sys_t) (x x' : ctx) (b : bool) :
  one_turn ec0 es0 evict_func load_func s x = Ok (s', x', b) → same_sizes (the_cache s) (the_cache s').
Proof.
  unfold one_turn. destruct (c_phase x); [| | | |done].
  - unfold begin_turn. intros Hr. follow Hr; by subst.
  - unfold initing_turn. destruct (c_type x); [destruct (p_exist (c_pte x))|].
    + unfold pin_hit_turn. intros Hr. apply bind_Ok in Hr as (st & _ & Hr). apply bind_Ok in Hr as (_ & _ & Hr).
      apply bind_Ok in Hr as ([t [[ok p] n]] & _ & Hr). apply bind_Ok in Hr as (_ & _ & Hr). apply bind_Ok in Hr as (c1 & E & Hr).
      injection Hr as <- <- <-. follow E; by subst.
    + apply pin_miss_sizes.
    + unfold unpin_turn. intros Hr. follow Hr; by subst.
  - unfold evicting_turn. destruct (c_processing x).
    + intros Hr. apply bind_Ok in Hr as ([s1 x1] & E & Hr). apply call_evict_sizes in E. injection Hr as <- <- <-. by rewrite E.
    + intros Hr. apply bind_Ok in Hr as (c1 & E1 & Hr). apply bind_Ok in Hr as (c2 & E2 & Hr). apply bind_Ok in Hr as (st & _ & Hr).
      apply bind_Ok in Hr as (sts & _ & Hr). apply bind_Ok in Hr as ([s1 x1] & E & Hr). apply call_load_sizes in E. injection Hr as <- <- <-.
      assert (H1 : same_sizes (the_cache s) c1) by (follow E1; by subst).
      assert (H2 : same_sizes c1 c2) by (unfold init_state in E2; follow E2; by subst).
      eapply same_sizes_trans; [exact H1|]. eapply same_sizes_trans; [exact H2|]. exact E.
  - unfold loading_turn. destruct (c_processing x).
    + intros Hr. apply bind_Ok in Hr as ([s1 x1] & E & Hr). apply call_load_sizes in E. by injection Hr as <- <- <-.
    + intros Hr. follow Hr; by subst.
Qed.

Lemma process_fuel_sizes n (s s' : sys_t) (x x' : ctx) : process_fuel n s x = Ok (s', x') → same_sizes (the_cache s) (the_cache s').
Proof.
  revert s x. induction n as [|n IH]; intros s x Hr; [done|].
  simpl in Hr. apply bind_Ok in Hr as ([[s1 x1] b] & E & Hr). apply one_turn_sizes in E.
  destruct b; [|by injection Hr as <- <-]. by eapply same_sizes_trans; [|apply (IH s1 x1)].
Qed.

Lemma process_sizes (s s' : sys_t) (x x' : ctx) : process s x = Ok (s', x') → same_sizes (the_cache s) (the_cache s').
Proof. apply process_fuel_sizes. Qed.
(** ** The steps *)
Context `{!IoContract D ec0 evict_func load_func}.

(** [sv_mem] is the memory the users have written, [sv_held] the pins they hold,
    [sv_writers v] the pins of [v] whose holder may write, [sv_waiting] the
    requests that wait for a transfer, and [sv_call] the call of [process] the
    server is inside of. *)
Record server_state := mk_server {
  sv_sys : sys_t;
  sv_mem : Z → D;
  sv_writers : Z → Z;
  sv_held : gmap Z Z;
  sv_notes : list note;
  sv_waiting : list ctx;
  sv_call : option (call EC ES);
}.
Implicit Types (σ : server_state) (x : ctx) (c : cache_t) (s : sys_t) (f : flight EC) (fl : list (flight EC)) (xs : list ctx).
Implicit Types (mem : Z → D) (wc : Z → Z) (held : gmap Z Z) (notes : list note) (k : candidate).

Definition sv_cache σ : cache_t := the_cache (sv_sys σ).
Definition sv_entry σ (v : Z) : unpacked_pte := ent (sv_cache σ) v.

(** The holders of the pins do not release a pin twice, and unpin with
    [is_write] when they wrote. *)
Definition may_unpin σ (v : Z) (is_write : bool) : Prop :=
  0 < held_of (sv_held σ) v ∧ 0 ≤ sv_writers σ v - Z.b2z is_write ≤ held_of (sv_held σ) v - 1.

(** Fewer pins than the reference count of an entry can tell apart. *)
Definition may_pin σ (v : Z) : Prop := okp (sv_cache σ) v ∧ held_of (sv_held σ) v + 1 < REF_MOD.

Definition is_end (x : ctx) : bool := match c_phase x with End_ => true | _ => false end.
Definition is_waiting (x : ctx) : bool := match c_phase x with Evicting | Loading => true | _ => false end.

(** The answer of [process] to a pin of [v], put with the other requests [ws]. *)
Definition pin_result σ s' x' v (ws ws' : list ctx) : server_state :=
  mk_server s' (sv_mem σ) (sv_writers σ)
    (if is_end x' && negb (c_ppage_id x' =? NO_PPAGE) then add_pin (sv_held σ) v else sv_held σ) (sv_notes σ)
    (ws ++ (if is_waiting x' then [x'] else []) ++ ws') None.

Definition unpin_result σ s' v (is_write : bool) ns cl : server_state :=
  mk_server s' (sv_mem σ) (unpin_wc (sv_writers σ) v is_write) (drop_pin (sv_held σ) v) ns (sv_waiting σ) cl.

(** The server goes on in its call. *)
Definition goes_on σ s' cl : server_state :=
  mk_server s' (sv_mem σ) (sv_writers σ) (sv_held σ) (sv_notes σ) (sv_waiting σ) cl.

Definition with_cache σ c : sys_t := mk_sys (world (sv_sys σ)) c.
Definition with_client_table σ (t : table) : sys_t := with_cache σ (with_page_table (sv_cache σ) t).

(** The server calls [process] for one request at a time ([step_begin] to
    [step_lock], [step_resume]) and gets its notifications between the calls;
    the clients act at any time.  A call accesses the entry of its page twice,
    to read it ([step_begin]) and to change it ([step_pin], [step_unpin]); a pin
    that looks for a victim reads the entry of one candidate after the other
    ([step_read]) and tries to lock each ([step_skip], [step_lock]).  What a call
    does besides is the server's own, or touches entries that are locked, which
    the clients do not change.

    The flag of the victim is the one that was read.  [stale] says whether the
    server may lock a page whose flag has been set since. *)
Inductive step (stale : Prop) : server_state → server_state → Prop :=
  | step_begin σ x kd v s' x' (b : bool) : sv_call σ = None → starts x kd v → okp (sv_cache σ) v → begin_turn (sv_sys σ) x = Ok (s', x', b) →
      step stale σ (goes_on σ s' (if b then Some (InCall x') else None))
  | step_pin σ x s' x' : sv_call σ = Some (InCall x) → c_type x = KPin → may_pin σ (c_vpage_id x) →
      process_fuel 4 (sv_sys σ) x = Ok (s', x') → step stale σ (pin_result σ s' x' (c_vpage_id x) (sv_waiting σ) [])
  | step_unpin σ x s' x' : sv_call σ = Some (InCall x) → c_type x = KUnPin → may_unpin σ (c_vpage_id x) (c_is_write x) →
      process_fuel 4 (sv_sys σ) x = Ok (s', x') → step stale σ (unpin_result σ s' (c_vpage_id x) (c_is_write x) (sv_notes σ) None)
  | step_search σ x : sv_call σ = Some (InCall x) → c_type x = KPin → p_exist (c_pte x) = false →
      full_pin (sv_cache σ) = false → full (sv_cache σ) = true →
      step stale σ (goes_on σ (with_cache σ (with_pinned_size (sv_cache σ) (pinned_size (sv_cache σ) + 1))) (Some (Searching x)))
  | step_read σ x c' o : sv_call σ = Some (Searching x) → read_victim (sv_cache σ) = Ok (c', o) →
      step stale σ (goes_on σ (with_cache σ c') (Some (match o with Some k => Reading x k | None => Searching x end)))
  | step_skip σ x k c' : sv_call σ = Some (Reading x k) → lock_victim (sv_cache σ) k = Ok (c', None) →
      step stale σ (goes_on σ (with_cache σ c') (Some (Searching x)))
  | step_lock σ x k c' vic s1 x1 (b : bool) s' x' : sv_call σ = Some (Reading x k) → lock_victim (sv_cache σ) k = Ok (c', Some vic) →
      flag_current (sv_cache σ) k ∨ stale → evict_victim ec0 evict_func (with_cache σ c') x vic = Ok (s1, x1, b) →
      (if b then process_fuel 3 s1 x1 else Ok (s1, x1)) = Ok (s', x') →
      step stale σ (pin_result σ s' x' (c_vpage_id x) (sv_waiting σ) [])
  | step_resume σ ws x ws' s' x' : sv_call σ = None → sv_waiting σ = ws ++ x :: ws' → process (sv_sys σ) x = Ok (s', x') →
      step stale σ (pin_result σ s' x' (c_vpage_id x) ws ws')
  | step_notify σ n ns c' : sv_call σ = None → sv_notes σ ≡ₚ n :: ns → deliver (sv_cache σ) n = Ok c' →
      step stale σ (mk_server (with_cache σ c') (sv_mem σ) (sv_writers σ) (sv_held σ) ns (sv_waiting σ) None)
  | step_client_pin σ v t (success : bool) p n : may_pin σ v →
      CompactHashPageTable.pin (page_table (sv_cache σ)) v None = Ok (t, (success, p, n)) →
      step stale σ (mk_server (with_client_table σ t) (sv_mem σ) (sv_writers σ) (if success then add_pin (sv_held σ) v else sv_held σ)
        (if success && (n =? 0) then NPin v :: sv_notes σ else sv_notes σ) (sv_waiting σ) (sv_call σ))
  | step_client_unpin σ v (is_write : bool) t n : may_unpin σ v is_write →
      CompactHashPageTable.unpin (page_table (sv_cache σ)) v is_write None = Ok (t, n) →
      step stale σ (unpin_result σ (with_client_table σ t) v is_write (if n =? 1 then NUnpin v :: sv_notes σ else sv_notes σ) (sv_call σ))
  | step_writer σ v : sv_writers σ v < held_of (sv_held σ) v →
      step stale σ (mk_server (sv_sys σ) (sv_mem σ) (λ u, if decide (u = v) then sv_writers σ u + 1 else sv_writers σ u)
        (sv_held σ) (sv_notes σ) (sv_waiting σ) (sv_call σ))
  | step_write σ v d w' : 0 < sv_writers σ v → frame_write (world (sv_sys σ)) (p_ppage_id (sv_entry σ v)) d w' →
      step stale σ (mk_server (mk_sys w' (sv_cache σ)) (store (sv_mem σ) v d) (sv_writers σ) (sv_held σ) (sv_notes σ) (sv_waiting σ) (sv_call σ)).

(** ** The invariant of the system *)
Definition server_ok σ : Prop := ∃ c0 Hs fl, paused c0 (sv_cache σ) (sv_call σ) Hs ∧
  hints_ok (page_table c0) (Hs ++ mjoin (f_hints <$> fl)) ∧
  inv ec0 evict_func load_func (sv_mem σ) (sv_writers σ) (mk_sys (world (sv_sys σ)) c0) fl (sv_held σ) (sv_notes σ) ∧
  Forall2 (waits c0) (sv_waiting σ) fl ∧ Forall (λ n, okp c0 (note_page n)) (sv_notes σ).

(** Between two calls. *)
Definition idle_ok σ : Prop := ∃ fl,
  inv ec0 evict_func load_func (sv_mem σ) (sv_writers σ) (sv_sys σ) fl (sv_held σ) (sv_notes σ) ∧
  Forall2 (waits (sv_cache σ)) (sv_waiting σ) fl ∧ Forall (λ n, okp (sv_cache σ) (note_page n)) (sv_notes σ).

Lemma ok_idle σ : sv_call σ = None → server_ok σ → idle_ok σ.
Proof.
  intros Hc (c0 & Hs & fl & Hp & _ & Hinv & Hw & Hn). rewrite Hc in Hp. inversion Hp; subst c0. exists fl.
  unfold sv_cache in *. split; [by destruct (sv_sys σ)|done].
Qed.

Lemma idle_server_ok σ : sv_call σ = None → idle_ok σ → server_ok σ.
Proof.
  intros Hc (fl & Hinv & Hw & Hn). exists (sv_cache σ), [], fl. rewrite Hc. split; [constructor|]. split; [apply Hinv|].
  unfold sv_cache. split; [by destruct (sv_sys σ)|done].
Qed.

Lemma waits_moving c x f : waits c x f → f_moving f.
Proof. intros (_ & _ & _ & _ & _ & _ & Hf). destruct f as [|v pre p d h ph tr|v p h tr]; [done| |]; unfold f_moving; simpl.
  - destruct Hf as (_ & _ & _ & _ & _ & ->). by eexists.
  - destruct Hf as (_ & _ & ->). by eexists.
Qed.

Lemma waiting_moving c xs fl : Forall2 (waits c) xs fl → Forall f_moving fl.
Proof. induction 1; constructor; [by eapply waits_moving|done]. Qed.

Lemma waits_phase c x f : waits c x f → is_waiting x = true ∧ is_end x = false.
Proof.
  intros (_ & _ & _ & _ & _ & _ & Hf). unfold is_waiting, is_end. destruct f as [| |]; [done| |]; destruct Hf as (-> & _); done.
Qed.

Lemma waits_sizes c c' x f : same_sizes c c' → waits c x f → waits c' x f.
Proof. intros [_ E] (H1 & H2 & H3 & H4 & H5 & H6 & H7). unfold waits, prefetch_ok in *. by rewrite E. Qed.

Lemma waiting_sizes c c' xs fl : same_sizes c c' → Forall2 (waits c) xs fl → Forall2 (waits c') xs fl.
Proof. intros Hs Hw. eapply Forall2_impl; [exact Hw|]. intros x f. by apply waits_sizes. Qed.

Lemma notes_sizes c c' ns : same_sizes c c' → Forall (λ n, okp c (note_page n)) ns → Forall (λ n, okp c' (note_page n)) ns.
Proof. intros [E _] Hn. eapply Forall_impl; [exact Hn|]. intros n. unfold okp. by rewrite E. Qed.

Lemma in_frames_page c (p : Z) : 0 ≤ p < max_ppage_id c → max_ppage_id c ≤ 2 ^ 31 → (p =? NO_PPAGE) = false.
Proof. intros Hp Hm. apply Z.eqb_neq. unfold NO_PPAGE, MAX64. lia. Qed.

Lemma pinned_frame mem wc s x v fl held notes : inv ec0 evict_func load_func mem wc s fl held notes →
  pinned ec0 evict_func load_func mem s x v → is_end x = true ∧ (c_ppage_id x =? NO_PPAGE) = false.
Proof.
  intros [Hi _] (Hph & Hr & Hp & _). unfold is_end. rewrite Hph. split; [done|]. rewrite Hp.
  destruct (si_resident _ _ _ _ Hi v Hr) as (_ & Hpr & _). pose proof (si_cur _ _ _ _ Hi). pose proof (si_max _ _ _ _ Hi).
  apply (in_frames_page (the_cache s)); lia.
Qed.

(** The outcome of a pin leaves the system in order. *)
Lemma outcome_ok σ c0 s' x' v ws ws' fl fl' :
  pin_outcome ec0 evict_func load_func (sv_mem σ) (sv_writers σ) s' x' (fl ++ fl') (sv_held σ) (sv_notes σ) v →
  same_sizes c0 (the_cache s') → Forall2 (waits c0) ws fl → Forall2 (waits c0) ws' fl' →
  Forall (λ n, okp c0 (note_page n)) (sv_notes σ) → server_ok (pin_result σ s' x' v ws ws').
Proof.
  intros Ho Hs Hw Hw' Hn. apply idle_server_ok; [done|]. unfold idle_ok, pin_result. cbn [sv_mem sv_writers sv_sys sv_held sv_notes sv_waiting]. unfold sv_cache. cbn [sv_sys].
  destruct Ho as [Hinv Hst Hb|Hinv Hph Hp Hf|Hinv Hp|f Hinv Hwf Hfp].
  - exists (fl ++ fl'). destruct Hst as (_ & Hph & _). unfold is_end, is_waiting. rewrite Hph. split; [done|].
    split; [|by eapply notes_sizes]. apply Forall2_app; by eapply waiting_sizes.
  - exists (fl ++ fl'). unfold is_end, is_waiting. rewrite Hph, Hp, Z.eqb_refl. split; [done|].
    split; [|by eapply notes_sizes]. apply Forall2_app; by eapply waiting_sizes.
  - exists (fl ++ fl'). destruct (pinned_frame _ _ _ _ _ _ _ _ Hinv Hp) as [He Hne]. rewrite He, Hne. split; [done|].
    unfold is_waiting. rewrite (proj1 Hp). split; [|by eapply notes_sizes]. apply Forall2_app; by eapply waiting_sizes.
  - exists (fl ++ f :: fl'). destruct (waits_phase _ _ _ Hwf) as [-> ->]. split; [|split; [|by eapply notes_sizes]].
    + eapply srv_inv_perm; [exact Hinv| |done]. apply Permutation_middle.
    + apply Forall2_app; [by eapply waiting_sizes|]. constructor; [done|by eapply waiting_sizes].
Qed.
(** What an answer of [process] to a pin says of the state it started in. *)
#[global] Instance can_evict_dec c held v : Decision (can_evict c held v).
Proof. unfold can_evict, resident, okp. apply _. Defined.

Lemma not_stuck_dec c held : (∀ u, ¬ can_evict c held u) ∨ ∃ u, can_evict c held u.
Proof.
  destruct (decide (Exists (can_evict c held) (seqZ 0 (max_vpage_id c)))) as [(u & _ & Hu)%Exists_exists|Hno]; [right; by exists u|left].
  intros u Hu. destruct Hno. apply Exists_exists. exists u. split; [|done]. apply elem_of_seqZ. destruct Hu as ((Hu & _) & _). unfold okp in Hu. lia.
Qed.

(** All frames taken and no page to evict: the loop runs the policy empty. *)
Lemma finish_stuck mem wc s fl held notes x i : let c := the_cache s in
  inv ec0 evict_func load_func mem wc s fl held notes → called c x i → c_type x = KPin →
  p_exist (ent c (c_vpage_id x)) = false → full c = true → full_pin c = false → (∀ u, ¬ can_evict c held u) →
  process_fuel 4 s x = Err AssertFail.
Proof.
  intros c [Hi _] (Hph & _ & _ & _ & _ & Hex & _) Hty Hx Hfull Hfp Hno. fold c in Hi, Hex.
  rewrite process_initing by done. unfold initing_turn, pin_miss_turn. fold c. rewrite Hty, Hex, Hx, Hfp. cbv zeta.
  change (full (with_pinned_size c (pinned_size c + 1))) with (full c). rewrite Hfull. by rewrite (victim_stuck c fl held notes).
Qed.

Lemma finish_inv mem wc s fl held notes x i r : let c := the_cache s in
  inv ec0 evict_func load_func mem wc s fl held notes → called c x i → c_type x = KPin → process_fuel 4 s x = Ok r →
  p_exist (ent c (c_vpage_id x)) = false → not_stuck c held.
Proof.
  intros c Hinv Hc Hty Hr Hx Hfull Hfp. destruct (not_stuck_dec c held) as [Hno|?]; [|done].
  by rewrite (finish_stuck mem wc s fl held notes x i) in Hr.
Qed.

(** The first access of a call. *)
Lemma begin_inv mem wc s fl held notes x r : inv ec0 evict_func load_func mem wc s fl held notes → okp (the_cache s) (c_vpage_id x) →
  begin_turn s x = Ok r → line_available (page_table (the_cache s)) (c_vpage_id x).
Proof.
  intros [Hi _] Hv Hr. unfold begin_turn in Hr. apply bind_Ok in Hr as (ti & Hr & _).
  apply (hint_available _ _ _ _ (si_table _ _ _ _ Hi) (okp_vpage (the_cache s) fl held notes Hi _ Hv) Hr).
Qed.

Lemma client_step_sizes c t : same_sizes c (with_page_table c t).
Proof. done. Qed.

Lemma deliver_sizes c c' n : deliver c n = Ok c' → same_sizes c c'.
Proof. destruct n; simpl; unfold notify_pin, notify_unpin; intros Hr; follow Hr; by subst. Qed.

(** ** Every step keeps the invariant *)
Lemma begin_ok σ x kd v s' x' (b : bool) : server_ok σ → sv_call σ = None → starts x kd v → okp (sv_cache σ) v →
  begin_turn (sv_sys σ) x = Ok (s', x', b) → server_ok (goes_on σ s' (if b then Some (InCall x') else None)).
Proof.
  intros Hok Hc (_ & _ & <- & Hpe) Hv Hr. destruct (ok_idle σ Hc Hok) as (fl & Hinv & Hw & Hn).
  pose proof (begin_inv _ _ _ _ _ _ _ _ Hinv Hv Hr) as Hav.
  destruct (begin_run ec0 evict_func load_func _ _ _ _ _ _ x Hinv Hv Hav) as (t & i & Hbeg & Hinv1 & Hh & Hent & _ & _).
  rewrite Hr in Hbeg. cbv zeta in Hbeg. fold (sv_cache σ) in Hbeg, Hinv1, Hent. set (c := with_page_table (sv_cache σ) t) in *.
  assert (same_sizes (sv_cache σ) c) as Hs by done.
  destruct (p_busy (ent (sv_cache σ) (c_vpage_id x))) eqn:Hb; injection Hbeg as -> -> ->.
  - apply idle_server_ok; [done|]. exists fl. split; [exact Hinv1|]. split; [by eapply waiting_sizes|by eapply notes_sizes].
  - exists c, [(c_vpage_id x, i)], fl. split; [|split; [exact Hh|split; [exact Hinv1|split; [by eapply waiting_sizes|by eapply notes_sizes]]]].
    apply (in_call c (set_phase (set_lookup x (Some i) _) Initing) i). by apply begin_called.
Qed.

Lemma call_pin_ok σ x s' x' : server_ok σ → sv_call σ = Some (InCall x) → c_type x = KPin → may_pin σ (c_vpage_id x) →
  process_fuel 4 (sv_sys σ) x = Ok (s', x') → server_ok (pin_result σ s' x' (c_vpage_id x) (sv_waiting σ) []).
Proof.
  intros (c0 & Hs & fl & Hp & Hh & Hinv & Hw & Hn) Hc Hty [Hv Hrm] Hr. rewrite Hc in Hp. inversion Hp as [|x0 i Hcl E| |]; subst c0 x0 Hs.
  assert (mk_sys (world (sv_sys σ)) (sv_cache σ) = sv_sys σ) as Es by (by destruct σ as [[] ?????]). rewrite Es in Hinv.
  destruct (pin_finish_run ec0 es0 evict_func load_func _ _ _ _ _ _ x i Hinv (waiting_moving _ _ _ Hw) Hcl Hty Hh Hrm) as (s2 & x2 & Hr2 & Ho & _).
  { by eapply finish_inv. }
  rewrite Hr in Hr2. injection Hr2 as <- <-. apply process_fuel_sizes in Hr.
  apply (outcome_ok σ (sv_cache σ) s' x' _ _ _ fl []); [by rewrite app_nil_r|done|done|done|done].
Qed.

Lemma call_unpin_ok σ x s' x' : server_ok σ → sv_call σ = Some (InCall x) → c_type x = KUnPin → may_unpin σ (c_vpage_id x) (c_is_write x) →
  process_fuel 4 (sv_sys σ) x = Ok (s', x') → server_ok (unpin_result σ s' (c_vpage_id x) (c_is_write x) (sv_notes σ) None).
Proof.
  intros (c0 & Hs & fl & Hp & Hh & Hinv & Hw & Hn) Hc Hty [Hpos Hwc] Hr. rewrite Hc in Hp. inversion Hp as [|x0 i Hcl E| |]; subst c0 x0 Hs.
  assert (mk_sys (world (sv_sys σ)) (sv_cache σ) = sv_sys σ) as Es by (by destruct σ as [[] ?????]). rewrite Es in Hinv.
  destruct (unpin_finish_run ec0 es0 evict_func load_func _ _ _ _ _ _ x i Hinv Hcl Hty Hh Hpos Hwc) as (s2 & x2 & Hr2 & _ & Hinv').
  rewrite Hr in Hr2. injection Hr2 as <- <-. apply process_fuel_sizes in Hr.
  apply idle_server_ok; [done|]. exists fl. split; [done|]. split; [by eapply waiting_sizes|by eapply notes_sizes].
Qed.

Lemma search_ok σ x : server_ok σ → sv_call σ = Some (InCall x) → c_type x = KPin → p_exist (c_pte x) = false →
  full_pin (sv_cache σ) = false → full (sv_cache σ) = true →
  server_ok (goes_on σ (with_cache σ (with_pinned_size (sv_cache σ) (pinned_size (sv_cache σ) + 1))) (Some (Searching x))).
Proof.
  intros (c0 & Hs & fl & Hp & Hh & Hinv & Hw & Hn) Hc Hty Hx Hfp Hfull. rewrite Hc in Hp. inversion Hp as [|x0 i Hcl E| |]; subst c0 x0 Hs.
  exists (sv_cache σ), [(c_vpage_id x, i)], fl. split; [by apply searching|done].
Qed.

Lemma candidate_ok σ c0 Hs fl c' cl : paused c0 c' (Some cl) Hs → hints_ok (page_table c0) (Hs ++ mjoin (f_hints <$> fl)) →
  inv ec0 evict_func load_func (sv_mem σ) (sv_writers σ) (mk_sys (world (sv_sys σ)) c0) fl (sv_held σ) (sv_notes σ) →
  Forall2 (waits c0) (sv_waiting σ) fl → Forall (λ n, okp c0 (note_page n)) (sv_notes σ) →
  server_ok (goes_on σ (with_cache σ c') (Some cl)).
Proof. intros Hp Hh Hinv Hw Hn. by exists c0, Hs, fl. Qed.

Lemma read_ok σ x c' o : server_ok σ → sv_call σ = Some (Searching x) → read_victim (sv_cache σ) = Ok (c', o) →
  server_ok (goes_on σ (with_cache σ c') (Some (match o with Some k => Reading x k | None => Searching x end))).
Proof.
  intros (c0 & Hs & fl & Hp & Hh & Hinv & Hw & Hn) Hc Hr. rewrite Hc in Hp.
  destruct (read_step ec0 evict_func load_func _ _ _ _ _ _ _ _ x Hs _ c' o Hinv Hp Hh Hr) as (c2 & Hs' & Hinv' & Hp' & Hh').
  pose proof (paused_table _ _ _ _ Hp) as (_ & E1 & E2). pose proof (paused_table _ _ _ _ Hp') as (_ & E3 & E4).
  pose proof (read_victim_sizes _ _ _ Hr) as [E5 E6]. assert (same_sizes c0 c2) as Hsz by (split; congruence).
  apply (candidate_ok σ c2 Hs' fl); [done|done|done|by eapply waiting_sizes|by eapply notes_sizes].
Qed.

Lemma skip_ok σ x k c' : server_ok σ → sv_call σ = Some (Reading x k) → lock_victim (sv_cache σ) k = Ok (c', None) →
  server_ok (goes_on σ (with_cache σ c') (Some (Searching x))).
Proof.
  intros (c0 & Hs & fl & Hp & Hh & Hinv & Hw & Hn) Hc Hr. rewrite Hc in Hp. pose proof Hinv as [Hi _]. cbn [the_cache] in Hi.
  destruct (skip_step ec0 evict_func load_func _ _ _ _ _ _ _ _ x k Hs (mjoin (f_hints <$> fl)) c' Hinv Hp Hh) as (c2 & Hs' & Hinv' & Hp' & Hh');
    [intros u i Hu; by apply (hints_okp c0 fl _ _ Hi u i)|done|done|].
  pose proof (paused_table _ _ _ _ Hp) as (_ & E1 & E2). pose proof (paused_table _ _ _ _ Hp') as (_ & E3 & E4).
  pose proof (lock_victim_sizes _ _ _ _ Hr) as [E5 E6]. assert (same_sizes c0 c2) as Hsz by (split; congruence).
  apply (candidate_ok σ c2 Hs' fl); [done|done|done|by eapply waiting_sizes|by eapply notes_sizes].
Qed.

Lemma lock_ok σ x k c' vic s1 x1 (b : bool) s' x' : server_ok σ → sv_call σ = Some (Reading x k) → lock_victim (sv_cache σ) k = Ok (c', Some vic) →
  flag_current (sv_cache σ) k → evict_victim ec0 evict_func (with_cache σ c') x vic = Ok (s1, x1, b) →
  (if b then process_fuel 3 s1 x1 else Ok (s1, x1)) = Ok (s', x') → server_ok (pin_result σ s' x' (c_vpage_id x) (sv_waiting σ) []).
Proof.
  intros (c0 & Hs & fl & Hp & Hh & Hinv & Hw & Hn) Hc Hr Hflag Hev Hrest. rewrite Hc in Hp. pose proof Hinv as [Hi _]. cbn [the_cache] in Hi.
  pose proof (paused_table _ _ _ _ Hp) as (Et & E1 & E2). assert (flag_current c0 k) as Hflag0 by (unfold flag_current, ent in *; by rewrite Et in Hflag).
  destruct (lock_step ec0 evict_func c0 (sv_cache σ) fl _ _ (world (sv_sys σ)) x k Hs (mjoin (f_hints <$> fl)) c' vic Hi Hp Hh) as [Eturn Hcan];
    [intros u i Hu; by apply (hints_okp c0 fl _ _ Hi u i)|done|done|].
  inversion Hp as [| | |x0 i k0 r ph Hcl Hty Hx Hfp Hfull _ _ _ _ _ Ec]; subst x0 k0 Hs.
  assert (process_fuel 4 (mk_sys (world (sv_sys σ)) c0) x = Ok (s', x')) as Hrun.
  { rewrite process_initing by apply Hcl. rewrite Eturn. unfold with_cache in Hev. by rewrite (bind_rew _ _ _ Hev). }
  pose proof (process_fuel_sizes _ _ _ _ _ Hrun) as Hsz. cbn [the_cache] in Hsz.
  destruct (pin_finish_run ec0 es0 evict_func load_func _ _ _ _ _ _ x i Hinv (waiting_moving _ _ _ Hw) Hcl Hty) as (s2 & x2 & Hr2 & Ho & _).
  - eapply hints_sub; [exact Hh|]. intros y. cbn [app the_cache]. rewrite !elem_of_cons. tauto.
  - destruct (held_pos c0 fl _ _ (c_vpage_id x) Hi) as [Hpos _]. destruct Hcl as (_ & _ & _ & _ & _ & Hex & _). unfold REF_MOD in *.
    destruct (decide (0 < held_of (sv_held σ) (c_vpage_id x))) as [Hr0|?]; [|lia]. destruct (held_resident c0 fl _ _ _ Hi Hr0) as (_ & ? & _). congruence.
  - intros _ _ _. by exists (k_page k).
  - rewrite Hrun in Hr2. injection Hr2 as <- <-.
    apply (outcome_ok σ c0 s' x' _ _ _ fl []); [by rewrite app_nil_r|done|done|done|done].
Qed.

(** The same partition, with another memory to refine. *)
Definition with_mem σ mem : server_state :=
  mk_server (sv_sys σ) mem (sv_writers σ) (sv_held σ) (sv_notes σ) (sv_waiting σ) (sv_call σ).

(** A page whose flag was read clean is locked: the partition goes on as if the
    stores to the page since it was loaded had not been. *)
Lemma clean_lock_ok σ x k c' vic s1 x1 (b : bool) s' x' : server_ok σ → sv_call σ = Some (Reading x k) → lock_victim (sv_cache σ) k = Ok (c', Some vic) →
  p_dirty (k_pte k) = false → evict_victim ec0 evict_func (with_cache σ c') x vic = Ok (s1, x1, b) →
  (if b then process_fuel 3 s1 x1 else Ok (s1, x1)) = Ok (s', x') →
  server_ok (with_mem (pin_result σ s' x' (c_vpage_id x) (sv_waiting σ) []) (store (sv_mem σ) (k_page k) (disk_of (world (sv_sys σ)) (k_page k)))).
Proof.
  intros (c0 & Hs & fl & Hp & Hh & Hinv & Hw & Hn) Hc Hr Hk Hev Hrest. rewrite Hc in Hp. pose proof (paused_table _ _ _ _ Hp) as (_ & E1 & E2).
  destruct (clean_lock_run ec0 es0 evict_func load_func _ _ _ _ _ _ _ _ x k Hs c' vic Hinv (waiting_moving _ _ _ Hw) Hp Hh Hr Hk)
    as (s2 & x2 & b2 & s3 & x3 & Hev' & Hrest' & Hvp & Hpg).
  unfold with_cache in Hev. rewrite Hev in Hev'. injection Hev' as <- <- <-. rewrite Hrest in Hrest'. injection Hrest' as <- <-.
  set (m := store _ _ _) in *.
  apply (outcome_ok (with_mem σ m) c0 s' x' _ _ _ fl []); [rewrite app_nil_r; by apply progress_outcome| |done|done|done].
  apply evict_victim_sizes in Hev. apply lock_victim_sizes in Hr. cbn [the_cache with_cache] in Hev.
  apply (same_sizes_trans _ (sv_cache σ)); [done|]. eapply same_sizes_trans; [exact Hr|]. eapply same_sizes_trans; [exact Hev|].
  destruct b; [by eapply process_fuel_sizes|by injection Hrest as <- _].
Qed.

Lemma resume_ok σ ws x ws' s' x' : server_ok σ → sv_call σ = None → sv_waiting σ = ws ++ x :: ws' → process (sv_sys σ) x = Ok (s', x') →
  server_ok (pin_result σ s' x' (c_vpage_id x) ws ws').
Proof.
  intros Hok Hc Hws Hr. destruct (ok_idle σ Hc Hok) as (fl & Hinv & Hw & Hn). pose proof (waiting_moving _ _ _ Hw) as Hmov.
  rewrite Hws in Hw. apply Forall2_app_inv_l in Hw as (fl1 & fl2 & Hw1 & Hw2 & ->). apply Forall2_cons_inv_l in Hw2 as (f & fl3 & Hf & Hw3 & ->).
  assert (Hperm : fl1 ++ f :: fl3 ≡ₚ f :: fl1 ++ fl3) by (by rewrite Permutation_middle).
  assert (Hinv' := srv_inv_perm _ _ _ _ _ _ _ _ _ _ _ Hinv Hperm (reflexivity _)). rewrite Hperm in Hmov. apply Forall_cons in Hmov as [_ Hmov].
  destruct (resume_run ec0 es0 evict_func load_func _ _ _ _ _ _ _ _ Hinv' Hmov Hf) as (s2 & x2 & Hr2 & Hvp & Hpg & _).
  rewrite Hr in Hr2. injection Hr2 as <- <-.
  assert (Hvx : c_vpage_id x = f_page f) by (by destruct Hf as (_ & _ & ? & _)). rewrite Hvx.
  apply (outcome_ok σ (sv_cache σ) s' x' _ _ _ fl1 fl3); [|by eapply process_sizes|done|done|done]. by apply progress_outcome.
Qed.

Lemma notify_ok σ n ns c' : server_ok σ → sv_call σ = None → sv_notes σ ≡ₚ n :: ns → deliver (sv_cache σ) n = Ok c' →
  server_ok (mk_server (with_cache σ c') (sv_mem σ) (sv_writers σ) (sv_held σ) ns (sv_waiting σ) None).
Proof.
  intros Hok Hc Hns Hr. destruct (ok_idle σ Hc Hok) as (fl & Hinv & Hw & Hn).
  assert (Hinv' := srv_inv_perm _ _ _ _ _ _ _ _ _ _ _ Hinv (reflexivity _) Hns). rewrite Hns in Hn. apply Forall_cons in Hn as [Hv Hn].
  destruct (notify_run ec0 evict_func load_func _ _ _ _ _ _ _ Hinv' Hv) as (c2 & Hr2 & Hinv2).
  unfold sv_cache in Hr. rewrite Hr in Hr2. injection Hr2 as <-. apply deliver_sizes in Hr. apply idle_server_ok; [done|].
  exists fl. split; [done|]. split; [by eapply waiting_sizes|by eapply notes_sizes].
Qed.

Lemma client_pin_ok σ v t (success : bool) p n : server_ok σ → may_pin σ v →
  CompactHashPageTable.pin (page_table (sv_cache σ)) v None = Ok (t, (success, p, n)) →
  server_ok (mk_server (with_client_table σ t) (sv_mem σ) (sv_writers σ) (if success then add_pin (sv_held σ) v else sv_held σ)
    (if success && (n =? 0) then NPin v :: sv_notes σ else sv_notes σ) (sv_waiting σ) (sv_call σ)).
Proof.
  intros (c0 & Hs & fl & Hp & Hh & Hinv & Hw & Hn) [Hv Hrm] Hr. pose proof (paused_table _ _ _ _ Hp) as (Et & E1 & _).
  unfold okp in Hv. rewrite E1 in Hv. rewrite Et in Hr. pose proof Hinv as [Hi _]. cbn [the_cache] in Hi.
  assert (hints_in c0 (Hs ++ mjoin (f_hints <$> fl))) as Hin.
  { intros u i [Hu|Hu]%elem_of_app; [by eapply paused_in|by apply (hints_okp c0 fl _ _ Hi u i)]. }
  destruct (client_pin_keeps c0 fl _ _ v t _ _ Hi Hv Hrm Hh Hin Hr) as [Hht Hsame].
  destruct (client_pin_run ec0 evict_func load_func _ _ _ _ _ _ v Hinv Hv Hrm) as (t2 & b2 & p2 & n2 & Hr2 & _ & Hcase).
  cbn [the_cache] in Hr2. rewrite Hr in Hr2. injection Hr2 as <- <- <- <-.
  exists (with_page_table c0 t), Hs, fl. split; [by apply paused_client|]. split; [done|]. cbn [sv_mem sv_writers sv_held sv_notes sv_waiting sv_sys with_client_table with_cache world].
  destruct success; cbn [andb] in *.
  - split; [apply Hcase|]. split; [done|]. case_match; [by constructor|done].
  - split; [apply Hcase|]. done.
Qed.

Lemma client_unpin_ok σ v (is_write : bool) t n : server_ok σ → may_unpin σ v is_write →
  CompactHashPageTable.unpin (page_table (sv_cache σ)) v is_write None = Ok (t, n) →
  server_ok (unpin_result σ (with_client_table σ t) v is_write (if n =? 1 then NUnpin v :: sv_notes σ else sv_notes σ) (sv_call σ)).
Proof.
  intros (c0 & Hs & fl & Hp & Hh & Hinv & Hw & Hn) [Hpos Hwc] Hr. pose proof (paused_table _ _ _ _ Hp) as (Et & _).
  rewrite Et in Hr. pose proof Hinv as [Hi _]. cbn [the_cache] in Hi.
  assert (hints_in c0 (Hs ++ mjoin (f_hints <$> fl))) as Hin.
  { intros u i [Hu|Hu]%elem_of_app; [by eapply paused_in|by apply (hints_okp c0 fl _ _ Hi u i)]. }
  destruct (client_unpin_keeps c0 fl _ _ v is_write t n _ Hi Hpos Hh Hin Hr) as [Hht Hsame].
  destruct (client_unpin_run ec0 evict_func load_func _ _ _ _ _ _ v is_write Hinv Hpos Hwc) as (t2 & n2 & Hr2 & _ & Hinv' & _).
  cbn [the_cache] in Hr2. rewrite Hr in Hr2. injection Hr2 as <- <-.
  exists (with_page_table c0 t), Hs, fl. split; [by apply paused_client|]. split; [done|]. split; [exact Hinv'|]. split; [done|].
  cbn [sv_notes unpin_result]. case_match; [|done]. constructor; [|done]. apply (held_resident c0 fl _ _ v Hi Hpos).
Qed.

Lemma writer_ok σ v : server_ok σ → sv_writers σ v < held_of (sv_held σ) v →
  server_ok (mk_server (sv_sys σ) (sv_mem σ) (λ u, if decide (u = v) then sv_writers σ u + 1 else sv_writers σ u)
    (sv_held σ) (sv_notes σ) (sv_waiting σ) (sv_call σ)).
Proof.
  intros (c0 & Hs & fl & Hp & Hh & Hinv & Hw & Hn) Hwr. exists c0, Hs, fl. split; [done|]. split; [done|]. split; [|done].
  pose proof Hinv as [_ Hd]. apply (writers_run ec0 evict_func load_func _ (sv_writers σ)); [done| |]; intros u; cbn [sv_writers sv_held];
    pose proof (sd_wc _ _ _ _ _ _ _ _ _ Hd u); case_decide; subst; lia.
Qed.

Lemma write_ok σ v d w' : server_ok σ → 0 < sv_writers σ v → frame_write (world (sv_sys σ)) (p_ppage_id (sv_entry σ v)) d w' →
  server_ok (mk_server (mk_sys w' (sv_cache σ)) (store (sv_mem σ) v d) (sv_writers σ) (sv_held σ) (sv_notes σ) (sv_waiting σ) (sv_call σ)).
Proof.
  intros (c0 & Hs & fl & Hp & Hh & Hinv & Hw & Hn) Hwr Hfw. pose proof (paused_table _ _ _ _ Hp) as (Et & _).
  exists c0, Hs, fl. split; [done|]. split; [done|]. split; [|done].
  apply (client_write_run ec0 evict_func load_func _ _ _ _ _ _ v d w' Hinv Hwr). unfold sv_entry, ent in Hfw. by rewrite Et in Hfw.
Qed.

(** The steps of the program, but for a lock whose flag is out of date. *)
Abbreviation fresh_step := (step False).

Lemma step_ok σ σ' : server_ok σ → fresh_step σ σ' → server_ok σ'.
Proof.
  intros Hok Hstep. destruct Hstep as [σ x kd v s' x' b|σ x s' x'|σ x s' x'|σ x|σ x c' o|σ x k c'|σ x k c' vic s1 x1 b s' x' Hc Hl [Hf|[]]|σ ws x ws' s' x'
    |σ n ns c'|σ v t b p n|σ v b t n|σ v|σ v d w'].
  - by eapply begin_ok.
  - by apply call_pin_ok.
  - by eapply call_unpin_ok.
  - by apply search_ok.
  - by apply read_ok.
  - by eapply skip_ok.
  - by eapply lock_ok.
  - by eapply resume_ok.
  - by eapply notify_ok.
  - by eapply client_pin_ok.
  - by eapply client_unpin_ok.
  - by apply writer_ok.
  - by apply write_ok.
Qed.

Inductive reachable (stale : Prop) (σ0 : server_state) : server_state → Prop :=
  | reach_start : reachable stale σ0 σ0
  | reach_step σ σ' : reachable stale σ0 σ → step stale σ σ' → reachable stale σ0 σ'.

Lemma step_mono (stale stale' : Prop) σ σ' : (stale → stale') → step stale σ σ' → step stale' σ σ'.
Proof.
  intros Hst Hs. destruct Hs as [| | | | | |? ? ? ? ? ? ? ? ? ? ? ? [|]| | | | | |];
    [eapply step_begin|eapply step_pin|eapply step_unpin|eapply step_search|eapply step_read|eapply step_skip|eapply step_lock|eapply step_lock
    |eapply step_resume|eapply step_notify|eapply step_client_pin|eapply step_client_unpin|eapply step_writer|eapply step_write]; eauto.
Qed.

Lemma reachable_mono (stale stale' : Prop) σ0 σ : (stale → stale') → reachable stale σ0 σ → reachable stale' σ0 σ.
Proof. intros Hst. induction 1 as [|σ σ' _ IH Hstep]; [constructor|]. eapply reach_step; [exact IH|]. by eapply step_mono. Qed.

Lemma reachable_ok σ0 σ : server_ok σ0 → reachable False σ0 σ → server_ok σ.
Proof. intros Hok. induction 1 as [|σ σ' _ IH Hstep]; [done|]. by apply (step_ok σ). Qed.

(** ** Steps of the program whatever the pages hold *)
Lemma step_with_mem (stale : Prop) σ σ' mem : step stale σ σ' → ∃ mem', step stale (with_mem σ mem) (with_mem σ' mem') ∧
  ∀ v, sv_writers σ v ≤ 0 → mem' v = mem v ∧ sv_mem σ' v = sv_mem σ v.
Proof.
  intros Hs. destruct Hs as [| | | | | | | | | | | |σ u d w' Hu Hfw]; [..|exists (store mem u d); split; [by apply (step_write _ (with_mem σ mem))|]];
    [exists mem; split; [|done]..|].
  - by eapply (step_begin _ (with_mem σ mem)).
  - by eapply (step_pin _ (with_mem σ mem)).
  - by eapply (step_unpin _ (with_mem σ mem)).
  - by eapply (step_search _ (with_mem σ mem)).
  - by eapply (step_read _ (with_mem σ mem)).
  - by eapply (step_skip _ (with_mem σ mem)).
  - by eapply (step_lock _ (with_mem σ mem)).
  - by eapply (step_resume _ (with_mem σ mem)).
  - by eapply (step_notify _ (with_mem σ mem)).
  - by eapply (step_client_pin _ (with_mem σ mem)).
  - by eapply (step_client_unpin _ (with_mem σ mem)).
  - by eapply (step_writer _ (with_mem σ mem)).
  - intros v Hv. assert (v ≠ u) by (intros ->; lia). cbn [sv_mem]. unfold store. by rewrite !decide_False.
Qed.

(** A lock on a flag that is out of date. *)
Definition outdated_lock σ σ' : Prop := ∃ x k c' vic s1 x1 (b : bool) s' x', sv_call σ = Some (Reading x k) ∧
  lock_victim (sv_cache σ) k = Ok (c', Some vic) ∧ ¬ flag_current (sv_cache σ) k ∧ evict_victim ec0 evict_func (with_cache σ c') x vic = Ok (s1, x1, b) ∧
  (if b then process_fuel 3 s1 x1 else Ok (s1, x1)) = Ok (s', x') ∧ σ' = pin_result σ s' x' (c_vpage_id x) (sv_waiting σ) [].

#[global] Instance flag_current_dec c k : Decision (flag_current c k).
Proof. unfold flag_current. apply _. Defined.

Lemma step_cases (stale : Prop) σ σ' : step stale σ σ' → fresh_step σ σ' ∨ outdated_lock σ σ'.
Proof.
  intros Hs. destruct Hs as [| | | | | |σ x k c' vic s1 x1 b s' x'| | | | | |];
    [left; eapply step_begin|left; eapply step_pin|left; eapply step_unpin|left; eapply step_search|left; eapply step_read|left; eapply step_skip|
    |left; eapply step_resume|left; eapply step_notify|left; eapply step_client_pin|left; eapply step_client_unpin|left; eapply step_writer|left; eapply step_write];
    eauto.
  destruct (decide (flag_current (sv_cache σ) k)) as [Hf|Hf].
  - left. eapply step_lock; eauto.
  - right. exists x, k, c', vic, s1, x1, b, s', x'. eauto 10.
Qed.

(** A flag that was read set is set still. *)
Lemma dirty_current σ x k : server_ok σ → sv_call σ = Some (Reading x k) → p_dirty (k_pte k) = true → flag_current (sv_cache σ) k.
Proof.
  intros (c0 & Hs & fl & Hp & _) Hc Hk. rewrite Hc in Hp. pose proof (paused_table _ _ _ _ Hp) as (Et & _).
  inversion Hp as [| | |x0 i k0 r ph _ _ _ _ _ _ _ _ _ Hd]; subst. unfold flag_current, ent in *. rewrite Hk, Et. auto.
Qed.

(** In every run of the program there is a memory that the partition refines. *)
Lemma any_step_ok (stale : Prop) σ σ' : server_ok σ → step stale σ σ' → ∃ mem', server_ok (with_mem σ' mem').
Proof.
  intros Hok [Hs|(x & k & c' & vic & s1 & x1 & b & s' & x' & Hc & Hl & Hf & Hev & Hr & ->)]%step_cases.
  - exists (sv_mem σ'). pose proof (step_ok _ _ Hok Hs) as Hok'. by destruct σ'.
  - destruct (p_dirty (k_pte k)) eqn:Hk; [by destruct Hf; eapply dirty_current|]. eexists. by eapply clean_lock_ok.
Qed.

Lemma any_steps_ok (stale : Prop) σ σ' mem : server_ok (with_mem σ mem) → step stale σ σ' → ∃ mem', server_ok (with_mem σ' mem').
Proof.
  intros Hok Hs. destruct (step_with_mem stale σ σ' mem Hs) as (m1 & Hs1 & _). destruct (any_step_ok stale _ _ Hok Hs1) as (m2 & Hok2). by exists m2.
Qed.

Lemma reachable_any (stale : Prop) σ0 σ : server_ok σ0 → reachable stale σ0 σ → ∃ mem, server_ok (with_mem σ mem).
Proof.
  intros Hok. induction 1 as [|σ σ' _ (mem & IH) Hs]; [exists (sv_mem σ0); by destruct σ0|]. by eapply any_steps_ok.
Qed.

(** ** Runs in which nobody may write to a page *)
Inductive only_read (v : Z) (σ0 : server_state) : server_state → Prop :=
  | read_start : only_read v σ0 σ0
  | read_on σ σ' : only_read v σ0 σ → sv_writers σ v ≤ 0 → fresh_step σ σ' → only_read v σ0 σ'.

Lemma only_read_mem v σ τ mem : only_read v σ τ → server_ok (with_mem σ mem) → ∃ mem',
  server_ok (with_mem τ mem') ∧ mem' v = mem v ∧ sv_mem τ v = sv_mem σ v.
Proof.
  induction 1 as [|τ τ' _ IH Hwr Hs]; intros Hok; [by exists mem|]. destruct (IH Hok) as (mem1 & Hok1 & E1 & E2).
  destruct (step_with_mem False τ τ' mem1 Hs) as (mem2 & Hs2 & E34). destruct (E34 v Hwr) as [E3 E4]. exists mem2. split; [by eapply step_ok|]. split; congruence.
Qed.

(** The state a partition starts in: nothing is mapped, the memory is what the
    backing store holds. *)
Definition server_init w mem (max_vpage max_ppage : Z) : server_state :=
  mk_server (mk_sys w (init es0 max_vpage max_ppage)) mem (λ _, 0) ∅ [] [] None.

Lemma server_init_ok w mem mv mp : 0 < mp ≤ 2 ^ 31 → 0 ≤ mv ≤ NUM_PACK_PAGES * EMPTY_TAG → io_pages w = mv → io_frames w = mp →
  io_inv w [] → (∀ v, 0 ≤ v < mv → disk_of w v = mem v) → server_ok (server_init w mem mv mp).
Proof.
  intros Hmp Hmv Epg Efr Hio Hmem. apply idle_server_ok; [done|]. exists []. split; [|done]. split; [exact (init_srv_inv es0 mv mp Hmp Hmv)|].
  assert (Hnr : ∀ v, ¬ resident (init es0 mv mp : cache_t) v) by (intros v; exact (init_not_resident es0 mv mp v Hmp Hmv)).
  split; cbn [the_cache sv_sys server_init sv_held sv_notes sv_mem sv_writers world]; try done.
  - intros p Hp. cbn [cur_id init] in Hp. lia.
  - intros v Hv. by destruct (Hnr v).
  - intros v Hv. by destruct (Hnr v).
  - intros v Hv _ _. by apply Hmem.
  - intros f Hf. set_solver.
  - intros v pre p d h ph tr Hf. set_solver.
Qed.

(** What a reader of the table sees of a pinned page, and the store has of one
    that is not mapped. *)
Lemma held_frame σ v n : server_ok σ → sv_held σ !! v = Some n →
  ∃ p d, get_pte (page_table (sv_cache σ)) v None = Ok (mk_pte true false d n p) ∧
    frame_of (world (sv_sys σ)) p = sv_mem σ v ∧ Forall (λ x, c_ppage_id x ≠ p) (sv_waiting σ).
Proof.
  intros (c0 & Hs & fl & Hpa & _ & [Hi Hd] & Hw & _) Hh. pose proof (paused_table _ _ _ _ Hpa) as (-> & _). cbn [the_cache world] in *.
  destruct (si_held _ _ _ _ Hi v n Hh) as [_ Hr]. destruct (si_resident _ _ _ _ Hi v Hr) as (_ & _ & _ & _ & Hrc).
  exists (pp c0 v), (p_dirty (ent c0 v)). split; [|split].
  - rewrite (ent_get _ _ _ _ Hi v). f_equal. unfold held_of in Hrc. rewrite Hh in Hrc. simpl in Hrc. destruct Hr as (_ & Hx & Hb).
    unfold pp. destruct (ent c0 v). simpl in *. by subst.
  - by apply (sd_resident _ _ _ _ _ _ _ _ _ Hd).
  - apply Forall_forall. intros x Hx. apply list_elem_of_lookup in Hx as (i & Hx). destruct (Forall2_lookup_l _ _ _ _ _ Hw Hx) as (f & Hf & Hwf).
    destruct Hwf as (_ & _ & _ & Hp & _). rewrite Hp. intros E. apply list_elem_of_lookup_2 in Hf.
    by apply (resident_frame _ _ _ _ Hi v f Hr Hf).
Qed.

Lemma evicted_disk σ v : server_ok σ → okp (sv_cache σ) v →
  p_exist (sv_entry σ v) = false → p_busy (sv_entry σ v) = false → disk_of (world (sv_sys σ)) v = sv_mem σ v.
Proof.
  intros (c0 & Hs & fl & Hp & _ & [Hi Hd] & _ & _). pose proof (paused_table _ _ _ _ Hp) as (Et & E1 & _). unfold sv_entry, ent, okp. rewrite Et, E1.
  intros Hv Hx Hb. by apply (sd_absent _ _ _ _ _ _ _ _ _ Hd).
Qed.

(** ** What the system promises *)

(** C3: in every state a run of the server and its clients leads to, whoever holds
    a pin of a page finds the page mapped, its reference count the number of pins
    held, and no request moving data into or out of its frame: a pinned page is
    never evicted, however late the notifications of direct pins and unpins
    arrive, and wherever in a call of the server the clients act.  Unless a page
    was locked for eviction whose dirty flag was set after the server had read it
    ([stale]), the frame has the contents last written to the page, and so has the
    backing store of a page that is neither mapped nor locked. *)
Theorem shared_pins_see_memory (stale : Prop) σ0 σ : server_ok σ0 → reachable stale σ0 σ →
  (∀ v n, sv_held σ !! v = Some n → ∃ p d, get_pte (page_table (sv_cache σ)) v None = Ok (mk_pte true false d n p) ∧
    Forall (λ x, c_ppage_id x ≠ p) (sv_waiting σ) ∧ (¬ stale → frame_of (world (sv_sys σ)) p = sv_mem σ v)) ∧
  (∀ v, ¬ stale → okp (sv_cache σ) v → p_exist (sv_entry σ v) = false → p_busy (sv_entry σ v) = false →
    disk_of (world (sv_sys σ)) v = sv_mem σ v).
Proof.
  intros Hok Hre. split; [|intros v Hst; apply evicted_disk, (reachable_ok σ0); [done|by eapply reachable_mono]].
  intros v n Hn. destruct (reachable_any stale _ _ Hok Hre) as (mem & Hany). destruct (held_frame (with_mem σ mem) v n Hany Hn) as (p & d & Hg & _ & Hw).
  exists p, d. split; [exact Hg|]. split; [exact Hw|]. intros Hst.
  destruct (held_frame σ v n) as (p' & d' & Hg' & Hf & _); [eapply reachable_ok; [exact Hok|by eapply reachable_mono]|done|].
  unfold sv_cache in *. cbn [sv_sys with_mem] in Hg. rewrite Hg in Hg'. by injection Hg' as _ <-.
Qed.

(** The ways [process] answers a pin. *)
Lemma outcome_answer mem wc s' x' fl held notes v : pin_outcome ec0 evict_func load_func mem wc s' x' fl held notes v →
  (c_phase x' = Begin ∧ p_busy (ent (the_cache s') v) = true) ∨
  (is_end x' = true ∧ c_ppage_id x' = NO_PPAGE ∧ full_pin (the_cache s') = true) ∨
  (is_end x' = true ∧ c_ppage_id x' ≠ NO_PPAGE ∧ frame_of (world s') (c_ppage_id x') = mem v) ∨ is_waiting x' = true.
Proof.
  destruct 1 as [_ (_ & Hph & _) Hb|_ Hph Hp Hf|Hinv Hp|f _ Hwf _].
  - by left.
  - right. left. unfold is_end. by rewrite Hph.
  - right. right. left. destruct (pinned_frame _ _ _ _ _ _ _ _ Hinv Hp) as [He ?%Z.eqb_neq]. destruct Hp as (_ & _ & _ & Hfm). done.
  - do 3 right. by apply (waits_phase _ _ _ Hwf).
Qed.

Lemma pin_answer_run σ x v : server_ok σ → sv_call σ = None → starts x KPin v → may_pin σ v → line_available (page_table (sv_cache σ)) v → sv_notes σ = [] →
  ∃ s' x' fl, process (sv_sys σ) x = Ok (s', x') ∧
    pin_outcome ec0 evict_func load_func (sv_mem σ) (sv_writers σ) s' x' fl (sv_held σ) [] v.
Proof.
  intros Hok Hc Hst [Hv Hrm] Hav Hno. destruct (ok_idle _ Hc Hok) as (fl & Hinv & Hw & _). rewrite Hno in Hinv.
  destruct (pin_request_run ec0 es0 evict_func load_func _ _ _ _ _ _ _ _ Hinv (waiting_moving _ _ _ Hw) Hst Hv Hav Hrm) as (s' & x' & Hr & Ho & _).
  { intros _ _. by apply (no_notes_not_stuck _ fl), Hinv. }
  by exists s', x', fl.
Qed.

(** C5: when the server is not in a call and all notifications have arrived, a
    call of [process] for a pin of a page for which the table has a line, or room
    for one, returns, if no client acts during it: the pin is to be retried
    because another request has the page locked, or it is refused because every
    frame is pinned, or it has a frame, or it waits for a transfer.  The frame has
    the contents last written to the page, unless a page was locked for eviction
    whose dirty flag was set after the server had read it ([stale]). *)
Theorem shared_pin_answered (stale : Prop) σ0 σ x v : server_ok σ0 → reachable stale σ0 σ → sv_call σ = None → starts x KPin v → may_pin σ v →
  line_available (page_table (sv_cache σ)) v → sv_notes σ = [] →
  ∃ s' x', process (sv_sys σ) x = Ok (s', x') ∧
    ((c_phase x' = Begin ∧ p_busy (ent (the_cache s') v) = true) ∨
     (is_end x' = true ∧ c_ppage_id x' = NO_PPAGE ∧ full_pin (the_cache s') = true) ∨
     (is_end x' = true ∧ c_ppage_id x' ≠ NO_PPAGE ∧ (¬ stale → frame_of (world s') (c_ppage_id x') = sv_mem σ v)) ∨ is_waiting x' = true).
Proof.
  intros Hok Hre Hc Hst Hmay Hav Hno. destruct (reachable_any stale _ _ Hok Hre) as (mem & Hany).
  destruct (pin_answer_run (with_mem σ mem) x v Hany Hc Hst Hmay Hav Hno) as (s' & x' & fl & Hr & Ho%outcome_answer).
  exists s', x'. split; [exact Hr|]. destruct Ho as [?|[?|[(He & Hp & _)|?]]]; [by left|right; by left| |by do 3 right].
  right. right. left. do 2 (split; [done|]). intros Hns.
  destruct (pin_answer_run σ x v) as (s2 & x2 & fl2 & Hr2 & Ho%outcome_answer); [eapply reachable_ok; [exact Hok|by eapply reachable_mono]|done..|].
  cbn [sv_sys with_mem] in Hr. rewrite Hr in Hr2. injection Hr2 as <- <-. unfold is_end, is_waiting in *.
  destruct Ho as [[Hph _]|[(_ & ? & _)|[(_ & _ & ?)|Hw]]]; [by rewrite Hph in He|done|done|by destruct (c_phase x')].
Qed.

(** C4: the server reads the dirty flag of a candidate before it locks the page,
    and a client may pin the page, write to it and unpin it in between.  When the
    flag was read clean and the lock succeeds, the contents the page has in the
    backing store come back: whoever pins the page from then on, and no one writes
    to it, finds those contents in its frame, and not what was last written. *)
Theorem outdated_flag_loses_store σ0 σ x k c' vic s1 x1 (b : bool) s' x' τ n : server_ok σ0 → reachable False σ0 σ →
  sv_call σ = Some (Reading x k) → p_dirty (k_pte k) = false → lock_victim (sv_cache σ) k = Ok (c', Some vic) →
  evict_victim ec0 evict_func (with_cache σ c') x vic = Ok (s1, x1, b) → (if b then process_fuel 3 s1 x1 else Ok (s1, x1)) = Ok (s', x') →
  only_read (k_page k) (pin_result σ s' x' (c_vpage_id x) (sv_waiting σ) []) τ → sv_held τ !! k_page k = Some n →
  sv_mem τ (k_page k) = sv_mem σ (k_page k) ∧ ∃ p d, get_pte (page_table (sv_cache τ)) (k_page k) None = Ok (mk_pte true false d n p) ∧
    frame_of (world (sv_sys τ)) p = disk_of (world (sv_sys σ)) (k_page k).
Proof.
  intros Hok Hre Hc Hk Hl Hev Hrest Hτ Hn. pose proof (clean_lock_ok σ x k _ _ _ _ _ _ _ (reachable_ok _ _ Hok Hre) Hc Hl Hk Hev Hrest) as Hlost.
  destruct (only_read_mem _ _ _ _ Hτ Hlost) as (mem & Hok' & E & Em). split; [exact Em|].
  destruct (held_frame (with_mem τ mem) (k_page k) n Hok' Hn) as (p & d & Hg & Hf & _). exists p, d. split; [exact Hg|].
  cbn [sv_mem with_mem sv_sys] in Hf. rewrite Hf, E. unfold store. by rewrite decide_True.
Qed.
End system.
