(* ===== verification/ImmediateTransfers.v ===== *)
(** * The state machine when every transfer ends at once

    A [SharedSingleThreadCache] whose eviction and load functions are done after
    one call and whose table nobody else pins: the private caches of a thread.
    One call of [process] answers a request; this file says what it asks of the
    two functions and what it leaves. *)
From S2P Require Import Prelude Replacement PteHeader CompactHashPageTable CompactTableLines SharedSingleThreadCache SharedSingleThreadCacheSpec SharedServer SharedServerData SharedServerSpec SharedServerUse.
From stdpp Require Import gmap list.

Open Scope Z_scope.

Section immediate.
Context {R : Type} `{ReplacementSpec R} {W EC ES : Type} (ec0 : EC) (es0 : ES).
Context (evict_func : W → EC → Z → Z → bool → ES → result (W * EC * ES * bool)).
Context (load_func : W → EC → Z → Z → ES → result (W * EC * ES * bool)).

Abbreviation cache_t := (cache R ES).
Abbreviation ctx := (context EC ES).
Abbreviation srv_inv c := (srv_inv (EC:=EC) c).
Implicit Types (c : cache_t) (x : ctx) (held : gmap Z Z) (w : W) (v p : Z).

Definition sizes c : Z * Z := (max_ppage_id c, max_vpage_id c).

(** No request in progress and every line of the table in use. *)
Record settled c held : Prop := {
  se_inv : srv_inv c [] held [];
  se_lines : used_but (sizes c) None (page_table c);
}.

#[global] Instance resident_dec c v : Decision (resident c v).
Proof. unfold resident, okp. apply _. Defined.

(** Different resident pages have different frames. *)
Lemma resident_count c fl held notes (vs : list Z) : srv_inv c fl held notes → NoDup vs → (∀ v, v ∈ vs → resident c v) →
  zlen vs ≤ max_ppage_id c.
Proof.
  intros Hi Hnd Hvs. pose proof (si_cur _ _ _ _ Hi). pose proof (si_max _ _ _ _ Hi).
  assert (NoDup (pp c <$> vs)) as Hnd'.
  { apply NoDup_fmap_2_strong; [|done]. intros u1 u2 Hu1 Hu2. apply (srv_resident_inj c fl held notes Hi); by apply Hvs. }
  assert (pp c <$> vs ⊆ seqZ 0 (max_ppage_id c)) as Hsub.
  { intros q (u & -> & Hu)%list_elem_of_fmap. destruct (si_resident _ _ _ _ Hi u (Hvs u Hu)) as (_ & Hp & _). apply elem_of_seqZ. lia. }
  apply (NoDup_submseteq _ _ Hnd'), submseteq_length in Hsub. rewrite length_fmap, length_seqZ in Hsub. unfold zlen. lia.
Qed.

(** With a frame that none of them has. *)
Lemma resident_count_but c fl held notes (vs : list Z) p : srv_inv c fl held notes → NoDup vs → (∀ v, v ∈ vs → resident c v ∧ pp c v ≠ p) →
  0 ≤ p < max_ppage_id c → zlen vs + 1 ≤ max_ppage_id c.
Proof.
  intros Hi Hnd Hvs Hp. pose proof (si_cur _ _ _ _ Hi).
  assert (NoDup (p :: (pp c <$> vs))) as Hnd'.
  { apply NoDup_cons. split; [intros (u & Hu & Hin)%list_elem_of_fmap; by destruct (Hvs u Hin) as [_ []]|].
    apply NoDup_fmap_2_strong; [|done]. intros u1 u2 Hu1 Hu2. apply (srv_resident_inj c fl held notes Hi); by apply Hvs. }
  assert (p :: (pp c <$> vs) ⊆ seqZ 0 (max_ppage_id c)) as Hsub.
  { intros q [->|(u & -> & Hu)%list_elem_of_fmap]%elem_of_cons; apply elem_of_seqZ; [lia|].
    destruct (si_resident _ _ _ _ Hi u (proj1 (Hvs u Hu))) as (_ & Hq & _). lia. }
  apply (NoDup_submseteq _ _ Hnd'), submseteq_length in Hsub. rewrite length_cons, length_fmap, length_seqZ in Hsub. unfold zlen. lia.
Qed.

Section facts.
Context c held (Hs : settled c held).
#[local] Set Default Proof Using "Type*".

Lemma settled_not_busy v : okp c v → p_busy (ent c v) = false.
Proof.
  intros Hv. destruct (p_busy (ent c v)) eqn:Hb; [|done]. destruct (si_busy _ _ _ _ (se_inv _ _ Hs) v Hv Hb) as (f & Hf & _).
  by apply elem_of_nil in Hf.
Qed.

Lemma settled_exist v : okp c v → resident c v ↔ p_exist (ent c v) = true.
Proof. intros Hv. unfold resident. pose proof (settled_not_busy v Hv). tauto. Qed.

Lemma settled_available v : line_available (page_table c) v.
Proof.
  pose proof (se_inv _ _ Hs) as Hi. set (vs := filter (resident c) (seqZ 0 (max_vpage_id c))).
  apply (used_available (sizes c) _ _ v vs (si_table _ _ _ _ Hi) (se_lines _ _ Hs)).
  - intros u Hu Hin. apply list_elem_of_filter. split; [|by apply elem_of_seqZ]. apply settled_exist; [done|].
    apply (in_use_ent _ _ _ _ Hi) in Hin. by rewrite settled_not_busy, orb_false_r in Hin.
  - apply (resident_count c [] held [] vs Hi); [apply NoDup_filter, NoDup_seqZ|].
    intros u Hu. by apply list_elem_of_filter in Hu as [? _].
Qed.

(** The first phase finds the line of the page. *)
Lemma settled_begin w x : let v := c_vpage_id x in okp c v →
  ∃ t i, let c1 := with_page_table c t in
    begin_turn (mk_sys w c) x = Ok (mk_sys w c1, set_phase (set_lookup x (Some i) (ent c v)) Initing, true) ∧
    srv_inv c1 [] held [] ∧ hints_ok t [(v, i)] ∧ (∀ u, okp c u → ent c1 u = ent c u) ∧
    used_but (sizes c) (Some (tag_of v)) t.
Proof.
  intros v Hv. pose proof (se_inv _ _ Hs) as Hi.
  destruct (table_hint (page_table c) _ v (si_table _ _ _ _ Hi)) as (t & i & Hf & Hview & _ & Hh & _ & Hu);
    [by apply (okp_vpage c [] held [] Hi)|apply (hint_vpage c [] held [] Hi)|apply settled_available|].
  cbn [fmap list_fmap mjoin list_join] in Hh.
  assert (Hent : ∀ u, okp c u → ent (with_page_table c t) u = ent c u).
  { intros u Hu'. unfold ent. cbn [page_table with_page_table]. rewrite (Hview u); [done|]. by apply (okp_vpage c [] held [] Hi). }
  assert (Hi' : srv_inv (with_page_table c t) [] held []).
  { apply (entries_inv c t [] held [] Hi Hent). eapply hints_sub; [exact Hh|]. intros y Hy. by apply elem_of_nil in Hy. }
  exists t, i. cbn zeta. split; [|split; [exact Hi'|split; [exact Hh|split; [exact Hent|by apply Hu, Hs]]]].
  unfold begin_turn. cbn [the_cache]. fold v. rewrite (bind_rew _ _ _ Hf). cbv beta iota zeta.
  assert (Hget : get_pte t v (Some i) = Ok (ent c v)).
  { rewrite (table_get t _ v i Hh) by (by apply elem_of_cons; left). rewrite <- (Hent v Hv). apply (ent_get (with_page_table c t) [] held [] Hi'). }
  by rewrite (bind_rew _ _ _ Hget), (settled_not_busy v Hv).
Qed.
End facts.

Definition answered x p : Prop := c_phase x = End_ ∧ c_ppage_id x = p ∧ c_external_state x = Some p.

(** A page the table has. *)
Lemma pin_hit_settled w c held x v : settled c held → starts x KPin v → resident c v → held_of held v + 1 < REF_MOD →
  ∃ c' x', process ec0 es0 evict_func load_func (mk_sys w c) x = Ok (mk_sys w c', x') ∧ settled c' (add_pin held v) ∧
    answered x' (pp c v) ∧ same_shape c c' ∧
    (∀ u, okp c u → ent c' u = if decide (u = v) then hit_pte c held v else ent c u).
Proof.
  intros Hs (Hty & Hph & Hxv & Hpe) Hv Hrm. subst v. set (v := c_vpage_id x) in *. pose proof (proj1 Hv) as Hvok.
  destruct (settled_begin c held Hs w x Hvok) as (t0 & i & Hbeg & Hi & Hh & Hent0 & Hu0). cbn zeta in *. fold v in Hbeg, Hh, Hu0.
  set (c1 := with_page_table c t0) in *. set (x1 := set_phase (set_lookup x (Some i) (ent c v)) Initing) in *.
  assert (Hv1 : resident c1 v) by (unfold resident; rewrite (Hent0 v Hvok); exact Hv).
  assert (Epp : pp c1 v = pp c v) by (unfold pp; by rewrite (Hent0 v Hvok)).
  destruct (hit_turn_run (mk_sys w c1) [] held [] x1 i Hi Hh Hv1) as (c2 & Hrun & Hss & Hi2 & _ & _ & Hent & Hu); [done|by symmetry; apply Epp|done|].
  cbn [the_cache world] in *. change (c_vpage_id x1) with v in *.
  exists c2. eexists. split; [|split; [split|split; [|split]]].
  - rewrite process_begin by done. rewrite Hbeg. cbn [mbind result_bind]. rewrite process_initing by done. unfold initing_turn.
    change (c_type x1) with (c_type x). change (c_pte x1) with (ent c v). rewrite Hty, (proj1 (proj2 Hv)), Hrun. reflexivity.
  - exact Hi2.
  - assert (sizes c2 = sizes c) as -> by (destruct Hss; unfold sizes; by f_equal).
    replace None with (but_tag (Some (tag_of v)) v) by (unfold but_tag; by rewrite decide_True). by apply Hu; [apply Hvok|].
  - rewrite <- Epp. done.
  - destruct Hss. by split.
  - intros u Hu'. rewrite (Hent u Hu'). destruct (decide (u = v)); [|by apply Hent0]. unfold hit_pte. by rewrite Epp, (Hent0 v Hvok).
Qed.

(** Frame [p] is given to page [v], with external state [a]. *)
Definition placed c c' v p (a : ES) : Prop :=
  zget (states c') p = Some (mk_state v a) ∧ ∀ q, q ≠ p → zget (states c') q = zget (states c) q.

(** From the end of the eviction to the end of the request. *)
Lemma finish_settled w w2 c held x f e2 a : srv_inv c [f] held [] → (∀ v p h tr, f ≠ FLoad v p h tr) →
  used_but (sizes c) None (page_table c) → prefetch_ok c x →
  c_phase x = Evicting → c_processing x = false → c_vpage_id x = f_page f → c_ppage_id x = f_frame f → c_hint x = Some (f_hint f) →
  match f_old f with Some pre => c_pre_external_state x ≠ None ∧ c_pre_vpage_id x = pre | None => c_pre_external_state x = None end →
  (∀ v pre p d h ph tr, f = FEvict v pre p d h ph tr → c_pre_hint x = Some ph) →
  load_func w ec0 (f_page f) (f_frame f) es0 = Ok (w2, e2, a, true) →
  ∃ c' x', process_fuel ec0 es0 evict_func load_func 2 (mk_sys w c) x = Ok (mk_sys w2 c', x') ∧ settled c' (<[f_page f := 1]> held) ∧
    answered x' (f_frame f) ∧ sizes c' = sizes c ∧ placed c c' (f_page f) (f_frame f) a ∧
    (∀ u, okp c u → ent c' u = if decide (u = f_page f) then loaded_pte (f_frame f) else if decide (f_old f = Some u) then freed_pte else ent c u).
Proof.
  intros Hi Hnl Hused Hpf Hph Hpr Hxv Hxp Hhint Hold Hpreh Hload.
  destruct (evicted_turn_run ec0 es0 evict_func load_func (mk_sys w c) [] held [] x f Hi Hnl Hpr Hxv Hxp Hold Hpreh) as (t & Hrun & Hi1 & Hent1 & Hu1).
  cbn [the_cache world] in *. set (v := c_vpage_id x) in *. set (p := c_ppage_id x) in *.
  set (sts := zset (zset (states c) p (empty_frame es0)) p (mk_state v es0)) in *. set (c1 := with_states (with_page_table c t) sts) in *.
  pose proof (si_states _ _ _ _ Hi) as Hlen.
  assert (0 ≤ p < max_ppage_id c) as Hp by (rewrite Hxp; apply (flight_range _ _ _ _ Hi f); by apply elem_of_cons; left).
  assert (okp c v) as Hv by (rewrite Hxv; apply (flight_range _ _ _ _ Hi f); by apply elem_of_cons; left).
  assert (zget sts p = Some (mk_state v es0)) as Hst by (apply zget_zset_eq; rewrite zlen_zset; lia).
  set (c2 := with_states c1 (zset sts p (mk_state v a))).
  set (x2 := set_processing (set_external_context (load_context ec0 x) e2) (negb true)).
  assert (call_load load_func (mk_sys w c1) (load_context ec0 x) = Ok (mk_sys w2 c2, x2)) as Hcall.
  { unfold call_load. cbn [c_external_state load_context set_external_context set_external_state set_phase the_cache world states with_states c1].
    fold p v. rewrite (bind_rew _ _ _ (proj2 (aread_Ok _ _ _) Hst)). cbn [s_external s_vpage_id c_external_context c_vpage_id c_ppage_id]. fold v p.
    rewrite <- Hxv, <- Hxp in Hload. rewrite (bind_rew _ _ _ Hload). cbv beta iota zeta.
    rewrite awrite_total by (unfold sts; rewrite !zlen_zset; lia). reflexivity. }
  assert (srv_inv c2 [FLoad v p (f_hint f) None] held []) as Hi2.
  { apply (srv_states_inv c1 [] (FLoad v p (f_hint f) None) _ held [] _ Hi1); [|done]. by apply (srv_same_frames_zset sts p (mk_state v es0)). }
  destruct (loading_turn_run load_func (mk_sys w2 c2) [] held [] x2 (f_hint f) Hi2) as (t3 & Hrun3 & Hi3 & Hhn & Hres & Hpp & Hent3 & Hu3); [done|done|done|].
  cbn [the_cache world] in *. set (c3 := with_page_table c2 t3) in *. change (c_vpage_id x2) with v in *. change (c_ppage_id x2) with p in *.
  exists c3, (set_phase x2 End_). rewrite <- Hxv, <- Hxp. split; [|split; [split|split; [|split; [done|split; [split|]]]]].
  - rewrite srv_process_fuel_S. unfold one_turn. rewrite Hph, Hrun, (bind_rew _ _ _ Hcall). cbn [mbind result_bind c_processing x2 set_processing negb].
    rewrite srv_process_fuel_S. unfold one_turn. change (c_phase x2) with Loading. cbv iota. by rewrite Hrun3.
  - exact Hi3.
  - apply (Hu3 (sizes c)); [apply Hv|]. apply (Hu1 (sizes c)); [intros u Hu; apply Hu|done].
  - split; [done|]. done.
  - cbn [c3 c2 c1 states with_page_table with_states]. apply zget_zset_eq. unfold sts. rewrite !zlen_zset. lia.
  - intros q Hq. cbn [c3 c2 c1 states with_page_table with_states]. unfold sts. by rewrite !zget_zset_ne by congruence.
  - intros u Hu. rewrite (Hent3 u Hu). destruct (decide (u = v)); [done|]. exact (Hent1 u Hu).
Qed.

Definition victim (old : option (Z * ES)) : option Z := fst <$> old.

(** A page the table has not: which function is called on what, and the state
    when both are done. *)
Lemma pin_miss_settled w c held x v : settled c held → starts x KPin v → okp c v → ¬ resident c v → full_pin c = false →
  ∃ p old, 0 ≤ p < max_ppage_id c ∧
    match old with
    | None => ∀ u, resident c u → pp c u ≠ p
    | Some (pre, ext) => resident c pre ∧ pp c pre = p ∧ held !! pre = None ∧ ∃ st, zget (states c) p = Some st ∧ s_external st = ext
    end ∧
    ∀ w1 w2 e2 a,
      match old with
      | None => w1 = w
      | Some (pre, ext) => ∃ e1 ext1, evict_func w ec0 pre p (p_dirty (ent c pre)) ext = Ok (w1, e1, ext1, true)
      end → load_func w1 ec0 v p es0 = Ok (w2, e2, a, true) →
      ∃ c' x', process ec0 es0 evict_func load_func (mk_sys w c) x = Ok (mk_sys w2 c', x') ∧ settled c' (<[v := 1]> held) ∧
        answered x' p ∧ sizes c' = sizes c ∧ placed c c' v p a ∧
        (∀ u, okp c u → ent c' u = if decide (u = v) then loaded_pte p else if decide (victim old = Some u) then freed_pte else ent c u).
Proof.
  intros Hs (Hty & Hph & Hxv & Hpe) Hv Hnr Hfp. subst v. set (v := c_vpage_id x) in *.
  destruct (settled_begin c held Hs w x Hv) as (t0 & i & Hbeg & Hi & Hh & Hent0 & Hu0). cbn zeta in *. fold v in Hbeg, Hh, Hu0.
  set (c1 := with_page_table c t0) in *. set (x1 := set_phase (set_lookup x (Some i) (ent c v)) Initing) in *.
  pose proof (settled_not_busy c held Hs v Hv) as Hb. assert (p_exist (ent c v) = false) as Hx.
  { destruct (p_exist (ent c v)) eqn:E; [|done]. destruct Hnr. by split. }
  assert (∀ u, resident c1 u ↔ resident c u) as Hres.
  { intros u. unfold resident. change (okp c1 u) with (okp c u). split; intros (Hu & H1); rewrite (Hent0 u Hu) in *; done. }
  assert (∀ u, okp c u → pp c1 u = pp c u) as Hpp by (intros u Hu; unfold pp; by rewrite Hent0).
  destruct (miss_turn_run ec0 evict_func (mk_sys w c1) [] held [] x1 i Hi Hh) as (c2 & f & Hfv & Hfh & Htr & Hi2 & Hu2 & Hf);
    [done|exact (eq_trans (f_equal p_exist (Hent0 v Hv)) Hx)|exact (eq_trans (f_equal p_busy (Hent0 v Hv)) Hb)|done|done| |].
  { intros Hfull. by apply (no_notes_not_stuck c1 [] held Hi). }
  cbn [the_cache world] in *. change (c_vpage_id x1) with v in *.
  assert (∀ r, process_fuel ec0 es0 evict_func load_func 4 (mk_sys w c1) x1 = r → process ec0 es0 evict_func load_func (mk_sys w c) x = r) as Hproc.
  { intros r <-. rewrite process_begin by done. by rewrite Hbeg. }
  assert (initing_turn ec0 evict_func (mk_sys w c1) x1 = pin_miss_turn ec0 evict_func (mk_sys w c1) x1) as Hturn.
  { unfold initing_turn. change (c_type x1) with (c_type x). change (c_pte x1) with (ent c v). by rewrite Hty, Hx. }
  destruct f as [v0 p h0|v0 pre p d h0 ph tr|]; [| |done]; simpl in Hfv, Hfh; subst v0 h0.
  - destruct Hf as (_ & Emv & Emp & Est & Hnp & _ & Hent & Hrun). cbn [the_cache world] in *.
    exists p, None. split; [|split].
    + change (max_ppage_id c) with (max_ppage_id c1). rewrite <- Emp. apply (flight_range _ _ _ _ Hi2 (FAlloc v p i)). by apply elem_of_cons; left.
    + intros u Hu. rewrite <- Hpp by apply Hu. by apply Hnp, Hres.
    + intros w1 w2 e2 a -> Hload. assert (sizes c2 = sizes c) as Esz by (unfold sizes; by f_equal).
      destruct (finish_settled w w2 c2 held (alloc_context x1 p) (FAlloc v p i) e2 a Hi2) as (c' & x' & Hfin & Hs' & Hans & Esz' & [Hpl1 Hpl2] & Hent'); try done.
      { rewrite Esz. by apply (Hu2 (sizes c)), Hu0; apply Hv. }
      exists c', x'. split; [|split; [done|split; [done|split; [by rewrite Esz'|split; [split; [done|]|]]]]].
      * apply Hproc. rewrite process_initing by done. rewrite Hturn, Hrun. cbn [mbind result_bind].
        by apply (srv_process_fuel_mono ec0 es0 evict_func load_func 2 1).
      * intros q Hq. rewrite Hpl2 by done. by rewrite Est.
      * intros u Hu. rewrite Hent' by (unfold okp; by rewrite Emv). cbn [f_page f_frame f_old victim fmap option_fmap option_map].
        destruct (decide (u = v)); [done|]. rewrite !decide_False by done. rewrite (Hent u Hu), decide_False by done. by apply Hent0.
  - destruct tr; [done|]. destruct Hf as (Hfull & Hss & Hpre & Epre & Hpn & Hdx & Hent & nxt & st & Hst & Hnx & Hrun). cbn [the_cache world] in *.
    assert (Hpre' : resident c pre) by (by apply Hres). rewrite Hent0 in Hdx by apply Hpre'.
    exists p, (Some (pre, s_external st)). split; [|split].
    + change (max_ppage_id c) with (max_ppage_id c1). rewrite <- (ss_ppage _ _ Hss). apply (flight_range _ _ _ _ Hi2 (FEvict v pre p d i ph None)). by apply elem_of_cons; left.
    + split; [done|]. split; [by rewrite <- Hpp by apply Hpre'|]. split; [done|]. by exists st.
    + intros w1 w2 e2 a (e1 & ext1 & Hevict) Hload. assert (sizes c2 = sizes c) as Esz by (destruct Hss; unfold sizes; by f_equal).
      set (x3 := set_processing (set_pre_external_state (set_external_context (victim_context ec0 x1 p nxt pre ph (s_external st) d) e1) (Some ext1)) (negb true)).
      assert (call_evict evict_func (mk_sys w c2) (victim_context ec0 x1 p nxt pre ph (s_external st) d) = Ok (mk_sys w1 c2, x3)) as Hcall.
      { unfold call_evict. cbn [c_pre_external_state victim_context set_external_context set_phase set_victim world c_external_context c_pre_vpage_id c_ppage_id c_dirty].
        rewrite Hdx in Hevict. by rewrite (bind_rew _ _ _ Hevict). }
      destruct (finish_settled w1 w2 c2 held x3 (FEvict v pre p d i ph None) e2 a Hi2) as (c' & x' & Hfin & Hs' & Hans & Esz' & [Hpl1 Hpl2] & Hent'); try done.
      { rewrite Esz. by apply (Hu2 (sizes c)), Hu0; apply Hv. }
      { intros _. rewrite (ss_ppage _ _ Hss). exact Hnx. }
      { intros v0 pre0 p0 d0 h0 ph0 tr0 [= <- <- <- <- <- <- <-]. done. }
      exists c', x'. split; [|split; [done|split; [done|split; [by rewrite Esz'|split; [split; [done|]|]]]]].
      * apply Hproc. rewrite process_initing by done. rewrite Hturn, Hrun, (bind_rew _ _ _ Hcall). cbn [mbind result_bind c_processing x3 set_processing negb].
        by apply (srv_process_fuel_mono ec0 es0 evict_func load_func 2 1).
      * intros q Hq. rewrite Hpl2 by done. by rewrite (ss_states _ _ Hss).
      * intros u Hu. rewrite Hent' by (unfold okp; by rewrite (ss_vpage _ _ Hss)). cbn [f_page f_frame f_old victim fmap option_fmap option_map fst].
        destruct (decide (u = v)); [done|]. destruct (decide (Some pre = Some u)) as [?|Hne]; [done|]. rewrite (Hent u Hu), !decide_False by congruence. by apply Hent0.
Qed.

(** An unpin. *)
Lemma unpin_settled w c held x v : settled c held → starts x KUnPin v → 0 < held_of held v →
  ∃ c' x', process ec0 es0 evict_func load_func (mk_sys w c) x = Ok (mk_sys w c', x') ∧ settled c' (drop_pin held v) ∧
    c_phase x' = End_ ∧ same_shape c c' ∧
    (∀ u, okp c u → ent c' u = if decide (u = v) then unpinned_pte c held v (c_is_write x) else ent c u).
Proof.
  intros Hs (Hty & Hph & Hxv & Hpe) Hpos. subst v. set (v := c_vpage_id x) in *.
  pose proof (held_resident c [] held [] v (se_inv _ _ Hs) Hpos) as Hv. pose proof (proj1 Hv) as Hvok.
  destruct (settled_begin c held Hs w x Hvok) as (t0 & i & Hbeg & Hi & Hh & Hent0 & Hu0). cbn zeta in *. fold v in Hbeg, Hh, Hu0.
  set (c1 := with_page_table c t0) in *. set (x1 := set_phase (set_lookup x (Some i) (ent c v)) Initing) in *.
  assert (Epp : pp c1 v = pp c v) by (unfold pp; by rewrite (Hent0 v Hvok)).
  destruct (unpin_turn_tables (mk_sys w c1) [] held [] x1 i Hi Hh) as (c2 & x' & Hrun & Hend & Hss & Hi2 & Hent & Hu); [done|exact (proj1 (proj2 Hv))|by symmetry; apply Epp|done|].
  cbn [the_cache world] in *. change (c_vpage_id x1) with v in *. change (c_is_write x1) with (c_is_write x) in *.
  exists c2, x'. split; [|split; [split; [done|]|split; [done|split]]].
  - rewrite process_begin by done. rewrite Hbeg. cbn [mbind result_bind]. rewrite process_initing by done. unfold initing_turn.
    change (c_type x1) with (c_type x). rewrite Hty, Hrun. reflexivity.
  - assert (sizes c2 = sizes c) as -> by (destruct Hss; unfold sizes; by f_equal).
    replace None with (but_tag (Some (tag_of v)) v) by (unfold but_tag; by rewrite decide_True). by apply Hu; [apply Hvok|].
  - destruct Hss. by split.
  - intros u Hu'. rewrite (Hent u Hu'). destruct (decide (u = v)); [|by apply Hent0]. unfold unpinned_pte. by rewrite Epp, (Hent0 v Hvok).
Qed.

(** The state it starts in. *)
Lemma init_settled mv mp : 0 < mp ≤ 2 ^ 31 → 0 ≤ mv ≤ NUM_PACK_PAGES * EMPTY_TAG → settled (init es0 mv mp : cache_t) ∅.
Proof.
  intros Hmp Hmv. split; [by apply init_srv_inv|]. apply init_used. change (0 < mp < 2 ^ 32 - 1). lia.
Qed.
End immediate.
