(* ===== verification/ImmediateFlush.v ===== *)
(** * Flushing when every transfer ends at once

    [flush] of a [SharedSingleThreadCache] none of whose pages is pinned and
    whose eviction function is done after one call: each page with a frame is
    evicted once, in the order of the frames, and the call returns. *)
From S2P Require Import Prelude Replacement PteHeader CompactHashPageTable CompactTableLines SharedSingleThreadCache SharedSingleThreadCacheSpec SharedServer SharedServerData SharedServerSpec SharedServerUse ImmediateTransfers.
From stdpp Require Import gmap list.

Open Scope Z_scope.

Section flush.
Context {R : Type} `{ReplacementSpec R} {W EC ES : Type} (ec0 : EC) (es0 : ES).
Context (evict_func : W → EC → Z → Z → bool → ES → result (W * EC * ES * bool)).

Abbreviation cache_t := (cache R ES).
Abbreviation settled := (ImmediateTransfers.settled (EC := EC)).
Abbreviation fctx := (flush_context (EC := EC)).
Implicit Types (c : cache_t) (held : gmap Z Z) (w : W) (v p : Z) (fs : list fctx).

(** A frame has no page, or one that is mapped to it. *)
Definition clean c : Prop := ∀ p f, zget (states c) p = Some f →
  s_vpage_id f = EMPTY_VPAGE_ID ∨ resident c (s_vpage_id f) ∧ pp c (s_vpage_id f) = p.

Lemma clean_same c c' : clean c → states c' = states c → (∀ u, resident c u → resident c' u ∧ pp c' u = pp c u) → clean c'.
Proof.
  intros Hc Es Hr p f Hf. rewrite Es in Hf. destruct (Hc p f Hf) as [?|[Hres Hp]]; [by left|right]. destruct (Hr _ Hres) as [? ->]. done.
Qed.

Lemma clean_placed c c' v p a : clean c → placed c c' v p a → resident c' v → pp c' v = p →
  (∀ u, resident c u → pp c u ≠ p → resident c' u ∧ pp c' u = pp c u) → clean c'.
Proof.
  intros Hc [Hp Hother] Hv Epp Hr q f Hf. destruct (decide (q = p)) as [->|Hq].
  - rewrite Hp in Hf. injection Hf as <-. by right.
  - rewrite Hother in Hf by done. destruct (Hc q f Hf) as [?|[Hres Eq]]; [by left|right]. destruct (Hr _ Hres) as [? Eu]; [congruence|]. split; [done|congruence].
Qed.

Lemma init_clean mv mp : clean (init es0 mv mp : cache_t).
Proof. intros p f Hf. left. cbn [init states] in Hf. apply zget_replicate_inv in Hf. by subst f. Qed.

Definition frame_page c p : Z := match zget (states c) p with Some f => s_vpage_id f | None => EMPTY_VPAGE_ID end.
Definition flush_dirty c v : bool := if negb (p_ref_count (ent c v) =? 0) then true else p_dirty (ent c v).

Section start.
Context c held (Hs : settled c held) (Hc : clean c).
(** What holds of the outside after the evictions of some pages. *)
Context (P : list Z → W → Prop).
Context (Hevict : ∀ vs w p f, P vs w → zget (states c) p = Some f → resident c (s_vpage_id f) → pp c (s_vpage_id f) = p → s_vpage_id f ∉ vs →
  ∃ w' e, evict_func w ec0 (s_vpage_id f) p (flush_dirty c (s_vpage_id f)) (s_external f) = Ok (w', e, s_external f, true) ∧ P (vs ++ [s_vpage_id f]) w').
#[local] Set Default Proof Using "Type*".

Definition flushed (ids : list Z) fs : Prop :=
  fl_ppage_id <$> fs = filter (λ p, frame_page c p ≠ EMPTY_VPAGE_ID) ids ∧
  Forall (λ f, fl_processing f = false ∧ fl_pre_vpage_id f = frame_page c (fl_ppage_id f)) fs.

Lemma flush_evict_ok vs w p f : P vs w → zget (states c) p = Some f → resident c (s_vpage_id f) → pp c (s_vpage_id f) = p → s_vpage_id f ∉ vs →
  ∃ w' e, flush_evict evict_func (mk_sys w c) (mk_flush p (s_vpage_id f) (flush_dirty c (s_vpage_id f)) ec0 false) =
    Ok (mk_sys w' c, mk_flush p (s_vpage_id f) (flush_dirty c (s_vpage_id f)) e false) ∧ P (vs ++ [s_vpage_id f]) w'.
Proof.
  intros HP Hf Hr Hp Hn. destruct (Hevict vs w p f HP Hf Hr Hp Hn) as (w' & e & E & HP'). exists w', e. split; [|done].
  unfold flush_evict. cbn [the_cache world fl_ppage_id fl_pre_vpage_id fl_dirty fl_external_context]. rewrite (bind_rew _ _ _ (proj2 (aread_Ok _ _ _) Hf)), (bind_rew _ _ _ E).
  cbv beta iota zeta. rewrite awrite_total by (by apply zget_range in Hf). cbn [mbind result_bind]. destruct f as [v a]. cbn [s_vpage_id s_external].
  rewrite (zset_id _ _ _ Hf). by destruct c.
Qed.

Lemma flush_start_ok ids w vs fs : P vs w → NoDup ids → (∀ p, p ∈ ids → 0 ≤ p < max_ppage_id c) → (∀ p, p ∈ ids → frame_page c p ∉ vs) →
  ∃ w' fs', flush_start ec0 evict_func ids (mk_sys w c) fs = Ok (mk_sys w' c, fs ++ fs') ∧ flushed ids fs' ∧
    P (vs ++ (frame_page c <$> (fl_ppage_id <$> fs'))) w'.
Proof.
  revert w vs fs. induction ids as [|p ids IH]; intros w vs fs HP Hnd Hr Hnew.
  - exists w, []. cbn [flush_start fmap list_fmap]. rewrite !app_nil_r. split; [done|]. split; [by split|done].
  - apply NoDup_cons in Hnd as [Hnp Hnd]. assert (∀ q, q ∈ ids → 0 ≤ q < max_ppage_id c) as Hr' by (intros q Hq; apply Hr; by right).
    pose proof (si_states _ _ _ _ (se_inv _ _ Hs)) as Hlen. destruct (zget_is_Some (states c) p) as [f Hf]; [rewrite Hlen; apply Hr; by left|].
    assert (frame_page c p = s_vpage_id f) as Efp by (unfold frame_page; by rewrite Hf).
    cbn [flush_start the_cache]. rewrite (bind_rew _ _ _ (proj2 (aread_Ok _ _ _) Hf)). cbv zeta beta.
    destruct (Z.eqb_spec (s_vpage_id f) EMPTY_VPAGE_ID) as [Ee|Ene].
    + destruct (IH w vs fs HP Hnd Hr') as (w' & fs' & E & [Hf1 Hf2] & HP'); [intros q Hq; apply Hnew; by right|]. exists w', fs'. split; [done|]. split; [|done].
      split; [|done]. rewrite filter_cons_False; [done|]. intros Hc0. apply Hc0. by rewrite Efp.
    + destruct (Hc p f Hf) as [?|[Hres Hpp]]; [done|]. assert (s_vpage_id f ∉ vs) as Hn by (rewrite <- Efp; apply Hnew; by left).
      rewrite (bind_rew _ _ _ (ent_get c [] held [] (se_inv _ _ Hs) (s_vpage_id f))). fold (flush_dirty c (s_vpage_id f)).
      destruct (flush_evict_ok vs w p f HP Hf Hres Hpp Hn) as (w1 & e & E1 & HP1). rewrite (bind_rew _ _ _ E1).
      destruct (IH w1 (vs ++ [s_vpage_id f]) (fs ++ [mk_flush p (s_vpage_id f) (flush_dirty c (s_vpage_id f)) e false]) HP1 Hnd Hr') as (w' & fs' & E & [Hf1 Hf2] & HP').
      { intros q Hq [Hin|Hin]%elem_of_app; [by apply (Hnew q); [by right|]|]. apply list_elem_of_singleton in Hin.
        destruct (zget_is_Some (states c) q) as [g Hg]; [rewrite Hlen; by apply Hr'|]. unfold frame_page in Hin. rewrite Hg in Hin.
        destruct (Hc q g Hg) as [?|[_ Hq']]; [congruence|]. apply Hnp. replace p with q by congruence. done. }
      eexists w', (_ :: fs'). split; [rewrite E; by rewrite <- app_assoc|]. split.
      * split; [|by constructor]. rewrite filter_cons_True by (by rewrite Efp). cbn [fmap list_fmap fl_ppage_id]. by f_equal.
      * cbn [fmap list_fmap fl_ppage_id]. rewrite Efp. by rewrite <- app_assoc in HP'.
Qed.
End start.

(** ** The rest of it *)
Lemma flush_policy_ok mx n (r : R) : rep_inv mx r → rep_size r = Z.of_nat n → ∃ r', flush_policy n r = Ok r'.
Proof.
  revert r. induction n as [|n IH]; intros r Hi Hn; cbn [flush_policy]; rewrite Hn.
  - by exists r.
  - assert (rep_members r ≠ ∅) as Hne.
    { intros E. rewrite (rep_size_spec mx r Hi), E, size_empty in Hn. lia. }
    destruct (rep_pop_spec mx r Hi Hne) as (r' & p & nxt & E & Hi' & Hp & Hm & _). rewrite (proj2 (Z.ltb_lt _ _)) by lia. rewrite (bind_rew _ _ _ E). cbv beta iota zeta.
    apply IH; [done|]. rewrite (rep_size_spec mx r' Hi'), Hm. rewrite (rep_size_spec mx r Hi) in Hn. rewrite size_difference by set_solver. rewrite size_singleton. lia.
Qed.

Lemma flush_round_done (s : sys R W ES) fs (i n : nat) m : Forall (λ f, fl_processing f = false) fs → (i + n ≤ length fs)%nat →
  flush_round evict_func i n s fs m = Ok (s, fs, m).
Proof.
  intros Hd. revert i. induction n as [|n IH]; intros i Hn; [done|]. cbn [flush_round]. destruct (lookup_lt_is_Some_2 fs i) as [f Hf]; [lia|].
  rewrite Hf, (Forall_lookup_1 _ _ _ _ Hd Hf). apply IH. lia.
Qed.

Lemma flush_poll_done (s : sys R W ES) fs rounds : Forall (λ f, fl_processing f = false) fs → (0 < rounds)%nat →
  flush_poll evict_func rounds 0 s fs = Ok (s, fs).
Proof.
  intros Hd Hr. destruct rounds as [|rounds]; [lia|]. cbn [flush_poll]. rewrite flush_round_done by (done || lia). cbn [mbind result_bind]. by rewrite Z.eqb_refl.
Qed.

Definition unused (e : unpacked_pte) : Prop := p_exist e = true ∧ p_busy e = false ∧ p_ref_count e = 0.

Lemma flush_free_ok c fs : 0 ≤ max_vpage_id c ≤ NUM_PACK_PAGES * EMPTY_TAG → hints_ok (page_table c) [] → NoDup (fl_pre_vpage_id <$> fs) →
  Forall (λ f, okp c (fl_pre_vpage_id f) ∧ unused (ent c (fl_pre_vpage_id f)) ∧ 0 ≤ fl_ppage_id f < zlen (states c)) fs →
  ∃ c', flush_free es0 fs c = Ok c'.
Proof.
  revert c. induction fs as [|f fs IH]; intros c Hm Hh Hnd Hall; [by exists c|]. cbn [fmap list_fmap] in Hnd. apply NoDup_cons in Hnd as [Hn Hnd].
  apply Forall_cons in Hall as [(Hv & (Hx & Hb & Hrc) & Hp) Hall]. set (v := fl_pre_vpage_id f) in *. cbn [flush_free].
  destruct (entry_call c [] v None DeleteMapping deleted_pte (RBool true) Hm Hh) as (t & Hrun & Hent & _ & Hkeep); [by intros u k Hu%elem_of_nil|done|by unfold used_pte; rewrite Hx| |].
  { destruct (ent c v) as [ex bu di rc q]. simpl in *. by subst. }
  assert (delete_mapping (page_table c) v None = Ok (t, true)) as Ed.
  { unfold run_call in Hrun. apply bind_Ok in Hrun as ([t1 b] & E & [= -> ->]). done. }
  fold v. rewrite (bind_rew _ _ _ Ed). cbv beta iota zeta. set (sts := zset (states c) (fl_ppage_id f) (empty_frame es0)).
  assert (init_state es0 (with_page_table c t) (fl_ppage_id f) = Ok (with_states (with_page_table c t) sts)) as Ei.
  { unfold init_state. cbn [states with_page_table]. by rewrite awrite_total. }
  rewrite (bind_rew _ _ _ Ei). cbv zeta. set (c2 := free _ _). assert (page_table c2 = t) as Et by done.
  assert (∀ u, ent c2 u = ent (with_page_table c t) u) as Ee by done.
  destruct (entry_call c2 [] v None ReleaseLock freed_pte (RBool true) Hm) as (t' & Hrun' & Hent' & _ & Hkeep'); [|by intros u k Hu%elem_of_nil|done| | |].
  { rewrite Et. apply Hkeep. by intros u k Hu%elem_of_nil. }
  { unfold used_pte. rewrite Ee, Hent, decide_True by done. done. }
  { rewrite Ee, Hent, decide_True by done. done. }
  rewrite Et in Hrun' |- *. rewrite (bind_rew _ _ _ (release_run_call _ _ _ _ _ Hrun')). cbv beta iota zeta.
  apply IH; [done| |done|].
  - change (hints_ok t' []). apply Hkeep'. by intros u k Hu%elem_of_nil.
  - apply Forall_forall. intros g Hg. destruct (proj1 (Forall_forall _ _) Hall g Hg) as (Hgv & Hgu & Hgp). split; [done|]. split.
    + assert (fl_pre_vpage_id g ≠ v) as Hne by (intros E; apply Hn; rewrite <- E; by apply list_elem_of_fmap_2).
      rewrite Hent', decide_False by done. rewrite Ee, Hent, decide_False by done. done.
    + cbn [states with_page_table c2 free with_states with_recycle_pool]. unfold sts. by rewrite zlen_zset.
Qed.

(** *** The whole *)
Lemma flush_settled c w rounds (P : list Z → W → Prop) : settled c ∅ → clean c → (0 < rounds)%nat → P [] w →
  (∀ vs w p f, P vs w → zget (states c) p = Some f → resident c (s_vpage_id f) → pp c (s_vpage_id f) = p → s_vpage_id f ∉ vs →
    ∃ w' e, evict_func w ec0 (s_vpage_id f) p (flush_dirty c (s_vpage_id f)) (s_external f) = Ok (w', e, s_external f, true) ∧ P (vs ++ [s_vpage_id f]) w') →
  ∃ w' c' vs, flush ec0 es0 evict_func rounds (mk_sys w c) = Ok (mk_sys w' c') ∧ P vs w' ∧ ∀ v, resident c v → v ∈ vs.
Proof.
  intros Hs Hc Hrounds HP Hev. pose proof (se_inv _ _ Hs) as Hi. pose proof (si_states _ _ _ _ Hi) as Hlen. pose proof (si_cur _ _ _ _ Hi) as Hcur.
  destruct (flush_start_ok c ∅ Hs Hc P Hev (seqZ 0 (max_ppage_id c)) w [] [] HP) as (w' & fs & E & [Hf1 Hf2] & HP');
    [apply NoDup_seqZ|intros p Hp%elem_of_seqZ; lia|by intros p _ Hp%elem_of_nil|].
  destruct (flush_policy_ok (max_ppage_id c) (Z.to_nat (rep_size (replacement c))) (replacement c)) as [r Hr]; [apply Hi| |].
  { rewrite Z2Nat.id; [done|]. rewrite (rep_size_spec (max_ppage_id c) _ (si_rep _ _ _ _ Hi)). lia. }
  assert (∀ f, f ∈ fs → ∃ g, zget (states c) (fl_ppage_id f) = Some g ∧ fl_pre_vpage_id f = s_vpage_id g ∧ resident c (s_vpage_id g) ∧ pp c (s_vpage_id g) = fl_ppage_id f) as Hfs.
  { intros f Hf. assert (fl_ppage_id f ∈ (fl_ppage_id <$> fs)) as Hin by (by apply list_elem_of_fmap_2). rewrite Hf1 in Hin.
    apply list_elem_of_filter in Hin as [Hne Hin%elem_of_seqZ]. destruct (proj1 (Forall_forall _ _) Hf2 f Hf) as [_ Ev].
    destruct (zget_is_Some (states c) (fl_ppage_id f)) as [g Hg]; [lia|]. unfold frame_page in Hne, Ev. rewrite Hg in Hne, Ev. exists g. split; [done|]. split; [done|].
    by destruct (Hc _ g Hg). }
  set (c1 := with_replacement c r). destruct (flush_free_ok c1 fs) as [c' Hfree].
  - apply Hi.
  - apply (si_table _ _ _ _ Hi).
  - assert (NoDup (fl_ppage_id <$> fs)) as Hnd by (rewrite Hf1; apply NoDup_filter, NoDup_seqZ). revert Hnd Hfs. clear. induction fs as [|f fs IH]; [constructor|].
    cbn [fmap list_fmap]. intros [Hn Hnd]%NoDup_cons Hfs. apply NoDup_cons. split; [|apply IH; [done|intros g Hg; apply Hfs; by right]].
    intros (g & Eg & Hg)%list_elem_of_fmap. apply Hn. destruct (Hfs f) as (xf & _ & Evf & _ & Epf); [by left|]. destruct (Hfs g) as (xg & _ & Evg & _ & Epg); [by right|].
    assert (fl_ppage_id f = fl_ppage_id g) as -> by congruence. by apply list_elem_of_fmap_2.
  - apply Forall_forall. intros f Hf. destruct (Hfs f Hf) as (g & Hg & Ev & Hres & _). rewrite Ev. split; [apply Hres|]. split.
    + destruct Hres as (Ho & Hx & Hb). destruct (si_resident _ _ _ _ Hi (s_vpage_id g) (conj Ho (conj Hx Hb))) as (_ & _ & _ & _ & Hrc).
      split; [exact Hx|]. split; [exact Hb|]. exact Hrc.
    + by apply zget_range in Hg.
  - exists w', c', (frame_page c <$> (fl_ppage_id <$> fs)). split; [|split; [done|]].
    + unfold flush. cbn [the_cache]. rewrite (bind_rew _ _ _ E). cbv beta iota. cbn [the_cache app]. rewrite (bind_rew _ _ _ Hr).
      rewrite flush_poll_done; [|by apply (Forall_impl _ _ _ Hf2); intros f [? _]|done]. cbn [mbind result_bind]. unfold on_cache. cbn [the_cache world]. fold c1. by rewrite (bind_rew _ _ _ Hfree).
    + intros v Hv. destruct (si_resident _ _ _ _ Hi v Hv) as ((f & Hf & Efv) & Hpr & _). rewrite Hf1. apply list_elem_of_fmap. exists (pp c v).
      assert (frame_page c (pp c v) = v) as Efp by (unfold frame_page; by rewrite Hf). split; [done|]. apply list_elem_of_filter. split; [|apply elem_of_seqZ; lia].
      rewrite Efp. destruct Hv as [Hv _]. pose proof (si_vmax _ _ _ _ Hi) as Hvm. unfold okp in Hv. unfold EMPTY_VPAGE_ID, MAX64.
      assert (NUM_PACK_PAGES * EMPTY_TAG < 2 ^ 64 - 1) by reflexivity. lia.
Qed.
End flush.
