(* ===== verification/MemoryPool.v ===== *)
(** * The physical memory of a partition

    [class MemoryPool] of [include/memory_pool.hpp]: an array of page frames, in
    an own mapping or in the buffer of the I/O backend, and the table of frames
    that have been loaded once. *)
From S2P Require Import Prelude Util.

Open Scope Z_scope.

Record pool := mk_pool {
  num_pages : Z;
  base : Z;
  mmap_base : Z;
  first_loaded : list bool;
  is_external : bool;
}.

(** The first page boundary of the mapping at [mmap_pool]. *)
Definition align_up (mmap_pool : Z) : Z :=
  w64 (mmap_pool + (CACHE_PAGE_SIZE - mmap_pool mod CACHE_PAGE_SIZE) mod CACHE_PAGE_SIZE).

(** [external] is the backend's buffer ([None] is the null pointer) and
    [mmap_alloc] the address the kernel chooses for a mapping of a given size.
    A fresh mapping is zeroed. *)
Definition create (mmap_alloc : Z → Z) (n : Z) (external : option Z) : pool :=
  match external with
  | Some p => mk_pool n p 0 (replicate (Z.to_nat n) false) true
  | None =>
      let mmap_pool := mmap_alloc (w64 (n * CACHE_PAGE_SIZE + CACHE_PAGE_SIZE)) in
      mk_pool n (align_up mmap_pool) mmap_pool (replicate (Z.to_nat n) false) false
  end.

Definition from_page_id (m : pool) (id : Z) : result Z :=
  _ ← assert (id <? num_pages m);
  Ok (w64 (base m + id * CACHE_PAGE_SIZE)).

Definition to_page_id (m : pool) (ptr : Z) : result Z :=
  _ ← assert ((ptr mod num_pages m =? 0) && (base m <? ptr) && (ptr <? base m + num_pages m * CACHE_PAGE_SIZE));
  Ok ((ptr - base m) / num_pages m).

Definition loaded (m : pool) (id : Z) : result (pool * bool) :=
  before ← aread (first_loaded m) id;
  fl ← awrite (first_loaded m) id true;
  Ok (mk_pool (num_pages m) (base m) (mmap_base m) fl (is_external m), before).

(** ** Properties *)

(** The pool lies in the address space, on page boundaries. *)
Record pool_inv (m : pool) : Prop := {
  pi_pages : 0 < num_pages m;
  pi_base : 0 <= base m;
  pi_top : base m + num_pages m * CACHE_PAGE_SIZE < 2 ^ 64;
  pi_align : base m mod CACHE_PAGE_SIZE = 0;
  pi_loaded : zlen (first_loaded m) = num_pages m;
}.

Lemma align_up_spec a : 0 ≤ a → a + CACHE_PAGE_SIZE < 2 ^ 64 →
  a ≤ align_up a < a + CACHE_PAGE_SIZE ∧ align_up a mod CACHE_PAGE_SIZE = 0.
Proof.
  unfold align_up, CACHE_PAGE_SIZE, CACHE_PAGE_BITS. change (Z.shiftl 1 12) with 4096. intros Ha Ht.
  assert (Hr : 0 ≤ (4096 - a mod 4096) mod 4096 < 4096) by (apply Z.mod_pos_bound; lia).
  rewrite w64_small by lia. split; [lia|].
  rewrite Zplus_mod_idemp_r. replace (a + (4096 - a mod 4096)) with ((1 + a / 4096) * 4096).
  - apply Z.mod_mul. lia.
  - pose proof (Z_div_mod_eq_full a 4096). lia.
Qed.

(** A pool of its own is aligned and lies inside its mapping, one page larger
    than the frames. *)
Lemma create_pool_inv mmap_alloc n : let a := mmap_alloc (w64 (n * CACHE_PAGE_SIZE + CACHE_PAGE_SIZE)) in
  0 < n → 0 ≤ a → a + n * CACHE_PAGE_SIZE + CACHE_PAGE_SIZE < 2 ^ 64 →
  let m := create mmap_alloc n None in
  pool_inv m ∧ a ≤ base m ∧ base m + n * CACHE_PAGE_SIZE < a + (n * CACHE_PAGE_SIZE + CACHE_PAGE_SIZE).
Proof.
  intros a Hn Ha Ht m. assert (Hs : 0 < CACHE_PAGE_SIZE) by done.
  destruct (align_up_spec a Ha) as [Hb Hal]; [nia|].
  change (base m) with (align_up a). split; [|lia]. split; simpl; fold a; try lia; try done.
  rewrite zlen_replicate. lia.
Qed.

(** The frames are page aligned, inside the pool, and any two of them are at
    least a page apart, so they do not overlap. *)
Lemma from_page_id_frames m id id' : pool_inv m → 0 ≤ id < num_pages m → 0 ≤ id' < num_pages m →
  ∃ p p', from_page_id m id = Ok p ∧ from_page_id m id' = Ok p' ∧
    p mod CACHE_PAGE_SIZE = 0 ∧ base m ≤ p ∧ p + CACHE_PAGE_SIZE ≤ base m + num_pages m * CACHE_PAGE_SIZE ∧
    (id < id' → p + CACHE_PAGE_SIZE ≤ p').
Proof.
  intros [Hn Hb Ht Ha _] Hid Hid'. unfold from_page_id.
  rewrite !(proj2 (Z.ltb_lt _ _)) by lia. simpl.
  assert (Hs : 0 < CACHE_PAGE_SIZE) by done.
  exists (base m + id * CACHE_PAGE_SIZE), (base m + id' * CACHE_PAGE_SIZE).
  rewrite !w64_small by nia. do 2 (split; [done|]). split; [|nia].
  by rewrite Z.mod_add by lia.
Qed.

(** [loaded] says whether the frame was loaded before, and marks it. *)
Lemma loaded_spec m id : pool_inv m → 0 ≤ id < num_pages m →
  ∃ m' b, loaded m id = Ok (m', b) ∧ zget (first_loaded m) id = Some b ∧ pool_inv m' ∧
    ∀ j, zget (first_loaded m') j = if decide (j = id) then Some true else zget (first_loaded m) j.
Proof.
  intros Hi Hid. rewrite <- (pi_loaded _ Hi) in Hid.
  destruct (aread_total (first_loaded m) id Hid) as (b & Hr & Hg).
  unfold loaded. rewrite Hr. simpl. rewrite awrite_total by done. simpl.
  eexists _, b. split; [done|]. split; [done|]. split.
  - destruct Hi. split; try done. simpl. by rewrite zlen_zset.
  - intros j. simpl. rewrite zget_zset. case_decide as H1; case_decide as H2; try done; destruct H1; lia.
Qed.

(** [to_page_id] is not the inverse of [from_page_id]: its assertion rejects
    page 0, and for other pages it divides by the number of pages and not by the
    size of a page. *)
Lemma to_page_id_not_inverse : ∃ m p0 p1, pool_inv m ∧
  from_page_id m 0 = Ok p0 ∧ to_page_id m p0 = Err AssertFail ∧
  from_page_id m 1 = Ok p1 ∧ to_page_id m p1 = Ok 2048.
Proof.
  exists (mk_pool 2 4096 4000 [false; false] false), 4096, 8192.
  split; [by split|done].
Qed.

