(* ===== verification/IoBackend.v ===== *)
(** * The I/O backends

    [include/io_backend.hpp]: [DummyIO] and [MemCopy] in full; [AIO], [IOURing]
    and [SPDK] over the calls of their libraries, which are parameters.  A
    request names a block and a buffer address, and a flag ([finish]) that is
    set once it is done. *)
From S2P Require Import Prelude Util.
From stdpp Require Import gmap.

Open Scope Z_scope.

(** The flags that are set, by address; a request may come without a flag. *)
Definition raise (finish : option Z) (flags : gset Z) : gset Z :=
  match finish with Some f => {[f]} ∪ flags | None => flags end.

(** ** [class DummyIO]: requests that only take time *)
Module Dummy.
Definition MAX_READ_DEPTH : Z := 4096.
Definition MAX_WRITE_DEPTH : Z := 4096.
(** In nanoseconds, the period of [high_resolution_clock]. *)
Definition READ_LATENCY : Z := 80000.
Definition WRITE_LATENCY : Z := 20000.

Record callback_type := mk_cb { cb_start : Z; cb_finish : option Z; cb_running : bool }.

(** One direction: its slots, the idle ones (a stack) and the depth. *)
Record lane := mk_lane { depth : Z; iocbs : list callback_type; idle_iocbs : list Z }.

(** [preparing] points into the read ([true]) or the write slots. *)
Record t := mk { read_lane : lane; write_lane : lane; preparing : list (bool * Z); flags : gset Z }.

(** [split] is [boost::split] at commas and [stoul] the standard function. *)
Definition parse_depths (split : string → list string) (stoul : string → result Z)
    (paths : list string) : result (Z * Z) :=
  foldl (λ acc path,
    '(r, w) ← acc;
    match split path with
    | [a; b] => ra ← stoul a; wb ← stoul b; Ok (w64 (r + ra), w64 (w + wb))
    | _ => Err AssertFail
    end) (Ok (0, 0)) paths.

Definition idle_lane (d : Z) : lane :=
  mk_lane d (replicate (Z.to_nat MAX_READ_DEPTH) (mk_cb 0 None false)) (seqZ 0 d).

Definition init (split : string → list string) (stoul : string → result Z) (paths : list string) : result t :=
  '(r, w) ← parse_depths split stoul paths;
  Ok (mk (idle_lane (r `min` MAX_READ_DEPTH)) (idle_lane (w `min` MAX_READ_DEPTH)) [] ∅).

(** The slots from [i] on whose time is up. *)
Fixpoint reap (latency now : Z) (l : lane) (fl : gset Z) (i : Z) (n : nat) : result (lane * gset Z) :=
  match n with
  | O => Ok (l, fl)
  | S n' =>
      cb ← aread (iocbs l) i;
      if cb_running cb && (cb_start cb + latency <? now) then
        cbs ← awrite (iocbs l) i (mk_cb (cb_start cb) (cb_finish cb) false);
        reap latency now (mk_lane (depth l) cbs (idle_iocbs l ++ [i])) (raise (cb_finish cb) fl) (i + 1) n'
      else reap latency now l fl (i + 1) n'
  end.

Definition start_one (now : Z) (l : lane) (i : Z) : result lane :=
  cb ← aread (iocbs l) i;
  cbs ← awrite (iocbs l) i (mk_cb now (cb_finish cb) true);
  Ok (mk_lane (depth l) cbs (idle_iocbs l)).

Fixpoint start_all (now : Z) (ps : list (bool * Z)) (b : t) : result t :=
  match ps with
  | [] => Ok b
  | (true, i) :: ps' =>
      l ← start_one now (read_lane b) i;
      start_all now ps' (mk l (write_lane b) (preparing b) (flags b))
  | (false, i) :: ps' =>
      l ← start_one now (write_lane b) i;
      start_all now ps' (mk (read_lane b) l (preparing b) (flags b))
  end.

Definition busy (l : lane) : bool := negb (zlen (idle_iocbs l) =? depth l).

(** [now] is the reading of the clock. *)
Definition progress (now : Z) (b : t) : result (t * bool) :=
  b ← start_all now (preparing b) b;
  '(r, fl) ← reap READ_LATENCY now (read_lane b) (flags b) 0 (Z.to_nat (depth (read_lane b)));
  '(w, fl) ← reap WRITE_LATENCY now (write_lane b) fl 0 (Z.to_nat (depth (write_lane b)));
  Ok (mk r w [] fl, busy r || busy w).

(** A slot for a request, [None] when all are taken. *)
Definition take_slot (l : lane) (finish : option Z) : result (option (lane * Z)) :=
  match vec_pop (idle_iocbs l) with
  | None => Ok None
  | Some (idle, i) =>
      cb ← aread (iocbs l) i;
      cbs ← awrite (iocbs l) i (mk_cb (cb_start cb) finish (cb_running cb));
      Ok (Some (mk_lane (depth l) cbs idle, i))
  end.

Definition write (now : Z) (b : t) (finish : option Z) : result (t * bool) :=
  s ← take_slot (write_lane b) finish;
  match s with
  | None => '(b, _) ← progress now b; Ok (b, false)
  | Some (l, i) => Ok (mk (read_lane b) l (preparing b ++ [(false, i)]) (flags b), true)
  end.

Definition read (now : Z) (b : t) (finish : option Z) : result (t * bool) :=
  s ← take_slot (read_lane b) finish;
  match s with
  | None => '(b, _) ← progress now b; Ok (b, false)
  | Some (l, i) => Ok (mk l (write_lane b) (preparing b ++ [(true, i)]) (flags b), true)
  end.
End Dummy.

(** ** [class MemCopy]: blocks kept in memory *)
Module MemCopy.
Definition MAX_READ_DEPTH : Z := 4096.
Definition MAX_WRITE_DEPTH : Z := 4096.

Record callback_type := mk_cb { cb_running : bool; cb_finish : option Z; cb_from : Z; cb_to : Z }.

(** Slots and idle slots (a stack), per direction. *)
Record lane := mk_lane { iocbs : list callback_type; idle_iocbs : list Z }.

(** [mem] is the memory of the process, in which the blocks start at [mempool];
    [preparing] points into the read ([true]) or the write slots. *)
Record t := mk {
  mempool : Z;
  read_lane : lane;
  write_lane : lane;
  preparing : list (bool * Z);
  mem : Z → Z;
  flags : gset Z;
}.

Definition idle_lane (d : Z) : lane :=
  mk_lane (replicate (Z.to_nat d) (mk_cb false None 0 0)) (seqZ 0 d).

Definition init (mempool : Z) (m : Z → Z) : t :=
  mk mempool (idle_lane MAX_READ_DEPTH) (idle_lane MAX_WRITE_DEPTH) [] m ∅.

(** [memcpy] of [n] bytes between ranges that do not overlap. *)
Definition memcpy (m : Z → Z) (dst src n : Z) : Z → Z :=
  λ a, if decide (dst ≤ a < dst + n) then m (src + (a - dst)) else m a.

Definition start_one (l : lane) (i : Z) : result lane :=
  cb ← aread (iocbs l) i;
  cbs ← awrite (iocbs l) i (mk_cb true (cb_finish cb) (cb_from cb) (cb_to cb));
  Ok (mk_lane cbs (idle_iocbs l)).

Fixpoint start_all (ps : list (bool * Z)) (r w : lane) : result (lane * lane) :=
  match ps with
  | [] => Ok (r, w)
  | (true, i) :: ps' => r ← start_one r i; start_all ps' r w
  | (false, i) :: ps' => w ← start_one w i; start_all ps' r w
  end.

(** Runs and retires the running slots from [i] on. *)
Fixpoint reap (l : lane) (m : Z → Z) (fl : gset Z) (i : Z) (n : nat) : result (lane * (Z → Z) * gset Z) :=
  match n with
  | O => Ok (l, m, fl)
  | S n' =>
      cb ← aread (iocbs l) i;
      if cb_running cb then
        cbs ← awrite (iocbs l) i (mk_cb false (cb_finish cb) (cb_from cb) (cb_to cb));
        reap (mk_lane cbs (idle_iocbs l ++ [i])) (memcpy m (cb_to cb) (cb_from cb) CACHE_PAGE_SIZE)
          (raise (cb_finish cb) fl) (i + 1) n'
      else reap l m fl (i + 1) n'
  end.

Definition progress (b : t) : result (t * bool) :=
  '(r, w) ← start_all (preparing b) (read_lane b) (write_lane b);
  '(r, m, fl) ← reap r (mem b) (flags b) 0 (Z.to_nat MAX_READ_DEPTH);
  '(w, m, fl) ← reap w m fl 0 (Z.to_nat MAX_WRITE_DEPTH);
  Ok (mk (mempool b) r w [] m fl,
      negb (zlen (idle_iocbs r) =? MAX_READ_DEPTH) || negb (zlen (idle_iocbs w) =? MAX_WRITE_DEPTH)).

(** A slot filled in for a request, [None] when all are taken. *)
Definition take_slot (l : lane) (finish : option Z) (from to : Z) : result (option (lane * Z)) :=
  match vec_pop (idle_iocbs l) with
  | None => Ok None
  | Some (idle, i) =>
      cb ← aread (iocbs l) i;
      cbs ← awrite (iocbs l) i (mk_cb (cb_running cb) finish from to);
      Ok (Some (mk_lane cbs idle, i))
  end.

Definition write (b : t) (id data : Z) (finish : option Z) : result (t * bool) :=
  s ← take_slot (write_lane b) finish data (mempool b + id * CACHE_PAGE_SIZE);
  match s with
  | None => '(b, _) ← progress b; Ok (b, false)
  | Some (l, i) => Ok (mk (mempool b) (read_lane b) l (preparing b ++ [(false, i)]) (mem b) (flags b), true)
  end.

Definition read (b : t) (id data : Z) (finish : option Z) : result (t * bool) :=
  s ← take_slot (read_lane b) finish (mempool b + id * CACHE_PAGE_SIZE) data;
  match s with
  | None => '(b, _) ← progress b; Ok (b, false)
  | Some (l, i) => Ok (mk (mempool b) l (write_lane b) (preparing b ++ [(true, i)]) (mem b) (flags b), true)
  end.
End MemCopy.

(** ** [class AIO]: Linux asynchronous I/O

    [K] is the state of the kernel and the device. *)
Module Aio.
Definition MAX_DEPTH : Z := 4096.

Record iocb := mk_iocb { io_write : bool; io_fd : Z; io_buf : Z; io_nbytes : Z; io_offset : Z }.
Definition no_iocb : iocb := mk_iocb false 0 0 0 0.

Section aio.
Context {K : Type}.
(** [io_submit] with the requests (slot and contents), [io_getevents] with the
    slots that completed; opening, measuring and growing a file. *)
Context (io_submit : K → list (Z * iocb) → K * Z) (io_getevents : K → Z → K * list Z).
Context (open_file : K → string → K * Z) (file_size : K → Z → Z) (pwrite : K → Z → Z → Z → K * Z).
Context (io_setup : K → Z → K * Z).

Record t := mk {
  num_blocks : Z;
  fds : list Z;
  partitioner : RoundRobinPartitioner;
  iocbs : list iocb;
  finishes : list (option Z);
  idle_iocbs : list Z;
  preparing_iocbs : list Z;
  kernel : K;
  flags : gset Z;
}.

Definition flush_size : Z := 4096.

(** Grows the file by zeroed pieces from piece [j] on; [n] pieces at most. *)
Fixpoint fill (k : K) (fd j limit : Z) (n : nat) : result K :=
  if j * flush_size <? limit then
    match n with
    | O => Err OutOfFuel
    | S n' =>
        let '(k, written) := pwrite k fd flush_size (j * flush_size) in
        _ ← ensure (written =? flush_size) "Init File Error";
        fill k fd (j + 1) limit n'
    end
  else Ok k.

Fixpoint open_files (p : RoundRobinPartitioner) (i : Z) (paths : list string) (k : K) : result (K * list Z) :=
  match paths with
  | [] => Ok (k, [])
  | path :: paths' =>
      let '(k, fd) := open_file k path in
      _ ← ensure (0 <=? fd) "Open File Error";
      let limit := Util.num_blocks p i * CACHE_PAGE_SIZE in
      let j := (file_size k fd + flush_size - 1) / flush_size in
      k ← fill k fd j limit (Z.to_nat (limit / flush_size + 1));
      '(k, fds) ← open_files p (i + 1) paths' k;
      Ok (k, fd :: fds)
  end.

Definition init (paths : list string) (blocks : Z) (k : K) : result t :=
  let p := Build_RoundRobinPartitioner (zlen paths) blocks in
  '(k, fds) ← open_files p 0 paths k;
  let '(k, ret) := io_setup k MAX_DEPTH in
  _ ← ensure (ret =? 0) "AIO Setup Error";
  Ok (mk blocks fds p (replicate (Z.to_nat MAX_DEPTH) no_iocb) (replicate (Z.to_nat MAX_DEPTH) None)
        (seqZ 0 MAX_DEPTH) [] k ∅).

Definition prepared (b : t) : list (Z * iocb) :=
  omap (λ i, c ← zget (iocbs b) i; Some (i, c)) (preparing_iocbs b).

(** What the loop over the events does with each slot. *)
Fixpoint reap (events : list Z) (fin : list (option Z)) (idle : list Z) (fl : gset Z) : result (list Z * gset Z) :=
  match events with
  | [] => Ok (idle, fl)
  | i :: events' => f ← aread fin i; reap events' fin (idle ++ [i]) (raise f fl)
  end.

(** Hands the prepared requests to the kernel, all or an exception. *)
Definition submit_prepared (b : t) : result K :=
  if 0 <? zlen (preparing_iocbs b) then
    let '(k, n) := io_submit (kernel b) (prepared b) in
    _ ← ensure (n =? zlen (preparing_iocbs b)) "AIO Submit Error";
    Ok k
  else Ok (kernel b).

Definition progress (b : t) : result (t * bool) :=
  k ← submit_prepared b;
  let '(k, events) := io_getevents k MAX_DEPTH in
  '(idle, fl) ← reap events (finishes b) (idle_iocbs b) (flags b);
  Ok (mk (num_blocks b) (fds b) (partitioner b) (iocbs b) (finishes b) idle [] k fl,
      negb (zlen idle =? MAX_DEPTH)).

(** [write] and [read] differ in the request they prepare. *)
Definition enqueue (is_write : bool) (b : t) (id data : Z) (finish : option Z) : result (t * bool) :=
  _ ← assert ((id <? num_blocks b) && (data mod CACHE_PAGE_SIZE =? 0));
  match vec_pop (idle_iocbs b) with
  | None => '(b, _) ← progress b; Ok (b, false)
  | Some (idle, idx) =>
      let '(file_id, block_id) := locate (partitioner b) id in
      fd ← aread (fds b) file_id;
      cbs ← awrite (iocbs b) idx (mk_iocb is_write fd data CACHE_PAGE_SIZE (block_id * CACHE_PAGE_SIZE));
      fin ← awrite (finishes b) idx finish;
      Ok (mk (num_blocks b) (fds b) (partitioner b) cbs fin idle (preparing_iocbs b ++ [idx]) (kernel b) (flags b), true)
  end.
Definition write : t → Z → Z → option Z → result (t * bool) := enqueue true.
Definition read : t → Z → Z → option Z → result (t * bool) := enqueue false.
End aio.
Arguments t : clear implicits.

(** [user_io_getevents]: reaping the completion ring in user space. *)
Record aio_ring {E : Type} := mk_ring { nr : Z; head : Z; tail : Z; events : list E }.
Arguments aio_ring : clear implicits.
Arguments mk_ring {E} _ _ _ _.

Fixpoint user_io_getevents {E} (r : aio_ring E) (max : nat) : result (aio_ring E * list E) :=
  match max with
  | O => Ok (r, [])
  | S max' =>
      if head r =? tail r then Ok (r, [])
      else
        e ← aread (events r) (head r);
        '(r, es) ← user_io_getevents (mk_ring (nr r) ((head r + 1) mod nr r) (tail r) (events r)) max';
        Ok (r, e :: es)
  end.
End Aio.

(** ** [class IOURing] *)
Module Uring.
Definition MAX_DEPTH : Z := 4096.

Section uring.
Context {K : Type}.
(** [get_sqe] says whether the submission queue had room, [prepare] fills the
    entry (direction, file, buffer, length, offset, user data), [submit] returns
    the number of entries submitted or a negative error, [peek_batch] the user
    data of the completions, [cq_advance] consumes them. *)
Context (get_sqe : K → K * bool) (prepare : K → bool → Z → Z → Z → Z → option Z → K).
Context (submit : K → K * Z) (peek_batch : K → Z → list (option Z)) (cq_advance : K → Z → K).
Context (open_file : K → string → K * Z) (file_size : K → Z → Z) (pwrite : K → Z → Z → Z → K * Z).
Context (queue_init : K → Z → K * Z).

Record t := mk {
  num_blocks : Z;
  fds : list Z;
  partitioner : RoundRobinPartitioner;
  num_preparing : Z;
  num_processing : Z;
  kernel : K;
  flags : gset Z;
}.

(** The files are opened and grown as in [Aio]. *)
Definition init (paths : list string) (blocks : Z) (k : K) : result t :=
  let p := Build_RoundRobinPartitioner (zlen paths) blocks in
  '(k, fds) ← Aio.open_files open_file file_size pwrite p 0 paths k;
  let '(k, ret) := queue_init k MAX_DEPTH in
  _ ← ensure (ret =? 0) "IOURing Setup Error";
  Ok (mk blocks fds p 0 0 k ∅).

Definition progress (b : t) : t * bool :=
  let '(k, prep, proc) :=
    (if negb (num_preparing b =? 0) then
       let '(k, ret) := submit (kernel b) in
       if 0 <=? ret then (k, w64 (num_preparing b - ret), w64 (num_processing b + ret))
       else (k, num_preparing b, num_processing b)
     else (kernel b, num_preparing b, num_processing b)) in
  let done_ := peek_batch k MAX_DEPTH in
  let proc := w64 (proc - zlen done_) in
  (mk (num_blocks b) (fds b) (partitioner b) prep proc (cq_advance k (zlen done_)) (foldr raise (flags b) done_),
   negb (proc =? 0)).

Definition enqueue (is_write : bool) (b : t) (id data : Z) (finish : option Z) : result (t * bool) :=
  _ ← assert ((id <? num_blocks b) && (data mod CACHE_PAGE_SIZE =? 0));
  let '(k, room) := get_sqe (kernel b) in
  let b := mk (num_blocks b) (fds b) (partitioner b) (num_preparing b) (num_processing b) k (flags b) in
  if negb room then let '(b, _) := progress b in Ok (b, false)
  else
    let '(file_id, block_id) := locate (partitioner b) id in
    fd ← aread (fds b) file_id;
    let k := prepare k is_write fd data CACHE_PAGE_SIZE (block_id * CACHE_PAGE_SIZE) finish in
    Ok (mk (num_blocks b) (fds b) (partitioner b) (w64 (num_preparing b + 1)) (num_processing b) k (flags b), true).
Definition write : t → Z → Z → option Z → result (t * bool) := enqueue true.
Definition read : t → Z → Z → option Z → result (t * bool) := enqueue false.
End uring.
Arguments t : clear implicits.
End Uring.

(** ** [class SPDK]: NVMe devices driven from user space *)
Module Spdk.
(** A controller: its transport address and its active namespaces, by id. *)
Record nvme_device_context_type := mk_device { traddr : string; nses : list (Z * Z) }.

Record nvme_qpair_handle_type := mk_handle {
  h_ns : Z;
  sector_size : Z;
  num_sector_per_page : Z;
  sector_base : Z;
}.

Section spdk.
Context {K : Type}.
(** [split] at commas, [stoi], [stoul]; the canonical form of a PCI address;
    size and sector size of a namespace. *)
Context (split : string → list string) (stoi stoul : string → result Z) (pci_addr : string → option string).
Context (ns_get_size ns_get_sector_size : Z → Z).
(** A queue pair, the transfer commands (namespace, buffer, first sector,
    number of sectors, flag; 0 is success), the completions of a queue pair
    (their flag, and whether they report an error), and the trim command. *)
Context (alloc_qpair : K → Z → K * bool) (cmd : bool → K → Z → Z → Z → Z → option Z → K * Z).
Context (process_completions : K → Z → K * list (option Z * bool)) (dataset_management : K → Z → Z → Z → Z → K).
Context (dma_malloc : K → Z → K * option Z).

(** [Env::get_handle]. *)
Fixpoint find_ns (nss : list (Z * Z)) (nsid : Z) : option Z :=
  match nss with
  | [] => None
  | (id, ns) :: nss' => if id =? nsid then Some ns else find_ns nss' nsid
  end.

Fixpoint find_handle (contextes : list nvme_device_context_type) (addr : string) (nsid : Z) : option Z :=
  match contextes with
  | [] => None
  | d :: contextes' =>
      if bool_decide (traddr d = addr) then
        match find_ns (nses d) nsid with
        | Some ns => Some ns
        | None => find_handle contextes' addr nsid
        end
      else find_handle contextes' addr nsid
  end.

Definition get_handle (contextes : list nvme_device_context_type) (addr : string) (nsid : Z) : result (option Z) :=
  match pci_addr addr with
  | None => Err (Throw "Unable to parse pci address")
  | Some a => Ok (find_handle contextes a nsid)
  end.

Record t := mk {
  num_blocks : Z;
  handles : list nvme_qpair_handle_type;
  partitioner : RoundRobinPartitioner;
  buffer : Z;
  device : K;
  flags : gset Z;
}.

(** The check of a device against its share of the blocks. *)
Definition device_ok (ns_size blocks byte_base sector : Z) : bool :=
  negb ((ns_size <? w64 (blocks * CACHE_PAGE_SIZE + byte_base)) || (CACHE_PAGE_SIZE <? sector) ||
        negb (CACHE_PAGE_SIZE mod sector =? 0) || negb (byte_base mod CACHE_PAGE_SIZE =? 0)).

Definition make_handle (ns byte_base sector : Z) : nvme_qpair_handle_type :=
  mk_handle ns sector (CACHE_PAGE_SIZE / sector) ((byte_base + sector - 1) / sector).

Definition open_path (contextes : list nvme_device_context_type) (p : RoundRobinPartitioner) (i : Z)
    (path : string) (k : K) : result (K * nvme_qpair_handle_type) :=
  match split path with
  | [addr; id; base] =>
      nsid ← stoi id;
      byte_base ← stoul base;
      found ← get_handle contextes addr nsid;
      match found with
      | None => Err (Throw "Cannot find device")
      | Some ns =>
          let sector := ns_get_sector_size ns in
          _ ← ensure (device_ok (ns_get_size ns) (Util.num_blocks p i) byte_base sector) "Device size error";
          let '(k, ok) := alloc_qpair k ns in
          _ ← ensure ok "Unable to create qpair";
          Ok (k, make_handle ns byte_base sector)
      end
  | _ => Err AssertFail
  end.

Fixpoint open_paths (contextes : list nvme_device_context_type) (p : RoundRobinPartitioner) (i : Z)
    (paths : list string) (k : K) : result (K * list nvme_qpair_handle_type) :=
  match paths with
  | [] => Ok (k, [])
  | path :: paths' =>
      '(k, h) ← open_path contextes p i path k;
      '(k, hs) ← open_paths contextes p (i + 1) paths' k;
      Ok (k, h :: hs)
  end.

(** [cmd_callback] over the completions of one queue pair: an error leaves the
    flag unset. *)
Fixpoint callbacks (cs : list (option Z * bool)) (fl : gset Z) : gset Z :=
  match cs with
  | [] => fl
  | (finish, error) :: cs' => callbacks cs' (if (error : bool) then fl else raise finish fl)
  end.

(** Waits for the trim of one device; [flag] is its local [finish]. *)
Fixpoint clear_wait (fuel : nat) (k : K) (h : nvme_qpair_handle_type) (flag : Z) (fl : gset Z) : result (K * gset Z) :=
  if decide (flag ∈ fl) then Ok (k, fl)
  else match fuel with
       | O => Err OutOfFuel
       | S fuel' =>
           let '(k, cs) := process_completions k (h_ns h) in
           clear_wait fuel' k h flag (callbacks cs fl)
       end.

Fixpoint clear (fuel : nat) (p : RoundRobinPartitioner) (i flag : Z) (hs : list nvme_qpair_handle_type)
    (k : K) (fl : gset Z) : result (K * gset Z) :=
  match hs with
  | [] => Ok (k, fl)
  | h :: hs' =>
      let k := dataset_management k (h_ns h) (sector_base h) (Util.num_blocks p i * num_sector_per_page h) flag in
      '(k, fl) ← clear_wait fuel k h flag (fl ∖ {[flag]});
      clear fuel p (i + 1) flag hs' k fl
  end.

Definition init (fuel : nat) (flag : Z) (contextes : list nvme_device_context_type) (paths : list string)
    (blocks ppages : Z) (k : K) : result t :=
  let p := Build_RoundRobinPartitioner (zlen paths) blocks in
  '(k, hs) ← open_paths contextes p 0 paths k;
  let '(k, buf) := dma_malloc k (w64 (ppages * CACHE_PAGE_SIZE)) in
  match buf with
  | None => Err (Throw "Unable to allocate DMA memory")
  | Some buf => '(k, fl) ← clear fuel p 0 flag hs k ∅; Ok (mk blocks hs p buf k fl)
  end.

Fixpoint poll (hs : list nvme_qpair_handle_type) (k : K) (fl : gset Z) : K * gset Z :=
  match hs with
  | [] => (k, fl)
  | h :: hs' => let '(k, cs) := process_completions k (h_ns h) in poll hs' k (callbacks cs fl)
  end.

Definition progress (b : t) : t * bool :=
  let '(k, fl) := poll (handles b) (device b) (flags b) in
  (mk (num_blocks b) (handles b) (partitioner b) (buffer b) k fl, true).

(** The sectors of a block: its device, the first sector and their number. *)
Definition sectors (b : t) (id : Z) : result (Z * Z * Z) :=
  let '(file_id, block_id) := locate (partitioner b) id in
  h ← aread (handles b) file_id;
  Ok (h_ns h, sector_base h + block_id * num_sector_per_page h, num_sector_per_page h).

Definition transfer (is_write : bool) (b : t) (id data : Z) (finish : option Z) : result (t * bool) :=
  _ ← assert ((id <? num_blocks b) && (data mod CACHE_PAGE_SIZE =? 0));
  '(ns, lba, count) ← sectors b id;
  let '(k, ret) := cmd is_write (device b) ns data lba count finish in
  let b := mk (num_blocks b) (handles b) (partitioner b) (buffer b) k (flags b) in
  if negb (ret =? 0) then let '(b, _) := progress b in Ok (b, false) else Ok (b, true).
Definition write : t → Z → Z → option Z → result (t * bool) := transfer true.
Definition read : t → Z → Z → option Z → result (t * bool) := transfer false.
End spdk.
Arguments t : clear implicits.
End Spdk.
