(* ===== verification/IoBackendSpec.v ===== *)
(** * The I/O backends: properties

    [MemCopy] carries out every request it accepts exactly once; [AIO] never
    hands out a slot in use; the devices of [AIO] and [SPDK] are addressed
    inside their share and without overlap. *)
From S2P Require Import Prelude Util IoBackend.
From stdpp Require Import gmap list.

Open Scope Z_scope.

(** ** [MemCopy] *)
Section memcopy.
Import MemCopy.
Implicit Types (l : lane) (b : t) (cb : callback_type) (m : Z → Z).

Definition D : Z := 4096.

(** [ps] are the slots taken and not yet run. *)
Record lane_inv l (ps : list Z) : Prop := {
  li_len : zlen (iocbs l) = D;
  li_slots : idle_iocbs l ++ ps ≡ₚ seqZ 0 D;
  li_idle i cb : zget (iocbs l) i = Some cb → cb_running cb = false;
}.

Definition prep (dir : bool) b : list Z := omap (λ x, if eqb x.1 dir then Some x.2 else None) (preparing b).

Definition backend_inv b : Prop :=
  lane_inv (read_lane b) (prep true b) ∧ lane_inv (write_lane b) (prep false b).

Definition quiescent b : Prop := backend_inv b ∧ preparing b = [].

(** The requests in the slots [ps], and what carrying one out does. *)
Definition started_cb cb : callback_type := mk_cb true (cb_finish cb) (cb_from cb) (cb_to cb).
Definition requests l (ps : list Z) : list callback_type := started_cb <$> omap (zget (iocbs l)) ps.
Definition exec m cb : Z → Z := memcpy m (cb_to cb) (cb_from cb) CACHE_PAGE_SIZE.
Definition raise_all (cbs : list callback_type) (fl : gset Z) : gset Z :=
  foldl (λ fl cb, raise (cb_finish cb) fl) fl cbs.

Lemma slot_range l ps i : lane_inv l ps → i ∈ ps → 0 ≤ i < zlen (iocbs l).
Proof.
  intros Hl Hi. assert (i ∈ seqZ 0 D) as ?%elem_of_seqZ by (rewrite <- (li_slots _ _ Hl); set_solver).
  rewrite (li_len _ _ Hl). lia.
Qed.

Definition started l (ps : list Z) l' : Prop :=
  idle_iocbs l' = idle_iocbs l ∧ zlen (iocbs l') = zlen (iocbs l) ∧
  ∀ j, zget (iocbs l') j = (λ cb, mk_cb (bool_decide (j ∈ ps) || cb_running cb) (cb_finish cb) (cb_from cb) (cb_to cb))
                            <$> zget (iocbs l) j.

Lemma started_nil l : started l [] l.
Proof. split; [done|]. split; [done|]. intros j. by destruct (zget (iocbs l) j) as [[]|]. Qed.

Lemma started_cons l i ps cb l' : zget (iocbs l) i = Some cb →
  started (mk_lane (zset (iocbs l) i (mk_cb true (cb_finish cb) (cb_from cb) (cb_to cb))) (idle_iocbs l)) ps l' →
  started l (i :: ps) l'.
Proof.
  intros Hi (He & Hz & Hj). simpl in *. split; [done|]. split; [by rewrite Hz, zlen_zset|].
  intros j. rewrite Hj, zget_zset. pose proof (zget_range _ _ _ Hi).
  case_decide as Hd.
  - destruct Hd as [<- _]. rewrite Hi. simpl. by rewrite !orb_true_r, (bool_decide_true (i ∈ i :: ps)) by set_solver.
  - destruct (zget (iocbs l) j) as [cj|]; [|done]. simpl. do 2 f_equal. f_equal. apply bool_decide_ext.
    rewrite elem_of_cons. split; [by right|]. intros [->|]; [|done]. by destruct Hd.
Qed.

Lemma start_all_spec ps r w :
  (∀ i, (true, i) ∈ ps → 0 ≤ i < zlen (iocbs r)) → (∀ i, (false, i) ∈ ps → 0 ≤ i < zlen (iocbs w)) →
  ∃ r' w', start_all ps r w = Ok (r', w') ∧
    started r (omap (λ x, if eqb x.1 true then Some x.2 else None) ps) r' ∧
    started w (omap (λ x, if eqb x.1 false then Some x.2 else None) ps) w'.
Proof.
  revert r w. induction ps as [|[d i] ps IH]; intros r w Hr Hw.
  - exists r, w. split; [done|]. split; apply started_nil.
  - destruct d; simpl.
    + destruct (aread_total (iocbs r) i) as (cb & Ha & Hg); [apply Hr; set_solver|].
      unfold start_one. rewrite Ha. simpl. rewrite awrite_total by (apply Hr; set_solver). simpl.
      edestruct IH as (r' & w' & E & Hr' & Hw').
      3: { exists r', w'. split; [exact E|]. split; [|done]. by eapply started_cons. }
      * intros j Hj. simpl. rewrite zlen_zset. apply Hr. set_solver.
      * intros j Hj. apply Hw. set_solver.
    + destruct (aread_total (iocbs w) i) as (cb & Ha & Hg); [apply Hw; set_solver|].
      unfold start_one. rewrite Ha. simpl. rewrite awrite_total by (apply Hw; set_solver). simpl.
      edestruct IH as (r' & w' & E & Hr' & Hw').
      3: { exists r', w'. split; [exact E|]. split; [done|]. by eapply started_cons. }
      * intros j Hj. apply Hr. set_solver.
      * intros j Hj. simpl. rewrite zlen_zset. apply Hw. set_solver.
Qed.

(** The running slots among [i, i+n), in order. *)
Definition is_running (cbs : list callback_type) (i : Z) : bool :=
  match zget cbs i with Some cb => cb_running cb | None => false end.

Fixpoint running (cbs : list callback_type) (i : Z) (n : nat) : list Z :=
  match n with
  | O => []
  | S n' => if is_running cbs i then i :: running cbs (i + 1) n' else running cbs (i + 1) n'
  end.

Lemma elem_of_running cbs i n j : j ∈ running cbs i n ↔ i ≤ j < i + Z.of_nat n ∧ is_running cbs j = true.
Proof.
  revert i. induction n as [|n IH]; intros i; simpl; [rewrite elem_of_nil; lia|].
  destruct (is_running cbs i) eqn:Hr; rewrite ?elem_of_cons, IH.
  - split; [intros [->|[? ?]]; split; done || lia|]. intros [? ?].
    destruct (decide (j = i)) as [->|]; [by left|right]. split; [lia|done].
  - split; intros [H1 H2]; split; try done; [lia|]. destruct (decide (j = i)) as [->|]; [congruence|lia].
Qed.

Lemma NoDup_running cbs i n : NoDup (running cbs i n).
Proof.
  revert i. induction n as [|n IH]; intros i; simpl; [constructor|].
  destruct (is_running cbs i); [|apply IH]. constructor; [|apply IH].
  rewrite elem_of_running. lia.
Qed.

Lemma reap_spec cbs n l m fl i : 0 ≤ i → i + Z.of_nat n ≤ zlen (iocbs l) →
  (∀ j, i ≤ j → zget (iocbs l) j = zget cbs j) →
  ∃ l', reap l m fl i n =
      Ok (l', foldl exec m (omap (zget cbs) (running cbs i n)), raise_all (omap (zget cbs) (running cbs i n)) fl) ∧
    idle_iocbs l' = idle_iocbs l ++ running cbs i n ∧ zlen (iocbs l') = zlen (iocbs l) ∧
    ∀ j cb, zget (iocbs l') j = Some cb →
      if decide (i ≤ j < i + Z.of_nat n) then cb_running cb = false else zget (iocbs l) j = Some cb.
Proof.
  revert l m fl i. induction n as [|n IH]; intros l m fl i Hi Hn Hsame.
  - exists l. simpl. split; [done|]. split; [by rewrite app_nil_r|]. split; [done|].
    intros j cb Hj. by rewrite decide_False by lia.
  - destruct (aread_total (iocbs l) i) as (cb & Ha & Hg); [lia|].
    pose proof Hg as Hg0. rewrite Hsame in Hg0 by lia.
    cbn [reap]. rewrite Ha. cbn [mbind result_bind running]. unfold is_running at 1 2 3. rewrite Hg0.
    destruct (cb_running cb) eqn:Hr.
    + rewrite awrite_total by lia. cbn [mbind result_bind omap list_omap].
      edestruct (IH (mk_lane (zset (iocbs l) i (mk_cb false (cb_finish cb) (cb_from cb) (cb_to cb))) (idle_iocbs l ++ [i])))
        as (l' & E & Hid & Hz & Hj).
      4: { exists l'. rewrite Hg0. split; [exact E|]. simpl in *.
           split; [by rewrite Hid, <- app_assoc|]. split; [by rewrite Hz, zlen_zset|].
           intros j cj Hcj. specialize (Hj j cj Hcj). destruct (decide (i = j)) as [<-|Hne].
           - rewrite decide_False, zget_zset_eq in Hj by lia. rewrite decide_True by lia. by simplify_eq.
           - rewrite zget_zset_ne in Hj by done. repeat case_decide; done || lia. }
      * lia. * simpl. rewrite zlen_zset. lia.
      * intros j Hj. simpl. rewrite zget_zset_ne by lia. apply Hsame. lia.
    + edestruct (IH l) as (l' & E & Hid & Hz & Hj); [| | |exists l'; split; [exact E|]]; try lia.
      * intros j Hj. apply Hsame. lia.
      * split; [done|]. split; [done|]. intros j cj Hcj. specialize (Hj j cj Hcj).
        destruct (decide (i = j)) as [<-|Hne]; [|repeat case_decide; done || lia].
        rewrite decide_False in Hj by lia. rewrite decide_True by lia. congruence.
Qed.

Lemma slots_NoDup l ps : lane_inv l ps → NoDup ps.
Proof.
  intros Hl. assert (Hn : NoDup (idle_iocbs l ++ ps)) by (rewrite (li_slots _ _ Hl); apply NoDup_seqZ).
  by apply NoDup_app in Hn as (_ & _ & ?).
Qed.

Lemma running_started l ps l' : lane_inv l ps → started l ps l' → running (iocbs l') 0 (Z.to_nat D) ≡ₚ ps.
Proof.
  intros Hl (_ & _ & Hs). apply NoDup_Permutation; [apply NoDup_running|by eapply slots_NoDup|].
  intros j. rewrite elem_of_running. unfold is_running. rewrite Hs. split.
  - intros [_ Hr]. destruct (zget (iocbs l) j) as [cb|] eqn:Hj; [|done]. simpl in Hr.
    rewrite (li_idle _ _ Hl _ _ Hj), orb_false_r in Hr. by apply bool_decide_eq_true in Hr.
  - intros Hj. pose proof (slot_range _ _ _ Hl Hj) as Hr. destruct (zget_is_Some _ _ Hr) as [cb ->].
    rewrite (li_len _ _ Hl) in Hr. unfold D in *. simpl. by rewrite bool_decide_true by done.
Qed.

Lemma requests_started l ps l' qs : started l ps l' → (∀ j, j ∈ qs → j ∈ ps) →
  omap (zget (iocbs l')) qs = requests l qs.
Proof.
  intros (_ & _ & Hs). unfold requests. induction qs as [|j qs IH]; intros Hq; [done|].
  simpl. rewrite Hs. destruct (zget (iocbs l) j) as [cb|]; simpl.
  - rewrite bool_decide_true by (apply Hq; set_solver). simpl. f_equal. apply IH. set_solver.
  - apply IH. set_solver.
Qed.

Lemma requests_perm l ps qs : ps ≡ₚ qs → requests l ps ≡ₚ requests l qs.
Proof. intros E. unfold requests. by rewrite E. Qed.

(** Retiring the started slots of a lane. *)
Lemma lane_reap l ps l1 m fl n : n = Z.to_nat D → lane_inv l ps → started l ps l1 → ∃ l' rs,
  reap l1 m fl 0 n = Ok (l', foldl exec m rs, raise_all rs fl) ∧
  rs ≡ₚ requests l ps ∧ lane_inv l' [] ∧ zlen (idle_iocbs l') = D.
Proof.
  intros -> Hl Hs. pose proof Hs as (Hid & Hz & _). pose proof (running_started _ _ _ Hl Hs) as Hrun.
  destruct (reap_spec (iocbs l1) (Z.to_nat D) l1 m fl 0) as (l' & E & Hid' & Hz' & Hj); [lia| |done|].
  { rewrite Hz, (li_len _ _ Hl). unfold D. lia. }
  assert (Hall : idle_iocbs l' ≡ₚ seqZ 0 D) by (by rewrite Hid', Hid, Hrun, (li_slots _ _ Hl)).
  exists l', (requests l (running (iocbs l1) 0 (Z.to_nat D))). split; [|split; [by apply requests_perm|split]].
  - rewrite E. rewrite (requests_started l ps l1); [done|done|]. intros j. by rewrite Hrun.
  - split; [by rewrite Hz', Hz, (li_len _ _ Hl)|by rewrite app_nil_r|].
    intros i cb Hi. specialize (Hj i cb Hi). rewrite decide_True in Hj; [done|].
    apply zget_range in Hi. rewrite Hz', Hz, (li_len _ _ Hl) in Hi. unfold D in *. lia.
  - unfold zlen. rewrite Hall, length_seqZ. done.
Qed.

Lemma elem_of_prep d i b : i ∈ prep d b ↔ (d, i) ∈ preparing b.
Proof.
  unfold prep. rewrite list_elem_of_omap. split.
  - intros ([d' j] & Hin & Hc). simpl in Hc. destruct d, d'; simpl in Hc; by simplify_eq.
  - intros Hin. exists (d, i). split; [done|]. simpl. by rewrite eqb_reflx.
Qed.

Lemma omap_zset {A} (l : list A) i x (ps : list Z) : i ∉ ps → omap (zget (zset l i x)) ps = omap (zget l) ps.
Proof.
  induction ps as [|j ps IH]; intros Hi; [done|]. apply not_elem_of_cons in Hi as [Hij Hi].
  simpl. rewrite zget_zset_ne by done. destruct (zget l j); [f_equal|]; by apply IH.
Qed.

(** Filling in a slot for a request. *)
Lemma take_slot_spec l ps finish from to : lane_inv l ps → idle_iocbs l ≠ [] → ∃ l' i,
  take_slot l finish from to = Ok (Some (l', i)) ∧ lane_inv l' (ps ++ [i]) ∧
  requests l' (ps ++ [i]) = requests l ps ++ [mk_cb true finish from to].
Proof.
  intros Hl Hne. destruct (exists_last Hne) as (idle & i & Ei).
  assert (Hperm : idle ++ ps ++ [i] ≡ₚ seqZ 0 D).
  { rewrite <- (li_slots _ _ Hl), Ei, <- app_assoc. apply Permutation_app_head, Permutation_app_comm. }
  assert (Hnd : i ∉ ps).
  { assert (Hn : NoDup (idle ++ ps ++ [i])) by (rewrite Hperm; apply NoDup_seqZ).
    apply NoDup_app in Hn as (_ & _ & Hn). apply NoDup_app in Hn as (_ & Hn & _).
    intros Hin. apply (Hn i Hin). by apply list_elem_of_singleton. }
  assert (Hr : 0 ≤ i < zlen (iocbs l)).
  { assert (i ∈ seqZ 0 D) as ?%elem_of_seqZ by (rewrite <- Hperm; set_solver). rewrite (li_len _ _ Hl). lia. }
  destruct (aread_total _ _ Hr) as (cb & Ha & Hg).
  assert (Hrun : cb_running cb = false) by (by eapply (li_idle _ _ Hl)).
  exists (mk_lane (zset (iocbs l) i (mk_cb false finish from to)) idle), i.
  unfold take_slot. rewrite Ei, vec_pop_snoc. rewrite (bind_rew _ _ _ Ha).
  rewrite (bind_rew _ _ _ (awrite_total _ _ _ Hr)), Hrun. split; [done|]. split.
  - split; simpl; [by rewrite zlen_zset, (li_len _ _ Hl)|done|].
    intros j cj. rewrite zget_zset. case_decide; [by intros; simplify_eq|apply (li_idle _ _ Hl)].
  - unfold requests. rewrite omap_app, fmap_app. simpl. rewrite zget_zset_eq by done. by rewrite omap_zset.
Qed.

Definition request (dir : bool) b (id data : Z) finish : result (t * bool) :=
  if dir then read b id data finish else write b id data finish.
Definition request_cb (dir : bool) b (id data : Z) finish : callback_type :=
  if dir then mk_cb true finish (mempool b + id * CACHE_PAGE_SIZE) data
  else mk_cb true finish data (mempool b + id * CACHE_PAGE_SIZE).
Definition the_lane (dir : bool) b : lane := if dir then read_lane b else write_lane b.
Definition pending (dir : bool) b : list callback_type := requests (the_lane dir b) (prep dir b).

Lemma prep_snoc d d' i b r w m fl mp :
  prep d (mk mp r w (preparing b ++ [(d', i)]) m fl) = if eqb d' d then prep d b ++ [i] else prep d b.
Proof. unfold prep. simpl. rewrite omap_app. simpl. destruct d, d'; simpl; by rewrite ?app_nil_r. Qed.

Lemma request_ok dir b id data finish : backend_inv b → idle_iocbs (the_lane dir b) ≠ [] → ∃ b',
  request dir b id data finish = Ok (b', true) ∧ backend_inv b' ∧
  mempool b' = mempool b ∧ mem b' = mem b ∧ flags b' = flags b ∧
  pending dir b' = pending dir b ++ [request_cb dir b id data finish] ∧
  pending (negb dir) b' = pending (negb dir) b.
Proof.
  intros [Hr Hw] Hne. destruct dir; simpl in Hne.
  - destruct (take_slot_spec _ _ finish (mempool b + id * CACHE_PAGE_SIZE) data Hr Hne) as (l' & i & E & Hl' & Hq).
    simpl. unfold read. rewrite (bind_rew _ _ _ E). eexists. split; [done|].
    unfold backend_inv, pending. simpl. rewrite !prep_snoc. simpl. by split_and!.
  - destruct (take_slot_spec _ _ finish data (mempool b + id * CACHE_PAGE_SIZE) Hw Hne) as (l' & i & E & Hl' & Hq).
    simpl. unfold write. rewrite (bind_rew _ _ _ E). eexists. split; [done|].
    unfold backend_inv, pending. simpl. rewrite !prep_snoc. simpl. by split_and!.
Qed.

Lemma quiescent_idle dir b : quiescent b → idle_iocbs (the_lane dir b) ≠ [].
Proof.
  intros [[Hr Hw] Hp].
  assert (Hl : lane_inv (the_lane dir b) []).
  { unfold prep in Hr, Hw. rewrite Hp in Hr, Hw. by destruct dir. }
  pose proof (li_slots _ _ Hl) as Hs. rewrite app_nil_r in Hs. intros E. rewrite E in Hs.
  apply Permutation_nil_l in Hs. discriminate Hs.
Qed.

Lemma progress_ok b : backend_inv b → ∃ b' rs ws,
  progress b = Ok (b', false) ∧ quiescent b' ∧ mempool b' = mempool b ∧
  rs ≡ₚ pending true b ∧ ws ≡ₚ pending false b ∧
  mem b' = foldl exec (mem b) (rs ++ ws) ∧ flags b' = raise_all (rs ++ ws) (flags b).
Proof.
  intros [Hr Hw].
  destruct (start_all_spec (preparing b) (read_lane b) (write_lane b)) as (r1 & w1 & Es & Sr & Sw).
  { intros i Hi. eapply slot_range; [exact Hr|]. by apply elem_of_prep. }
  { intros i Hi. eapply slot_range; [exact Hw|]. by apply elem_of_prep. }
  destruct (lane_reap _ _ _ (mem b) (flags b) (Z.to_nat MAX_READ_DEPTH) eq_refl Hr Sr) as (r2 & rs & Er & Prs & Ir & Nr).
  destruct (lane_reap _ _ _ (foldl exec (mem b) rs) (raise_all rs (flags b)) (Z.to_nat MAX_WRITE_DEPTH) eq_refl Hw Sw) as (w2 & ws & Ew & Pws & Iw & Nw).
  exists (mk (mempool b) r2 w2 [] (foldl exec (mem b) (rs ++ ws)) (raise_all (rs ++ ws) (flags b))), rs, ws.
  unfold progress. rewrite (bind_rew _ _ _ Es). cbv beta iota zeta.
  rewrite (bind_rew _ _ _ Er). cbv beta iota zeta. rewrite (bind_rew _ _ _ Ew). cbv beta iota zeta.
  change MAX_READ_DEPTH with D. change MAX_WRITE_DEPTH with D.
  rewrite Nr, Nw, Z.eqb_refl. unfold raise_all. rewrite !foldl_app. by split_and!.
Qed.

(** [progress] of [MemCopy] carries out every request accepted since the last
    one exactly once, the reads before the writes, raises exactly their flags,
    and leaves every slot idle. *)
Theorem memcopy_progress b : backend_inv b → ∃ b' rs ws,
  progress b = Ok (b', false) ∧ quiescent b' ∧ mempool b' = mempool b ∧
  rs ≡ₚ pending true b ∧ ws ≡ₚ pending false b ∧
  mem b' = foldl exec (mem b) (rs ++ ws) ∧ flags b' = raise_all (rs ++ ws) (flags b).
Proof. apply progress_ok. Qed.

(** A request is accepted at once, or by the second call: the refused one
    makes progress and frees every slot.  So the callers' retry loops end. *)
Lemma memcopy_retry dir b id data finish : backend_inv b → ∃ b',
  (request dir b id data finish = Ok (b', true) ∨
   ∃ b1, request dir b id data finish = Ok (b1, false) ∧ request dir b1 id data finish = Ok (b', true)) ∧
  backend_inv b' ∧ request_cb dir b id data finish ∈ pending dir b'.
Proof.
  intros Hi. destruct (decide (idle_iocbs (the_lane dir b) = [])) as [He|Hne].
  - destruct (progress_ok b Hi) as (b1 & rs & ws & Ep & Hq & Hm & _).
    destruct (request_ok dir b1 id data finish) as (b' & E & Hi' & _ & _ & _ & Hp & _); [apply Hq|by apply quiescent_idle|].
    exists b'. split; [right; exists b1; split; [|done]|].
    + destruct dir; simpl in *; unfold read, write, take_slot; rewrite He; simpl; by rewrite Ep.
    + split; [done|]. rewrite Hp. unfold request_cb. rewrite Hm. set_solver.
  - destruct (request_ok dir b id data finish Hi Hne) as (b' & E & Hi' & _ & _ & _ & Hp & _).
    exists b'. split; [by left|]. split; [done|]. rewrite Hp. set_solver.
Qed.

(** One request on an idle backend, and its completion. *)
Lemma single_request dir b id data finish : quiescent b → ∃ b1 b2,
  request dir b id data finish = Ok (b1, true) ∧ progress b1 = Ok (b2, false) ∧ quiescent b2 ∧
  mempool b2 = mempool b ∧ mem b2 = exec (mem b) (request_cb dir b id data finish) ∧
  flags b2 = raise finish (flags b).
Proof.
  intros Hq. destruct (request_ok dir b id data finish) as (b1 & E & Hi1 & Hm1 & Hmem1 & Hf1 & Hp1 & Hp1');
    [apply Hq|by apply quiescent_idle|].
  assert (Hn : ∀ d, pending d b = []).
  { intros d. unfold pending, prep. destruct Hq as [_ ->]. done. }
  rewrite Hn in Hp1, Hp1'. destruct (progress_ok b1 Hi1) as (b2 & rs & ws & Ep & Hq2 & Hm2 & Hrs & Hws & Hmem2 & Hf2).
  exists b1, b2. split; [done|]. split; [done|]. split; [done|]. split; [congruence|].
  rewrite Hmem2, Hf2, Hmem1, Hf1. destruct dir; simpl in Hp1, Hp1'; rewrite Hp1 in *; rewrite Hp1' in *;
    apply Permutation_nil_r in Hrs || apply Permutation_nil_r in Hws;
    apply Permutation_singleton_r in Hws || apply Permutation_singleton_r in Hrs; by subst.
Qed.

(** What is written to a block is read back: a write, a progress, a read and
    a progress on an idle backend copy the page at [a] to [c], and set both
    flags. *)
Lemma memcopy_roundtrip b id a c f g : quiescent b → ∃ b1 b2 b3 b4,
  write b id a (Some f) = Ok (b1, true) ∧ progress b1 = Ok (b2, false) ∧
  read b2 id c (Some g) = Ok (b3, true) ∧ progress b3 = Ok (b4, false) ∧ quiescent b4 ∧
  flags b4 = {[f; g]} ∪ flags b ∧
  ∀ o, 0 ≤ o < CACHE_PAGE_SIZE → mem b4 (c + o) = mem b (a + o).
Proof.
  intros Hq. destruct (single_request false b id a (Some f) Hq) as (b1 & b2 & E1 & E2 & Hq2 & Hmp2 & Hm2 & Hf2).
  destruct (single_request true b2 id c (Some g) Hq2) as (b3 & b4 & E3 & E4 & Hq4 & Hmp4 & Hm4 & Hf4).
  exists b1, b2, b3, b4. do 5 (split; [done|]). split; [rewrite Hf4, Hf2; simpl; set_solver|].
  intros o Ho. rewrite Hm4, Hm2. unfold exec, memcpy, request_cb. simpl. rewrite Hmp2.
  rewrite decide_True by lia. rewrite decide_True by lia. f_equal. lia.
Qed.

Lemma init_quiescent mp m : quiescent (init mp m).
Proof.
  assert (Hl : lane_inv (idle_lane D) []).
  { unfold idle_lane. split; cbn [iocbs idle_iocbs].
    - apply zlen_replicate. - by rewrite app_nil_r. - by intros i cb ->%zget_replicate_inv. }
  split; [|done]. split; exact Hl.
Qed.

Lemma memcopy_progress_witness : ∃ b', progress (init 0 (λ a, a)) = Ok (b', false).
Proof. destruct (memcopy_progress (init 0 (λ a, a))) as (b' & _ & _ & E & _); [apply init_quiescent|by exists b']. Defined.

End memcopy.

(** ** [AIO]: slots and file ranges *)
Section placement.
Context (p : RoundRobinPartitioner) (Hwf : partitioner_wf p).

(** Where the partitioner puts a block: the file and the byte offset in it. *)
Definition place (id : Z) : Z * Z := let '(file, block) := locate p id in (file, block * CACHE_PAGE_SIZE).

Lemma place_range id : 0 ≤ id < num_vpages p →
  0 ≤ (place id).1 < num_partitions p ∧ 0 ≤ (place id).2 ∧
  (place id).2 + CACHE_PAGE_SIZE ≤ num_blocks p (place id).1 * CACHE_PAGE_SIZE.
Proof.
  intros Hid. destruct (locate_range p Hwf id Hid) as [Hf Hb]. unfold place.
  destruct (locate p id) as [file block]. simpl in *. assert (0 < CACHE_PAGE_SIZE) by done.
  split; [done|]. nia.
Qed.

Lemma place_disjoint id id' : 0 ≤ id < num_vpages p → 0 ≤ id' < num_vpages p → id ≠ id' →
  (place id).1 = (place id').1 →
  (place id).2 + CACHE_PAGE_SIZE ≤ (place id').2 ∨ (place id').2 + CACHE_PAGE_SIZE ≤ (place id).2.
Proof.
  intros Hid Hid' Hne Hfile.
  assert (Hl : locate p id ≠ locate p id').
  { intros E. apply Hne. rewrite <- (vpage_of_locate p Hwf id Hid), <- (vpage_of_locate p Hwf id' Hid'). by rewrite E. }
  unfold place in *. destruct (locate p id) as [f b], (locate p id') as [f' b']. simpl in *. subst f'.
  assert (b ≠ b') by congruence. assert (0 < CACHE_PAGE_SIZE) by done. nia.
Qed.
End placement.

Section aio.
Import Aio.
Context {K : Type} (io_submit : K → list (Z * iocb) → K * Z) (io_getevents : K → Z → K * list Z).
(** The slots the kernel is working on; a submission that is accepted in full
    adds its slots, every completion is reported once. *)
Context (inflight : K → list Z).
Context (Hsubmit : ∀ k reqs k', io_submit k reqs = (k', zlen reqs) → inflight k' ≡ₚ inflight k ++ reqs.*1).
Context (Hevents : ∀ k n k' evs, io_getevents k n = (k', evs) → inflight k ≡ₚ evs ++ inflight k').

Record aio_inv (b : t K) : Prop := {
  ai_iocbs : zlen (iocbs b) = MAX_DEPTH;
  ai_finishes : zlen (finishes b) = MAX_DEPTH;
  ai_slots : idle_iocbs b ++ preparing_iocbs b ++ inflight (kernel b) ≡ₚ seqZ 0 MAX_DEPTH;
  ai_part : partitioner_wf (partitioner b) ∧ num_vpages (partitioner b) = num_blocks b;
  ai_fds : zlen (fds b) = num_partitions (partitioner b);
}.

Lemma aio_slot_range b i : aio_inv b → i ∈ idle_iocbs b ++ preparing_iocbs b ++ inflight (kernel b) →
  0 ≤ i < MAX_DEPTH.
Proof. intros Hi. rewrite (ai_slots _ Hi), elem_of_seqZ. lia. Qed.

Lemma prepared_slots b : aio_inv b → (prepared b).*1 = preparing_iocbs b.
Proof.
  intros Hi. unfold prepared.
  assert (Hr : ∀ i, i ∈ preparing_iocbs b → ∃ c, zget (iocbs b) i = Some c).
  { intros i Hin. apply zget_is_Some. rewrite (ai_iocbs _ Hi). apply (aio_slot_range b i Hi). set_solver. }
  induction (preparing_iocbs b) as [|i sl IH]; [done|]. simpl.
  destruct (Hr i) as [c ->]; [set_solver|]. simpl. f_equal. apply IH. set_solver.
Qed.

Lemma reap_ok (evs : list Z) fin idle fl : (∀ i, i ∈ evs → 0 ≤ i < zlen fin) →
  ∃ fl', Aio.reap evs fin idle fl = Ok (idle ++ evs, fl') ∧ fl ⊆ fl' ∧
    ∀ i f, i ∈ evs → zget fin i = Some (Some f) → f ∈ fl'.
Proof.
  revert idle fl. induction evs as [|i evs IH]; intros idle fl Hr; simpl.
  - exists fl. rewrite app_nil_r. split; [done|]. split; [done|]. intros i f Hi. by apply elem_of_nil in Hi.
  - destruct (aread_total fin i) as (f & Ha & Hg); [apply Hr; set_solver|]. rewrite (bind_rew _ _ _ Ha).
    destruct (IH (idle ++ [i]) (raise f fl)) as (fl' & E & Hsub & Hf); [set_solver|].
    exists fl'. rewrite E, <- app_assoc. split; [done|]. split.
    + destruct f; simpl in *; set_solver.
    + intros j f' [->|Hj]%elem_of_cons Hg'; [|by apply (Hf j)]. rewrite Hg in Hg'. simplify_eq. simpl in Hsub. set_solver.
Qed.

Lemma aio_progress_ok b : aio_inv b →
  progress io_submit io_getevents b = Err (Throw "AIO Submit Error") ∨
  ∃ b' more, progress io_submit io_getevents b = Ok (b', more) ∧ aio_inv b' ∧ preparing_iocbs b' = [] ∧
    flags b ⊆ flags b' ∧ idle_iocbs b ⊆ idle_iocbs b' ∧
    (∀ i f, i ∈ idle_iocbs b' → i ∉ idle_iocbs b → zget (finishes b) i = Some (Some f) → f ∈ flags b').
Proof.
  intros Hi. unfold progress.
  assert (Hs : (∃ k, submit_prepared io_submit b = Ok k ∧ inflight k ≡ₚ preparing_iocbs b ++ inflight (kernel b)) ∨
    submit_prepared io_submit b = Err (Throw "AIO Submit Error")).
  { unfold submit_prepared. destruct (Z.ltb_spec 0 (zlen (preparing_iocbs b))) as [Hz|Hz].
    - destruct (io_submit (kernel b) (prepared b)) as [k n] eqn:Es.
      destruct (Z.eqb_spec n (zlen (preparing_iocbs b))) as [->|]; [left|by right].
      exists k. split; [done|]. rewrite <- (prepared_slots b Hi) in Es.
      assert (El : zlen (prepared b).*1 = zlen (prepared b)) by (unfold zlen; by rewrite length_fmap).
      rewrite El in Es. rewrite (Hsubmit _ _ _ Es), (prepared_slots b Hi). apply Permutation_app_comm.
    - left. exists (kernel b). unfold zlen in Hz. destruct (preparing_iocbs b); [done|simpl in Hz; lia]. }
  destruct Hs as [(k & -> & Hk)| ->]; [right|by left]. cbn [mbind result_bind].
  destruct (io_getevents k MAX_DEPTH) as [k' evs] eqn:Ee. pose proof (Hevents _ _ _ _ Ee) as Hev.
  assert (Hin : ∀ i, i ∈ evs → i ∈ preparing_iocbs b ++ inflight (kernel b)) by (intros i Hx; rewrite <- Hk, Hev; set_solver).
  destruct (reap_ok evs (finishes b) (idle_iocbs b) (flags b)) as (fl' & -> & Hsub & Hf).
  { intros i Hx. rewrite (ai_finishes _ Hi). apply (aio_slot_range b i Hi). apply elem_of_app. right. by apply Hin. }
  cbn [mbind result_bind]. eexists _, _. split; [done|]. split; [|split; [done|split; [done|split; [set_solver|]]]].
  - destruct Hi as [? ? Hsl ? ?]. split; try done. simpl. rewrite <- app_assoc, <- Hev, Hk. done.
  - intros i f. simpl. rewrite elem_of_app. intros [?|?] ? ?; [done|by apply (Hf i)].
Qed.

(** C39: the slots of [AIO] are never used twice: a request that is accepted gets a
    slot that is neither being prepared nor with the kernel, and addresses the
    block's place in its file, inside the file. *)
Theorem aio_request is_write b id data finish : aio_inv b → 0 ≤ id < num_blocks b → data mod CACHE_PAGE_SIZE = 0 →
  idle_iocbs b ≠ [] → ∃ b' i fd file off, place (partitioner b) id = (file, off) ∧
  enqueue io_submit io_getevents is_write b id data finish = Ok (b', true) ∧ aio_inv b' ∧
  preparing_iocbs b' = preparing_iocbs b ++ [i] ∧ (i ∉ preparing_iocbs b ++ inflight (kernel b)) ∧
  zget (fds b) file = Some fd ∧ zget (iocbs b') i = Some (mk_iocb is_write fd data CACHE_PAGE_SIZE off) ∧
  zget (finishes b') i = Some finish ∧
  off + CACHE_PAGE_SIZE ≤ Util.num_blocks (partitioner b) file * CACHE_PAGE_SIZE.
Proof.
  intros Hi Hid Ha Hne. destruct (ai_part _ Hi) as [Hwf Hnv].
  rewrite <- Hnv in Hid. destruct (place_range _ Hwf id Hid) as (Hf & Ho & Htop). unfold place in *.
  destruct (exists_last Hne) as (idle & i & Ei).
  assert (Hr : 0 ≤ i < MAX_DEPTH) by (apply (aio_slot_range b i Hi); rewrite Ei; set_solver).
  unfold enqueue. rewrite (proj2 (Z.ltb_lt id _)), (proj2 (Z.eqb_eq _ 0)) by (done || lia).
  rewrite Ei, vec_pop_snoc. cbn [andb assert mbind result_bind].
  destruct (locate (partitioner b) id) as [file block]. simpl in Hf, Ho, Htop.
  destruct (aread_total (fds b) file) as (fd & Hfd & Hgfd); [by rewrite (ai_fds _ Hi)|].
  rewrite (bind_rew _ _ _ Hfd).
  rewrite (bind_rew _ _ _ (awrite_total (iocbs b) i _ ltac:(rewrite (ai_iocbs _ Hi); exact Hr))).
  rewrite (bind_rew _ _ _ (awrite_total (finishes b) i _ ltac:(rewrite (ai_finishes _ Hi); exact Hr))).
  eexists _, i, fd, file, _. split; [done|]. split; [done|]. pose proof (ai_slots _ Hi) as Hs. rewrite Ei, <- app_assoc in Hs. split.
  - split; simpl; try apply Hi.
    + rewrite zlen_zset. apply Hi. + rewrite zlen_zset. apply Hi.
    + rewrite <- Hs. rewrite <- (app_assoc (preparing_iocbs b)). apply Permutation_app_head.
      rewrite (app_assoc (preparing_iocbs b)), (Permutation_app_comm (preparing_iocbs b)). by rewrite <- app_assoc.
  - split; [done|]. split.
    + assert (Hn : NoDup (idle ++ [i] ++ preparing_iocbs b ++ inflight (kernel b))) by (rewrite Hs; apply NoDup_seqZ).
      apply NoDup_app in Hn as (_ & _ & Hn). by apply NoDup_cons in Hn as [? _].
    + split; [done|]. simpl. rewrite !zget_zset_eq; [done|by rewrite (ai_finishes _ Hi)|by rewrite (ai_iocbs _ Hi)].
Qed.

(** [progress] of [AIO] either throws because the kernel took only a part of
    the requests, or hands every prepared request over, takes back the slots of
    the completed ones and raises their flags. *)
Lemma aio_progress b : aio_inv b →
  progress io_submit io_getevents b = Err (Throw "AIO Submit Error") ∨
  ∃ b' more, progress io_submit io_getevents b = Ok (b', more) ∧ aio_inv b' ∧ preparing_iocbs b' = [] ∧
    flags b ⊆ flags b' ∧ idle_iocbs b ⊆ idle_iocbs b' ∧
    (∀ i f, i ∈ idle_iocbs b' → i ∉ idle_iocbs b → zget (finishes b) i = Some (Some f) → f ∈ flags b').
Proof. apply aio_progress_ok. Qed.
End aio.

(** A kernel that completes everything at the next call. *)
Definition eager_submit (k : list Z) (reqs : list (Z * Aio.iocb)) : list Z * Z := (k ++ reqs.*1, zlen reqs).
Definition eager_events (k : list Z) (n : Z) : list Z * list Z := ([], k).
Definition eager_aio : Aio.t (list Z) :=
  Aio.mk 5 [3; 4] (Build_RoundRobinPartitioner 2 5) (replicate (Z.to_nat Aio.MAX_DEPTH) Aio.no_iocb)
    (replicate (Z.to_nat Aio.MAX_DEPTH) None) (seqZ 0 Aio.MAX_DEPTH) [] [] ∅.

Lemma eager_aio_inv : aio_inv id eager_aio.
Proof.
  split; unfold eager_aio; cbn [Aio.iocbs Aio.finishes Aio.idle_iocbs Aio.preparing_iocbs Aio.kernel Aio.partitioner
    Aio.num_blocks Aio.fds].
  - apply zlen_replicate. - apply zlen_replicate. - by rewrite !app_nil_r. - done. - done.
Qed.

Lemma eager_submit_ok k reqs k' : eager_submit k reqs = (k', zlen reqs) → id k' ≡ₚ id k ++ reqs.*1.
Proof. by intros [= <-]. Qed.

Lemma eager_events_ok k n k' evs : eager_events k n = (k', evs) → id k ≡ₚ evs ++ id k'.
Proof. intros [= <- <-]. by rewrite app_nil_r. Qed.

Lemma aio_request_witness : ∃ b' i,
  Aio.enqueue eager_submit eager_events true eager_aio 3 8192 (Some 9) = Ok (b', true) ∧
  zget (Aio.iocbs b') i = Some (Aio.mk_iocb true 4 8192 4096 4096).
Proof.
  destruct (aio_request eager_submit eager_events id eager_submit_ok eager_events_ok true eager_aio 3 8192 (Some 9) eager_aio_inv) as (b' & i & fd & file & off & [= <- <-] & E & _ & _ & _ & Hfd & Hc & _); [done|done|done|].
  injection Hfd as <-. by exists b', i.
Defined.

(** ** [SPDK]: sectors *)

(** C40: a device that passes the check of the constructor has room for its share:
    the sectors of every block lie in the namespace, at or after the requested
    base, a block is exactly a page, and distinct blocks do not overlap. *)
Theorem spdk_sectors_in_namespace ns ns_size blocks byte_base sector block block' :
  Spdk.device_ok ns_size blocks byte_base sector = true → 0 < sector → 0 ≤ byte_base →
  blocks * CACHE_PAGE_SIZE + byte_base < 2 ^ 64 → 0 ≤ block < blocks → 0 ≤ block' < blocks →
  let h := Spdk.make_handle ns byte_base sector in
  let first b := Spdk.sector_base h + b * Spdk.num_sector_per_page h in
  Spdk.num_sector_per_page h * sector = CACHE_PAGE_SIZE ∧ byte_base ≤ first block * sector ∧
  (first block + Spdk.num_sector_per_page h) * sector ≤ ns_size ∧
  (block < block' → first block + Spdk.num_sector_per_page h ≤ first block').
Proof.
  unfold Spdk.device_ok, CACHE_PAGE_SIZE, CACHE_PAGE_BITS. change (Z.shiftl 1 12) with 4096.
  intros Hok Hs Hb Hov Hbl Hbl'. apply negb_true_iff in Hok.
  apply orb_false_iff in Hok as [Hok Hal]. apply orb_false_iff in Hok as [Hok Hdiv]. apply orb_false_iff in Hok as [Hsz Hle].
  apply negb_false_iff, Z.eqb_eq in Hal, Hdiv. apply Z.ltb_ge in Hsz, Hle. rewrite w64_small in Hsz by lia.
  unfold Spdk.make_handle. cbn [Spdk.sector_base Spdk.num_sector_per_page]. change CACHE_PAGE_SIZE with 4096.
  apply Z.mod_divide in Hdiv as [q Hq]; [|lia]. apply Z.mod_divide in Hal as [r Hr]; [|lia].
  rewrite Hq, Z.div_mul by lia.
  assert (Eb : (byte_base + sector - 1) / sector = r * q).
  { rewrite Hr, Hq. symmetry. apply Z.div_unique with (sector - 1); [lia|]. ring. }
  rewrite Eb. assert (0 < q) by nia. split; [done|]. split; [nia|]. split; [|nia].
  assert (Hfit : (r * q + block * q + q) * sector = byte_base + block * 4096 + 4096) by (rewrite Hr, Hq; ring).
  nia.
Qed.

Lemma spdk_sectors_in_namespace_witness :
  let h := Spdk.make_handle 1 8192 512 in
  (Spdk.sector_base h + 2 * Spdk.num_sector_per_page h + Spdk.num_sector_per_page h) * 512 ≤ 32768.
Proof. apply (spdk_sectors_in_namespace 1 32768 6 8192 512 2 3); done. Defined.
