(* ===== verification/PartitionType.v ===== *)
(** * Messages between clients and servers

    [include/partition_type.hpp] (default build: [PURE_THREADING]).  A message is
    one cache line: a header word and the words of a union of three requests or
    three responses.  Messages are kept as their 64-bit words, since the copy
    into a shared slot publishes them word by word. *)
From S2P Require Import Prelude Util.

Open Scope Z_scope.

Definition MAX_THREADS : Z := 2048.
Definition MESSAGE_SIZE : Z := CACHELINE_SIZE * 1.
(** [sizeof(request_type)] in words, and requests per message. *)
Definition REQUEST_WORDS : Z := 2.
Definition MAX_COMMS : Z := MESSAGE_SIZE / (8 * REQUEST_WORDS) - 1.
Definition FIBER_CHANNEL_DEPTH : Z := MAX_THREADS * MESSAGE_SIZE / 8.
Definition HYBRID_SPIN_THRESHOLD : Z := Z.shiftl 1 0.

Inductive request_kind := None_ | Pin | Unpin | DirtyUnpin | NotifyDirectPin | NotifyDirectUnpin.

#[export] Instance request_kind_eq_dec : EqDecision request_kind.
Proof. solve_decision. Defined.

(** [resp] is the address the server writes a late response to, 0 for none;
    [page_id] has 52 bits. *)
Record request_type := mk_request { r_type : request_kind; r_page_id : Z; r_resp : Z }.

Definition kind_code (k : request_kind) : Z :=
  match k with
  | None_ => 0 | Pin => 1 | Unpin => 2 | DirtyUnpin => 3 | NotifyDirectPin => 4 | NotifyDirectUnpin => 5
  end.

Definition code_kind (z : Z) : option request_kind :=
  match z with
  | 0 => Some None_ | 1 => Some Pin | 2 => Some Unpin | 3 => Some DirtyUnpin
  | 4 => Some NotifyDirectPin | 5 => Some NotifyDirectUnpin | _ => None
  end.

Definition PAGE_ID_BITS : Z := 64 - CACHE_PAGE_BITS.

(** The first word of a request: the type in its low byte, the page id above. *)
Definition pack_request (r : request_type) : Z :=
  Z.lor (kind_code (r_type r)) (Z.shiftl (r_page_id r mod 2 ^ PAGE_ID_BITS) 8).

Definition unpack_kind (w : Z) : option request_kind := code_kind (w mod 2 ^ 8).
Definition unpack_page (w : Z) : Z := Z.shiftr w 8 mod 2 ^ PAGE_ID_BITS.

(** Word 0 of a message: [toggle] in the low byte, [num_comm] in the next. *)
Definition header_word (toggle : bool) (num_comm : Z) : Z := Z.lor (Z.b2z toggle) (Z.shiftl (num_comm mod 2 ^ 8) 8).
Definition h_toggle (w : Z) : bool := negb (w mod 2 ^ 8 =? 0).
Definition h_num_comm (w : Z) : Z := Z.shiftr w 8 mod 2 ^ 8.

Definition message := list Z.
Definition MESSAGE_WORDS : Z := MESSAGE_SIZE / 8.
Definition empty_message : message := replicate (Z.to_nat MESSAGE_WORDS) 0.

Definition get_header (m : message) : result Z := aread m 0.
Definition set_header (m : message) (w : Z) : result message := awrite m 0 w.

(** [reqs[i]] and [resps[i]] share the words after the header. *)
Definition get_req (m : message) (i : Z) : result request_type :=
  a ← aread m (1 + i * REQUEST_WORDS);
  b ← aread m (1 + i * REQUEST_WORDS + 1);
  match unpack_kind a with
  | Some k => Ok (mk_request k (unpack_page a) b)
  | None => Err Undefined
  end.
Definition set_req (m : message) (i : Z) (r : request_type) : result message :=
  m ← awrite m (1 + i * REQUEST_WORDS) (pack_request r);
  awrite m (1 + i * REQUEST_WORDS + 1) (r_resp r).
Definition get_resp (m : message) (i : Z) : result Z := aread m (1 + i).
Definition set_resp (m : message) (i : Z) (pointer : Z) : result message := awrite m (1 + i) pointer.

(** [operator=]: the words it writes, in order; the header is last. *)
Definition copy_order : list Z := seqZ 1 (MAX_COMMS * REQUEST_WORDS) ++ [0].
Definition copy_word (src dst : message) (i : Z) : message :=
  match zget src i with Some w => zset dst i w | None => dst end.
Definition copy_message (src dst : message) : message := foldl (copy_word src) dst copy_order.

(** ** Properties *)
Lemma code_kind_code k : code_kind (kind_code k) = Some k.
Proof. by destruct k. Qed.

Lemma kind_code_range k : 0 ≤ kind_code k < 2 ^ 8.
Proof. by destruct k. Qed.

Lemma pack_low a b : 0 ≤ a < 2 ^ 8 → Z.lor a (Z.shiftl b 8) mod 2 ^ 8 = a.
Proof.
  intros Ha. rewrite <- Z.land_ones, Z.land_lor_distr_l, !Z.land_ones by lia.
  rewrite Z.shiftl_mul_pow2, Z.mod_mul, Z.lor_0_r by lia. by apply Z.mod_small.
Qed.

Lemma pack_high a b : 0 ≤ a < 2 ^ 8 → Z.shiftr (Z.lor a (Z.shiftl b 8)) 8 = b.
Proof.
  intros Ha. rewrite Z.shiftr_lor, Z.shiftr_shiftl_l by lia. rewrite Z.sub_diag, Z.shiftl_0_r.
  rewrite Z.shiftr_div_pow2, Z.div_small by lia. apply Z.lor_0_l.
Qed.

Lemma header_word_toggle t n : h_toggle (header_word t n) = t.
Proof. unfold h_toggle, header_word. rewrite pack_low by (by destruct t). by destruct t. Qed.

Lemma header_word_num t n : 0 ≤ n < 2 ^ 8 → h_num_comm (header_word t n) = n.
Proof.
  intros Hn. unfold h_num_comm, header_word. rewrite pack_high by (by destruct t).
  by rewrite !Z.mod_small by (rewrite ?Z.mod_small; lia).
Qed.

(** *** Copying a message *)
Lemma copy_order_eq : copy_order = [1; 2; 3; 4; 5; 6; 0].
Proof. reflexivity. Qed.

Lemma copy_word_len src dst i : zlen (copy_word src dst i) = zlen dst.
Proof. unfold copy_word. destruct (zget src i); [apply zlen_zset|done]. Qed.

Lemma copy_word_get src dst i j : zlen src = MESSAGE_WORDS → zlen dst = MESSAGE_WORDS → 0 ≤ i < 7 →
  zget (copy_word src dst i) j = if decide (j = i) then zget src i else zget dst j.
Proof.
  unfold MESSAGE_WORDS. change (MESSAGE_SIZE / 8) with 8. intros Hs Hd Hi. unfold copy_word.
  destruct (zget_is_Some src i) as [w ->]; [lia|]. rewrite zget_zset.
  repeat case_decide; try done; lia.
Qed.

Lemma copy_words_get src l dst j : zlen src = MESSAGE_WORDS → zlen dst = MESSAGE_WORDS → (∀ i, i ∈ l → 0 ≤ i < 7) →
  zget (foldl (copy_word src) dst l) j = if decide (j ∈ l) then zget src j else zget dst j.
Proof.
  intros Hs. revert dst. induction l as [|i l IH]; intros dst Hd Hl; [by rewrite decide_False by apply not_elem_of_nil|].
  cbn [foldl]. assert (0 ≤ i < 7) as Hi by (apply Hl; set_solver).
  rewrite IH; [|by rewrite copy_word_len|set_solver]. rewrite (copy_word_get src dst i j Hs Hd Hi).
  repeat case_decide; subst; set_solver.
Qed.

(** The words a copy takes over. *)
Lemma copy_message_get src dst j : zlen src = MESSAGE_WORDS → zlen dst = MESSAGE_WORDS →
  zget (copy_message src dst) j = if decide (0 ≤ j < 7) then zget src j else zget dst j.
Proof.
  intros Hs Hd. unfold copy_message. rewrite copy_order_eq, copy_words_get; [|done|done|intros i; set_unfold; lia].
  repeat case_decide; try done; exfalso; set_unfold; lia.
Qed.

Lemma copy_message_len src dst : zlen (copy_message src dst) = zlen dst.
Proof. unfold copy_message. generalize copy_order as l. intros l. revert dst. induction l as [|i l IH]; intros dst; [done|]. cbn. by rewrite IH, copy_word_len. Qed.

(** A request written to a message is read back as it was, for every page id
    of the 52 bits an address leaves, and writing one leaves the others. *)
Theorem request_roundtrip m i j r : zlen m = MESSAGE_WORDS → 0 ≤ i < MAX_COMMS → 0 ≤ j < MAX_COMMS →
  0 ≤ r_page_id r < 2 ^ PAGE_ID_BITS →
  ∃ m', set_req m i r = Ok m' ∧ zlen m' = MESSAGE_WORDS ∧
    get_req m' j = if decide (j = i) then Ok r else get_req m j.
Proof.
  change MAX_COMMS with 3. change MESSAGE_WORDS with 8. intros Hm Hi Hj Hr.
  unfold set_req, REQUEST_WORDS. rewrite awrite_total by lia. cbn [mbind result_bind].
  rewrite awrite_total by (rewrite zlen_zset; lia).
  eexists. split; [done|]. split; [by rewrite !zlen_zset|].
  unfold get_req, REQUEST_WORDS, aread. rewrite !zget_zset, !zlen_zset. destruct (decide (j = i)) as [->|Hne].
  - rewrite (decide_False (P := 1 + i * 2 + 1 = 1 + i * 2 ∧ _)) by lia.
    rewrite !decide_True by lia. cbn [mbind result_bind].
    unfold unpack_kind, unpack_page, pack_request.
    rewrite pack_low, code_kind_code, pack_high by apply kind_code_range.
    rewrite (Z.mod_small (r_page_id r)), (Z.mod_small (r_page_id r)) by done. by destruct r.
  - rewrite !decide_False by lia. done.
Qed.

Lemma request_roundtrip_witness : ∃ m', set_req empty_message 1 (mk_request DirtyUnpin 12345 77) = Ok m' ∧
  get_req m' 1 = Ok (mk_request DirtyUnpin 12345 77).
Proof.
  destruct (request_roundtrip empty_message 1 1 (mk_request DirtyUnpin 12345 77)) as (m' & E & _ & G); try done.
  by exists m'.
Defined.
