(* ===== verification/PartitionClient.v ===== *)
(** * The client side of a partition

    [class PartitionClient] of [include/partition_client.hpp]: requests are
    batched per server, a batch is published in the client's slot of the server
    and the answer is awaited by polling the client's response slot.  What the
    other threads do while the client spins is the parameter [env]. *)
From S2P Require Import Prelude Util PartitionType.
From stdpp Require Import list.

Open Scope Z_scope.

(** The slots, by server and client, and the memory responses are stored to. *)
Record shared := mk_shared {
  requests : list (list message);
  responses : list (list message);
  resp_memory : Z → Z;
}.

Record message_status_type := mk_status { num_requests : Z; s_responses : list Z }.
Definition no_status : message_status_type := mk_status 0 (replicate (Z.to_nat MAX_COMMS) 0).

Record client := mk_client {
  cid : Z;
  local_message_pool : list message;
  local_message_statuses : list message_status_type;
  local_message_processing : list bool;
  toggles : list bool;
  epoches : list Z;
}.

(** A client with the slots and the rest of the program, which runs while it
    spins. *)
Record st {X : Type} := mk_st { cl : client; sh : shared; others : X }.
Arguments st : clear implicits.
Arguments mk_st {X} _ _ _.

Definition with_pool (c : client) x := mk_client (cid c) x (local_message_statuses c) (local_message_processing c) (toggles c) (epoches c).
Definition with_statuses (c : client) x := mk_client (cid c) (local_message_pool c) x (local_message_processing c) (toggles c) (epoches c).
Definition with_processing (c : client) x := mk_client (cid c) (local_message_pool c) (local_message_statuses c) x (toggles c) (epoches c).
Definition with_toggles (c : client) x := mk_client (cid c) (local_message_pool c) (local_message_statuses c) (local_message_processing c) x (epoches c).
Definition with_epoches (c : client) x := mk_client (cid c) (local_message_pool c) (local_message_statuses c) (local_message_processing c) (toggles c) x.

Definition slot_read (slots : list (list message)) (sid cid : Z) : result message :=
  row ← aread slots sid; aread row cid.
Definition slot_write (slots : list (list message)) (sid cid : Z) (m : message) : result (list (list message)) :=
  row ← aread slots sid;
  old ← aread row cid;
  row ← awrite row cid (copy_message m old);
  awrite slots sid row.

(** The constructor for a client that got the id [c]; [saved] are the toggles of
    the last client with this id. *)
Definition init (num_servers c : Z) (saved : list bool) : client :=
  mk_client c (replicate (Z.to_nat num_servers) empty_message) (replicate (Z.to_nat MAX_THREADS) no_status)
    (replicate (Z.to_nat MAX_THREADS) false) saved
    (replicate (Z.to_nat num_servers) 1 ++ replicate (Z.to_nat (MAX_THREADS - num_servers)) 0).

(** [*status.responses[i] = message.resps[i]] for the answers there are. *)
Fixpoint deliver (m : message) (ptrs : list Z) (i : Z) (n : nat) (mem : Z → Z) : result (Z → Z) :=
  match n with
  | O => Ok mem
  | S n' =>
      p ← aread ptrs i;
      r ← get_resp m i;
      deliver m ptrs (i + 1) n'
        (if negb (p =? 0) && negb (r =? 0) then (λ a, if decide (a = p) then r else mem a) else mem)
  end.

Section with_others.
Context {X : Type}.

Definition process_message (s : st X) (sid : Z) : result (st X * bool) :=
  let c := cl s in
  processing ← aread (local_message_processing c) sid;
  if negb processing then Ok (s, false)
  else
    status ← aread (local_message_statuses c) sid;
    m ← slot_read (responses (sh s)) sid (cid c);
    w ← get_header m;
    t ← aread (toggles c) sid;
    if negb (eqb (h_toggle w) t) then Ok (s, true)
    else
      mem ← deliver m (s_responses status) 0 (Z.to_nat (h_num_comm w)) (resp_memory (sh s));
      sts ← awrite (local_message_statuses c) sid no_status;
      pr ← awrite (local_message_processing c) sid false;
      Ok (mk_st (with_processing (with_statuses c sts) pr) (mk_shared (requests (sh s)) (responses (sh s)) mem) (others s), true).

(** Publishing the batch for a server; nothing is in progress. *)
Definition submit_now (s : st X) (sid : Z) : result (st X) :=
  let c := cl s in
  status ← aread (local_message_statuses c) sid;
  if num_requests status =? 0 then Ok s
  else
    t ← aread (toggles c) sid;
    ts ← awrite (toggles c) sid (negb t);
    m ← aread (local_message_pool c) sid;
    m ← set_header m (header_word (negb t) (num_requests status));
    pool ← awrite (local_message_pool c) sid m;
    pr ← awrite (local_message_processing c) sid true;
    reqs ← slot_write (requests (sh s)) sid (cid c) m;
    e ← aread (epoches c) sid;
    es ← awrite (epoches c) sid (w64 (e + 1));
    Ok (mk_st (with_epoches (with_processing (with_pool (with_toggles c ts) pool) pr) es)
          (mk_shared reqs (responses (sh s)) (resp_memory (sh s))) (others s)).

Context (env : shared → X → result (shared * X)).

(** [while (local_message_processing[sid])]. *)
Fixpoint await (fuel : nat) (s : st X) (sid : Z) : result (st X) :=
  processing ← aread (local_message_processing (cl s)) sid;
  if negb processing then Ok s
  else match fuel with
       | O => Err OutOfFuel
       | S fuel' =>
           '(s, _) ← process_message s sid;
           '(sh', o) ← env (sh s) (others s);
           await fuel' (mk_st (cl s) sh' o) sid
       end.

(** [poll_message], which submits when the epoch has not been reached, and
    [submit_message], which polls first. *)
Fixpoint poll_message (depth fuel : nat) (s : st X) (sid epoch : Z) : result (st X) :=
  e ← aread (epoches (cl s)) sid;
  s ← (if e <=? epoch then
         match depth with
         | O => Err OutOfFuel
         | S depth' => s ← poll_message depth' fuel s sid 0; submit_now s sid
         end
       else Ok s);
  await fuel s sid.

Definition submit_message (fuel : nat) (s : st X) (sid : Z) : result (st X) :=
  s ← poll_message 1 fuel s sid 0; submit_now s sid.

(** [resp] is the address the answer goes to, 0 for none.  The result is the epoch. *)
Definition request (fuel : nat) (s : st X) (sid : Z) (req : request_type) (resp : Z) : result (st X * Z) :=
  s ← poll_message 1 fuel s sid 0;
  let c := cl s in
  status ← aread (local_message_statuses c) sid;
  m ← aread (local_message_pool c) sid;
  m ← set_req m (num_requests status) req;
  pool ← awrite (local_message_pool c) sid m;
  rs ← awrite (s_responses status) (num_requests status) resp;
  let status := mk_status (num_requests status + 1) rs in
  sts ← awrite (local_message_statuses c) sid status;
  let s := mk_st (with_statuses (with_pool c pool) sts) (sh s) (others s) in
  e ← aread (epoches (cl s)) sid;
  s ← (if num_requests status =? MAX_COMMS then submit_message fuel s sid else Ok s);
  Ok (s, e).

Fixpoint progress (s : st X) (sids : list Z) : result (st X) :=
  match sids with
  | [] => Ok s
  | sid :: sids' => '(s, _) ← process_message s sid; progress s sids'
  end.

(** [wait], over all servers. *)
Fixpoint wait (fuel : nat) (s : st X) (sids : list Z) : result (st X) :=
  match sids with
  | [] => Ok s
  | sid :: sids' =>
      s ← submit_message fuel s sid;
      s ← poll_message 1 fuel s sid 0;
      wait fuel s sids'
  end.
End with_others.
