(* ===== verification/PartitionServer.v ===== *)
(** * The server side of a partition

    [class PartitionServer] of [include/partition_server.hpp]: the ids of the
    clients, and the loop of a server thread over its clients' slots with the
    fiber that finishes the requests that could not be answered at once. *)
From S2P Require Import Prelude Util PartitionType PartitionClient.
From stdpp Require Import list.

Open Scope Z_scope.

(** ** Set-up *)
Definition MAX_NUMANODES : Z := 8.

(** The constructor: [node_of] is the node of a processor, negative for none;
    the result are the nodes of the server threads. *)
Fixpoint nodes_of (node_of : Z → Z) (cpus : list Z) : result (list Z) :=
  match cpus with
  | [] => Ok []
  | cpu :: cpus' =>
      _ ← ensure (0 <=? node_of cpu) "Invalid CPU id";
      ns ← nodes_of node_of cpus';
      Ok (node_of cpu :: ns)
  end.

Definition create (node_of : Z → Z) (max_node : Z) (cpus : list Z) (num_clients : Z) : result (list Z) :=
  _ ← ensure (zlen cpus <=? MAX_THREADS) "Number of server threads > MAX_THREADS";
  _ ← ensure (num_clients <=? MAX_THREADS) "Number of client threads > MAX_THREADS";
  _ ← ensure (max_node <? MAX_NUMANODES) "Number of numa nodes > MAX_NUMANODES";
  nodes_of node_of cpus.

(** [numa_threads[node]]: the server threads of a node, in order. *)
Definition numa_threads (nodes : list Z) (node : Z) : list Z :=
  filter (λ sid, zget nodes sid = Some node) (seqZ 0 (zlen nodes)).

(** The slots of server [sid] in the pools of its node: [MAX_THREADS] of them
    from this index on. *)
Fixpoint index_of (l : list Z) (x i : Z) : option Z :=
  match l with
  | [] => None
  | y :: l' => if y =? x then Some i else index_of l' x (i + 1)
  end.
Definition slot_base (nodes : list Z) (sid : Z) : result Z :=
  node ← aread nodes sid;
  match index_of (numa_threads nodes node) sid 0 with
  | Some i => Ok (i * MAX_THREADS)
  | None => Err Undefined
  end.

(** ** Client ids, in a queue per processor *)

(** The order in which processors get ids: hyperthread siblings together. *)
Definition cpu_mapping (half_hyperthreading : bool) (num_cpus : Z) : list Z :=
  if half_hyperthreading
  then seqZ 0 (num_cpus / 2) ≫= λ cpu, [cpu; cpu + num_cpus / 2]
  else seqZ 0 num_cpus.

Definition share (num_clients num_cpus cpu : Z) : Z :=
  num_clients / num_cpus + Z.b2z (cpu <? num_clients mod num_cpus).

Fixpoint fill_pools (mapping : list Z) (num_clients num_cpus cpu id : Z) (n : nat) (pools : list (list Z)) :
    result (list (list Z)) :=
  match n with
  | O => Ok pools
  | S n' =>
      target ← aread mapping cpu;
      old ← aread pools target;
      let k := share num_clients num_cpus cpu in
      pools ← awrite pools target (old ++ seqZ id k);
      fill_pools mapping num_clients num_cpus (cpu + 1) (id + k) n' pools
  end.

Definition client_id_pool (half_hyperthreading : bool) (num_clients num_cpus : Z) : result (list (list Z)) :=
  fill_pools (cpu_mapping half_hyperthreading num_cpus) num_clients num_cpus 0 0 (Z.to_nat num_cpus)
    (replicate (Z.to_nat num_cpus) []).

(** Taking an id, in the constructor of a client: the own processor's queue or
    the first non-empty one of [near], the processors by distance. *)
Fixpoint first_nonempty (pools : list (list Z)) (near : list Z) : result (option Z) :=
  match near with
  | [] => Ok None
  | cpu :: near' =>
      q ← aread pools cpu;
      match q with [] => first_nonempty pools near' | _ :: _ => Ok (Some cpu) end
  end.

Definition acquire_id (pools : list (list Z)) (cpu : Z) (near : list Z) : result (list (list Z) * Z * Z) :=
  q ← aread pools cpu;
  cpu ← match q with
        | _ :: _ => Ok cpu
        | [] =>
            found ← first_nonempty pools near;
            match found with
            | Some cpu => Ok cpu
            | None => Err (Throw "Server cannot support more clients")
            end
        end;
  q ← aread pools cpu;
  match q with
  | [] => Err Undefined
  | id :: q' => pools ← awrite pools cpu q'; Ok (pools, cpu, id)
  end.

Definition release_id (pools : list (list Z)) (cpu id : Z) : result (list (list Z)) :=
  q ← aread pools cpu; awrite pools cpu (q ++ [id]).

(** ** The loop of a server thread *)
Section server.
Context {C A : Type}.
(** Answering a request: a pointer for the response, or the state [A] of a
    request that is not finished ([first_process_func]); continuing one that is
    not, which may store its answer itself ([process_func]). *)
Context (first_process : C → request_type → result (C * Z * option A)).
Context (process : C → (Z → Z) → A → request_type → result (C * (Z → Z) * A * bool)).

Record server := mk_server {
  sid : Z;
  s_toggles : list bool;
  resp_messages : list message;
  context : C;
  async_requests : list (option (request_type * A));
  num_async : Z;
  async_channel : list (request_type * A);
  count : Z;
}.

Definition server_init (sid : Z) (c : C) : server :=
  mk_server sid (replicate (Z.to_nat MAX_THREADS) false) (replicate (Z.to_nat MAX_THREADS) empty_message) c [] 0 [] 0.

(** The requests of one message, in order. *)
Fixpoint answer (m : message) (i : Z) (n : nat) (c : C) (resp : message) (num : Z) (ch : list (request_type * A)) :
    result (C * message * Z * list (request_type * A)) :=
  match n with
  | O => Ok (c, resp, num, ch)
  | S n' =>
      req ← get_req m i;
      '(c, pointer, pending) ← first_process c req;
      resp ← set_resp resp i pointer;
      match pending with
      | Some a => answer m (i + 1) n' c resp (num + 1) (ch ++ [(req, a)])
      | None => answer m (i + 1) n' c resp num ch
      end
  end.

Definition send_response (s : server) (sh : shared) (cid : Z) (resp : message) : result (server * shared) :=
  t ← aread (s_toggles s) cid;
  ts ← awrite (s_toggles s) cid (negb t);
  w ← get_header resp;
  resp ← set_header resp (header_word (negb t) (h_num_comm w));
  msgs ← awrite (resp_messages s) cid resp;
  resps ← slot_write (responses sh) (sid s) cid resp;
  Ok (mk_server (sid s) ts msgs (context s) (async_requests s) (num_async s) (async_channel s) (count s),
      mk_shared (requests sh) resps (resp_memory sh)).

(** The part of the loop for one client. *)
Definition serve (s : server) (sh : shared) (cid : Z) : result (server * shared) :=
  m ← slot_read (requests sh) (sid s) cid;
  w ← get_header m;
  t ← aread (s_toggles s) cid;
  if eqb (h_toggle w) t then Ok (s, sh)
  else
    resp ← aread (resp_messages s) cid;
    resp ← set_header resp w;
    '(c, resp, num, ch) ← answer m 0 (Z.to_nat (h_num_comm w)) (context s) resp (num_async s) (async_channel s);
    send_response (mk_server (sid s) (s_toggles s) (resp_messages s) c (async_requests s) num ch
                     (w64 (count s + h_num_comm w))) sh cid resp.

Fixpoint serve_all (s : server) (sh : shared) (cids : list Z) : result (server * shared) :=
  match cids with
  | [] => Ok (s, sh)
  | cid :: cids' => '(s, sh) ← serve s sh cid; serve_all s sh cids'
  end.

(** One round of the fiber: everything in the channel is taken over, every open
    request is continued, and the finished ones at the front are dropped. *)
Fixpoint continue_all (reqs : list (option (request_type * A))) (c : C) (mem : Z → Z) :
    result (list (option (request_type * A)) * C * (Z → Z)) :=
  match reqs with
  | [] => Ok ([], c, mem)
  | None :: reqs' => '(rs, c, mem) ← continue_all reqs' c mem; Ok (None :: rs, c, mem)
  | Some (req, a) :: reqs' =>
      '(c, mem, a, finished) ← process c mem a req;
      '(rs, c, mem) ← continue_all reqs' c mem;
      Ok ((if (finished : bool) then None else Some (req, a)) :: rs, c, mem)
  end.

Fixpoint drop_finished (reqs : list (option (request_type * A))) (num : Z) : list (option (request_type * A)) * Z :=
  match reqs with
  | None :: reqs' => drop_finished reqs' (num - 1)
  | _ => (reqs, num)
  end.

Definition fiber_round (s : server) (sh : shared) : result (server * shared) :=
  '(rs, c, mem) ← continue_all (async_requests s ++ (Some <$> async_channel s)) (context s) (resp_memory sh);
  let '(rs, num) := drop_finished rs (num_async s) in
  Ok (mk_server (sid s) (s_toggles s) (resp_messages s) c rs num [] (count s),
      mk_shared (requests sh) (responses sh) mem).

(** One round of the loop: all clients, then the fiber when it has work. *)
Definition loop_round (num_clients : Z) (s : server) (sh : shared) : result (server * shared) :=
  '(s, sh) ← serve_all s sh (seqZ 0 num_clients);
  if negb (num_async s =? 0) then fiber_round s sh else Ok (s, sh).
End server.
Arguments server : clear implicits.

(** ** Properties *)

(** *** The slots of the servers *)
Lemma index_of_spec l x i : x ∈ l → ∃ k, index_of l x i = Some (i + k) ∧ zget l k = Some x.
Proof.
  revert i. induction l as [|y l IH]; intros i Hx; [by apply elem_of_nil in Hx|]. simpl.
  destruct (Z.eqb_spec y x) as [->|Hne]; [exists 0; split; [f_equal; lia|done]|].
  apply elem_of_cons in Hx as [->|Hx]; [done|]. destruct (IH (i + 1) Hx) as (k & E & G).
  exists (k + 1). rewrite E. split; [f_equal; lia|]. pose proof (zget_range _ _ _ G).
  unfold zget in *. rewrite decide_True in G by lia. rewrite decide_True by lia. by replace (Z.to_nat (k + 1)) with (S (Z.to_nat k)) by lia.
Qed.

Lemma numa_threads_in nodes node sid : zget nodes sid = Some node → sid ∈ numa_threads nodes node.
Proof.
  intros Hg. apply list_elem_of_filter. split; [done|]. apply elem_of_seqZ. pose proof (zget_range _ _ _ Hg). lia.
Qed.

(** Every server thread has slots for all clients inside the pools of its
    node, and two servers of one node share none. *)
Lemma slots_disjoint nodes sid1 sid2 node : zget nodes sid1 = Some node → zget nodes sid2 = Some node → sid1 ≠ sid2 →
  ∃ b1 b2, slot_base nodes sid1 = Ok b1 ∧ slot_base nodes sid2 = Ok b2 ∧
    0 ≤ b1 ∧ b1 + MAX_THREADS ≤ zlen (numa_threads nodes node) * MAX_THREADS ∧
    (b1 + MAX_THREADS ≤ b2 ∨ b2 + MAX_THREADS ≤ b1).
Proof.
  intros H1 H2 Hne. unfold slot_base, aread. rewrite H1, H2. cbn [mbind result_bind].
  destruct (index_of_spec _ _ 0 (numa_threads_in _ _ _ H1)) as (k1 & -> & G1).
  destruct (index_of_spec _ _ 0 (numa_threads_in _ _ _ H2)) as (k2 & -> & G2).
  assert (k1 ≠ k2) by (intros ->; congruence).
  apply zget_range in G1, G2. unfold MAX_THREADS. do 2 eexists. split_and!; try done; lia.
Qed.

(** *** Client ids *)
Definition pooled (pools : list (list Z)) : list Z := mjoin pools.

Lemma pooled_append pools t old new : zget pools t = Some old → pooled (zset pools t (old ++ new)) ≡ₚ pooled pools ++ new.
Proof.
  unfold zget, zset, pooled. case_decide; [|done]. generalize (Z.to_nat t) as n. clear.
  intros n. revert n. induction pools as [|q pools IH]; intros [|n] Hn; simplify_eq/=.
  - rewrite <- !app_assoc. apply Permutation_app_head, Permutation_app_comm.
  - rewrite IH by done. by rewrite app_assoc.
Qed.

Lemma pooled_pop pools t id q : zget pools t = Some (id :: q) → pooled pools ≡ₚ id :: pooled (zset pools t q).
Proof.
  unfold zget, zset, pooled. case_decide; [|done]. generalize (Z.to_nat t) as n. clear.
  intros n. revert n. induction pools as [|q0 pools IH]; intros [|n] Hn; simplify_eq/=; [done|].
  rewrite IH by done. symmetry. apply Permutation_middle.
Qed.

Definition shares (n c cpu : Z) : Z := cpu * (n / c) + Z.min cpu (n mod c).

Lemma shares_step n c cpu : 0 ≤ cpu → shares n c (cpu + 1) = shares n c cpu + share n c cpu.
Proof. intros Hc. unfold shares, share. destruct (Z.ltb_spec cpu (n mod c)); simpl; lia. Qed.

Lemma shares_all n c : 0 < c → shares n c c = n.
Proof.
  intros Hc. unfold shares. pose proof (Z.mod_pos_bound n c Hc). pose proof (Z_div_mod_eq_full n c). lia.
Qed.

Lemma share_nonneg n c cpu : 0 ≤ n → 0 < c → 0 ≤ share n c cpu.
Proof. intros Hn Hc. unfold share. pose proof (Z.div_pos n c Hn Hc). destruct (cpu <? n mod c); simpl; lia. Qed.

Lemma fill_pools_spec mapping n c k : 0 ≤ n → 0 < c → zlen mapping = c → (∀ x, x ∈ mapping → 0 ≤ x < c) →
  ∀ cpu pools, 0 ≤ cpu → cpu + Z.of_nat k = c → zlen pools = c → pooled pools ≡ₚ seqZ 0 (shares n c cpu) →
  0 ≤ shares n c cpu →
  ∃ pools', fill_pools mapping n c cpu (shares n c cpu) k pools = Ok pools' ∧ zlen pools' = c ∧ pooled pools' ≡ₚ seqZ 0 n.
Proof.
  intros Hn Hc Hm Hr. induction k as [|k IH]; intros cpu pools H0 Hk Hp Hperm Hs.
  - exists pools. split; [done|]. split; [done|]. replace cpu with c in Hperm by lia. by rewrite shares_all in Hperm.
  - destruct (aread_total mapping cpu) as (t & Ht & Hgt); [lia|]. cbn [fill_pools]. rewrite (bind_rew _ _ _ Ht).
    assert (Htr : 0 ≤ t < c).
    { apply Hr. unfold zget in Hgt. case_decide; [|done]. by eapply list_elem_of_lookup_2. }
    destruct (aread_total pools t) as (old & Ho & Hgo); [lia|]. rewrite (bind_rew _ _ _ Ho). cbv zeta.
    rewrite (bind_rew _ _ _ (awrite_total pools t _ ltac:(lia))), <- shares_step by done.
    pose proof (share_nonneg n c cpu Hn Hc). apply IH; try lia.
    + by rewrite zlen_zset.
    + rewrite (pooled_append _ _ _ _ Hgo), Hperm. rewrite shares_step by done. by rewrite <- (seqZ_app 0).
    + rewrite shares_step by done. lia.
Qed.

Lemma cpu_mapping_ok half c : 0 < c → (half = true → c mod 2 = 0) →
  zlen (cpu_mapping half c) = c ∧ ∀ x, x ∈ cpu_mapping half c → 0 ≤ x < c.
Proof.
  intros Hc Heven. unfold cpu_mapping. destruct half.
  - specialize (Heven eq_refl). assert (E : c = 2 * (c / 2)) by (pose proof (Z_div_mod_eq_full c 2); lia).
    split.
    + assert (Hl : ∀ l : list Z, zlen (l ≫= λ cpu, [cpu; cpu + c / 2]) = 2 * zlen l).
      { unfold zlen. intros l. induction l as [|x l IH]; [done|]. rewrite bind_cons, length_app. simpl. lia. }
      rewrite Hl. unfold zlen. rewrite length_seqZ. lia.
    + intros x (y & Hx & Hy%elem_of_seqZ)%list_elem_of_bind.
      apply elem_of_cons in Hx as [->|Hx]; [lia|]. apply list_elem_of_singleton in Hx as ->. lia.
  - split; [unfold zlen; rewrite length_seqZ; lia|]. intros x ?%elem_of_seqZ. lia.
Qed.

Lemma pools_distribute half n c : 0 ≤ n → 0 < c → (half = true → c mod 2 = 0) → ∃ pools,
  client_id_pool half n c = Ok pools ∧ zlen pools = c ∧ pooled pools ≡ₚ seqZ 0 n.
Proof.
  intros Hn Hc He. destruct (cpu_mapping_ok half c Hc He) as [Hl Hr].
  unfold client_id_pool. assert (E0 : shares n c 0 = 0) by (unfold shares; pose proof (Z.mod_pos_bound n c Hc); lia).
  pose proof (fill_pools_spec (cpu_mapping half c) n c (Z.to_nat c) Hn Hc Hl Hr 0 (replicate (Z.to_nat c) [])) as Hf.
  rewrite E0 in Hf. apply Hf; try lia.
  - rewrite zlen_replicate. lia.
  - unfold pooled. assert (E : ∀ k, mjoin (replicate k []) = @nil Z) by (intros k; induction k; done). by rewrite E.
Qed.

(** [run] hands every client id from 0 to [num_clients - 1] to exactly one
    processor's queue, whatever the numbers of clients and processors. *)
Lemma client_ids_distributed half n c : 0 ≤ n → 0 < c → (half = true → c mod 2 = 0) → ∃ pools,
  client_id_pool half n c = Ok pools ∧ pooled pools ≡ₚ seqZ 0 n.
Proof. intros Hn Hc He. destruct (pools_distribute half n c Hn Hc He) as (pools & ? & _ & ?). by exists pools. Qed.

Lemma first_nonempty_spec pools near : (∀ cpu, cpu ∈ near → 0 ≤ cpu < zlen pools) → ∃ r,
  first_nonempty pools near = Ok r ∧
  match r with
  | Some cpu => ∃ id q, zget pools cpu = Some (id :: q)
  | None => ∀ cpu, cpu ∈ near → zget pools cpu = Some []
  end.
Proof.
  induction near as [|cpu near IH]; intros Hr; simpl.
  - exists None. split; [done|]. intros cpu Hc. by apply elem_of_nil in Hc.
  - destruct (aread_total pools cpu) as (q & Hq & Hg); [apply Hr; set_solver|]. rewrite (bind_rew _ _ _ Hq).
    destruct q as [|id q]; [|exists (Some cpu); eauto].
    destruct IH as (r & E & Hrr); [set_solver|]. exists r. split; [done|].
    destruct r; [done|]. intros cpu' [->|Hin]%elem_of_cons; auto.
Qed.

(** A new client gets an id no living client has, as long as some queue it may
    take from has one, and is refused otherwise. *)
Theorem acquire_id_fresh pools held n cpu near : pooled pools ++ held ≡ₚ seqZ 0 n →
  0 ≤ cpu < zlen pools → (∀ c, c ∈ near → 0 ≤ c < zlen pools) →
  match acquire_id pools cpu near with
  | Ok (pools', cpu', id) => (id ∉ held) ∧ 0 ≤ id < n ∧ pooled pools' ++ id :: held ≡ₚ seqZ 0 n ∧
      ∃ pools'', release_id pools' cpu' id = Ok pools'' ∧ pooled pools'' ++ held ≡ₚ seqZ 0 n
  | Err e => e = Throw "Server cannot support more clients" ∧ ∀ c, c ∈ cpu :: near → zget pools c = Some []
  end.
Proof.
  intros Hperm Hcpu Hnear. unfold acquire_id.
  destruct (aread_total pools cpu Hcpu) as (q & Hq & Hg). rewrite (bind_rew _ _ _ Hq).
  assert (Htake : ∀ c id q', zget pools c = Some (id :: q') →
    match (q ← aread pools c; match q with
      | [] => Err Undefined | id :: q' => pools ← awrite pools c q'; Ok (pools, c, id) end) with
    | Ok (pools', cpu', id) => (id ∉ held) ∧ 0 ≤ id < n ∧ pooled pools' ++ id :: held ≡ₚ seqZ 0 n ∧
        ∃ pools'', release_id pools' cpu' id = Ok pools'' ∧ pooled pools'' ++ held ≡ₚ seqZ 0 n
    | Err e => e = Throw "Server cannot support more clients" ∧ ∀ c, c ∈ cpu :: near → zget pools c = Some []
    end).
  { intros c id q' Hc. pose proof (zget_range _ _ _ Hc) as Hr.
    rewrite (bind_rew _ _ _ (proj2 (aread_Ok _ _ _) Hc)), (bind_rew _ _ _ (awrite_total pools c q' Hr)).
    assert (Hp' : pooled (zset pools c q') ++ id :: held ≡ₚ seqZ 0 n).
    { rewrite <- Permutation_middle, <- Hperm. by rewrite (pooled_pop _ _ _ _ Hc). }
    assert (Hnd : NoDup (id :: pooled (zset pools c q') ++ held)).
    { rewrite Permutation_middle, Hp'. apply NoDup_seqZ. }
    apply NoDup_cons in Hnd as [Hid _]. split; [set_solver|]. split.
    { assert (id ∈ seqZ 0 n) as ?%elem_of_seqZ by (rewrite <- Hp'; set_solver). lia. }
    split; [done|]. unfold release_id.
    assert (Hz : zget (zset pools c q') c = Some q') by (by apply zget_zset_eq).
    rewrite (bind_rew _ _ _ (proj2 (aread_Ok _ _ _) Hz)).
    eexists. split; [by apply awrite_total; rewrite zlen_zset|].
    rewrite (pooled_append _ _ _ _ Hz), <- Hp', <- app_assoc. done. }
  destruct q as [|id q']; [|rewrite bind_Ok_l; by apply (Htake cpu id q')].
  destruct (first_nonempty_spec pools near Hnear) as (r & Hr & Hrr). rewrite (bind_rew _ _ _ Hr).
  destruct r as [c|]; [rewrite bind_Ok_l; destruct Hrr as (id & q' & Hc); by apply (Htake c id q')|].
  simpl. split; [done|]. intros c [->|Hc]%elem_of_cons; auto.
Qed.

Lemma slots_disjoint_witness : ∃ b1 b2, slot_base [0; 1; 0] 0 = Ok b1 ∧ slot_base [0; 1; 0] 2 = Ok b2 ∧ b1 + MAX_THREADS ≤ b2.
Proof.
  destruct (slots_disjoint [0; 1; 0] 0 2 0) as (b1 & b2 & E1 & E2 & _); [done|done|done|].
  exists b1, b2. split; [done|]. split; [done|].
  vm_compute in E1, E2. injection E1 as <-. injection E2 as <-. done.
Defined.

Lemma acquire_id_fresh_witness : match acquire_id [[]; [4; 1]; [0]] 0 [0; 2; 1] with
  | Ok (_, cpu, id) => cpu = 2 ∧ (id ∉ [2; 3])
  | Err _ => False
  end.
Proof.
  pose proof (acquire_id_fresh [[]; [4; 1]; [0]] [2; 3] 5 0 [0; 2; 1]) as H.
  assert (Hp : pooled [[]; [4; 1]; [0]] ++ [2; 3] ≡ₚ seqZ 0 5).
  { apply NoDup_Permutation.
    - apply (bool_decide_unpack _). vm_compute. exact I.
    - apply NoDup_seqZ.
    - intros x. rewrite elem_of_seqZ. unfold pooled. simpl. set_unfold. lia. }
  assert (Hn : ∀ c, c ∈ [0; 2; 1] → 0 ≤ c < zlen [[]; [4; 1]; [0]]) by (intros c; set_unfold; unfold zlen; simpl; lia).
  specialize (H Hp ltac:(done) Hn). destruct H as [H _]. split; [done|exact H].
Defined.
