(* ===== verification/PartitionProtocol.v ===== *)
(** * The handshake of a client and a server over their two slots

    One client and one server thread of [partition_client.hpp] and
    [partition_server.hpp], running concurrently: every load and store of a
    word of a slot is a step of its own, stores become visible in program order
    (the copy of [partition_type.hpp] puts a fence before the header), and the
    two sides run in any interleaving. *)
From S2P Require Import Prelude Util PartitionType PartitionClient PartitionServer.
From stdpp Require Import list.

Open Scope Z_scope.

(** The words a message is read with: header and payload. *)
Definition SLOT_WORDS : nat := 7.
Definition wire (m : message) : list Z := take SLOT_WORDS m.

(** [c_todo] and [s_todo] are the words of the copy still to be stored, [c_buf]
    and [s_buf] the words loaded so far by a side that has seen the other's
    toggle; the last four fields are the history. *)
Record chan := mk_chan {
  c_toggle : bool; c_processing : bool; c_todo : list Z; c_msg : message; c_buf : option (list Z);
  s_toggle : bool; s_todo : list Z; s_msg : message; s_buf : option (list Z);
  req : message; resp : message;
  sent : list (list Z); handled : list (list Z); replied : list (list Z); got : list (list Z);
}.

Definition start : chan :=
  mk_chan false false [] empty_message None false [] empty_message None empty_message empty_message [] [] [] [].

(** Header of a slot, as the other side tests it. *)
Definition slot_toggle (m : message) : bool := h_toggle (m !!! O).

Definition well_formed (m : message) (toggle : bool) : Prop := zlen m = MESSAGE_WORDS ∧ slot_toggle m = toggle.

(** What happens after a message was submitted; the loads of the header that
    find nothing new change nothing and are left out. *)
Inductive work : chan → chan → Prop :=
  | client_store ct cm cb i todo st' std sm sb rq rs h1 h2 h3 h4 cp :
      work (mk_chan ct cp (i :: todo) cm cb st' std sm sb rq rs h1 h2 h3 h4)
           (mk_chan ct cp todo cm cb st' std sm sb (copy_word cm rq i) rs h1 h2 h3 h4)
  | server_sees ct cp ctd cm cb st' sm rq rs h1 h2 h3 h4 :
      slot_toggle rq ≠ st' →
      work (mk_chan ct cp ctd cm cb st' [] sm None rq rs h1 h2 h3 h4)
           (mk_chan ct cp ctd cm cb st' [] sm (Some []) rq rs h1 h2 h3 h4)
  | server_load ct cp ctd cm cb st' std sm b rq rs h1 h2 h3 h4 w :
      (length b < SLOT_WORDS)%nat → rq !! length b = Some w →
      work (mk_chan ct cp ctd cm cb st' std sm (Some b) rq rs h1 h2 h3 h4)
           (mk_chan ct cp ctd cm cb st' std sm (Some (b ++ [w])) rq rs h1 h2 h3 h4)
  | server_answers ct cp ctd cm cb st' sm b rq rs h1 h2 h3 h4 m :
      length b = SLOT_WORDS → well_formed m (negb st') →
      work (mk_chan ct cp ctd cm cb st' [] sm (Some b) rq rs h1 h2 h3 h4)
           (mk_chan ct cp ctd cm cb (negb st') copy_order m None rq rs h1 (h2 ++ [b]) (h3 ++ [wire m]) h4)
  | server_store ct cp ctd cm cb st' i todo sm sb rq rs h1 h2 h3 h4 :
      work (mk_chan ct cp ctd cm cb st' (i :: todo) sm sb rq rs h1 h2 h3 h4)
           (mk_chan ct cp ctd cm cb st' todo sm sb rq (copy_word sm rs i) h1 h2 h3 h4)
  | client_sees ct cm st' std sm sb rq rs h1 h2 h3 h4 :
      slot_toggle rs = ct →
      work (mk_chan ct true [] cm None st' std sm sb rq rs h1 h2 h3 h4)
           (mk_chan ct true [] cm (Some []) st' std sm sb rq rs h1 h2 h3 h4)
  | client_load ct cp ctd cm b st' std sm sb rq rs h1 h2 h3 h4 w :
      (length b < SLOT_WORDS)%nat → rs !! length b = Some w →
      work (mk_chan ct cp ctd cm (Some b) st' std sm sb rq rs h1 h2 h3 h4)
           (mk_chan ct cp ctd cm (Some (b ++ [w])) st' std sm sb rq rs h1 h2 h3 h4)
  | client_done ct cm b st' std sm sb rq rs h1 h2 h3 h4 :
      length b = SLOT_WORDS →
      work (mk_chan ct true [] cm (Some b) st' std sm sb rq rs h1 h2 h3 h4)
           (mk_chan ct false [] cm None st' std sm sb rq rs h1 h2 h3 (h4 ++ [b])).

(** [submit_message] with a batch, when none is in progress. *)
Inductive step : chan → chan → Prop :=
  | submit ct cm st' std sm sb rq rs h1 h2 h3 h4 m :
      well_formed m (negb ct) →
      step (mk_chan ct false [] cm None st' std sm sb rq rs h1 h2 h3 h4)
           (mk_chan (negb ct) true copy_order m None st' std sm sb rq rs (h1 ++ [wire m]) h2 h3 h4)
  | works a b : work a b → step a b.

(** ** The invariant: where a message is on its way *)
Definition copied (src dst : message) (todo : list Z) : Prop :=
  ∀ i, 0 ≤ i < 7 → i ∉ todo → zget dst i = zget src i.

Inductive stage (x : chan) : Prop :=
  | Idle : c_processing x = false → c_todo x = [] → c_buf x = None → s_todo x = [] → s_buf x = None →
      s_toggle x = c_toggle x → slot_toggle (req x) = c_toggle x → slot_toggle (resp x) = c_toggle x →
      sent x = handled x → replied x = got x → length (handled x) = length (replied x) → stage x
  | Publishing (k : nat) : c_processing x = true → (k ≤ 6)%nat → c_todo x = drop k copy_order → c_buf x = None →
      s_todo x = [] → s_buf x = None → s_toggle x = negb (c_toggle x) →
      slot_toggle (req x) = negb (c_toggle x) → slot_toggle (resp x) = negb (c_toggle x) →
      well_formed (c_msg x) (c_toggle x) → copied (c_msg x) (req x) (c_todo x) →
      sent x = handled x ++ [wire (c_msg x)] → replied x = got x → length (handled x) = length (replied x) → stage x
  | Published : c_processing x = true → c_todo x = [] → c_buf x = None → s_todo x = [] →
      s_toggle x = negb (c_toggle x) →
      slot_toggle (req x) = c_toggle x → slot_toggle (resp x) = negb (c_toggle x) →
      wire (req x) = wire (c_msg x) →
      match s_buf x with None => True | Some b => b `prefix_of` wire (c_msg x) end →
      sent x = handled x ++ [wire (c_msg x)] → replied x = got x → length (handled x) = length (replied x) → stage x
  | Answering (k : nat) : c_processing x = true → c_todo x = [] → c_buf x = None → s_buf x = None →
      (k ≤ 6)%nat → s_todo x = drop k copy_order → s_toggle x = c_toggle x →
      slot_toggle (req x) = c_toggle x → slot_toggle (resp x) = negb (c_toggle x) →
      well_formed (s_msg x) (c_toggle x) → copied (s_msg x) (resp x) (s_todo x) →
      sent x = handled x → replied x = got x ++ [wire (s_msg x)] → length (handled x) = length (replied x) → stage x
  | Answered : c_processing x = true → c_todo x = [] → s_todo x = [] → s_buf x = None → s_toggle x = c_toggle x →
      slot_toggle (req x) = c_toggle x → slot_toggle (resp x) = c_toggle x →
      wire (resp x) = wire (s_msg x) →
      match c_buf x with None => True | Some b => b `prefix_of` wire (s_msg x) end →
      sent x = handled x → replied x = got x ++ [wire (s_msg x)] → length (handled x) = length (replied x) → stage x.

Definition chan_inv (x : chan) : Prop :=
  zlen (req x) = MESSAGE_WORDS ∧ zlen (resp x) = MESSAGE_WORDS ∧ stage x.

(** *** Copying a message *)
Lemma slot_toggle_get m : zlen m = MESSAGE_WORDS → ∃ w, zget m 0 = Some w ∧ slot_toggle m = h_toggle w.
Proof. destruct m as [|w m]; [done|]. by exists w. Qed.

(** One more word of the copy; the toggle changes with the last one only. *)
Lemma copy_step src dst k t : (k ≤ 6)%nat → well_formed src t → zlen dst = MESSAGE_WORDS →
  slot_toggle dst = negb t → copied src dst (drop k copy_order) →
  ∃ i, drop k copy_order = i :: drop (S k) copy_order ∧
    zlen (copy_word src dst i) = MESSAGE_WORDS ∧
    copied src (copy_word src dst i) (drop (S k) copy_order) ∧
    slot_toggle (copy_word src dst i) = if decide (k = 6%nat) then t else negb t.
Proof.
  intros Hk [Hs Ht] Hd Hdt Hc.
  assert (Hi : ∃ i, drop k copy_order = i :: drop (S k) copy_order ∧ 0 ≤ i < 7 ∧ (i = 0 ↔ k = 6%nat)).
  { rewrite copy_order_eq. do 7 (destruct k as [|k]; [eexists; split; [reflexivity|split; lia]|]). lia. }
  destruct Hi as (i & Ei & Hr & H0). exists i. split; [done|]. split; [by rewrite copy_word_len|]. split.
  - intros j Hj Hn. rewrite copy_word_get by done. case_decide as E; [by subst|].
    apply Hc; [done|]. rewrite Ei. set_solver.
  - destruct (slot_toggle_get (copy_word src dst i)) as (w & Hw & ->); [by rewrite copy_word_len|].
    rewrite copy_word_get in Hw by done.
    destruct (slot_toggle_get src Hs) as (ws & Hws & Hts). destruct (slot_toggle_get dst Hd) as (wd & Hwd & Htd).
    repeat case_decide; try (exfalso; lia); simplify_eq; congruence.
Qed.

Lemma copied_wire src dst : zlen src = MESSAGE_WORDS → zlen dst = MESSAGE_WORDS →
  copied src dst [] → wire dst = wire src.
Proof.
  change MESSAGE_WORDS with 8. unfold zlen. intros Hs Hd Hc. unfold wire, SLOT_WORDS. apply list_eq. intros i.
  destruct (decide (i < 7)%nat) as [Hi|Hi].
  - rewrite !lookup_take_lt by done. pose proof (Hc (Z.of_nat i) ltac:(lia) ltac:(set_solver)) as E.
    by rewrite !zget_nat in E.
  - rewrite !lookup_take_ge by lia. done.
Qed.

(** *** Loading a message *)
Lemma load_step (slot src : message) b w : zlen slot = MESSAGE_WORDS → wire slot = wire src →
  (length b < SLOT_WORDS)%nat → slot !! length b = Some w →
  b `prefix_of` wire src → b ++ [w] `prefix_of` wire src.
Proof.
  intros Hl Hw Hb Hg [k Hk]. assert (Hlook : wire src !! length b = Some w).
  { rewrite <- Hw. unfold wire. by rewrite lookup_take_lt. }
  rewrite Hk in Hlook. rewrite lookup_app_r in Hlook by lia. rewrite Nat.sub_diag in Hlook.
  destruct k as [|w' k]; [done|]. simpl in Hlook. simplify_eq. exists k. by rewrite Hk, <- app_assoc.
Qed.

Lemma load_all (slot src : message) b : zlen slot = MESSAGE_WORDS → wire slot = wire src →
  length b = SLOT_WORDS → b `prefix_of` wire src → b = wire src.
Proof.
  intros Hl Hw Hb [k Hk]. assert (Hlen : length (wire src) = SLOT_WORDS).
  { rewrite <- Hw. unfold wire. rewrite length_take. unfold zlen in Hl. change MESSAGE_WORDS with 8 in Hl.
    unfold SLOT_WORDS. lia. }
  rewrite Hk, length_app in Hlen. destruct k as [|]; [by rewrite Hk, app_nil_r|simpl in Hlen; lia].
Qed.

(** *** Every step keeps the invariant *)
Ltac stage_cases Hst := destruct Hst; simpl in *; try congruence; simplify_eq/=.

Lemma drop_copy_nil k : (k ≤ 6)%nat → drop k copy_order ≠ [].
Proof. rewrite copy_order_eq. intros Hk. do 7 (destruct k as [|k]; [done|]). lia. Qed.

Lemma drop_copy_end : drop 7 copy_order = [].
Proof. reflexivity. Qed.

Lemma start_inv : chan_inv start.
Proof. split; [done|]. split; [done|]. by constructor 1. Qed.

Lemma submit_inv ct cm st' std sm sb rq rs h1 h2 h3 h4 m : well_formed m (negb ct) →
  chan_inv (mk_chan ct false [] cm None st' std sm sb rq rs h1 h2 h3 h4) →
  chan_inv (mk_chan (negb ct) true copy_order m None st' std sm sb rq rs (h1 ++ [wire m]) h2 h3 h4).
Proof.
  intros Hm (Hq & Hr & Hst). split; [done|]. split; [done|]. simpl in Hq, Hr. stage_cases Hst.
  apply (Publishing _ 0); simpl; rewrite ?negb_involutive; try done; [lia|].
  intros i Hi Hn. exfalso. apply Hn. rewrite copy_order_eq.
  assert (i = 0 ∨ i = 1 ∨ i = 2 ∨ i = 3 ∨ i = 4 ∨ i = 5 ∨ i = 6) as Hc by lia. set_solver.
Qed.

Lemma client_store_inv ct cp todo i cm cb st' std sm sb rq rs h1 h2 h3 h4 :
  chan_inv (mk_chan ct cp (i :: todo) cm cb st' std sm sb rq rs h1 h2 h3 h4) →
  chan_inv (mk_chan ct cp todo cm cb st' std sm sb (copy_word cm rq i) rs h1 h2 h3 h4).
Proof.
  intros (Hq & Hr & Hst). simpl in Hq, Hr. unfold chan_inv. simpl. stage_cases Hst.
  match goal with Hc : copied cm rq (i :: todo), Hm : well_formed cm _, Hk : (k ≤ 6)%nat, Hd : i :: todo = _ |- _ =>
    rewrite Hd in Hc; edestruct (copy_step cm rq k ct) as (j & Ej & Hlen & Hc' & Ht); [done..|];
    rewrite Ej in Hd; injection Hd as <- -> end.
  split; [done|]. split; [done|]. case_decide as E6.
  - subst k. rewrite drop_copy_end in *. constructor 3; simpl; try done.
    apply copied_wire; [|done|done]. by match goal with Hm : well_formed cm _ |- _ => destruct Hm end.
  - apply (Publishing _ (S k)); simpl; try done. lia.
Qed.

Lemma server_store_inv ct cp ctd cm cb st' i todo sm sb rq rs h1 h2 h3 h4 :
  chan_inv (mk_chan ct cp ctd cm cb st' (i :: todo) sm sb rq rs h1 h2 h3 h4) →
  chan_inv (mk_chan ct cp ctd cm cb st' todo sm sb rq (copy_word sm rs i) h1 h2 h3 h4).
Proof.
  intros (Hq & Hr & Hst). simpl in Hq, Hr. unfold chan_inv. simpl. stage_cases Hst.
  match goal with Hc : copied sm rs (i :: todo), Hm : well_formed sm _, Hk : (k ≤ 6)%nat, Hd : i :: todo = _ |- _ =>
    rewrite Hd in Hc; edestruct (copy_step sm rs k (slot_toggle rq)) as (j & Ej & Hlen & Hc' & Ht); [done..|];
    rewrite Ej in Hd; injection Hd as <- -> end.
  split; [done|]. split; [done|]. case_decide as E6.
  - subst k. rewrite drop_copy_end in *. constructor 5; simpl; try done.
    apply copied_wire; [|done|done]. by match goal with Hm : well_formed sm _ |- _ => destruct Hm end.
  - apply (Answering _ (S k)); simpl; try done. lia.
Qed.

Lemma server_sees_inv ct cp ctd cm cb st' sm rq rs h1 h2 h3 h4 : slot_toggle rq ≠ st' →
  chan_inv (mk_chan ct cp ctd cm cb st' [] sm None rq rs h1 h2 h3 h4) →
  chan_inv (mk_chan ct cp ctd cm cb st' [] sm (Some []) rq rs h1 h2 h3 h4).
Proof.
  intros Hs (Hq & Hr & Hst). split; [done|]. split; [done|]. stage_cases Hst.
  - constructor 3; simpl; try done. apply prefix_nil.
Qed.

Lemma server_load_inv ct cp ctd cm cb st' std sm b rq rs h1 h2 h3 h4 w :
  (length b < SLOT_WORDS)%nat → rq !! length b = Some w →
  chan_inv (mk_chan ct cp ctd cm cb st' std sm (Some b) rq rs h1 h2 h3 h4) →
  chan_inv (mk_chan ct cp ctd cm cb st' std sm (Some (b ++ [w])) rq rs h1 h2 h3 h4).
Proof.
  intros Hb Hw (Hq & Hr & Hst). split; [done|]. split; [done|]. stage_cases Hst.
  constructor 3; simpl; try done. by apply (load_step rq).
Qed.

Lemma server_answers_inv ct cp ctd cm cb st' sm b rq rs h1 h2 h3 h4 m :
  length b = SLOT_WORDS → well_formed m (negb st') →
  chan_inv (mk_chan ct cp ctd cm cb st' [] sm (Some b) rq rs h1 h2 h3 h4) →
  chan_inv (mk_chan ct cp ctd cm cb (negb st') copy_order m None rq rs h1 (h2 ++ [b]) (h3 ++ [wire m]) h4).
Proof.
  intros Hb Hm (Hq & Hr & Hst). split; [done|]. split; [done|]. simpl in Hq. stage_cases Hst.
  match goal with Hp : b `prefix_of` _ |- _ => apply (load_all rq) in Hp as ->; try done end.
  rewrite negb_involutive in *. apply (Answering _ 0); simpl; rewrite ?negb_involutive; try done; [lia| |].
  - intros i Hi Hn. exfalso. apply Hn. rewrite copy_order_eq.
    assert (i = 0 ∨ i = 1 ∨ i = 2 ∨ i = 3 ∨ i = 4 ∨ i = 5 ∨ i = 6) as Hc by lia. set_solver.
  - rewrite !length_app. simpl. lia.
Qed.

Lemma client_sees_inv ct cm st' std sm sb rq rs h1 h2 h3 h4 : slot_toggle rs = ct →
  chan_inv (mk_chan ct true [] cm None st' std sm sb rq rs h1 h2 h3 h4) →
  chan_inv (mk_chan ct true [] cm (Some []) st' std sm sb rq rs h1 h2 h3 h4).
Proof.
  intros Hs (Hq & Hr & Hst). split; [done|]. split; [done|]. stage_cases Hst.
  - match goal with Hd : [] = drop _ _, Hk : (_ ≤ 6)%nat |- _ => by destruct (drop_copy_nil _ Hk) end.
  - match goal with Hd : slot_toggle rs = negb (slot_toggle rs) |- _ => by destruct (slot_toggle rs) end.
  - match goal with Hd : slot_toggle rs = negb (slot_toggle rs) |- _ => by destruct (slot_toggle rs) end.
  - constructor 5; simpl; try done. apply prefix_nil.
Qed.

Lemma client_load_inv ct cp ctd cm b st' std sm sb rq rs h1 h2 h3 h4 w :
  (length b < SLOT_WORDS)%nat → rs !! length b = Some w →
  chan_inv (mk_chan ct cp ctd cm (Some b) st' std sm sb rq rs h1 h2 h3 h4) →
  chan_inv (mk_chan ct cp ctd cm (Some (b ++ [w])) st' std sm sb rq rs h1 h2 h3 h4).
Proof.
  intros Hb Hw (Hq & Hr & Hst). split; [done|]. split; [done|]. stage_cases Hst.
  constructor 5; simpl; try done. by apply (load_step rs).
Qed.

Lemma client_done_inv ct cm b st' std sm sb rq rs h1 h2 h3 h4 : length b = SLOT_WORDS →
  chan_inv (mk_chan ct true [] cm (Some b) st' std sm sb rq rs h1 h2 h3 h4) →
  chan_inv (mk_chan ct false [] cm None st' std sm sb rq rs h1 h2 h3 (h4 ++ [b])).
Proof.
  intros Hb (Hq & Hr & Hst). split; [done|]. split; [done|]. simpl in Hr. stage_cases Hst.
  match goal with Hp : b `prefix_of` _ |- _ => apply (load_all rs) in Hp as ->; try done end.
  by constructor 1.
Qed.

#[local] Hint Resolve client_store_inv server_sees_inv server_load_inv server_answers_inv server_store_inv
  client_sees_inv client_load_inv client_done_inv submit_inv : core.

Lemma step_inv x y : step x y → chan_inv x → chan_inv y.
Proof. intros [ | x' y' Hw]; [eauto|]. destruct Hw; eauto. Qed.

Lemma reachable_inv x : rtc step start x → chan_inv x.
Proof.
  intros Hr. assert (H : ∀ a b, rtc step a b → chan_inv a → chan_inv b).
  { intros a b Hab. induction Hab; [done|]. intros Ha. eauto using step_inv. }
  eapply H; [done|apply start_inv].
Qed.

(** C25: over any interleaving of the client and the server, word by word, the
    messages the server handles are the messages the client submitted, complete
    and in order, each exactly once; the client gets the answers to its messages
    in order, and at most one message is under way. *)
Theorem handshake_exactly_once x : rtc step start x →
  handled x `prefix_of` sent x ∧ got x `prefix_of` replied x ∧
  length (replied x) = length (handled x) ∧ (length (sent x) ≤ S (length (got x)))%nat ∧
  (c_processing x = false → sent x = handled x ∧ got x = replied x).
Proof.
  intros Hr. destruct (reachable_inv x Hr) as (_ & _ & Hst).
  destruct Hst; repeat match goal with E : sent x = _ |- _ => rewrite E | E : replied x = _ |- _ => rewrite E end;
    rewrite ?length_app; simpl; split_and!; try done; try (by eexists); try lia; try congruence;
    try (match goal with E : length (handled x) = length (replied x), E2 : replied x = _ |- _ =>
           rewrite E2, ?length_app in E; simpl in E; lia end).
Qed.

(** Steps left until the client has its answer. *)
Definition left_to_do (x : chan) : nat :=
  match c_todo x, c_buf x with
  | _ :: _, _ => length (c_todo x) + 100
  | [], Some b => 10 - length b
  | [], None =>
      if c_processing x then
        match s_todo x, s_buf x with
        | _ :: _, _ => 20 + length (s_todo x)
        | [], Some b => 50 - length b
        | [], None => if eqb (slot_toggle (req x)) (s_toggle x) then 15 else 60
        end
      else 0
  end.

Lemma slot_word (m : message) n : zlen m = MESSAGE_WORDS → (n < SLOT_WORDS)%nat → ∃ w, m !! n = Some w.
Proof.
  change MESSAGE_WORDS with 8. unfold zlen, SLOT_WORDS. intros Hl Hn. apply lookup_lt_is_Some. lia.
Qed.

Lemma answer_exists t : ∃ m, well_formed m t.
Proof. exists (header_word t 0 :: replicate 7 0). split; [done|]. apply header_word_toggle. Qed.

Lemma buf_bound (b : list Z) (m : message) : b `prefix_of` wire m → (length b ≤ SLOT_WORDS)%nat.
Proof. intros Hp%prefix_length. unfold wire in Hp. rewrite length_take in Hp. lia. Qed.

(** Some work is always enabled while an answer is awaited. *)
Lemma work_enabled x : chan_inv x → c_processing x = true → ∃ y, work x y.
Proof.
  intros (Hq & Hr & Hst) Hp. destruct x as [ct cp ctd cm cb st' std sm sb rq rs h1 h2 h3 h4]. simpl in *. subst cp.
  destruct Hst; simpl in *; subst; try done.
  - pose proof (drop_copy_nil k ltac:(done)) as Hne.
    destruct (drop k copy_order) as [|i todo]; [done|]. eexists. apply client_store.
  - destruct sb as [b|].
    + pose proof (buf_bound b _ ltac:(eassumption)) as Hb.
      destruct (decide (length b = SLOT_WORDS)) as [E|E].
      * destruct (answer_exists (negb (negb (slot_toggle rq)))) as [m Hm]. eexists. by eapply server_answers.
      * destruct (slot_word rq (length b) Hq) as [w Hw]; [lia|]. eexists. apply (server_load _ _ _ _ _ _ _ _ _ _ _ _ _ _ _ w); [lia|done].
    + eexists. apply server_sees. by destruct (slot_toggle rq).
  - pose proof (drop_copy_nil k ltac:(done)) as Hne.
    destruct (drop k copy_order) as [|i todo]; [done|]. eexists. apply server_store.
  - destruct cb as [b|].
    + pose proof (buf_bound b _ ltac:(eassumption)) as Hb.
      destruct (decide (length b = SLOT_WORDS)) as [E|E]; [eexists; by apply client_done|].
      destruct (slot_word rs (length b) Hr) as [w Hw]; [lia|]. eexists. apply (client_load _ _ _ _ _ _ _ _ _ _ _ _ _ _ _ w); [lia|done].
    + eexists. by apply client_sees.
Qed.

Lemma work_decreases x y : chan_inv x → work x y → (left_to_do y < left_to_do x)%nat.
Proof.
  intros (Hq & Hr & Hst) Hw. destruct Hw; destruct Hst; simpl in *; simplify_eq/=; try congruence;
    unfold left_to_do; simpl; rewrite ?length_app; simpl; unfold SLOT_WORDS in *; try lia.
  all: try (destruct todo; simpl; repeat case_match; lia).
  all: try (match goal with Hd : slot_toggle ?r = negb (slot_toggle ?r) |- _ => by destruct (slot_toggle r) end).
  all: try (match goal with Hd : [] = drop _ _, Hk : (_ ≤ 6)%nat |- _ => by destruct (drop_copy_nil _ Hk) end).
  all: rewrite ?eqb_reflx; repeat case_match; simpl in *; try lia.
  all: try (match goal with Hd : eqb ?b (negb ?b) = true |- _ => by destruct b end).
  match goal with Hp : _ `prefix_of` wire _ |- _ => apply buf_bound in Hp; unfold SLOT_WORDS in Hp; lia end.
Qed.

(** C26: the client is never stuck: while it waits some step of the client or the
    server is enabled, and every such step brings the answer nearer, so after at
    most [left_to_do] of them, in any order, [local_message_processing] is reset. *)
Theorem handshake_completes x : rtc step start x → c_processing x = true →
  (∃ y, work x y) ∧ (∀ y, work x y → (left_to_do y < left_to_do x)%nat).
Proof.
  intros Hr Hp. pose proof (reachable_inv x Hr) as Hi. split; [by apply work_enabled|].
  intros y. by apply work_decreases.
Qed.

(** *** A run: one request and its answer *)
Definition one_request : message := header_word true 1 :: [7; 0; 0; 0; 0; 0; 0].
Definition after_submit : chan :=
  mk_chan true true copy_order one_request None false [] empty_message None empty_message empty_message
    [wire one_request] [] [] [].

Lemma after_submit_reachable : rtc step start after_submit.
Proof.
  eapply rtc_l; [|apply rtc_refl].
  apply (submit false empty_message false [] empty_message None empty_message empty_message [] [] [] [] one_request). by split.
Qed.

Lemma handshake_exactly_once_witness : handled after_submit `prefix_of` sent after_submit ∧
  (length (sent after_submit) ≤ S (length (got after_submit)))%nat.
Proof. destruct (handshake_exactly_once after_submit after_submit_reachable) as (H1 & _ & _ & H2 & _). by split. Defined.

Lemma handshake_completes_witness : ∃ y, work after_submit y ∧ (left_to_do y < left_to_do after_submit)%nat.
Proof.
  destruct (handshake_completes after_submit after_submit_reachable eq_refl) as [[y Hy] H]. exists y. auto.
Defined.
