(* ===== verification/PartitionLink.v ===== *)
(** * A client and its servers, round by round

    One client of [PartitionClient.v] with the servers of [PartitionServer.v] as
    the rest of the program: while the client spins, every server goes through
    its loop.  What one server, its slots and the client's fields for it hold is
    a [lane]; a call of the client or a round of a server changes one lane.  The
    requests are answered by any functions; what is shown is that a request gets
    the answer of its server, at once or from the fiber. *)
From S2P Require Import Prelude Util PartitionType PartitionClient PartitionServer.
From stdpp Require Import list.

Open Scope Z_scope.

(** ** Messages *)
Definition same_words (m m' : message) : Prop := ∀ j, 0 ≤ j < 7 → zget m j = zget m' j.

Lemma same_words_copy src dst : zlen src = MESSAGE_WORDS → zlen dst = MESSAGE_WORDS → same_words (copy_message src dst) src.
Proof. intros Hs Hd j Hj. rewrite copy_message_get by done. by rewrite decide_True. Qed.

Lemma same_words_header m m' : same_words m m' → get_header m = get_header m'.
Proof. intros Hs. unfold get_header, aread. by rewrite Hs by lia. Qed.

Lemma same_words_req m m' k : same_words m m' → 0 ≤ k < MAX_COMMS → get_req m k = get_req m' k.
Proof. change MAX_COMMS with 3. intros Hs Hk. unfold get_req, aread, REQUEST_WORDS. by rewrite !Hs by lia. Qed.

Lemma same_words_resp m m' k : same_words m m' → 0 ≤ k < MAX_COMMS → get_resp m k = get_resp m' k.
Proof. change MAX_COMMS with 3. intros Hs Hk. unfold get_resp, aread. by rewrite Hs by lia. Qed.

(** The message has these requests, these responses. *)
Definition batch (m : message) (l : list request_type) : Prop := ∀ k r, l !! k = Some r → get_req m (Z.of_nat k) = Ok r.
Definition answers (m : message) (rs : list Z) : Prop := ∀ k p, rs !! k = Some p → get_resp m (Z.of_nat k) = Ok p.

Lemma batch_same m m' l : same_words m m' → zlen l ≤ MAX_COMMS → batch m' l → batch m l.
Proof.
  intros Hs Hl Hb k r Hk. rewrite (same_words_req m m'); [by apply Hb|done|]. apply lookup_lt_Some in Hk. unfold zlen in Hl. lia.
Qed.

Lemma answers_same m m' rs : same_words m m' → zlen rs ≤ MAX_COMMS → answers m' rs → answers m rs.
Proof.
  intros Hs Hl Hb k r Hk. rewrite (same_words_resp m m'); [by apply Hb|done|]. apply lookup_lt_Some in Hk. unfold zlen in Hl. lia.
Qed.

Lemma batch_header m l w : batch m l → batch (zset m 0 w) l.
Proof.
  intros Hb k r Hk. rewrite <- (Hb k r Hk). unfold get_req, aread, REQUEST_WORDS. by rewrite !zget_zset_ne by lia.
Qed.

Lemma answers_header m rs w : answers m rs → answers (zset m 0 w) rs.
Proof. intros Hb k r Hk. rewrite <- (Hb k r Hk). unfold get_resp, aread. by rewrite !zget_zset_ne by lia. Qed.

(** One more request. *)
Lemma batch_snoc m l r : zlen m = MESSAGE_WORDS → batch m l → zlen l < MAX_COMMS → 0 ≤ r_page_id r < 2 ^ PAGE_ID_BITS → ∃ m',
  set_req m (zlen l) r = Ok m' ∧ zlen m' = MESSAGE_WORDS ∧ batch m' (l ++ [r]).
Proof.
  intros Hm Hb Hl Hr. assert (0 ≤ zlen l) by (unfold zlen; lia).
  destruct (request_roundtrip m (zlen l) (zlen l) r Hm) as (m' & E & Hm' & _); [lia|lia|done|]. exists m'. split; [done|]. split; [done|].
  intros k q Hk. pose proof (lookup_lt_Some _ _ _ Hk) as Hlt. rewrite length_app in Hlt. simpl in Hlt.
  destruct (request_roundtrip m (zlen l) (Z.of_nat k) r Hm) as (m2 & E2 & _ & G); [lia|unfold zlen in *; lia|done|].
  rewrite E in E2. injection E2 as <-. rewrite G. destruct (decide (Z.of_nat k = zlen l)) as [Ek|Ek]; unfold zlen in Ek.
  - assert (k = length l) as -> by lia. rewrite lookup_app_r, Nat.sub_diag in Hk by done. by injection Hk as <-.
  - rewrite lookup_app_l in Hk by lia. by apply Hb.
Qed.

(** What the responses to the requests of a batch change in memory. *)
Definition store_response (mem : Z → Z) (a p : Z) : Z → Z :=
  if negb (a =? 0) && negb (p =? 0) then (λ x, if decide (x = a) then p else mem x) else mem.
Fixpoint store_responses (mem : Z → Z) (l : list request_type) (rs : list Z) : Z → Z :=
  match l, rs with r :: l, p :: rs => store_responses (store_response mem (r_resp r) p) l rs | _, _ => mem end.

Lemma deliver_ok m ptrs l rs i mem : (∀ k r, l !! k = Some r → zget ptrs (i + Z.of_nat k) = Some (r_resp r)) →
  (∀ k p, rs !! k = Some p → get_resp m (i + Z.of_nat k) = Ok p) → length l = length rs →
  deliver m ptrs i (length l) mem = Ok (store_responses mem l rs).
Proof.
  revert rs i mem. induction l as [|r l IH]; intros [|p rs] i mem Hl Hr Hlen; try done. cbn [length deliver store_responses].
  assert (zget ptrs i = Some (r_resp r)) as E1 by (rewrite <- (Hl 0%nat r eq_refl); f_equal; lia).
  assert (get_resp m i = Ok p) as E2 by (rewrite <- (Hr 0%nat p eq_refl); f_equal; lia).
  rewrite (bind_rew _ _ _ (proj2 (aread_Ok _ _ _) E1)), (bind_rew _ _ _ E2). apply IH; [| |by injection Hlen].
  - intros k q Hk. rewrite <- (Hl (S k) q Hk). f_equal. lia.
  - intros k q Hk. rewrite <- (Hr (S k) q Hk). f_equal. lia.
Qed.

(** ** Lanes *)
Section link.
Context {C A : Type}.
(** The functions a server answers with, the id of the client, and the number of
    clients. *)
Context (first_process : C → request_type → result (C * Z * option A)).
Context (process : C → (Z → Z) → A → request_type → result (C * (Z → Z) * A * bool)).
Context (c num_clients : Z).

Abbreviation srv := (server C A).
Abbreviation view := (st (list srv)).
Implicit Types (v : view) (s : srv) (l : list request_type) (rs : list Z).

(** The client's fields for a server, the rows of the server's slots, and the
    server. *)
Record lane := mk_lane {
  ln_pool : message;
  ln_status : message_status_type;
  ln_processing : bool;
  ln_toggle : bool;
  ln_epoch : Z;
  ln_requests : list message;
  ln_responses : list message;
  ln_server : srv;
}.
Implicit Types ln : lane.

Record lane_at v (i : Z) ln : Prop := {
  la_pool : zget (local_message_pool (cl v)) i = Some (ln_pool ln);
  la_status : zget (local_message_statuses (cl v)) i = Some (ln_status ln);
  la_processing : zget (local_message_processing (cl v)) i = Some (ln_processing ln);
  la_toggle : zget (toggles (cl v)) i = Some (ln_toggle ln);
  la_epoch : zget (epoches (cl v)) i = Some (ln_epoch ln);
  la_requests : zget (requests (sh v)) i = Some (ln_requests ln);
  la_responses : zget (responses (sh v)) i = Some (ln_responses ln);
  la_server : zget (others v) i = Some (ln_server ln);
}.

(** The view with another lane and another memory. *)
Definition put v (i : Z) ln (mem : Z → Z) : view :=
  mk_st (mk_client (cid (cl v)) (zset (local_message_pool (cl v)) i (ln_pool ln)) (zset (local_message_statuses (cl v)) i (ln_status ln))
           (zset (local_message_processing (cl v)) i (ln_processing ln)) (zset (toggles (cl v)) i (ln_toggle ln))
           (zset (epoches (cl v)) i (ln_epoch ln)))
    (mk_shared (zset (requests (sh v)) i (ln_requests ln)) (zset (responses (sh v)) i (ln_responses ln)) mem)
    (zset (others v) i (ln_server ln)).

Lemma put_at v i ln ln' mem : lane_at v i ln → lane_at (put v i ln' mem) i ln'.
Proof. intros [H1 H2 H3 H4 H5 H6 H7 H8]. split; apply zget_zset_eq; by eapply zget_range. Qed.

Lemma put_other v i ln' mem j lj : j ≠ i → lane_at v j lj → lane_at (put v i ln' mem) j lj.
Proof. intros Hj [H1 H2 H3 H4 H5 H6 H7 H8]. split; cbn; by rewrite zget_zset_ne. Qed.

Lemma lane_put_id v i ln : lane_at v i ln → put v i ln (resp_memory (sh v)) = v.
Proof.
  intros [H1 H2 H3 H4 H5 H6 H7 H8]. unfold put. rewrite !zset_id by done. by destruct v as [[] [] ?].
Qed.

Lemma lane_put_put v i ln ln' mem mem' : put (put v i ln mem) i ln' mem' = put v i ln' mem'.
Proof. unfold put. cbn. by rewrite !zset_zset. Qed.

Lemma lane_at_unique v i ln ln' : lane_at v i ln → lane_at v i ln' → ln = ln'.
Proof. intros [H1 H2 H3 H4 H5 H6 H7 H8] [G1 G2 G3 G4 G5 G6 G7 G8]. destruct ln, ln'. simpl in *. congruence. Qed.

(** ** Where the batch of a lane is *)
Definition slot_header (row : list message) (w : Z) : Prop := ∃ m, zget row c = Some m ∧ zlen m = MESSAGE_WORDS ∧ zget m 0 = Some w.
Definition slot_toggle_is (row : list message) (t : bool) : Prop := ∃ w, slot_header row w ∧ h_toggle w = t.
Definition awaits ln l : Prop := ∀ k r, l !! k = Some r → zget (s_responses (ln_status ln)) (Z.of_nat k) = Some (r_resp r).

(** What holds of a lane at any time; the slots of the other clients are quiet. *)
Record lane_ok (i : Z) ln : Prop := {
  lk_sid : sid (ln_server ln) = i;
  lk_pool : zlen (ln_pool ln) = MESSAGE_WORDS;
  lk_status : zlen (s_responses (ln_status ln)) = MAX_COMMS;
  lk_msg : ∃ m, zget (resp_messages (ln_server ln)) c = Some m ∧ zlen m = MESSAGE_WORDS;
  lk_quiet d : d ≠ c → 0 ≤ d < num_clients → ∃ m w t, zget (ln_requests ln) d = Some m ∧ zget m 0 = Some w ∧
    zget (s_toggles (ln_server ln)) d = Some t ∧ h_toggle w = t;
}.

(** Not sent; sent and not answered; answered and not collected. *)
Record idle ln l : Prop := {
  id_processing : ln_processing ln = false;
  id_num : num_requests (ln_status ln) = zlen l;
  id_room : zlen l ≤ MAX_COMMS;
  id_batch : batch (ln_pool ln) l;
  id_awaits : awaits ln l;
  id_server : zget (s_toggles (ln_server ln)) c = Some (ln_toggle ln);
  id_request : slot_toggle_is (ln_requests ln) (ln_toggle ln);
  id_response : slot_toggle_is (ln_responses ln) (ln_toggle ln);
}.

Record sent ln l : Prop := {
  se_processing : ln_processing ln = true;
  se_room : zlen l ≤ MAX_COMMS;
  se_awaits : awaits ln l;
  se_server : zget (s_toggles (ln_server ln)) c = Some (negb (ln_toggle ln));
  se_request : ∃ m w, zget (ln_requests ln) c = Some m ∧ zlen m = MESSAGE_WORDS ∧ zget m 0 = Some w ∧ h_toggle w = ln_toggle ln ∧
    h_num_comm w = zlen l ∧ batch m l;
  se_response : slot_toggle_is (ln_responses ln) (negb (ln_toggle ln));
}.

Record replied ln l rs : Prop := {
  re_processing : ln_processing ln = true;
  re_room : zlen l ≤ MAX_COMMS;
  re_len : length rs = length l;
  re_awaits : awaits ln l;
  re_server : zget (s_toggles (ln_server ln)) c = Some (ln_toggle ln);
  re_request : slot_toggle_is (ln_requests ln) (ln_toggle ln);
  re_response : ∃ m w, zget (ln_responses ln) c = Some m ∧ zlen m = MESSAGE_WORDS ∧ zget m 0 = Some w ∧ h_toggle w = ln_toggle ln ∧
    h_num_comm w = zlen l ∧ answers m rs;
}.

(** ** The client *)
Context (Hc : 0 ≤ c < num_clients).

Lemma slot_read_ok (slots : list (list message)) i row m : zget slots i = Some row → zget row c = Some m → slot_read slots i c = Ok m.
Proof. intros Hr Hm. unfold slot_read. rewrite (bind_rew _ _ _ (proj2 (aread_Ok _ _ _) Hr)). by apply aread_Ok. Qed.

Lemma slot_write_ok (slots : list (list message)) i row m old : zget slots i = Some row → zget row c = Some old →
  slot_write slots i c m = Ok (zset slots i (zset row c (copy_message m old))).
Proof.
  intros Hr Hm. unfold slot_write. rewrite (bind_rew _ _ _ (proj2 (aread_Ok _ _ _) Hr)), (bind_rew _ _ _ (proj2 (aread_Ok _ _ _) Hm)).
  rewrite (bind_rew _ _ _ (awrite_total row c _ (zget_range _ _ _ Hm))). apply awrite_total. by eapply zget_range.
Qed.

Lemma process_not v i ln : lane_at v i ln → ln_processing ln = false → process_message v i = Ok (v, false).
Proof. intros Hl Hp. unfold process_message. rewrite (bind_rew _ _ _ (proj2 (aread_Ok _ _ _) (la_processing _ _ _ Hl))), Hp. done. Qed.

Lemma process_sent v i ln l : cid (cl v) = c → lane_at v i ln → sent ln l → process_message v i = Ok (v, true).
Proof.
  intros Hcid Hl Hs. unfold process_message. rewrite (bind_rew _ _ _ (proj2 (aread_Ok _ _ _) (la_processing _ _ _ Hl))), (se_processing _ _ Hs). cbn [negb].
  rewrite (bind_rew _ _ _ (proj2 (aread_Ok _ _ _) (la_status _ _ _ Hl))), Hcid. destruct (se_response _ _ Hs) as (w & (m & Hm & _ & Hw) & Ht).
  rewrite (bind_rew _ _ _ (slot_read_ok _ _ _ _ (la_responses _ _ _ Hl) Hm)). unfold get_header.
  rewrite (bind_rew _ _ _ (proj2 (aread_Ok _ _ _) Hw)), (bind_rew _ _ _ (proj2 (aread_Ok _ _ _) (la_toggle _ _ _ Hl))), Ht. by destruct (ln_toggle ln).
Qed.

(** The answers are stored and the lane is free. *)
Definition collected ln : lane :=
  mk_lane (ln_pool ln) no_status false (ln_toggle ln) (ln_epoch ln) (ln_requests ln) (ln_responses ln) (ln_server ln).

Lemma collected_ok i ln : lane_ok i ln → lane_ok i (collected ln).
Proof. intros [H1 H2 H3 H4 H5]. by split. Qed.

Lemma collected_idle ln l rs : replied ln l rs → idle (collected ln) [].
Proof.
  intros [H1 H2 H3 H4 H5 H6 (m & w & Hm & Hlen & Hw & Ht & _)]. split; try done.
  by exists w; split; [exists m|].
Qed.

Lemma process_replied v i ln l rs : cid (cl v) = c → lane_at v i ln → replied ln l rs →
  process_message v i = Ok (put v i (collected ln) (store_responses (resp_memory (sh v)) l rs), true).
Proof.
  intros Hcid Hl Hs. unfold process_message. rewrite (bind_rew _ _ _ (proj2 (aread_Ok _ _ _) (la_processing _ _ _ Hl))), (re_processing _ _ _ Hs). cbn [negb].
  rewrite (bind_rew _ _ _ (proj2 (aread_Ok _ _ _) (la_status _ _ _ Hl))), Hcid. destruct (re_response _ _ _ Hs) as (m & w & Hm & _ & Hw & Ht & Hn & Ha).
  rewrite (bind_rew _ _ _ (slot_read_ok _ _ _ _ (la_responses _ _ _ Hl) Hm)). unfold get_header.
  rewrite (bind_rew _ _ _ (proj2 (aread_Ok _ _ _) Hw)), (bind_rew _ _ _ (proj2 (aread_Ok _ _ _) (la_toggle _ _ _ Hl))), Ht, eqb_reflx. cbn [negb].
  assert (Z.to_nat (h_num_comm w) = length l) as -> by (rewrite Hn; unfold zlen; lia).
  rewrite (bind_rew _ _ _ (deliver_ok m (s_responses (ln_status ln)) l rs 0 _ (re_awaits _ _ _ Hs) Ha (eq_sym (re_len _ _ _ Hs)))).
  rewrite !awrite_total by (by eapply zget_range; destruct Hl). cbn [mbind result_bind]. do 2 f_equal. unfold put. cbn [collected ln_pool ln_status ln_processing ln_toggle ln_epoch ln_requests ln_responses ln_server].
  rewrite !(zset_id _ _ _ (la_pool _ _ _ Hl)), !(zset_id _ _ _ (la_toggle _ _ _ Hl)), !(zset_id _ _ _ (la_epoch _ _ _ Hl)),
    !(zset_id _ _ _ (la_requests _ _ _ Hl)), !(zset_id _ _ _ (la_responses _ _ _ Hl)), !(zset_id _ _ _ (la_server _ _ _ Hl)). done.
Qed.

(** The batch is published. *)
Definition submitted ln l : lane :=
  let m := zset (ln_pool ln) 0 (header_word (negb (ln_toggle ln)) (zlen l)) in
  mk_lane m (ln_status ln) true (negb (ln_toggle ln)) (w64 (ln_epoch ln + 1))
    (zset (ln_requests ln) c (copy_message m (default empty_message (zget (ln_requests ln) c)))) (ln_responses ln) (ln_server ln).

Lemma submitted_ok i ln l : lane_ok i ln → lane_ok i (submitted ln l).
Proof.
  intros [H1 H2 H3 H4 H5]. split; try done.
  - cbn. by rewrite zlen_zset.
  - intros d Hd Hr. cbn [submitted ln_requests ln_server]. rewrite zget_zset_ne by done. by apply H5.
Qed.

Lemma header_word_toggle_num t n : 0 ≤ n ≤ MAX_COMMS → h_toggle (header_word t n) = t ∧ h_num_comm (header_word t n) = n.
Proof. change MAX_COMMS with 3. intros Hn. split; [apply header_word_toggle|apply header_word_num; lia]. Qed.

Lemma submitted_sent i ln l : lane_ok i ln → idle ln l → sent (submitted ln l) l.
Proof.
  intros Hok Hi. pose proof (id_room _ _ Hi) as Hroom. assert (0 ≤ zlen l) as Hpos by (unfold zlen; lia).
  destruct (header_word_toggle_num (negb (ln_toggle ln)) (zlen l)) as [Ht Hn]; [lia|].
  destruct (id_request _ _ Hi) as (w0 & (old & Hold & Hlen & _) & _).
  set (m := zset (ln_pool ln) 0 (header_word (negb (ln_toggle ln)) (zlen l))).
  assert (zlen m = MESSAGE_WORDS) as Hm by (unfold m; rewrite zlen_zset; apply Hok).
  assert (zget m 0 = Some (header_word (negb (ln_toggle ln)) (zlen l))) as Hm0.
  { unfold m. apply zget_zset_eq. rewrite (lk_pool _ _ Hok). by vm_compute. }
  split; try done; try apply Hi.
  - cbn. rewrite negb_involutive. apply Hi.
  - cbn [submitted ln_requests ln_toggle]. rewrite Hold. cbn [default]. fold m.
    exists (copy_message m old), (header_word (negb (ln_toggle ln)) (zlen l)).
    split; [apply zget_zset_eq; by eapply zget_range|]. split; [by rewrite copy_message_len|].
    split; [by rewrite copy_message_get, decide_True by done|]. split; [done|]. split; [done|].
    apply (batch_same _ m); [by apply same_words_copy|done|]. apply batch_header, Hi.
  - cbn. rewrite negb_involutive. apply Hi.
Qed.

Lemma submit_now_ok v i ln l : cid (cl v) = c → lane_at v i ln → lane_ok i ln → idle ln l →
  submit_now v i = Ok (if decide (l = []) then v else put v i (submitted ln l) (resp_memory (sh v))).
Proof.
  intros Hcid Hl Hok Hi. unfold submit_now. rewrite (bind_rew _ _ _ (proj2 (aread_Ok _ _ _) (la_status _ _ _ Hl))), (id_num _ _ Hi).
  destruct (decide (l = [])) as [->|Hne]; [done|]. assert ((zlen l =? 0) = false) as -> by (apply Z.eqb_neq; unfold zlen; destruct l; [done|simpl; lia]).
  rewrite (bind_rew _ _ _ (proj2 (aread_Ok _ _ _) (la_toggle _ _ _ Hl))). rewrite !awrite_total by (by eapply zget_range; destruct Hl). cbn [mbind result_bind].
  rewrite (bind_rew _ _ _ (proj2 (aread_Ok _ _ _) (la_pool _ _ _ Hl))). unfold set_header.
  rewrite awrite_total by (rewrite (lk_pool _ _ Hok); by vm_compute). cbn [mbind result_bind].
  rewrite !awrite_total by (by eapply zget_range; destruct Hl). cbn [mbind result_bind]. rewrite Hcid.
  destruct (id_request _ _ Hi) as (w0 & (old & Hold & Hlen & _) & _).
  rewrite (bind_rew _ _ _ (slot_write_ok _ _ _ _ _ (la_requests _ _ _ Hl) Hold)).
  rewrite !(bind_rew _ _ _ (proj2 (aread_Ok _ _ _) (la_epoch _ _ _ Hl))). rewrite !awrite_total by (by eapply zget_range; destruct Hl).
  cbn [mbind result_bind]. f_equal. unfold put, with_epoches, with_processing, with_pool, with_toggles.
  cbn [submitted ln_pool ln_status ln_processing ln_toggle ln_epoch ln_requests ln_responses ln_server cid local_message_pool
    local_message_statuses local_message_processing toggles epoches]. rewrite Hold, Hcid. cbn [default].
  rewrite !(zset_id _ _ _ (la_status _ _ _ Hl)), !(zset_id _ _ _ (la_responses _ _ _ Hl)), !(zset_id _ _ _ (la_server _ _ _ Hl)). done.
Qed.

(** A request joins the batch. *)
Definition appended ln l (r : request_type) : lane :=
  mk_lane (match set_req (ln_pool ln) (zlen l) r with Ok m => m | Err _ => ln_pool ln end)
    (mk_status (zlen l + 1) (zset (s_responses (ln_status ln)) (zlen l) (r_resp r)))
    (ln_processing ln) (ln_toggle ln) (ln_epoch ln) (ln_requests ln) (ln_responses ln) (ln_server ln).

Lemma appended_ok i ln l r : lane_ok i ln → idle ln l → zlen l < MAX_COMMS → 0 ≤ r_page_id r < 2 ^ PAGE_ID_BITS →
  lane_ok i (appended ln l r) ∧ idle (appended ln l r) (l ++ [r]) ∧ set_req (ln_pool ln) (zlen l) r = Ok (ln_pool (appended ln l r)).
Proof.
  intros Hok Hi Hroom Hr. destruct (batch_snoc (ln_pool ln) l r (lk_pool _ _ Hok) (id_batch _ _ Hi) Hroom Hr) as (m & E & Hm & Hb).
  assert (ln_pool (appended ln l r) = m) as Ep by (cbn; by rewrite E). split; [|split; [|by rewrite Ep]].
  - split; try apply Hok; [by rewrite Ep|]. cbn. rewrite zlen_zset. apply Hok.
  - split; try apply Hi.
    + cbn. unfold zlen. rewrite length_app. cbn. lia.
    + unfold zlen in *. rewrite length_app. cbn. lia.
    + by rewrite Ep.
    + intros k q Hk. cbn [appended ln_status s_responses]. pose proof (lookup_lt_Some _ _ _ Hk) as Hlt. rewrite length_app in Hlt. cbn in Hlt.
      destruct (decide (k = length l)) as [->|Hne].
      * rewrite lookup_app_r, Nat.sub_diag in Hk by done. injection Hk as <-. apply zget_zset_eq. rewrite (lk_status _ _ Hok). unfold zlen in *. lia.
      * rewrite lookup_app_l in Hk by lia. rewrite zget_zset_ne by (unfold zlen; lia). by apply Hi.
Qed.

(** ** The server *)

(** What a server does with the requests of a batch. *)
Fixpoint handle (x : C) l : result (C * list Z * list (request_type * A)) :=
  match l with
  | [] => Ok (x, [], [])
  | r :: l =>
      '(x, p, pending) ← first_process x r;
      '(x, rs, ch) ← handle x l;
      Ok (x, p :: rs, match pending with Some a => (r, a) :: ch | None => ch end)
  end.

Lemma handle_app x l1 l2 x1 rs1 ch1 x2 rs2 ch2 : handle x l1 = Ok (x1, rs1, ch1) → handle x1 l2 = Ok (x2, rs2, ch2) →
  handle x (l1 ++ l2) = Ok (x2, rs1 ++ rs2, ch1 ++ ch2).
Proof.
  revert x rs1 ch1. induction l1 as [|r l1 IH]; intros x rs1 ch1 H1 H2; cbn [handle app] in *; [by injection H1 as <- <- <-|].
  apply bind_Ok in H1 as ([[y p] pending] & E & H1). apply bind_Ok in H1 as ([[z rs] ch] & E1 & [= <- <- <-]).
  rewrite (bind_rew _ _ _ E), (bind_rew _ _ _ (IH _ _ _ E1 H2)). by destruct pending.
Qed.

Lemma set_resp_ok m i p : zlen m = MESSAGE_WORDS → 0 ≤ i < MAX_COMMS → set_resp m i p = Ok (zset m (1 + i) p).
Proof. change MAX_COMMS with 3. intros Hm Hi. unfold set_resp. apply awrite_total. rewrite Hm. change MESSAGE_WORDS with 8. lia. Qed.

Lemma get_resp_set m i p k : zlen m = MESSAGE_WORDS → 0 ≤ i < MAX_COMMS →
  get_resp (zset m (1 + i) p) k = if decide (k = i) then Ok p else get_resp m k.
Proof.
  change MAX_COMMS with 3. intros Hm Hi. unfold get_resp, aread. case_decide as E.
  - subst k. rewrite zget_zset_eq; [done|]. rewrite Hm. change MESSAGE_WORDS with 8. lia.
  - rewrite zget_zset_ne by lia. done.
Qed.

Lemma answer_ok m l i x resp num ch x' rs ch' : (∀ k r, l !! k = Some r → get_req m (i + Z.of_nat k) = Ok r) → 0 ≤ i → i + zlen l ≤ MAX_COMMS →
  zlen resp = MESSAGE_WORDS → handle x l = Ok (x', rs, ch') → ∃ resp',
  answer first_process m i (length l) x resp num ch = Ok (x', resp', num + zlen ch', ch ++ ch') ∧ zlen resp' = MESSAGE_WORDS ∧
  zget resp' 0 = zget resp 0 ∧ length rs = length l ∧ (∀ k p, rs !! k = Some p → get_resp resp' (i + Z.of_nat k) = Ok p) ∧
  ∀ k, k < i → get_resp resp' k = get_resp resp k.
Proof.
  revert i x resp num ch rs ch'. induction l as [|r l IH]; intros i x resp num ch rs ch' Hb Hi Hroom Hresp Hh; cbn [handle] in Hh.
  - injection Hh as <- <- <-. exists resp. cbn [length answer]. rewrite app_nil_r. unfold zlen. cbn. rewrite Z.add_0_r. done.
  - apply bind_Ok in Hh as ([[y p] pending] & E & Hh). apply bind_Ok in Hh as ([[z rs'] ch1] & E1 & [= <- <- <-]).
    unfold zlen in Hroom. cbn [length] in Hroom. cbn [length answer].
    assert (get_req m i = Ok r) as Er by (rewrite <- (Hb 0%nat r eq_refl); f_equal; lia).
    rewrite (bind_rew _ _ _ Er), (bind_rew _ _ _ E). cbv beta iota zeta. rewrite (bind_rew _ _ _ (set_resp_ok resp i p Hresp ltac:(lia))).
    set (resp1 := zset resp (1 + i) p).
    set (num1 := match pending with Some _ => num + 1 | None => num end). set (chn := match pending with Some a => ch ++ [(r, a)] | None => ch end).
    destruct (IH (i + 1) y resp1 num1 chn rs' ch1) as (resp' & Ha & Hlen & H0 & Hl & Hget & Hold); [|lia|unfold zlen; lia|by unfold resp1; rewrite zlen_zset|done|].
    { intros k q Hk. rewrite <- (Hb (S k) q Hk). f_equal. lia. }
    exists resp'. split; [|split; [done|split; [|split; [by cbn; rewrite Hl|split]]]].
    + destruct pending; unfold num1, chn in Ha; rewrite Ha; rewrite <- ?app_assoc; unfold zlen; cbn [length]; do 3 f_equal; lia.
    + rewrite H0. unfold resp1. by rewrite zget_zset_ne by lia.
    + intros [|k] q Hk; cbn in Hk.
      * injection Hk as <-. replace (i + Z.of_nat 0) with i by lia. rewrite Hold by lia. unfold resp1. rewrite get_resp_set by (done || lia). by rewrite decide_True.
      * rewrite <- (Hget k q Hk). f_equal. lia.
    + intros k Hk. rewrite Hold by lia. unfold resp1. rewrite get_resp_set by (done || lia). by rewrite decide_False by lia.
Qed.

(** The slot of client [d] has nothing new. *)
Definition nothing_new s (sh : shared) (d : Z) : Prop := ∃ row m w t, zget (requests sh) (sid s) = Some row ∧ zget row d = Some m ∧
  zget m 0 = Some w ∧ zget (s_toggles s) d = Some t ∧ h_toggle w = t.

Lemma serve_nothing s sh d : nothing_new s sh d → serve first_process s sh d = Ok (s, sh).
Proof.
  intros (row & m & w & t & Hrow & Hm & Hw & Ht & E). unfold serve, slot_read. rewrite (bind_rew (aread _ _) row _) by (by apply aread_Ok).
  rewrite (bind_rew (aread row d) m _) by (by apply aread_Ok). unfold get_header. rewrite (bind_rew (aread m 0) w _) by (by apply aread_Ok).
  rewrite (bind_rew (aread _ d) t _) by (by apply aread_Ok). by rewrite E, eqb_reflx.
Qed.

Lemma serve_all_nothing s sh ds : (∀ d, d ∈ ds → nothing_new s sh d) → serve_all first_process s sh ds = Ok (s, sh).
Proof.
  induction ds as [|d ds IH]; intros Hn; [done|]. cbn [serve_all]. rewrite (bind_rew _ _ _ (serve_nothing s sh d (Hn d ltac:(set_solver)))).
  apply IH. set_solver.
Qed.

Lemma serve_all_app s sh d1 d2 s1 sh1 : serve_all first_process s sh d1 = Ok (s1, sh1) →
  serve_all first_process s sh (d1 ++ d2) = serve_all first_process s1 sh1 d2.
Proof.
  revert s sh. induction d1 as [|d d1 IH]; intros s sh E; cbn [serve_all app] in *; [by injection E as <- <-|].
  apply bind_Ok in E as ([s2 sh2] & E2 & E). rewrite (bind_rew _ _ _ E2). by apply IH.
Qed.

(** A round of a server changes its own part of a lane. *)
Record client_part ln ln' : Prop := {
  cp_pool : ln_pool ln' = ln_pool ln;
  cp_status : ln_status ln' = ln_status ln;
  cp_processing : ln_processing ln' = ln_processing ln;
  cp_toggle : ln_toggle ln' = ln_toggle ln;
  cp_epoch : ln_epoch ln' = ln_epoch ln;
  cp_requests : ln_requests ln' = ln_requests ln;
}.

Lemma client_part_sh v i ln ln' mem : lane_at v i ln → client_part ln ln' →
  put v i ln' mem = mk_st (cl v) (mk_shared (requests (sh v)) (zset (responses (sh v)) i (ln_responses ln')) mem) (zset (others v) i (ln_server ln')).
Proof.
  intros Hl [H1 H2 H3 H4 H5 H6]. unfold put. rewrite H1, H2, H3, H4, H5, H6, !zset_id by (by destruct Hl). by destruct v as [[] ? ?].
Qed.

Lemma nothing_quiet v i ln d : lane_at v i ln → lane_ok i ln → d ≠ c → 0 ≤ d < num_clients → nothing_new (ln_server ln) (sh v) d.
Proof.
  intros Hl Hok Hd Hr. destruct (lk_quiet _ _ Hok d Hd Hr) as (m & w & t & Hm & Hw & Ht & E).
  exists (ln_requests ln), m, w, t. rewrite (lk_sid _ _ Hok). split; [apply Hl|done].
Qed.

Definition unserved ln : Prop := ∃ t, zget (s_toggles (ln_server ln)) c = Some t ∧ slot_toggle_is (ln_requests ln) t.

Lemma idle_unserved ln l : idle ln l → unserved ln.
Proof. intros Hi. exists (ln_toggle ln). split; apply Hi. Qed.
Lemma replied_unserved ln l rs : replied ln l rs → unserved ln.
Proof. intros Hi. exists (ln_toggle ln). split; apply Hi. Qed.

Lemma nothing_own v i ln : lane_at v i ln → lane_ok i ln → unserved ln → nothing_new (ln_server ln) (sh v) c.
Proof.
  intros Hl Hok (t & Ht & (w & (m & Hm & _ & Hw) & E)). exists (ln_requests ln), m, w, t. rewrite (lk_sid _ _ Hok). split; [apply Hl|done].
Qed.

Lemma serve_sent v i ln l mem x' rs ch : lane_at v i ln → lane_ok i ln → sent ln l → resp_memory (sh v) = mem →
  handle (context (ln_server ln)) l = Ok (x', rs, ch) → ∃ ln',
  serve first_process (ln_server ln) (sh v) c = Ok (ln_server ln', sh (put v i ln' mem)) ∧
  client_part ln ln' ∧ lane_ok i ln' ∧ replied ln' l rs ∧ context (ln_server ln') = x' ∧
  async_requests (ln_server ln') = async_requests (ln_server ln) ∧ num_async (ln_server ln') = num_async (ln_server ln) + zlen ch ∧
  async_channel (ln_server ln') = async_channel (ln_server ln) ++ ch.
Proof.
  intros Hl Hok Hs <- Hh. destruct (se_request _ _ Hs) as (m & w & Hm & Hlm & Hw & Ht & Hn & Hb). destruct (lk_msg _ _ Hok) as (resp & Hresp & Hrl).
  destruct (se_response _ _ Hs) as (w0 & (old & Hold & Hol & _) & _). pose proof (se_server _ _ Hs) as Htog. pose proof (se_room _ _ Hs) as Hroom.
  set (s := ln_server ln) in *. set (resp1 := zset resp 0 w).
  assert (zlen resp1 = MESSAGE_WORDS) as Hr1 by (unfold resp1; by rewrite zlen_zset).
  destruct (answer_ok m l 0 (context s) resp1 (num_async s) (async_channel s) x' rs ch) as (resp2 & Ha & Hr2 & H0 & Hlen & Hget & _); [|lia|lia|done|done|].
  { intros k r Hk. replace (0 + Z.of_nat k) with (Z.of_nat k) by lia. by apply Hb. }
  assert (zget resp2 0 = Some w) as H20 by (rewrite H0; unfold resp1; apply zget_zset_eq; rewrite Hrl; by vm_compute).
  set (t := ln_toggle ln) in *. set (resp3 := zset resp2 0 (header_word t (h_num_comm w))).
  assert (zlen resp3 = MESSAGE_WORDS) as Hr3 by (unfold resp3; by rewrite zlen_zset).
  set (s' := mk_server (sid s) (zset (s_toggles s) c t) (zset (resp_messages s) c resp3) x' (async_requests s) (num_async s + zlen ch) (async_channel s ++ ch)
               (w64 (count s + h_num_comm w))).
  set (ln' := mk_lane (ln_pool ln) (ln_status ln) (ln_processing ln) t (ln_epoch ln) (ln_requests ln) (zset (ln_responses ln) c (copy_message resp3 old)) s').
  assert (client_part ln ln') as Hcp by done. exists ln'. split; [|split; [done|split; [|split; [|done]]]].
  - rewrite (client_part_sh v i ln ln' _ Hl Hcp). cbn [sh ln_responses ln_server ln'].
    unfold serve. fold s. rewrite (lk_sid _ _ Hok : sid s = i), (bind_rew _ _ _ (slot_read_ok _ _ _ _ (la_requests _ _ _ Hl) Hm)). unfold get_header at 1.
    rewrite (bind_rew (aread m 0) w _) by (by apply aread_Ok). rewrite (bind_rew (aread (s_toggles s) c) (negb t) _) by (by apply aread_Ok).
    rewrite Ht. assert (eqb t (negb t) = false) as -> by (by destruct t). rewrite (bind_rew (aread (resp_messages s) c) resp _) by (by apply aread_Ok).
    unfold set_header at 1. rewrite awrite_total by (rewrite Hrl; by vm_compute). cbn [mbind result_bind]. fold resp1.
    assert (Z.to_nat (h_num_comm w) = length l) as -> by (rewrite Hn; unfold zlen; lia). rewrite (bind_rew _ _ _ Ha). cbv beta iota zeta.
    unfold send_response. cbn [s_toggles sid resp_messages context async_requests num_async async_channel count].
    rewrite (bind_rew (aread (s_toggles s) c) (negb t) _) by (by apply aread_Ok). rewrite negb_involutive.
    rewrite (awrite_total (s_toggles s)) by (by eapply zget_range). cbn [mbind result_bind]. unfold get_header, set_header.
    rewrite (bind_rew (aread resp2 0) w _) by (by apply aread_Ok). rewrite awrite_total by (rewrite Hr2; by vm_compute). cbn [mbind result_bind]. fold resp3.
    rewrite (awrite_total (resp_messages s)) by (by eapply zget_range). cbn [mbind result_bind].
    rewrite (bind_rew _ _ _ (slot_write_ok _ _ _ _ _ (la_responses _ _ _ Hl) Hold)). unfold s'. by rewrite (lk_sid _ _ Hok : sid s = i).
  - split; try apply Hok.
    + exists resp3. split; [|done]. apply zget_zset_eq. by eapply zget_range.
    + intros d Hd Hdr. cbn [ln' ln_server ln_requests s' s_toggles]. rewrite zget_zset_ne by congruence. by apply (lk_quiet _ _ Hok).
  - destruct (header_word_toggle_num t (zlen l)) as [Et En]; [unfold zlen in *; lia|].
    split; try done; try apply Hs.
    + apply zget_zset_eq. by eapply zget_range.
    + exists w. split; [by exists m|done].
    + exists (copy_message resp3 old), (header_word t (zlen l)). split; [apply zget_zset_eq; by eapply zget_range|].
      split; [by rewrite copy_message_len|]. split; [rewrite copy_message_get by done; rewrite decide_True by done; unfold resp3; rewrite <- Hn; apply zget_zset_eq; rewrite Hr2; by vm_compute|].
      split; [done|]. split; [done|]. apply (answers_same _ resp3); [by apply same_words_copy|unfold zlen; rewrite Hlen; exact Hroom|].
      apply answers_header. intros k p Hk. rewrite <- (Hget k p Hk). f_equal.
Qed.

(** ** A round of a server *)
Definition resting s : Prop := async_requests s = [] ∧ async_channel s = [] ∧ num_async s = 0.
Definition working s (r : request_type) (a : A) : Prop :=
  async_requests s ++ (Some <$> async_channel s) = [Some (r, a)] ∧ num_async s = 1.

(** The server of a lane with another context and other open requests. *)
Definition with_server ln s' : lane :=
  mk_lane (ln_pool ln) (ln_status ln) (ln_processing ln) (ln_toggle ln) (ln_epoch ln) (ln_requests ln) (ln_responses ln) s'.
Definition same_face s s' : Prop := sid s' = sid s ∧ s_toggles s' = s_toggles s ∧ resp_messages s' = resp_messages s.

Section face.
Context ln s' (Hf : same_face (ln_server ln) s').
#[local] Set Default Proof Using "Hf".

Lemma face_ok i : lane_ok i ln → lane_ok i (with_server ln s').
Proof. destruct Hf as (E1 & E2 & E3). intros [H1 H2 H3 H4 H5]. split; cbn; rewrite ?E1, ?E2, ?E3; done. Qed.
Lemma face_idle l : idle ln l → idle (with_server ln s') l.
Proof. destruct Hf as (E1 & E2 & E3). intros []. split; cbn; rewrite ?E2; done. Qed.
Lemma face_sent l : sent ln l → sent (with_server ln s') l.
Proof. destruct Hf as (E1 & E2 & E3). intros []. split; cbn; rewrite ?E2; done. Qed.
Lemma face_replied l rs : replied ln l rs → replied (with_server ln s') l rs.
Proof. destruct Hf as (E1 & E2 & E3). intros []. split; cbn; rewrite ?E2; done. Qed.
End face.

Lemma client_part_idle ln ln' l : client_part ln ln' → ln_responses ln' = ln_responses ln → s_toggles (ln_server ln') = s_toggles (ln_server ln) → idle ln l → idle ln' l.
Proof.
  intros [H1 H2 H3 H4 H5 H6] E1 E2 [G1 G2 G3 G4 G5 G6 G7 G8]. split; unfold awaits in *; rewrite ?H1, ?H2, ?H3, ?H4, ?H5, ?H6, ?E1, ?E2; done.
Qed.

Lemma fiber_working s (sh : shared) r a x' mem' a' (finished : bool) : working s r a →
  process (context s) (resp_memory sh) a r = Ok (x', mem', a', finished) → ∃ s',
  fiber_round process s sh = Ok (s', mk_shared (requests sh) (responses sh) mem') ∧ same_face s s' ∧ context s' = x' ∧
  if finished then resting s' else working s' r a'.
Proof.
  intros [Hw Hn] Hp. unfold fiber_round. rewrite Hw. cbn [continue_all]. rewrite (bind_rew _ _ _ Hp). cbn [mbind result_bind]. rewrite Hn.
  destruct finished; cbn [drop_finished]; eexists; (split; [reflexivity|]); (split; [done|]); (split; [done|]); done.
Qed.

(** One round of server [i]. *)
Definition server_turn v (i : Z) : result view :=
  s ← aread (others v) i;
  '(s, sh') ← loop_round first_process process num_clients s (sh v);
  ss ← awrite (others v) i s;
  Ok (mk_st (cl v) sh' ss).

Lemma seqZ_split : seqZ 0 num_clients = seqZ 0 c ++ c :: seqZ (c + 1) (num_clients - c - 1).
Proof using Hc.
  replace num_clients with (c + (num_clients - c)) at 1 by lia. rewrite seqZ_app, (seqZ_cons (0 + c)) by lia.
  replace (0 + c) with c by lia. replace (Z.succ c) with (c + 1) by lia. by replace (Z.pred (num_clients - c)) with (num_clients - c - 1) by lia.
Qed.

Lemma serve_all_own v i ln mem s' ln' : lane_at v i ln → lane_ok i ln →
  serve first_process (ln_server ln) (sh v) c = Ok (s', sh (put v i ln' mem)) → s' = ln_server ln' → lane_ok i ln' →
  serve_all first_process (ln_server ln) (sh v) (seqZ 0 num_clients) = Ok (s', sh (put v i ln' mem)).
Proof using Hc.
  intros Hl Hok Hs -> Hok'. rewrite seqZ_split. rewrite (serve_all_app _ _ _ _ (ln_server ln) (sh v)).
  - cbn [serve_all]. rewrite (bind_rew _ _ _ Hs). apply serve_all_nothing. intros d Hd%elem_of_seqZ.
    apply (nothing_quiet (put v i ln' mem) i ln' d); [by eapply put_at|done|lia|lia].
  - apply serve_all_nothing. intros d Hd%elem_of_seqZ. apply (nothing_quiet v i ln d); [done|done|lia|lia].
Qed.

(** The other lanes, and the client's other fields, are as before. *)
Lemma put_cid v i ln mem : cid (cl (put v i ln mem)) = cid (cl v).
Proof. done. Qed.

Lemma client_part_cl v i ln ln' mem : lane_at v i ln → client_part ln ln' → cl (put v i ln' mem) = cl v.
Proof. intros Hl Hp. by rewrite (client_part_sh v i ln ln' mem Hl Hp). Qed.

Lemma client_part_refl ln : client_part ln ln.
Proof. by split. Qed.

Lemma turn_put v i ln ln' s' mem' sh1 : lane_at v i ln → client_part ln ln' → s' = ln_server ln' →
  loop_round first_process process num_clients (ln_server ln) (sh v) = Ok (s', sh1) → sh1 = sh (put v i ln' mem') →
  server_turn v i = Ok (put v i ln' mem').
Proof.
  intros Hl Hp -> Hr ->. unfold server_turn. rewrite (bind_rew _ _ _ (proj2 (aread_Ok _ _ _) (la_server _ _ _ Hl))), (bind_rew _ _ _ Hr). cbv beta iota zeta.
  rewrite awrite_total by (eapply zget_range; apply Hl). cbn [mbind result_bind]. by rewrite (client_part_sh v i ln ln' mem' Hl Hp).
Qed.

(** Nothing to do. *)
Lemma turn_rests v i ln : lane_at v i ln → lane_ok i ln → unserved ln → resting (ln_server ln) →
  server_turn v i = Ok (put v i ln (resp_memory (sh v))).
Proof using Hc.
  intros Hl Hok Hu (_ & _ & Hn). apply (turn_put v i ln ln (ln_server ln) _ (sh v)); [done|apply client_part_refl|done| |by rewrite lane_put_id].
  unfold loop_round. rewrite (serve_all_own v i ln (resp_memory (sh v)) (ln_server ln) ln Hl Hok); [|by rewrite lane_put_id by done; by apply serve_nothing, (nothing_own v i)|done|done].
  cbn [mbind result_bind]. rewrite Hn, lane_put_id by done. done.
Qed.

(** An open request is continued. *)
Lemma turn_works v i ln r a x' mem' a' (finished : bool) : lane_at v i ln → lane_ok i ln → unserved ln → working (ln_server ln) r a →
  process (context (ln_server ln)) (resp_memory (sh v)) a r = Ok (x', mem', a', finished) → ∃ s',
  server_turn v i = Ok (put v i (with_server ln s') mem') ∧ same_face (ln_server ln) s' ∧ context s' = x' ∧
  if finished then resting s' else working s' r a'.
Proof using Hc.
  intros Hl Hok Hu Hw Hp. destruct (fiber_working _ (sh v) r a x' mem' a' finished Hw Hp) as (s' & Hr & Hf & Hx & Hs).
  exists s'. split; [|done]. eapply (turn_put v i ln (with_server ln s') s' mem'); [done|done|done| |].
  - unfold loop_round. rewrite (serve_all_own v i ln (resp_memory (sh v)) (ln_server ln) ln Hl Hok); [|by rewrite lane_put_id by done; by apply serve_nothing, (nothing_own v i)|done|done].
    cbn [mbind result_bind]. rewrite lane_put_id by done. destruct Hw as [_ Hn]. rewrite Hn. exact Hr.
  - rewrite (client_part_sh v i ln (with_server ln s') mem') by done. cbn. by rewrite zset_id by apply Hl.
Qed.

(** A batch is answered at once. *)
Lemma turn_answers v i ln l x' rs : lane_at v i ln → lane_ok i ln → sent ln l → resting (ln_server ln) →
  handle (context (ln_server ln)) l = Ok (x', rs, []) → ∃ ln',
  server_turn v i = Ok (put v i ln' (resp_memory (sh v))) ∧ client_part ln ln' ∧ lane_ok i ln' ∧ replied ln' l rs ∧
  context (ln_server ln') = x' ∧ resting (ln_server ln').
Proof using Hc.
  intros Hl Hok Hs (Ha & Hch & Hn) Hh. destruct (serve_sent v i ln l _ x' rs [] Hl Hok Hs eq_refl Hh) as (ln' & Hr & Hcp & Hok' & Hre & Hx & Ha' & Hn' & Hch').
  rewrite Hn in Hn'. rewrite Hch, app_nil_r in Hch'. rewrite Ha in Ha'. exists ln'. split; [|by do 4 (split; [done|])].
  apply (turn_put v i ln ln' (ln_server ln') _ (sh (put v i ln' (resp_memory (sh v))))); [done|done|done| |done].
  unfold loop_round. rewrite (serve_all_own v i ln _ (ln_server ln') ln' Hl Hok Hr eq_refl Hok'). cbn [mbind result_bind]. by rewrite Hn'.
Qed.

(** A batch is answered but for one request, which the fiber takes over. *)
Lemma turn_starts v i ln l x1 rs r a x' mem' a' (finished : bool) : lane_at v i ln → lane_ok i ln → sent ln l → resting (ln_server ln) →
  handle (context (ln_server ln)) l = Ok (x1, rs, [(r, a)]) →
  process x1 (resp_memory (sh v)) a r = Ok (x', mem', a', finished) → ∃ ln',
  server_turn v i = Ok (put v i ln' mem') ∧ client_part ln ln' ∧ lane_ok i ln' ∧ replied ln' l rs ∧
  context (ln_server ln') = x' ∧ if finished then resting (ln_server ln') else working (ln_server ln') r a'.
Proof using Hc.
  intros Hl Hok Hs (Ha & Hch & Hn) Hh Hp. destruct (serve_sent v i ln l _ x1 rs _ Hl Hok Hs eq_refl Hh) as (ln1 & Hr & Hcp & Hok1 & Hre & Hx & Ha' & Hn' & Hch').
  rewrite Hn in Hn'. rewrite Hch in Hch'. rewrite Ha in Ha'. set (v1 := put v i ln1 (resp_memory (sh v))) in *.
  assert (working (ln_server ln1) r a) as Hw by (split; [by rewrite Ha', Hch'|exact Hn']). rewrite <- Hx in Hp.
  destruct (fiber_working (ln_server ln1) (sh v1) r a x' mem' a' finished Hw Hp) as (s' & Hr' & Hf & Hx' & Hs').
  exists (with_server ln1 s'). assert (client_part ln (with_server ln1 s')) as Hcp' by (destruct Hcp; by split).
  split; [|split; [done|split; [by apply face_ok|split; [by apply face_replied|done]]]].
  eapply (turn_put v i ln _ s' mem'); [done|done|done| |].
  - unfold loop_round. rewrite (serve_all_own v i ln _ (ln_server ln1) ln1 Hl Hok Hr eq_refl Hok1). cbn [mbind result_bind]. rewrite Hn'. exact Hr'.
  - rewrite (client_part_sh v i ln _ mem' Hl Hcp'). unfold v1. rewrite (client_part_sh v i ln ln1 _ Hl Hcp). done.
Qed.
End link.
