(* ===== verification/PartitionCall.v ===== *)
(** * A call of a client is answered

    The client of [PartitionLink.v] spins while the servers run their rounds, in
    an order in which every server has its turn.  A request joins the batch for
    its server, the batch is published and answered, and a request the server
    could not answer at once is finished by the fiber: the caller gets the answer
    after a bounded number of rounds, and the other servers are as they were. *)
From S2P Require Import Prelude Util PartitionType PartitionClient PartitionServer PartitionLink.
From stdpp Require Import list.

Open Scope Z_scope.

Section call.
Context {C A : Type}.
Context (first_process : C → request_type → result (C * Z * option A)).
Context (process : C → (Z → Z) → A → request_type → result (C * (Z → Z) * A * bool)).
Context (c num_clients : Z) (Hc : 0 ≤ c < num_clients).

Abbreviation srv := (server C A).
Abbreviation view := (st (list srv)).
Abbreviation lane := (lane (C:=C) (A:=A)).
Abbreviation lane_ok := (lane_ok c num_clients).
Abbreviation idle := (idle c).
Abbreviation sent := (sent c).
Abbreviation replied := (replied c).
Abbreviation turn := (server_turn first_process process num_clients).
Implicit Types (v : view) (ln : lane) (l : list request_type) (rs : list Z) (mem : Z → Z) (i : Z) (k : nat).

(** The rest of the program while the client spins: the servers take turns. *)
Fixpoint run_servers (sched : list Z) (sh : shared) (ss : list srv) : result (shared * list srv) :=
  match sched with
  | [] => Ok (sh, ss)
  | i :: sched =>
      s ← aread ss i;
      '(s, sh) ← loop_round first_process process num_clients s sh;
      ss ← awrite ss i s;
      run_servers sched sh ss
  end.

Lemma run_cons v i sched v1 : turn v i = Ok v1 →
  run_servers (i :: sched) (sh v) (others v) = run_servers sched (sh v1) (others v1) ∧ cl v1 = cl v.
Proof.
  unfold server_turn. intros (s & E1 & Hr)%bind_Ok. apply bind_Ok in Hr as ([s1 sh1] & E2 & Hr). apply bind_Ok in Hr as (ss & E3 & [= <-]).
  cbn [run_servers]. by rewrite (bind_rew _ _ _ E1), (bind_rew _ _ _ E2), (bind_rew _ _ _ E3).
Qed.

(** What runs while the client spins gives every server a turn, in any order and
    any number of times. *)
Definition fair (n : Z) (env : shared → list srv → result (shared * list srv)) : Prop :=
  ∀ s ss, ∃ ds, (∀ i, i ∈ ds ↔ 0 ≤ i < n) ∧ env s ss = run_servers ds s ss.

Context (n : Z) (env : shared → list srv → result (shared * list srv)) (Henv : fair n env).

(** ** Lanes with a measure that the turns of the server lower *)

(** The answer is in the slot, and the client may take it. *)
Definition collectable (F : Z → nat → lane → (Z → Z) → Prop) i k ln mem : Prop := ∃ l rs, replied ln l rs ∧
  F i k (collected ln) (store_responses mem l rs) ∧ ∀ j k lj, j ≠ i → F j k lj mem → F j k lj (store_responses mem l rs).

Record family (F : Z → nat → lane → (Z → Z) → Prop) : Prop := {
  fam_turn v i k ln : lane_at v i ln → lane_ok i ln → F i k ln (resp_memory (sh v)) → ∃ ln' mem' k',
    turn v i = Ok (put v i ln' mem') ∧ client_part ln ln' ∧ lane_ok i ln' ∧ (k' ≤ pred k)%nat ∧ F i k' ln' mem' ∧ (∀ l, ¬ sent ln' l) ∧
    ∀ j k lj, j ≠ i → F j k lj (resp_memory (sh v)) → F j k lj mem';
  fam_stage i k ln mem : F i k ln mem → (∃ l, idle ln l) ∨ (∃ l, sent ln l) ∨ collectable F i k ln mem;
}.

Definition all_lanes (F : Z → nat → lane → (Z → Z) → Prop) (kf : Z → nat) v : Prop := cid (cl v) = c ∧
  ∀ i, 0 ≤ i < n → ∃ ln k, lane_at v i ln ∧ lane_ok i ln ∧ (k ≤ kf i)%nat ∧ F i k ln (resp_memory (sh v)).

Definition not_sent v i : Prop := ∃ ln, lane_at v i ln ∧ ∀ l, ¬ sent ln l.

Section family.
Context F (HF : family F).
#[local] Set Default Proof Using "HF Hc".

Lemma all_lanes_mono kf kf' v : (∀ i, kf i ≤ kf' i)%nat → all_lanes F kf v → all_lanes F kf' v.
Proof using. intros Hk [Hcid Hl]. split; [done|]. intros i Hi. destruct (Hl i Hi) as (ln & k & H1 & H2 & H3 & H4). exists ln, k. pose proof (Hk i). split; [done|]. split; [done|]. split; [lia|done]. Qed.

(** One lane changes, and the others with the memory only. *)
Lemma all_lanes_put kf v i ln ln' k' mem' : all_lanes F kf v → lane_at v i ln → lane_ok i ln' → F i k' ln' mem' →
  (∀ j k lj, j ≠ i → F j k lj (resp_memory (sh v)) → F j k lj mem') →
  all_lanes F (λ j, if decide (j = i) then k' else kf j) (put v i ln' mem').
Proof using.
  intros [Hcid Hl] Hi Hok HF' Hsep. split; [done|]. intros j Hj. destruct (decide (j = i)) as [->|Hne].
  - exists ln', k'. split; [by eapply put_at|]. split; [done|]. split; [done|]. exact HF'.
  - destruct (Hl j Hj) as (lj & k & H1 & H2 & H3 & H4). exists lj, k. split; [by apply put_other|]. split; [done|]. split; [done|]. by apply Hsep.
Qed.

Lemma turns_ok sc v kf : (∀ i, i ∈ sc → 0 ≤ i < n) → all_lanes F kf v → ∃ sh' o', run_servers sc (sh v) (others v) = Ok (sh', o') ∧
  let v' := mk_st (cl v) sh' o' in all_lanes F (λ i, if decide (i ∈ sc) then pred (kf i) else kf i) v' ∧
  ∀ i, 0 ≤ i < n → i ∈ sc ∨ not_sent v i → not_sent v' i.
Proof.
  revert v kf. induction sc as [|i sc IH]; intros v kf Hsc Hv.
  - exists (sh v), (others v). split; [done|]. cbn zeta. destruct v as [? ? ?]. split; [|intros i _ [Hi|Hi]; [by apply elem_of_nil in Hi|done]].
    eapply all_lanes_mono; [|exact Hv]. intros j. by rewrite decide_False by apply not_elem_of_nil.
  - pose proof (Hsc i (list_elem_of_here _ _)) as Hi. destruct (proj2 Hv i Hi) as (ln & k & Hl & Hok & Hk & HFi).
    destruct (fam_turn F HF v i k ln Hl Hok HFi) as (ln' & mem' & k' & Ht & Hcp & Hok' & Hk' & HF' & Hns & Hsep).
    destruct (run_cons v i sc _ Ht) as [-> Ecl]. set (v1 := put v i ln' mem') in *. rewrite <- Ecl.
    destruct (IH v1 _ (λ j Hj, Hsc j (list_elem_of_further _ _ _ Hj)) (all_lanes_put kf v i ln ln' k' mem' Hv Hl Hok' HF' Hsep)) as (sh' & o' & Hr & Hv' & Hns').
    exists sh', o'. split; [done|]. cbn zeta. split.
    + eapply all_lanes_mono; [|exact Hv']. intros j. cbn beta.
      destruct (decide (j = i)) as [->|Hne]; [rewrite (decide_True (P := i ∈ i :: sc)) by (by left); case_decide; lia|].
      destruct (decide (j ∈ sc)) as [Hj|Hj]; [by rewrite decide_True by (by right)|]. rewrite decide_False; [done|]. by intros [?|?]%elem_of_cons.
    + intros j Hj Hor. apply Hns'; [done|]. destruct (decide (j = i)) as [->|Hne]; [right; exists ln'; split; [by eapply put_at|done]|].
      destruct Hor as [[?|?]%elem_of_cons|(lj & Hlj & Hnj)]; [done|by left|right]. exists lj. split; [by apply put_other|done].
Qed.

Lemma env_ok v kf : all_lanes F kf v → ∃ sh' o', env (sh v) (others v) = Ok (sh', o') ∧
  let v' := mk_st (cl v) sh' o' in all_lanes F (λ i, pred (kf i)) v' ∧ ∀ i, 0 ≤ i < n → not_sent v' i.
Proof using HF Hc Henv.
  intros Hv. destruct (Henv (sh v) (others v)) as (ds & Hds & ->). destruct (turns_ok ds v kf (λ i, proj1 (Hds i)) Hv) as (sh' & o' & Hr & [Hcid Hv'] & Hns). exists sh', o'. split; [done|]. cbn zeta. split.
  - split; [done|]. intros i Hi. destruct (Hv' i Hi) as (ln & k & H1 & H2 & H3 & H4). exists ln, k. by rewrite decide_True in H3 by (by apply Hds).
  - intros i Hi. apply Hns; [done|]. left. by apply Hds.
Qed.

Lemma not_sent_stage v i kf : all_lanes F kf v → 0 ≤ i < n → not_sent v i → ∃ ln k, lane_at v i ln ∧ lane_ok i ln ∧ (k ≤ kf i)%nat ∧
  F i k ln (resp_memory (sh v)) ∧ ((∃ l, idle ln l) ∨ collectable F i k ln (resp_memory (sh v))).
Proof.
  intros [_ Hv] Hi (ln & Hl & Hns). destruct (Hv i Hi) as (ln' & k & Hl' & Hok & Hk & HFi). destruct (lane_at_unique _ _ _ _ Hl Hl').
  exists ln, k. split; [done|]. split; [done|]. split; [done|]. split; [done|].
  destruct (fam_stage F HF _ _ _ _ HFi) as [?|[(l & Hs)|?]]; [by left|by destruct (Hns l)|by right].
Qed.

Lemma lane_processing v i ln : lane_at v i ln → aread (local_message_processing (cl v)) i = Ok (ln_processing ln).
Proof using. intros Hl. apply aread_Ok, Hl. Qed.

Definition not_processing v i : Prop := aread (local_message_processing (cl v)) i = Ok false.

Lemma await_done fuel v i : not_processing v i → await env fuel v i = Ok v.
Proof using. intros Hp. destruct fuel; cbn [await]; by rewrite (bind_rew _ _ _ Hp). Qed.

(** The answer is there: it is collected. *)
Lemma await_replied fuel v i kf ln k : (1 ≤ fuel)%nat → all_lanes F kf v → 0 ≤ i < n → lane_at v i ln → lane_ok i ln → (k ≤ kf i)%nat →
  collectable F i k ln (resp_memory (sh v)) →
  ∃ v', await env fuel v i = Ok v' ∧ all_lanes F (λ i, pred (kf i)) v' ∧ not_processing v' i ∧ ∀ i, 0 ≤ i < n → not_sent v' i.
Proof using HF Hc Henv.
  intros Hf Hv Hi Hl Hok Hk (l & rs & Hre & HF' & Hsep). destruct fuel as [|fuel]; [lia|]. cbn [await]. pose proof Hv as [Hcid Hall].
  rewrite (bind_rew _ _ _ (lane_processing v i ln Hl)), (re_processing _ _ _ _ Hre). cbn [negb].
  rewrite (bind_rew _ _ _ (process_replied c v i ln l rs Hcid Hl Hre)). cbv beta iota zeta.
  set (v1 := put v i (collected ln) (store_responses (resp_memory (sh v)) l rs)).
  assert (all_lanes F kf v1) as Hv1.
  { eapply all_lanes_mono; [|apply (all_lanes_put kf v i ln (collected ln) k _ Hv Hl (collected_ok _ _ _ _ Hok) HF' Hsep)].
    intros j. cbn beta. case_decide; [by subst|done]. }
  destruct (env_ok v1 kf Hv1) as (sh' & o' & Hr & Hv' & Hns). rewrite (bind_rew _ _ _ Hr). cbv beta iota zeta.
  assert (not_processing (mk_st (cl v1) sh' o') i) as Hnp by (apply (lane_processing v1 i (collected ln)); by eapply put_at).
  exists (mk_st (cl v1) sh' o'). split; [by apply await_done|]. done.
Qed.

Lemma await_ok fuel v i kf : (2 ≤ fuel)%nat → all_lanes F kf v → 0 ≤ i < n →
  ∃ v', await env fuel v i = Ok v' ∧ all_lanes F kf v' ∧ not_processing v' i ∧
    (∀ j, 0 ≤ j < n → not_sent v j ∨ ¬ not_processing v i → not_sent v' j) ∧ (not_processing v i → v' = v) ∧
    (¬ not_processing v i → all_lanes F (λ i, pred (kf i)) v').
Proof using HF Hc Henv.
  intros Hf Hv Hi. pose proof Hv as [Hcid Hall]. destruct (Hall i Hi) as (ln & k & Hl & Hok & Hk & HFi).
  assert (∀ u, all_lanes F (λ i, pred (kf i)) u → all_lanes F kf u) as Hmono by (intros u; apply all_lanes_mono; intros j; lia).
  assert (ln_processing ln = true → ¬ not_processing v i) as Hpr.
  { intros Hp Hn. unfold not_processing in Hn. rewrite (lane_processing v i ln Hl), Hp in Hn. done. }
  destruct (fam_stage F HF _ _ _ _ HFi) as [(l & Hs)|[(l & Hs)|Hcol]].
  - assert (not_processing v i) as Hn by (unfold not_processing; by rewrite (lane_processing v i ln Hl), (id_processing _ _ _ Hs)).
    exists v. split; [by apply await_done|]. split; [done|]. split; [done|]. split; [by intros j _ [?|?]|]. split; [done|by intros].
  - destruct fuel as [|fuel]; [lia|]. cbn [await]. rewrite (bind_rew _ _ _ (lane_processing v i ln Hl)), (se_processing _ _ _ Hs). cbn [negb].
    rewrite (bind_rew _ _ _ (process_sent c v i ln l Hcid Hl Hs)). cbv beta iota zeta.
    destruct (env_ok v kf Hv) as (sh' & o' & Hr & Hv' & Hns). rewrite (bind_rew _ _ _ Hr). cbv beta iota zeta. set (v1 := mk_st (cl v) sh' o') in *.
    destruct (not_sent_stage v1 i _ Hv' Hi (Hns i Hi)) as (ln1 & k1 & Hl1 & Hok1 & Hk1 & HF1 & Hst).
    assert (ln_processing ln1 = true) as Hp1.
    { pose proof (lane_processing v1 i ln1 Hl1) as E. change (cl v1) with (cl v) in E. rewrite (lane_processing v i ln Hl), (se_processing _ _ _ Hs) in E. by injection E. }
    destruct Hst as [(l1 & Hs1)|Hcol]; [by rewrite (id_processing _ _ _ Hs1) in Hp1|].
    destruct (await_replied fuel v1 i _ ln1 k1 ltac:(lia) Hv' Hi Hl1 Hok1 Hk1 Hcol) as (v2 & Hr2 & Hv2 & Hn2 & Hns2).
    exists v2. split; [done|]. assert (all_lanes F (λ i, pred (kf i)) v2) as Hv2' by (eapply all_lanes_mono; [|exact Hv2]; intros j; cbn; lia).
    split; [by apply Hmono|]. split; [done|]. split; [by intros; apply Hns2|]. split; [|done]. intros Hn. by destruct (Hpr (se_processing _ _ _ Hs)).
  - destruct (await_replied fuel v i kf ln k ltac:(lia) Hv Hi Hl Hok Hk Hcol) as (v2 & Hr2 & Hv2 & Hn2 & Hns2).
    exists v2. split; [done|]. split; [by apply Hmono|]. split; [done|]. split; [by intros; apply Hns2|]. split; [|done].
    intros Hn. destruct Hcol as (l & rs & Hs & _). by destruct (Hpr (re_processing _ _ _ _ Hs)).
Qed.

(** The epoch has passed: nothing is published. *)
Lemma poll_past d fuel v i ln ep : lane_at v i ln → ep < ln_epoch ln → poll_message env d fuel v i ep = await env fuel v i.
Proof using.
  intros Hl He. destruct d; cbn [poll_message]; rewrite (bind_rew _ _ _ (proj2 (aread_Ok _ _ _) (la_epoch _ _ _ Hl)));
    by rewrite (proj2 (Z.leb_gt _ _) He).
Qed.
End family.

(** ** Lanes without a call under way

    The batches hold notifications only: their answers are not stored.  [Q] is
    what holds of a server whose client has sent or will send these. *)
Definition notes l : Prop := ∀ r, r ∈ l → r_resp r = 0.

Definition serves_notes (Q : Z → C → list request_type → Prop) : Prop := ∀ i x l, Q i x l →
  notes l ∧ ∃ x' rs, handle first_process x l = Ok (x', rs, []) ∧ Q i x' [].

Lemma store_notes mem l rs : notes l → store_responses mem l rs = mem.
Proof.
  revert mem rs. induction l as [|r l IH]; intros mem [|p rs] Hn; try done. cbn [store_responses]. unfold store_response.
  rewrite (Hn r) by (by left). cbn. apply IH. intros q Hq. apply Hn. by right.
Qed.

Section quiet.
Context (Q : Z → C → list request_type → Prop) (HQ : serves_notes Q).

Definition quiet_stage i ln : Prop :=
  (∃ l, idle ln l ∧ zlen l < MAX_COMMS ∧ Q i (context (ln_server ln)) l) ∨ (∃ l, sent ln l ∧ Q i (context (ln_server ln)) l) ∨
  (∃ l rs, replied ln l rs ∧ notes l ∧ Q i (context (ln_server ln)) []).

(** [E i] bounds the epoch of lane [i]. *)
Definition quiet_lane (E : Z → Z) i ln : Prop := resting (ln_server ln) ∧ 1 ≤ ln_epoch ln ≤ E i ∧ quiet_stage i ln.
Definition quiet (E : Z → Z) (m0 : Z → Z) i k ln mem : Prop := mem = m0 ∧ quiet_lane E i ln.

Lemma collected_quiet E i ln l rs : quiet_lane E i ln → replied ln l rs → Q i (context (ln_server ln)) [] → quiet_lane E i (collected ln).
Proof using. intros (Hr & He & _) Hre Hx. split; [done|]. split; [done|]. left. exists []. split; [by eapply collected_idle|]. done. Qed.

Lemma quiet_turn E v i ln : lane_at v i ln → lane_ok i ln → quiet_lane E i ln → ∃ ln',
  turn v i = Ok (put v i ln' (resp_memory (sh v))) ∧ client_part ln ln' ∧ lane_ok i ln' ∧ quiet_lane E i ln' ∧ ∀ l, ¬ sent ln' l.
Proof using Hc HQ.
  intros Hl Hok (Hr & He & Hst).
  assert (∀ ln' l, ln_processing ln' = false → ¬ sent ln' l) as Hns1 by (intros ln' l Hp Hs; by rewrite (se_processing _ _ _ Hs) in Hp).
  assert (∀ ln' l l' rs, replied ln' l rs → ¬ sent ln' l') as Hns2.
  { intros ln' l l' rs Hre Hs. pose proof (re_server _ _ _ _ Hre) as E1. rewrite (se_server _ _ _ Hs) in E1. injection E1. by destruct (ln_toggle ln'). }
  destruct Hst as [(l & Hi & Hroom & Hx)|[(l & Hs & Hx)|(l & rs & Hre & Hn & Hx)]].
  - exists ln. split; [apply (turn_rests first_process process c num_clients Hc); [done|done|by eapply idle_unserved|done]|].
    split; [apply client_part_refl|]. split; [done|]. split; [split; [done|]; split; [done|]; left; by exists l|]. intros l'. apply Hns1, Hi.
  - destruct (HQ i _ l Hx) as (Hn & x' & rs & Hh & Hx').
    destruct (turn_answers first_process process c num_clients Hc v i ln l x' rs Hl Hok Hs Hr Hh) as (ln' & Ht & Hcp & Hok' & Hre & Hctx & Hr').
    exists ln'. split; [done|]. split; [done|]. split; [done|]. split; [|intros l'; by eapply Hns2]. split; [done|].
    split; [by rewrite (cp_epoch _ _ Hcp)|]. right. right. exists l, rs. by rewrite Hctx.
  - exists ln. split; [apply (turn_rests first_process process c num_clients Hc); [done|done|by eapply replied_unserved|done]|].
    split; [apply client_part_refl|]. split; [done|]. split; [split; [done|]; split; [done|]; right; right; by exists l, rs|]. intros l'. by eapply Hns2.
Qed.

Lemma quiet_family E m0 : family (quiet E m0).
Proof using Hc HQ.
  split.
  - intros v i k ln Hl Hok [Em Hq]. destruct (quiet_turn E v i ln Hl Hok Hq) as (ln' & Ht & Hcp & Hok' & Hq' & Hns).
    exists ln', (resp_memory (sh v)), (pred k). by do 6 (split; [done|]).
  - intros i k ln mem [Em Hq]. pose proof Hq as (_ & _ & [(l & Hi & _)|[(l & Hs & _)|(l & rs & Hre & Hn & Hx)]]); [left; by exists l|right; left; by exists l|].
    right. right. exists l, rs. split; [done|]. rewrite store_notes by done. split; [|done]. split; [done|]. by eapply collected_quiet.
Qed.

Lemma quiet_idle E i ln : quiet_lane E i ln → ln_processing ln = false → ∃ l, idle ln l ∧ zlen l < MAX_COMMS ∧ Q i (context (ln_server ln)) l.
Proof using.
  intros (_ & _ & [Hi|[(l & Hs & _)|(l & rs & Hre & _)]]) Hp; [done|by rewrite (se_processing _ _ _ Hs) in Hp|by rewrite (re_processing _ _ _ _ Hre) in Hp].
Qed.

(** The requests of the batch that the server has not answered. *)
Definition at_stage ln l : Prop := (idle ln l ∧ zlen l < MAX_COMMS) ∨ sent ln l ∨ (l = [] ∧ ∃ l' rs, replied ln l' rs ∧ notes l').

Lemma stage_open i ln : quiet_stage i ln → ∃ l, at_stage ln l ∧ Q i (context (ln_server ln)) l.
Proof using.
  intros [(l & H1 & H2 & H3)|[(l & H1 & H2)|(l & rs & H1 & H2 & H3)]]; [by exists l; split; [left|]|by exists l; split; [right; left|]|].
  exists []. split; [|done]. right. right. split; [done|]. by exists l, rs.
Qed.

Lemma stage_close i ln l : at_stage ln l → Q i (context (ln_server ln)) l → quiet_stage i ln.
Proof using.
  intros [[H1 H2]|[H1|(-> & l' & rs & H1 & H2)]] Hx; [left; by exists l|right; left; by exists l|right; right; by exists l', rs].
Qed.

(** A request in the batch, which is not published or just was. *)
Inductive requested (e : Z) ln l : Prop :=
  | in_batch : idle ln l → zlen l < MAX_COMMS → ln_epoch ln = e → requested e ln l
  | published : sent ln l → ln_epoch ln = e + 1 → requested e ln l.

Lemma request_joins E fuel v i (r : request_type) kf : (2 ≤ fuel)%nat → 0 ≤ i < n → 0 ≤ r_page_id r < 2 ^ PAGE_ID_BITS → E i + 1 < 2 ^ 64 →
  all_lanes (quiet E (resp_memory (sh v))) kf v → ∃ v' e ln l,
  request env fuel v i r (r_resp r) = Ok (v', e) ∧ cid (cl v') = c ∧ resp_memory (sh v') = resp_memory (sh v) ∧
  lane_at v' i ln ∧ lane_ok i ln ∧ resting (ln_server ln) ∧ 1 ≤ e ≤ E i ∧ Q i (context (ln_server ln)) l ∧ requested e ln (l ++ [r]) ∧
  ∀ j, 0 ≤ j < n → j ≠ i → ∃ lj, lane_at v' j lj ∧ lane_ok j lj ∧ quiet_lane E j lj.
Proof using Hc HQ Henv.
  intros Hf Hi Hr HE Hv. set (m0 := resp_memory (sh v)) in *. pose proof Hv as [Hcid Hall].
  destruct (Hall i Hi) as (ln0 & k0 & Hl0 & _ & _ & [_ (_ & He0 & _)]).
  destruct (await_ok _ (quiet_family E m0) fuel v i kf Hf Hv Hi) as (v1 & Hr1 & [Hcid1 Hall1] & Hnp & _).
  unfold request. rewrite (poll_past 1 fuel v i ln0 0 Hl0) by lia. rewrite (bind_rew _ _ _ Hr1). clear Hr1.
  destruct (Hall1 i Hi) as (ln & k & Hl & Hok & _ & [Em Hq]). pose proof Hq as (Hrest & He & _).
  assert (ln_processing ln = false) as Hp by (unfold not_processing in Hnp; rewrite (lane_processing v1 i ln Hl) in Hnp; by injection Hnp).
  destruct (quiet_idle E i ln Hq Hp) as (l & Hid & Hroom & Hx). destruct (appended_ok c num_clients i ln l r Hok Hid Hroom Hr) as (Hok2 & Hid2 & Hset).
  set (ln2 := appended ln l r) in *. set (v2 := put v1 i ln2 m0).
  assert (∀ ln3, lane_ok i ln3 → resting (ln_server ln3) → Q i (context (ln_server ln3)) l → requested (ln_epoch ln) ln3 (l ++ [r]) →
    let v3 := put v1 i ln3 m0 in lane_at v3 i ln3 ∧ ∀ j, 0 ≤ j < n → j ≠ i → ∃ lj, lane_at v3 j lj ∧ lane_ok j lj ∧ quiet_lane E j lj) as Hfin.
  { intros ln3 H1 H2 H3 H4 v3. split; [by eapply put_at|]. intros j Hj Hne. destruct (Hall1 j Hj) as (lj & kj & G1 & G2 & _ & [_ G3]).
    exists lj. split; [by apply put_other|done]. }
  assert (lane_at v2 i ln2) as Hl2 by (by eapply put_at).
  cbv zeta. rewrite (bind_rew _ _ _ (proj2 (aread_Ok _ _ _) (la_status _ _ _ Hl))), (bind_rew _ _ _ (proj2 (aread_Ok _ _ _) (la_pool _ _ _ Hl))), (id_num _ _ _ Hid).
  rewrite (bind_rew _ _ _ Hset). rewrite (awrite_total (local_message_pool _)) by (eapply zget_range; apply Hl). cbn [mbind result_bind].
  rewrite (awrite_total (s_responses _)) by (rewrite (lk_status _ _ _ _ Hok); unfold zlen in *; lia). cbn [mbind result_bind].
  rewrite (awrite_total (local_message_statuses _)) by (eapply zget_range; apply Hl). cbn [mbind result_bind].
  match goal with |- context [aread (epoches (cl ?u)) i] => assert (u = v2) as -> end.
  { unfold v2, put, with_statuses, with_pool. rewrite <- Em.
    cbn [ln2 appended ln_processing ln_toggle ln_epoch ln_requests ln_responses ln_server ln_status cid local_message_pool
      local_message_statuses local_message_processing toggles epoches].
    rewrite !(zset_id _ _ _ (la_processing _ _ _ Hl)), !(zset_id _ _ _ (la_toggle _ _ _ Hl)), !(zset_id _ _ _ (la_epoch _ _ _ Hl)),
      !(zset_id _ _ _ (la_requests _ _ _ Hl)), !(zset_id _ _ _ (la_responses _ _ _ Hl)), !(zset_id _ _ _ (la_server _ _ _ Hl)).
    by destruct (sh v1). }
  rewrite (bind_rew _ _ _ (proj2 (aread_Ok _ _ _) (la_epoch _ _ _ Hl2))). cbn [num_requests].
  assert (zlen (l ++ [r]) = zlen l + 1) as Elen by (unfold zlen; rewrite length_app; cbn; lia).
  destruct (Z.eqb_spec (zlen l + 1) MAX_COMMS) as [Ef|Ef].
  - unfold submit_message. rewrite (poll_past 1 fuel v2 i ln2 0 Hl2) by (cbn; lia).
    rewrite (await_done fuel v2 i) by (unfold not_processing; by rewrite (lane_processing v2 i ln2 Hl2), (id_processing _ _ _ Hid2)). cbn [mbind result_bind].
    rewrite (bind_rew _ _ _ (submit_now_ok c num_clients v2 i ln2 (l ++ [r]) Hcid1 Hl2 Hok2 Hid2)). rewrite decide_False by (intros [_ ?]%app_nil; done).
    cbn [mbind result_bind]. unfold v2. rewrite lane_put_put. set (ln3 := submitted c ln2 (l ++ [r])).
    destruct (Hfin ln3) as [H1 H2]; [by apply submitted_ok|done|done| |].
    { apply published; [by eapply submitted_sent|]. cbn. rewrite w64_small by lia. done. }
    exists (put v1 i ln3 m0), (ln_epoch ln), ln3, l. do 3 (split; [done|]). split; [exact H1|]. split; [by apply submitted_ok|]. split; [done|]. split; [done|]. split; [done|].
    split; [|exact H2]. apply published; [by eapply submitted_sent|]. cbn. rewrite w64_small by lia. done.
  - cbn [mbind result_bind]. assert (requested (ln_epoch ln) ln2 (l ++ [r])) as Hreq by (apply in_batch; [done|unfold zlen in *; lia|done]).
    destruct (Hfin ln2) as [H1 H2]; [done|done|done|done|].
    exists v2, (ln_epoch ln), ln2, l. do 3 (split; [done|]). split; [exact H1|]. do 5 (split; [done|]). exact H2.
Qed.

(** ** A call under way at one lane *)
Section active.
Context (a : Z) (r : request_type) (Start : C → list request_type → Prop) (Pend : nat → C → A → Prop) (Done : C → Z → Prop) (K : nat).

(** The server answers request [r] after the notifications before it at once, or
    its fiber does after at most [K] more polls. *)
Record answers_call : Prop := {
  ac_resp : r_resp r ≠ 0;
  ac_start x l : Start x l → notes l ∧ ∃ x' rs p ch, handle first_process x (l ++ [r]) = Ok (x', rs ++ [p], ch) ∧ length rs = length l ∧
    ((ch = [] ∧ p ≠ 0 ∧ Done x' p) ∨ ∃ y, p = 0 ∧ ch = [(r, y)] ∧ Pend K x' y);
  ac_poll k x y mem : Pend k x y → ∃ x' mem' y' (finished : bool), process x mem y r = Ok (x', mem', y', finished) ∧
    if finished then ∃ p, p ≠ 0 ∧ mem' = store_response mem (r_resp r) p ∧ Done x' p
    else mem' = mem ∧ ∃ k', (k' < k)%nat ∧ Pend k' x' y';
}.

(** The answer will come late: the response in the slot is empty. *)
Definition late ln : Prop := ∃ l rs, replied ln (l ++ [r]) (rs ++ [0]) ∧ notes l ∧ length rs = length l.

Inductive active_stage k ln mem : Prop :=
  | as_sent l : sent ln (l ++ [r]) → resting (ln_server ln) → Start (context (ln_server ln)) l → mem (r_resp r) = 0 → (S (S K) ≤ k)%nat →
      active_stage k ln mem
  | as_pending j y : idle ln [] ∨ late ln → working (ln_server ln) r y → Pend j (context (ln_server ln)) y → mem (r_resp r) = 0 → (S j ≤ k)%nat →
      active_stage k ln mem
  | as_reply l rs p : replied ln (l ++ [r]) (rs ++ [p]) → notes l → length rs = length l → resting (ln_server ln) →
      Done (context (ln_server ln)) p → p ≠ 0 → mem (r_resp r) = 0 → active_stage k ln mem
  | as_done p : idle ln [] ∨ late ln → resting (ln_server ln) → Done (context (ln_server ln)) p → p ≠ 0 → mem (r_resp r) = p →
      active_stage k ln mem.

Context (E : Z → Z) (e1 : Z).
Definition calling i k ln mem : Prop := if decide (i = a) then ln_epoch ln = e1 ∧ active_stage k ln mem else quiet_lane E i ln.

Context (HA : answers_call).

Lemma store_call mem l rs p : notes l → length rs = length l → store_responses mem (l ++ [r]) (rs ++ [p]) = store_response mem (r_resp r) p.
Proof using.
  revert mem rs. induction l as [|q l IH]; intros mem [|q' rs] Hn Hl; try done. cbn [app store_responses]. unfold store_response at 2.
  rewrite (Hn q) by (by left). cbn [negb andb Z.eqb]. apply IH; [|by injection Hl]. intros q2 Hq. apply Hn. by right.
Qed.

Lemma stored mem p : p ≠ 0 → store_response mem (r_resp r) p (r_resp r) = p.
Proof using HA.
  intros Hp. unfold store_response. pose proof (ac_resp HA). rewrite (proj2 (Z.eqb_neq _ _)), (proj2 (Z.eqb_neq _ _)) by done. cbn. by rewrite decide_True.
Qed.

Lemma stored_none mem : store_response mem (r_resp r) 0 = mem.
Proof using. unfold store_response. by rewrite andb_false_r. Qed.

Lemma late_idle ln : idle ln [] ∨ late ln → unserved c ln ∧ ∀ l, ¬ sent ln l.
Proof using.
  intros [Hi|(l & rs & Hre & _)].
  - split; [by eapply idle_unserved|]. intros l Hs. pose proof (id_processing _ _ _ Hi) as Hp. by rewrite (se_processing _ _ _ Hs) in Hp.
  - split; [by eapply replied_unserved|]. intros l' Hs. pose proof (re_server _ _ _ _ Hre) as E1. rewrite (se_server _ _ _ Hs) in E1. injection E1. by destruct (ln_toggle ln).
Qed.

Lemma face_late ln s' : same_face (ln_server ln) s' → idle ln [] ∨ late ln → idle (with_server ln s') [] ∨ late (with_server ln s').
Proof using.
  intros Hf [Hi|(l & rs & Hre & Hn)]; [left; by apply face_idle|right]. exists l, rs. split; [by apply face_replied|done].
Qed.

(** An open request is polled. *)
Lemma active_works v ln j y : lane_at v a ln → lane_ok a ln → idle ln [] ∨ late ln → working (ln_server ln) r y → Pend j (context (ln_server ln)) y →
  resp_memory (sh v) (r_resp r) = 0 → ∃ ln' mem', turn v a = Ok (put v a ln' mem') ∧ client_part ln ln' ∧ lane_ok a ln' ∧ active_stage j ln' mem' ∧
    ∀ l, ¬ sent ln' l.
Proof using Hc HA.
  intros Hl Hok Hst Hw Hp Hm. destruct (ac_poll HA j _ y (resp_memory (sh v)) Hp) as (x' & mem' & y' & fin & Hr & Hfin).
  destruct (turn_works first_process process c num_clients Hc v a ln r y x' mem' y' fin Hl Hok (proj1 (late_idle ln Hst)) Hw Hr) as (s' & Ht & Hf & Hx & Hs).
  pose proof (face_late ln s' Hf Hst) as Hst'. exists (with_server ln s'), mem'. split; [done|]. split; [done|]. split; [by apply face_ok|].
  split; [|by apply late_idle]. destruct fin.
  - destruct Hfin as (p & Hp0 & -> & Hd). apply (as_done _ _ _ p); [done|done|by rewrite <- Hx in Hd|done|by apply stored].
  - destruct Hfin as (-> & k' & Hk & Hp'). apply (as_pending _ _ _ k' y'); [done|done|by rewrite <- Hx in Hp'|done|lia].
Qed.

(** The batch with the request is handled. *)
Lemma active_starts v ln l : lane_at v a ln → lane_ok a ln → sent ln (l ++ [r]) → resting (ln_server ln) → Start (context (ln_server ln)) l →
  resp_memory (sh v) (r_resp r) = 0 → ∃ ln' mem', turn v a = Ok (put v a ln' mem') ∧ client_part ln ln' ∧ lane_ok a ln' ∧ active_stage (S K) ln' mem' ∧
    ∀ l, ¬ sent ln' l.
Proof using Hc HA.
  intros Hl Hok Hs Hr Hst Hm. destruct (ac_start HA _ l Hst) as (Hn & x1 & rs & p & ch & Hh & Hlen & [(-> & Hp & Hd)|(y & -> & -> & Hp)]).
  - destruct (turn_answers first_process process c num_clients Hc v a ln _ x1 _ Hl Hok Hs Hr Hh) as (ln' & Ht & Hcp & Hok' & Hre & Hx & Hr').
    exists ln', (resp_memory (sh v)). split; [done|]. split; [done|]. split; [done|]. split.
    + apply (as_reply _ _ _ l rs p); try done. by rewrite Hx.
    + intros l' Hs'. pose proof (re_server _ _ _ _ Hre) as E1. rewrite (se_server _ _ _ Hs') in E1. injection E1. by destruct (ln_toggle ln').
  - destruct (ac_poll HA K x1 y (resp_memory (sh v)) Hp) as (x' & mem' & y' & fin & Hpr & Hfin).
    destruct (turn_starts first_process process c num_clients Hc v a ln _ x1 _ r y x' mem' y' fin Hl Hok Hs Hr Hh Hpr) as (ln' & Ht & Hcp & Hok' & Hre & Hx & Hs').
    assert (idle ln' [] ∨ late ln') as Hst' by (right; by exists l, rs). exists ln', mem'. split; [done|]. split; [done|]. split; [done|]. split; [|by apply late_idle].
    destruct fin.
    + destruct Hfin as (p & Hp0 & -> & Hd). apply (as_done _ _ _ p); [done|done|by rewrite Hx|done|by apply stored].
    + destruct Hfin as (-> & k' & Hk & Hp'). apply (as_pending _ _ _ k' y'); [done|done|by rewrite Hx|done|lia].
Qed.

Lemma active_turn v k ln : lane_at v a ln → lane_ok a ln → active_stage k ln (resp_memory (sh v)) → ∃ ln' mem',
  turn v a = Ok (put v a ln' mem') ∧ client_part ln ln' ∧ lane_ok a ln' ∧ active_stage (pred k) ln' mem' ∧ ∀ l, ¬ sent ln' l.
Proof using Hc HA.
  intros Hl Hok Hst. assert (∀ j ln mem, (j ≤ pred k)%nat → active_stage j ln mem → active_stage (pred k) ln mem) as Hmono.
  { intros j ln0 mem Hj [l H1 H2 H3 H4 H5|j0 y H1 H2 H3 H4 H5|l rs p|p]; [eapply as_sent; eauto; lia|eapply as_pending; eauto; lia|by eapply as_reply|by eapply as_done]. }
  assert (unserved c ln → resting (ln_server ln) → turn v a = Ok (put v a ln (resp_memory (sh v)))) as Hrest.
  { intros Hu Hr. by apply (turn_rests first_process process c num_clients Hc). }
  destruct Hst as [l Hs Hr Hst Hm Hk|j y Hst Hw Hp Hm Hk|l rs p Hre Hn Hlen Hr Hd Hp Hm|p Hst Hr Hd Hp Hm].
  - destruct (active_starts v ln l Hl Hok Hs Hr Hst Hm) as (ln' & mem' & Ht & Hcp & Hok' & Ha & Hns).
    exists ln', mem'. do 3 (split; [done|]). split; [|done]. apply (Hmono (S K)); [lia|done].
  - destruct (active_works v ln j y Hl Hok Hst Hw Hp Hm) as (ln' & mem' & Ht & Hcp & Hok' & Ha & Hns).
    exists ln', mem'. do 3 (split; [done|]). split; [|done]. apply (Hmono j); [lia|done].
  - exists ln, (resp_memory (sh v)). split; [apply Hrest; [by eapply replied_unserved|done]|]. split; [apply client_part_refl|]. split; [done|].
    split; [by apply (as_reply _ _ _ l rs p)|]. intros l' Hs'. pose proof (re_server _ _ _ _ Hre) as E1. rewrite (se_server _ _ _ Hs') in E1.
    injection E1. by destruct (ln_toggle ln).
  - destruct (late_idle ln Hst) as [Hu Hns]. exists ln, (resp_memory (sh v)). split; [by apply Hrest|]. split; [apply client_part_refl|]. split; [done|].
    split; [by apply (as_done _ _ _ p)|done].
Qed.

Lemma late_collectable k ln mem : ln_epoch ln = e1 → late ln → active_stage k (collected ln) mem → collectable calling a k ln mem.
Proof using.
  intros He (l & rs & Hre & Hn & Hlen) Hst. exists (l ++ [r]), (rs ++ [0]). split; [done|]. rewrite store_call, stored_none by done.
  split; [|done]. unfold calling. by rewrite decide_True.
Qed.

Lemma active_collect k ln mem : ln_epoch ln = e1 → active_stage k ln mem → (∃ l, idle ln l) ∨ (∃ l, sent ln l) ∨ collectable calling a k ln mem.
Proof using HA.
  intros He [l Hs|j y [Hi|Hla] Hw Hp Hm Hk|l rs p Hre Hn Hlen Hr Hd Hp Hm|p [Hi|Hla] Hr Hd Hp Hm]; try (left; by eexists).
  - right. left. by eexists.
  - right. right. apply late_collectable; [done|done|]. destruct Hla as (l & rs & Hre & _). apply (as_pending _ _ _ j y); try done. left. by eapply collected_idle.
  - right. right. exists (l ++ [r]), (rs ++ [p]). split; [done|]. rewrite store_call by done. split.
    + unfold calling. rewrite decide_True by done. split; [done|]. apply (as_done _ _ _ p); try done; [left; by eapply collected_idle|by apply stored].
    + intros j k' lj Hj. unfold calling. by rewrite !decide_False by done.
  - right. right. apply late_collectable; [done|done|]. destruct Hla as (l & rs & Hre & _). apply (as_done _ _ _ p); try done. left. by eapply collected_idle.
Qed.

Lemma calling_family : family calling.
Proof using Hc HQ HA.
  split.
  - intros v i k ln Hl Hok Hca. unfold calling in Hca. case_decide as Ei.
    + subst i. destruct Hca as [He Hst]. destruct (active_turn v k ln Hl Hok Hst) as (ln' & mem' & Ht & Hcp & Hok' & Ha & Hns).
      exists ln', mem', (pred k). do 4 (split; [done|]). split; [unfold calling; rewrite decide_True by done; by rewrite (cp_epoch _ _ Hcp)|]. split; [done|].
      intros j k' lj Hj. unfold calling. by rewrite !decide_False by done.
    + destruct (quiet_turn E v i ln Hl Hok Hca) as (ln' & Ht & Hcp & Hok' & Hq' & Hns).
      exists ln', (resp_memory (sh v)), (pred k). do 4 (split; [done|]). split; [unfold calling; by rewrite decide_False|done].
  - intros i k ln mem Hca. unfold calling in Hca. case_decide as Ei.
    + subst i. destruct Hca as [He Hst]. by apply active_collect.
    + pose proof Hca as (_ & _ & [(l & Hi & _)|[(l & Hs & _)|(l & rs & Hre & Hn & Hx)]]); [left; by exists l|right; left; by exists l|].
      right. right. exists l, rs. split; [done|]. rewrite store_notes by done. split; [|done]. unfold calling. rewrite decide_False by done. by eapply collected_quiet.
Qed.

(** With the measure at its end and nothing under way, the answer is there. *)
Lemma calling_done v kf : 0 ≤ a < n → all_lanes calling kf v → kf a = 0%nat → not_processing v a → resp_memory (sh v) (r_resp r) ≠ 0.
Proof using.
  intros Ha [_ Hv] Hk Hnp. destruct (Hv a Ha) as (ln & k & Hl & Hok & Hk' & Hca). unfold calling in Hca. rewrite decide_True in Hca by done. destruct Hca as [_ Hst].
  assert (ln_processing ln = false) as Hp by (unfold not_processing in Hnp; rewrite (lane_processing v a ln Hl) in Hnp; by injection Hnp).
  destruct Hst as [l Hs Hr Hst Hm Hk0|j y Hst Hw Hpe Hm Hk0|l rs p Hre Hn Hlen Hr Hd Hp0 Hm|p Hst Hr Hd Hp0 Hm]; [lia|lia| |by rewrite Hm].
  by rewrite (re_processing _ _ _ _ Hre) in Hp.
Qed.

(** What the caller finds. *)
Lemma calling_result v kf : 0 ≤ a < n → all_lanes calling kf v → not_processing v a → resp_memory (sh v) (r_resp r) ≠ 0 → ∃ ln,
  lane_at v a ln ∧ lane_ok a ln ∧ ln_epoch ln = e1 ∧ idle ln [] ∧ resting (ln_server ln) ∧ Done (context (ln_server ln)) (resp_memory (sh v) (r_resp r)).
Proof using.
  intros Ha [_ Hv] Hnp Hne. destruct (Hv a Ha) as (ln & k & Hl & Hok & Hk' & Hca). unfold calling in Hca. rewrite decide_True in Hca by done. destruct Hca as [He Hst].
  assert (ln_processing ln = false) as Hp by (unfold not_processing in Hnp; rewrite (lane_processing v a ln Hl) in Hnp; by injection Hnp).
  destruct Hst as [l Hs Hr Hst Hm Hk0|j y Hst Hw Hpe Hm Hk0|l rs p Hre Hn Hlen Hr Hd Hp0 Hm|p Hst Hr Hd Hp0 Hm]; try done.
  exists ln. rewrite Hm. split; [done|]. split; [done|]. split; [done|]. split; [|done]. destruct Hst as [?|(l & rs & Hre & _)]; [done|].
  by rewrite (re_processing _ _ _ _ Hre) in Hp.
Qed.

(** The caller's first poll publishes the batch, if it was not. *)
Lemma requested_calling fuel v e ln l : cid (cl v) = c → 0 ≤ a < n → lane_at v a ln → lane_ok a ln → resting (ln_server ln) →
  requested e ln (l ++ [r]) → Start (context (ln_server ln)) l → resp_memory (sh v) (r_resp r) = 0 → e1 = e + 1 → 1 ≤ e → e + 1 < 2 ^ 64 →
  (∀ j, 0 ≤ j < n → j ≠ a → ∃ lj, lane_at v j lj ∧ lane_ok j lj ∧ quiet_lane E j lj) → ∃ v',
  poll_message env 2 fuel v a e = await env fuel v' a ∧ all_lanes calling (λ _, S (S K)) v' ∧ ∃ ln', lane_at v' a ln' ∧ e < ln_epoch ln'.
Proof using Hc.
  intros Hcid Ha Hl Hok Hr Hreq Hst Hm He He1 He2 Hothers.
  assert (∀ v' ln', cid (cl v') = c → (∀ j lj, j ≠ a → lane_at v j lj → lane_at v' j lj) → lane_at v' a ln' → lane_ok a ln' → ln_epoch ln' = e1 →
    sent ln' (l ++ [r]) → ln_server ln' = ln_server ln → resp_memory (sh v') = resp_memory (sh v) → all_lanes calling (λ _, S (S K)) v') as Hfin.
  { intros v' ln' H1 H2 H3 H4 H5 H6 H7 H8. split; [done|]. intros j Hj. unfold calling. destruct (decide (j = a)) as [->|Hne].
    - exists ln', (S (S K)). split; [done|]. split; [done|]. split; [done|]. split; [done|]. rewrite <- H7 in Hr, Hst. by apply (as_sent _ _ _ l); rewrite ?H8.
    - destruct (Hothers j Hj Hne) as (lj & G1 & G2 & G3). exists lj, 0%nat. split; [by apply H2|]. split; [done|]. split; [lia|done]. }
  destruct Hreq as [Hi Hroom Hep|Hs Hep].
  - exists (put v a (submitted c ln (l ++ [r])) (resp_memory (sh v))). split.
    + cbn [poll_message]. rewrite !(bind_rew _ _ _ (proj2 (aread_Ok _ _ _) (la_epoch _ _ _ Hl))), Hep, Z.leb_refl.
      rewrite (proj2 (Z.leb_gt e 0)) by lia. cbn [mbind result_bind].
      rewrite (bind_rew _ _ _ (await_done fuel v a ltac:(unfold not_processing; by rewrite (lane_processing v a ln Hl), (id_processing _ _ _ Hi)))).
      rewrite (submit_now_ok c num_clients v a ln (l ++ [r]) Hcid Hl Hok Hi). rewrite decide_False by (intros [_ ?]%app_nil; done). done.
    + split.
      * eapply (Hfin _ (submitted c ln (l ++ [r]))); try done; [intros; by apply put_other|by eapply put_at|by apply submitted_ok| |by eapply submitted_sent].
        cbn. rewrite w64_small by lia. lia.
      * exists (submitted c ln (l ++ [r])). split; [by eapply put_at|]. cbn. rewrite w64_small by lia. lia.
  - exists v. split; [by rewrite (poll_past 2 fuel v a ln e Hl) by lia|]. split; [eapply Hfin; eauto; lia|]. exists ln. split; [done|lia].
Qed.

(** The caller waits for the slot, then the servers run a round. *)
Lemma await_calling fuel v kf : (2 ≤ fuel)%nat → 0 ≤ a < n → all_lanes calling kf v → ∃ w sh' o', await env fuel v a = Ok w ∧
  env (sh w) (others w) = Ok (sh', o') ∧ let w' := mk_st (cl w) sh' o' in all_lanes calling (λ i, pred (kf i)) w' ∧ not_processing w' a.
Proof using Hc HQ HA Henv.
  intros Hf Ha Hv. destruct (await_ok _ calling_family fuel v a kf Hf Hv Ha) as (w & Hr & Hw & Hnp & _).
  destruct (env_ok _ calling_family w kf Hw) as (sh' & o' & Hr' & Hw' & _). by exists w, sh', o'.
Qed.

(** Its later polls do not publish anything. *)
Lemma poll_calling fuel v kf e : (2 ≤ fuel)%nat → 0 ≤ a < n → e < e1 → all_lanes calling kf v → ∃ w sh' o', poll_message env 2 fuel v a e = Ok w ∧
  env (sh w) (others w) = Ok (sh', o') ∧ let w' := mk_st (cl w) sh' o' in all_lanes calling (λ i, pred (kf i)) w' ∧ not_processing w' a.
Proof using Hc HQ HA Henv.
  intros Hf Ha He Hv. pose proof Hv as [_ Hall]. destruct (Hall a Ha) as (ln & k & Hl & _ & _ & Hca). unfold calling in Hca. rewrite decide_True in Hca by done.
  destruct Hca as [Hep _]. destruct (await_calling fuel v kf Hf Ha Hv) as (w & sh' & o' & Hr & Hrest). exists w, sh', o'. split; [|done].
  rewrite (poll_past 2 fuel v a ln e Hl) by lia. exact Hr.
Qed.
End active.

(** A notification in the batch leaves the lane without a call under way. *)
Lemma requested_quiet E e i ln l : requested e ln l → resting (ln_server ln) → 1 ≤ e → e + 1 ≤ E i → Q i (context (ln_server ln)) l → quiet_lane E i ln.
Proof using.
  intros [Hi Hroom Hep|Hs Hep] Hr He1 He2 Hx; (split; [done|]); (split; [lia|]); [left|right; left]; by exists l.
Qed.

Lemma idle_quiet E i ln : idle ln [] → resting (ln_server ln) → 1 ≤ ln_epoch ln ≤ E i → Q i (context (ln_server ln)) [] → quiet_lane E i ln.
Proof using. intros Hi Hr He Hx. split; [done|]. split; [done|]. left. by exists []. Qed.
End quiet.
End call.
