(* ===== verification/SharedCache.v ===== *)
(** * The shared cache

    [class SharedCache] of [include/shared_cache.hpp]: a server thread per
    partition with a [SharedSingleThreadCache] over a memory pool and an I/O
    backend, and the calls of the clients, which pin resident pages directly in
    the servers' page tables and go through messages otherwise. *)
From S2P Require Import Prelude Util Replacement PteHeader CompactHashPageTable SharedSingleThreadCache MemoryPool PartitionType PartitionClient PartitionServer.
From stdpp Require Import gmap.

Open Scope Z_scope.

(** The I/O backend a partition uses; [io_finished] reads a [finish] flag. *)
Class Backend (B : Type) := {
  io_write : B → Z → Z → option Z → result (B * bool);
  io_read : B → Z → Z → option Z → result (B * bool);
  io_progress : B → result (B * bool);
  io_finished : B → Z → bool;
}.

(** ** The server side *)
Section server.
Context {B : Type} `{Backend B}.

(** What the eviction and load functions of a partition work on.  A request in
    progress has its own flag; [next_flag] is the address of the next one. *)
Record io_world := mk_io { io : B; memory_pool : pool; next_flag : Z; num_miss : Z }.

(** [IOContext]; [io_finish] is the address of [finish] once it was handed to
    the backend (it is false before). *)
Record IOContext := mk_ctx { first : bool; processing : bool; finish : option Z }.
Definition default_context : IOContext := mk_ctx true false None.

(** [ret = write(...)] until it is accepted. *)
Fixpoint submit (op : B → result (B * bool)) (fuel : nat) (b : B) : result B :=
  '(b, ret) ← op b;
  if (ret : bool) then Ok b
  else match fuel with O => Err OutOfFuel | S fuel' => submit op fuel' b end.
Definition submit_fuel : nat := 8.

Definition start_io (op : B → Z → Z → option Z → result (B * bool)) (w : io_world) (block ppage_id : Z) :
    result (io_world * IOContext) :=
  data ← from_page_id (memory_pool w) ppage_id;
  let f := next_flag w in
  b ← submit (λ b, op b block data (Some f)) submit_fuel (io w);
  Ok (mk_io b (memory_pool w) (f + 1) (num_miss w), mk_ctx false true (Some f)).

Definition is_finished (w : io_world) (c : IOContext) : bool :=
  match finish c with Some f => io_finished (io w) f | None => false end.

(** The transfer of a page, one call at a time: the first call only moves the
    context to its final place, the second starts the transfer, the following
    ones poll it. *)
Definition transfer (op : B → Z → Z → option Z → result (B * bool)) (w : io_world) (c : IOContext) (block ppage_id : Z) :
    result (io_world * IOContext * bool) :=
  if first c then Ok (w, mk_ctx false (processing c) (finish c), false)
  else if negb (processing c) then
    '(w, c) ← start_io op w block ppage_id; Ok (w, c, false)
  else if negb (is_finished w c) then
    '(b, _) ← io_progress (io w);
    Ok (mk_io b (memory_pool w) (next_flag w) (num_miss w), c, false)
  else Ok (w, c, true).

Definition evict_func (w : io_world) (c : IOContext) (vpage_id ppage_id : Z) (dirty : bool) (s : ()) :
    result (io_world * IOContext * () * bool) :=
  if negb dirty then Ok (w, c, s, true)
  else '(w, c, finished) ← transfer io_write w c vpage_id ppage_id; Ok (w, c, s, finished).

Definition count_miss (w : io_world) : io_world := mk_io (io w) (memory_pool w) (next_flag w) (num_miss w + 1).

Definition load_func (w : io_world) (c : IOContext) (vpage_id ppage_id : Z) (s : ()) :
    result (io_world * IOContext * () * bool) :=
  '(m, before) ← loaded (memory_pool w) ppage_id;
  let w := mk_io (io w) m (next_flag w) (num_miss w) in
  if negb before then Ok (w, c, s, true)
  else
    '(w, c, finished) ← transfer io_read w c vpage_id ppage_id;
    Ok (if (finished : bool) then count_miss w else w, c, s, finished).

Definition partition := SharedSingleThreadCache.sys Clock.t io_world ().
Definition request_context := SharedSingleThreadCache.context IOContext ().

Definition EMPTY_POINTER : Z := MAX64.

(** [create_context]: the cache of a partition over its pool and backend. *)
Definition create_context (b : B) (buffer : option Z) (mmap_alloc : Z → Z) (num_blocks num_ppages : Z) : partition :=
  mk_sys (mk_io b (MemoryPool.create mmap_alloc num_ppages buffer) 1 0) (SharedSingleThreadCache.init tt num_blocks num_ppages).

Definition part_process (p : partition) (x : request_context) : result (partition * request_context) :=
  process default_context tt evict_func load_func p x.

Definition no_context : request_context :=
  mk_context KPin Begin false false false false 0 0 0 0 None None no_pte None None default_context.

(** The pointer a finished pin answers with. *)
Definition pin_pointer (p : partition) (x : request_context) : result Z :=
  if c_ppage_id x =? NO_PPAGE then Ok EMPTY_POINTER else from_page_id (memory_pool (world p)) (c_ppage_id x).

Definition is_end (x : request_context) : bool := match c_phase x with End_ => true | _ => false end.

Section partitioned.
Context (partitioner : RoundRobinPartitioner).

Definition first_processing_func (p : partition) (req : request_type) : result (partition * Z * option request_context) :=
  let '(_, vpage_id) := locate partitioner (r_page_id req) in
  match r_type req with
  | Pin =>
      '(p, x) ← part_process p (pin_context no_context vpage_id);
      if negb (is_end x) then Ok (p, 0, Some x)
      else ptr ← pin_pointer p x; Ok (p, ptr, None)
  | Unpin =>
      '(p, x) ← part_process p (unpin_context no_context vpage_id false);
      if negb (is_end x) then Ok (p, 0, Some x) else Ok (p, 1, None)
  | DirtyUnpin =>
      '(p, x) ← part_process p (unpin_context no_context vpage_id true);
      if negb (is_end x) then Ok (p, 0, Some x) else Ok (p, 1, None)
  | NotifyDirectPin =>
      c ← notify_pin (the_cache p) vpage_id; Ok (mk_sys (world p) c, 1, None)
  | NotifyDirectUnpin =>
      c ← notify_unpin (the_cache p) vpage_id; Ok (mk_sys (world p) c, 1, None)
  | None_ => Err AssertFail
  end.

(** The answer goes to the memory of the client. *)
Definition processing_func (p : partition) (mem : Z → Z) (x : request_context) (req : request_type) :
    result (partition * (Z → Z) * request_context * bool) :=
  '(p, x) ← part_process p x;
  if negb (is_end x) then Ok (p, mem, x, false)
  else if r_resp req =? 0 then Ok (p, mem, x, true)
  else
    ptr ← match r_type req with
          | Pin => pin_pointer p x
          | Unpin | DirtyUnpin => Ok 1
          | _ => Err AssertFail
          end;
    Ok (p, (λ a, if decide (a = r_resp req) then ptr else mem a), x, true).

Definition server_round (num_clients : Z) (s : server partition request_context) (sh : shared) :
    result (server partition request_context * shared) :=
  loop_round first_processing_func processing_func num_clients s sh.
End partitioned.

(** ** The client side *)
Record shared_cache := mk_shared_cache {
  virt_size : Z;
  phy_size : Z;
  num_vpages : Z;
  num_ppages_per_partition : Z;
  actual_num_ppages_per_thread : Z;
  max_num_clients : Z;
  partitioner : RoundRobinPartitioner;
}.

(** The constructor: the divisions come before the check of the parameters. *)
Definition create_shared (virt phy num_servers max_clients : Z) : result shared_cache :=
  if (num_servers =? 0) || (max_clients =? 0) then Err Undefined
  else
    let vpages := virt / CACHE_PAGE_SIZE in
    let ppages := phy / CACHE_PAGE_SIZE in
    let per_partition := ppages / num_servers + Z.b2z (negb (ppages mod num_servers =? 0)) in
    _ ← ensure (negb ((virt <? phy) || negb (virt mod CACHE_PAGE_SIZE =? 0) || negb (phy mod CACHE_PAGE_SIZE =? 0)))
          "Parameter Error";
    Ok (mk_shared_cache virt phy vpages per_partition (w64 (per_partition * num_servers) / max_clients) max_clients
          (Build_RoundRobinPartitioner num_servers vpages)).

Section client.
Context (sc : shared_cache).
(** The servers are the rest of the program; [env] runs it while a client spins
    and [fuel] bounds the spinning. *)
Definition servers := list (server partition request_context).
Context (env : shared → servers → result (shared * servers)) (fuel : nat).

Definition view := PartitionClient.st servers.

Definition with_partition (v : view) (sid : Z) (p : partition) : result view :=
  s ← aread (others v) sid;
  ss ← awrite (others v) sid
         (mk_server (PartitionServer.sid s) (s_toggles s) (resp_messages s) p (async_requests s) (num_async s)
            (async_channel s) (count s));
  Ok (mk_st (cl v) (sh v) ss).

Definition the_partition (v : view) (sid : Z) : result partition :=
  s ← aread (others v) sid; Ok (context s).

Definition with_table (p : partition) (t : table) : partition :=
  mk_sys (world p) (with_page_table (the_cache p) t).

(** Waiting for the answer at address [resp]. *)
Fixpoint await_response (n : nat) (v : view) (sid epoch resp : Z) : result view :=
  if negb (resp_memory (sh v) resp =? 0) then Ok v
  else match n with
       | O => Err OutOfFuel
       | S n' =>
           v ← poll_message env 2 fuel v sid epoch;
           '(s, o) ← env (sh v) (others v);
           await_response n' (mk_st (cl v) s o) sid epoch resp
       end.

Definition store_resp (v : view) (resp x : Z) : view :=
  mk_st (cl v) (mk_shared (requests (sh v)) (responses (sh v))
    (λ a, if decide (a = resp) then x else resp_memory (sh v) a)) (others v).

(** [while (!resp().pointer)]: an empty pointer is a refusal, which is retried
    up to 2^20 times ([n] bounds it by less). *)
Fixpoint pin_loop (n : nat) (v : view) (sid vpage_id resp retry_loops : Z) : result (view * Z) :=
  match n with
  | O => Err OutOfFuel
  | S n' =>
      '(v, epoch) ← request env fuel v sid (mk_request Pin vpage_id resp) resp;
      v ← await_response fuel v sid epoch resp;
      let pointer := resp_memory (sh v) resp in
      if pointer =? EMPTY_POINTER then
        let v := store_resp v resp 0 in
        if Z.shiftl 1 20 <? retry_loops + 1 then Err (Throw "oom")
        else pin_loop n' v sid vpage_id resp (retry_loops + 1)
      else Ok (v, pointer)
  end.

(** [resp] is the address of the local [resp]. *)
Definition pin (v : view) (vpage_id resp : Z) : result (view * Z) :=
  _ ← ensure (vpage_id <? num_vpages sc) "Virtual Page ID Error";
  let '(sid, block_id) := locate (partitioner sc) vpage_id in
  p ← the_partition v sid;
  '(t, (success, ppage_id, pre_ref_count)) ← CompactHashPageTable.pin (page_table (the_cache p)) block_id None;
  v ← with_partition v sid (with_table p t);
  if (success : bool) then
    v ← (if pre_ref_count =? 0 then
           '(v, _) ← request env fuel v sid (mk_request NotifyDirectPin vpage_id 0) 0; Ok v
         else Ok v);
    ptr ← from_page_id (memory_pool (world p)) ppage_id;
    Ok (v, ptr)
  else pin_loop fuel (store_resp v resp 0) sid vpage_id resp 0.

Definition unpin (v : view) (vpage_id : Z) (is_write : bool) : result view :=
  _ ← ensure (vpage_id <? num_vpages sc) "Virtual Page ID Error";
  let '(sid, block_id) := locate (partitioner sc) vpage_id in
  p ← the_partition v sid;
  '(t, pre_ref_count) ← CompactHashPageTable.unpin (page_table (the_cache p)) block_id is_write None;
  v ← with_partition v sid (with_table p t);
  if pre_ref_count =? 1 then
    '(v, _) ← request env fuel v sid (mk_request NotifyDirectUnpin vpage_id 0) 0; Ok v
  else Ok v.

Definition check_addr (addr size : Z) : result () :=
  _ ← assert (w64 (addr + size) <? virt_size sc);
  assert (w64 (Z.land addr CACHE_PAGE_MASK + size) <=? CACHE_PAGE_SIZE).
End client.
End server.
Arguments io_world : clear implicits.
