(* ===== verification/SharedCacheIo.v ===== *)
(** * The I/O functions of a partition implement their contract

    [evict_func] and [load_func] of [SharedCache.v] over the [MemCopy] backend
    and a memory pool: any number of transfers share the backend, each one polls
    its own flag, and any poll may carry out the transfers of all.  The frames
    and the blocks are pages of one memory. *)
From S2P Require Import Prelude Util Replacement PteHeader CompactHashPageTable SharedSingleThreadCache MemoryPool IoBackend IoBackendSpec PartitionType PartitionClient PartitionServer SharedCache SharedServer.
From stdpp Require Import gmap list.

Open Scope Z_scope.

#[global] Instance memcopy_backend : Backend MemCopy.t := {
  io_write := MemCopy.write;
  io_read := MemCopy.read;
  io_progress := MemCopy.progress;
  io_finished b f := bool_decide (f ∈ MemCopy.flags b);
}.

Abbreviation memory := (Z → Z).
Abbreviation cb := MemCopy.callback_type.
Abbreviation PS := CACHE_PAGE_SIZE.

(** ** Pages of a memory *)
Definition page_at (m : memory) (a : Z) : list Z := (λ o, m (a + o)) <$> seqZ 0 PS.
Definition zero_page : list Z := replicate (Z.to_nat PS) 0.

(** Writing a page. *)
Definition poke (m : memory) (a : Z) (d : list Z) : memory :=
  λ x, if decide (a ≤ x < a + PS) then default 0 (zget d (x - a)) else m x.

Definition apart (a b : Z) : Prop := a + PS ≤ b ∨ b + PS ≤ a.

Lemma page_at_ext m m' a a' : (∀ o, 0 ≤ o < PS → m (a + o) = m' (a' + o)) → page_at m a = page_at m' a'.
Proof. intros He. apply list_fmap_ext. intros i o Ho. apply list_elem_of_lookup_2, elem_of_seqZ in Ho. apply He. lia. Qed.

Lemma page_at_exec m c : page_at (exec m c) (MemCopy.cb_to c) = page_at m (MemCopy.cb_from c).
Proof.
  apply page_at_ext. intros o Ho. unfold exec, MemCopy.memcpy. rewrite decide_True by lia. f_equal. lia.
Qed.

Lemma page_at_exec_apart m c a : apart a (MemCopy.cb_to c) → page_at (exec m c) a = page_at m a.
Proof.
  intros Ha. apply page_at_ext. intros o Ho. unfold exec, MemCopy.memcpy. unfold apart in Ha. by rewrite decide_False by lia.
Qed.

Lemma page_at_poke m a d : zlen d = PS → page_at (poke m a d) a = d.
Proof.
  intros Hl. apply list_eq. intros i. unfold page_at. rewrite list_lookup_fmap. unfold zlen in Hl.
  destruct (decide (i < length d)%nat) as [Hi|Hi].
  - rewrite lookup_seqZ_lt by lia. simpl. unfold poke. rewrite decide_True by lia.
    replace (a + (0 + Z.of_nat i) - a) with (Z.of_nat i) by lia. rewrite zget_nat.
    destruct (d !! i) as [x|] eqn:E; [done|]. apply lookup_ge_None in E. lia.
  - rewrite lookup_seqZ_ge by lia. symmetry. apply lookup_ge_None. lia.
Qed.

Lemma page_at_poke_apart m a b d : apart b a → page_at (poke m a d) b = page_at m b.
Proof. intros Ha. apply page_at_ext. intros o Ho. unfold poke. unfold apart in Ha. by rewrite decide_False by lia. Qed.

Lemma NoDup_fmap_elem {A B} (f : A → B) (l : list A) x y : NoDup (f <$> l) → x ∈ l → y ∈ l → f x = f y → x = y.
Proof.
  intros Hnd (i & Hi)%list_elem_of_lookup (j & Hj)%list_elem_of_lookup E.
  assert (i = j); [|by subst; congruence]. apply (NoDup_lookup _ i j (f x) Hnd); rewrite list_lookup_fmap.
  - by rewrite Hi.
  - rewrite Hj. simpl. by rewrite E.
Qed.

(** Copies between pages that are equal or apart, to different pages, none of
    which is copied elsewhere. *)
Section copies.
Context (A : Z → Prop) (HA : ∀ a b, A a → A b → a = b ∨ apart a b).

Lemma copies_other m (cs : list cb) a : A a → (∀ c, c ∈ cs → A (MemCopy.cb_to c) ∧ MemCopy.cb_to c ≠ a) →
  page_at (foldl exec m cs) a = page_at m a.
Proof using HA.
  intros Ha. revert m. induction cs as [|c cs IH]; intros m Hc; [done|]. simpl.
  rewrite IH by (intros; apply Hc; set_solver). destruct (Hc c) as [Hto Hne]; [set_solver|].
  apply page_at_exec_apart. destruct (HA a (MemCopy.cb_to c)); [done|done|by subst|done].
Qed.

Lemma copies_done m (cs : list cb) c : NoDup (MemCopy.cb_to <$> cs) →
  (∀ c, c ∈ cs → A (MemCopy.cb_to c) ∧ A (MemCopy.cb_from c)) →
  (∀ c c', c ∈ cs → c' ∈ cs → MemCopy.cb_to c ≠ MemCopy.cb_from c') →
  c ∈ cs → page_at (foldl exec m cs) (MemCopy.cb_to c) = page_at m (MemCopy.cb_from c).
Proof using HA.
  revert m. induction cs as [|c0 cs IH]; intros m Hnd Hin Hsep Hc; [set_solver|].
  simpl in *. apply NoDup_cons in Hnd as [Hn0 Hnd]. apply elem_of_cons in Hc as [->|Hc].
  - rewrite copies_other; [apply page_at_exec|apply Hin; set_solver|]. intros c' Hc'. split; [apply Hin; set_solver|].
    intros E. apply Hn0. rewrite <- E. by apply list_elem_of_fmap_2.
  - rewrite IH; [|done|intros; apply Hin; set_solver|intros; apply Hsep; set_solver|done].
    apply page_at_exec_apart. destruct (HA (MemCopy.cb_from c) (MemCopy.cb_to c0)) as [E|?]; [apply Hin; set_solver|apply Hin; set_solver| |done].
    destruct (Hsep c0 c); [set_solver|set_solver|done].
Qed.
End copies.

Lemma elem_of_raise_all (cs : list cb) fl f : f ∈ raise_all cs fl ↔ f ∈ fl ∨ ∃ c, c ∈ cs ∧ MemCopy.cb_finish c = Some f.
Proof.
  revert fl. induction cs as [|c cs IH]; intros fl; simpl; [set_solver|].
  unfold raise_all in *. rewrite IH. unfold raise. destruct (MemCopy.cb_finish c) as [g|] eqn:E; set_solver.
Qed.

(** ** The invariant of the transfers *)
Abbreviation ioctx := IOContext.
Abbreviation wld := (io_world MemCopy.t).
Abbreviation trn := (SharedServer.transfer IOContext).

Definition frame_addr (w : wld) (p : Z) : Z := base (memory_pool w) + p * PS.
Definition block_addr (w : wld) (v : Z) : Z := MemCopy.mempool (io w) + v * PS.
Definition frame_page (w : wld) (p : Z) : list Z := page_at (MemCopy.mem (io w)) (frame_addr w p).
Definition block_page (w : wld) (v : Z) : list Z := page_at (MemCopy.mem (io w)) (block_addr w v).
Definition loaded_frames (w : wld) : gset Z :=
  list_to_set (filter (λ p, zget (first_loaded (memory_pool w)) p = Some true) (seqZ 0 (num_pages (memory_pool w)))).

Definition tr_ctx (t : trn) : ioctx := match t with TEvict _ _ _ e | TLoad _ _ e => e end.
Definition tr_dir (t : trn) : bool := match t with TEvict _ _ _ _ => false | TLoad _ _ _ => true end.
Definition with_ctx (t : trn) (e : ioctx) : trn := match t with TEvict v p d _ => TEvict v p d e | TLoad v p _ => TLoad v p e end.

(** The request of a transfer, and what it has done when it is done. *)
Definition tr_cb (w : wld) (t : trn) (f : Z) : cb :=
  match t with
  | TEvict v p _ _ => MemCopy.mk_cb true (Some f) (frame_addr w p) (block_addr w v)
  | TLoad v p _ => MemCopy.mk_cb true (Some f) (block_addr w v) (frame_addr w p)
  end.
Definition tr_done (w : wld) (t : trn) : Prop := frame_page w (tr_frame t) = block_page w (tr_page t).
Definition tr_touch (w : wld) (t : trn) : Prop :=
  match t with
  | TEvict _ _ d _ => d = true ∧ ∀ q, 0 ≤ q < num_pages (memory_pool w) → q ∈ loaded_frames w
  | TLoad _ p _ => p ∈ loaded_frames w
  end.

Section contract.
(** The number of blocks of the partition. *)
Context (N : Z).
Implicit Types (w : wld) (t : trn) (ts : list trn).

Definition pending_in w (dir : bool) : list cb := pending dir (io w).

(** Where a transfer is: not submitted yet, submitted, or done. *)
Definition tr_state w t : Prop :=
  first (tr_ctx t) = false ∧
  match finish (tr_ctx t) with
  | None => processing (tr_ctx t) = false
  | Some f => processing (tr_ctx t) = true ∧ f < next_flag w ∧
      if decide (f ∈ MemCopy.flags (io w)) then tr_done w t else tr_cb w t f ∈ pending_in w (tr_dir t)
  end.

Record io_ok w ts : Prop := {
  ok_backend : backend_inv (io w);
  ok_pool : pool_inv (memory_pool w);
  ok_apart : 0 ≤ N ∧ (MemCopy.mempool (io w) + N * PS ≤ base (memory_pool w) ∨
    base (memory_pool w) + num_pages (memory_pool w) * PS ≤ MemCopy.mempool (io w));
  ok_pages : NoDup (tr_page <$> ts);
  ok_frames : NoDup (tr_frame <$> ts);
  ok_range t : t ∈ ts → 0 ≤ tr_page t < N ∧ 0 ≤ tr_frame t < num_pages (memory_pool w);
  ok_state t : t ∈ ts → tr_state w t;
  ok_touch t : t ∈ ts → tr_touch w t;
  ok_flags t t' f : t ∈ ts → t' ∈ ts → finish (tr_ctx t) = Some f → finish (tr_ctx t') = Some f → t = t';
  ok_pending dir c : c ∈ pending_in w dir → ∃ t f, t ∈ ts ∧ tr_dir t = dir ∧ finish (tr_ctx t) = Some f ∧
    (f ∉ MemCopy.flags (io w)) ∧ c = tr_cb w t f;
  ok_once : NoDup (pending_in w true ++ pending_in w false);
  ok_raised f : f ∈ MemCopy.flags (io w) → f < next_flag w;
  ok_zero q : 0 ≤ q < num_pages (memory_pool w) → q ∉ loaded_frames w →
    frame_page w q = zero_page ∧ ∀ v, 0 ≤ v < N → block_page w v = zero_page;
}.

(** The pages of the frames and the blocks. *)
Definition is_page w (a : Z) : Prop :=
  (∃ p, 0 ≤ p < num_pages (memory_pool w) ∧ a = frame_addr w p) ∨ (∃ v, 0 ≤ v < N ∧ a = block_addr w v).

Section facts.
Context w ts (Hok : io_ok w ts).

Lemma ps_pos : 0 < PS.
Proof using. done. Qed.

Lemma frame_inj p q : frame_addr w p = frame_addr w q → p = q.
Proof using. unfold frame_addr. pose proof ps_pos. nia. Qed.

Lemma block_inj u v : block_addr w u = block_addr w v → u = v.
Proof using. unfold block_addr. pose proof ps_pos. nia. Qed.

Lemma frame_not_block p v : 0 ≤ p < num_pages (memory_pool w) → 0 ≤ v < N → frame_addr w p ≠ block_addr w v.
Proof using Hok. intros Hp Hv. destruct (ok_apart _ _ Hok) as [_ Ha]. unfold frame_addr, block_addr. pose proof ps_pos. nia. Qed.

Lemma pages_apart a b : is_page w a → is_page w b → a = b ∨ apart a b.
Proof using Hok.
  destruct (ok_apart _ _ Hok) as [_ Ha]. pose proof ps_pos as Hps.
  intros [(p & Hp & ->)|(v & Hv & ->)] [(q & Hq & ->)|(u & Hu & ->)]; unfold apart, frame_addr, block_addr.
  - destruct (Z.lt_trichotomy p q) as [|[->|]]; [right; nia|by left|right; nia].
  - right. destruct Ha; nia.
  - right. destruct Ha; nia.
  - destruct (Z.lt_trichotomy v u) as [|[->|]]; [right; nia|by left|right; nia].
Qed.

Lemma frame_is_page p : 0 ≤ p < num_pages (memory_pool w) → is_page w (frame_addr w p).
Proof using. intros Hp. left. by exists p. Qed.

Lemma block_is_page v : 0 ≤ v < N → is_page w (block_addr w v).
Proof using. intros Hv. right. by exists v. Qed.

Lemma tr_page_unique t t' : t ∈ ts → t' ∈ ts → tr_page t = tr_page t' → t = t'.
Proof using Hok. intros Ht Ht' E. by apply (NoDup_fmap_elem tr_page ts t t' (ok_pages _ _ Hok)). Qed.

Lemma tr_frame_unique t t' : t ∈ ts → t' ∈ ts → tr_frame t = tr_frame t' → t = t'.
Proof using Hok. intros Ht Ht' E. by apply (NoDup_fmap_elem tr_frame ts t t' (ok_frames _ _ Hok)). Qed.

(** What the pending requests write. *)
Lemma cb_pages t f : t ∈ ts → is_page w (MemCopy.cb_to (tr_cb w t f)) ∧ is_page w (MemCopy.cb_from (tr_cb w t f)).
Proof using Hok.
  intros Ht. destruct (ok_range _ _ Hok t Ht) as [Hp Hf].
  destruct t as [v p d e|v p e]; simpl in *; split; (by apply frame_is_page) || (by apply block_is_page).
Qed.

Lemma cb_writes t f p : t ∈ ts → 0 ≤ p < num_pages (memory_pool w) → MemCopy.cb_to (tr_cb w t f) = frame_addr w p →
  tr_dir t = true ∧ tr_frame t = p.
Proof using Hok.
  intros Ht Hp E. destruct (ok_range _ _ Hok t Ht) as [Hv Hf]. destruct t as [v q d e|v q e]; simpl in *.
  - symmetry in E. by apply frame_not_block in E.
  - split; [done|]. by apply frame_inj.
Qed.

Lemma cb_stores t f v : t ∈ ts → 0 ≤ v < N → MemCopy.cb_to (tr_cb w t f) = block_addr w v →
  tr_dir t = false ∧ tr_page t = v.
Proof using Hok.
  intros Ht Hv E. destruct (ok_range _ _ Hok t Ht) as [Hu Hf]. destruct t as [u q d e|u q e]; simpl in *.
  - split; [done|]. by apply block_inj.
  - by apply frame_not_block in E.
Qed.
End facts.
(** ** Steps of the backend *)
Definition with_io w (b : MemCopy.t) : wld := mk_io b (memory_pool w) (next_flag w) (num_miss w).

Definition idle_iocbs_of (dir : bool) (b : MemCopy.t) : list Z := MemCopy.idle_iocbs (the_lane dir b).

(** What a step leaves alone. *)
Definition keeps_pages w w' ts : Prop :=
  (∀ q, 0 ≤ q < num_pages (memory_pool w) → ¬ fills ts q → frame_page w' q = frame_page w q) ∧
  (∀ u, 0 ≤ u < N → ¬ stores ts u → block_page w' u = block_page w u).

Lemma quiescent_pending dir b : quiescent b → pending dir b = [].
Proof. intros [_ Hp]. unfold pending, prep. by rewrite Hp. Qed.

Section progress.
Context w ts (Hok : io_ok w ts).

Lemma pending_tr dir c : c ∈ pending_in w dir → ∃ t f, t ∈ ts ∧ finish (tr_ctx t) = Some f ∧ (f ∉ MemCopy.flags (io w)) ∧ c = tr_cb w t f.
Proof using Hok. intros Hc. destruct (ok_pending _ _ Hok dir c Hc) as (t & f & ? & _ & ? & ? & ?). by exists t, f. Qed.

Context (L : list cb) (HL : L ≡ₚ pending_in w true ++ pending_in w false).

Lemma run_tr c : c ∈ L → ∃ t f, t ∈ ts ∧ finish (tr_ctx t) = Some f ∧ (f ∉ MemCopy.flags (io w)) ∧ c = tr_cb w t f.
Proof using Hok HL. rewrite HL. intros [Hc|Hc]%elem_of_app; by eapply pending_tr. Qed.

Lemma run_to c c' : c ∈ L → c' ∈ L → MemCopy.cb_to c = MemCopy.cb_to c' → c = c'.
Proof using Hok HL.
  intros (t & f & Ht & Ef & _ & ->)%run_tr (t' & f' & Ht' & Ef' & _ & ->)%run_tr E.
  assert (t = t') as ->; [|by simplify_eq].
  destruct (ok_range _ _ Hok t' Ht') as [Hv Hp]. destruct t' as [v p d e|v p e]; simpl in E, Hv, Hp.
  - destruct (cb_stores w ts Hok t f v Ht Hv E) as [_ Ep]. by apply (tr_page_unique w ts Hok).
  - destruct (cb_writes w ts Hok t f p Ht Hp E) as [_ Ep]. by apply (tr_frame_unique w ts Hok).
Qed.

Lemma run_sep c c' : c ∈ L → c' ∈ L → MemCopy.cb_to c ≠ MemCopy.cb_from c'.
Proof using Hok HL.
  intros (t & f & Ht & Ef & _ & ->)%run_tr (t' & f' & Ht' & Ef' & _ & ->)%run_tr E.
  destruct (ok_range _ _ Hok t' Ht') as [Hv Hp]. destruct t' as [v p d e|v p e]; simpl in E, Hv, Hp.
  - destruct (cb_writes w ts Hok t f p Ht Hp E) as [Ed Ep]. apply (tr_frame_unique w ts Hok t (TEvict v p d e) Ht Ht') in Ep. by subst.
  - destruct (cb_stores w ts Hok t f v Ht Hv E) as [Ed Ep]. apply (tr_page_unique w ts Hok t (TLoad v p e) Ht Ht') in Ep. by subst.
Qed.

Lemma run_nodup : NoDup (MemCopy.cb_to <$> L).
Proof using Hok HL. apply NoDup_fmap_2_strong; [intros c c'; apply run_to|]. rewrite HL. apply (ok_once _ _ Hok). Qed.

Let m' := foldl exec (MemCopy.mem (io w)) L.

Lemma run_page c : c ∈ L → page_at m' (MemCopy.cb_to c) = page_at (MemCopy.mem (io w)) (MemCopy.cb_from c).
Proof using Hok HL.
  intros Hc. apply (copies_done (is_page w)); [apply (pages_apart w ts Hok)|apply run_nodup| |apply run_sep|done].
  intros c' (t & f & Ht & _ & _ & ->)%run_tr. by apply (cb_pages w ts Hok).
Qed.

Lemma run_frame q : 0 ≤ q < num_pages (memory_pool w) →
  (∀ t f, t ∈ ts → finish (tr_ctx t) = Some f → f ∉ MemCopy.flags (io w) → tr_dir t = true → tr_frame t ≠ q) →
  page_at m' (frame_addr w q) = frame_page w q.
Proof using Hok HL.
  intros Hq Hno. apply (copies_other (is_page w)); [apply (pages_apart w ts Hok)|by apply frame_is_page|].
  intros c (t & f & Ht & Ef & Hf & ->)%run_tr. split; [by apply (cb_pages w ts Hok)|]. intros E.
  destruct (cb_writes w ts Hok t f q Ht Hq E) as [Ed Ep]. by apply (Hno t f).
Qed.

Lemma run_block u : 0 ≤ u < N →
  (∀ t f, t ∈ ts → finish (tr_ctx t) = Some f → f ∉ MemCopy.flags (io w) → tr_dir t = false → tr_page t ≠ u) →
  page_at m' (block_addr w u) = block_page w u.
Proof using Hok HL.
  intros Hu Hno. apply (copies_other (is_page w)); [apply (pages_apart w ts Hok)|by apply block_is_page|].
  intros c (t & f & Ht & Ef & Hf & ->)%run_tr. split; [by apply (cb_pages w ts Hok)|]. intros E.
  destruct (cb_stores w ts Hok t f u Ht Hu E) as [Ed Ep]. by apply (Hno t f).
Qed.
End progress.

Lemma not_filled ts t q : ¬ fills ts q → t ∈ ts → tr_dir t = true → tr_frame t ≠ q.
Proof. intros Hno Ht Hd <-. apply Hno. destruct t as [|v p e]; [done|]. by exists v, e. Qed.

Lemma not_stored w ts t u : io_ok w ts → ¬ stores ts u → t ∈ ts → tr_dir t = false → tr_page t ≠ u.
Proof.
  intros Hok Hno Ht Hd <-. apply Hno. destruct t as [v p d e|]; [|done]. destruct (ok_touch _ _ Hok _ Ht) as [-> _]. by exists p, e.
Qed.

Lemma untouched_quiet w ts q : io_ok w ts → 0 ≤ q < num_pages (memory_pool w) → q ∉ loaded_frames w → ¬ fills ts q ∧ ∀ u, ¬ stores ts u.
Proof.
  intros Hok Hq Hn. split.
  - intros (v & e & Ht). by apply Hn, (ok_touch _ _ Hok _ Ht).
  - intros u (p & e & Ht). destruct (ok_touch _ _ Hok _ Ht) as [_ Hall]. by apply Hn, Hall.
Qed.

Lemma progress_step w ts : io_ok w ts → ∃ b', MemCopy.progress (io w) = Ok (b', false) ∧ io_ok (with_io w b') ts ∧
  quiescent b' ∧ MemCopy.mempool b' = MemCopy.mempool (io w) ∧ keeps_pages w (with_io w b') ts.
Proof.
  intros Hok. destruct (progress_ok (io w) (ok_backend _ _ Hok)) as (b' & rs & ws & Hr & Hq & Hmp & Hrs & Hws & Hm & Hfl).
  assert (HL : rs ++ ws ≡ₚ pending_in w true ++ pending_in w false) by (unfold pending_in; by rewrite Hrs, Hws).
  assert (Hfa : ∀ q, frame_addr (with_io w b') q = frame_addr w q) by done.
  assert (Hba : ∀ v, block_addr (with_io w b') v = block_addr w v) by (intros v; unfold block_addr; cbn [io with_io]; by rewrite Hmp).
  assert (Hfp : ∀ q, frame_page (with_io w b') q = page_at (foldl exec (MemCopy.mem (io w)) (rs ++ ws)) (frame_addr w q)).
  { intros q. unfold frame_page. rewrite Hfa. cbn [io with_io]. by rewrite Hm. }
  assert (Hbp : ∀ v, block_page (with_io w b') v = page_at (foldl exec (MemCopy.mem (io w)) (rs ++ ws)) (block_addr w v)).
  { intros v. unfold block_page. rewrite Hba. cbn [io with_io]. by rewrite Hm. }
  assert (Hkeep : keeps_pages w (with_io w b') ts).
  { split; intros k Hk Hno; rewrite ?Hfp, ?Hbp.
    - apply (run_frame w ts Hok _ HL k Hk). intros t f Ht _ _. by apply (not_filled ts).
    - apply (run_block w ts Hok _ HL k Hk). intros t f Ht _ _. by apply (not_stored w ts). }
  assert (Hflag : ∀ f, f ∈ MemCopy.flags b' ↔ f ∈ MemCopy.flags (io w) ∨ ∃ t, t ∈ ts ∧ finish (tr_ctx t) = Some f).
  { intros f. rewrite Hfl, elem_of_raise_all. split.
    - intros [?|(c & Hc & Ec)]; [by left|right]. destruct (run_tr w ts Hok _ HL c Hc) as (t & g & Ht & Eg & _ & ->).
      exists t. split; [done|]. by destruct t; simpl in Ec; simplify_eq.
    - intros [?|(t & Ht & Ef)]; [by left|]. destruct (decide (f ∈ MemCopy.flags (io w))) as [|Hn]; [by left|right].
      destruct (ok_state _ _ Hok t Ht) as [_ Hs]. rewrite Ef in Hs. destruct Hs as (_ & _ & Hs). rewrite decide_False in Hs by done.
      exists (tr_cb w t f). split; [|by destruct t]. rewrite HL. destruct (tr_dir t); set_solver. }
  exists b'. split; [done|]. split; [|split; [done|by split]]. split; try apply Hok; try done.
  - apply Hq.
  - cbn [io with_io]. rewrite Hmp. apply Hok.
  - intros t Ht. destruct (ok_state _ _ Hok t Ht) as [Hf Hs]. split; [done|]. destruct (finish (tr_ctx t)) as [f|] eqn:Ef; [|done].
    destruct Hs as (Hpr & Hlt & Hs). split; [done|]. split; [done|]. destruct (ok_range _ _ Hok t Ht) as [Hv Hp].
    rewrite decide_True by (apply Hflag; right; by exists t). unfold tr_done. rewrite Hfp, Hbp.
    destruct (decide (f ∈ MemCopy.flags (io w))) as [Hin|Hn].
    + rewrite (run_frame w ts Hok _ HL), (run_block w ts Hok _ HL); [done|done| |done|].
      * intros t' f' Ht' Ef' Hn' _ E. apply (tr_page_unique w ts Hok) in E; [|done|done]. subst t'. congruence.
      * intros t' f' Ht' Ef' Hn' _ E. apply (tr_frame_unique w ts Hok) in E; [|done|done]. subst t'. congruence.
    + assert (Hc : tr_cb w t f ∈ rs ++ ws) by (rewrite HL; destruct (tr_dir t); set_solver).
      pose proof (run_page w ts Hok _ HL _ Hc) as Hpg. destruct t as [v p d e|v p e]; simpl in *.
      * rewrite Hpg. apply (run_frame w ts Hok _ HL p Hp). intros t' f' Ht' _ _ Hd E.
        apply (tr_frame_unique w ts Hok t' (TEvict v p d e)) in E; [|done|done]. by subst t'.
      * rewrite Hpg. symmetry. apply (run_block w ts Hok _ HL v Hv). intros t' f' Ht' _ _ Hd E.
        apply (tr_page_unique w ts Hok t' (TLoad v p e)) in E; [|done|done]. by subst t'.
  - intros dir c. unfold pending_in. cbn [io with_io]. rewrite quiescent_pending by done. set_solver.
  - unfold pending_in. cbn [io with_io]. rewrite !quiescent_pending by done. constructor.
  - intros f. cbn [io with_io]. rewrite Hflag. intros [Hf|(t & Ht & Ef)]; [by apply (ok_raised _ _ Hok)|].
    destruct (ok_state _ _ Hok t Ht) as [_ Hs]. rewrite Ef in Hs. apply Hs.
  - intros q Hq' Hn. destruct (untouched_quiet w ts q Hok Hq' Hn) as [Hnf Hns]. destruct (ok_zero _ _ Hok q Hq' Hn) as [Hz1 Hz2].
    destruct Hkeep as [Hk1 Hk2]. rewrite Hk1 by done. split; [done|]. intros v Hv. rewrite Hk2 by done. by apply Hz2.
Qed.
(** ** Transfers that start and end *)
Lemma io_ok_perm w ts ts' : ts ≡ₚ ts' → io_ok w ts → io_ok w ts'.
Proof.
  intros Hp Hok. assert (Hin : ∀ t, t ∈ ts' ↔ t ∈ ts) by (intros t; by rewrite Hp). split; try apply Hok.
  - rewrite <- Hp. apply Hok.
  - rewrite <- Hp. apply Hok.
  - intros t. rewrite Hin. apply Hok.
  - intros t. rewrite Hin. apply Hok.
  - intros t. rewrite Hin. apply Hok.
  - intros t t' f. rewrite !Hin. apply Hok.
  - intros dir c Hc. destruct (ok_pending _ _ Hok dir c Hc) as (t & f & Ht & ?). exists t, f. by rewrite Hin.
Qed.

Definition idle_ctx : ioctx := mk_ctx false false None.

Lemma add_step w t ts : io_ok w ts → tr_ctx t = idle_ctx → tr_page t ∉ (tr_page <$> ts) → tr_frame t ∉ (tr_frame <$> ts) →
  0 ≤ tr_page t < N → 0 ≤ tr_frame t < num_pages (memory_pool w) → tr_touch w t → io_ok w (t :: ts).
Proof.
  intros Hok He Hp Hf Hpr Hfr Ht. split; try apply Hok.
  - simpl. constructor; [done|apply Hok].
  - simpl. constructor; [done|apply Hok].
  - intros t' [->|Ht']%elem_of_cons; [done|by apply Hok].
  - intros t' [->|Ht']%elem_of_cons; [|by apply Hok]. unfold tr_state. by rewrite He.
  - intros t' [->|Ht']%elem_of_cons; [done|by apply Hok].
  - intros t1 t2 f [->|Ht1]%elem_of_cons [->|Ht2]%elem_of_cons; rewrite ?He; try done. by apply (ok_flags _ _ Hok).
  - intros dir c Hc. destruct (ok_pending _ _ Hok dir c Hc) as (t' & f & Ht' & ?). exists t', f. split; [by apply elem_of_cons; right|done].
Qed.

Lemma drop_step w t ts : io_ok w (t :: ts) →
  match finish (tr_ctx t) with None => True | Some f => f ∈ MemCopy.flags (io w) end → io_ok w ts.
Proof.
  intros Hok Hd. assert (Hin : ∀ t', t' ∈ ts → t' ∈ t :: ts) by (intros t' ?; by apply elem_of_cons; right). split; try apply Hok.
  - pose proof (ok_pages _ _ Hok) as Hn. simpl in Hn. by apply NoDup_cons in Hn as [_ Hn].
  - pose proof (ok_frames _ _ Hok) as Hn. simpl in Hn. by apply NoDup_cons in Hn as [_ Hn].
  - intros t' Ht'. by apply Hok, Hin.
  - intros t' Ht'. by apply Hok, Hin.
  - intros t' Ht'. by apply Hok, Hin.
  - intros t1 t2 f H1 H2. apply (ok_flags _ _ Hok); by apply Hin.
  - intros dir c Hc. destruct (ok_pending _ _ Hok dir c Hc) as (t' & f & [->|Ht']%elem_of_cons & Hdir & Ef & Hn & E).
    + by rewrite Ef in Hd.
    + by exists t', f.
Qed.

(** The request of the first transfer is accepted. *)
Lemma request_step w t ts b' : let f := next_flag w in let e := mk_ctx false true (Some f) in
  io_ok w (t :: ts) → finish (tr_ctx t) = None → backend_inv b' → MemCopy.mempool b' = MemCopy.mempool (io w) →
  MemCopy.mem b' = MemCopy.mem (io w) → MemCopy.flags b' = MemCopy.flags (io w) →
  pending (tr_dir t) b' = pending (tr_dir t) (io w) ++ [tr_cb w t f] → pending (negb (tr_dir t)) b' = pending (negb (tr_dir t)) (io w) →
  io_ok (mk_io b' (memory_pool w) (f + 1) (num_miss w)) (with_ctx t e :: ts).
Proof.
  intros f e Hok Hfin Hb Hmp Hmem Hfl Hp1 Hp2. set (w' := mk_io b' (memory_pool w) (f + 1) (num_miss w)).
  assert (Hba : ∀ v, block_addr w' v = block_addr w v) by (intros v; unfold block_addr; cbn [io w']; by rewrite Hmp).
  assert (Hcb : ∀ t' g, tr_cb w' t' g = tr_cb w t' g) by (intros [|] g; simpl; by rewrite Hba).
  assert (Hfp : ∀ q, frame_page w' q = frame_page w q) by (intros q; unfold frame_page; cbn [io w']; by rewrite Hmem).
  assert (Hbp : ∀ v, block_page w' v = block_page w v) by (intros v; unfold block_page; rewrite Hba; cbn [io w']; by rewrite Hmem).
  assert (Hpage : tr_page (with_ctx t e) = tr_page t ∧ tr_frame (with_ctx t e) = tr_frame t ∧ tr_ctx (with_ctx t e) = e ∧
    tr_dir (with_ctx t e) = tr_dir t ∧ (∀ g, tr_cb w (with_ctx t e) g = tr_cb w t g)) by (by destruct t).
  destruct Hpage as (Ep & Ef & Ee & Ed & Ecb).
  assert (Hpend : ∀ dir, pending_in w' dir ≡ₚ (if eqb dir (tr_dir t) then [tr_cb w t f] else []) ++ pending_in w dir).
  { intros dir. unfold pending_in. cbn [io w']. destruct (eqb dir (tr_dir t)) eqn:E.
    - apply eqb_prop in E. subst dir. by rewrite Hp1, Permutation_app_comm.
    - assert (dir = negb (tr_dir t)) as -> by (destruct dir, (tr_dir t); done). by rewrite Hp2. }
  assert (Hold : ∀ dir c, c ∈ pending_in w dir → ∃ t' g, t' ∈ ts ∧ tr_dir t' = dir ∧ finish (tr_ctx t') = Some g ∧
      (g ∉ MemCopy.flags (io w)) ∧ c = tr_cb w t' g ∧ g < f).
  { intros dir c Hc. destruct (ok_pending _ _ Hok dir c Hc) as (t' & g & Ht' & Hd & Eg & Hn & E).
    exists t', g. apply elem_of_cons in Ht' as Ht2. destruct Ht2 as [->|Ht2]; [congruence|]. split; [done|].
    destruct (ok_state _ _ Hok t' Ht') as [_ Hs]. rewrite Eg in Hs. destruct Hs as (_ & Hlt & _). done. }
  assert (Hnew : tr_cb w t f ∉ pending_in w true ++ pending_in w false).
  { intros [Hc|Hc]%elem_of_app; destruct (Hold _ _ Hc) as (t' & g & _ & _ & _ & _ & E & Hlt); destruct t, t'; simpl in E; simplify_eq; lia. }
  assert (Hfresh : f ∉ MemCopy.flags (io w)) by (intros Hf%(ok_raised _ _ Hok); lia).
  split; cbn [io memory_pool next_flag w'].
  - done.
  - apply Hok.
  - rewrite Hmp. apply Hok.
  - rewrite fmap_cons, Ep. apply (ok_pages _ _ Hok).
  - rewrite fmap_cons, Ef. apply (ok_frames _ _ Hok).
  - intros t' [->|Ht']%elem_of_cons; [rewrite Ep, Ef; apply (ok_range _ _ Hok); set_solver|apply (ok_range _ _ Hok); set_solver].
  - intros t' [->|Ht']%elem_of_cons; unfold tr_state; cbn [io w' next_flag]; rewrite Hfl.
    + rewrite Ee. cbn [first finish processing e]. split; [done|]. split; [done|]. split; [lia|]. rewrite decide_False by done.
      rewrite Hcb, Ecb, Ed, Hpend, eqb_reflx. set_solver.
    + destruct (ok_state _ _ Hok t') as [Hfi Hs]; [set_solver|]. split; [done|]. destruct (finish (tr_ctx t')) as [g|]; [|done].
      destruct Hs as (Hpr & Hlt & Hs). split; [done|]. split; [lia|]. case_decide.
      * unfold tr_done. by rewrite Hfp, Hbp.
      * rewrite Hcb, Hpend. set_solver.
  - intros t' [->|Ht']%elem_of_cons; [|by apply (ok_touch _ _ Hok); set_solver].
    assert (Htt : tr_touch w t) by (apply (ok_touch _ _ Hok); set_solver). by destruct t.
  - intros t1 t2 g [->|Ht1]%elem_of_cons [->|Ht2]%elem_of_cons; rewrite ?Ee; cbn [finish e]; try done.
    + intros [= <-] E2. destruct (ok_state _ _ Hok t2) as [_ Hs]; [set_solver|]. rewrite E2 in Hs. lia.
    + intros E2 [= <-]. destruct (ok_state _ _ Hok t1) as [_ Hs]; [set_solver|]. rewrite E2 in Hs. lia.
    + apply (ok_flags _ _ Hok); set_solver.
  - intros dir c. rewrite Hpend. intros [Hc|Hc]%elem_of_app.
    + destruct (eqb dir (tr_dir t)) eqn:E; [|set_solver]. apply eqb_prop in E. apply list_elem_of_singleton in Hc as ->.
      exists (with_ctx t e), f. rewrite Ee, Ed, Hfl, Hcb, Ecb. split; [set_solver|]. done.
    + destruct (Hold dir c Hc) as (t' & g & ? & ? & ? & ? & E & _). exists t', g. rewrite Hfl, Hcb. split; [set_solver|]. done.
  - rewrite !Hpend. pose proof (ok_once _ _ Hok) as Ho.
    assert (Hsum : ((if eqb true (tr_dir t) then [tr_cb w t f] else []) ++ pending_in w true) ++
      ((if eqb false (tr_dir t) then [tr_cb w t f] else []) ++ pending_in w false) ≡ₚ tr_cb w t f :: pending_in w true ++ pending_in w false).
    { destruct (tr_dir t); simpl; [done|]. by rewrite Permutation_middle. }
    rewrite Hsum. by constructor.
  - intros g. rewrite Hfl. intros Hg%(ok_raised _ _ Hok). lia.
  - intros q Hq Hn. rewrite Hfp. destruct (ok_zero _ _ Hok q Hq Hn) as [Hz1 Hz2]. split; [done|]. intros v Hv. rewrite Hbp. by apply Hz2.
Qed.
(** *** [submit] ends: a refused request makes progress, which frees every slot *)
Definition op_of (dir : bool) : MemCopy.t → Z → Z → option Z → result (MemCopy.t * bool) := if dir then io_read else io_write.

Lemma op_request dir b id data finish : op_of dir b id data finish = IoBackendSpec.request dir b id data finish.
Proof. by destruct dir. Qed.

Lemma request_busy dir b id data finish b1 : idle_iocbs_of dir b = [] → MemCopy.progress b = Ok (b1, false) →
  op_of dir b id data finish = Ok (b1, false).
Proof.
  unfold idle_iocbs_of. intros He Hp. destruct dir; simpl in *; unfold MemCopy.read, MemCopy.write, MemCopy.take_slot; rewrite He; simpl; by rewrite Hp.
Qed.

Lemma start_step w t ts : io_ok w (t :: ts) → finish (tr_ctx t) = None →
  let e := mk_ctx false true (Some (next_flag w)) in
  ∃ w', start_io (op_of (tr_dir t)) w (tr_page t) (tr_frame t) = Ok (w', e) ∧ io_ok w' (with_ctx t e :: ts) ∧
    memory_pool w' = memory_pool w ∧ keeps_pages w w' (t :: ts).
Proof.
  intros Hok Hfin e. destruct (ok_range _ _ Hok t) as [_ Hf]; [set_solver|].
  destruct (ok_pool _ _ Hok) as [_ Hb0 Htop _ _]. pose proof ps_pos as Hps.
  assert (Hdata : from_page_id (memory_pool w) (tr_frame t) = Ok (frame_addr w (tr_frame t))).
  { unfold from_page_id, frame_addr. rewrite (proj2 (Z.ltb_lt _ _)) by lia. simpl. rewrite w64_small by nia. done. }
  assert (Haccept : ∀ b0 n, io_ok (with_io w b0) (t :: ts) → MemCopy.mempool b0 = MemCopy.mempool (io w) →
    idle_iocbs_of (tr_dir t) b0 ≠ [] → keeps_pages w (with_io w b0) (t :: ts) →
    ∃ b', submit (λ b, op_of (tr_dir t) b (tr_page t) (frame_addr w (tr_frame t)) (Some (next_flag w))) n b0 = Ok b' ∧
      io_ok (mk_io b' (memory_pool w) (next_flag w + 1) (num_miss w)) (with_ctx t e :: ts) ∧
      keeps_pages w (mk_io b' (memory_pool w) (next_flag w + 1) (num_miss w)) (t :: ts)).
  { intros b0 n Hok0 Hmp Hidle [Hk1 Hk2].
    destruct (request_ok (tr_dir t) b0 (tr_page t) (frame_addr w (tr_frame t)) (Some (next_flag w)) (ok_backend _ _ Hok0) Hidle)
      as (b' & Hr & Hb' & Hmp' & Hmem' & Hfl' & Hp1 & Hp2).
    exists b'. split; [destruct n; simpl; by rewrite op_request, Hr|]. split.
    - apply (request_step (with_io w b0) t ts b' Hok0 Hfin Hb' Hmp' Hmem' Hfl'); [|done]. rewrite Hp1. do 2 f_equal.
      unfold request_cb, tr_cb, block_addr, frame_addr. cbn [io with_io memory_pool]. rewrite Hmp. by destruct t.
    - split; [intros q Hq Hno; rewrite <- Hk1 by done|intros u Hu Hno; rewrite <- Hk2 by done];
        unfold frame_page, block_page, block_addr; cbn [io with_io]; by rewrite Hmem', ?Hmp'. }
  assert (Hsub : ∃ b', submit (λ b, op_of (tr_dir t) b (tr_page t) (frame_addr w (tr_frame t)) (Some (next_flag w))) submit_fuel (io w) = Ok b' ∧
      io_ok (mk_io b' (memory_pool w) (next_flag w + 1) (num_miss w)) (with_ctx t e :: ts) ∧
      keeps_pages w (mk_io b' (memory_pool w) (next_flag w + 1) (num_miss w)) (t :: ts)).
  { destruct (decide (idle_iocbs_of (tr_dir t) (io w) = [])) as [He|Hne].
    - destruct (progress_step w _ Hok) as (b1 & Hr & Hok1 & Hq & Hmp & Hk).
      destruct (Haccept b1 7%nat Hok1 Hmp (quiescent_idle _ _ Hq) Hk) as (b' & Hsub & ?).
      exists b'. split; [|done]. unfold submit_fuel. cbn [submit]. rewrite (request_busy _ _ _ _ _ b1 He Hr). exact Hsub.
    - apply Haccept; [by destruct w|done|done|by split]. }
  destruct Hsub as (b' & Hsub & Hok' & Hk). eexists. split; [|split; [exact Hok'|split; [done|exact Hk]]].
  unfold start_io. rewrite (bind_rew _ _ _ Hdata). cbv zeta. by rewrite (bind_rew _ _ _ Hsub).
Qed.

(** ** One call of [transfer] *)
Lemma transfer_first (op : MemCopy.t → Z → Z → option Z → result (MemCopy.t * bool)) w block p :
  SharedCache.transfer op w default_context block p = Ok (w, idle_ctx, false).
Proof. done. Qed.

Lemma transfer_step w t ts : io_ok w (t :: ts) → ∃ w' e' (b : bool),
  SharedCache.transfer (op_of (tr_dir t)) w (tr_ctx t) (tr_page t) (tr_frame t) = Ok (w', e', b) ∧
  io_ok w' (if b then ts else with_ctx t e' :: ts) ∧ memory_pool w' = memory_pool w ∧
  keeps_pages w w' (t :: ts) ∧ (b = true → w' = w ∧ tr_done w t).
Proof.
  intros Hok. destruct (ok_state _ _ Hok t) as [Hfi Hs]; [set_solver|]. unfold SharedCache.transfer. rewrite Hfi.
  destruct (finish (tr_ctx t)) as [f|] eqn:Ef.
  - destruct Hs as (Hpr & Hlt & Hs). rewrite Hpr. unfold is_finished. rewrite Ef. cbn [negb io_finished memcopy_backend]. case_decide as Hin.
    + rewrite bool_decide_true by done. exists w, (tr_ctx t), true. split; [done|]. split; [apply (drop_step w t); [done|by rewrite Ef]|].
      split; [done|]. split; [by split|done].
    + rewrite bool_decide_false by done. cbn [negb]. destruct (progress_step w _ Hok) as (b' & Hr & Hok' & _ & _ & Hk).
      cbn [io_progress memcopy_backend]. rewrite (bind_rew _ _ _ Hr). eexists _, (tr_ctx t), false. split; [done|].
      split; [|split; [done|split; [exact Hk|done]]]. assert (with_ctx t (tr_ctx t) = t) as -> by (by destruct t). exact Hok'.
  - rewrite Hs. cbn [negb]. destruct (start_step w t ts Hok Ef) as (w' & Hr & Hok' & Hm & Hk).
    rewrite (bind_rew _ _ _ Hr). eexists w', _, false. done.
Qed.
(** ** Frames loaded for the first time, and writes to a frame *)
Lemma elem_of_loaded w p : p ∈ loaded_frames w ↔ 0 ≤ p < num_pages (memory_pool w) ∧ zget (first_loaded (memory_pool w)) p = Some true.
Proof. unfold loaded_frames. rewrite elem_of_list_to_set, list_elem_of_filter, elem_of_seqZ. split; intros [? ?]; split; try done; lia. Qed.

(** Only the loaded frames and the counters of a world change. *)
Lemma io_ok_mono w w' ts : io_ok w ts → io w' = io w → next_flag w' = next_flag w → pool_inv (memory_pool w') →
  num_pages (memory_pool w') = num_pages (memory_pool w) → base (memory_pool w') = base (memory_pool w) →
  loaded_frames w ⊆ loaded_frames w' → io_ok w' ts.
Proof.
  intros Hok Eio Enf Hpool En Eb Hsub.
  assert (Hfa : ∀ q, frame_addr w' q = frame_addr w q) by (intros q; unfold frame_addr; by rewrite Eb).
  assert (Hba : ∀ v, block_addr w' v = block_addr w v) by (intros v; unfold block_addr; by rewrite Eio).
  assert (Hcb : ∀ t g, tr_cb w' t g = tr_cb w t g) by (intros [|] g; simpl; by rewrite Hba, Hfa).
  assert (Hfp : ∀ q, frame_page w' q = frame_page w q) by (intros q; unfold frame_page; by rewrite Eio, Hfa).
  assert (Hbp : ∀ v, block_page w' v = block_page w v) by (intros v; unfold block_page; by rewrite Eio, Hba).
  split; unfold pending_in; rewrite ?Eio, ?Enf, ?En, ?Eb; try apply Hok; try done.
  - intros t Ht. destruct (ok_state _ _ Hok t Ht) as [Hf Hs]. split; [done|]. destruct (finish (tr_ctx t)) as [f|]; [|done].
    rewrite Enf, Eio. destruct Hs as (? & ? & Hs). split; [done|]. split; [done|]. case_decide.
    + unfold tr_done. by rewrite Hfp, Hbp.
    + unfold pending_in. by rewrite Hcb, Eio.
  - intros t Ht. pose proof (ok_touch _ _ Hok t Ht) as Htt. destruct t; simpl in *; [|set_solver]. destruct Htt as [Hd Hall].
    split; [done|]. rewrite En. set_solver.
  - intros dir c Hc. destruct (ok_pending _ _ Hok dir c Hc) as (t & f & ?). exists t, f. by rewrite Hcb.
  - intros q Hq Hn. rewrite Hfp. destruct (ok_zero _ _ Hok q Hq) as [Hz1 Hz2]; [set_solver|]. split; [done|]. intros v Hv. rewrite Hbp. by apply Hz2.
Qed.

Lemma touch_step w ts p : io_ok w ts → 0 ≤ p < num_pages (memory_pool w) → ∃ m',
  loaded (memory_pool w) p = Ok (m', bool_decide (p ∈ loaded_frames w)) ∧
  let w' := mk_io (io w) m' (next_flag w) (num_miss w) in
  io_ok w' ts ∧ loaded_frames w' = {[p]} ∪ loaded_frames w ∧ num_pages m' = num_pages (memory_pool w) ∧ base m' = base (memory_pool w).
Proof.
  intros Hok Hp. destruct (loaded_spec (memory_pool w) p (ok_pool _ _ Hok) Hp) as (m' & b & Hl & Hb & Hpi & Hj).
  assert (Eb : num_pages m' = num_pages (memory_pool w) ∧ base m' = base (memory_pool w)).
  { unfold loaded in Hl. apply bind_Ok in Hl as (x & _ & Hl). apply bind_Ok in Hl as (y & _ & Hl). by injection Hl as <- _. }
  destruct Eb as [En Eb]. set (w' := mk_io (io w) m' (next_flag w) (num_miss w)).
  assert (Hlf : loaded_frames w' = {[p]} ∪ loaded_frames w).
  { apply set_eq. intros q. rewrite elem_of_union, elem_of_singleton, !elem_of_loaded. cbn [memory_pool w']. rewrite Hj, En.
    case_decide; [subst; naive_solver lia|naive_solver]. }
  exists m'. split; [|split; [|done]].
  - rewrite Hl. f_equal. f_equal. destruct b.
    + symmetry. apply bool_decide_true, elem_of_loaded. done.
    + symmetry. apply bool_decide_false. intros Hin%elem_of_loaded. naive_solver.
  - apply (io_ok_mono w); try done. change (loaded_frames w ⊆ loaded_frames w'). rewrite Hlf. set_solver.
Qed.

(** The user of a frame stores a page. *)
Definition frame_store w (p : Z) (d : list Z) w' : Prop :=
  zlen d = PS ∧
  w' = with_io w (MemCopy.mk (MemCopy.mempool (io w)) (MemCopy.read_lane (io w)) (MemCopy.write_lane (io w))
                    (MemCopy.preparing (io w)) (poke (MemCopy.mem (io w)) (frame_addr w p) d) (MemCopy.flags (io w))).

Lemma store_step w ts p d w' : frame_store w p d w' → io_ok w ts → 0 ≤ p < num_pages (memory_pool w) → p ∈ loaded_frames w →
  p ∉ (tr_frame <$> ts) → io_ok w' ts ∧ frame_page w' p = d ∧
  (∀ q, 0 ≤ q < num_pages (memory_pool w) → q ≠ p → frame_page w' q = frame_page w q) ∧
  (∀ u, 0 ≤ u < N → block_page w' u = block_page w u).
Proof.
  intros [Hlen ->] Hok Hp Htch Hnf. set (w' := with_io w _).
  assert (Hfp : ∀ q, 0 ≤ q < num_pages (memory_pool w) → q ≠ p → frame_page w' q = frame_page w q).
  { intros q Hq Hne. apply page_at_poke_apart. destruct (pages_apart w ts Hok (frame_addr w q) (frame_addr w p)) as [E|?]; [by apply frame_is_page|by apply frame_is_page| |done].
    by apply frame_inj in E. }
  assert (Hbp : ∀ u, 0 ≤ u < N → block_page w' u = block_page w u).
  { intros u Hu. apply page_at_poke_apart. destruct (pages_apart w ts Hok (block_addr w u) (frame_addr w p)) as [E|?]; [by apply block_is_page|by apply frame_is_page| |done].
    symmetry in E. by apply (frame_not_block w ts Hok) in E. }
  split; [|split; [by apply page_at_poke|done]]. split; try apply Hok.
  - intros t Ht. destruct (ok_state _ _ Hok t Ht) as [Hf Hs]. split; [done|]. destruct (finish (tr_ctx t)) as [f|]; [|done].
    destruct Hs as (? & ? & Hs). split; [done|]. split; [done|]. cbn [io with_io w' MemCopy.flags]. case_decide; [|exact Hs].
    destruct (ok_range _ _ Hok t Ht) as [Hv Hfr]. unfold tr_done. rewrite Hfp, Hbp; [done|done|done|].
    intros E. apply Hnf. rewrite <- E. by apply list_elem_of_fmap_2.
  - intros q Hq Hn. destruct (ok_zero _ _ Hok q Hq Hn) as [Hz1 Hz2]. rewrite Hfp; [|done|by intros ->]. split; [done|].
    intros v Hv. rewrite Hbp by done. by apply Hz2.
Qed.
(** ** The laws *)
Lemma keeps_tail w w' t ts : keeps_pages w w' (t :: ts) →
  (∀ q, 0 ≤ q < num_pages (memory_pool w) → (tr_dir t = true → q ≠ tr_frame t) → ¬ fills ts q → frame_page w' q = frame_page w q) ∧
  (∀ u, 0 ≤ u < N → (tr_dir t = false → u ≠ tr_page t) → ¬ stores ts u → block_page w' u = block_page w u).
Proof.
  intros [Hk1 Hk2]. split; intros k Hk Hne Hno; [apply Hk1|apply Hk2]; try done.
  - intros (v & e & [E|Hin]%elem_of_cons); [subst t; by apply Hne|]. apply Hno. by exists v, e.
  - intros (p & e & [E|Hin]%elem_of_cons); [subst t; by apply Hne|]. apply Hno. by exists p, e.
Qed.

Lemma evict_io_law w ts v p (d : bool) (e : ioctx) (ext : ()) :
  (e = default_context ∧ io_ok w ts ∧ (∀ q, 0 ≤ q < num_pages (memory_pool w) → q ∈ loaded_frames w)) ∨ io_ok w (TEvict v p d e :: ts) →
  0 ≤ v < N → 0 ≤ p < num_pages (memory_pool w) → v ∉ (tr_page <$> ts) → p ∉ (tr_frame <$> ts) →
  ∃ w' e' ext' (b : bool), evict_func w e v p d ext = Ok (w', e', ext', b) ∧
    io_ok w' (if b then ts else TEvict v p d e' :: ts) ∧
    loaded_frames w' = loaded_frames w ∧ N = N ∧ num_pages (memory_pool w') = num_pages (memory_pool w) ∧
    (∀ q, 0 ≤ q < num_pages (memory_pool w) → ¬ fills ts q → frame_page w' q = frame_page w q) ∧
    (∀ u, 0 ≤ u < N → u ≠ v → ¬ stores ts u → block_page w' u = block_page w u) ∧
    (d = false → block_page w' v = block_page w v) ∧ (d = true → b = true → block_page w' v = frame_page w p).
Proof.
  intros Hor Hv Hp Hnv Hnp. unfold evict_func. destruct d.
  - cbn [negb]. destruct Hor as [(-> & Hok & Hall)|Hok].
    + change io_write with (op_of false). rewrite (transfer_first (op_of false) w v p). eexists w, idle_ctx, ext, false. split; [done|].
      split; [|done]. by apply add_step.
    + destruct (transfer_step w _ ts Hok) as (w' & e' & b & Hr & Hok' & Hm & Hk & Hdone). simpl in Hr, Hok'. rewrite (bind_rew _ _ _ Hr).
      exists w', e', ext, b. split; [done|]. split; [done|]. unfold loaded_frames. rewrite Hm.
      destruct (keeps_tail _ _ _ _ Hk) as [Hk1 Hk2]. do 3 (split; [done|]).
      split; [intros q Hq Hno; by apply Hk1|]. split; [intros u Hu Hne Hno; by apply Hk2|]. split; [done|].
      intros _ Hb. destruct (Hdone Hb) as [-> Hd]. by symmetry.
  - exists w, e, ext, true. split; [done|]. split; [|done]. destruct Hor as [(_ & Hok & _)|Hok]; [done|].
    exfalso. destruct (ok_touch _ _ Hok (TEvict v p false e)) as [? _]; [set_solver|done].
Qed.

Lemma load_io_law w ts v p (e : ioctx) (ext : ()) :
  (e = default_context ∧ io_ok w ts) ∨ io_ok w (TLoad v p e :: ts) →
  0 ≤ v < N → 0 ≤ p < num_pages (memory_pool w) → v ∉ (tr_page <$> ts) → p ∉ (tr_frame <$> ts) →
  ∃ w' e' ext' (b : bool), load_func w e v p ext = Ok (w', e', ext', b) ∧
    io_ok w' (if b then ts else TLoad v p e' :: ts) ∧
    loaded_frames w' = {[p]} ∪ loaded_frames w ∧ N = N ∧ num_pages (memory_pool w') = num_pages (memory_pool w) ∧
    (∀ q, 0 ≤ q < num_pages (memory_pool w) → q ≠ p → ¬ fills ts q → frame_page w' q = frame_page w q) ∧
    (∀ u, 0 ≤ u < N → ¬ stores ts u → block_page w' u = block_page w u) ∧
    (b = true → frame_page w' p = block_page w v).
Proof.
  intros Hor Hv Hp Hnv Hnp. unfold load_func.
  assert (Hcase : ∃ ts0, io_ok w ts0 ∧ ((e = default_context ∧ ts0 = ts) ∨ (p ∈ loaded_frames w ∧ ts0 = TLoad v p e :: ts))).
  { destruct Hor as [(-> & Hok)|Hok]; eexists; (split; [exact Hok|]); [by left|right]. split; [|done]. apply (ok_touch _ _ Hok (TLoad v p e)). set_solver. }
  destruct Hcase as (ts0 & Hok & Hcase). destruct (touch_step w ts0 p Hok Hp) as (m & Hl & Hok1 & Hlf & En & Eb).
  rewrite (bind_rew _ _ _ Hl). cbv beta iota zeta in Hok1, Hlf |- *. set (w1 := mk_io (io w) m (next_flag w) (num_miss w)) in *.
  assert (Hf1 : ∀ q, frame_page w1 q = frame_page w q) by (intros q; unfold frame_page, frame_addr; cbn [memory_pool w1]; by rewrite Eb).
  case_bool_decide as Hin; cbn [negb].
  - destruct Hcase as [[-> ->]|[_ ->]].
    + change io_read with (op_of true). rewrite (transfer_first (op_of true) w1 v p). cbn [mbind result_bind].
      exists w1, idle_ctx, ext, false. split; [done|]. split; [|done]. apply add_step; try done; [change (0 ≤ p < num_pages m); by rewrite En|].
      change (p ∈ loaded_frames w1). rewrite Hlf. set_solver.
    + destruct (transfer_step w1 _ ts Hok1) as (w' & e' & b & Hr & Hok' & Hm & Hk & Hdone). simpl in Hr, Hok'. rewrite (bind_rew _ _ _ Hr).
      cbv beta iota zeta. set (w2 := if b then count_miss w' else w').
      assert (Hsame : io w2 = io w' ∧ memory_pool w2 = memory_pool w' ∧ next_flag w2 = next_flag w') by (unfold w2; by destruct b).
      destruct Hsame as (E1 & E2 & E3). exists w2, e', ext, b. split; [done|].
      assert (Hl2 : loaded_frames w2 = {[p]} ∪ loaded_frames w) by (unfold loaded_frames at 1; rewrite E2, Hm; exact Hlf).
      assert (Hf2 : ∀ q, frame_page w2 q = frame_page w' q) by (intros q; unfold frame_page, frame_addr; by rewrite E1, E2).
      assert (Hb2 : ∀ u, block_page w2 u = block_page w' u) by (intros u; unfold block_page, block_addr; by rewrite E1).
      split; [|split; [done|split; [done|split; [by rewrite E2, Hm|]]]].
      { apply (io_ok_mono w'); try done; rewrite ?E2; try done; [apply (ok_pool _ _ Hok')|]. unfold loaded_frames. by rewrite E2. }
      destruct (keeps_tail _ _ _ _ Hk) as [Hk1 Hk2]. cbn [memory_pool w1] in Hk1. rewrite En in Hk1.
      split; [intros q Hq Hne Hno; rewrite Hf2, Hk1, Hf1; [done|done|done|done]|].
      split; [intros u Hu Hno; rewrite Hb2, Hk2; [done|done|done|done]|].
      intros Hb. destruct (Hdone Hb) as [-> Hd]. rewrite Hf2. exact Hd.
  - destruct Hcase as [[-> ->]|[? _]]; [|done]. exists w1, default_context, ext, true. split; [done|]. split; [done|]. split; [done|].
    split; [done|]. split; [done|]. split; [intros q _ _ _; apply Hf1|]. split; [done|]. intros _. rewrite Hf1.
    destruct (ok_zero _ _ Hok p Hp Hin) as [Hz1 Hz2]. by rewrite Hz1, Hz2.
Qed.

Lemma store_io_law w ts p d w' : frame_store w p d w' → io_ok w ts → 0 ≤ p < num_pages (memory_pool w) → p ∈ loaded_frames w →
  p ∉ (tr_frame <$> ts) →
  io_ok w' ts ∧ loaded_frames w' = loaded_frames w ∧ N = N ∧ num_pages (memory_pool w') = num_pages (memory_pool w) ∧
  frame_page w' p = d ∧ (∀ q, 0 ≤ q < num_pages (memory_pool w) → q ≠ p → frame_page w' q = frame_page w q) ∧
  (∀ u, 0 ≤ u < N → block_page w' u = block_page w u).
Proof.
  intros Hst Hok Hp Htch Hnf. destruct (store_step w ts p d w' Hst Hok Hp Htch Hnf) as (Hok' & Hd & Hf & Hb).
  split; [done|]. destruct Hst as [_ ->]. done.
Qed.

#[global] Instance memcopy_contract : IoContract (list Z) default_context evict_func load_func := {
  frame_of := frame_page;
  disk_of := block_page;
  io_pages _ := N;
  io_frames w := num_pages (memory_pool w);
  touched := loaded_frames;
  io_inv := io_ok;
  io_perm := io_ok_perm;
  frame_write := frame_store;
  frame_write_law := store_io_law;
  evict_law := evict_io_law;
  load_law := load_io_law;
}.
End contract.
