(* ===== verification/SharedCacheSpec.v ===== *)
(** * The shared cache: a partition over its I/O functions

    The partition [create_context] builds, with the [MemCopy] backend, refines a
    flat memory of pages: the theorems of [SharedServerSystem.v] hold of it, and
    its runs witness them. *)
From S2P Require Import Prelude Util Replacement PteHeader CompactHashPageTable SharedSingleThreadCache MemoryPool IoBackend IoBackendSpec SharedCache SharedServer SharedServerData SharedServerSpec SharedServerUse SharedServerCall SharedServerSystem SharedCacheIo.
From stdpp Require Import gmap list.

Open Scope Z_scope.

Abbreviation part_state := (@server_state Clock.t wld IOContext () (list Z)).

Section partition.
(** The blocks and frames of the partition, the address of the blocks, that of
    the mapping of the frames, and the memory of the process. *)
Context (N n mempool : Z) (mmap_alloc : Z → Z) (m : memory).

Definition mmap_at : Z := mmap_alloc (w64 (n * PS + PS)).
Definition fresh_io : wld := mk_io (MemCopy.init mempool m) (MemoryPool.create mmap_alloc n None) 1 0.

(** The mapping and the blocks lie in the address space, apart, and are zeroed. *)
Record fresh_ok : Prop := {
  fr_blocks : 0 ≤ N ≤ NUM_PACK_PAGES * EMPTY_TAG;
  fr_frames : 0 < n ≤ 2 ^ 31;
  fr_mmap : 0 ≤ mmap_at ∧ mmap_at + n * PS + PS < 2 ^ 64;
  fr_apart : mempool + N * PS ≤ mmap_at ∨ mmap_at + n * PS + PS ≤ mempool;
  fr_zero a : (mempool ≤ a < mempool + N * PS ∨ mmap_at ≤ a < mmap_at + n * PS + PS) → m a = 0;
}.

Lemma zero_page_at a : (∀ o, 0 ≤ o < PS → m (a + o) = 0) → page_at m a = zero_page.
Proof.
  intros Hz. apply list_eq. intros i. unfold page_at, zero_page. rewrite list_lookup_fmap.
  destruct (decide (i < Z.to_nat PS)%nat) as [Hi|Hi].
  - rewrite lookup_seqZ_lt by lia. rewrite lookup_replicate_2 by done. simpl. f_equal. apply Hz. lia.
  - rewrite lookup_seqZ_ge by lia. symmetry. apply lookup_ge_None. rewrite length_replicate. lia.
Qed.

Lemma fresh_io_ok : fresh_ok → io_ok N fresh_io [].
Proof.
  intros [HN Hn Hmm Hap Hz]. destruct (create_pool_inv mmap_alloc n) as (Hpi & Hb1 & Hb2); [lia|apply Hmm|apply Hmm|].
  fold mmap_at in Hb1, Hb2. pose proof (init_quiescent mempool m) as Hq. pose proof ps_pos as Hps.
  set (pool := MemoryPool.create mmap_alloc n None) in *.
  split; cbn [io memory_pool fresh_io]; try done.
  - apply Hq.
  - split; [lia|]. change (num_pages pool) with n. cbn [MemCopy.mempool MemCopy.init]. fold pool. change (num_pages pool) with n. destruct Hap; [left|right]; lia.
  - constructor.
  - constructor.
  - intros t Ht. set_solver.
  - intros t Ht. set_solver.
  - intros t Ht. set_solver.
  - intros t t' f Ht. set_solver.
  - intros dir c. unfold pending_in. cbn [io fresh_io]. rewrite quiescent_pending by done. set_solver.
  - unfold pending_in. cbn [io fresh_io]. rewrite !quiescent_pending by done. constructor.
  - intros q Hq' _. change (0 ≤ q < n) in Hq'. split; [|intros v Hv]; apply zero_page_at; intros o Ho; apply Hz.
    + right. unfold frame_addr. cbn [memory_pool fresh_io]. fold pool. assert (0 ≤ q * PS ∧ q * PS + PS ≤ n * PS) by nia. lia.
    + left. unfold block_addr. cbn [io fresh_io MemCopy.mempool MemCopy.init]. assert (0 ≤ v * PS ∧ v * PS + PS ≤ N * PS) by nia. lia.
Qed.

Definition fresh_memory : Z → list Z := λ _, zero_page.
Definition fresh_partition : part_state :=
  mk_server (create_context (MemCopy.init mempool m) None mmap_alloc N n) fresh_memory (λ _, 0) ∅ [] [] None.

Abbreviation part_ok := (server_ok default_context evict_func load_func (R:=Clock.t) (IoContract0:=memcopy_contract N)).
Abbreviation part_reachable := (reachable default_context tt evict_func load_func (R:=Clock.t) (IoContract0:=memcopy_contract N) False fresh_partition).

Lemma fresh_partition_ok : fresh_ok → part_ok fresh_partition.
Proof.
  intros Hf. pose proof (fresh_io_ok Hf) as Hio. destruct Hf as [HN Hn Hmm Hap Hz].
  apply (server_init_ok default_context tt evict_func load_func (IoContract0:=memcopy_contract N)); try done.
  intros v Hv. apply zero_page_at. intros o Ho. apply Hz. left. unfold block_addr. cbn [io fresh_io MemCopy.mempool MemCopy.init].
  pose proof ps_pos. assert (0 ≤ v * PS ∧ v * PS + PS ≤ N * PS) by nia. lia.
Qed.

(** C2: a partition over the [MemCopy] backend refines a flat memory of zeroed
    pages: in every state its users and its polls lead to, with the clients acting
    between the accesses of a call too, a pinned page is mapped to a frame with
    what was last written to the page, and a page that is not in memory has it in
    its block; but for runs in which a page is locked for eviction whose dirty
    flag was set after the server has read it ([outdated_flag_loses_store]). *)
Theorem partition_refines_memory σ : fresh_ok → part_reachable σ →
  (∀ v k, sv_held σ !! v = Some k → ∃ p d,
     get_pte (page_table (sv_cache σ)) v None = Ok (mk_pte true false d k p) ∧ frame_page (world (sv_sys σ)) p = sv_mem σ v) ∧
  (∀ v, okp (sv_cache σ) v → p_exist (sv_entry σ v) = false → p_busy (sv_entry σ v) = false →
     block_page (world (sv_sys σ)) v = sv_mem σ v).
Proof.
  intros Hf Hre. assert (Hok : part_ok σ) by (eapply reachable_ok; [by apply fresh_partition_ok|exact Hre]). split.
  - intros v k Hh. destruct (held_frame default_context evict_func load_func (IoContract0:=memcopy_contract N) σ v k Hok Hh) as (p & d & ? & ? & _).
    by exists p, d.
  - intros v. apply (evicted_disk default_context evict_func load_func (IoContract0:=memcopy_contract N) σ v Hok).
Qed.
End partition.

(** ** Runs

    An interpreter of the steps: a step that is not allowed changes nothing. *)
Inductive action :=
  | DoPin (v : Z) | DoResume | DoUnpin (v : Z) (is_write : bool) | DoClientPin (v : Z) | DoClientUnpin (v : Z) (is_write : bool)
  | DoNotify | DoWriter (v : Z) | DoWrite (v : Z) (d : list Z) | DoBegin (v : Z) | DoSearch | DoRead | DoLock.

Definition store_world (w : wld) (p : Z) (d : list Z) : wld :=
  with_io w (MemCopy.mk (MemCopy.mempool (io w)) (MemCopy.read_lane (io w)) (MemCopy.write_lane (io w))
               (MemCopy.preparing (io w)) (poke (MemCopy.mem (io w)) (frame_addr w p) d) (MemCopy.flags (io w))).

#[global] Instance may_pin_dec (σ : part_state) v : Decision (may_pin σ v).
Proof. unfold may_pin, okp. apply _. Defined.
#[global] Instance may_unpin_dec (σ : part_state) v b : Decision (may_unpin σ v b).
Proof. unfold may_unpin. apply _. Defined.
#[global] Instance request_kind_dec : EqDecision request_kind.
Proof. solve_decision. Defined.

Abbreviation part_fuel := (process_fuel default_context tt evict_func load_func (R:=Clock.t)).

Definition do_begin (σ : part_state) (x : request_context) : part_state :=
  match sv_call σ with
  | None =>
      if decide (0 ≤ c_vpage_id x < max_vpage_id (sv_cache σ)) then
        match begin_turn (sv_sys σ) x with Ok (s', x', b) => goes_on σ s' (if b then Some (InCall x') else None) | Err _ => σ end
      else σ
  | Some _ => σ
  end.

Definition do_finish (σ : part_state) : part_state :=
  match sv_call σ with
  | Some (InCall x) =>
      match c_type x with
      | KPin =>
          if decide (may_pin σ (c_vpage_id x)) then
            match part_fuel 4 (sv_sys σ) x with Ok (s', x') => pin_result σ s' x' (c_vpage_id x) (sv_waiting σ) [] | Err _ => σ end
          else σ
      | KUnPin =>
          if decide (may_unpin σ (c_vpage_id x) (c_is_write x)) then
            match part_fuel 4 (sv_sys σ) x with Ok (s', x') => unpin_result σ s' (c_vpage_id x) (c_is_write x) (sv_notes σ) None | Err _ => σ end
          else σ
      end
  | _ => σ
  end.

(** [stale] allows the lock of a page whose flag was set since it was read. *)
Definition do_lock (stale : bool) (σ : part_state) : part_state :=
  match sv_call σ with
  | Some (Reading x k) =>
      match lock_victim (sv_cache σ) k with
      | Ok (c', None) => goes_on σ (with_cache σ c') (Some (Searching x))
      | Ok (c', Some vic) =>
          if decide (flag_current (sv_cache σ) k ∨ stale = true) then
            match evict_victim default_context evict_func (with_cache σ c') x vic with
            | Ok (s1, x1, b) =>
                match (if (b : bool) then part_fuel 3 s1 x1 else Ok (s1, x1)) with
                | Ok (s', x') => pin_result σ s' x' (c_vpage_id x) (sv_waiting σ) []
                | Err _ => σ
                end
            | Err _ => σ
            end
          else σ
      | Err _ => σ
      end
  | _ => σ
  end.

Definition do_action (stale : bool) (σ : part_state) (a : action) : part_state :=
  match a with
  | DoPin v => do_finish (do_begin σ (pin_context no_context v))
  | DoUnpin v b => do_finish (do_begin σ (unpin_context no_context v b))
  | DoBegin v => do_begin σ (pin_context no_context v)
  | DoSearch =>
      match sv_call σ with
      | Some (InCall x) =>
          if decide (c_type x = KPin ∧ p_exist (c_pte x) = false ∧ full_pin (sv_cache σ) = false ∧ full (sv_cache σ) = true) then
            goes_on σ (with_cache σ (with_pinned_size (sv_cache σ) (pinned_size (sv_cache σ) + 1))) (Some (Searching x))
          else σ
      | _ => σ
      end
  | DoRead =>
      match sv_call σ with
      | Some (Searching x) =>
          match read_victim (sv_cache σ) with
          | Ok (c', o) => goes_on σ (with_cache σ c') (Some (match o with Some k => Reading x k | None => Searching x end))
          | Err _ => σ
          end
      | _ => σ
      end
  | DoLock => do_lock stale σ
  | DoResume =>
      match sv_call σ, sv_waiting σ with
      | None, x :: ws => match part_process (sv_sys σ) x with Ok (s', x') => pin_result σ s' x' (c_vpage_id x) [] ws | Err _ => σ end
      | _, _ => σ
      end
  | DoClientPin v =>
      if decide (may_pin σ v) then
        match CompactHashPageTable.pin (page_table (sv_cache σ)) v None with
        | Ok (t, (success, p, n)) =>
            mk_server (with_client_table σ t) (sv_mem σ) (sv_writers σ) (if (success : bool) then add_pin (sv_held σ) v else sv_held σ)
              (if success && (n =? 0) then NPin v :: sv_notes σ else sv_notes σ) (sv_waiting σ) (sv_call σ)
        | Err _ => σ
        end
      else σ
  | DoClientUnpin v b =>
      if decide (may_unpin σ v b) then
        match CompactHashPageTable.unpin (page_table (sv_cache σ)) v b None with
        | Ok (t, n) => unpin_result σ (with_client_table σ t) v b (if n =? 1 then NUnpin v :: sv_notes σ else sv_notes σ) (sv_call σ)
        | Err _ => σ
        end
      else σ
  | DoNotify =>
      match sv_call σ, sv_notes σ with
      | None, n :: ns =>
          match deliver (sv_cache σ) n with
          | Ok c' => mk_server (with_cache σ c') (sv_mem σ) (sv_writers σ) (sv_held σ) ns (sv_waiting σ) None
          | Err _ => σ
          end
      | _, _ => σ
      end
  | DoWriter v =>
      if decide (sv_writers σ v < held_of (sv_held σ) v) then
        mk_server (sv_sys σ) (sv_mem σ) (λ u, if decide (u = v) then sv_writers σ u + 1 else sv_writers σ u) (sv_held σ) (sv_notes σ) (sv_waiting σ) (sv_call σ)
      else σ
  | DoWrite v d =>
      if decide (0 < sv_writers σ v ∧ zlen d = PS) then
        mk_server (mk_sys (store_world (world (sv_sys σ)) (p_ppage_id (sv_entry σ v)) d) (sv_cache σ)) (store (sv_mem σ) v d)
          (sv_writers σ) (sv_held σ) (sv_notes σ) (sv_waiting σ) (sv_call σ)
      else σ
  end.

Definition run_actions (stale : bool) (σ : part_state) (l : list action) : part_state := foldl (do_action stale) σ l.

Section runs.
Context (N : Z) (stale : bool).
Abbreviation part_step := (SharedServerSystem.step default_context tt evict_func load_func (R:=Clock.t) (IoContract0:=memcopy_contract N)).

(** What the steps keep that allow no one to write to [v], and the other steps
    too if [writers]. *)
Context (P : part_state → Prop) (v : Z) (writers : Prop).
Hypothesis P_step : ∀ σ σ', P σ → part_step (stale = true) σ σ' → writers ∨ sv_writers σ' v ≤ sv_writers σ v → P σ'.

Lemma unpin_writers wc u (b : bool) : unpin_wc wc u b v ≤ wc v.
Proof. unfold unpin_wc. case_decide; [destruct b; simpl; lia|done]. Qed.

Lemma do_begin_keeps σ x kd : starts x kd (c_vpage_id x) → P σ → P (do_begin σ x).
Proof.
  intros Hst Hr. unfold do_begin. destruct (sv_call σ) eqn:Ec; [done|]. case_decide as Hv; [|done].
  destruct (begin_turn (sv_sys σ) x) as [[[s' x'] b]|] eqn:E; [|done]. eapply P_step; [exact Hr| |by right]. by eapply step_begin.
Qed.

Lemma do_finish_keeps σ : P σ → P (do_finish σ).
Proof.
  intros Hr. unfold do_finish. destruct (sv_call σ) as [[x|x|x k]|] eqn:Ec; try done. destruct (c_type x) eqn:Et.
  - case_decide; [|done]. destruct (part_fuel 4 (sv_sys σ) x) as [[s' x']|] eqn:E; [|done]. eapply P_step; [exact Hr| |by right]. by eapply step_pin.
  - case_decide; [|done]. destruct (part_fuel 4 (sv_sys σ) x) as [[s' x']|] eqn:E; [|done]. eapply P_step; [exact Hr| |right; apply unpin_writers]. by eapply step_unpin.
Qed.

Lemma do_lock_keeps σ : P σ → P (do_lock stale σ).
Proof.
  intros Hr. unfold do_lock. destruct (sv_call σ) as [[x|x|x k]|] eqn:Ec; try done.
  destruct (lock_victim (sv_cache σ) k) as [[c' [vic|]]|] eqn:El; [| |done]; [|eapply P_step; [exact Hr| |by right]; by eapply step_skip].
  case_decide as Hf; [|done]. destruct (evict_victim _ _ _ _ _) as [[[s1 x1] b]|] eqn:Ee; [|done].
  destruct (if b then _ else _) as [[s' x']|] eqn:Er; [|done]. eapply P_step; [exact Hr| |by right]. by eapply step_lock.
Qed.

Definition quiet (a : action) : Prop := match a with DoWriter _ => writers | _ => True end.

Lemma do_action_keeps σ a : quiet a → P σ → P (do_action stale σ a).
Proof.
  intros Ha Hr. destruct a as [u| |u b|u|u b| |u|u d|u| | |]; cbn [do_action quiet] in *.
  - by apply do_finish_keeps, (do_begin_keeps _ _ KPin).
  - destruct (sv_call σ) eqn:Ec; [done|]. destruct (sv_waiting σ) as [|x ws] eqn:Ew; [done|]. destruct (part_process _ _) as [[s' x']|] eqn:E; [|done].
    eapply P_step; [exact Hr| |by right]. by apply step_resume with (x := x) (ws := []).
  - by apply do_finish_keeps, (do_begin_keeps _ _ KUnPin).
  - case_decide; [|done]. destruct (CompactHashPageTable.pin _ _ _) as [[t [[ok p] n]]|] eqn:E; [|done].
    eapply P_step; [exact Hr| |by right]. by apply step_client_pin with (p := p).
  - case_decide; [|done]. destruct (CompactHashPageTable.unpin _ _ _ _) as [[t n]|] eqn:E; [|done].
    eapply P_step; [exact Hr| |right; apply unpin_writers]. by apply step_client_unpin.
  - destruct (sv_call σ) eqn:Ec; [done|]. destruct (sv_notes σ) as [|n ns] eqn:En; [done|]. destruct (deliver _ _) as [c'|] eqn:E; [|done].
    eapply P_step; [exact Hr| |by right]. apply step_notify with (n := n); [done|by rewrite En|done].
  - case_decide; [|done]. eapply P_step; [exact Hr| |by left]. by apply step_writer.
  - case_decide as Hd; [|done]. destruct Hd as [Hw Hl]. eapply P_step; [exact Hr| |by right]. by apply step_write.
  - by apply (do_begin_keeps _ _ KPin).
  - destruct (sv_call σ) as [[x|x|x k]|] eqn:Ec; try done. case_decide as Hd; [|done]. destruct Hd as (H1 & H2 & H3 & H4).
    eapply P_step; [exact Hr| |by right]. by apply step_search.
  - destruct (sv_call σ) as [[x|x|x k]|] eqn:Ec; try done. destruct (read_victim _) as [[c' o]|] eqn:E; [|done].
    eapply P_step; [exact Hr| |by right]. by apply step_read.
  - by apply do_lock_keeps.
Qed.

Lemma run_actions_keeps σ l : Forall quiet l → P σ → P (run_actions stale σ l).
Proof. intros Hl. revert σ. induction Hl as [|a l Ha _ IH]; intros σ Hr; [done|]. apply IH. by apply do_action_keeps. Qed.
End runs.


Section runs.
Context (N : Z) (σ0 : part_state).
Abbreviation reach := (reachable default_context tt evict_func load_func (R:=Clock.t) (IoContract0:=memcopy_contract N)).

Lemma run_actions_reach stale l : reach (stale = true) σ0 (run_actions stale σ0 l).
Proof.
  apply (run_actions_keeps N stale _ 0 True); [|by apply Forall_forall; intros []|constructor]. intros σ σ' Hr Hs _. by eapply reach_step.
Qed.

Lemma fresh_actions_reach l : reach False σ0 (run_actions false σ0 l).
Proof. eapply reachable_mono; [|apply run_actions_reach]. done. Qed.

Lemma run_actions_only_read v l : sv_writers σ0 v ≤ 0 → Forall (λ a, if a is DoWriter _ then False else True) l →
  only_read default_context tt evict_func load_func (IoContract0:=memcopy_contract N) v σ0 (run_actions false σ0 l).
Proof.
  intros Hwr Hl. apply (run_actions_keeps N false (λ σ, only_read default_context tt evict_func load_func (IoContract0:=memcopy_contract N) v σ0 σ ∧ sv_writers σ v ≤ 0) v False).
  - intros σ σ' [Hr Hw] Hs [[]|Hle]. split; [|lia]. eapply read_on; [exact Hr|exact Hw|]. by eapply (step_mono _ _ _ _ (false = true)).
  - eapply Forall_impl; [exact Hl|]. by intros [].
  - split; [constructor|done].
Qed.
End runs.

(** The lock of a page whose flag may be out of date. *)
Lemma do_lock_inv (σ : part_state) x k : sv_call σ = Some (Reading x k) → sv_call (do_lock true σ) = None → ∃ c' vic s1 x1 (b : bool) s' x',
  lock_victim (sv_cache σ) k = Ok (c', Some vic) ∧ evict_victim default_context evict_func (with_cache σ c') x vic = Ok (s1, x1, b) ∧
  (if b then part_fuel 3 s1 x1 else Ok (s1, x1)) = Ok (s', x') ∧ do_lock true σ = pin_result σ s' x' (c_vpage_id x) (sv_waiting σ) [].
Proof.
  unfold do_lock. intros Hc Hn. rewrite Hc in Hn |- *. destruct (lock_victim (sv_cache σ) k) as [[c' [vic|]]|] eqn:El; [|done|congruence].
  rewrite decide_True in Hn |- * by (by right). destruct (evict_victim _ _ _ _ _) as [[[s1 x1] b]|] eqn:Ee; [|congruence].
  destruct (if b then _ else _) as [[s' x']|] eqn:Er; [|congruence]. by exists c', vic, s1, x1, b, s', x'.
Qed.

(** ** Witnesses

    Sixteen blocks and two frames.  Page 0 is pinned and written; after page 1
    the pin of page 2 evicts it and waits. *)
Definition sample : part_state := fresh_partition 16 2 (2 ^ 20) (λ _, 4096) (λ _, 0).
Definition page_of (z : Z) : list Z := replicate (Z.to_nat PS) z.

Definition run_write : list action := [DoPin 0; DoWriter 0; DoWrite 0 (page_of 123)].
Definition run_two : list action := run_write ++ [DoUnpin 0 true; DoPin 1].
Definition run_evict : list action := run_two ++ [DoPin 2].
Definition run_skip : list action := run_two ++ [DoUnpin 1 false; DoBegin 2; DoSearch; DoRead; DoClientPin 0; DoLock; DoRead; DoLock].

Lemma head_elem {A} (d : A) (l : list A) : length l ≠ 0%nat → default d (head l) ∈ l.
Proof. destruct l as [|x l]; [done|]. intros _. apply elem_of_cons. by left. Qed.

Lemma sample_fresh : fresh_ok 16 2 (2 ^ 20) (λ _, 4096) (λ _, 0).
Proof. split; [by vm_compute|by vm_compute|by vm_compute|right; by vm_compute|done]. Qed.

Lemma sample_ok : server_ok default_context evict_func load_func (IoContract0:=memcopy_contract 16) sample.
Proof. apply fresh_partition_ok, sample_fresh. Qed.

Lemma fresh_reach l : reachable default_context tt evict_func load_func (IoContract0:=memcopy_contract 16) False sample (run_actions false sample l).
Proof. apply fresh_actions_reach. Qed.

Lemma partition_refines_memory_witness : let σ := run_actions false sample run_write in ∃ p d,
  get_pte (page_table (sv_cache σ)) 0 None = Ok (mk_pte true false d 1 p) ∧ frame_page (world (sv_sys σ)) p = page_of 123.
Proof.
  intros σ. destruct (partition_refines_memory 16 2 (2 ^ 20) (λ _, 4096) (λ _, 0) σ sample_fresh (fresh_reach run_write)) as [Hpin _].
  destruct (Hpin 0 1) as (p & d & Hg & Hp); [by vm_compute|]. exists p, d. split; [exact Hg|]. rewrite Hp.
  vm_cast_no_check (eq_refl (page_of 123)).
Defined.

(** The server has read the entry of page 0 when a client pins it: the lock
    fails, and page 1 is evicted instead. *)
Lemma shared_pins_see_memory_witness : let σ := run_actions false sample run_skip in
  (∃ p d, get_pte (page_table (sv_cache σ)) 0 None = Ok (mk_pte true false d 1 p) ∧ length (sv_waiting σ) = 1%nat ∧
    Forall (λ x, c_ppage_id x ≠ p) (sv_waiting σ) ∧ frame_page (world (sv_sys σ)) p = page_of 123) ∧
  p_exist (sv_entry σ 1) = false ∧ block_page (world (sv_sys σ)) 1 = page_of 0.
Proof.
  intros σ. destruct (shared_pins_see_memory default_context tt evict_func load_func (IoContract0:=memcopy_contract 16) False sample σ sample_ok (fresh_reach run_skip)) as [Hpin Habs].
  split; [|split; [by vm_compute|]].
  - destruct (Hpin 0 1) as (p & d & Hg & Hw & Hm); [by vm_compute|]. exists p, d. split; [exact Hg|]. split; [by vm_compute|]. split; [exact Hw|].
    transitivity (sv_mem σ 0); [exact (Hm (λ H, H))|]. vm_cast_no_check (eq_refl (page_of 123)).
  - transitivity (sv_mem σ 1); [|vm_cast_no_check (eq_refl (page_of 0))].
    apply (Habs 1 (λ H, H)); [unfold okp; vm_compute; by split|by vm_compute|by vm_compute].
Defined.

Lemma shared_pin_answered_witness : let σ := run_actions false sample run_two in ∃ s' x',
  part_process (sv_sys σ) (pin_context no_context 2) = Ok (s', x').
Proof.
  intros σ. destruct (shared_pin_answered default_context tt evict_func load_func (IoContract0:=memcopy_contract 16) False sample σ (pin_context no_context 2) 2 sample_ok (fresh_reach run_two))
    as (s' & x' & Hr & _); [by vm_compute|done| | |by vm_compute|by exists s', x'].
  - split; [unfold okp; vm_compute; by split|by vm_compute].
  - left. left. by vm_compute.
Defined.

(** Pages 0 and 1 are in memory and clean.  The pin of page 2 has read the entry
    of page 0 when a client pins it, writes to it and unpins it. *)
Definition run_outdated : list action :=
  [DoPin 0; DoUnpin 0 false; DoPin 1; DoUnpin 1 false; DoBegin 2; DoSearch; DoRead; DoClientPin 0; DoWriter 0; DoWrite 0 (page_of 123); DoClientUnpin 0 true].
Definition run_reload : list action := [DoResume; DoResume; DoResume; DoUnpin 2 false; DoPin 0; DoResume; DoResume; DoResume].

(** The server is about to lock [v], whose flag it has read clean. *)
Definition reads_clean (v : Z) (σ : part_state) : bool :=
  match sv_call σ with Some (Reading _ k) => (k_page k =? v) && negb (p_dirty (k_pte k)) | _ => false end.

Lemma reads_clean_inv v σ : reads_clean v σ = true → ∃ x k, sv_call σ = Some (Reading x k) ∧ k_page k = v ∧ p_dirty (k_pte k) = false.
Proof. unfold reads_clean. destruct (sv_call σ) as [[x|x|x k]|]; try done. intros [?%Z.eqb_eq ?%negb_true_iff]%andb_prop. by exists x, k. Qed.

Lemma outdated_flag_loses_store_witness : let σ := run_actions false sample run_outdated in let τ := run_actions false (do_lock true σ) run_reload in
  sv_mem τ 0 = page_of 123 ∧ ∃ p d, get_pte (page_table (sv_cache τ)) 0 None = Ok (mk_pte true false d 1 p) ∧ frame_page (world (sv_sys τ)) p = page_of 0.
Proof.
  intros σ τ. destruct (reads_clean_inv 0 σ) as (x & k & Hc & Hk & Hd); [by vm_compute|].
  destruct (do_lock_inv σ x k Hc) as (c' & vic & s1 & x1 & b & s' & x' & Hl & Hev & Hrest & Hlock); [by vm_compute|].
  destruct (outdated_flag_loses_store default_context tt evict_func load_func (IoContract0:=memcopy_contract 16) sample σ x k c' vic s1 x1 b s' x' τ 1)
    as (Hm & p & d & Hg & Hf); [apply sample_ok|apply fresh_actions_reach|exact Hc|exact Hd|exact Hl|exact Hev|exact Hrest| |rewrite Hk; by vm_compute|].
  - rewrite <- Hlock, Hk. apply run_actions_only_read; [by vm_compute|by repeat constructor].
  - rewrite Hk in Hm, Hg, Hf. split.
    + rewrite Hm. vm_cast_no_check (eq_refl (page_of 123)).
    + exists p, d. split; [exact Hg|]. etransitivity; [exact Hf|]. vm_cast_no_check (eq_refl (page_of 0)).
Defined.
