(* ===== verification/PartitionPoll.v ===== *)
(** * Waiting requests end

    A request that waits for its transfer is polled until it is done.  The polls
    are counted here: over the [MemCopy] backend a request is done at its sixth
    poll at the latest, whatever the other users of the partition do between the
    polls. *)
From S2P Require Import Prelude Replacement PteHeader CompactHashPageTable SharedSingleThreadCache MemoryPool IoBackend IoBackendSpec PartitionType PartitionClient PartitionServer SharedCache SharedServer SharedServerData SharedServerSpec SharedServerUse SharedServerSystem SharedCacheIo SharedCacheSpec.
From stdpp Require Import gmap list.

Open Scope Z_scope.

(** ** What [process] does to the world of the I/O functions *)
Section world.
Context {R : Type} `{ReplacementSpec R} {W EC ES : Type} (ec0 : EC) (es0 : ES).
Context (evict_func : W → EC → Z → Z → bool → ES → result (W * EC * ES * bool)).
Context (load_func : W → EC → Z → Z → ES → result (W * EC * ES * bool)).
Implicit Types (s : sys R W ES) (x : SharedSingleThreadCache.context EC ES).

Abbreviation process := (process ec0 es0 evict_func load_func).
Abbreviation process_fuel := (process_fuel ec0 es0 evict_func load_func).

Lemma call_evict_inv s x s' x' : call_evict evict_func s x = Ok (s', x') → ∃ ext ext' b,
  evict_func (world s) (c_external_context x) (c_pre_vpage_id x) (c_ppage_id x) (c_dirty x) ext =
    Ok (world s', c_external_context x', ext', b) ∧
  c_processing x' = negb b ∧ c_phase x' = c_phase x ∧ c_vpage_id x' = c_vpage_id x ∧ c_ppage_id x' = c_ppage_id x.
Proof.
  unfold call_evict. destruct (c_pre_external_state x) as [ext|]; [|done]. intros ([[[w e] ext'] b] & E & [= <- <-])%bind_Ok.
  by exists ext, ext', b.
Qed.

Lemma call_load_inv s x s' x' : call_load load_func s x = Ok (s', x') → ∃ ext ext' b,
  load_func (world s) (c_external_context x) (c_vpage_id x) (c_ppage_id x) ext =
    Ok (world s', c_external_context x', ext', b) ∧
  c_processing x' = negb b ∧ c_phase x' = c_phase x.
Proof.
  unfold call_load. destruct (c_external_state x) as [p|]; [|done]. intros (st & _ & Hr)%bind_Ok.
  apply bind_Ok in Hr as ([[[w e] ext'] b] & E & Hr). apply bind_Ok in Hr as (sts & _ & [= <- <-]). by exists (s_external st), ext', b.
Qed.

(** The load function was called, with the outcome [b]; [e] is its context. *)
Definition load_answer x' (e : EC) (b : bool) : Prop :=
  c_phase x' = (if b then End_ else Loading) ∧ (b = false → c_external_context x' = e).

(** A poll of a waiting request calls the function it waits for, for the page and
    the frame of the request; when the eviction is done it calls the load
    function too, for the first time. *)
Inductive polled s x s' x' : Prop :=
  | poll_evict ext ext' : c_phase x = Evicting → c_phase x' = Evicting →
      evict_func (world s) (c_external_context x) (c_pre_vpage_id x) (c_ppage_id x) (c_dirty x) ext = Ok (world s', c_external_context x', ext', false) →
      polled s x s' x'
  | poll_load ext ext' e b : c_phase x = Loading → load_answer x' e b →
      load_func (world s) (c_external_context x) (c_vpage_id x) (c_ppage_id x) ext = Ok (world s', e, ext', b) → polled s x s' x'
  | poll_next w e0 ext0 ext0' ext ext' e b : c_phase x = Evicting → load_answer x' e b →
      evict_func (world s) (c_external_context x) (c_pre_vpage_id x) (c_ppage_id x) (c_dirty x) ext0 = Ok (w, e0, ext0', true) →
      load_func w ec0 (c_vpage_id x) (c_ppage_id x) ext = Ok (world s', e, ext', b) → polled s x s' x'.

Lemma loaded_ends n s x s' x' : c_phase x = Loading → c_processing x = false → process_fuel n s x = Ok (s', x') →
  c_phase x' = End_ ∧ world s' = world s.
Proof.
  intros Hph Hpr. destruct n as [|n]; [done|]. cbn [SharedSingleThreadCache.process_fuel]. unfold one_turn, loading_turn. rewrite Hph, Hpr.
  intros ([[s1 x1] b] & E & Hr)%bind_Ok. follow E; try done; subst; by injection Hr as <- <-.
Qed.

Lemma turn_inv n s x s' x' : process_fuel (S n) s x = Ok (s', x') → ∃ s1 x1 (b : bool),
  one_turn ec0 es0 evict_func load_func s x = Ok (s1, x1, b) ∧ if b then process_fuel n s1 x1 = Ok (s', x') else s' = s1 ∧ x' = x1.
Proof. intros ([[s1 x1] b] & E & Hr)%bind_Ok. exists s1, x1, b. split; [done|]. destruct b; [done|]. by injection Hr as <- <-. Qed.

(** The rest of a poll, when the load function has been called. *)
Lemma load_answered n s x s' x' (b : bool) : c_phase x = Loading → c_processing x = negb b →
  (if b then process_fuel n s x = Ok (s', x') else s' = s ∧ x' = x) → world s' = world s ∧ load_answer x' (c_external_context x) b.
Proof.
  intros Hph Hpr Hr. unfold load_answer. destruct b; [|by destruct Hr as [-> ->]]. by destruct (loaded_ends n s x s' x' Hph Hpr Hr) as [-> ->].
Qed.

Lemma evicting_poll n s x s' x' : c_phase x = Evicting → c_processing x = true → process_fuel (S (S n)) s x = Ok (s', x') → polled s x s' x'.
Proof.
  intros Hph Hpr (s1 & x1 & b & E & Hr)%turn_inv. unfold one_turn, evicting_turn in E. rewrite Hph, Hpr in E.
  apply bind_Ok in E as ([s2 x2] & E & [= <- <- <-]). apply call_evict_inv in E as (ext & ext' & b0 & E & Hp & Hph2 & Hv & Hpp). rewrite Hp in Hr.
  destruct b0; cbn [negb] in Hp, Hr; [|destruct Hr as [-> ->]; eapply poll_evict; [done|congruence|exact E]].
  apply turn_inv in Hr as (s3 & x3 & b3 & E3 & Hr). unfold one_turn, evicting_turn in E3. rewrite Hph2, Hph, Hp in E3.
  apply bind_Ok in E3 as (c1 & _ & E3). apply bind_Ok in E3 as (c2 & _ & E3).
  apply bind_Ok in E3 as (st & _ & E3). apply bind_Ok in E3 as (sts & _ & E3). apply bind_Ok in E3 as ([s4 x4] & E3 & [= <- <- <-]).
  apply call_load_inv in E3 as (ext3 & ext3' & b3 & E3 & Hp3 & Hph3). cbn in E3, Hph3. rewrite Hv, Hpp in E3. rewrite Hp3, negb_involutive in Hr.
  destruct (load_answered n s4 x4 s' x' b3) as [Ew Ha]; [done|done|by destruct b3|]. rewrite <- Ew in E3. by eapply poll_next.
Qed.

Lemma loading_poll n s x s' x' : c_phase x = Loading → c_processing x = true → process_fuel (S n) s x = Ok (s', x') → polled s x s' x'.
Proof.
  intros Hph Hpr (s1 & x1 & b & E & Hr)%turn_inv. unfold one_turn, loading_turn in E. rewrite Hph, Hpr in E.
  apply bind_Ok in E as ([s2 x2] & E & [= <- <- <-]). apply call_load_inv in E as (ext & ext' & b0 & E & Hp & Hph2). rewrite Hp, negb_involutive in Hr.
  destruct (load_answered n s2 x2 s' x' b0) as [Ew Ha]; [congruence|done|by destruct b0|]. rewrite <- Ew in E. by eapply poll_load.
Qed.

Lemma poll_step s x s' x' : is_waiting x = true → c_processing x = true → process s x = Ok (s', x') → polled s x s' x'.
Proof.
  intros Hw Hpr Hr. unfold is_waiting in Hw. destruct (c_phase x) eqn:Hph; try done.
  - by apply (evicting_poll 3).
  - by apply (loading_poll 4).
Qed.

(** A relation all calls of the I/O functions are in. *)
Context (Rel : W → W → Prop) `{!PreOrder Rel}.
Context (evict_rel : ∀ w e v p d ext w' e' ext' b, evict_func w e v p d ext = Ok (w', e', ext', b) → Rel w w').
Context (load_rel : ∀ w e v p ext w' e' ext' b, load_func w e v p ext = Ok (w', e', ext', b) → Rel w w').
#[local] Set Default Proof Using "Type*".

Lemma call_evict_rel s x s' x' : call_evict evict_func s x = Ok (s', x') → Rel (world s) (world s').
Proof. intros (ext & ext' & b & E & _)%call_evict_inv. by eapply evict_rel. Qed.

Lemma call_load_rel s x s' x' : call_load load_func s x = Ok (s', x') → Rel (world s) (world s').
Proof. intros (ext & ext' & b & E & _)%call_load_inv. by eapply load_rel. Qed.

Lemma one_turn_rel s x s' x' (b : bool) : one_turn ec0 es0 evict_func load_func s x = Ok (s', x', b) → Rel (world s) (world s').
Proof.
  unfold one_turn. destruct (c_phase x); [| | | |done].
  - unfold begin_turn. intros Hr. follow Hr; by subst.
  - unfold initing_turn. destruct (c_type x); [destruct (p_exist (c_pte x))|].
    + unfold pin_hit_turn. intros Hr. follow Hr; by subst.
    + unfold pin_miss_turn. cbv zeta. destruct (full_pin (the_cache s)); [intros Hr; follow Hr; by subst|]. destruct (full _).
      * intros ([c1 [[[[[p nxt] pre] ph] ext] d]] & _ & Hr)%bind_Ok. unfold evict_victim in Hr. apply bind_Ok in Hr as ([t ok] & _ & Hr).
        apply bind_Ok in Hr as (_ & _ & Hr). apply bind_Ok in Hr as ([s1 x1] & E1%call_evict_rel & [= <- <- <-]). exact E1.
      * intros Hr. follow Hr; by subst.
    + unfold unpin_turn. intros Hr. follow Hr; by subst.
  - unfold evicting_turn. destruct (c_processing x).
    + intros ([s1 x1] & E%call_evict_rel & [= <- <- <-])%bind_Ok. exact E.
    + intros (c1 & _ & Hr)%bind_Ok. apply bind_Ok in Hr as (c2 & _ & Hr). apply bind_Ok in Hr as (st & _ & Hr).
      apply bind_Ok in Hr as (sts & _ & Hr). apply bind_Ok in Hr as ([s1 x1] & E%call_load_rel & [= <- <- <-]). exact E.
  - unfold loading_turn. destruct (c_processing x).
    + intros ([s1 x1] & E%call_load_rel & [= <- <- <-])%bind_Ok. exact E.
    + intros Hr. follow Hr; by subst.
Qed.

Lemma process_fuel_rel n s x s' x' : process_fuel n s x = Ok (s', x') → Rel (world s) (world s').
Proof.
  revert s x. induction n as [|n IH]; intros s x Hr; [done|]. cbn [SharedSingleThreadCache.process_fuel] in Hr.
  apply bind_Ok in Hr as ([[s1 x1] b] & E%one_turn_rel & Hr). destruct b; [|by injection Hr as <- <-].
  etransitivity; [exact E|by eapply IH].
Qed.
End world.

(** ** A poll is answered *)
Section answered.
Context {R : Type} `{ReplacementSpec R} {W EC ES D : Type} (ec0 : EC) (es0 : ES).
Context (evict_func : W → EC → Z → Z → bool → ES → result (W * EC * ES * bool)).
Context (load_func : W → EC → Z → Z → ES → result (W * EC * ES * bool)).
Context `{!IoContract D ec0 evict_func load_func}.

Abbreviation ok := (server_ok ec0 evict_func load_func (R:=R)).
Abbreviation process := (process ec0 es0 evict_func load_func).

(** The request of the flight ends, with its page pinned once, or waits on. *)
Lemma resumed σ x : ok σ → sv_call σ = None → x ∈ sv_waiting σ → ∃ s' x', process (sv_sys σ) x = Ok (s', x') ∧ c_processing x = true ∧ is_waiting x = true ∧
  (is_waiting x' = true ∨ is_end x' = true ∧ frame_of (world s') (c_ppage_id x') = sv_mem σ (c_vpage_id x) ∧
    ent (the_cache s') (c_vpage_id x) = mk_pte true false (p_dirty (ent (the_cache s') (c_vpage_id x))) 1 (c_ppage_id x')).
Proof.
  intros Hok Hc Hx. destruct (ok_idle ec0 evict_func load_func σ Hc Hok) as (fl & Hinv & Hw & _).
  apply list_elem_of_split in Hx as (ws & ws' & Hws). rewrite Hws in Hw.
  apply Forall2_app_inv_l in Hw as (fl1 & fl2 & Hw1 & Hw2 & ->). apply Forall2_cons_inv_l in Hw2 as (f & fl3 & Hf & Hw3 & ->).
  assert (Hperm : fl1 ++ f :: fl3 ≡ₚ f :: fl1 ++ fl3) by (by rewrite Permutation_middle).
  pose proof (srv_inv_perm _ _ _ _ _ _ _ _ _ _ _ Hinv Hperm (reflexivity _)) as Hinv'.
  assert (Hmov : Forall f_moving (fl1 ++ fl3)) by (apply Forall_app; split; by eapply waiting_moving).
  destruct (resume_run ec0 es0 evict_func load_func _ _ _ _ _ _ _ _ Hinv' Hmov Hf) as (s' & x' & Hr & Hvp & Hpg & _).
  assert (Hvx : c_vpage_id x = f_page f) by (by destruct Hf as (_ & _ & ? & _)).
  exists s', x'. split; [exact Hr|]. split; [apply Hf|]. split; [by eapply waits_phase|]. rewrite Hvx, <- Hvp.
  destruct Hpg as [([Hi' _] & Hn & (Hph & Hres & Hpp & Hfm))|(g & _ & Hwg & _)]; [right|left; by eapply waits_phase].
  unfold is_end. rewrite Hph. split; [done|]. split; [exact Hfm|]. destruct (si_resident _ _ _ _ Hi' _ Hres) as (_ & _ & _ & _ & Hrc).
  unfold held_of in Hrc. rewrite lookup_insert_eq in Hrc. simpl in Hrc. destruct Hres as (_ & Hex & Hb). rewrite Hpp. unfold pp.
  destruct (ent (the_cache s') (c_vpage_id x')). simpl in *. by subst.
Qed.

(** C6: polling a request that waits, when the server is not in a call, returns,
    and it is progress: the function the request waits for is called, for its page
    and its frame, and a request that waits on has an answer of this call that the
    transfer is not done; when an eviction is done the load starts in the same
    poll.  A request that ends has its page mapped to its frame, with one pin, and
    the frame has the contents last written to the page, unless a page was locked
    for eviction whose dirty flag was set after the server had read it
    ([stale]). *)
Theorem shared_wait_answered (stale : Prop) σ0 σ x : ok σ0 → reachable ec0 es0 evict_func load_func stale σ0 σ → sv_call σ = None → x ∈ sv_waiting σ →
  ∃ s' x', process (sv_sys σ) x = Ok (s', x') ∧ polled ec0 evict_func load_func (sv_sys σ) x s' x' ∧
    (is_waiting x' = true ∨
     is_end x' = true ∧ (∃ d, ent (the_cache s') (c_vpage_id x) = mk_pte true false d 1 (c_ppage_id x')) ∧
       (¬ stale → frame_of (world s') (c_ppage_id x') = sv_mem σ (c_vpage_id x))).
Proof.
  intros Hok Hre Hc Hx. destruct (reachable_any ec0 es0 evict_func load_func stale _ _ Hok Hre) as (mem & Hany).
  destruct (resumed (with_mem σ mem) x Hany Hc Hx) as (s' & x' & Hr & Hpr & Hw & Hcase). exists s', x'. split; [exact Hr|].
  split; [by apply (poll_step ec0 es0)|]. destruct Hcase as [?|(He & _ & Hent)]; [by left|right]. split; [done|]. split; [by eexists|]. intros Hst.
  destruct (resumed σ x) as (s2 & x2 & Hr2 & _ & _ & Hcase); [eapply reachable_ok; [exact Hok|by eapply reachable_mono]|done..|].
  cbn [sv_sys with_mem] in Hr. rewrite Hr in Hr2. injection Hr2 as <- <-.
  destruct Hcase as [Hw'|(_ & ? & _)]; [|done]. unfold is_waiting, is_end in *. by destruct (c_phase x').
Qed.
End answered.

(** ** Flags are only raised *)
Definition flags_of (w : wld) : gset Z := MemCopy.flags (io w).
Definition flags_grow (w w' : wld) : Prop := flags_of w ⊆ flags_of w'.

#[global] Instance flags_grow_preorder : PreOrder flags_grow.
Proof. split; [intros w; unfold flags_grow; set_solver|intros w1 w2 w3; unfold flags_grow; set_solver]. Qed.

Lemma reap_flags n l m fl i l' m' fl' : MemCopy.reap l m fl i n = Ok (l', m', fl') → fl ⊆ fl'.
Proof.
  revert l m fl i. induction n as [|n IH]; intros l m fl i Hr; cbn [MemCopy.reap] in Hr; [by injection Hr as _ _ <-|].
  apply bind_Ok in Hr as (cb & _ & Hr). destruct (MemCopy.cb_running cb); [|by eapply IH].
  apply bind_Ok in Hr as (cbs & _ & Hr). apply IH in Hr. unfold raise in Hr. destruct (MemCopy.cb_finish cb); set_solver.
Qed.

Lemma progress_flags b b' r : MemCopy.progress b = Ok (b', r) → MemCopy.flags b ⊆ MemCopy.flags b'.
Proof.
  unfold MemCopy.progress. intros ([l1 l2] & _ & Hr)%bind_Ok. apply bind_Ok in Hr as ([[r1 m1] f1] & E1%reap_flags & Hr).
  apply bind_Ok in Hr as ([[r2 m2] f2] & E2%reap_flags & Hr). injection Hr as <- _. cbn. set_solver.
Qed.

Lemma op_flags dir b id data f b' r : op_of dir b id data f = Ok (b', r) → MemCopy.flags b ⊆ MemCopy.flags b'.
Proof.
  destruct dir; cbn; unfold MemCopy.read, MemCopy.write; intros ([[l i]|] & _ & Hr)%bind_Ok; try (by injection Hr as <- _).
  all: by apply bind_Ok in Hr as ([b1 r1] & E%progress_flags & [= <- _]).
Qed.

Lemma submit_flags dir n b id data f b' : submit (λ b, op_of dir b id data f) n b = Ok b' → MemCopy.flags b ⊆ MemCopy.flags b'.
Proof.
  revert b. induction n as [|n IH]; intros b Hr; cbn [submit] in Hr; apply bind_Ok in Hr as ([b1 ret] & E%op_flags & Hr);
    (destruct ret; [injection Hr as <-; done|]); [done|]. apply IH in Hr. set_solver.
Qed.

Lemma transfer_flags dir w e v p w' e' b : SharedCache.transfer (op_of dir) w e v p = Ok (w', e', b) → flags_grow w w'.
Proof.
  unfold SharedCache.transfer, flags_grow. destruct (first e); [by intros [= <- _ _]|]. destruct (processing e); cbn [negb].
  - destruct (is_finished w e); cbn [negb]; [by intros [= <- _ _]|].
    intros ([b1 r] & E%progress_flags & [= <- _ _])%bind_Ok. exact E.
  - intros ([w1 e1] & E & [= <- _ _])%bind_Ok. unfold start_io in E. apply bind_Ok in E as (data & _ & E).
    apply bind_Ok in E as (b1 & E1%submit_flags & [= <- _]). exact E1.
Qed.

Lemma evict_flags w e v p (d : bool) (ext : ()) w' e' ext' b : evict_func w e v p d ext = Ok (w', e', ext', b) → flags_grow w w'.
Proof.
  unfold evict_func. destruct d; cbn [negb]; [|by intros [= <- _ _ _]].
  intros ([[w1 e1] b1] & E%(transfer_flags false) & [= <- _ _ _])%bind_Ok. exact E.
Qed.

(** What the load function does before its transfer. *)
Lemma load_func_inv w e v p (ext : ()) w' e' ext' b : load_func w e v p ext = Ok (w', e', ext', b) →
  ∃ w1 w2, io w1 = io w ∧ io w2 = io w' ∧
    ((w2 = w1 ∧ b = true) ∨ SharedCache.transfer (op_of true) w1 e v p = Ok (w2, e', b)).
Proof.
  unfold load_func. intros ([m before] & _ & Hr)%bind_Ok. destruct before; cbn [negb] in Hr.
  - apply bind_Ok in Hr as ([[w2 e2] b2] & E & [= <- <- _ <-]). exists (mk_io (io w) m (next_flag w) (num_miss w)), w2. split; [done|]. split; [by destruct b2|]. by right.
  - injection Hr as <- _ _ <-. set (w1 := mk_io _ _ _ _). exists w1, w1. split; [done|]. split; [done|]. by left.
Qed.

Lemma load_flags w e v p (ext : ()) w' e' ext' b : load_func w e v p ext = Ok (w', e', ext', b) → flags_grow w w'.
Proof.
  intros (w1 & w2 & E1 & E2 & [[-> _]|Ht%(transfer_flags true)])%load_func_inv; unfold flags_grow, flags_of in *; congruence || by rewrite <- E1, <- E2.
Qed.

(** ** The polls that are left *)
Definition transfer_left (w : wld) (e : IOContext) : nat :=
  if first e then 4 else if negb (processing e) then 3 else if is_finished w e then 1 else 2.

Definition request_left (w : wld) (x : request_context) : nat :=
  match c_phase x with
  | Evicting => 3 + transfer_left w (c_external_context x)
  | Loading => transfer_left w (c_external_context x)
  | _ => 0
  end.

Lemma transfer_left_mono w w' e : flags_grow w w' → (transfer_left w' e ≤ transfer_left w e)%nat.
Proof.
  intros Hg. unfold transfer_left. destruct (first e); [done|]. destruct (processing e); [|done]. cbn [negb].
  unfold is_finished. destruct (finish e) as [f|]; [|done]. cbn [io_finished memcopy_backend].
  destruct (bool_decide (f ∈ MemCopy.flags (io w))) eqn:E; [|case_match; lia]. apply bool_decide_eq_true in E.
  rewrite bool_decide_true; [done|]. by apply Hg.
Qed.

Lemma request_left_mono w w' x : flags_grow w w' → (request_left w' x ≤ request_left w x)%nat.
Proof. intros Hg. unfold request_left. pose proof (transfer_left_mono w w' (c_external_context x) Hg). destruct (c_phase x); lia. Qed.

Section polls.
Context (N : Z).

(** A poll raises the flags of all transfers under way. *)
Lemma progress_raises w ts t f b' r : io_ok N w ts → t ∈ ts → finish (tr_ctx t) = Some f →
  MemCopy.progress (io w) = Ok (b', r) → f ∈ MemCopy.flags b'.
Proof.
  intros Hok Ht Ef Hr. destruct (progress_step N w ts Hok) as (b1 & Hr1 & Hok1 & Hq & _). rewrite Hr in Hr1. injection Hr1 as -> ->.
  destruct (ok_state _ _ _ Hok1 t Ht) as [_ Hs]. rewrite Ef in Hs. destruct Hs as (_ & _ & Hs). case_decide; [done|].
  unfold pending_in in Hs. cbn [io with_io] in Hs. rewrite (quiescent_pending _ _ Hq) in Hs. by apply elem_of_nil in Hs.
Qed.

Lemma transfer_less w ts t w1 v p w2 e' : io_ok N w ts → t ∈ ts → io w1 = io w →
  SharedCache.transfer (op_of (tr_dir t)) w1 (tr_ctx t) v p = Ok (w2, e', false) →
  (transfer_left w2 e' < transfer_left w (tr_ctx t))%nat.
Proof.
  intros Hok Ht Eio. destruct (ok_state _ _ _ Hok t Ht) as [Hfi Hs]. unfold SharedCache.transfer, transfer_left at 2. rewrite Hfi.
  destruct (finish (tr_ctx t)) as [f|] eqn:Ef.
  - destruct Hs as (Hpr & _ & _). rewrite Hpr. cbn [negb].
    assert (is_finished w1 (tr_ctx t) = is_finished w (tr_ctx t)) as -> by (unfold is_finished; by rewrite Ef, Eio).
    destruct (is_finished w (tr_ctx t)); cbn [negb]; [done|]. rewrite Eio. intros ([b1 r] & E & [= <- <-])%bind_Ok.
    apply (progress_raises w ts t f _ _ Hok Ht Ef) in E. unfold transfer_left. rewrite Hfi, Hpr. cbn [negb].
    unfold is_finished. rewrite Ef. cbn [io io_finished memcopy_backend]. rewrite bool_decide_true by done. lia.
  - rewrite Hs. cbn [negb]. intros ([w3 e3] & E & [= <- <-])%bind_Ok. unfold start_io in E. apply bind_Ok in E as (data & _ & E).
    apply bind_Ok in E as (b1 & _ & [= _ <-]). unfold transfer_left. cbn [first processing negb]. destruct (is_finished _ _); lia.
Qed.

(** A first call leaves no more than three. *)
Lemma first_load_left w v p (ext : ()) w' e' ext' : load_func w default_context v p ext = Ok (w', e', ext', false) →
  (transfer_left w' e' ≤ 3)%nat.
Proof. intros (w1 & w2 & _ & _ & [[_ ?]|[= _ <-]])%load_func_inv; [done|]. unfold transfer_left. cbn. done. Qed.

Abbreviation part_inv := (inv default_context evict_func load_func (R:=Clock.t) (IoContract0:=memcopy_contract N)).
Abbreviation part_ok := (server_ok default_context evict_func load_func (R:=Clock.t) (IoContract0:=memcopy_contract N)).
Abbreviation part_step := (SharedServerSystem.step default_context tt evict_func load_func (R:=Clock.t) (IoContract0:=memcopy_contract N)).
Implicit Types (σ τ : part_state) (x y : request_context).

(** The transfer of a request that waits. *)
Lemma waits_transfer mem wc s fl held notes x f : part_inv mem wc s fl held notes → f ∈ fl → waits (the_cache s) x f → ∃ ts t,
  io_ok N (world s) ts ∧ t ∈ ts ∧ tr_ctx t = c_external_context x ∧
  (c_phase x = Evicting ∧ tr_dir t = false ∨ c_phase x = Loading ∧ tr_dir t = true).
Proof.
  intros [_ Hd] Hf (_ & _ & _ & _ & _ & _ & Hw). exists (transfers fl). pose proof (sd_io _ _ _ _ _ _ _ _ _ Hd) as Hio.
  destruct f as [|v pre p d h ph tr|v p h tr]; [done| |].
  - destruct Hw as (Hph & _ & _ & _ & _ & ->). exists (TEvict pre p d (c_external_context x)). split; [done|]. split; [|split; [done|by left]].
    apply elem_of_transfers. by eexists.
  - destruct Hw as (Hph & _ & ->). exists (TLoad v p (c_external_context x)). split; [done|]. split; [|split; [done|by right]].
    apply elem_of_transfers. by eexists.
Qed.

Lemma poll_less mem wc s fl held notes x f s' x' : part_inv mem wc s fl held notes → f ∈ fl → waits (the_cache s) x f →
  part_process s x = Ok (s', x') → is_waiting x' = true → (request_left (world s') x' < request_left (world s) x)%nat.
Proof.
  intros Hinv Hin Hw Hr Hwx. destruct (waits_phase _ _ _ Hw) as [Hwx0 _]. pose proof Hw as (_ & Hpr & _).
  destruct (waits_transfer _ _ _ _ _ _ _ _ Hinv Hin Hw) as (ts & t & Hio & Ht & Ec & Hdir).
  destruct (poll_step default_context tt evict_func load_func s x s' x' Hwx0 Hpr Hr)
    as [ext ext' Hph Hph' E|ext ext' e b Hph [Hph' He] E|w e0 ext0 ext0' ext ext' e b Hph [Hph' He] _ E].
  - unfold request_left. rewrite Hph, Hph', <- Ec in *. destruct Hdir as [[_ Hdir]|[? _]]; [|done]. unfold evict_func in E. destruct (c_dirty x); cbn [negb] in E; [|done].
    apply bind_Ok in E as ([[w1 e1] b1] & E & [= -> -> _ ->]).
    assert ((transfer_left (world s') (c_external_context x') < transfer_left (world s) (tr_ctx t))%nat); [|lia].
    apply (transfer_less (world s) ts t (world s) (c_pre_vpage_id x) (c_ppage_id x)); [done|done|done|]. rewrite Hdir. exact E.
  - unfold is_waiting in Hwx. rewrite Hph' in Hwx. destruct b; [done|]. rewrite <- (He eq_refl) in E. unfold request_left. rewrite Hph, Hph', <- Ec in *.
    destruct Hdir as [[? _]|[_ Hdir]]; [done|]. apply load_func_inv in E as (w1 & w2 & E1 & E2 & [[_ ?]|E]); [done|].
    assert (transfer_left (world s') (c_external_context x') = transfer_left w2 (c_external_context x')) as ->.
    { unfold transfer_left, is_finished. by rewrite E2. }
    apply (transfer_less (world s) ts t w1 (c_vpage_id x) (c_ppage_id x)); [done|done|done|]. rewrite Hdir. exact E.
  - unfold is_waiting in Hwx. rewrite Hph' in Hwx. destruct b; [done|]. rewrite <- (He eq_refl) in E. unfold request_left. rewrite Hph, Hph'.
    apply first_load_left in E. unfold transfer_left at 2. repeat case_match; lia.
Qed.

(** The users keep the flags that are raised. *)
Lemma evict_victim_flags (s s' : sys Clock.t wld ()) (x x' : request_context) vic b :
  evict_victim default_context evict_func s x vic = Ok (s', x', b) → flags_grow (world s) (world s').
Proof.
  unfold evict_victim. destruct vic as [[[[[p nxt] pre] ph] ext] d]. intros ([t ok] & _ & Hr)%bind_Ok. apply bind_Ok in Hr as (_ & _ & Hr).
  apply bind_Ok in Hr as ([s1 x1] & E & [= <- <- <-]). by apply (call_evict_rel default_context tt evict_func load_func flags_grow evict_flags load_flags) in E.
Qed.

Lemma step_flags stale σ τ : part_step stale σ τ → flags_grow (world (sv_sys σ)) (world (sv_sys τ)).
Proof.
  pose proof (process_fuel_rel default_context tt evict_func load_func flags_grow evict_flags load_flags) as Hrun.
  intros Hs. destruct Hs as [σ x kd v s' x' b _ _ _ Hr| | | | | |σ x k c' vic s1 x1 b s' x' _ _ _ Hev Hr| | | | | |σ v d w' _ Hw];
    cbn [sv_sys pin_result unpin_result goes_on with_client_table with_cache world]; try done; try (eapply Hrun; eassumption).
  - unfold begin_turn in Hr. follow Hr; by subst.
  - apply evict_victim_flags in Hev. cbn [world with_cache] in Hev. destruct b; [apply Hrun in Hr; by etransitivity|by injection Hr as <- _].
  - assert (frame_store (world (sv_sys σ)) (p_ppage_id (sv_entry σ v)) d w') as [_ ->] by exact Hw. intros f Hf. exact Hf.
Qed.

(** [x] waits in [σ]; in [τ], after [n] polls of it and steps of anyone, it is
    [y] and waits still. *)
Inductive waited (stale : Prop) σ x : nat → part_state → request_context → Prop :=
  | waited_start : x ∈ sv_waiting σ → waited stale σ x 0 σ x
  | waited_others n τ τ' y : waited stale σ x n τ y → part_step stale τ τ' → y ∈ sv_waiting τ' → waited stale σ x n τ' y
  | waited_poll n τ y ws ws' s' y' : waited stale σ x n τ y → sv_call τ = None → sv_waiting τ = ws ++ y :: ws' → part_process (sv_sys τ) y = Ok (s', y') →
      is_waiting y' = true → waited stale σ x (S n) (pin_result τ s' y' (c_vpage_id y) ws ws') y'.

(** The partition is in order, for some memory. *)
Definition part_sound σ : Prop := ∃ mem, part_ok (with_mem σ mem).

Lemma sound_step stale σ τ : part_sound σ → part_step stale σ τ → part_sound τ.
Proof. intros (mem & Hok) Hs. by apply (any_steps_ok default_context tt evict_func load_func stale σ τ mem). Qed.

Lemma waiting_flight σ x : part_sound σ → x ∈ sv_waiting σ → ∃ mem c0 fl f, (sv_call σ = None → c0 = sv_cache σ) ∧
  part_inv mem (sv_writers σ) (mk_sys (world (sv_sys σ)) c0) fl (sv_held σ) (sv_notes σ) ∧ f ∈ fl ∧ waits c0 x f.
Proof.
  intros (mem & c0 & Hs & fl & Hp & _ & Hinv & Hw & _) (i & Hx)%list_elem_of_lookup. destruct (Forall2_lookup_l _ _ _ _ _ Hw Hx) as (f & Hf & Hwf).
  exists mem, c0, fl, f. split; [|split; [exact Hinv|split; [by eapply list_elem_of_lookup_2|done]]].
  cbn [sv_call with_mem] in Hp. intros Hc. rewrite Hc in Hp. by inversion Hp.
Qed.

Lemma left_bounds σ x : part_sound σ → x ∈ sv_waiting σ → (1 ≤ request_left (world (sv_sys σ)) x ≤ 6)%nat.
Proof.
  intros Hok Hx. destruct (waiting_flight σ x Hok Hx) as (mem & c0 & fl & f & _ & Hinv & Hf & Hw).
  destruct (waits_transfer mem (sv_writers σ) (mk_sys (world (sv_sys σ)) c0) _ _ _ _ _ Hinv Hf Hw) as (ts & t & Hio & Ht & Ec & Hdir). cbn [world] in Hio.
  destruct (ok_state _ _ _ Hio t Ht) as [Hfi _]. rewrite Ec in Hfi. unfold request_left, transfer_left. rewrite Hfi.
  destruct Hdir as [[-> _]|[-> _]]; repeat case_match; lia.
Qed.

Lemma waited_less stale σ x n τ y : part_sound σ → waited stale σ x n τ y →
  part_sound τ ∧ y ∈ sv_waiting τ ∧ (request_left (world (sv_sys τ)) y + n ≤ request_left (world (sv_sys σ)) x)%nat.
Proof.
  intros Hok. induction 1 as [Hx|n τ τ' y _ (Hok1 & Hy & Hl) Hs Hy'|n τ y ws ws' s' y' _ (Hok1 & Hy & Hl) Hc Hws Hr Hw'].
  - split; [done|]. split; [done|]. lia.
  - split; [by eapply sound_step|]. split; [done|]. pose proof (request_left_mono _ _ y (step_flags _ _ _ Hs)). lia.
  - split; [eapply sound_step; [exact Hok1|by apply (step_resume _ _ _ _ stale)]|]. cbn [pin_result sv_waiting sv_sys]. rewrite Hw'.
    split; [set_solver|]. destruct (waiting_flight τ y Hok1 Hy) as (mem & c0 & fl & f & Ec & Hinv & Hf & Hw). rewrite (Ec Hc) in Hinv, Hw.
    assert (mk_sys (world (sv_sys τ)) (sv_cache τ) = sv_sys τ) as Es by (unfold sv_cache; by destruct (sv_sys τ)). rewrite Es in Hinv.
    pose proof (poll_less _ _ _ _ _ _ _ _ _ _ Hinv Hf Hw Hr Hw'). lia.
Qed.

(** C7: over the [MemCopy] backend, a request that waits for a transfer is done at
    its sixth poll at the latest: after five polls of it, with any requests,
    polls, direct pins, notifications and writes of others in between, it does
    not wait any more after the next. *)
Theorem shared_wait_ends (stale : Prop) σ0 σ x n τ y : part_ok σ0 →
  reachable default_context tt evict_func load_func (R:=Clock.t) (IoContract0:=memcopy_contract N) stale σ0 σ →
  waited stale σ x n τ y → (n ≤ 5)%nat.
Proof.
  intros Hok Hre Hw. assert (part_sound σ) as Hσ by (by apply (reachable_any default_context tt evict_func load_func stale σ0)).
  destruct (waited_less stale σ x n τ y Hσ Hw) as (Hτ & Hy & Hl). pose proof (left_bounds τ y Hτ Hy).
  assert (x ∈ sv_waiting σ) as Hx by (clear -Hw; by induction Hw). pose proof (left_bounds σ x Hσ Hx). lia.
Qed.
End polls.

Lemma waited_one N (stale : Prop) (σ : part_state) x ws s' y : sv_call σ = None → sv_waiting σ = x :: ws → part_process (sv_sys σ) x = Ok (s', y) → is_waiting y = true →
  waited N stale σ x 1 (pin_result σ s' y (c_vpage_id x) [] ws) y.
Proof. intros Hc Hw Hr Hy. eapply waited_poll; [apply waited_start; rewrite Hw; set_solver|exact Hc|exact Hw|exact Hr|exact Hy]. Qed.

Lemma head_tail {A} (d : A) (l : list A) : length l ≠ 0%nat → l = default d (head l) :: tail l.
Proof. by destruct l. Qed.

(** The pin of page 2 evicts page 0, which was written: it waits, and waits on
    after one poll. *)
Lemma shared_wait_ends_witness : let σ := run_actions false sample run_evict in ∃ x τ y, waited 16 False σ x 1 τ y ∧ (1 ≤ 5)%nat.
Proof.
  intros σ. set (x := default no_context (head (sv_waiting σ))).
  assert (Hx : sv_waiting σ = x :: tail (sv_waiting σ)) by (apply head_tail; by vm_compute).
  assert (Hp : match part_process (sv_sys σ) x with Ok (_, y) => is_waiting y | Err _ => false end = true) by (by vm_compute).
  destruct (part_process (sv_sys σ) x) as [[s' y]|] eqn:E; [|done].
  pose proof (waited_one 16 False σ x (tail (sv_waiting σ)) s' y eq_refl Hx E Hp) as Hw.
  exists x, (pin_result σ s' y (c_vpage_id x) [] (tail (sv_waiting σ))), y. split; [exact Hw|]. exact (shared_wait_ends 16 False sample σ x 1 _ y sample_ok (fresh_reach run_evict) Hw).
Defined.

(** Its first poll calls the eviction function. *)
Lemma shared_wait_answered_witness : let σ := run_actions false sample run_evict in ∃ x s' x', x ∈ sv_waiting σ ∧
  part_process (sv_sys σ) x = Ok (s', x') ∧ polled default_context evict_func load_func (sv_sys σ) x s' x'.
Proof.
  intros σ. assert (Hin : default no_context (head (sv_waiting σ)) ∈ sv_waiting σ) by (apply head_elem; by vm_compute).
  destruct (shared_wait_answered default_context tt evict_func load_func (IoContract0:=memcopy_contract 16) False sample σ _ sample_ok (fresh_reach run_evict) eq_refl Hin)
    as (s' & x' & Hr & Hp & _).
  exists (default no_context (head (sv_waiting σ))), s', x'. split; [exact Hin|]. split; [exact Hr|exact Hp].
Defined.
