(* ===== verification/PartitionAnswers.v ===== *)
(** * What a partition answers

    The functions a server thread of the shared cache answers with
    ([first_processing_func] and [processing_func] of [SharedCache.v]), over the
    [MemCopy] backend: notifications are applied at once, a pin of a page for
    which there is a frame is answered at once or after at most six more polls,
    with the address of a frame that has the contents of the page. *)
From S2P Require Import Prelude Util Replacement PteHeader CompactHashPageTable CompactTableLines SharedSingleThreadCache MemoryPool IoBackend IoBackendSpec PartitionType PartitionClient PartitionServer SharedCache SharedServer SharedServerData SharedServerSpec SharedServerUse SharedServerSystem ImmediateTransfers SharedCacheIo SharedCacheSpec PartitionPoll PartitionLink PartitionCall.
From stdpp Require Import gmap list.

Open Scope Z_scope.

(** ** The pool of a partition stays where it is *)
Definition same_pool (w w' : wld) : Prop := base (memory_pool w') = base (memory_pool w) ∧ num_pages (memory_pool w') = num_pages (memory_pool w).

#[global] Instance same_pool_preorder : PreOrder same_pool.
Proof. split; [done|]. intros w1 w2 w3 [] []. split; congruence. Qed.

Lemma transfer_pool (op : MemCopy.t → Z → Z → option Z → result (MemCopy.t * bool)) w e v p w' e' b :
  SharedCache.transfer op w e v p = Ok (w', e', b) → memory_pool w' = memory_pool w.
Proof.
  unfold SharedCache.transfer. destruct (first e); [by intros [= <- _ _]|]. destruct (processing e); cbn [negb].
  - destruct (is_finished w e); cbn [negb]; [by intros [= <- _ _]|]. by intros ([b1 r] & _ & [= <- _ _])%bind_Ok.
  - intros ([w1 e1] & E & [= <- _ _])%bind_Ok. unfold start_io in E. apply bind_Ok in E as (data & _ & E).
    by apply bind_Ok in E as (b1 & _ & [= <- _]).
Qed.

Lemma evict_pool w e v p (d : bool) (ext : ()) w' e' ext' b : evict_func w e v p d ext = Ok (w', e', ext', b) → same_pool w w'.
Proof.
  unfold evict_func, same_pool. destruct d; cbn [negb]; [|by intros [= <- _ _ _]].
  intros ([[w1 e1] b1] & E%transfer_pool & [= <- _ _ _])%bind_Ok. by rewrite E.
Qed.

Lemma loaded_pool m p m' b : loaded m p = Ok (m', b) → base m' = base m ∧ num_pages m' = num_pages m.
Proof. unfold loaded. intros (x & _ & Hr)%bind_Ok. by apply bind_Ok in Hr as (y & _ & [= <- _]). Qed.

Lemma load_pool w e v p (ext : ()) w' e' ext' b : load_func w e v p ext = Ok (w', e', ext', b) → same_pool w w'.
Proof.
  unfold load_func. intros ([m before] & E%loaded_pool & Hr)%bind_Ok. destruct before; cbn [negb] in Hr; [|by injection Hr as <- _ _ _].
  apply bind_Ok in Hr as ([[w2 e2] b2] & E2%transfer_pool & [= <- _ _ _]). unfold same_pool in *. by destruct b2; cbn in *; rewrite E2.
Qed.

Lemma part_process_pool (p p' : SharedCache.partition (B:=MemCopy.t)) x x' : part_process p x = Ok (p', x') → same_pool (world p) (world p').
Proof. apply (process_fuel_rel default_context tt evict_func load_func same_pool evict_pool load_pool). Qed.

(** ** A partition between two calls *)

(** What its users know of a partition: the contents of its blocks, the pins of
    each, whether its holder may have written, and the frame of a pinned block. *)
Record ghost := mk_ghost { g_mem : Z → list Z; g_held : gmap Z Z; g_wc : Z → Z; g_at : Z → Z }.
Definition with_pin (g : ghost) (b q : Z) : ghost :=
  mk_ghost (g_mem g) (add_pin (g_held g) b) (g_wc g) (λ u, if decide (u = b) then q else g_at g u).

Section answers.
(** The partitioner, the blocks of the partition and the address and number of
    its frames. *)
Context (P : RoundRobinPartitioner) (N B nf : Z).
Abbreviation part := (SharedCache.partition (B:=MemCopy.t)).
Abbreviation part_inv := (inv default_context evict_func load_func (R:=Clock.t) (IoContract0:=memcopy_contract N)).
Implicit Types (x : part) (g : ghost) (r : request_type) (l : list request_type) (y : request_context) (b : Z).

Record part_is x : Prop := {
  pi_lines : used_but (sizes (the_cache x)) None (page_table (the_cache x));
  pi_base : base (memory_pool (world x)) = B;
  pi_frames : max_ppage_id (the_cache x) = nf;
}.

(** A pinned block stays in its frame. *)
Definition in_place x g : Prop := ∀ u, 0 < held_of (g_held g) u → pp (the_cache x) u = g_at g u.

Lemma held_has_page mem wc x fl held ns u : part_inv mem wc x fl held ns → 0 < held_of held u → held_page (the_cache x) u.
Proof.
  intros [Hi _] Hu. pose proof (held_resident _ _ _ _ _ Hi Hu) as Hr. destruct (si_resident _ _ _ _ Hi u Hr) as (_ & _ & _ & _ & Hrc). split; [done|lia].
Qed.

Lemma stay_in_place mem wc x x' fl ns g : part_inv mem wc x fl (g_held g) ns → pins_kept (the_cache x) (the_cache x') → in_place x g → in_place x' g.
Proof. intros Hinv Hk Hx u Hu. destruct (Hk u) as [_ ->]; [by eapply held_has_page|]. by apply Hx. Qed.

Definition part_rests x g (ns : list note) : Prop := part_inv (g_mem g) (g_wc g) x [] (g_held g) ns ∧ part_is x ∧ in_place x g.

Lemma okp_blocks mem wc x fl held ns b : part_inv mem wc x fl held ns → okp (the_cache x) b ↔ 0 ≤ b < N.
Proof. intros [_ Hd]. pose proof (sd_pages _ _ _ _ _ _ _ _ _ Hd) as E. change (N = max_vpage_id (the_cache x)) in E. unfold okp. by rewrite <- E. Qed.

Lemma lines_after x x' : lines_kept None (the_cache x) (the_cache x') → same_sizes (the_cache x) (the_cache x') →
  used_but (sizes (the_cache x)) None (page_table (the_cache x)) → used_but (sizes (the_cache x')) None (page_table (the_cache x')).
Proof. intros [_ Hk] [E1 E2] Hu. unfold sizes. rewrite E1, E2. apply Hk; [|done]. intros u Hu'. unfold okp in Hu'. cbn. lia. Qed.

Lemma part_is_after x x' : lines_kept None (the_cache x) (the_cache x') → same_sizes (the_cache x) (the_cache x') → same_pool (world x) (world x') →
  part_is x → part_is x'.
Proof. intros Hk Hs [E1 E2] [H1 H2 H3]. split; [by eapply lines_after|congruence|destruct Hs; congruence]. Qed.

(** *** Notifications *)
Definition req_note r : option note :=
  match r_type r with
  | NotifyDirectPin => Some (NPin (locate P (r_page_id r)).2)
  | NotifyDirectUnpin => Some (NUnpin (locate P (r_page_id r)).2)
  | _ => None
  end.
Definition is_note r : Prop := r_resp r = 0 ∧ ∃ nt, req_note r = Some nt ∧ 0 ≤ note_page nt < N.

Lemma deliver_table (c c' : cache Clock.t ()) nt : deliver c nt = Ok c' → page_table c' = page_table c ∧ same_sizes c c'.
Proof. intros Hd. split; [|by eapply deliver_sizes]. destruct nt; cbn in Hd; unfold notify_pin, notify_unpin in Hd; follow Hd; by subst. Qed.

Lemma note_handled x g r nt ns : part_rests x g (nt :: ns) → req_note r = Some nt → 0 ≤ note_page nt < N → ∃ x',
  first_processing_func P x r = Ok (x', 1, None) ∧ part_rests x' g ns.
Proof.
  intros (Hinv & Hp & Hat) Hr Hv. pose proof (proj2 (okp_blocks _ _ _ _ _ _ _ Hinv) Hv) as Hok.
  destruct (notify_run default_context evict_func load_func _ _ _ _ _ _ _ Hinv Hok) as (c' & Hd & Hinv').
  destruct (deliver_table _ _ _ Hd) as [Et Hs]. exists (mk_sys (world x) c'). split.
  - unfold first_processing_func. unfold req_note in Hr. destruct (locate P (r_page_id r)) as [sid v]. destruct (r_type r); try done; injection Hr as <-; cbn in Hd; by rewrite (bind_rew _ _ _ Hd).
  - split; [exact Hinv'|]. split; [apply (part_is_after x); [|done|done|done]; split; [apply Hs|]; intros m _; cbn; by rewrite Et|].
    intros u Hu. rewrite <- (Hat u Hu). unfold pp, ent. cbn. by rewrite Et.
Qed.

Lemma notes_handled x g l ns : part_rests x g (omap req_note l ++ ns) → Forall is_note l → ∃ x' rs,
  handle (first_processing_func P) x l = Ok (x', rs, []) ∧ length rs = length l ∧ part_rests x' g ns.
Proof.
  revert x. induction l as [|r l IH]; intros x Hx Hl; [by exists x, []|]. apply Forall_cons in Hl as [(_ & nt & Hr & Hv) Hl].
  cbn [omap list_omap] in Hx. rewrite Hr in Hx. destruct (note_handled x g r nt _ Hx Hr Hv) as (x1 & E1 & Hx1).
  destruct (IH x1 Hx1 Hl) as (x' & rs & E & Hlen & Hx'). exists x', (1 :: rs). cbn [handle]. rewrite (bind_rew _ _ _ E1). cbv beta iota zeta.
  rewrite (bind_rew _ _ _ E). cbn. by rewrite Hlen.
Qed.

(** *** Pins *)
Context (g : ghost) (b : Z).

(** The page is pinned for the client, and [p] is the address of its frame. *)
Definition pin_done x (p : Z) : Prop := let q := pp (the_cache x) b in
  part_rests x (with_pin g b q) [] ∧ resident (the_cache x) b ∧ (0 < held_of (g_held g) b → q = g_at g b) ∧ p = B + q * PS.

Lemma pin_ends x p : part_inv (g_mem g) (g_wc g) x [] (add_pin (g_held g) b) [] → part_is x → in_place x g → resident (the_cache x) b →
  p = B + pp (the_cache x) b * PS → pin_done x p.
Proof.
  intros Hinv Hp Hat Hr Ep. split; [split; [done|]; split; [done|]|by split; [|split; [apply Hat|]]]. intros u Hu. cbn in *. case_decide as E; [by subst|].
  apply Hat. unfold held_of in *. by rewrite add_other in Hu.
Qed.

(** The request waits, for [k] more polls at most. *)
Definition pin_pending (k : nat) x y : Prop := ∃ f, part_inv (g_mem g) (g_wc g) x [f] (g_held g) [] ∧ waits (the_cache x) y f ∧ f_page f = b ∧
  (request_left (world x) y ≤ k)%nat ∧ part_is x ∧ in_place x g.

Lemma rests_settled x : part_rests x g [] → settled (EC := IOContext) (the_cache x) (g_held g).
Proof. intros ([Hi _] & Hp & _). split; [done|apply Hp]. Qed.

Lemma rests_not_full x : part_rests x g [] → Z.of_nat (base.size (g_held g)) < nf → full_pin (the_cache x) = false.
Proof.
  intros ([Hi _] & Hp & _) Hsize. pose proof (si_max _ _ _ _ Hi) as Hmax. pose proof (si_pinned _ _ _ _ Hi) as Hpin. cbn in Hpin.
  unfold full_pin. apply Z.leb_gt. rewrite to_int64_small by lia. rewrite (pi_frames _ Hp). unfold zlen in Hpin. cbn in Hpin. lia.
Qed.

(** The pointer a finished pin is answered with. *)
Lemma pinned_pointer x y mem wc fl held ns : part_inv mem wc x fl held ns → part_is x → pinned default_context evict_func load_func (IoContract0:=memcopy_contract N) mem x y b →
  pin_pointer x y = Ok (B + pp (the_cache x) b * PS) ∧ 0 ≤ pp (the_cache x) b < nf.
Proof.
  intros [Hi Hd] [_ Hb Hf] (_ & Hr & Hp & _). destruct (si_resident _ _ _ _ Hi b Hr) as (_ & Hpr & _). pose proof (si_cur _ _ _ _ Hi). pose proof (si_max _ _ _ _ Hi).
  pose proof (sd_io _ _ _ _ _ _ _ _ _ Hd) as Hio. pose proof (ok_pool _ _ _ Hio) as [Hn Hb0 Htop _ _].
  pose proof (sd_frames _ _ _ _ _ _ _ _ _ Hd) as Efr. change (num_pages (memory_pool (world x)) = max_ppage_id (the_cache x)) in Efr.
  assert (0 ≤ pp (the_cache x) b < num_pages (memory_pool (world x))) as Hr2 by lia. split; [|lia].
  unfold pin_pointer. rewrite Hp, (in_frames_page (the_cache x)) by lia. unfold from_page_id. rewrite (proj2 (Z.ltb_lt _ _)) by lia. cbn [assert mbind result_bind].
  rewrite Hb in Htop |- *. rewrite w64_small; [done|]. rewrite Hb in Hb0. pose proof ps_pos. change CACHE_PAGE_SIZE with PS in *. nia.
Qed.

Lemma pinned_is_end x y mem wc fl held ns : part_inv mem wc x fl held ns → pinned default_context evict_func load_func (IoContract0:=memcopy_contract N) mem x y b →
  SharedCache.is_end y = true.
Proof. intros Hinv Hp. unfold SharedCache.is_end. by rewrite (proj1 Hp). Qed.

Context (Hnf : Z.of_nat (base.size (g_held g)) < nf) (HB : 0 < B).

(** The pin of a page, when all notifications have arrived. *)
Lemma pin_handled x v resp : part_rests x g [] → (locate P v).2 = b → 0 ≤ b < N → held_of (g_held g) b + 1 < REF_MOD → ∃ x' p pending,
  first_processing_func P x (mk_request Pin v resp) = Ok (x', p, pending) ∧
  match pending with None => pin_done x' p ∧ p ≠ 0 | Some y => pin_pending 6 x' y ∧ p = 0 end.
Proof using Hnf HB.
  intros Hx Eb Hb Hrm. pose proof Hx as (Hinv & Hp & Hat). pose proof (proj2 (okp_blocks _ _ _ _ _ _ _ Hinv) Hb) as Hok. pose proof (rests_settled x Hx) as Hse.
  assert (starts (pin_context no_context b : request_context) KPin b) as Hst by done.
  destruct (pin_request_run default_context tt evict_func load_func _ _ _ _ _ _ _ b Hinv (List.Forall_nil _) Hst Hok (settled_available default_context tt evict_func load_func _ _ Hse b) Hrm) as (x' & y & Hr & Ho & Hk).
  { intros _ _. apply (no_notes_not_stuck (EC := IOContext) _ []), Hinv. }
  pose proof (process_sizes _ _ _ _ _ _ _ _ Hr) as Hs. destruct (Hk (rests_not_full x Hx Hnf)) as [Hlk Hpk].
  assert (part_is x') as Hp' by (by apply (part_is_after x); [| |eapply part_process_pool|]).
  assert (in_place x' g) as Hat' by (by eapply stay_in_place).
  unfold first_processing_func. cbn [r_page_id r_type]. destruct (locate P v) as [sid b']. cbn in Eb. subst b'.
  rewrite (bind_rew (part_process _ _) (x', y) _) by exact Hr. cbv beta iota zeta. destruct Ho as [Hinv' _ Hbusy|Hinv' Hph Hpg Hfull|Hinv' Hpin|f Hinv' Hw Hf].
  - exfalso. destruct (si_busy _ _ _ _ (proj1 Hinv') b) as (f & Hf & _); [unfold okp in *; by rewrite (proj1 Hs)|done|]. by apply elem_of_nil in Hf.
  - exfalso. assert (full_pin (the_cache x') = false) as E; [|congruence]. by apply rests_not_full.
  - destruct (pinned_pointer x' y _ _ _ _ _ Hinv' Hp' Hpin) as [Hptr Hpr]. rewrite (pinned_is_end x' y _ _ _ _ _ Hinv' Hpin). cbn [negb]. rewrite (bind_rew _ _ _ Hptr).
    eexists x', _, None. split; [done|]. split; [|pose proof ps_pos; nia]. apply pin_ends; try done. apply Hpin.
  - destruct (waits_phase _ _ _ Hw) as [_ He]. assert (SharedCache.is_end y = false) as -> by exact He. cbn [negb].
    exists x', 0, (Some y). split; [done|]. split; [|done]. exists f. do 3 (split; [done|]). split; [|done].
    destruct (waits_transfer N _ _ _ _ _ _ _ _ Hinv' (list_elem_of_here _ _) Hw) as (ts & t & Hio & Ht & Ec & Hdir). destruct (ok_state _ _ _ Hio t Ht) as [Hfi _].
    rewrite Ec in Hfi. unfold request_left, transfer_left. rewrite Hfi. destruct Hdir as [[-> _]|[-> _]]; repeat case_match; lia.
Qed.

(** A poll of a pin that waits. *)
Lemma pin_polled k x y mem v resp : pin_pending k x y → resp ≠ 0 → ∃ x' mem' y' (finished : bool),
  processing_func x mem y (mk_request Pin v resp) = Ok (x', mem', y', finished) ∧
  if finished then ∃ p, p ≠ 0 ∧ mem' = store_response mem resp p ∧ pin_done x' p else mem' = mem ∧ ∃ k', (k' < k)%nat ∧ pin_pending k' x' y'.
Proof using HB.
  intros (f & Hinv & Hw & Hf & Hk & Hp & Hat) Hresp.
  destruct (resume_run default_context tt evict_func load_func _ _ _ _ _ _ _ _ Hinv (List.Forall_nil _) Hw) as (x' & y' & Hr & Hvp & Hpg & Hl & Hpk).
  pose proof (process_sizes _ _ _ _ _ _ _ _ Hr) as Hs.
  assert (part_is x') as Hp' by (by apply (part_is_after x); [|done|eapply part_process_pool|]).
  assert (in_place x' g) as Hat' by (by eapply stay_in_place).
  unfold processing_func. rewrite (bind_rew (part_process _ _) (x', y') _) by exact Hr. cbv beta iota zeta. rewrite Hf in Hvp.
  destruct Hpg as [(Hinv' & Hn & Hpin)|(f' & Hinv' & Hw' & Hf')]; rewrite ?Hvp in *.
  - destruct (pinned_pointer x' y' _ _ _ _ _ Hinv' Hp' Hpin) as [Hptr Hpr]. rewrite (pinned_is_end x' y' _ _ _ _ _ Hinv' Hpin). cbn [negb r_resp r_type].
    rewrite (proj2 (Z.eqb_neq _ _) Hresp), (bind_rew _ _ _ Hptr). eexists x', _, y', true. split; [done|]. set (p := B + _).
    assert (p ≠ 0) as Hp0 by (unfold p; pose proof ps_pos; nia). exists p. split; [done|]. split.
    + unfold store_response. by rewrite (proj2 (Z.eqb_neq _ _) Hresp), (proj2 (Z.eqb_neq _ _) Hp0).
    + apply pin_ends; try done; [|apply Hpin]. unfold add_pin, held_of. by rewrite Hn.
  - destruct (waits_phase _ _ _ Hw') as [Hwt He]. assert (SharedCache.is_end y' = false) as -> by exact He. cbn [negb].
    exists x', mem, y', false. split; [done|]. split; [done|]. exists (request_left (world x') y'). split.
    + pose proof (poll_less N _ _ _ _ _ _ _ _ _ _ Hinv (list_elem_of_here _ _) Hw Hr Hwt). lia.
    + exists f'. split; [done|]. split; [done|]. split; [congruence|]. split; [lia|]. done.
Qed.

(** A pin is answered like this after the notifications in its batch. *)
Definition pin_starts x l : Prop := part_rests x g (omap req_note l) ∧ Forall is_note l.

Lemma notes_of_list l : Forall is_note l → notes l.
Proof using. intros Hl r Hr. rewrite Forall_forall in Hl. by destruct (Hl r Hr). Qed.

Lemma partition_answers v resp : resp ≠ 0 → (locate P v).2 = b → 0 ≤ b < N → held_of (g_held g) b + 1 < REF_MOD →
  answers_call (first_processing_func P) processing_func (mk_request Pin v resp) pin_starts pin_pending pin_done 6.
Proof using Hnf HB.
  intros Hresp Eb Hb Hrm. split; [done| |].
  - intros x l [Hx Hl]. split; [by apply notes_of_list|]. rewrite <- (app_nil_r (omap req_note l)) in Hx.
    destruct (notes_handled x g l [] Hx Hl) as (x1 & rs & Hh & Hlen & Hx1). destruct (pin_handled x1 v resp Hx1 Eb Hb Hrm) as (x' & p & pending & Hf & Hp).
    exists x', rs, p, (match pending with Some y => [(mk_request Pin v resp, y)] | None => [] end). split; [|split; [done|]].
    + apply (handle_app _ x l _ x1 rs [] x' [p] _ Hh). cbn [handle]. rewrite (bind_rew _ _ _ Hf). by destruct pending.
    + destruct pending as [y|]; destruct Hp as [Hp Hp0]; [right; by exists y|by left].
  - intros k x y mem Hp. by apply pin_polled.
Qed.
End answers.
