(* ===== verification/PartitionUse.v ===== *)
(** * What a client does to a partition directly

    The direct pins and unpins of a client in the table of a partition, and its
    loads and stores in the frames it has pinned. *)
From S2P Require Import Prelude Util Replacement PteHeader CompactHashPageTable CompactTableLines SharedSingleThreadCache MemoryPool IoBackend IoBackendSpec SharedCache SharedServer SharedServerData SharedServerSpec SharedServerUse SharedServerSystem SharedCacheIo SharedCacheSpec PartitionAnswers.
From stdpp Require Import gmap list.

Open Scope Z_scope.

(** The memory of the process with other bytes at an address. *)
Definition poke_world (w : wld) (a : Z) (d : list Z) : wld :=
  with_io w (MemCopy.mk (MemCopy.mempool (io w)) (MemCopy.read_lane (io w)) (MemCopy.write_lane (io w))
               (MemCopy.preparing (io w)) (poke (MemCopy.mem (io w)) a d) (MemCopy.flags (io w))).

Definition with_unpin (g : ghost) (b : Z) (is_write : bool) : ghost :=
  mk_ghost (g_mem g) (drop_pin (g_held g) b) (unpin_wc (g_wc g) b is_write) (g_at g).
(** A holder of a pin may write. *)
Definition with_writer (g : ghost) (b : Z) : ghost :=
  mk_ghost (g_mem g) (g_held g) (λ u, if decide (u = b) then Z.max 1 (g_wc g u) else g_wc g u) (g_at g).
Definition with_store (g : ghost) (b : Z) (d : list Z) : ghost := mk_ghost (store (g_mem g) b d) (g_held g) (g_wc g) (g_at g).

Section use.
Context (N B nf : Z).
Abbreviation part := (SharedCache.partition (B:=MemCopy.t)).
Abbreviation part_rests := (part_rests N B nf).
Abbreviation part_inv := (inv default_context evict_func load_func (R:=Clock.t) (IoContract0:=memcopy_contract N)).
Implicit Types (x : part) (g : ghost) (b : Z) (ns : list note).

Lemma table_is x t : lines_kept None (the_cache x) (with_page_table (the_cache x) t) → part_is B nf x → part_is B nf (with_table x t).
Proof. intros Hl Hp. by apply (part_is_after B nf x). Qed.

Lemma rests_perm x g ns ns' : part_rests x g ns → ns ≡ₚ ns' → part_rests x g ns'.
Proof. intros (Hinv & Hp) Hns. split; [|done]. by eapply srv_inv_perm. Qed.

Lemma rests_writer x g ns b : part_rests x g ns → 0 < held_of (g_held g) b → part_rests x (with_writer g b) ns.
Proof.
  intros (Hinv & Hp) Hpos. split; [|done]. eapply writers_run; [exact Hinv| |]; intros u; pose proof (sd_wc _ _ _ _ _ _ _ _ _ (proj2 Hinv) u); cbn; case_decide; subst; lia.
Qed.

(** The address of a frame in the pool. *)
Lemma frame_pointer mem wc x fl held ns q : part_inv mem wc x fl held ns → part_is B nf x → 0 ≤ q < max_ppage_id (the_cache x) →
  from_page_id (memory_pool (world x)) q = Ok (B + q * PS).
Proof.
  intros [Hi Hd] [_ Hb _] Hq. pose proof (ok_pool _ _ _ (sd_io _ _ _ _ _ _ _ _ _ Hd)) as [Hn Hb0 Htop _ _].
  pose proof (sd_frames _ _ _ _ _ _ _ _ _ Hd) as Efr. change (num_pages (memory_pool (world x)) = max_ppage_id (the_cache x)) in Efr.
  unfold from_page_id. rewrite (proj2 (Z.ltb_lt _ _)) by lia. cbn [assert mbind result_bind]. rewrite Hb in *. rewrite w64_small; [done|].
  change CACHE_PAGE_SIZE with PS in *. pose proof ps_pos. nia.
Qed.

(** The address of a pinned page is not the answer that refuses a pin. *)
Lemma done_pointer g b x p : pin_done N B nf g b x p → p < EMPTY_POINTER.
Proof.
  intros (([Hi Hd] & [_ Hb _] & _) & Hr & _ & ->). destruct (si_resident _ _ _ _ Hi b Hr) as (_ & Hpr & _). pose proof (si_cur _ _ _ _ Hi).
  pose proof (ok_pool _ _ _ (sd_io _ _ _ _ _ _ _ _ _ Hd)) as [Hn Hb0 Htop _ _].
  pose proof (sd_frames _ _ _ _ _ _ _ _ _ Hd) as Efr. change (num_pages (memory_pool (world x)) = max_ppage_id (the_cache x)) in Efr.
  rewrite Hb in *. unfold EMPTY_POINTER, MAX64. change CACHE_PAGE_SIZE with 4096 in Htop. change PS with 4096. nia.
Qed.

Lemma direct_pin x g ns b : part_rests x g ns → 0 ≤ b < N → held_of (g_held g) b + 1 < REF_MOD → ∃ t (success : bool) p n,
  CompactHashPageTable.pin (page_table (the_cache x)) b None = Ok (t, (success, p, n)) ∧ let x' := with_table x t in
  if success then part_rests x' (with_pin g b p) (if n =? 0 then NPin b :: ns else ns) ∧
    (0 < held_of (g_held g) b → p = g_at g b) ∧ from_page_id (memory_pool (world x)) p = Ok (B + p * PS)
  else part_rests x' g ns ∧ held_of (g_held g) b = 0.
Proof.
  intros (Hinv & Hp & Hat) Hb Hrm. pose proof (proj2 (okp_blocks N _ _ _ _ _ _ _ Hinv) Hb) as Hok.
  destruct (client_pin_run default_context evict_func load_func _ _ _ _ _ _ b Hinv Hok Hrm) as (t & success & p & n & Hr & [Hl Hk] & Hcase).
  exists t, success, p, n. split; [done|]. pose proof (table_is x t Hl Hp) as Hp'. assert (in_place (with_table x t) g) as Hat' by (by eapply stay_in_place).
  destruct success.
  - destruct Hcase as (Hinv' & Hr' & Ep & _ & _). split; [|split].
    + split; [done|]. split; [done|]. intros u Hu. cbn in *. case_decide as E; [by subst|]. apply Hat'. unfold held_of in *. by rewrite add_other in Hu.
    + intros Hpos. rewrite <- Ep. by apply Hat'.
    + pose proof Hinv' as [Hi' _]. destruct (si_resident _ _ _ _ Hi' b Hr') as (_ & Hpr & _). pose proof (si_cur _ _ _ _ Hi').
      rewrite Ep in Hpr. eapply (frame_pointer _ _ x); [done|done|]. change (max_ppage_id _) with (max_ppage_id (the_cache x)) in *. lia.
  - destruct Hcase as [Hinv' Hnr]. split; [done|]. pose proof Hinv as [Hi _]. destruct (held_pos _ _ _ _ b Hi) as [Hpos _].
    destruct (decide (0 < held_of (g_held g) b)); [|lia]. by destruct Hnr; eapply held_resident.
Qed.

Lemma direct_unpin x g ns b (is_write : bool) : part_rests x g ns → 0 < held_of (g_held g) b →
  0 ≤ g_wc g b - Z.b2z is_write ≤ held_of (g_held g) b - 1 → ∃ t n,
  CompactHashPageTable.unpin (page_table (the_cache x)) b is_write None = Ok (t, n) ∧
  part_rests (with_table x t) (with_unpin g b is_write) (if n =? 1 then NUnpin b :: ns else ns).
Proof.
  intros (Hinv & Hp & Hat) Hpos Hwc.
  destruct (client_unpin_run default_context evict_func load_func _ _ _ _ _ _ b is_write Hinv Hpos Hwc) as (t & n & Hr & _ & Hinv' & Hl & Hpp).
  exists t, n. split; [done|]. split; [done|]. split; [by apply table_is|]. intros u Hu. cbn in Hu |- *.
  assert (0 < held_of (g_held g) u) as Hu'.
  { destruct (decide (u = b)) as [->|Hne]; [done|]. unfold held_of in *. by rewrite drop_other in Hu. }
  rewrite <- (Hat u Hu'). apply Hpp. pose proof Hinv as [Hi _]. by eapply held_resident.
Qed.

(** The frame of a pinned block. *)
Lemma pinned_frame_is x g ns b : part_rests x g ns → 0 < held_of (g_held g) b → resident (the_cache x) b ∧ pp (the_cache x) b = g_at g b ∧
  frame_addr (world x) (g_at g b) = B + g_at g b * PS.
Proof.
  intros ([Hi _] & [_ Hb _] & Hat) Hpos. split; [by eapply held_resident|]. split; [by apply Hat|]. unfold frame_addr. by rewrite Hb.
Qed.

Lemma rests_page x g ns b : part_rests x g ns → 0 < held_of (g_held g) b →
  page_at (MemCopy.mem (io (world x))) (B + g_at g b * PS) = g_mem g b.
Proof.
  intros Hx Hpos. destruct (pinned_frame_is x g ns b Hx Hpos) as (Hr & Epp & Ea). destruct Hx as ([_ Hd] & _).
  rewrite <- Ea, <- Epp. exact (sd_resident _ _ _ _ _ _ _ _ _ Hd b Hr).
Qed.

Lemma rests_store x g ns b d : part_rests x g ns → 0 < g_wc g b → zlen d = PS →
  part_rests (mk_sys (poke_world (world x) (B + g_at g b * PS) d) (the_cache x)) (with_store g b d) ns.
Proof.
  intros Hx Hw Hlen. pose proof Hx as (Hinv & [Hl Hb Hf] & Hat). assert (0 < held_of (g_held g) b) as Hpos.
  { destruct Hinv as [_ Hd]. pose proof (sd_wc _ _ _ _ _ _ _ _ _ Hd b). lia. }
  destruct (pinned_frame_is x g ns b Hx Hpos) as (Hr & Epp & Ea). split; [|done].
  apply (client_write_run default_context evict_func load_func _ _ _ _ _ _ b d); [done|done|]. split; [done|]. rewrite Epp, Ea. done.
Qed.
End use.
