(* ===== verification/SharedClient.v ===== *)
(** * A client of the shared cache and its partitions

    The calls of one client ([pin] and [unpin] of [SharedCache.v]) with all the
    servers of the cache: a pin returns with the address of a frame that has the
    page, however the servers' rounds are spread, and the partitions stay in
    order with the notifications that are still in the batches. *)
From S2P Require Import Prelude Util Replacement PteHeader CompactHashPageTable CompactTableLines SharedSingleThreadCache MemoryPool IoBackend IoBackendSpec SharedCache SharedServer SharedServerData SharedServerSpec SharedServerUse SharedServerSystem SharedCacheIo SharedCacheSpec PartitionType PartitionClient PartitionServer PartitionLink PartitionCall PartitionAnswers PartitionUse.
From stdpp Require Import gmap list functions.

Open Scope Z_scope.

Section client.
(** The cache, the id of the client and the number of clients, where the frames
    are, and what runs while the client spins. *)
Context (sc : shared_cache) (c num_clients : Z) (B : Z → Z).
Abbreviation P := (partitioner sc).
Abbreviation n := (num_partitions P).
Abbreviation nf := (num_ppages_per_partition sc).
Abbreviation N := (num_blocks P).
Abbreviation part := (SharedCache.partition (B:=MemCopy.t)).
Abbreviation first_f := (first_processing_func (B:=MemCopy.t) P).
Abbreviation process_f := (processing_func (B:=MemCopy.t)).
Abbreviation view := (SharedCache.view (B:=MemCopy.t)).
Abbreviation lane := (lane (C:=part) (A:=request_context)).
Context (env : shared → SharedCache.servers (B:=MemCopy.t) → result (shared * SharedCache.servers (B:=MemCopy.t))).
Context (Hc : 0 ≤ c < num_clients) (Henv : fair first_f process_f num_clients n env).
Implicit Types (v w : view) (G : Z → ghost) (X : Z → list note) (E i : Z) (x : part) (ln : lane).

(** The partition of lane [i] is as [G i] says once the notifications of its
    batch and those of [X i] have arrived. *)
Definition in_order G X i x (l : list request_type) : Prop :=
  part_rests (N i) (B i) nf x (G i) (omap (req_note P) l ++ X i) ∧ Forall (is_note P (N i)) l.
Definition no_notes : Z → list note := λ _, [].

Lemma serves_in_order G X : serves_notes first_f (in_order G X).
Proof.
  intros i x l [Hx Hl]. split; [by eapply notes_of_list|]. destruct (notes_handled P (N i) (B i) nf x (G i) l (X i) Hx Hl) as (x' & rs & Hh & _ & Hx').
  exists x', rs. split; [done|]. by split.
Qed.

(** Between two calls; [E] bounds the epochs. *)
Definition view_with E G X v : Prop := cid (cl v) = c ∧ ∀ i, 0 ≤ i < n → ∃ ln, lane_at v i ln ∧ lane_ok c num_clients i ln ∧
  quiet_lane c (in_order G X) (λ _, E) i ln.
Abbreviation view_ok E G := (view_with E G no_notes).
Abbreviation quiet_at E G X v := (quiet c (in_order G X) (λ _, E) (resp_memory (sh v))).

Lemma view_lanes E G X v : view_with E G X v → all_lanes c num_clients n (quiet_at E G X v) (λ _, 0%nat) v.
Proof using.
  intros [Hcid Hv]. split; [done|]. intros i Hi. destruct (Hv i Hi) as (ln & H1 & H2 & H3). exists ln, 0%nat. split; [done|]. split; [done|]. split; [done|]. by split.
Qed.

Lemma lanes_view E G X v m kf : all_lanes c num_clients n (quiet c (in_order G X) (λ _, E) m) kf v → view_with E G X v ∧ (0 < n → resp_memory (sh v) = m).
Proof using.
  intros [Hcid Hv]. split; [split; [done|]; intros i Hi; destruct (Hv i Hi) as (ln & k & H1 & H2 & _ & _ & H3); by exists ln|].
  intros Hn. destruct (Hv 0) as (_ & _ & _ & _ & _ & Hm & _); [lia|done].
Qed.

Lemma later_lane E E' Q i ln : E ≤ E' → quiet_lane c Q (λ _, E) i ln → quiet_lane c Q (λ _, E') i ln.
Proof using. intros He (H1 & H2 & H3). split; [done|]. split; [lia|done]. Qed.

Lemma view_later E E' G X v : E ≤ E' → view_with E G X v → view_with E' G X v.
Proof using.
  intros He [Hcid Hv]. split; [done|]. intros i Hi. destruct (Hv i Hi) as (ln & H1 & H2 & H3). exists ln. split; [done|]. split; [done|]. by eapply later_lane.
Qed.

(** What is known of a partition changes. *)
Lemma weaken_lane E G G' X X' i ln : (∀ x l, in_order G X i x l → in_order G' X' i x l) →
  quiet_lane c (in_order G X) (λ _, E) i ln → quiet_lane c (in_order G' X') (λ _, E) i ln.
Proof using.
  intros Hw (H1 & H2 & H3). split; [done|]. split; [done|]. apply stage_open in H3 as (l & Hl & Hx). by apply (stage_close c _ i ln l Hl), Hw.
Qed.

Lemma other_lane E G G' X X' i ln : G' i = G i → X' i = X i → quiet_lane c (in_order G X) (λ _, E) i ln → quiet_lane c (in_order G' X') (λ _, E) i ln.
Proof using. intros EG EX. apply weaken_lane. intros x l. unfold in_order. by rewrite EG, EX. Qed.

Lemma view_writer E G X v i b : view_with E G X v → 0 < held_of (g_held (G i)) b → view_with E (<[i:=with_writer (G i) b]> G) X v.
Proof using.
  intros [Hcid Hv] Hpos. split; [done|]. intros j Hj. destruct (Hv j Hj) as (lj & G1 & G2 & G3). exists lj. split; [done|]. split; [done|].
  eapply weaken_lane; [|exact G3]. intros x l [Hx Hl]. split; [|done]. destruct (decide (j = i)) as [->|Hne]; [|by rewrite fn_lookup_insert_ne].
  rewrite fn_lookup_insert. by apply rests_writer.
Qed.

Lemma store_resp_ok E G X v resp p : view_with E G X v → view_with E G X (store_resp v resp p).
Proof using.
  intros [Hcid Hv]. split; [done|]. intros i Hi. destruct (Hv i Hi) as (ln & Hl & H2 & H3). exists ln. split; [|done]. destruct Hl. by split.
Qed.

(** The servers run on their own. *)
Lemma servers_run E G v ds : view_ok E G v → (∀ i, i ∈ ds → 0 ≤ i < n) → ∃ sh' ss',
  run_servers first_f process_f num_clients ds (sh v) (others v) = Ok (sh', ss') ∧ view_ok E G (mk_st (cl v) sh' ss').
Proof using Hc.
  intros Hv Hds. destruct (turns_ok first_f process_f c num_clients Hc n _ (quiet_family first_f process_f c num_clients Hc _ (serves_in_order G no_notes) _ _)
    ds v _ Hds (view_lanes _ _ _ _ Hv)) as (sh' & ss' & Hr & Hl & _).
  exists sh', ss'. split; [done|]. by destruct (lanes_view _ _ _ _ _ _ Hl).
Qed.

(** ** The partition of a lane *)
Definition with_context {C A} (s : server C A) (x : C) : server C A :=
  mk_server (sid s) (s_toggles s) (resp_messages s) x (async_requests s) (num_async s) (async_channel s) (count s).

Lemma with_partition_ok v i ln x : lane_at v i ln →
  with_partition v i x = Ok (put v i (with_server ln (with_context (ln_server ln) x)) (resp_memory (sh v))).
Proof using.
  intros Hl. unfold with_partition. rewrite (bind_rew _ _ _ (proj2 (aread_Ok _ _ _) (la_server _ _ _ Hl))).
  rewrite awrite_total by (eapply zget_range; apply Hl). cbn [mbind result_bind]. unfold put.
  cbn [with_server ln_pool ln_status ln_processing ln_toggle ln_epoch ln_requests ln_responses ln_server].
  rewrite (zset_id _ _ _ (la_pool _ _ _ Hl)), (zset_id _ _ _ (la_status _ _ _ Hl)), (zset_id _ _ _ (la_processing _ _ _ Hl)), (zset_id _ _ _ (la_toggle _ _ _ Hl)),
    (zset_id _ _ _ (la_epoch _ _ _ Hl)), (zset_id _ _ _ (la_requests _ _ _ Hl)), (zset_id _ _ _ (la_responses _ _ _ Hl)).
  by destruct v as [[] [] ?].
Qed.

Lemma stage_face ln s' l : same_face (ln_server ln) s' → at_stage c ln l → at_stage c (with_server ln s') l.
Proof using.
  intros Hf [[H1 H2]|[H1|(-> & l' & rs & H1 & H2)]]; [left; by split; [apply face_idle|]|right; left; by apply face_sent|].
  right. right. split; [done|]. exists l', rs. by split; [apply face_replied|].
Qed.

(** The client changes a partition itself. *)
Lemma part_open E G v i : view_ok E G v → 0 ≤ i < n → ∃ x l, the_partition v i = Ok x ∧
  part_rests (N i) (B i) nf x (G i) (omap (req_note P) l) ∧ ∀ x' g' ns, part_rests (N i) (B i) nf x' g' (omap (req_note P) l ++ ns) → ∃ v',
    with_partition v i x' = Ok v' ∧ resp_memory (sh v') = resp_memory (sh v) ∧ view_with E (<[i:=g']> G) (<[i:=ns]> no_notes) v'.
Proof using.
  intros [Hcid Hv] Hi. destruct (Hv i Hi) as (ln & Hl & Hok & Hr & He & (l & Hst & Hx & Hn)%stage_open). unfold no_notes in Hx. rewrite app_nil_r in Hx.
  exists (context (ln_server ln)), l. split; [unfold the_partition; by rewrite (bind_rew _ _ _ (proj2 (aread_Ok _ _ _) (la_server _ _ _ Hl)))|]. split; [done|].
  intros x' g' ns Hx'. exists (put v i (with_server ln (with_context (ln_server ln) x')) (resp_memory (sh v))).
  split; [by apply with_partition_ok|]. split; [done|]. split; [done|]. intros j Hj. destruct (decide (j = i)) as [->|Hne].
  - eexists. split; [by eapply put_at|]. split; [by apply face_ok|]. split; [done|]. split; [done|].
    apply (stage_close c _ i _ l); [by apply stage_face|]. split; [|done]. by rewrite !fn_lookup_insert.
  - destruct (Hv j Hj) as (lj & G1 & G2 & G3). exists lj. split; [by apply put_other|]. split; [done|].
    eapply other_lane; [| |exact G3]; by rewrite fn_lookup_insert_ne.
Qed.

(** ** Messages to a server *)
Context (fuel : nat) (Hfuel : (9 ≤ fuel)%nat).

Lemma view_same E G G' X X' v : (∀ j, G' j = G j) → (∀ j, X' j = X j) → view_with E G X v → view_with E G' X' v.
Proof using.
  intros EG EX [Hcid Hv]. split; [done|]. intros j Hj. destruct (Hv j Hj) as (lj & G1 & G2 & G3). exists lj. split; [done|]. split; [done|].
  eapply other_lane; [apply EG|apply EX|exact G3].
Qed.

Lemma insert_same {A} (f : Z → A) (i : Z) (y : A) : f i = y → ∀ j, f j = <[i:=y]> f j.
Proof using. intros <- j. destruct (decide (j = i)) as [->|Hne]; [by rewrite fn_lookup_insert|by rewrite fn_lookup_insert_ne]. Qed.

Lemma no_note E G v i : view_with E G (<[i:=[]]> no_notes) v → view_ok E G v.
Proof using. apply view_same; [done|]. by apply insert_same. Qed.

(** A notification joins the batch. *)
Lemma note_sent E G v i r nt : 0 ≤ i < n → view_with E G (<[i:=[nt]]> no_notes) v → r_resp r = 0 → req_note P r = Some nt →
  0 ≤ note_page nt < N i → 0 ≤ r_page_id r < 2 ^ PAGE_ID_BITS → E + 1 < 2 ^ 64 → ∃ v' e,
  request env fuel v i r 0 = Ok (v', e) ∧ view_ok (E + 1) G v' ∧ resp_memory (sh v') = resp_memory (sh v).
Proof using Hc Henv Hfuel.
  intros Hi Hv Hr Hnt Hb Hu HE.
  destruct (request_joins first_f process_f c num_clients Hc n env Henv _ (serves_in_order G _) (λ _, E) fuel v i r _ ltac:(lia) Hi Hu HE (view_lanes _ _ _ _ Hv))
    as (v' & e & ln & l & Hreq & Hcid & Hm & Hl & Hok & Hrest & He & [Hx Hn] & Hst & Hothers).
  rewrite Hr in Hreq. exists v', e. split; [exact Hreq|]. split; [|done]. split; [done|]. intros j Hj. destruct (decide (j = i)) as [->|Hne].
  - exists ln. split; [done|]. split; [done|]. apply (requested_quiet c _ _ e i ln (l ++ [r]) Hst Hrest); [lia|lia|]. split.
    + rewrite fn_lookup_insert in Hx. unfold no_notes. by rewrite app_nil_r, omap_app; cbn; rewrite Hnt.
    + apply Forall_app. split; [done|]. constructor; [|done]. split; [done|by exists nt].
  - destruct (Hothers j Hj Hne) as (lj & G1 & G2 & G3). exists lj. split; [done|]. split; [done|]. eapply later_lane; [|eapply other_lane; [done| |exact G3]]; [lia|].
    by rewrite fn_lookup_insert_ne.
Qed.

(** The polls after the first. *)
Lemma later_polls (Q : Z → part → list request_type → Prop) a r Start Pend Done K (E : Z → Z) e1 m v kf e : serves_notes first_f Q →
  answers_call first_f process_f r Start Pend Done K → 0 ≤ a < n → e < e1 →
  all_lanes c num_clients n (calling c Q a r Start Pend Done K E e1) kf v → not_processing v a → (kf a < m)%nat → ∃ v' kf',
  await_response env fuel m v a e (r_resp r) = Ok v' ∧ all_lanes c num_clients n (calling c Q a r Start Pend Done K E e1) kf' v' ∧
  not_processing v' a ∧ resp_memory (sh v') (r_resp r) ≠ 0.
Proof using Hc Henv Hfuel.
  intros HQ HA Ha He. revert v kf. induction m as [|m IH]; intros v kf Hv Hnp Hm; [lia|]. cbn [await_response].
  destruct (Z.eqb_spec (resp_memory (sh v) (r_resp r)) 0) as [E0|E0]; cbn [negb]; [|by exists v, kf].
  assert (kf a ≠ 0%nat) by (intros Hk; by eapply calling_done in Hk).
  destruct (poll_calling first_f process_f c num_clients Hc n env Henv Q HQ a r Start Pend Done K E e1 HA fuel v kf e ltac:(lia) Ha He Hv)
    as (w & sh' & o' & Hr & Hr' & Hw & Hnw).
  rewrite (bind_rew _ _ _ Hr), (bind_rew _ _ _ Hr'). cbv beta iota zeta. apply (IH _ _ Hw Hnw). cbn. lia.
Qed.

(** A pin through the server. *)
Lemma pin_asked E G v i b u resp : 0 ≤ i < n → view_ok E G v → (locate P u).2 = b → 0 ≤ b < N i → held_of (g_held (G i)) b + 1 < REF_MOD →
  Z.of_nat (base.size (g_held (G i))) < nf → 0 < B i → 0 ≤ u < 2 ^ PAGE_ID_BITS → resp ≠ 0 → 0 ≤ E → E + 1 < 2 ^ 64 → ∃ v' q,
  pin_loop env fuel fuel (store_resp v resp 0) i u resp 0 = Ok (v', B i + q * PS) ∧
  view_ok (E + 1) (<[i:=with_pin (G i) b q]> G) v' ∧ (0 < held_of (g_held (G i)) b → q = g_at (G i) b).
Proof using Hc Henv Hfuel.
  intros Hi Hv Eb Hb Hrm Hroom HB Hu Hresp HE0 HE. set (r := mk_request Pin u resp). pose proof (serves_in_order G no_notes) as HQ.
  pose proof (partition_answers P (N i) (B i) nf (G i) b Hroom HB u resp Hresp Eb Hb Hrm) as HA.
  destruct (request_joins first_f process_f c num_clients Hc n env Henv _ HQ (λ _, E) fuel (store_resp v resp 0) i r _ ltac:(lia) Hi Hu HE (view_lanes _ _ _ _ (store_resp_ok _ _ _ _ resp 0 Hv)))
    as (v1 & e & ln & l & Hreq & Hcid & Hm & Hl & Hok & Hrest & He & [Hx Hn] & Hst & Hothers).
  unfold no_notes in Hx. rewrite app_nil_r in Hx.
  assert (resp_memory (sh v1) (r_resp r) = 0) as Hm0 by (rewrite Hm; cbn; by rewrite decide_True).
  destruct (requested_calling c num_clients Hc n env (in_order G no_notes) i r (pin_starts P (N i) (B i) nf (G i)) (pin_pending (N i) (B i) nf (G i) b)
    (pin_done (N i) (B i) nf (G i) b) 6 (λ _, E) (e + 1) fuel v1 e ln l Hcid Hi Hl Hok Hrest Hst) as (v2 & Hr2 & Hv2 & _); [done|done|done|lia|lia|done|].
  destruct (await_calling first_f process_f c num_clients Hc n env Henv _ HQ i r _ _ _ 6 _ _ HA fuel v2 _ ltac:(lia) Hi Hv2) as (w & sh' & o' & Hr3 & Hr4 & Hw & Hnw).
  destruct (later_polls _ i r _ _ _ 6 _ (e + 1) (pred fuel) _ _ e HQ HA Hi ltac:(lia) Hw Hnw) as (v' & kf & Hr5 & Hv' & Hnp & Hne); [cbn; lia|].
  destruct (calling_result c num_clients n _ i r _ _ _ 6 _ _ v' kf Hi Hv' Hnp Hne) as (ln' & Hl' & Hok' & Hep & Hid & Hrest' & Hdone).
  pose proof (done_pointer _ _ _ _ _ _ _ Hdone) as Hlt. pose proof Hdone as (Hx' & _ & Hq & Ep). set (q := pp _ b) in *.
  exists v', q. split; [|split; [|exact Hq]].
  - destruct fuel as [|m]; [lia|]. cbn [pin_loop]. fold r. rewrite (bind_rew (request _ _ _ _ _ _) (v1, e) _) by exact Hreq. cbv beta iota zeta.
    change (r_resp r) with resp in Hm0, Hr5, Ep, Hlt. cbn [await_response]. unfold servers. rewrite Hm0. cbn [Z.eqb negb]. rewrite Hr2, (bind_rew _ _ _ Hr3), (bind_rew _ _ _ Hr4). cbv beta iota zeta.
    rewrite (bind_rew _ _ _ Hr5). rewrite (proj2 (Z.eqb_neq _ _) (Z.lt_neq _ _ Hlt)). by rewrite Ep.
  - destruct Hv' as [Hcid' Hall]. split; [done|]. intros j Hj. destruct (decide (j = i)) as [->|Hne'].
    + exists ln'. split; [done|]. split; [done|]. apply idle_quiet; [done|done|lia|]. split; [|done]. rewrite fn_lookup_insert. exact Hx'.
    + destruct (Hall j Hj) as (lj & k & G1 & G2 & _ & G3). unfold calling in G3. rewrite decide_False in G3 by done. exists lj. split; [done|]. split; [done|].
      eapply later_lane; [|eapply other_lane; [|done|exact G3]]; [lia|]. by rewrite fn_lookup_insert_ne.
Qed.

(** ** The calls *)
Context (Hwf : partitioner_wf P) (Hnum : SharedCache.num_vpages sc = Util.num_vpages P) (Hpages : SharedCache.num_vpages sc ≤ 2 ^ PAGE_ID_BITS).
Context (HB : ∀ i, 0 ≤ i < n → 0 < B i).

(** There is a frame for a pin of block [b]. *)
Definition may_take (g : ghost) (b : Z) : Prop :=
  held_of (g_held g) b + 1 < REF_MOD ∧ (0 < held_of (g_held g) b ∨ Z.of_nat (base.size (g_held g)) < nf).

Lemma view_pin E G v u resp : view_ok E G v → 0 ≤ u < SharedCache.num_vpages sc → resp ≠ 0 → 0 ≤ E → E + 1 < 2 ^ 64 →
  let '(i, b) := locate P u in may_take (G i) b → ∃ v' q,
  SharedCache.pin sc env fuel v u resp = Ok (v', B i + q * PS) ∧ view_ok (E + 1) (<[i:=with_pin (G i) b q]> G) v' ∧
  (0 < held_of (g_held (G i)) b → q = g_at (G i) b).
Proof using Hc Henv Hfuel Hwf Hnum Hpages HB.
  intros Hv Hu Hresp HE0 HE. destruct (locate P u) as [i b] eqn:Eloc. intros [Hrm Hroom].
  destruct (locate_range P Hwf u) as [Hi Hb]; [lia|]. rewrite Eloc in Hi, Hb. cbn in Hi, Hb.
  unfold SharedCache.pin. rewrite Eloc, (proj2 (Z.ltb_lt _ _)) by lia. cbn [ensure mbind result_bind].
  destruct (part_open E G v i Hv Hi) as (x & l & Hx & Hrests & Hput). rewrite (bind_rew _ _ _ Hx).
  destruct (direct_pin (N i) (B i) nf x (G i) _ b Hrests Hb Hrm) as (t & success & p & k & Hpin & Hcase).
  rewrite (bind_rew _ _ _ Hpin). cbv beta iota zeta. destruct success.
  - destruct Hcase as (Hx' & Hat & Hptr). set (G' := <[i:=with_pin (G i) b p]> G). set (ns := if k =? 0 then [NPin b] else []).
    destruct (Hput (with_table x t) (with_pin (G i) b p) ns) as (v1 & Hw & Hm & Hv1).
    { eapply rests_perm; [exact Hx'|]. unfold ns. case_match; [by rewrite Permutation_app_comm|by rewrite app_nil_r]. }
    rewrite (bind_rew _ _ _ Hw).
    assert (∃ v2, (if k =? 0 then '(w, _) ← request env fuel v1 i (mk_request NotifyDirectPin u 0) 0; Ok w else Ok v1) = Ok v2 ∧ view_ok (E + 1) G' v2) as (v2 & Hreq & Hv2).
    { unfold ns in Hv1. destruct (k =? 0); [|exists v1; split; [done|eapply view_later; [|by eapply no_note]; lia]].
      destruct (note_sent E G' v1 i (mk_request NotifyDirectPin u 0) (NPin b) Hi Hv1) as (v2 & e & Hreq & Hv2 & _);
        [done|unfold req_note; cbn [r_type r_page_id]; by rewrite Eloc|done|cbn; lia|done|]. exists v2. by rewrite (bind_rew _ _ _ Hreq). }
    exists v2, p. by rewrite (bind_rew _ _ _ Hreq), (bind_rew _ _ _ Hptr).
  - destruct Hcase as [Hx' Hzero]. destruct (Hput (with_table x t) (G i) []) as (v1 & Hw & Hm & Hv1); [by rewrite app_nil_r|].
    rewrite (bind_rew _ _ _ Hw). apply (view_same _ _ G _ no_notes) in Hv1; [|by apply insert_same|by apply insert_same].
    apply (pin_asked E G v1 i b u resp); try done; [by rewrite Eloc|lia|by apply HB|lia].
Qed.

Lemma view_unpin E G v u (is_write : bool) : view_ok E G v → 0 ≤ u < SharedCache.num_vpages sc → E + 1 < 2 ^ 64 →
  let '(i, b) := locate P u in 0 < held_of (g_held (G i)) b → 0 ≤ g_wc (G i) b - Z.b2z is_write ≤ held_of (g_held (G i)) b - 1 → ∃ v',
  SharedCache.unpin sc env fuel v u is_write = Ok v' ∧ view_ok (E + 1) (<[i:=with_unpin (G i) b is_write]> G) v'.
Proof using Hc Henv Hfuel Hwf Hnum Hpages.
  intros Hv Hu HE. destruct (locate P u) as [i b] eqn:Eloc. intros Hpos Hwc.
  destruct (locate_range P Hwf u) as [Hi Hb]; [lia|]. rewrite Eloc in Hi, Hb. cbn in Hi, Hb.
  unfold SharedCache.unpin. rewrite Eloc, (proj2 (Z.ltb_lt _ _)) by lia. cbn [ensure mbind result_bind].
  destruct (part_open E G v i Hv Hi) as (x & l & Hx & Hrests & Hput). rewrite (bind_rew _ _ _ Hx).
  destruct (direct_unpin (N i) (B i) nf x (G i) _ b is_write Hrests Hpos Hwc) as (t & k & Hun & Hx'). rewrite (bind_rew _ _ _ Hun). cbv beta iota zeta.
  destruct (Hput (with_table x t) (with_unpin (G i) b is_write) (if k =? 1 then [NUnpin b] else [])) as (v1 & Hw & Hm & Hv1).
  { eapply rests_perm; [exact Hx'|]. case_match; [by rewrite Permutation_app_comm|by rewrite app_nil_r]. }
  rewrite (bind_rew _ _ _ Hw). destruct (k =? 1).
  - destruct (note_sent E _ v1 i (mk_request NotifyDirectUnpin u 0) (NUnpin b) Hi Hv1) as (v2 & e & Hreq & Hv2 & _); [done|unfold req_note; cbn [r_type r_page_id]; by rewrite Eloc|done|cbn; lia|done|].
    rewrite (bind_rew _ _ _ Hreq). by exists v2.
  - exists v1. split; [done|]. eapply view_later; [|by eapply no_note]. lia.
Qed.

(** ** Loads and stores *)
Lemma view_read E G v u : view_ok E G v → 0 ≤ u < SharedCache.num_vpages sc → let '(i, b) := locate P u in 0 < held_of (g_held (G i)) b → ∃ x,
  the_partition v i = Ok x ∧ page_at (MemCopy.mem (io (world x))) (B i + g_at (G i) b * PS) = g_mem (G i) b.
Proof using Hwf Hnum.
  intros Hv Hu. destruct (locate_range P Hwf u) as [Hi Hb]; [by rewrite <- Hnum|]. destruct (locate P u) as [i b]. cbn in Hi, Hb. intros Hpos.
  destruct (part_open E G v i Hv Hi) as (x & l & Hx & Hrests & _). exists x. split; [done|]. by eapply rests_page.
Qed.

Lemma view_write E G v u d : view_ok E G v → 0 ≤ u < SharedCache.num_vpages sc → zlen d = PS → let '(i, b) := locate P u in 0 < held_of (g_held (G i)) b → ∃ x v',
  the_partition v i = Ok x ∧ with_partition v i (mk_sys (poke_world (world x) (B i + g_at (G i) b * PS) d) (the_cache x)) = Ok v' ∧
  view_ok E (<[i:=with_store (with_writer (G i) b) b d]> G) v'.
Proof using Hwf Hnum.
  intros Hv Hu Hd. destruct (locate_range P Hwf u) as [Hi Hb]; [by rewrite <- Hnum|]. destruct (locate P u) as [i b]. cbn in Hi, Hb. intros Hpos.
  destruct (part_open E G v i Hv Hi) as (x & l & Hx & Hrests & Hput). exists x.
  assert (0 < g_wc (with_writer (G i) b) b) as Hw by (cbn; rewrite decide_True by done; apply Z.max_lt_iff; by left).
  destruct (Hput (mk_sys (poke_world (world x) (B i + g_at (G i) b * PS) d) (the_cache x)) (with_store (with_writer (G i) b) b d) []) as (v' & Hw' & _ & Hv').
  { rewrite app_nil_r. exact (rests_store (N i) (B i) nf x (with_writer (G i) b) _ b d (rests_writer _ _ _ _ _ _ _ Hrests Hpos) Hw Hd). }
  exists v'. split; [done|]. split; [done|]. by eapply no_note.
Qed.
End client.
