(* ===== verification/SharedCacheTrace.v ===== *)
(** * The shared cache is a memory

    A client of the shared cache with its server threads, over the [MemCopy]
    backend: any sequence of pins, unpins, loads and stores through the pointers
    the pins returned, and rounds of the servers in between, reads what it would
    from a flat memory. *)
From S2P Require Import Prelude Util Replacement PteHeader CompactHashPageTable CompactTableLines SharedSingleThreadCache MemoryPool IoBackend IoBackendSpec SharedCache SharedServer SharedServerData SharedServerSpec SharedServerUse SharedServerSystem SharedCacheIo SharedCacheSpec PartitionType PartitionClient PartitionServer PartitionLink PartitionCall PartitionAnswers PartitionUse SharedClient.
From stdpp Require Import gmap list functions.

Open Scope Z_scope.

(** What a client does: the calls of the cache, loads and stores of a page it has
    pinned, and nothing, while servers run. *)
Inductive operation :=
  | OPin (v : Z) | OUnpin (v : Z) (is_write : bool) | ORead (v : Z) | OWrite (v : Z) (d : list Z) | OServe (sids : list Z).

(** ** The program *)
Section program.
Context (sc : shared_cache) (num_clients : Z) (fuel : nat) (resp : Z).
Abbreviation P := (partitioner sc).
Abbreviation rest := (servers (B:=MemCopy.t)).
(** What runs while the client spins. *)
Context (env : shared → rest → result (shared * rest)).
Abbreviation view := (SharedCache.view (B:=MemCopy.t)).

(** A client keeps the pointers it was given. *)
Record program := mk_program { p_view : view; p_pointer : Z → Z }.

(** Rounds of these servers. *)
Definition run_rounds (sids : list Z) (s : shared) (ss : rest) : result (shared * rest) :=
  run_servers (first_processing_func P) processing_func num_clients sids s ss.

Definition run_op (s : program) (o : operation) : result (program * option (list Z)) :=
  match o with
  | OPin v =>
      '(w, p) ← SharedCache.pin sc env fuel (p_view s) v resp;
      Ok (mk_program w (<[v:=p]> (p_pointer s)), None)
  | OUnpin v is_write =>
      w ← SharedCache.unpin sc env fuel (p_view s) v is_write; Ok (mk_program w (p_pointer s), None)
  | ORead v =>
      x ← the_partition (p_view s) (locate P v).1;
      Ok (s, Some (page_at (MemCopy.mem (io (world x))) (p_pointer s v)))
  | OWrite v d =>
      x ← the_partition (p_view s) (locate P v).1;
      w ← with_partition (p_view s) (locate P v).1 (mk_sys (poke_world (world x) (p_pointer s v) d) (the_cache x));
      Ok (mk_program w (p_pointer s), None)
  | OServe sids =>
      '(s', ss) ← run_rounds sids (sh (p_view s)) (others (p_view s));
      Ok (mk_program (mk_st (cl (p_view s)) s' ss) (p_pointer s), None)
  end.

Fixpoint run_ops (s : program) (os : list operation) : result (program * list (option (list Z))) :=
  match os with
  | [] => Ok (s, [])
  | o :: os => '(s, r) ← run_op s o; '(s, rs) ← run_ops s os; Ok (s, r :: rs)
  end.

(** ** The memory *)

(** The pages, the pins the client holds, and the pages it wrote since it last
    unpinned them with [is_write]. *)
Record memory_state := mk_memory { m_pages : Z → list Z; m_pins : gmap Z Z; m_written : Z → bool }.
Implicit Types m : memory_state.

Definition pinned_in m (i : Z) : Z := zlen (filter (λ v, v mod num_partitions P = i) (map_to_list (m_pins m)).*1).

(** What a client may do: pin a page while its partition has a frame for it,
    unpin a page it has pinned, with [is_write] when it gives up the last pin of
    a page it wrote, and use a page it has pinned. *)
Definition may_do m (o : operation) : Prop :=
  match o with
  | OPin v => 0 ≤ v < SharedCache.num_vpages sc ∧ held_of (m_pins m) v + 1 < REF_MOD ∧
      (0 < held_of (m_pins m) v ∨ pinned_in m (v mod num_partitions P) < num_ppages_per_partition sc)
  | OUnpin v is_write => 0 ≤ v < SharedCache.num_vpages sc ∧ 0 < held_of (m_pins m) v ∧
      (is_write = true ∨ m_written m v = false ∨ 1 < held_of (m_pins m) v)
  | ORead v => 0 ≤ v < SharedCache.num_vpages sc ∧ 0 < held_of (m_pins m) v
  | OWrite v d => 0 ≤ v < SharedCache.num_vpages sc ∧ 0 < held_of (m_pins m) v ∧ zlen d = PS
  | OServe sids => Forall (λ i, 0 ≤ i < num_partitions P) sids
  end.

#[export] Instance may_do_dec m o : Decision (may_do m o).
Proof. destruct o; unfold may_do; apply _. Defined.

Definition memory_op m (o : operation) : memory_state * option (list Z) :=
  match o with
  | OPin v => (mk_memory (m_pages m) (add_pin (m_pins m) v) (m_written m), None)
  | OUnpin v is_write =>
      (mk_memory (m_pages m) (drop_pin (m_pins m) v) (if (is_write : bool) then <[v:=false]> (m_written m) else m_written m), None)
  | ORead v => (m, Some (m_pages m v))
  | OWrite v d => (mk_memory (<[v:=d]> (m_pages m)) (m_pins m) (<[v:=true]> (m_written m)), None)
  | OServe _ => (m, None)
  end.

Fixpoint memory_ops m (os : list operation) : option (list (option (list Z))) :=
  match os with
  | [] => Some []
  | o :: os => if decide (may_do m o) then let '(m, r) := memory_op m o in rs ← memory_ops m os; Some (r :: rs) else None
  end.
End program.

(** ** The simulation *)
Section simulation.
Context (sc : shared_cache) (c num_clients : Z) (B : Z → Z).
Abbreviation P := (partitioner sc).
Abbreviation n := (num_partitions P).
Abbreviation nf := (num_ppages_per_partition sc).
Context (Hwf : partitioner_wf P).
Abbreviation view_ok := (λ E G, view_with sc c num_clients B E G no_notes).
Implicit Types (m : memory_state) (s : program) (G : Z → ghost) (E i b v : Z).

(** What the memory says of a page is what its partition has of its block. *)
Definition agrees m (ptr : Z → Z) G v : Prop := let '(i, b) := locate P v in
  g_mem (G i) b = m_pages m v ∧ g_held (G i) !! b = m_pins m !! v ∧ g_wc (G i) b = Z.b2z (m_written m v) ∧
  (0 < held_of (m_pins m) v → ptr v = B i + g_at (G i) b * PS).

Definition simulates E m s : Prop := ∃ G, view_ok E G (p_view s) ∧ ∀ v, agrees m (p_pointer s) G v.

Lemma held_agrees m ptr G v : agrees m ptr G v → held_of (g_held (G (locate P v).1)) (locate P v).2 = held_of (m_pins m) v.
Proof using. unfold agrees, held_of. destruct (locate P v) as [i b]. cbn. by intros (_ & -> & _). Qed.

Lemma locate_page i b : 0 ≤ i < n → locate P (b * n + i) = (i, b).
Proof using Hwf.
  intros Hi. unfold locate. rewrite Z.add_comm, Z.mod_add, Z.div_add, Z.mod_small, Z.div_small by lia. f_equal.
Qed.

Lemma page_located v : (locate P v).2 * n + (locate P v).1 = v.
Proof using Hwf. destruct Hwf as [Hn _]. unfold locate. cbn. pose proof (Z_div_mod_eq_full v n). lia. Qed.

Lemma locate_inj u v : (locate P u).1 = (locate P v).1 → (locate P u).2 = (locate P v).2 → u = v.
Proof using Hwf. intros E1 E2. by rewrite <- (page_located u), <- (page_located v), E1, E2. Qed.

(** The pinned blocks of a partition are its pinned pages. *)
Lemma pinned_count m ptr G i : 0 ≤ i < n → (∀ v, agrees m ptr G v) → Z.of_nat (base.size (g_held (G i))) = pinned_in sc m i.
Proof using Hwf.
  intros Hi Hag. unfold pinned_in, zlen. f_equal.
  assert (∀ b, g_held (G i) !! b = m_pins m !! (b * n + i)) as Hl.
  { intros b. pose proof (Hag (b * n + i)) as Ha. unfold agrees in Ha. rewrite locate_page in Ha by done. apply Ha. }
  assert ((λ b, b * n + i) <$> (map_to_list (g_held (G i))).*1 ≡ₚ filter (λ v, v mod n = i) (map_to_list (m_pins m)).*1) as Hp.
  { apply NoDup_Permutation.
    - apply NoDup_fmap_2; [intros b b' E; destruct Hwf; nia|]. apply NoDup_fst_map_to_list.
    - apply list.NoDup_filter, NoDup_fst_map_to_list.
    - intros v. rewrite list_elem_of_filter, !list_elem_of_fmap. split.
      + intros (b & -> & ([b' k] & -> & Hk%elem_of_map_to_list)%list_elem_of_fmap). cbn. rewrite Hl in Hk. split; [by injection (locate_page i b' Hi)|].
        exists (b' * n + i, k). split; [done|]. by apply elem_of_map_to_list.
      + intros (Hm & [v' k] & -> & Hk%elem_of_map_to_list). cbn in *. pose proof (page_located v') as Hv. unfold locate in Hv. cbn in Hv. rewrite Hm in Hv.
        exists (v' / n). split; [done|]. apply list_elem_of_fmap. exists (v' / n, k). split; [done|]. apply elem_of_map_to_list. by rewrite Hl, Hv. }
  apply Permutation_length in Hp. by rewrite <- Hp, !length_fmap, length_map_to_list.
Qed.

(** One page changes. *)
Lemma agrees_change m m' ptr ptr' G g v : let '(i, b) := locate P v in
  (∀ u, agrees m ptr G u) → agrees m' ptr' (<[i:=g]> G) v →
  (∀ u, u ≠ v → m_pages m' u = m_pages m u ∧ m_pins m' !! u = m_pins m !! u ∧ m_written m' u = m_written m u ∧ ptr' u = ptr u) →
  (∀ a, a ≠ b → g_mem g a = g_mem (G i) a ∧ g_held g !! a = g_held (G i) !! a ∧ g_wc g a = g_wc (G i) a ∧ g_at g a = g_at (G i) a) →
  ∀ u, agrees m' ptr' (<[i:=g]> G) u.
Proof using Hwf.
  destruct (locate P v) as [i b] eqn:Ev. intros Hag Hv Hm Hg u. destruct (decide (u = v)) as [->|Hne]; [done|].
  pose proof (Hag u) as Hu. unfold agrees in *. destruct (locate P u) as [j a] eqn:Eu. destruct (Hm u Hne) as (E1 & E2 & E3 & E4). unfold held_of. rewrite E1, E2, E3, E4.
  destruct (decide (j = i)) as [->|Hj]; [|by rewrite fn_lookup_insert_ne].
  assert (a ≠ b) as Hab by (intros ->; apply Hne, locate_inj; by rewrite Eu, Ev).
  destruct (Hg a Hab) as (F1 & F2 & F3 & F4). rewrite fn_lookup_insert, F1, F2, F3, F4. exact Hu.
Qed.

(** ** One step *)
Context (fuel : nat) (resp : Z) (env : shared → servers (B:=MemCopy.t) → result (shared * servers (B:=MemCopy.t))).
Context (Hc : 0 ≤ c < num_clients) (Henv : fair (first_processing_func P) processing_func num_clients n env) (Hfuel : (9 ≤ fuel)%nat) (Hresp : resp ≠ 0).
Context (Hnum : SharedCache.num_vpages sc = Util.num_vpages P) (Hpages : SharedCache.num_vpages sc ≤ 2 ^ PAGE_ID_BITS).
Context (HB : ∀ i, 0 ≤ i < n → 0 < B i).
Abbreviation run_op := (run_op sc num_clients fuel resp env).
Abbreviation may_do := (may_do sc).

(** The step does what the memory does. *)
Definition step_ok E m s (o : operation) : Prop := ∃ s', run_op s o = Ok (s', (memory_op m o).2) ∧ simulates (E + 1) (memory_op m o).1 s'.

Lemma pin_simulated E m s v : 0 ≤ E → E + 1 < 2 ^ 64 → simulates E m s → may_do m (OPin v) → step_ok E m s (OPin v).
Proof using All.
  intros HE0 HE (G & Hv & Hag) (Hr & Hrm & Hroom). pose proof (Hag v) as Ha. pose proof (held_agrees _ _ _ _ Ha) as Eh.
  pose proof (view_pin sc c num_clients B env Hc Henv fuel Hfuel Hwf Hnum Hpages HB E G (p_view s) v resp Hv Hr Hresp HE0 HE) as Hpin.
  destruct (locate_range P Hwf v) as [Hi _]; [lia|]. pose proof (agrees_change m (memory_op m (OPin v)).1 (p_pointer s)) as Hch.
  unfold agrees in Ha. destruct (locate P v) as [i b] eqn:Eloc. cbn in Eh, Hi. destruct Hpin as (w & q & Hp & Hw & Hq).
  { split; [by rewrite Eh|]. rewrite Eh, (pinned_count m (p_pointer s) G i Hi Hag). assert (v mod n = i) as <- by (by injection Eloc). done. }
  exists (mk_program w (<[v:=B i + q * PS]> (p_pointer s))). split; [cbn [SharedCacheTrace.run_op]; by rewrite (bind_rew _ _ _ Hp)|].
  exists (<[i:=with_pin (G i) b q]> G). split; [exact Hw|]. cbn [p_pointer]. specialize (Hch (<[v:=B i + q * PS]> (p_pointer s)) G (with_pin (G i) b q) v).
  rewrite Eloc in Hch. apply Hch; [done| | |].
  - unfold agrees. rewrite Eloc, fn_lookup_insert. cbn. destruct Ha as (E1 & E2 & E3 & E4). rewrite fn_lookup_insert, decide_True by done.
    split; [done|]. split; [|done]. unfold add_pin. by rewrite !lookup_insert_eq, Eh.
  - intros u Hu. cbn. rewrite fn_lookup_insert_ne by done. by rewrite add_other.
  - intros a Hab. cbn. rewrite decide_False by done. by rewrite add_other.
Qed.

Lemma unpin_simulated E m s v (is_write : bool) : E + 1 < 2 ^ 64 → simulates E m s → may_do m (OUnpin v is_write) → step_ok E m s (OUnpin v is_write).
Proof using Hc Henv Hfuel Hwf Hnum Hpages.
  intros HE (G & Hv & Hag) (Hr & Hpos & Hor). pose proof (Hag v) as Ha. pose proof (held_agrees _ _ _ _ Ha) as Eh. unfold agrees in Ha.
  pose proof (agrees_change m (memory_op m (OUnpin v is_write)).1 (p_pointer s) (p_pointer s)) as Hch.
  set (G1 := if is_write then <[(locate P v).1:=with_writer (G (locate P v).1) (locate P v).2]> G else G).
  assert (view_ok E G1 (p_view s)) as Hv1 by (unfold G1; destruct is_write; [|done]; apply view_writer; [done|by rewrite Eh]).
  pose proof (view_unpin sc c num_clients B env Hc Henv fuel Hfuel Hwf Hnum Hpages E G1 (p_view s) v is_write Hv1 Hr HE) as Hun.
  destruct (locate P v) as [i b] eqn:Eloc. cbn in Eh, G1. destruct Ha as (E1 & E2 & E3 & E4).
  assert (g_held (G1 i) = g_held (G i) ∧ g_mem (G1 i) = g_mem (G i) ∧ g_at (G1 i) = g_at (G i) ∧
    (∀ a, a ≠ b → g_wc (G1 i) a = g_wc (G i) a) ∧ g_wc (G1 i) b = Z.b2z (is_write || m_written m v)) as (F1 & F2 & F3 & F4 & F5).
  { unfold G1. destruct is_write; [|by rewrite E3]. rewrite fn_lookup_insert. do 3 (split; [done|]).
    split; [intros a Hab; cbn; by rewrite decide_False|]. cbn. rewrite decide_True, E3 by done. by destruct (m_written m v). }
  rewrite F1, F5, Eh in Hun. destruct Hun as (w & Hp & Hw); [done|destruct is_write, (m_written m v); cbn; destruct Hor as [?|[?|?]]; (done || lia)|].
  exists (mk_program w (p_pointer s)). split; [cbn [SharedCacheTrace.run_op]; by rewrite (bind_rew _ _ _ Hp)|].
  exists (<[i:=with_unpin (G1 i) b is_write]> G). split.
  { eapply view_same; [|done|exact Hw]. intros j. unfold G1. destruct is_write; [|done]. destruct (decide (j = i)) as [->|Hne]; [by rewrite !fn_lookup_insert|by rewrite !fn_lookup_insert_ne]. }
  specialize (Hch G (with_unpin (G1 i) b is_write) v). rewrite Eloc in Hch. apply Hch; [done| | |].
  - unfold agrees. rewrite Eloc, fn_lookup_insert. cbn. rewrite F1, F2, F3. unfold unpin_wc. rewrite decide_True, F5 by done. split; [done|].
    split; [unfold drop_pin; rewrite Eh; case_match; [by rewrite !lookup_delete_eq|by rewrite !lookup_insert_eq]|]. split.
    + destruct is_write; [by rewrite fn_lookup_insert|by destruct (m_written m v)].
    + intros _. by apply E4.
  - intros u Hu. cbn. rewrite drop_other by done. do 2 (split; [done|]). split; [|done]. destruct is_write; [by rewrite fn_lookup_insert_ne|done].
  - intros a Hab. cbn. rewrite F2, F3, F1, drop_other by done. unfold unpin_wc. rewrite decide_False, F4 by done. done.
Qed.

Lemma read_simulated E m s v : simulates E m s → may_do m (ORead v) → step_ok E m s (ORead v).
Proof using Hwf Hnum.
  intros (G & Hv & Hag) (Hr & Hpos). pose proof (Hag v) as Ha. pose proof (held_agrees _ _ _ _ Ha) as Eh. unfold agrees in Ha.
  pose proof (view_read sc c num_clients B Hwf Hnum E G (p_view s) v Hv Hr) as Hrd. exists s. split.
  - cbn [SharedCacheTrace.run_op memory_op snd]. destruct (locate P v) as [i b]. cbn in Eh |- *. destruct Ha as (E1 & _ & _ & E4).
    destruct Hrd as (x & Hx & Hpage); [by rewrite Eh|]. rewrite (bind_rew _ _ _ Hx), E4 by done. by rewrite Hpage, E1.
  - exists G. split; [|done]. eapply view_later; [|exact Hv]. apply Z.le_succ_diag_r.
Qed.

Lemma write_simulated E m s v d : simulates E m s → may_do m (OWrite v d) → step_ok E m s (OWrite v d).
Proof using Hwf Hnum.
  intros (G & Hv & Hag) (Hr & Hpos & Hd). pose proof (Hag v) as Ha. pose proof (held_agrees _ _ _ _ Ha) as Eh. unfold agrees in Ha.
  pose proof (agrees_change m (memory_op m (OWrite v d)).1 (p_pointer s) (p_pointer s)) as Hch.
  pose proof (view_write sc c num_clients B Hwf Hnum E G (p_view s) v d Hv Hr Hd) as Hwr. unfold step_ok. cbn [SharedCacheTrace.run_op].
  destruct (locate P v) as [i b] eqn:Eloc. cbn in Eh |- *. destruct Ha as (E1 & E2 & E3 & E4).
  destruct Hwr as (x & w & Hx & Hw & Hv'); [by rewrite Eh|]. rewrite (bind_rew _ _ _ Hx), E4 by done. exists (mk_program w (p_pointer s)).
  split; [by rewrite (bind_rew _ _ _ Hw)|]. exists (<[i:=with_store (with_writer (G i) b) b d]> G).
  split; [eapply view_later; [|exact Hv']; apply Z.le_succ_diag_r|].
  specialize (Hch G (with_store (with_writer (G i) b) b d) v). rewrite Eloc in Hch. apply Hch; [done| | |].
  - unfold agrees. rewrite Eloc, fn_lookup_insert. cbn. unfold store. rewrite !decide_True, E3 by done. rewrite !fn_lookup_insert.
    split; [done|]. split; [done|]. split; [by destruct (m_written m v)|done].
  - intros u Hu. cbn. by rewrite !fn_lookup_insert_ne.
  - intros a Hab. cbn. unfold store. by rewrite !decide_False.
Qed.

Lemma serve_simulated E m s sids : simulates E m s → may_do m (OServe sids) → step_ok E m s (OServe sids).
Proof using Hc.
  intros (G & Hv & Hag) Hs. cbn in Hs. rewrite list.Forall_forall in Hs.
  destruct (servers_run sc c num_clients B Hc E G (p_view s) sids Hv Hs) as (sh' & ss' & Hr & Hv').
  exists (mk_program (mk_st (cl (p_view s)) sh' ss') (p_pointer s)). split; [cbn [SharedCacheTrace.run_op]; unfold run_rounds; by rewrite (bind_rew _ _ _ Hr)|].
  exists G. split; [|done]. eapply view_later; [|exact Hv']. apply Z.le_succ_diag_r.
Qed.

Lemma run_simulates E m s os outs : 0 ≤ E → E + zlen os < 2 ^ 64 → simulates E m s → memory_ops sc m os = Some outs → ∃ s',
  run_ops sc num_clients fuel resp env s os = Ok (s', outs).
Proof using All.
  revert E m s outs. induction os as [|o os IH]; intros E m s outs HE0 HE Hs Hm; cbn [memory_ops run_ops] in *; [injection Hm as <-; by exists s|].
  case_decide as Hmay; [|done]. assert (zlen (o :: os) = zlen os + 1) as El by (unfold zlen; simpl; lia). assert (0 ≤ zlen os) by (unfold zlen; lia).
  assert (step_ok E m s o) as (s1 & Hr & Hs1).
  { destruct o; [apply pin_simulated|apply unpin_simulated|apply read_simulated|apply write_simulated|apply serve_simulated]; (done || lia). }
  destruct (memory_op m o) as [m1 r]. cbn in Hr, Hs1. apply bind_Some in Hm as (rs & Hm & [= <-]).
  destruct (IH (E + 1) m1 s1 rs) as (s' & Hr'); [lia|lia|done|done|]. exists s'. by rewrite (bind_rew _ _ _ Hr), (bind_rew _ _ _ Hr').
Qed.
End simulation.

(** ** A new cache *)
Section fresh.
(** The client's id, where the frames and the blocks of the partitions are, and
    the memory they lie in. *)
Context (sc : shared_cache) (c : Z) (mempool : Z → Z) (mmap_alloc : Z → Z → Z) (m0 : Z → memory).
Abbreviation P := (partitioner sc).
Abbreviation n := (num_partitions P).
Abbreviation nf := (num_ppages_per_partition sc).
Abbreviation N := (num_blocks P).

Definition new_partition (i : Z) : SharedCache.partition := create_context (MemCopy.init (mempool i) (m0 i)) None (mmap_alloc i) (N i) nf.
Definition new_slots : list (list message) := replicate (Z.to_nat n) (replicate (Z.to_nat MAX_THREADS) empty_message).
Definition new_program : program :=
  mk_program (mk_st (PartitionClient.init n c (replicate (Z.to_nat MAX_THREADS) false)) (mk_shared new_slots new_slots (λ _, 0))
                ((λ i, server_init i (new_partition i)) <$> seqZ 0 n)) (λ _, 0).
Definition new_memory : memory_state := mk_memory (λ _, zero_page) ∅ (λ _, false).
Definition new_ghost : ghost := mk_ghost (λ _, zero_page) ∅ (λ _, 0) (λ _, 0).
Definition frames_at (i : Z) : Z := base (memory_pool (world (new_partition i))).

Lemma zget_seqZ_map {A} (f : Z → A) (k i : Z) : 0 ≤ i < k → zget (f <$> seqZ 0 k) i = Some (f i).
Proof.
  intros Hi. unfold zget. rewrite decide_True by lia. rewrite list_lookup_fmap, lookup_seqZ_lt by lia. cbn. do 2 f_equal. lia.
Qed.

(** The partition of a new server. *)
Lemma new_rests i : fresh_ok (N i) nf (mempool i) (mmap_alloc i) (m0 i) → part_rests (N i) (frames_at i) nf (new_partition i) new_ghost [].
Proof.
  intros Hf. pose proof (fresh_partition_ok _ _ _ _ _ Hf) as Hok. apply ok_idle in Hok as (fl & Hinv & Hw & _); [|done].
  apply Forall2_nil_inv_l in Hw as ->. split; [exact Hinv|]. split; [|intros u Hu; done]. split; [|done|done].
  apply init_used. destruct Hf as [_ Hn _ _ _]. change (0 < nf < CompactHashPageTable.EMPTY_PPAGE_ID). unfold CompactHashPageTable.EMPTY_PPAGE_ID, MAX64. lia.
Qed.

(** The lane of a server and a new client. *)
Definition new_lane (i : Z) : lane (C:=SharedCache.partition (B:=MemCopy.t)) (A:=request_context) :=
  mk_lane empty_message no_status false false 1 (replicate (Z.to_nat MAX_THREADS) empty_message) (replicate (Z.to_nat MAX_THREADS) empty_message)
    (server_init i (new_partition i)).

Lemma new_lane_at i : 0 ≤ i < n → n ≤ MAX_THREADS → lane_at (p_view new_program) i (new_lane i).
Proof.
  intros Hi Hn. split; cbn [p_view new_program cl sh others PartitionClient.init local_message_pool local_message_statuses local_message_processing toggles epoches requests responses new_lane
    ln_pool ln_status ln_processing ln_toggle ln_epoch ln_requests ln_responses ln_server].
  1-4, 6-7: apply zget_replicate; lia.
  - unfold zget. rewrite decide_True by lia. rewrite lookup_app_l by (rewrite length_replicate; lia). by rewrite lookup_replicate_2 by lia.
  - by apply (zget_seqZ_map (λ i, server_init i (new_partition i))).
Qed.

Lemma new_slot : ∀ d, 0 ≤ d < MAX_THREADS → zget (replicate (Z.to_nat MAX_THREADS) empty_message) d = Some empty_message.
Proof. intros d Hd. apply zget_replicate. lia. Qed.

Lemma new_lane_ok num_clients i : num_clients ≤ MAX_THREADS → 0 ≤ c < num_clients → lane_ok c num_clients i (new_lane i) ∧ idle c (new_lane i) [].
Proof.
  intros Hk Hc. assert (slot_toggle_is c (replicate (Z.to_nat MAX_THREADS) empty_message) false) as Ht.
  { exists 0. split; [|done]. exists empty_message. split; [apply new_slot; lia|done]. }
  assert (∀ d, 0 ≤ d < MAX_THREADS → zget (replicate (Z.to_nat MAX_THREADS) false) d = Some false) as Hto by (intros d Hd; apply zget_replicate; lia).
  split; split; try done.
  - exists empty_message. split; [apply new_slot; lia|done].
  - intros d _ Hd. exists empty_message, 0, false. split; [apply new_slot; lia|]. split; [done|]. split; [apply Hto; lia|done].
  - apply Hto. lia.
Qed.

Lemma new_simulates num_clients : num_clients ≤ MAX_THREADS → 0 ≤ c < num_clients → n ≤ MAX_THREADS →
  (∀ i, 0 ≤ i < n → fresh_ok (N i) nf (mempool i) (mmap_alloc i) (m0 i)) → simulates sc c num_clients frames_at 1 new_memory new_program.
Proof.
  intros Hk Hc Hn Hf. exists (λ _, new_ghost). split.
  - split; [done|]. intros i Hi. exists (new_lane i). split; [by apply new_lane_at|]. destruct (new_lane_ok num_clients i Hk Hc) as [Hok Hid]. split; [done|].
    apply idle_quiet; [done|done|done|]. split; [|done]. by apply new_rests, Hf.
  - intros v. unfold agrees. destruct (locate P v) as [i b]. split; [done|]. split; [done|]. split; [done|]. intros Hp. done.
Qed.
End fresh.

(** A cache as [create_shared] sets it up, with one server thread per partition
    and a client; every server has turns while the client spins, and every
    partition has its frames and its blocks in zeroed memory of its own. *)
Record set_up (virt phy num_servers max_clients : Z) (sc : shared_cache) (c num_clients : Z) (fuel : nat) (resp : Z)
    (env : shared → servers (B:=MemCopy.t) → result (shared * servers (B:=MemCopy.t))) (mempool : Z → Z) (mmap_alloc : Z → Z → Z) (m0 : Z → memory) : Prop := {
  su_created : create_shared virt phy num_servers max_clients = Ok sc;
  su_sizes : 0 ≤ phy ∧ virt < 2 ^ 64;
  su_servers : 0 < num_servers ≤ MAX_THREADS;
  su_clients : 0 ≤ c < num_clients ∧ num_clients ≤ MAX_THREADS;
  su_env : fair (first_processing_func (partitioner sc)) processing_func num_clients num_servers env;
  su_fuel : (9 ≤ fuel)%nat;
  su_resp : resp ≠ 0;
  su_partition i : 0 ≤ i < num_servers → 0 < mmap_at (num_ppages_per_partition sc) (mmap_alloc i) ∧
    fresh_ok (num_blocks (partitioner sc) i) (num_ppages_per_partition sc) (mempool i) (mmap_alloc i) (m0 i);
}.

Lemma created_partitioner virt phy num_servers max_clients sc : create_shared virt phy num_servers max_clients = Ok sc → 0 ≤ phy → virt < 2 ^ 64 →
  partitioner sc = Build_RoundRobinPartitioner num_servers (SharedCache.num_vpages sc) ∧ 0 ≤ SharedCache.num_vpages sc ≤ 2 ^ PAGE_ID_BITS.
Proof.
  unfold create_shared. case_match; [done|]. intros (u & He & [= <-])%bind_Ok Hphy Hvirt. split; [done|]. cbn [SharedCache.num_vpages].
  unfold ensure in He. destruct (virt <? phy) eqn:E; [done|]. apply Z.ltb_ge in E. change CACHE_PAGE_SIZE with 4096. change PAGE_ID_BITS with 52.
  split; [apply Z.div_pos; lia|]. apply Z.div_le_upper_bound; lia.
Qed.

(** C1: the shared cache is a memory.  For any sequence of operations of a client
    that the memory of pages allows (pins while the page's partition has a frame,
    unpins, loads and stores of pinned pages through the pointers of the pins,
    and rounds of the servers in between), the calls return, and the loads read
    what they read from the memory. *)
Theorem shared_cache_is_memory virt phy num_servers max_clients sc c num_clients fuel resp env mempool mmap_alloc m0 os outs :
  set_up virt phy num_servers max_clients sc c num_clients fuel resp env mempool mmap_alloc m0 →
  memory_ops sc new_memory os = Some outs → zlen os < 2 ^ 63 → ∃ s,
  run_ops sc num_clients fuel resp env (new_program sc c mempool mmap_alloc m0) os = Ok (s, outs).
Proof.
  intros [Hcr [Hphy Hvirt] Hns [Hc Hk] Henv Hfuel Hresp Hparts] Hm Hlen.
  destruct (created_partitioner _ _ _ _ _ Hcr Hphy Hvirt) as [Ep Hpages]. set (B := frames_at sc mempool mmap_alloc m0).
  assert (num_partitions (partitioner sc) = num_servers ∧ Util.num_vpages (partitioner sc) = SharedCache.num_vpages sc) as [En Ev] by (by rewrite Ep).
  apply (run_simulates sc c num_clients B) with (E := 1) (m := new_memory); try done.
  - split; [rewrite En; change MAX_THREADS with 2048 in Hns; lia|]. rewrite Ev. change PAGE_ID_BITS with 52 in Hpages. lia.
  - by rewrite En.
  - apply Hpages.
  - rewrite En. intros i Hi. destruct (Hparts i Hi) as [Hmm [_ Hn Ht _ _]]. unfold mmap_at in *.
    pose proof (create_pool_inv (mmap_alloc i) (num_ppages_per_partition sc)) as (_ & Hb & _); [lia|apply Ht|apply Ht|].
    change (0 < base (MemoryPool.create (mmap_alloc i) (num_ppages_per_partition sc) None)). change PS with CACHE_PAGE_SIZE in Hmm. lia.
  - lia.
  - apply new_simulates; [done|done|rewrite En; apply Hns|]. rewrite En. intros i Hi. by apply Hparts.
Qed.

(** Two partitions of two frames: page 0 is written, evicted for page 4 and
    loaded again into another frame. *)
Definition small_cache : shared_cache := match create_shared 32768 16384 2 1 with Ok sc => sc | Err _ => mk_shared_cache 0 0 0 0 0 0 (Build_RoundRobinPartitioner 1 0) end.
Definition some_operations : list operation :=
  [OPin 0; OWrite 0 (page_of 7); OUnpin 0 true; OPin 2; OPin 4; OUnpin 2 false; OServe [0; 0]; OPin 0; ORead 0; ORead 4].

Definition in_turn : shared → servers (B:=MemCopy.t) → result (shared * servers (B:=MemCopy.t)) := run_rounds small_cache 1 [1; 0].

Lemma small_set_up : set_up 32768 16384 2 1 small_cache 0 1 9 1 in_turn (λ _, 2 ^ 20) (λ _ _, 4096) (λ _ _, 0).
Proof.
  assert (∀ i, 0 ≤ i < 2 → num_blocks (partitioner small_cache) i = 4) as HN.
  { intros i Hi. assert (i = 0 ∨ i = 1) as [->| ->] by lia; by vm_compute. }
  split; try done.
  - intros s ss. exists [1; 0]. split; [|done]. intros i. rewrite elem_of_cons, list_elem_of_singleton. lia.
  - intros i Hi. split; [done|]. rewrite HN by done. split; [by vm_compute|by vm_compute|by vm_compute|right; by vm_compute|done].
Qed.

Lemma some_value {A} (o : option A) (d : A) : match o with Some _ => true | None => false end = true → o = Some (default d o).
Proof. by destruct o. Qed.

Lemma shared_cache_is_memory_witness : ∃ s outs,
  run_ops small_cache 1 9 1 in_turn (new_program small_cache 0 (λ _, 2 ^ 20) (λ _ _, 4096) (λ _ _, 0)) some_operations = Ok (s, outs) ∧
  outs !! 8%nat = Some (Some (page_of 7)).
Proof.
  assert (memory_ops small_cache new_memory some_operations = Some (default [] (memory_ops small_cache new_memory some_operations))) as Hm
    by (apply some_value; by vm_compute).
  destruct (shared_cache_is_memory _ _ _ _ _ _ _ _ _ _ _ _ _ _ _ small_set_up Hm) as (s & Hr); [by vm_compute|].
  eexists s, _. split; [exact Hr|]. vm_cast_no_check (eq_refl (Some (Some (page_of 7)))).
Defined.
