(* ===== verification/DirectCache.v ===== *)
(** * The direct cache

    [class DirectCache] of [include/direct_cache.hpp]: a direct-mapped table of
    pages that stay pinned in the cache below, so that an access to one of them
    is a comparison and a load.  The cache below is the template argument
    [Cache]; what the direct cache needs of it is the class [PinCache]. *)
From S2P Require Import Prelude Util.
From stdpp Require Import gmap list.

Open Scope Z_scope.

(** [pin] and [unpin] of a cache whose state is [W]; a pin answers with a
    pointer to the page. *)
Class PinCache (W : Type) := {
  cache_pin : W → Z → result (W * Z);
  cache_unpin : W → Z → bool → result W;
}.

Definition EMPTY : Z := MAX64.
Definition MAX_NUM_PINNED : Z := Z.shiftl 1 30.
Definition MAX_FIBERS_PER_THREAD : Z := 1.

Record direct_cache := mk_direct {
  num_pinned : Z;
  num_pinned_mask : Z;
  store : list (Z * Z);
  dirty : list bool;
}.

(** [pages] is [actual_num_ppages_per_thread] of the cache below. *)
Definition table_size (pages : Z) : Z :=
  Z.min MAX_NUM_PINNED (Z.max (nextPowerOf2 pages / 4 / MAX_FIBERS_PER_THREAD) 1).

Definition create (pages : Z) : direct_cache :=
  let n := table_size pages in
  mk_direct n (n - 1) (replicate (Z.to_nat n) (EMPTY, 0)) (replicate (Z.to_nat n) false).

Definition with_entry (d : direct_cache) (s : list (Z * Z)) (b : list bool) : direct_cache :=
  mk_direct (num_pinned d) (num_pinned_mask d) s b.

Section direct.
Context {W : Type} `{PinCache W}.

Definition flush_entry (d : direct_cache) (w : W) (i : Z) : result (direct_cache * W) :=
  '(v, _) ← aread (store d) i;
  b ← aread (dirty d) i;
  w ← (if negb (v =? EMPTY) then cache_unpin w v b else Ok w);
  s ← awrite (store d) i (EMPTY, 0);
  bs ← awrite (dirty d) i false;
  Ok (with_entry d s bs, w).

Fixpoint flush_from (d : direct_cache) (w : W) (i : Z) (n : nat) : result (direct_cache * W) :=
  match n with
  | O => Ok (d, w)
  | S n' => '(d, w) ← flush_entry d w i; flush_from d w (i + 1) n'
  end.

Definition flush (d : direct_cache) (w : W) : result (direct_cache * W) :=
  flush_from d w 0 (Z.to_nat (num_pinned d)).

(** An access that misses; it stores the page id before [pin], which may throw:
    the entry then keeps the pointer of the page before. *)
Definition miss (d : direct_cache) (w : W) (i vpage_id : Z) : direct_cache * W * result () :=
  match (
    '(v, _) ← aread (store d) i;
    b ← aread (dirty d) i;
    if negb (v =? EMPTY) then cache_unpin w v b else Ok w)
  with
  | Err e => (d, w, Err e)
  | Ok w =>
      match ('(_, p) ← aread (store d) i; awrite (store d) i (vpage_id, p)) with
      | Err e => (d, w, Err e)
      | Ok s =>
          let d := with_entry d s (dirty d) in
          match cache_pin w vpage_id with
          | Err e => (d, w, Err e)
          | Ok (w, p) =>
              match (s ← awrite (store d) i (vpage_id, p); b ← awrite (dirty d) i false; Ok (with_entry d s b)) with
              | Err e => (d, w, Err e)
              | Ok d => (d, w, Ok tt)
              end
          end
      end
  end.

(** [access]: the state is returned with an exception too, since it survives. *)
Definition access (d : direct_cache) (w : W) (vpage_id : Z) (is_write : bool) : direct_cache * W * result Z :=
  let i := Z.land vpage_id (num_pinned_mask d) in
  match aread (store d) i with
  | Err e => (d, w, Err e)
  | Ok (v, _) =>
      let '(d, w, r) := if negb (v =? vpage_id) then miss d w i vpage_id else (d, w, Ok tt) in
      match (
        _ ← r;
        b ← aread (dirty d) i;
        bs ← awrite (dirty d) i (b || is_write);
        '(_, p) ← aread (store d) i;
        Ok (with_entry d (store d) bs, p))
      with
      | Err e => (d, w, Err e)
      | Ok (d, p) => (d, w, Ok p)
      end
  end.
End direct.
