(* ===== verification/PrivateCache.v ===== *)
(** * The private caches of a thread

    [class PrivateCache] of [include/private_cache.hpp]: per partition a
    [SharedSingleThreadCache] of the thread's own, whose "physical pages" are
    pins of the shared cache: loading a page pins it there and remembers the
    pointer, evicting it unpins it. *)
From S2P Require Import Prelude Util Replacement PteHeader CompactHashPageTable SharedSingleThreadCache PartitionType PartitionClient PartitionServer SharedCache DirectCache.
From stdpp Require Import gmap.

Open Scope Z_scope.

(** What the private caches use of the shared cache: its pins (with the client
    of the thread), its partitioner, and waiting for the client's messages. *)
Class SharedInterface (W : Type) := {
  shared_pin : W → Z → result (W * Z);
  shared_unpin : W → Z → bool → result W;
  shared_wait : W → result W;
}.

Section private_cache.
Context {W : Type} `{SharedInterface W}.
Context (partitioner : RoundRobinPartitioner) (shared_num_vpages : Z).

(** [PointerState] and [SharedCacheContext] (the cache itself is the one at
    hand). *)
Definition PointerState := Z.
Definition SharedCacheContext := Z.

Definition evict_func (w : W) (pid : SharedCacheContext) (vpage_id ppage_id : Z) (is_dirty : bool) (s : PointerState) :
    result (W * SharedCacheContext * PointerState * bool) :=
  w ← shared_unpin w (vpage_of partitioner pid vpage_id) is_dirty;
  Ok (w, pid, s, true).

Definition load_func (w : W) (pid : SharedCacheContext) (vpage_id ppage_id : Z) (s : PointerState) :
    result (W * SharedCacheContext * PointerState * bool) :=
  '(w, pointer) ← shared_pin w (vpage_of partitioner pid vpage_id);
  Ok (w, pid, pointer, true).

Definition single_thread_cache := SharedSingleThreadCache.cache Clock.t PointerState.
Definition context_type := SharedSingleThreadCache.context SharedCacheContext PointerState.

Record private_cache := mk_private {
  shared_cache_state : W;
  num_local_ppages_per_partition : Z;
  private_caches : list single_thread_cache;
}.

Definition fresh_caches (local : Z) : list single_thread_cache :=
  (λ i, SharedSingleThreadCache.init 0 (num_blocks partitioner i) local) <$> seqZ 0 (num_partitions partitioner).

(** [local] is the number of pages per partition, a product with a [double]
    ratio in the code. *)
Definition create (w : W) (local : Z) : private_cache := mk_private w local (fresh_caches local).

Definition actual_num_ppages_per_thread (c : private_cache) : Z :=
  w64 (num_local_ppages_per_partition c * num_partitions partitioner).

Definition run (c : private_cache) (pid : Z) (x : context_type) : result (private_cache * context_type) :=
  st ← aread (private_caches c) pid;
  '(s, x) ← SharedSingleThreadCache.process pid 0 evict_func load_func (mk_sys (shared_cache_state c) st) x;
  cs ← awrite (private_caches c) pid (the_cache s);
  Ok (mk_private (world s) (num_local_ppages_per_partition c) cs, x).

Definition is_end (x : context_type) : bool := match c_phase x with End_ => true | _ => false end.

(** [while (ret.phase != End) cache.process(ret);] *)
Fixpoint finish (n : nat) (c : private_cache) (pid : Z) (x : context_type) : result (private_cache * context_type) :=
  if is_end x then Ok (c, x)
  else match n with
       | O => Err OutOfFuel
       | S n' => '(c, x) ← run c pid x; finish n' c pid x
       end.

Definition no_context (pid : Z) : context_type :=
  mk_context KPin Begin false false false false 0 0 0 0 None None no_pte None None pid.

Definition MAX_RETRY : Z := Z.shiftl 1 30.

(** The retry loop of [pin]; [fuel] bounds both loops. *)
Fixpoint pin_loop (n fuel : nat) (c : private_cache) (pid block retry_loops : Z) : result (private_cache * Z) :=
  match n with
  | O => Err OutOfFuel
  | S n' =>
      '(c, x) ← run c pid (pin_context (no_context pid) block);
      '(c, x) ← finish fuel c pid x;
      if MAX_RETRY <? retry_loops + 1 then Err (Throw "oom")
      else if c_ppage_id x =? NO_PPAGE then pin_loop n' fuel c pid block (retry_loops + 1)
      else
        match c_external_state x with
        | None => Err Undefined
        | Some p =>
            st ← aread (private_caches c) pid;
            f ← aread (states st) p;
            Ok (c, s_external f)
        end
  end.

Definition pin (fuel : nat) (c : private_cache) (vpage_id : Z) : result (private_cache * Z) :=
  _ ← ensure (vpage_id <? shared_num_vpages) "Virtual Page ID Error";
  let '(pid, block) := locate partitioner vpage_id in
  pin_loop fuel fuel c pid block 0.

Definition unpin (fuel : nat) (c : private_cache) (vpage_id : Z) (is_write : bool) : result private_cache :=
  _ ← ensure (vpage_id <? shared_num_vpages) "Virtual Page ID Error";
  let '(pid, block) := locate partitioner vpage_id in
  '(c, x) ← run c pid (unpin_context (no_context pid) block is_write);
  '(c, _) ← finish fuel c pid x;
  Ok c.

(** [flush]: every cache is flushed, the messages are waited for, and the caches
    are built anew. *)
Fixpoint flush_all (rounds : nat) (w : W) (pid : Z) (cs : list single_thread_cache) : result W :=
  match cs with
  | [] => Ok w
  | st :: cs' =>
      s ← SharedSingleThreadCache.flush pid 0 evict_func rounds (mk_sys w st);
      flush_all rounds (world s) (pid + 1) cs'
  end.

Definition flush (rounds : nat) (c : private_cache) : result private_cache :=
  w ← flush_all rounds (shared_cache_state c) 0 (private_caches c);
  w ← shared_wait w;
  Ok (mk_private w (num_local_ppages_per_partition c) (fresh_caches (num_local_ppages_per_partition c))).
End private_cache.
Arguments private_cache : clear implicits.
