(* ===== verification/IntegratedCache.v ===== *)
(** * The integrated cache

    [class IntegratedCache] of [include/integrated_cache.hpp]: the shared cache
    with, for every thread, a private cache over it and a direct cache over
    that, both created at their first use.  This is the default build, in which
    neither of them is disabled. *)
From S2P Require Import Prelude Util SharedSingleThreadCache DirectCache PrivateCache.
From stdpp Require Import gmap.

Open Scope Z_scope.

Definition MAX_CACHES : Z := 1.

(** [get_cache_id]: the counter of the caches created so far. *)
Definition get_cache_id (global_cache_id : Z) : Z * result Z :=
  (w64 (global_cache_id + 1),
   if MAX_CACHES <=? global_cache_id then Err (Throw "Not support more caches") else Ok global_cache_id).

Section integrated.
Context {W : Type} `{SharedInterface W}.
(** The shared cache's partitioner and page count, the size of the address
    space, the private pages per partition, and bounds on the loops. *)
Context (partitioner : RoundRobinPartitioner) (num_vpages virt_size local : Z) (fuel : nat).

(** The state of one thread. *)
Record thread := mk_thread {
  shared_cache_of : W;
  thread_private : option (list single_thread_cache);
  thread_direct : option direct_cache;
}.

(** [get_private_cache]. *)
Definition get_private_cache (t : thread) : private_cache W :=
  match thread_private t with
  | Some cs => mk_private (shared_cache_of t) local cs
  | None => PrivateCache.create partitioner (shared_cache_of t) local
  end.

Definition put_private (t : thread) (c : private_cache W) : thread :=
  mk_thread (shared_cache_state c) (Some (private_caches c)) (thread_direct t).

(** The private cache as the direct cache sees it. *)
#[local] Instance private_pin_cache : PinCache (private_cache W) := {|
  cache_pin c v := PrivateCache.pin partitioner num_vpages fuel c v;
  cache_unpin c v is_write := PrivateCache.unpin partitioner num_vpages fuel c v is_write;
|}.

(** [get_direct_cache]. *)
Definition get_direct_cache (t : thread) (c : private_cache W) : direct_cache :=
  match thread_direct t with
  | Some d => d
  | None => DirectCache.create (actual_num_ppages_per_thread partitioner c)
  end.

Definition access (t : thread) (vpage_id : Z) (is_write : bool) : thread * result Z :=
  let c := get_private_cache t in
  let '(d, c, r) := DirectCache.access (get_direct_cache t c) c vpage_id is_write in
  (mk_thread (shared_cache_state c) (Some (private_caches c)) (Some d), r).

Definition pin (t : thread) (vpage_id : Z) : result (thread * Z) :=
  '(c, p) ← PrivateCache.pin partitioner num_vpages fuel (get_private_cache t) vpage_id;
  Ok (put_private t c, p).

Definition unpin (t : thread) (vpage_id : Z) (is_write : bool) : result thread :=
  c ← PrivateCache.unpin partitioner num_vpages fuel (get_private_cache t) vpage_id is_write;
  Ok (put_private t c).

Definition integrated_shared_pin (t : thread) (vpage_id : Z) : result (thread * Z) :=
  '(w, p) ← shared_pin (shared_cache_of t) vpage_id;
  Ok (mk_thread w (thread_private t) (thread_direct t), p).

Definition integrated_shared_unpin (t : thread) (vpage_id : Z) (is_write : bool) : result thread :=
  w ← shared_unpin (shared_cache_of t) vpage_id is_write;
  Ok (mk_thread w (thread_private t) (thread_direct t)).

Definition size : Z := virt_size.

(** [flush]: the direct cache first, since its pins are pins of the private one;
    both are deleted. *)
Definition flush (rounds : nat) (t : thread) : result thread :=
  t ← match thread_direct t with
      | Some d =>
          '(_, c) ← DirectCache.flush d (get_private_cache t);
          Ok (mk_thread (shared_cache_state c) (Some (private_caches c)) None)
      | None => Ok t
      end;
  match thread_private t with
  | Some cs =>
      c ← PrivateCache.flush partitioner rounds (mk_private (shared_cache_of t) local cs);
      Ok (mk_thread (shared_cache_state c) None None)
  | None => Ok t
  end.
End integrated.
Arguments thread : clear implicits.
