(* ===== verification/CachedPtr.v ===== *)
(** * Pointers into the cached address space

    [class CachedPtr] of [include/cached_ptr.hpp]: a cache and a byte offset,
    with the arithmetic of a raw pointer; dereferencing goes through the cache.
    [Space] is what the pointers use of the cache; [Frames] is the part of it
    every layer of the cache has, and the memory of the process its pages live
    in. *)
From S2P Require Import Prelude Util.
From stdpp Require Import gmap.

Open Scope Z_scope.

Class Frames (W : Type) := {
  sp_pin : W → Z → result (W * Z);
  sp_unpin : W → Z → bool → result W;
  sp_shared_pin : W → Z → result (W * Z);
  sp_shared_unpin : W → Z → bool → result W;
  raw_load : W → Z → Z;
  raw_store : W → Z → Z → W;
}.

Class Space (W : Type) := {
  sp_frames :: Frames W;
  sp_access : W → Z → bool → result (W * Z);
  sp_flush : W → result W;
}.

Definition NULL_OFFSET : Z := MAX64.

(** [cache] is the address of the cache, [None] the null pointer. *)
Record cached_ptr := mk_ptr { cache : option Z; offset : Z }.

#[export] Instance cached_ptr_eq_dec : EqDecision cached_ptr.
Proof. solve_decision. Defined.

Definition null_ptr : cached_ptr := mk_ptr None NULL_OFFSET.
Definition is_null (p : cached_ptr) : bool := bool_decide (cache p = None) || (offset p =? NULL_OFFSET).
Definition page_id (offset : Z) : Z := Z.shiftr offset CACHE_PAGE_BITS.
Definition in_page (offset : Z) : Z := Z.land offset CACHE_PAGE_MASK.

(** The template arguments: [sizeof(PointedType)] and whether it is [const]. *)
Section pointers.
Context (element_size : Z) (is_const : bool).
Implicit Types (p q : cached_ptr).

Definition add p (diff : Z) : cached_ptr := mk_ptr (cache p) (w64 (offset p + diff * element_size)).
Definition sub p (diff : Z) : cached_ptr := mk_ptr (cache p) (w64 (offset p - diff * element_size)).
Definition incr p : cached_ptr := mk_ptr (cache p) (w64 (offset p + element_size)).
Definition decr p : cached_ptr := mk_ptr (cache p) (w64 (offset p - element_size)).
(** [operator-(difference_type, CachedPtr)]. *)
Definition sub_from (diff : Z) p : cached_ptr := sub p diff.

(** The distance of two pointers: signed arithmetic, the division truncates. *)
Definition distance p q : Z := Z.quot (to_int64 (offset p) - to_int64 (offset q)) element_size.

Definition ptr_eq p q : bool :=
  (offset p =? NULL_OFFSET) && (offset q =? NULL_OFFSET) || bool_decide (cache p = cache q) && (offset p =? offset q).
Definition ptr_lt p q : bool := bool_decide (cache p = cache q) && (offset p <? offset q).
Definition ptr_gt p q : bool := bool_decide (cache p = cache q) && (offset q <? offset p).
Definition ptr_le p q : bool := ptr_lt p q || ptr_eq p q.
Definition ptr_ge p q : bool := ptr_gt p q || ptr_eq p q.

Definition page_offset p : Z := if is_null p then 0 else in_page (offset p).

Section access.
Context {W : Type} `{Space W}.

(** [get]: a raw pointer, 0 for a null pointer. *)
Definition get (w : W) p : result (W * Z) :=
  if is_null p then Ok (w, 0)
  else '(w, ptr) ← sp_access w (page_id (offset p)) (negb is_const); Ok (w, w64 (ptr + in_page (offset p))).

(** [operator[]], without the test for null. *)
Definition index (w : W) p (diff : Z) : result (W * Z) :=
  let tmp_off := w64 (offset p + diff * element_size) in
  '(w, ptr) ← sp_access w (page_id tmp_off) (negb is_const);
  Ok (w, w64 (ptr + in_page tmp_off)).

Definition pin (w : W) p : result (W * Z) :=
  if is_null p then Ok (w, 0)
  else '(w, ptr) ← sp_pin w (page_id (offset p)); Ok (w, w64 (ptr + in_page (offset p))).

Definition unpin (w : W) p (is_write : bool) : result W :=
  if is_null p then Ok w else sp_unpin w (page_id (offset p)) is_write.

(** The pointer of [shared_pin] is the page's, not the element's. *)
Definition shared_pin (w : W) p : result (W * Z) :=
  if is_null p then Ok (w, 0) else sp_shared_pin w (page_id (offset p)).

Definition shared_unpin (w : W) p (is_write : bool) : result W :=
  if is_null p then Ok w else sp_shared_unpin w (page_id (offset p)) is_write.

Definition flush (w : W) p : result W := sp_flush w.

(** Reading and writing a byte through [*p]; a null pointer faults. *)
Definition load (w : W) p : result (W * Z) :=
  '(w, a) ← get w p;
  if a =? 0 then Err Undefined else Ok (w, raw_load w a).
Definition store (w : W) p (x : Z) : result W :=
  '(w, a) ← get w p;
  if a =? 0 then Err Undefined else Ok (raw_store w a x).
End access.
End pointers.

(** ** Pointer arithmetic *)
Section arithmetic.
Context (es : Z) (Hes : 0 < es).
Implicit Types (p q : cached_ptr).

Definition ptr_ok p : Prop := 0 ≤ offset p < 2 ^ 63.

(** Inside the address space the pointers behave like raw pointers: moving
    by a distance and back is the identity, the distance of two pointers of one
    array is the number of elements between them, and the order is that of the
    offsets. *)
Theorem pointer_arithmetic p q n : ptr_ok p → ptr_ok q → 0 ≤ offset p + n * es < 2 ^ 63 → cache p = cache q →
  sub es (add es p n) n = p ∧ distance es (add es p n) p = n ∧
  offset (add es p n) = offset p + n * es ∧ add es p 1 = incr es p ∧
  (ptr_lt p q = true ∨ ptr_eq p q = true ∨ ptr_gt p q = true) ∧
  (ptr_lt p q = true ↔ offset p < offset q) ∧ (ptr_eq p q = true ↔ p = q).
Proof.
  intros Hp Hq Hn Hc. unfold ptr_ok in *. destruct p as [cp op], q as [cq oq]. simpl in *. subst cq.
  unfold sub, add, incr, distance, ptr_lt, ptr_eq, ptr_gt, NULL_OFFSET, MAX64. simpl.
  rewrite (w64_small (op + n * es)) by lia. rewrite (bool_decide_true (cp = cp)) by done.
  split; [f_equal; rewrite w64_small by lia; lia|].
  split; [rewrite !to_int64_small by lia; replace (op + n * es - op) with (n * es) by lia; apply Z.quot_mul; lia|].
  split; [done|]. split; [by rewrite Z.mul_1_l|]. simpl.
  rewrite (proj2 (Z.eqb_neq op _)) by lia. rewrite (proj2 (Z.eqb_neq oq _)) by lia. simpl.
  rewrite !Z.ltb_lt, !Z.eqb_eq. split; [lia|]. split; [done|]. split; [by intros ->|by intros [=]].
Qed.

(** The page and the place in it determine the offset. *)
Theorem offset_split o : 0 ≤ o → o = page_id o * CACHE_PAGE_SIZE + in_page o ∧ 0 ≤ in_page o < CACHE_PAGE_SIZE.
Proof.
  intros Ho. unfold page_id, in_page. rewrite page_id_div, page_offset_mod.
  assert (0 < CACHE_PAGE_SIZE) by done. pose proof (Z_div_mod_eq_full o CACHE_PAGE_SIZE).
  pose proof (Z.mod_pos_bound o CACHE_PAGE_SIZE). lia.
Qed.
End arithmetic.

Lemma pointer_arithmetic_witness : distance 8 (add 8 (mk_ptr (Some 1) 800) (-3)) (mk_ptr (Some 1) 800) = -3.
Proof.
  destruct (pointer_arithmetic 8 ltac:(lia) (mk_ptr (Some 1) 800) (mk_ptr (Some 1) 800) (-3)) as (_ & H & _);
    [done|done|done|done|exact H].
Defined.

Lemma offset_split_witness : 10000 = page_id 10000 * CACHE_PAGE_SIZE + in_page 10000.
Proof. apply (offset_split 10000). lia. Defined.
