(* ===== verification/SpaceSpec.v ===== *)
(** * What the caches promise

    [PinSpec]: pinned pages have frames that hold their bytes, and storing there
    changes those bytes; a page that was stored to is unpinned as written, or has
    other pins.  [SpaceSpec]: moreover the pointer of an access may be used until
    the next call.  The binding is proved against [SpaceSpec] ([BindSpec.v]); the
    private cache gives a [PinSpec] on top of another one ([PrivateCacheSpec.v]),
    and the direct cache a [SpaceSpec] on top of a [PinSpec]
    ([DirectCacheSpec.v]). *)
From S2P Require Import Prelude Util CachedPtr.
From stdpp Require Import gmap list.

Open Scope Z_scope.

Abbreviation PAGE := CACHE_PAGE_SIZE.

(** The pins of a page, and one pin of page [v]. *)
Definition pin_count (x : gmap Z (Z * Z)) (v : Z) : Z := default 0 (snd <$> x !! v).
Definition one (v v' : Z) : Z := if decide (v' = v) then 1 else 0.

(** ** The interface *)
Class PinSpec (W : Type) `{Frames W} := {
  sp_inv : W → Prop;
  (** the pages of the space, and the contents of the space by offset *)
  sp_pages : Z;
  sp_bytes : W → Z → Z;
  (** the pinned pages, with their frame and number of pins; those stored to *)
  sp_held : W → gmap Z (Z * Z);
  sp_written : W → gset Z;
  (** the program's own memory *)
  sp_plain : Z → Prop;
  (** the numbers of pins per page for which there are frames *)
  sp_fits : (Z → Z) → Prop;
  sp_fits_le x y : sp_fits x → (∀ v, y v ≤ x v) → sp_fits y;
  sp_size : 0 ≤ sp_pages ∧ sp_pages * PAGE ≤ 2 ^ 62;
  sp_held_law w v a k : sp_inv w → sp_held w !! v = Some (a, k) →
    0 < k ∧ 0 ≤ v < sp_pages ∧ 0 < a ∧ a + PAGE ≤ 2 ^ 64 ∧
    ∀ o, 0 ≤ o < PAGE → raw_load w (a + o) = sp_bytes w (v * PAGE + o);
  sp_written_law w v : sp_inv w → v ∈ sp_written w → sp_held w !! v ≠ None;
  sp_pin_law w v : sp_inv w → 0 ≤ v < sp_pages → sp_fits (λ u, pin_count (sp_held w) u + one v u) → ∃ w' a, sp_pin w v = Ok (w', a) ∧ sp_inv w' ∧
    sp_held w' = <[v := (a, default 0 (snd <$> sp_held w !! v) + 1)]> (sp_held w) ∧
    (∀ a' k, sp_held w !! v = Some (a', k) → a' = a) ∧ sp_written w' = sp_written w ∧
    (∀ o, sp_bytes w' o = sp_bytes w o) ∧ (∀ x, sp_plain x → raw_load w' x = raw_load w x);
  sp_pin_out w v : sp_inv w → sp_pages ≤ v → ∃ msg, sp_pin w v = Err (Throw msg);
  sp_unpin_law w v a k (is_write : bool) : sp_inv w → sp_held w !! v = Some (a, k) →
    is_write = true ∨ v ∉ sp_written w ∨ 1 < k → ∃ w', sp_unpin w v is_write = Ok w' ∧ sp_inv w' ∧
    sp_held w' = (if k =? 1 then delete v (sp_held w) else <[v := (a, k - 1)]> (sp_held w)) ∧
    sp_written w' = (if is_write || (k =? 1) then sp_written w ∖ {[v]} else sp_written w) ∧
    (∀ o, sp_bytes w' o = sp_bytes w o) ∧ (∀ x, sp_plain x → raw_load w' x = raw_load w x);
  sp_store_plain w x y : sp_inv w → sp_plain x → let w' := raw_store w x y in
    sp_inv w' ∧ sp_held w' = sp_held w ∧ sp_written w' = sp_written w ∧ (∀ o, sp_bytes w' o = sp_bytes w o) ∧
    (∀ z, sp_plain z → raw_load w' z = if decide (z = x) then y else raw_load w z);
  sp_store_frame w v a k o y : sp_inv w → sp_held w !! v = Some (a, k) → 0 ≤ o < PAGE → let w' := raw_store w (a + o) y in
    sp_inv w' ∧ sp_held w' = sp_held w ∧ sp_written w' ⊆ {[v]} ∪ sp_written w ∧
    (∀ o', sp_bytes w' o' = if decide (o' = v * PAGE + o) then y else sp_bytes w o') ∧
    (∀ z, sp_plain z → raw_load w' z = raw_load w z);
}.

(** The contents of the space and the program's own memory are as before. *)
Definition unchanged {W : Type} `{PinSpec W} (w w' : W) : Prop :=
  (∀ o, sp_bytes w' o = sp_bytes w o) ∧ ∀ x, sp_plain x → raw_load w' x = raw_load w x.

Lemma unchanged_refl {W : Type} `{PinSpec W} (w : W) : unchanged w w.
Proof. done. Qed.

Lemma unchanged_trans {W : Type} `{PinSpec W} (w w' w'' : W) : unchanged w w' → unchanged w' w'' → unchanged w w''.
Proof. intros [Hb Hp] [Hb' Hp']. split; [intros o; by rewrite Hb', Hb|intros x Hx; by rewrite Hp', Hp]. Qed.

(** An access: the page may be read, or written, until the next call. *)
Class SpaceSpec (W : Type) `{Space W} := {
  sp_pin_spec :: PinSpec W;
  sp_access_law (w : W) v (is_write : bool) : sp_inv w → 0 ≤ v < sp_pages → ∃ w' f, sp_access w v is_write = Ok (w', f) ∧ sp_inv w' ∧
    sp_held w' = sp_held w ∧ (∀ o, sp_bytes w' o = sp_bytes w o) ∧
    (∀ x, sp_plain x → raw_load w' x = raw_load w x) ∧ 0 < f ∧ f + PAGE ≤ 2 ^ 64 ∧
    (∀ o, 0 ≤ o < PAGE → raw_load w' (f + o) = sp_bytes w (v * PAGE + o)) ∧
    (is_write = true → ∀ o y, 0 ≤ o < PAGE → let w'' := raw_store w' (f + o) y in
      sp_inv w'' ∧ sp_held w'' = sp_held w ∧
      (∀ o', sp_bytes w'' o' = if decide (o' = v * PAGE + o) then y else sp_bytes w o') ∧
      (∀ x, sp_plain x → raw_load w'' x = raw_load w x));
}.

(** ** A flat space

    Four pages that always have their frame; the program's memory is below. *)
Module Flat.
Record flat := mk_flat { fl_mem : Z → Z; fl_held : gmap Z (Z * Z); fl_written : gset Z }.

Definition base : Z := 2 ^ 20.
Definition frame_of (v : Z) : Z := base + v * PAGE.
Definition out {A} : result A := Err (Throw "Virtual Page ID Error").
Definition known (v : Z) : bool := (0 <=? v) && (v <? 4).

Definition fl_access (w : flat) (v : Z) (_ : bool) : result (flat * Z) := if known v then Ok (w, frame_of v) else out.
Definition fl_pin (w : flat) (v : Z) : result (flat * Z) :=
  if known v then Ok (mk_flat (fl_mem w) (<[v := (frame_of v, default 0 (snd <$> fl_held w !! v) + 1)]> (fl_held w)) (fl_written w), frame_of v)
  else out.
Definition fl_unpin (w : flat) (v : Z) (is_write : bool) : result flat :=
  match fl_held w !! v with
  | None => Err Undefined
  | Some (a, k) =>
      Ok (mk_flat (fl_mem w) (if k =? 1 then delete v (fl_held w) else <[v := (a, k - 1)]> (fl_held w))
            (if is_write || (k =? 1) then fl_written w ∖ {[v]} else fl_written w))
  end.
Definition fl_store (w : flat) (x y : Z) : flat :=
  let v := (x - base) / PAGE in
  mk_flat (λ z, if decide (z = x) then y else fl_mem w z) (fl_held w)
    (if decide (fl_held w !! v = None) then fl_written w else {[v]} ∪ fl_written w).

#[export] Instance flat_frames : Frames flat := {|
  sp_pin := fl_pin; sp_unpin := fl_unpin; sp_shared_pin := fl_pin; sp_shared_unpin := fl_unpin;
  raw_load w := fl_mem w; raw_store := fl_store |}.
#[export] Instance flat_space : Space flat := {| sp_frames := flat_frames; sp_access := fl_access; sp_flush w := Ok w |}.

Definition fl_inv (w : flat) : Prop :=
  (∀ v a k, fl_held w !! v = Some (a, k) → 0 < k ∧ 0 ≤ v < 4 ∧ a = frame_of v) ∧ (∀ v, v ∈ fl_written w → fl_held w !! v ≠ None).

(** The contents by offset. *)
Definition fl_bytes (w : flat) (o : Z) : Z := if decide (0 ≤ o) then fl_mem w (base + o) else 0.

Lemma fl_bytes_frame w v o : 0 ≤ v → 0 ≤ o → fl_mem w (frame_of v + o) = fl_bytes w (v * PAGE + o).
Proof. intros. pose proof CACHE_PAGE_SIZE_eq. unfold fl_bytes, frame_of. rewrite decide_True by lia. f_equal. lia. Qed.

Lemma known_true v : 0 ≤ v < 4 → known v = true.
Proof. intros Hv. unfold known. by rewrite (proj2 (Z.leb_le _ _)), (proj2 (Z.ltb_lt _ _)) by lia. Qed.

Lemma page_of_frame v o : 0 ≤ o < PAGE → (frame_of v + o - base) / PAGE = v.
Proof. intros Ho. unfold frame_of. symmetry. apply (Z.div_unique_pos _ _ _ o); [done|]. lia. Qed.

Lemma below_no_page w x : fl_inv w → x < base → fl_held w !! ((x - base) / PAGE) = None.
Proof.
  intros [Hh _] Hx. destruct (fl_held w !! _) as [[a k]|] eqn:E; [|done]. apply Hh in E as (_ & [Hv _] & _). exfalso.
  assert ((x - base) / PAGE < 0); [|lia]. apply Z.div_lt_upper_bound; [done|]. lia.
Qed.

Lemma fl_store_inv w x y : fl_inv w → fl_inv (fl_store w x y).
Proof.
  intros [Hh Hw]. split; [done|]. intros v. cbn [fl_store fl_held fl_written]. case_decide as Hc; [apply Hw|].
  intros [->%elem_of_singleton|Hv]%elem_of_union; [done|by apply Hw].
Qed.

#[export] Program Instance flat_pin_spec : PinSpec flat := {|
  sp_inv := fl_inv; sp_pages := 4; sp_bytes := fl_bytes; sp_held := fl_held; sp_written := fl_written;
  sp_plain x := 0 < x < base; sp_fits _ := True |}.
Next Obligation. done. Qed.
Next Obligation. done. Qed.
Next Obligation.
  intros w v a k Hi E. destruct (proj1 Hi v a k E) as (? & ? & ->). pose proof CACHE_PAGE_SIZE_eq. unfold frame_of, base.
  split_and!; try lia. intros o Ho. apply fl_bytes_frame; lia.
Qed.
Next Obligation. intros w v Hi. apply Hi. Qed.
Next Obligation.
  intros w v Hi Hv _. cbn [sp_pin flat_frames]. unfold fl_pin. rewrite known_true by done. eexists _, _. split; [done|]. cbn [fl_held fl_written fl_mem].
  split; [|split_and!; try done; intros a k E; by destruct (proj1 Hi v a k E) as (_ & _ & ->)]. split; cbn [fl_held fl_written].
  - intros v' a k. destruct (decide (v' = v)) as [->|]; [rewrite lookup_insert_eq|rewrite lookup_insert_ne by done; apply Hi].
    intros [= <- <-]. split; [|done]. destruct (fl_held w !! v) as [[a k]|] eqn:E; simpl; [|lia]. destruct (proj1 Hi v a k E). lia.
  - intros v' Hv'. apply Hi in Hv'. destruct (decide (v' = v)) as [->|]; [by rewrite lookup_insert_eq|by rewrite lookup_insert_ne].
Qed.
Next Obligation.
  intros w v Hi Hv. cbn [sp_pin flat_frames]. unfold fl_pin, known. rewrite (proj2 (Z.ltb_ge _ _)), andb_false_r by lia. by eexists.
Qed.
Next Obligation.
  intros w v a k is_write Hi E Hw. cbn [sp_unpin flat_frames]. unfold fl_unpin. rewrite E. eexists. split; [done|]. cbn [fl_held fl_written fl_mem].
  split; [|split_and!; done]. destruct (proj1 Hi v a k E) as (Hk & Hv & Ha). split; cbn [fl_held fl_written].
  - intros v' a' k'. destruct (Z.eqb_spec k 1).
    + intros [_ E']%lookup_delete_Some. by apply Hi.
    + destruct (decide (v' = v)) as [->|]; [rewrite lookup_insert_eq|rewrite lookup_insert_ne by done; apply Hi]. intros [= <- <-]. split; [lia|done].
  - intros v' Hv'. destruct (decide (v' = v)) as [->|Hne].
    + destruct (Z.eqb_spec k 1); [rewrite orb_true_r in Hv'; set_solver|by rewrite lookup_insert_eq].
    + assert (v' ∈ fl_written w) as Hin by (destruct (is_write || (k =? 1)); set_solver). apply Hi in Hin.
      destruct (k =? 1); [by rewrite lookup_delete_ne|by rewrite lookup_insert_ne].
Qed.
Next Obligation.
  intros w x y Hi Hx. cbn zeta. destruct Hx as [Hx0 Hx]. cbn [raw_store raw_load sp_frames flat_space flat_frames]. split; [by apply fl_store_inv|]. split; [done|]. cbn [fl_store fl_mem fl_written].
  split; [by rewrite decide_True by (apply below_no_page; [done|lia])|]. split; [|done].
  intros o. unfold fl_bytes. cbn [fl_store fl_mem]. unfold base in *. repeat case_decide; done || (exfalso; lia).
Qed.
Next Obligation.
  intros w v a k o y Hi E Ho. destruct (proj1 Hi v a k E) as (Hk & Hv & ->). cbn zeta. cbn [raw_store raw_load sp_frames flat_space flat_frames]. split; [by apply fl_store_inv|].
  split; [done|]. cbn [fl_store fl_mem fl_written]. rewrite page_of_frame, E by done. split; [by rewrite decide_False|]. unfold fl_bytes, frame_of, base. cbn [fl_store fl_mem].
  pose proof CACHE_PAGE_SIZE_eq. split; [intros o'|intros z [? ?]]; repeat case_decide; try done; unfold base in *; lia.
Qed.

Definition flat_init (mem : Z → Z) : flat := mk_flat mem ∅ ∅.

Lemma flat_init_inv mem : fl_inv (flat_init mem).
Proof. split; intros v; cbn [flat_init fl_held fl_written]; [|set_solver]. intros a k E. by rewrite lookup_empty in E. Qed.

Definition counting : flat := flat_init (λ a, a mod 251).

Lemma counting_inv : sp_inv counting.
Proof. apply flat_init_inv. Qed.

#[export] Program Instance flat_spec : SpaceSpec flat := {| sp_pin_spec := flat_pin_spec |}.
Next Obligation.
  intros w v is_write Hi Hv. change (0 ≤ v < 4) in Hv. cbn [sp_access flat_space]. unfold fl_access. rewrite known_true by done. eexists _, _. split; [done|].
  pose proof CACHE_PAGE_SIZE_eq. split; [done|]. do 3 (split; [done|]). split; [unfold frame_of, base; lia|]. split; [unfold frame_of, base; lia|].
  split; [intros o Ho; apply fl_bytes_frame; lia|]. intros _ o y Ho. cbn zeta. cbn [raw_store raw_load sp_frames flat_space flat_frames].
  split; [by apply fl_store_inv|]. split; [done|]. cbn [sp_bytes sp_plain flat_pin_spec]. unfold fl_bytes, frame_of, base. cbn [fl_store fl_mem].
  split; [intros o'|intros z [? ?]]; repeat case_decide; try done; lia.
Qed.
End Flat.
