(* ===== verification/CachedAllocator.v ===== *)
(** * The allocators

    [class InternalCachedAllocator] of [include/cached_allocator.hpp] and
    [class InternalMMapAllocator] of [include/mmap_allocator.hpp]: blocks of a
    power of two, from free lists per size (the smaller ones per thread) or from
    the end of the used space.  The two differ in the smallest block. *)
From S2P Require Import Prelude Util CachedPtr.
From stdpp Require Import gmap list.

Open Scope Z_scope.

Definition MAX_ORDER : Z := 64.
Definition LARGE_BLOCK_ORDER_THRESHOLD : Z := 20.

(** [while (size > 1) { order += 1; size >>= 1; }] *)
Fixpoint order_loop (fuel : nat) (size order : Z) : result Z :=
  if 1 <? size then
    match fuel with
    | O => Err OutOfFuel
    | S fuel' => order_loop fuel' (Z.shiftr size 1) (order + 1)
    end
  else Ok order.

(** [size_to_order] of the mmap allocator; a size of 0 gives [size - 1] all ones. *)
Definition mmap_size_to_order (size : Z) : result Z :=
  order_loop 64 size (Z.b2z (negb (Z.land size (w64 (size - 1)) =? 0))).

(** The cached allocator hands out whole pages. *)
Definition size_to_order (size : Z) : result Z := mmap_size_to_order (Z.max CACHE_PAGE_SIZE size).

Section allocator.
Context (to_order : Z → result Z).

Definition recycle_type := list (list Z).

(** [free_blocks] is thread specific and created at the first use. *)
Record allocator := mk_alloc {
  total_size : Z;
  base_offset : Z;
  free_blocks : gmap Z recycle_type;
  large_free_blocks : recycle_type;
  used_size : Z;
}.

Definition create (total base : Z) : allocator :=
  mk_alloc total base ∅ (replicate (Z.to_nat MAX_ORDER) []) 0.

(** The last offset of the list, [None] for [NULL_OFFSET]. *)
Definition pop (free_block : recycle_type) (order : Z) : result (recycle_type * option Z) :=
  l ← aread free_block order;
  match vec_pop l with
  | Some (l', offset) => fb ← awrite free_block order l'; Ok (fb, Some offset)
  | None => Ok (free_block, None)
  end.

Definition push (free_block : recycle_type) (order offset : Z) : result recycle_type :=
  l ← aread free_block order; awrite free_block order (l ++ [offset]).

Definition get_private_free_blocks (a : allocator) (thread : Z) : recycle_type :=
  default (replicate (Z.to_nat LARGE_BLOCK_ORDER_THRESHOLD) []) (free_blocks a !! thread).

Definition with_private (a : allocator) (thread : Z) (r : recycle_type) : allocator :=
  mk_alloc (total_size a) (base_offset a) (<[thread := r]> (free_blocks a)) (large_free_blocks a) (used_size a).
Definition with_large (a : allocator) (r : recycle_type) : allocator :=
  mk_alloc (total_size a) (base_offset a) (free_blocks a) r (used_size a).
Definition with_used (a : allocator) (u : Z) : allocator :=
  mk_alloc (total_size a) (base_offset a) (free_blocks a) (large_free_blocks a) u.

Definition take_free (a : allocator) (thread order : Z) : result (allocator * option Z) :=
  if order <? LARGE_BLOCK_ORDER_THRESHOLD then
    '(r, o) ← pop (get_private_free_blocks a thread) order; Ok (with_private a thread r, o)
  else '(r, o) ← pop (large_free_blocks a) order; Ok (with_large a r, o).

(** The new block: [fetch_add], and [fetch_sub] when there is no space left. *)
Definition bump (a : allocator) (order : Z) : allocator * result Z :=
  let block_size := w64 (Z.shiftl 1 order) in
  let offset := used_size a in
  let a := with_used a (w64 (used_size a + block_size)) in
  if total_size a <=? offset then (with_used a (w64 (used_size a - block_size)), Err (Throw "bad_alloc"))
  else (a, Ok (w64 (offset + base_offset a))).

(** [allocate]: [n] elements of [elem] bytes; the offset of the block. *)
Definition allocate (a : allocator) (thread n elem : Z) : result (allocator * result Z) :=
  order ← to_order (w64 (n * elem));
  '(a, o) ← take_free a thread order;
  match o with
  | Some offset => Ok (a, Ok offset)
  | None => Ok (bump a order)
  end.

Definition deallocate (a : allocator) (thread offset n elem : Z) : result allocator :=
  order ← to_order (w64 (n * elem));
  if order <? LARGE_BLOCK_ORDER_THRESHOLD then
    r ← push (get_private_free_blocks a thread) order offset; Ok (with_private a thread r)
  else r ← push (large_free_blocks a) order offset; Ok (with_large a r).
End allocator.

(** [CachedAllocator::allocate]: a pointer into the cache; [MMapAllocator]'s is a
    raw pointer into its [pool]. *)
Definition cached_allocate (cache_addr : option Z) (a : allocator) (thread n elem : Z) : result (allocator * result cached_ptr) :=
  '(a, r) ← allocate size_to_order a thread n elem;
  Ok (a, o ← r; Ok (mk_ptr cache_addr o)).
Definition cached_deallocate (a : allocator) (thread : Z) (p : cached_ptr) (n elem : Z) : result allocator :=
  deallocate size_to_order a thread (offset p) n elem.
Definition mmap_allocate (pool : Z) (a : allocator) (thread n elem : Z) : result (allocator * result Z) :=
  '(a, r) ← allocate mmap_size_to_order a thread n elem;
  Ok (a, o ← r; Ok (pool + o)).
Definition mmap_deallocate (pool : Z) (a : allocator) (thread ptr n elem : Z) : result allocator :=
  deallocate mmap_size_to_order a thread (ptr - pool) n elem.

(** ** The order of a size *)
Lemma order_loop_spec fuel size order : 0 ≤ size → size < 2 ^ (Z.of_nat fuel + 1) →
  order_loop fuel size order = Ok (order + Z.log2 size).
Proof.
  revert size order. induction fuel as [|fuel IH]; intros size order H0 Hs; simpl.
  - change (2 ^ (Z.of_nat 0 + 1)) with 2 in Hs. rewrite (proj2 (Z.ltb_ge 1 size)) by lia.
    assert (size = 0 ∨ size = 1) as [->| ->] by lia; f_equal; simpl; lia.
  - destruct (Z.ltb_spec 1 size) as [Hlt|Hge].
    + rewrite IH; [| |].
      * rewrite Z.log2_shiftr by lia.
        pose proof (Z.log2_le_mono 2 size ltac:(lia)) as Hl. change (Z.log2 2) with 1 in Hl. f_equal. lia.
      * apply Z.shiftr_nonneg. lia.
      * rewrite Z.shiftr_div_pow2 by lia. change (2 ^ 1) with 2. apply Z.div_lt_upper_bound; [lia|]. replace (Z.of_nat (S fuel) + 1) with (1 + (Z.of_nat fuel + 1)) in Hs by lia.
        by rewrite Z.pow_add_r in Hs by lia.
    + assert (size = 0 ∨ size = 1) as [->| ->] by lia; f_equal; simpl; lia.
Qed.

Lemma land_pred_pow2 x : 0 < x → Z.land x (x - 1) = 0 ↔ x = 2 ^ Z.log2 x.
Proof.
  intros Hx. pose proof (Z.log2_spec x Hx) as [Hlo Hhi]. set (k := Z.log2 x) in *.
  pose proof (Z.log2_nonneg x) as Hk. fold k in Hk. split.
  - intros Hl. destruct (decide (x = 2 ^ k)) as [|Hne]; [done|exfalso].
    assert (Hb : Z.testbit (Z.land x (x - 1)) k = true).
    { rewrite Z.land_spec. apply andb_true_iff. rewrite !Z.testbit_true by lia. rewrite Z.pow_succ_r in Hhi by lia.
      assert (x / 2 ^ k = 1) as -> by (symmetry; apply Z.div_unique with (x - 2 ^ k); lia).
      assert ((x - 1) / 2 ^ k = 1) as -> by (symmetry; apply Z.div_unique with (x - 1 - 2 ^ k); lia). done. }
    by rewrite Hl, Z.bits_0 in Hb.
  - intros E. rewrite E. replace (2 ^ k - 1) with (Z.ones k) by (rewrite Z.ones_equiv; lia).
    rewrite Z.land_ones, Z.mod_same by lia. done.
Qed.

Lemma mmap_size_to_order_eq size : 0 < size < 2 ^ 64 → mmap_size_to_order size = Ok (Z.log2_up size).
Proof.
  intros Hs. unfold mmap_size_to_order. rewrite order_loop_spec by (simpl; lia). f_equal.
  rewrite w64_small by lia. pose proof (land_pred_pow2 size ltac:(lia)) as Hl.
  destruct (Z.eqb_spec (Z.land size (size - 1)) 0) as [E|E]; simpl.
  - apply Hl in E. rewrite E at 2. rewrite Z.log2_up_pow2 by apply Z.log2_nonneg. lia.
  - pose proof (Z.log2_spec size ltac:(lia)) as [Hlo Hhi].
    assert (size ≠ 2 ^ Z.log2 size) by (intros E'; apply E, Hl; done).
    pose proof (Z.log2_nonneg size). symmetry.
    replace (1 + Z.log2 size) with (Z.succ (Z.log2 size)) by lia.
    apply Z.log2_up_unique; [lia|]. rewrite Z.pred_succ. lia.
Qed.

Lemma size_to_order_eq size : 0 < size < 2 ^ 64 → size_to_order size = Ok (Z.log2_up (Z.max CACHE_PAGE_SIZE size)).
Proof.
  intros Hs. unfold size_to_order. apply mmap_size_to_order_eq.
  unfold CACHE_PAGE_SIZE, CACHE_PAGE_BITS. change (Z.shiftl 1 12) with 4096. lia.
Qed.

(** ** Blocks never overlap

    Every block ever cut off belongs to the program, to the free list of a
    thread or to the common one. *)
Inductive owner := Live | FreeOf (thread : Z) | FreeLarge.

Section blocks.
Context (to_order : Z → result Z).
Implicit Types (a : allocator) (bl : gmap Z (Z * owner)).

Definition free_list (r : recycle_type) (order : Z) bl (o : owner) : Prop :=
  ∃ l, zget r order = Some l ∧ NoDup l ∧ ∀ off, off ∈ l ↔ bl !! off = Some (order, o).

Record alloc_inv a bl : Prop := {
  al_private th k : 0 ≤ k < LARGE_BLOCK_ORDER_THRESHOLD →
    free_list (get_private_free_blocks a th) k bl (FreeOf th);
  al_large k : LARGE_BLOCK_ORDER_THRESHOLD ≤ k < MAX_ORDER → free_list (large_free_blocks a) k bl FreeLarge;
  al_owner off k o : bl !! off = Some (k, o) → 0 ≤ k < MAX_ORDER ∧
    match o with
    | Live => True
    | FreeOf _ => k < LARGE_BLOCK_ORDER_THRESHOLD
    | FreeLarge => LARGE_BLOCK_ORDER_THRESHOLD ≤ k
    end;
  al_range off k o : bl !! off = Some (k, o) → base_offset a ≤ off ∧ off + 2 ^ k ≤ base_offset a + used_size a;
  al_start off k o : bl !! off = Some (k, o) → off < base_offset a + total_size a;
  al_disjoint off k o off' k' o' : bl !! off = Some (k, o) → bl !! off' = Some (k', o') → off < off' → off + 2 ^ k ≤ off';
  al_space : 0 ≤ base_offset a ∧ 0 ≤ total_size a ∧ base_offset a + total_size a ≤ 2 ^ 63;
  al_used : 0 ≤ used_size a < 2 ^ 64;
}.

Lemma create_inv total base : 0 ≤ base → 0 ≤ total → base + total ≤ 2 ^ 63 → alloc_inv (create total base) ∅.
Proof.
  intros Hb Ht Hs. split; try done; try (intros; by rewrite lookup_empty in *).
  - intros th k Hk. exists []. unfold get_private_free_blocks. simpl. rewrite lookup_empty. simpl. split.
    + apply (zget_replicate 20 (@nil Z)). unfold LARGE_BLOCK_ORDER_THRESHOLD in Hk. lia.
    + split; [constructor|]. intros off. rewrite elem_of_nil, lookup_empty. done.
  - intros k Hk. exists []. split.
    + apply (zget_replicate 64 (@nil Z)). unfold LARGE_BLOCK_ORDER_THRESHOLD, MAX_ORDER in Hk. lia.
    + split; [constructor|]. intros off. rewrite elem_of_nil, lookup_empty. done.
Qed.

(** Taking the last block of a free list. *)
Lemma pop_spec r k bl o : free_list r k bl o →
  (pop r k = Ok (r, None)) ∨
  ∃ r' off, pop r k = Ok (r', Some off) ∧ bl !! off = Some (k, o) ∧
    (∀ o', o' ≠ o → free_list r' k (<[off := (k, o')]> bl) o) ∧ ∀ j, j ≠ k → zget r' j = zget r j.
Proof.
  intros (l & Hg & Hnd & Hin). unfold pop. rewrite (bind_rew _ _ _ (proj2 (aread_Ok _ _ _) Hg)).
  destruct (vec_pop l) as [[l' off]|] eqn:Ev; [right|by left]. apply vec_pop_Some in Ev as ->.
  pose proof (zget_range _ _ _ Hg) as Hr.
  exists (zset r k l'), off. rewrite (bind_rew _ _ _ (awrite_total r k l' Hr)). split; [done|].
  split; [apply Hin; set_solver|]. apply NoDup_app in Hnd as (Hnd & Hoff & _).
  split; [|intros j Hj; by rewrite zget_zset_ne].
  intros o' Ho. exists l'. split; [by apply zget_zset_eq|]. split; [done|].
  intros x. destruct (decide (x = off)) as [->|Hne].
  - rewrite lookup_insert_eq. split; [intros Hx; exfalso; apply (Hoff off Hx); set_solver|intros [= ?]; done].
  - rewrite lookup_insert_ne by done. rewrite <- Hin. set_solver.
Qed.

Lemma push_spec r k bl o off o0 : free_list r k bl o → bl !! off = Some (k, o0) → o0 ≠ o →
  ∃ r', push r k off = Ok r' ∧ free_list r' k (<[off := (k, o)]> bl) o ∧ ∀ j, j ≠ k → zget r' j = zget r j.
Proof.
  intros (l & Hg & Hnd & Hin) Hoff Ho. unfold push. rewrite (bind_rew _ _ _ (proj2 (aread_Ok _ _ _) Hg)).
  pose proof (zget_range _ _ _ Hg) as Hr. eexists. split; [by apply awrite_total|].
  assert (Hnin : off ∉ l) by (rewrite Hin; congruence).
  split; [|intros j Hj; by rewrite zget_zset_ne].
  exists (l ++ [off]). split; [by apply zget_zset_eq|]. split.
  - apply NoDup_app. split; [done|]. split; [set_solver|]. apply NoDup_singleton.
  - intros x. rewrite elem_of_app, list_elem_of_singleton. destruct (decide (x = off)) as [->|Hne].
    + rewrite lookup_insert_eq. naive_solver.
    + rewrite lookup_insert_ne by done. rewrite Hin. naive_solver.
Qed.

(** A list that is not touched. *)
Lemma free_list_other r r' k bl off k0 o0 k1 o1 o : free_list r k bl o → zget r' k = zget r k →
  bl !! off = Some (k0, o0) → (k0, o0) ≠ (k, o) → (k1, o1) ≠ (k, o) → free_list r' k (<[off := (k1, o1)]> bl) o.
Proof.
  intros (l & Hg & Hnd & Hin) Hsame Hoff H0 H1. exists l. rewrite Hsame. split; [done|]. split; [done|].
  intros x. rewrite Hin. destruct (decide (x = off)) as [->|]; [|by rewrite lookup_insert_ne].
  rewrite lookup_insert_eq, Hoff. naive_solver.
Qed.

Lemma private_with a th r th' : get_private_free_blocks (with_private a th r) th' =
  if decide (th' = th) then r else get_private_free_blocks a th'.
Proof.
  unfold get_private_free_blocks, with_private. simpl. destruct (decide (th' = th)) as [->|Hne].
  - by rewrite lookup_insert_eq. - by rewrite lookup_insert_ne.
Qed.

(** Moving a block from one owner to another, with the lists updated. *)
Lemma move_inv a a' bl off k o o' : alloc_inv a bl → bl !! off = Some (k, o) →
  (match o' with Live => True | FreeOf _ => k < LARGE_BLOCK_ORDER_THRESHOLD | FreeLarge => LARGE_BLOCK_ORDER_THRESHOLD ≤ k end) →
  base_offset a' = base_offset a → total_size a' = total_size a → used_size a' = used_size a →
  (∀ th j, 0 ≤ j < LARGE_BLOCK_ORDER_THRESHOLD →
     free_list (get_private_free_blocks a' th) j (<[off := (k, o')]> bl) (FreeOf th)) →
  (∀ j, LARGE_BLOCK_ORDER_THRESHOLD ≤ j < MAX_ORDER → free_list (large_free_blocks a') j (<[off := (k, o')]> bl) FreeLarge) →
  alloc_inv a' (<[off := (k, o')]> bl).
Proof.
  intros Hi Hoff Ho' Eb Et Eu Hp Hl. split; try done; rewrite ?Eb, ?Et, ?Eu; try apply Hi.
  - intros x j ow. destruct (decide (x = off)) as [->|].
    + rewrite lookup_insert_eq. intros [= <- <-]. split; [by apply (al_owner _ _ Hi _ _ _ Hoff)|done].
    + rewrite lookup_insert_ne by done. apply Hi.
  - intros x j ow. destruct (decide (x = off)) as [->|].
    + rewrite lookup_insert_eq. intros [= <- <-]. by apply (al_range _ _ Hi _ _ _ Hoff).
    + rewrite lookup_insert_ne by done. apply Hi.
  - intros x j ow. destruct (decide (x = off)) as [->|].
    + rewrite lookup_insert_eq. intros [= <- <-]. by apply (al_start _ _ Hi _ _ _ Hoff).
    + rewrite lookup_insert_ne by done. apply Hi.
  - intros x j ow x' j' ow' H1 H2.
    assert (∃ ow1, bl !! x = Some (j, ow1)) as [ow1 H1'].
    { destruct (decide (x = off)) as [->|]; [rewrite lookup_insert_eq in H1; simplify_eq; eauto|rewrite lookup_insert_ne in H1; eauto]. }
    assert (∃ ow2, bl !! x' = Some (j', ow2)) as [ow2 H2'].
    { destruct (decide (x' = off)) as [->|]; [rewrite lookup_insert_eq in H2; simplify_eq; eauto|rewrite lookup_insert_ne in H2; eauto]. }
    by apply (al_disjoint _ _ Hi _ _ _ _ _ _ H1' H2').
Qed.

Lemma take_free_spec a bl th k : alloc_inv a bl → 0 ≤ k < MAX_ORDER →
  (∃ a', take_free a th k = Ok (a', None) ∧ alloc_inv a' bl ∧ used_size a' = used_size a ∧ total_size a' = total_size a ∧
     base_offset a' = base_offset a) ∨
  ∃ a' off o, take_free a th k = Ok (a', Some off) ∧ bl !! off = Some (k, o) ∧ o ≠ Live ∧
    alloc_inv a' (<[off := (k, Live)]> bl).
Proof.
  intros Hi Hk. unfold take_free. destruct (Z.ltb_spec k LARGE_BLOCK_ORDER_THRESHOLD) as [Hs|Hs].
  - destruct (pop_spec _ _ _ _ (al_private _ _ Hi th k ltac:(lia))) as [E|(r' & off & E & Hoff & Hf & Hj)];
      rewrite (bind_rew _ _ _ E); cbv beta iota zeta; [left|right].
    + eexists. split; [done|]. split; [|done]. destruct Hi. split; try done.
      intros th' j Hj. rewrite private_with. case_decide as Hd; [subst th'|]; by apply al_private0.
    + exists (with_private a th r'), off, (FreeOf th). split; [done|]. split; [done|]. split; [done|].
      apply (move_inv a _ bl off k (FreeOf th)); try done.
      * intros th' j Hjr. rewrite private_with. case_decide as Hd; [subst th'|].
        -- destruct (decide (j = k)) as [->|Hne]; [by apply Hf|].
           eapply free_list_other; [by apply Hi|by apply Hj|done|congruence|congruence].
        -- eapply free_list_other; [by apply Hi|done|done|congruence|congruence].
      * intros j Hjr. eapply free_list_other; [by apply Hi|done|done|congruence|congruence].
  - destruct (pop_spec _ _ _ _ (al_large _ _ Hi k ltac:(lia))) as [E|(r' & off & E & Hoff & Hf & Hj)];
      rewrite (bind_rew _ _ _ E); cbv beta iota zeta; [left|right].
    + eexists. split; [done|]. split; [|done]. by destruct Hi.
    + exists (with_large a r'), off, FreeLarge. split; [done|]. split; [done|]. split; [done|].
      apply (move_inv a _ bl off k FreeLarge); try done.
      * intros th' j Hjr. eapply free_list_other; [by apply Hi|done|done|congruence|congruence].
      * intros j Hjr. simpl. destruct (decide (j = k)) as [->|Hne]; [by apply Hf|].
        eapply free_list_other; [by apply Hi|by apply Hj|done|congruence|congruence].
Qed.

(** A fresh block at the end of the used space. *)
Lemma fresh_free_list r k bl o off b : free_list r k bl o → bl !! off = None → b ≠ (k, o) → free_list r k (<[off := b]> bl) o.
Proof.
  intros (l & Hg & Hnd & Hin) Hoff Hb. exists l. split; [done|]. split; [done|]. intros x. rewrite Hin.
  destruct (decide (x = off)) as [->|]; [|by rewrite lookup_insert_ne]. rewrite lookup_insert_eq, Hoff. naive_solver.
Qed.

Lemma fresh_offset a bl : alloc_inv a bl → bl !! (used_size a + base_offset a) = None.
Proof.
  intros Hi. destruct (bl !! _) as [[j o]|] eqn:E; [exfalso|done].
  pose proof (al_range _ _ Hi _ _ _ E) as [_ Hr]. pose proof (al_owner _ _ Hi _ _ _ E) as [Hj _].
  pose proof (Z.pow_pos_nonneg 2 j ltac:(lia) ltac:(lia)). lia.
Qed.

Lemma bump_spec a bl k : alloc_inv a bl → 0 ≤ k < MAX_ORDER →
  (used_size a < total_size a ∧ ∃ a', bump a k = (a', Ok (used_size a + base_offset a)) ∧
     alloc_inv a' (<[used_size a + base_offset a := (k, Live)]> bl)) ∨
  (total_size a ≤ used_size a ∧ bump a k = (a, Err (Throw "bad_alloc"))).
Proof.
  intros Hi Hk. destruct (al_space _ _ Hi) as (Hb & Ht & Hs). pose proof (al_used _ _ Hi) as Hu.
  assert (Hp : 0 < 2 ^ k ≤ 2 ^ 63).
  { split; [apply Z.pow_pos_nonneg; lia|apply Z.pow_le_mono_r; unfold MAX_ORDER in *; lia]. }
  unfold bump. rewrite Z.shiftl_mul_pow2, Z.mul_1_l by lia. rewrite (w64_small (2 ^ k)) by lia. cbn [total_size with_used].
  destruct (Z.leb_spec (total_size a) (used_size a)) as [Hfull|Hfree]; [right|left]; (split; [done|]).
  - f_equal. destruct a as [t b f l u]. unfold with_used. cbn [used_size total_size base_offset free_blocks large_free_blocks] in *.
    f_equal. unfold w64. rewrite Zminus_mod_idemp_l, Z.add_simpl_r. by apply w64_small.
  - pose proof (fresh_offset _ _ Hi) as Hnew. cbn [base_offset with_used].
    rewrite (w64_small (used_size a + 2 ^ k)), (w64_small (used_size a + base_offset a)) by lia.
    eexists. split; [done|]. split; cbn [base_offset total_size used_size large_free_blocks with_used]; try done; try lia.
    + intros th j Hj. apply fresh_free_list; [by apply (al_private _ _ Hi th)|done|congruence].
    + intros j Hj. apply fresh_free_list; [by apply (al_large _ _ Hi)|done|congruence].
    + intros x j o. destruct (decide (x = used_size a + base_offset a)) as [->|].
      * rewrite lookup_insert_eq. intros [= <- <-]. done.
      * rewrite lookup_insert_ne by done. apply Hi.
    + intros x j o. destruct (decide (x = used_size a + base_offset a)) as [->|].
      * rewrite lookup_insert_eq. intros [= <- <-]. lia.
      * rewrite lookup_insert_ne by done. intros E. pose proof (al_range _ _ Hi _ _ _ E). lia.
    + intros x j o. destruct (decide (x = used_size a + base_offset a)) as [->|]; [lia|].
      rewrite lookup_insert_ne by done. apply Hi.
    + intros x j o x' j' o'. destruct (decide (x = used_size a + base_offset a)) as [->|Hx].
      * rewrite lookup_insert_eq. intros [= <- <-]. destruct (decide (x' = used_size a + base_offset a)) as [->|]; [lia|].
        rewrite lookup_insert_ne by done. intros E. pose proof (al_range _ _ Hi _ _ _ E).
        pose proof (al_owner _ _ Hi _ _ _ E) as [Hj _]. pose proof (Z.pow_pos_nonneg 2 j' ltac:(lia) ltac:(lia)). lia.
      * rewrite lookup_insert_ne by done. intros E. pose proof (al_range _ _ Hi _ _ _ E).
        destruct (decide (x' = used_size a + base_offset a)) as [->|]; [lia|]. rewrite lookup_insert_ne by done.
        intros E'. by apply (al_disjoint _ _ Hi _ _ _ _ _ _ E E').
Qed.

Lemma allocate_spec a bl th n elem k : alloc_inv a bl → to_order (w64 (n * elem)) = Ok k → 0 ≤ k < MAX_ORDER →
  ∃ a' r, allocate to_order a th n elem = Ok (a', r) ∧
  match r with
  | Ok off => (∀ j, bl !! off ≠ Some (j, Live)) ∧ alloc_inv a' (<[off := (k, Live)]> bl)
  | Err e => e = Throw "bad_alloc" ∧ total_size a ≤ used_size a ∧ alloc_inv a' bl
  end.
Proof.
  intros Hi Ho Hk. unfold allocate. rewrite (bind_rew _ _ _ Ho).
  destruct (take_free_spec a bl th k Hi Hk) as [(a' & E & Hi' & Eu & Et & Eb)|(a' & off & o & E & Hoff & Hl & Hi')];
    rewrite (bind_rew _ _ _ E); cbv beta iota zeta.
  - destruct (bump_spec a' bl k Hi' Hk) as [(Hlt & a2 & E2 & Hi2)|(Hge & E2)]; rewrite E2.
    + eexists _, _. split; [done|]. cbv beta iota. split; [|done]. rewrite (fresh_offset _ _ Hi'). done.
    + eexists _, _. split; [done|]. cbv beta iota. rewrite <- Eu, <- Et. done.
  - eexists _, _. split; [done|]. cbv beta iota. split; [rewrite Hoff; congruence|done].
Qed.

Lemma deallocate_spec a bl th off n elem k : alloc_inv a bl → to_order (w64 (n * elem)) = Ok k →
  bl !! off = Some (k, Live) →
  ∃ a' o, deallocate to_order a th off n elem = Ok a' ∧ o ≠ Live ∧ alloc_inv a' (<[off := (k, o)]> bl).
Proof.
  intros Hi Ho Hoff. pose proof (al_owner _ _ Hi _ _ _ Hoff) as [Hk _]. unfold deallocate. rewrite (bind_rew _ _ _ Ho).
  destruct (Z.ltb_spec k LARGE_BLOCK_ORDER_THRESHOLD) as [Hs|Hs].
  - destruct (push_spec _ _ _ (FreeOf th) off Live (al_private _ _ Hi th k ltac:(lia)) Hoff) as (r' & E & Hf & Hj); [done|].
    rewrite (bind_rew _ _ _ E). exists (with_private a th r'), (FreeOf th). split; [done|]. split; [done|].
    apply (move_inv a _ bl off k Live); try done.
    + intros th' j Hjr. rewrite private_with. case_decide as Hd; [subst th'|].
      * destruct (decide (j = k)) as [->|Hne]; [done|].
        eapply free_list_other; [by apply Hi|by apply Hj|done|congruence|congruence].
      * eapply free_list_other; [by apply Hi|done|done|congruence|congruence].
    + intros j Hjr. eapply free_list_other; [by apply Hi|done|done|congruence|congruence].
  - destruct (push_spec _ _ _ FreeLarge off Live (al_large _ _ Hi k ltac:(lia)) Hoff) as (r' & E & Hf & Hj); [done|].
    rewrite (bind_rew _ _ _ E). exists (with_large a r'), FreeLarge. split; [done|]. split; [done|].
    apply (move_inv a _ bl off k Live); try done.
    + intros th' j Hjr. eapply free_list_other; [by apply Hi|done|done|congruence|congruence].
    + intros j Hjr. simpl. destruct (decide (j = k)) as [->|Hne]; [done|].
      eapply free_list_other; [by apply Hi|by apply Hj|done|congruence|congruence].
Qed.
End blocks.

(** An allocation or a deallocation keeps the space it manages. *)
Lemma with_free_space a th k a' o : take_free a th k = Ok (a', o) →
  base_offset a' = base_offset a ∧ total_size a' = total_size a.
Proof.
  unfold take_free. case_match; intros H1; apply bind_Ok in H1 as ([r x] & _ & [= <- <-]); done.
Qed.

Lemma allocate_space to_order a th n elem a' r : allocate to_order a th n elem = Ok (a', r) →
  base_offset a' = base_offset a ∧ total_size a' = total_size a.
Proof.
  intros H. apply bind_Ok in H as (k & _ & H). apply bind_Ok in H as ([a1 o] & H1 & H).
  apply with_free_space in H1 as [<- <-]. destruct o; [by injection H as <- <-|].
  injection H as H. unfold bump in H. case_match; by injection H as <- <-.
Qed.

Lemma deallocate_space to_order a th off n elem a' : deallocate to_order a th off n elem = Ok a' →
  base_offset a' = base_offset a ∧ total_size a' = total_size a.
Proof.
  intros H. apply bind_Ok in H as (k & _ & H). revert H. case_match; intros H1; apply bind_Ok in H1 as (r & _ & [= <-]); done.
Qed.

(** ** Any history of calls

    The blocks the program holds, with the request each was given for; only a
    block that is held is given back, with the size it was asked for. *)
Section histories.
Context (to_order : Z → result Z) (total base : Z).

Inductive history : allocator → gmap Z (Z * Z) → Prop :=
  | history_start : history (create total base) ∅
  | history_allocate a live th n elem a' off : history a live → 0 < n * elem ≤ 2 ^ 63 →
      allocate to_order a th n elem = Ok (a', Ok off) → history a' (<[off := (n, elem)]> live)
  | history_bad_alloc a live th n elem a' e : history a live → 0 < n * elem ≤ 2 ^ 63 →
      allocate to_order a th n elem = Ok (a', Err e) → history a' live
  | history_deallocate a live th off n elem a' : history a live → live !! off = Some (n, elem) →
      deallocate to_order a th off n elem = Ok a' → history a' (delete off live).

(** Every size has an order whose block is large enough. *)
Context (Hto : ∀ s, 0 < s ≤ 2 ^ 63 → ∃ k, to_order s = Ok k ∧ s ≤ 2 ^ k ∧ 0 ≤ k < MAX_ORDER).
Context (Hspace : 0 ≤ base ∧ 0 ≤ total ∧ base + total ≤ 2 ^ 63).

Definition held a (live : gmap Z (Z * Z)) : Prop := ∃ bl, alloc_inv a bl ∧ base_offset a = base ∧ total_size a = total ∧
  ∀ off n elem, live !! off = Some (n, elem) →
    0 < n * elem ≤ 2 ^ 63 ∧ ∃ k, bl !! off = Some (k, Live) ∧ to_order (w64 (n * elem)) = Ok k.

Lemma request_order n elem : 0 < n * elem ≤ 2 ^ 63 →
  ∃ k, to_order (w64 (n * elem)) = Ok k ∧ n * elem ≤ 2 ^ k ∧ 0 ≤ k < MAX_ORDER.
Proof using Hto. intros H. rewrite w64_small by lia. by apply Hto. Qed.

Lemma history_held a live : history a live → held a live.
Proof using Hto Hspace.
  induction 1 as [|a live th n elem a' off _ (bl & Hi & Hb & Ht & Hl) Hr Ha|a live th n elem a' e _ (bl & Hi & Hb & Ht & Hl) Hr Ha
    |a live th off n elem a' _ (bl & Hi & Hb & Ht & Hl) Hoff Hd].
  - exists ∅. split; [apply create_inv; lia|]. done.
  - destruct (request_order n elem Hr) as (k & Hk & _ & Hkr).
    destruct (allocate_spec to_order a bl th n elem k Hi Hk Hkr) as (a2 & r & E & Hres). rewrite Ha in E. injection E as <- <-.
    destruct Hres as [Hfresh Hi']. apply allocate_space in Ha as [Eb Et]. exists (<[off := (k, Live)]> bl).
    split; [done|]. split; [congruence|]. split; [congruence|]. intros x n' e'.
    destruct (decide (x = off)) as [->|Hne].
    + rewrite !lookup_insert_eq. intros [= <- <-]. split; [done|]. by exists k.
    + rewrite !lookup_insert_ne by done. apply Hl.
  - destruct (request_order n elem Hr) as (k & Hk & _ & Hkr).
    destruct (allocate_spec to_order a bl th n elem k Hi Hk Hkr) as (a2 & r & E & Hres). rewrite Ha in E. injection E as <- <-.
    apply allocate_space in Ha as [Eb Et]. exists bl. split; [apply Hres|]. split; [congruence|]. by split; [congruence|].
  - destruct (Hl _ _ _ Hoff) as (Hr & k & Hbl & Hk).
    destruct (deallocate_spec to_order a bl th off n elem k Hi Hk Hbl) as (a2 & o & E & Ho & Hi'). rewrite Hd in E. injection E as <-.
    apply deallocate_space in Hd as [Eb Et]. exists (<[off := (k, o)]> bl).
    split; [done|]. split; [congruence|]. split; [congruence|]. intros x n' e'.
    destruct (decide (x = off)) as [->|Hne]; [by rewrite lookup_delete_eq|].
    rewrite lookup_delete_ne, lookup_insert_ne by done. apply Hl.
Qed.

(** C23: whatever the order of allocations and deallocations, by whichever
    threads, the blocks the program holds never overlap and each starts inside
    the space; an allocation never gives out a block that is held, never fails
    in any way but [bad_alloc], and a deallocation always succeeds. *)
Theorem live_blocks_disjoint a live : history a live →
  (∀ off n elem off' n' elem', live !! off = Some (n, elem) → live !! off' = Some (n', elem') → off < off' →
     off + n * elem ≤ off') ∧
  (∀ off n elem, live !! off = Some (n, elem) → base ≤ off < base + total ∧
     ∀ th, ∃ a', deallocate to_order a th off n elem = Ok a') ∧
  (∀ th n elem, 0 < n * elem ≤ 2 ^ 63 → ∃ a' r, allocate to_order a th n elem = Ok (a', r) ∧
     match r with Ok off => live !! off = None | Err e => e = Throw "bad_alloc" ∧ total ≤ used_size a end).
Proof using Hto Hspace.
  intros H. destruct (history_held a live H) as (bl & Hi & Hb & Ht & Hl). split_and!.
  - intros off n elem off' n' elem' H1 H2 Hlt. destruct (Hl _ _ _ H1) as (Hr & k & Hk & Ho).
    destruct (Hl _ _ _ H2) as (Hr' & k' & Hk' & _). pose proof (al_disjoint _ _ Hi _ _ _ _ _ _ Hk Hk' Hlt).
    destruct (request_order n elem Hr) as (k2 & Hk2 & Hle & _). rewrite Ho in Hk2. injection Hk2 as <-. lia.
  - intros off n elem H1. destruct (Hl _ _ _ H1) as (Hr & k & Hk & Ho).
    pose proof (al_range _ _ Hi _ _ _ Hk). pose proof (al_start _ _ Hi _ _ _ Hk). split; [lia|]. intros th.
    destruct (deallocate_spec to_order a bl th off n elem k Hi Ho Hk) as (a' & o & E & _). by exists a'.
  - intros th n elem Hr. destruct (request_order n elem Hr) as (k & Ho & _ & Hk).
    destruct (allocate_spec to_order a bl th n elem k Hi Ho Hk) as (a' & r & E & Hres). exists a', r. split; [done|].
    destruct r as [off|e]; [|rewrite <- Ht; split; apply Hres]. destruct (live !! off) as [[n' e']|] eqn:El; [|done].
    destruct (Hl _ _ _ El) as (_ & k' & Hk' & _). by destruct Hres as [Hf _]; destruct (Hf k').
Qed.

Lemma take_free_used a th k a' o : take_free a th k = Ok (a', o) → used_size a' = used_size a.
Proof using. unfold take_free. case_match; intros H1; apply bind_Ok in H1 as ([r x] & _ & [= <- <-]); done. Qed.

(** C31: an allocation checks the start of the new block only.  Whatever was
    allocated and given back before, while the space is not used up a request of
    any size for which no block was given back succeeds, with the rest of the
    space however small: when the request is larger than the rest, the program
    holds a block that extends past the end of the space. *)
Theorem allocate_past_the_end a live th n elem : history a live → used_size a < total → 0 < n * elem ≤ 2 ^ 63 →
  (∀ k, to_order (n * elem) = Ok k → ∃ a1, take_free a th k = Ok (a1, None)) → total < used_size a + n * elem →
  ∃ a' off, allocate to_order a th n elem = Ok (a', Ok off) ∧ history a' (<[off := (n, elem)]> live) ∧ base + total < off + n * elem.
Proof using Hto Hspace.
  intros Hh Hu Hr Hfree Hpast. destruct (history_held a live Hh) as (bl & Hi & Hb & Ht & _). pose proof (al_used _ _ Hi) as Hus.
  destruct (request_order n elem Hr) as (k & Hk & _ & Hkr). assert (w64 (n * elem) = n * elem) as Ew by (apply w64_small; lia).
  destruct (Hfree k) as [a1 Ha1]; [by rewrite <- Ew|]. pose proof (take_free_used _ _ _ _ _ Ha1) as Eu. destruct (with_free_space _ _ _ _ _ Ha1) as [Eb Et].
  assert (allocate to_order a th n elem = Ok (fst (bump a1 k), Ok (used_size a + base))) as Hal.
  { unfold allocate. rewrite (bind_rew _ _ _ Hk), (bind_rew _ _ _ Ha1). cbv beta iota zeta. unfold bump. cbn [total_size with_used].
    rewrite Eu, Et, Ht. destruct (Z.leb_spec total (used_size a)); [lia|]. cbn [base_offset with_used]. rewrite Eb, Hb. cbn [fst]. by rewrite (w64_small (used_size a + base)) by lia. }
  eexists _, _. split; [exact Hal|]. split; [by eapply history_allocate|lia].
Qed.
End histories.

(** Both allocators have such an order, of the smallest block of their kind. *)
Lemma mmap_order_fits s : 0 < s ≤ 2 ^ 63 → ∃ k, mmap_size_to_order s = Ok k ∧ s ≤ 2 ^ k ∧ 0 ≤ k < MAX_ORDER.
Proof.
  intros Hs. exists (Z.log2_up s). split; [apply mmap_size_to_order_eq; lia|]. split.
  - destruct (decide (s = 1)) as [->|]; [done|]. apply Z.log2_up_spec. lia.
  - pose proof (Z.log2_up_nonneg s). pose proof (Z.log2_up_le_mono s (2 ^ 63) ltac:(lia)) as Hm.
    rewrite Z.log2_up_pow2 in Hm by lia. unfold MAX_ORDER. lia.
Qed.

Lemma order_fits s : 0 < s ≤ 2 ^ 63 → ∃ k, size_to_order s = Ok k ∧ s ≤ 2 ^ k ∧ 0 ≤ k < MAX_ORDER.
Proof.
  intros Hs. assert (Hm : 0 < Z.max CACHE_PAGE_SIZE s ≤ 2 ^ 63).
  { unfold CACHE_PAGE_SIZE, CACHE_PAGE_BITS. change (Z.shiftl 1 12) with 4096. lia. }
  destruct (mmap_order_fits _ Hm) as (k & E & Hle & Hk). exists k. split; [exact E|]. split; [lia|done].
Qed.

Lemma live_blocks_disjoint_witness : ∃ a live,
  history size_to_order 12288 4096 a live ∧ live !! 4096 = Some (3, 8) ∧ live !! 8192 = Some (5000, 1) ∧ 4096 + 3 * 8 ≤ 8192.
Proof.
  assert (∃ a, history size_to_order 12288 4096 a (<[8192 := (5000, 1)]> (<[4096 := (3, 8)]> ∅))) as [a H].
  { eexists. eapply (history_allocate _ _ _ _ (<[4096 := (3, 8)]> ∅) 2 5000 1 _ 8192).
    - eapply (history_allocate _ _ _ _ ∅ 1 3 8 _ 4096); [apply history_start|lia|vm_compute; reflexivity].
    - lia.
    - vm_compute; reflexivity. }
  exists a, (<[8192 := (5000, 1)]> (<[4096 := (3, 8)]> ∅)).
  split; [exact H|]. split; [reflexivity|]. split; [reflexivity|].
  by apply (proj1 (live_blocks_disjoint size_to_order 12288 4096 order_fits ltac:(lia) _ _ H) 4096 3 8 8192 5000 1).
Defined.

(** Three pages, one used: a request for four pages. *)
Lemma allocate_past_the_end_witness : ∃ a live a' off, history size_to_order 12288 4096 a live ∧
  allocate size_to_order a 1 16384 1 = Ok (a', Ok off) ∧ 4096 + 12288 < off + 16384 * 1.
Proof.
  assert (∃ a, history size_to_order 12288 4096 a (<[4096 := (3, 8)]> ∅) ∧ used_size a = 4096 ∧ ∃ a1, take_free a 1 14 = Ok (a1, None)) as (a & H & Hu & Hf).
  { eexists. split; [eapply (history_allocate _ _ _ _ ∅ 1 3 8 _ 4096); [apply history_start|lia|vm_compute; reflexivity]|].
    split; [reflexivity|]. eexists. vm_compute. reflexivity. }
  destruct (allocate_past_the_end size_to_order 12288 4096 order_fits ltac:(lia) a _ 1 16384 1 H) as (a' & off & Ha & _ & Hp);
    [lia|lia| |lia|by exists a, (<[4096 := (3, 8)]> ∅), a', off].
  intros k Hk. assert (k = 14) as -> by (vm_compute in Hk; by injection Hk as <-). exact Hf.
Defined.
