(* ===== verification/Bind.v ===== *)
(** * The binding to unmodified programs

    [bind/cache.cpp]: the program's pointers into the cached space are addresses
    with the top bit set; the memory and string functions, the allocation and
    mapping calls, [read] and [write] test that bit and go through the cache or
    to the system.  [Space] of [CachedPtr.v] is the cache as one thread uses it,
    with the memory of the process. *)
From S2P Require Import Prelude Util CachedPtr CachedAllocator.
From stdpp Require Import gmap strings list.

Open Scope Z_scope.

Definition OFFSET_MASK : Z := 0x7fffffffffffffff.
Definition OFFSET_FLAG : Z := 0x8000000000000000.

Definition cache_space_ptr (ptr : Z) : bool := negb (Z.land ptr OFFSET_FLAG =? 0).

(** ** Configuration *)
Record config := mk_config {
  disable_cache : bool;
  malloc_threshold : Z;
  mmap_file_threshold : Z;
  mmap_size : Z;
  enable_pthread_create_hook : bool;
  disable_parallel_read_write : bool;
  disable_thread_bind : bool;
  disable_lazy_mmap_writeback : bool;
  trace_real_alloc_threshold : Z;
  total_real_alloc_threshold : Z;
}.

(** What [init] gives the constructor of the cache, and the CPUs that are left. *)
Record setup := mk_setup {
  su_config : config;
  su_virt_size : Z;
  su_phy_size : Z;
  su_num_clients : Z;
  su_server_cpus : list Z;
  su_server_paths : list string;
  su_client_cpus : list Z;
  su_segfault_handler : bool;
}.

Section init.
(** The environment, [std::stoul] (which throws), [boost::split] at blanks, the
    split of a string at its first comma, and the number of CPUs. *)
Context (getenv : string → option string) (stoul : string → result Z).
Context (split_blanks : string → list string) (split_comma : string → string * option string).
Context (hardware_concurrency : Z).

Definition require_env (name : string) : result string :=
  match getenv name with Some v => Ok v | None => Err (Throw ("env " ++ name ++ " is empty.")) end.
Definition env_flag (name : string) : bool := match getenv name with Some _ => true | None => false end.
Definition env_number (name : string) (dflt : Z) : result Z :=
  match getenv name with Some v => stoul v | None => Ok dflt end.

Definition parse_server (s : string) : result (Z * string) :=
  let '(cpu, path) := split_comma s in
  n ← stoul cpu; Ok (n, default "" path).

Fixpoint parse_servers (l : list string) : result (list (Z * string)) :=
  match l with
  | [] => Ok []
  | s :: l' => x ← parse_server s; xs ← parse_servers l'; Ok (x :: xs)
  end.

Definition disabled_config : config := mk_config true MAX64 MAX64 (2 ^ 32) false false false false OFFSET_FLAG OFFSET_FLAG.

Definition init : result setup :=
  if env_flag "DISABLE_CACHE" then Ok (mk_setup disabled_config 0 0 0 [] [] [] false)
  else
    env_phy ← require_env "CACHE_PHY_SIZE";
    env_virt ← require_env "CACHE_VIRT_SIZE";
    env_clients ← require_env "CACHE_NUM_CLIENTS";
    env_config ← require_env "CACHE_CONFIG";
    env_malloc ← require_env "CACHE_MALLOC_THRESHOLD";
    phy ← stoul env_phy;
    virt ← stoul env_virt;
    clients ← stoul env_clients;
    malloc ← stoul env_malloc;
    mmap_file ← env_number "CACHE_MMAP_FILE_THRESHOLD" malloc;
    msize ← env_number "CACHE_MMAP_SIZE" (2 ^ 32);
    trace ← env_number "CACHE_TRACE_REAL_ALLOC_THRESHOLD" OFFSET_FLAG;
    total ← env_number "CACHE_TOTAL_REAL_ALLOC_THRESHOLD" OFFSET_FLAG;
    servers ← parse_servers (split_blanks env_config);
    Ok (mk_setup
          (mk_config false malloc mmap_file msize true (env_flag "CACHE_DISABLE_PARALLEL_READ_WRITE")
             (env_flag "CACHE_DISABLE_THREAD_BIND") (env_flag "CACHE_DISABLE_LAZY_MMAP_WRITEBACK") trace total)
          virt phy clients (servers.*1) (servers.*2)
          (filter (λ i, i ∉ servers.*1) (seqZ 0 hardware_concurrency))
          (env_flag "CACHE_ENABLE_SEGFAULT_HANDLER")).
End init.

(** ** Byte pointers

    The functions below are instances of one template per operation, for raw and
    for cached pointers. *)
Inductive byte_ptr := RawPtr (a : Z) | CachePtr (p : cached_ptr) (is_const : bool).

Section frames.
Context {W : Type} `{Frames W}.

(** [__real_memcpy]. *)
Fixpoint real_memcpy (w : W) (dst src : Z) (n : nat) : W :=
  match n with
  | O => w
  | S n' => real_memcpy (raw_store w dst (raw_load w src)) (dst + 1) (src + 1) n'
  end.

End frames.

Section space.
Context {W : Type} `{Space W}.
(** The address of the cache object. *)
Context (global_cache : Z).

Definition base_cached_ptr : cached_ptr := mk_ptr (Some global_cache) 0.
Definition offset_of (ptr : Z) : Z := Z.land ptr OFFSET_MASK.
Definition cptr (ptr : Z) : cached_ptr := add 1 base_cached_ptr (offset_of ptr).

Definition cache_get_raw_ptr_load (w : W) (ptr : Z) : result (W * Z) := get true w (cptr ptr).
Definition cache_get_raw_ptr_store (w : W) (ptr : Z) : result (W * Z) := get false w (cptr ptr).
Definition cache_pin (w : W) (ptr : Z) : result (W * Z) := CachedPtr.pin w (cptr ptr).
Definition cache_unpin (w : W) (ptr : Z) (is_write : bool) : result W := CachedPtr.unpin w (cptr ptr) is_write.
Definition cache_flush (w : W) : result W := sp_flush w.

Definition ptr_of (is_const : bool) (ptr : Z) : byte_ptr :=
  if cache_space_ptr ptr then CachePtr (cptr ptr) is_const else RawPtr ptr.
Definition advance (b : byte_ptr) (n : Z) : byte_ptr :=
  match b with RawPtr a => RawPtr (w64 (a + n)) | CachePtr p c => CachePtr (add 1 p n) c end.
Definition bload (w : W) (b : byte_ptr) : result (W * Z) :=
  match b with RawPtr a => Ok (w, raw_load w a) | CachePtr p c => load c w p end.
Definition bstore (w : W) (b : byte_ptr) (x : Z) : result W :=
  match b with RawPtr a => Ok (raw_store w a x) | CachePtr p c => CachedPtr.store c w p x end.

(** ** [memcpy] *)

(** One side of a copy: a raw address, or a pointer into the pinned page. *)
Inductive side := RawSide (a : Z) | PageSide (p : cached_ptr) (is_const : bool) (page_offset page_ptr : Z).

Definition open_side (w : W) (ptr : Z) (is_const : bool) : result (W * side) :=
  if cache_space_ptr ptr then
    '(w, page_ptr) ← CachedPtr.pin w (cptr ptr);
    Ok (w, PageSide (cptr ptr) is_const (offset_of ptr mod CACHE_PAGE_SIZE) page_ptr)
  else Ok (w, RawSide ptr).

Definition side_room (s : side) (n : Z) : Z :=
  match s with RawSide _ => n | PageSide _ _ page_offset _ => Z.min (CACHE_PAGE_SIZE - page_offset) n end.
Definition side_ptr (s : side) : Z := match s with RawSide a => a | PageSide _ _ _ page_ptr => page_ptr end.

(** The page that is left is unpinned and the next one pinned. *)
Definition side_next (w : W) (s : side) (step_len : Z) : result (W * side) :=
  match s with
  | RawSide a => Ok (w, RawSide (a + step_len))
  | PageSide p is_const page_offset page_ptr =>
      if page_offset + step_len =? CACHE_PAGE_SIZE then
        w ← CachedPtr.unpin w p (negb is_const);
        '(w, page_ptr) ← CachedPtr.pin w (add 1 p step_len);
        Ok (w, PageSide (add 1 p step_len) is_const 0 page_ptr)
      else Ok (w, PageSide (add 1 p step_len) is_const (page_offset + step_len) (page_ptr + step_len))
  end.

Definition close_side (w : W) (s : side) : result W :=
  match s with RawSide _ => Ok w | PageSide p is_const _ _ => CachedPtr.unpin w p (negb is_const) end.

(** [left] is [n - copied_len]. *)
Fixpoint copy_loop (fuel : nat) (w : W) (d s : side) (left : Z) : result (W * side * side) :=
  if 0 <? left then
    match fuel with
    | O => Err OutOfFuel
    | S fuel' =>
        let step_len := side_room d (side_room s left) in
        let w := real_memcpy w (side_ptr d) (side_ptr s) (Z.to_nat step_len) in
        '(w, d) ← side_next w d step_len;
        '(w, s) ← side_next w s step_len;
        copy_loop fuel' w d s (left - step_len)
    end
  else Ok (w, d, s).

(** Every round copies at least one byte. *)
Definition cache_memcpy (w : W) (dst src n : Z) : result (W * Z) :=
  if cache_space_ptr dst || cache_space_ptr src then
    '(w, d) ← open_side w dst false;
    '(w, s) ← open_side w src true;
    '(w, d, s) ← copy_loop (Z.to_nat n) w d s n;
    w ← close_side w d;
    w ← close_side w s;
    Ok (w, dst)
  else Ok (real_memcpy w dst src (Z.to_nat n), dst).

(** ** [memset], [memmove] *)
Fixpoint set_loop (w : W) (s : byte_ptr) (c : Z) (n : nat) : result W :=
  match n with
  | O => Ok w
  | S n' => w ← bstore w s c; set_loop w (advance s 1) c n'
  end.

Definition cache_memset (w : W) (dst c n : Z) : result (W * Z) :=
  w ← set_loop w (ptr_of false dst) (c mod 2 ^ 8) (Z.to_nat n); Ok (w, dst).

Fixpoint move_up (w : W) (d s : byte_ptr) (n : nat) : result W :=
  match n with
  | O => Ok w
  | S n' => '(w, x) ← bload w s; w ← bstore w d x; move_up w (advance d 1) (advance s 1) n'
  end.

Fixpoint move_down (w : W) (d s : cached_ptr) (n : nat) : result W :=
  match n with
  | O => Ok w
  | S n' =>
      '(w, a) ← index 1 true w s (Z.of_nat n');
      let x := raw_load w a in
      '(w, a) ← index 1 false w d (Z.of_nat n');
      move_down (raw_store w a x) d s n'
  end.

Fixpoint raw_move_down (w : W) (d s : Z) (n : nat) : W :=
  match n with
  | O => w
  | S n' => raw_move_down (raw_store w (d + Z.of_nat n') (raw_load w (s + Z.of_nat n'))) d s n'
  end.

(** [memmove] of the C library. *)
Definition real_memmove (w : W) (dst src n : Z) : W :=
  if dst <? src then real_memcpy w dst src (Z.to_nat n) else raw_move_down w dst src (Z.to_nat n).

(** [s - d - n <= -2 * n] in unsigned arithmetic: the ranges do not overlap. *)
Definition ranges_apart (d s : cached_ptr) (n : Z) : bool := w64 (distance 1 s d - n) <=? w64 (-2 * n).

Definition cache_memmove (w : W) (dst src n : Z) : result (W * Z) :=
  match cache_space_ptr dst, cache_space_ptr src with
  | true, true =>
      let d := cptr dst in
      let s := cptr src in
      if ptr_eq d s then Ok (w, dst)
      else if ranges_apart d s n then cache_memcpy w dst src n
      else if ptr_lt d s then w ← move_up w (CachePtr d false) (CachePtr s true) (Z.to_nat n); Ok (w, dst)
      else w ← move_down w d s (Z.to_nat n); Ok (w, dst)
  | false, false => Ok (real_memmove w dst src n, dst)
  | _, _ => cache_memcpy w dst src n
  end.

(** ** String functions

    [fuel] bounds the strings, which end where a zero byte is found. *)

(** The number of bytes before the first [c] among the first [n]. *)
Fixpoint chr_loop (w : W) (s : byte_ptr) (c : Z) (n : nat) (i : Z) : result (W * option Z) :=
  match n with
  | O => Ok (w, None)
  | S n' => '(w, x) ← bload w s; if x =? c then Ok (w, Some i) else chr_loop w (advance s 1) c n' (i + 1)
  end.

Definition cache_memchr (w : W) (str c n : Z) : result (W * Z) :=
  '(w, r) ← chr_loop w (ptr_of true str) (c mod 2 ^ 8) (Z.to_nat n) 0;
  Ok (w, match r with Some i => w64 (str + i) | None => 0 end).

Fixpoint cmp_loop (w : W) (l r : byte_ptr) (n : nat) : result (W * Z) :=
  match n with
  | O => Ok (w, 0)
  | S n' =>
      '(w, x) ← bload w l;
      '(w, y) ← bload w r;
      if x =? y then cmp_loop w (advance l 1) (advance r 1) n'
      else '(w, x) ← bload w l; '(w, y) ← bload w r; Ok (w, x - y)
  end.

Definition memcmp (w : W) (vl vr n : Z) : result (W * Z) := cmp_loop w (ptr_of true vl) (ptr_of true vr) (Z.to_nat n).
Definition bcmp (w : W) (s1 s2 n : Z) : result (W * Z) := memcmp w s1 s2 n.

Fixpoint strcmp_loop (fuel : nat) (w : W) (l r : byte_ptr) : result (W * Z) :=
  match fuel with
  | O => Err OutOfFuel
  | S fuel' =>
      '(w, x) ← bload w l;
      '(w, y) ← bload w r;
      '(w, continue) ← (if x =? y then '(w, z) ← bload w l; Ok (w, negb (z =? 0)) else Ok (w, false));
      if (continue : bool) then strcmp_loop fuel' w (advance l 1) (advance r 1)
      else '(w, x) ← bload w l; '(w, y) ← bload w r; Ok (w, x - y)
  end.

Definition strcmp (fuel : nat) (w : W) (vl vr : Z) : result (W * Z) := strcmp_loop fuel w (ptr_of true vl) (ptr_of true vr).

(** Copies up to and with the zero byte. *)
Fixpoint cpy_loop (fuel : nat) (w : W) (d s : byte_ptr) : result W :=
  match fuel with
  | O => Err OutOfFuel
  | S fuel' =>
      '(w, x) ← bload w s;
      w ← bstore w d x;
      if x =? 0 then Ok w else cpy_loop fuel' w (advance d 1) (advance s 1)
  end.

(** The start of the copy is returned, not its end. *)
Definition stpcpy (fuel : nat) (w : W) (vl vr : Z) : result (W * Z) :=
  w ← cpy_loop fuel w (ptr_of false vl) (ptr_of true vr); Ok (w, vl).
Definition strcpy (fuel : nat) (w : W) (dest src : Z) : result (W * Z) :=
  '(w, _) ← stpcpy fuel w dest src; Ok (w, dest).

Fixpoint len_loop (fuel : nat) (w : W) (s : byte_ptr) (i : Z) : result (W * Z) :=
  match fuel with
  | O => Err OutOfFuel
  | S fuel' => '(w, x) ← bload w s; if x =? 0 then Ok (w, i) else len_loop fuel' w (advance s 1) (i + 1)
  end.

Definition strlen (fuel : nat) (w : W) (str : Z) : result (W * Z) := len_loop fuel w (ptr_of true str) 0.
Definition strcat (fuel : nat) (w : W) (dest src : Z) : result (W * Z) :=
  '(w, n) ← strlen fuel w dest; '(w, _) ← strcpy fuel w (w64 (dest + n)) src; Ok (w, dest).

(** ** The program's symbols

    [bind/hook.cpp]: the functions under the names the program calls. *)
Definition memcpy := cache_memcpy.
Definition memset := cache_memset.
Definition memmove := cache_memmove.
Definition memchr := cache_memchr.

(** ** Allocation *)
Context (cfg : config).

(** The allocator of the cached space and the bytes the traced threads have. *)
Record bind_state := mk_bind {
  space : W;
  cached_allocator : allocator;
  total_real_alloc : Z;
  mmap_file_dict : gmap string Z;
}.

Definition with_space (b : bind_state) (w : W) : bind_state :=
  mk_bind w (cached_allocator b) (total_real_alloc b) (mmap_file_dict b).
Definition with_allocator (b : bind_state) (a : allocator) : bind_state :=
  mk_bind (space b) a (total_real_alloc b) (mmap_file_dict b).
Definition with_real_alloc (b : bind_state) (n : Z) : bind_state :=
  mk_bind (space b) (cached_allocator b) n (mmap_file_dict b).
Definition with_file (b : bind_state) (name : string) (ptr : Z) : bind_state :=
  mk_bind (space b) (cached_allocator b) (total_real_alloc b) (<[name := ptr]> (mmap_file_dict b)).

Definition check_real_alloc_threshold (b : bind_state) (size : Z) : bind_state * bool :=
  if size <? trace_real_alloc_threshold cfg then (b, true)
  else if total_real_alloc_threshold cfg <? w64 (total_real_alloc b + size) then (b, false)
  else
    let current := total_real_alloc b in
    let b' := with_real_alloc b (w64 (current + size)) in
    if total_real_alloc_threshold cfg <? w64 (current + size)
    then (with_real_alloc b' (w64 (total_real_alloc b' - size)), false) else (b', true).

(** The calling thread, and whether it is one of the program's. *)
Context (thread : Z) (is_client_thread : bool).

Definition cache_alloc (b : bind_state) (size : Z) : result (bind_state * Z) :=
  '(a, r) ← cached_allocate (Some global_cache) (cached_allocator b) thread size 1;
  p ← r;
  Ok (with_allocator b a, Z.lor (offset p) OFFSET_FLAG).

Definition cache_free (b : bind_state) (ptr size : Z) : result bind_state :=
  a ← cached_deallocate (cached_allocator b) thread (cptr ptr) size 1; Ok (with_allocator b a).

(** Whether an allocation goes to the cache. *)
Definition goes_to_cache (b : bind_state) (size : Z) : bind_state * bool :=
  if (malloc_threshold cfg <=? size) && is_client_thread then check_real_alloc_threshold b size else (b, false).

(** The system's allocation functions. *)
Context (real_malloc : W → Z → W * Z) (real_calloc : W → Z → Z → W * Z) (real_realloc : W → Z → Z → W * Z).
Context (real_aligned_alloc : W → Z → Z → W * Z) (real_free : W → Z → W).

Definition on_system {A} (b : bind_state) (r : W * A) : bind_state * A := (with_space b r.1, r.2).

Definition cache_malloc_hook (b : bind_state) (size : Z) : result (bind_state * Z) :=
  let '(b, yes) := goes_to_cache b size in
  if (yes : bool) then cache_alloc b size else Ok (on_system b (real_malloc (space b) size)).

Definition cache_calloc_hook (b : bind_state) (n_elem elem_sz : Z) : result (bind_state * Z) :=
  let size := w64 (n_elem * elem_sz) in
  let '(b, yes) := goes_to_cache b size in
  if (yes : bool) then
    '(b, addr) ← cache_alloc b size;
    '(w, _) ← cache_memset (space b) addr 0 size;
    Ok (with_space b w, addr)
  else Ok (on_system b (real_calloc (space b) n_elem elem_sz)).

Definition cache_realloc_hook (b : bind_state) (ptr size : Z) : result (bind_state * Z) :=
  if cache_space_ptr ptr then Err (Throw "Realloc on cached address")
  else
    let '(b, yes) := goes_to_cache b size in
    if (yes : bool) then Err (Throw "Realloc too large space, should go into cache but unimplemented")
    else Ok (on_system b (real_realloc (space b) ptr size)).

(** The cached block is not returned: the system is asked as well. *)
Definition cache_aligned_alloc_hook (b : bind_state) (alignment size : Z) : result (bind_state * Z) :=
  let '(b, yes) := goes_to_cache b size in
  b ← (if (yes : bool) then
         '(b, addr) ← cache_alloc b size;
         if alignment =? 0 then Err Undefined
         else if negb (addr mod alignment =? 0) then Err (Throw "Unaligned address returned by cache_alloc") else Ok b
       else Ok b);
  Ok (on_system b (real_aligned_alloc (space b) alignment size)).

Definition free (b : bind_state) (ptr : Z) : bind_state :=
  if cache_space_ptr ptr then b else with_space b (real_free (space b) ptr).

(** ** [read] and [write]

    The system's calls, with the signed count they return, and the address of
    the local buffer. *)
Context (real_read real_write : W → Z → Z → Z → W * Z) (local_buf : Z).

Definition local_buf_len : Z := if disable_parallel_read_write cfg then 2 * 1024 * 1024 else 128 * 1024 * 1024.

(** The page-sized copies of the parallel loop, here in order. *)
Fixpoint copy_pages (n : nat) (w : W) (dst src off len : Z) : result W :=
  if off <? len then
    match n with
    | O => Err OutOfFuel
    | S n' =>
        '(w, _) ← cache_memcpy w (dst + off) (src + off) (Z.min CACHE_PAGE_SIZE (len - off));
        copy_pages n' w dst src (off + CACHE_PAGE_SIZE) len
    end
  else Ok w.

Definition copy_chunk (w : W) (dst src len : Z) : result W :=
  if disable_parallel_read_write cfg then '(w, _) ← cache_memcpy w dst src len; Ok w
  else copy_pages (S (Z.to_nat (len / CACHE_PAGE_SIZE))) w dst src 0 len.

(** One chunk per round, until the system returns less than was asked for. *)
Fixpoint read_loop (n : nat) (w : W) (fd dst off count ret : Z) : result (W * Z) :=
  if off <? count then
    match n with
    | O => Err OutOfFuel
    | S n' =>
        let len := Z.min (count - off) local_buf_len in
        let '(w, local_ret) := real_read w fd local_buf len in
        if local_ret <? 0 then Ok (w, local_ret)
        else
          w ← copy_chunk w dst local_buf local_ret;
          if (local_ret <? len) || (ret + local_ret =? count) then Ok (w, ret + local_ret)
          else read_loop n' w fd (dst + local_ret) (off + local_buf_len) count (ret + local_ret)
    end
  else Ok (w, ret).

Fixpoint write_loop (n : nat) (w : W) (fd src off count ret : Z) : result (W * Z) :=
  if off <? count then
    match n with
    | O => Err OutOfFuel
    | S n' =>
        let len := Z.min (count - off) local_buf_len in
        w ← copy_chunk w local_buf src len;
        let '(w, local_ret) := real_write w fd local_buf len in
        if local_ret <? 0 then Ok (w, local_ret)
        else if (local_ret <? len) || (ret + local_ret =? count) then Ok (w, ret + local_ret)
        else write_loop n' w fd (src + local_ret) (off + local_buf_len) count (ret + local_ret)
    end
  else Ok (w, ret).

Definition rounds (count : Z) : nat := S (Z.to_nat (count / local_buf_len)).

(** Every thread of the team flushes its own caches. *)
Definition flush_after (w : W) (count : Z) : result W :=
  if disable_parallel_read_write cfg then
    if 32 * 1024 * 1024 <=? count then cache_flush w else Ok w
  else cache_flush w.

Definition read (w : W) (fd buf count : Z) : result (W * Z) :=
  if cache_space_ptr buf then
    '(w, ret) ← read_loop (rounds count) w fd buf 0 count 0;
    w ← flush_after w count; Ok (w, ret)
  else Ok (real_read w fd buf count).

Definition write (w : W) (fd buf count : Z) : result (W * Z) :=
  if cache_space_ptr buf then
    '(w, ret) ← write_loop (rounds count) w fd buf 0 count 0;
    w ← flush_after w count; Ok (w, ret)
  else Ok (real_write w fd buf count).

(** ** Mappings

    The name of an open file, its size and position, the system's calls. *)
Context (readlink : W → Z → string) (st_size : W → Z → Z) (lseek_cur : W → Z → Z) (lseek_set : W → Z → Z → W).
Context (real_open : W → string → W * Z) (real_close real_fsync : W → Z → W).
Context (real_mmap : W → Z → Z → Z → Z → Z → Z → W * Z) (real_munmap : W → Z → Z → W * Z).
Context (real_madvise real_msync : W → Z → Z → Z → W * Z).

Definition MAP_FIXED : Z := 0x10.
Definition MAP_ANONYMOUS : Z := 0x20.
Definition has_flag (flags flag : Z) : bool := negb (Z.land flags flag =? 0).

(** [read] at a position of the file, which then has its old position. *)
Definition read_at (w : W) (fd pos buf count : Z) : result W :=
  let cur := lseek_cur w fd in
  '(w, _) ← read (lseek_set w fd pos) fd buf count;
  Ok (lseek_set w fd cur).

(** The first mapping of a file reads it into a cached block of its own. *)
Definition map_file (b : bind_state) (len fd offset : Z) : result (bind_state * Z) :=
  let filename := readlink (space b) fd in
  match mmap_file_dict b !! filename with
  | Some base =>
      if disable_lazy_mmap_writeback cfg then
        w ← read_at (space b) fd offset (base + offset) len; Ok (with_space b w, base + offset)
      else Ok (b, base + offset)
  | None =>
      let size := st_size (space b) fd in
      '(b, base) ← cache_alloc b (Z.max (mmap_size cfg) size);
      let b := with_file b filename base in
      w ← read_at (space b) fd 0 base size;
      Ok (with_space b w, base + offset)
  end.

Definition cache_mmap_hook (b : bind_state) (addr len prot flags fd offset : Z) : result (bind_state * Z) :=
  let system b := on_system b (real_mmap (space b) addr len prot flags fd offset) in
  if negb is_client_thread then Ok (system b)
  else if has_flag flags MAP_ANONYMOUS then
    if has_flag flags MAP_FIXED then
      if cache_space_ptr addr then Ok (b, addr) else Ok (system b)
    else
      let '(b, yes) := goes_to_cache b len in
      if (yes : bool) then cache_alloc b len else Ok (system b)
  else if (fd =? -1) || (len <? mmap_file_threshold cfg) then Ok (system b)
  else map_file b len fd offset.

(** The file a cached address belongs to, and the offset in it; [None] when no
    mapping has it, and the name is empty and the offset not initialised. *)
Definition file_of (b : bind_state) (addr : Z) : option (string * Z) :=
  list_find (λ x, x.2 ≤ addr < x.2 + mmap_size cfg) (map_to_list (mmap_file_dict b)) ≫=
    λ x, Some (x.2.1, addr - x.2.2).

(** Writing a mapped range back to its file. *)
Definition write_back (b : bind_state) (addr len : Z) (sync : bool) : result bind_state :=
  match file_of b addr with
  | None => Err Undefined
  | Some (filename, offset) =>
      let '(w, fd) := real_open (space b) filename in
      '(w, _) ← write (lseek_set w fd offset) fd addr len;
      let w := if sync then real_fsync w fd else w in
      Ok (with_space b (real_close w fd))
  end.

Definition munmap (b : bind_state) (addr len : Z) : result (bind_state * Z) :=
  if cache_space_ptr addr then
    b ← (if disable_lazy_mmap_writeback cfg then write_back b addr len false else Ok b); Ok (b, 0)
  else Ok (on_system b (real_munmap (space b) addr len)).

Definition madvise (b : bind_state) (addr len adv : Z) : bind_state * Z :=
  if cache_space_ptr addr then (b, 0) else on_system b (real_madvise (space b) addr len adv).

Definition msync (b : bind_state) (addr len sync : Z) : result (bind_state * Z) :=
  if cache_space_ptr addr then
    b ← (if disable_lazy_mmap_writeback cfg then write_back b addr len true else Ok b); Ok (b, 0)
  else Ok (on_system b (real_msync (space b) addr len sync)).

Definition numa_interleave_memory (real : W → Z → Z → W) (b : bind_state) (mem size : Z) : bind_state :=
  if cache_space_ptr mem then b else with_space b (real (space b) mem size).
End space.

(** ** The program's threads

    A new thread runs on the client CPU with the fewest threads. *)
Section threads.
Context (cfg : config) (num_client_cpus : Z).

Record thread_state := mk_threads { current_cpu_id : Z; threads_bind_to_cpu : list Z }.

(** The CPUs from the [i]-th after the current one on; the first one with the
    fewest threads is kept. *)
Fixpoint pick_cpu (n : nat) (i : Z) (t : thread_state) (myid : Z) : result Z :=
  match n with
  | O => Ok myid
  | S n' =>
      let current_id := w64 (current_cpu_id t + i) mod num_client_cpus in
      x ← aread (threads_bind_to_cpu t) current_id;
      y ← aread (threads_bind_to_cpu t) myid;
      pick_cpu n' (i + 1) t (if x <? y then current_id else myid)
  end.

Definition thread_starts (t : thread_state) : result (thread_state * Z) :=
  if disable_thread_bind cfg then Ok (t, 0)
  else
    myid ← pick_cpu (Z.to_nat num_client_cpus) 0 t 0;
    x ← aread (threads_bind_to_cpu t) myid;
    l ← awrite (threads_bind_to_cpu t) myid (w64 (x + 1));
    Ok (mk_threads (w64 (current_cpu_id t + 1)) l, myid).

Definition thread_ends (t : thread_state) (myid : Z) : result thread_state :=
  if disable_thread_bind cfg then Ok t
  else
    x ← aread (threads_bind_to_cpu t) myid;
    l ← awrite (threads_bind_to_cpu t) myid (w64 (x - 1));
    Ok (mk_threads (current_cpu_id t) l).

(** [__hook_thread_func] around the thread's own [start_routine]; the caches of
    the thread are flushed when it ends. *)
Definition hook_thread_func {W} `{Space W} (start_routine : W → W * Z) (w : W) (t : thread_state) : result (W * thread_state * Z) :=
  '(t, myid) ← thread_starts t;
  let '(w, ret) := start_routine w in
  w ← (if enable_pthread_create_hook cfg then sp_flush w else Ok w);
  t ← thread_ends t myid;
  Ok (w, t, ret).
End threads.
