(* ===== verification/Contents.v ===== *)
(** * Contents of the cached space and of the program's memory

    Locations, ranges of them, and what a copy of memory leaves in them; pins
    taken and given back.  All of it against the promise of a cache that pins
    ([PinSpec] of [SpaceSpec.v]). *)
From S2P Require Import Prelude Util CachedPtr SpaceSpec CachedAllocator Bind.
From stdpp Require Import gmap list.

Open Scope Z_scope.

Section contents.
Context {W : Type} `{PinSpec W}.
Implicit Types (w : W).

(** ** Locations: a byte of the program's memory or of the cached space *)
Inductive loc := LRaw (a : Z) | LPage (o : Z).
Definition shift (l : loc) (i : Z) : loc := match l with LRaw a => LRaw (a + i) | LPage o => LPage (o + i) end.
Definition contents w (l : loc) : Z := match l with LRaw a => raw_load w a | LPage o => sp_bytes w o end.
Definition valid (l : loc) : Prop := match l with LRaw a => sp_plain a | LPage _ => True end.

#[export] Instance loc_eq_dec : EqDecision loc.
Proof. solve_decision. Defined.

Definition same_contents w w' : Prop := ∀ l, valid l → contents w' l = contents w l.
Definition pins w (v : Z) : Z := pin_count (sp_held w) v.

(** Address [a] denotes the location. *)
Definition denotes w (a : Z) (l : loc) : Prop :=
  match l with
  | LRaw b => a = b ∧ sp_plain b
  | LPage o => ∃ f k, sp_held w !! (o / PAGE) = Some (f, k) ∧ a = f + o mod PAGE
  end.

Lemma page_pos : 0 < PAGE.
Proof. done. Qed.

Lemma page_offset_split (o : Z) : o = o / PAGE * PAGE + o mod PAGE ∧ 0 ≤ o mod PAGE < PAGE.
Proof. pose proof page_pos. pose proof (Z_div_mod_eq_full o PAGE). pose proof (Z.mod_pos_bound o PAGE). lia. Qed.

Lemma load_denotes w a l : sp_inv w → denotes w a l → raw_load w a = contents w l.
Proof.
  intros Hi. destruct l as [b|o]; simpl; [by intros [-> _]|]. intros (f & k & Hh & ->).
  destruct (page_offset_split o) as [Eo Ho]. destruct (sp_held_law w _ f k Hi Hh) as (_ & _ & _ & _ & Hl). rewrite Hl by done. by rewrite <- Eo.
Qed.

Definition loc_page (l : loc) : gset Z := match l with LRaw _ => ∅ | LPage o => {[o / PAGE]} end.

Lemma store_denotes w a l z : sp_inv w → denotes w a l → let w' := raw_store w a z in
  sp_inv w' ∧ sp_held w' = sp_held w ∧ sp_written w' ⊆ loc_page l ∪ sp_written w ∧
  (∀ l', valid l' → contents w' l' = if decide (l' = l) then z else contents w l').
Proof.
  intros Hi Hd. destruct l as [b|o]; cbn [denotes] in Hd.
  - destruct Hd as [-> Hp]. destruct (sp_store_plain w b z Hi Hp) as (Hi' & Hh & Hw & Hb & Hl). split; [done|]. split; [done|].
    split; [rewrite Hw; cbn [loc_page]; set_solver|]. intros [c|o']; cbn [contents valid]; [|intros _; rewrite Hb; by case_decide].
    intros Hc. rewrite Hl by done. repeat case_decide; congruence.
  - destruct Hd as (f & k & Hh & ->). destruct (page_offset_split o) as [Eo Ho].
    destruct (sp_store_frame w _ f k (o mod PAGE) z Hi Hh Ho) as (Hi' & Hh' & Hw & Hb & Hl). split; [done|]. split; [done|].
    split; [exact Hw|]. intros [c|o']; cbn [contents valid].
    + intros Hc. rewrite Hl by done. by case_decide.
    + intros _. rewrite Hb, <- Eo. repeat case_decide; congruence.
Qed.

Lemma denotes_held w w' a l : sp_held w' = sp_held w → denotes w a l → denotes w' a l.
Proof. intros E. destruct l; simpl; [done|]. by rewrite E. Qed.

(** [n] bytes from [ls] are in [ld]. *)
Definition copied w w' (ld ls : loc) (n : Z) : Prop :=
  (∀ i, 0 ≤ i < n → contents w' (shift ld i) = contents w (shift ls i)) ∧
  (∀ l, valid l → (∀ i, 0 ≤ i < n → l ≠ shift ld i) → contents w' l = contents w l).

Definition disjoint_ranges (ld ls : loc) (n : Z) : Prop := ∀ i j, 0 ≤ i < n → 0 ≤ j < n → shift ld i ≠ shift ls j.
Definition valid_range (l : loc) (n : Z) : Prop := ∀ i, 0 ≤ i < n → valid (shift l i).

Lemma shift_shift l i j : shift (shift l i) j = shift l (i + j).
Proof. destruct l; simpl; f_equal; lia. Qed.

Lemma shift_0 l : shift l 0 = l.
Proof. destruct l; simpl; f_equal; lia. Qed.

Lemma shift_inj l i j : shift l i = shift l j → i = j.
Proof. destruct l; simpl; intros [=]; lia. Qed.

(** The [memcpy] of the C library between two ranges that stay in their pages. *)
Lemma real_memcpy_spec n w ad as_ ld ls (P : gset Z) : sp_inv w →
  (∀ i, 0 ≤ i < Z.of_nat n → denotes w (ad + i) (shift ld i) ∧ denotes w (as_ + i) (shift ls i) ∧ loc_page (shift ld i) ⊆ P) →
  valid_range ld (Z.of_nat n) → valid_range ls (Z.of_nat n) → disjoint_ranges ld ls (Z.of_nat n) →
  let w' := real_memcpy w ad as_ n in
  sp_inv w' ∧ sp_held w' = sp_held w ∧ sp_written w' ⊆ P ∪ sp_written w ∧ copied w w' ld ls (Z.of_nat n).
Proof.
  revert w ad as_ ld ls. induction n as [|n IH]; intros w ad as_ ld ls Hi Hden Hvd Hvs Hdis.
  - simpl. split; [done|]. split; [done|]. split; [set_solver|]. split; [lia|done].
  - destruct (Hden 0) as (Hd0 & Hs0 & HP0); [lia|]. rewrite !Z.add_0_r, shift_0 in Hd0. rewrite !Z.add_0_r, shift_0 in Hs0. rewrite shift_0 in HP0.
    cbn [real_memcpy]. set (w1 := raw_store w ad (raw_load w as_)).
    destruct (store_denotes w ad ld (raw_load w as_) Hi Hd0) as (Hi1 & Hh1 & Hw1 & Hc1). fold w1 in Hi1, Hh1, Hw1, Hc1.
    rewrite (load_denotes w as_ ls Hi Hs0) in Hc1.
    destruct (IH w1 (ad + 1) (as_ + 1) (shift ld 1) (shift ls 1) Hi1) as (Hi2 & Hh2 & Hw2 & Hcp1 & Hcp2).
    + intros i Hir. destruct (Hden (1 + i)) as (Hd & Hs & HP); [lia|]. rewrite !shift_shift, <- !Z.add_assoc.
      split; [by apply (denotes_held w w1)|]. split; [by apply (denotes_held w w1)|done].
    + intros i Hir. rewrite shift_shift. apply Hvd. lia.
    + intros i Hir. rewrite shift_shift. apply Hvs. lia.
    + intros i j Hir Hjr. rewrite !shift_shift. apply Hdis; lia.
    + split; [done|]. split; [by rewrite Hh2|]. split; [clear -Hw1 Hw2 HP0; set_solver|]. split.
      * intros i Hir. destruct (decide (i = 0)) as [->|Hne].
        -- rewrite !shift_0. rewrite Hcp2; [|rewrite <- (shift_0 ld); apply Hvd; lia|].
           ++ rewrite Hc1 by (rewrite <- (shift_0 ld); apply Hvd; lia). by rewrite decide_True.
           ++ intros j Hj E. rewrite shift_shift in E. rewrite <- (shift_0 ld) in E at 1. apply shift_inj in E. lia.
        -- replace i with (1 + (i - 1)) by lia. rewrite <- !shift_shift. rewrite Hcp1 by lia.
           rewrite Hc1 by (rewrite shift_shift; apply Hvs; lia). rewrite decide_False; [done|].
           rewrite shift_shift. intros E. symmetry in E. rewrite <- (shift_0 ld) in E. apply Hdis in E; [done|lia|lia].
      * intros l Hl Hno. rewrite Hcp2; [|done|].
        -- rewrite Hc1 by done. rewrite decide_False; [done|]. intros ->. apply (Hno 0); [lia|]. by rewrite shift_0.
        -- intros i Hir. rewrite shift_shift. apply Hno. lia.
Qed.

(** ** Pins taken and given back

    From [w0] on, [x v] pins of page [v] were added; every frame [w0] had is
    still there. *)
Definition frame w (v f : Z) : Prop := ∃ k, sp_held w !! v = Some (f, k).
Record balance w0 w (x : Z → Z) : Prop := {
  bal_inv : sp_inv w;
  bal_pos v : 0 ≤ x v;
  bal_pins v : pins w v = pins w0 v + x v;
  bal_frame v f : frame w0 v f → frame w v f;
}.

Lemma pins_pos w v : sp_inv w → 0 ≤ pins w v.
Proof. intros Hi. unfold pins, pin_count. destruct (sp_held w !! v) as [[f k]|] eqn:E; simpl; [|done]. destruct (sp_held_law w v f k Hi E). lia. Qed.

Lemma pins_frame w v : sp_inv w → 0 < pins w v ↔ ∃ f, frame w v f.
Proof.
  intros Hi. unfold pins, pin_count, frame. destruct (sp_held w !! v) as [[f k]|] eqn:E; simpl.
  - destruct (sp_held_law w v f k Hi E). split; [eauto|lia].
  - split; [lia|]. by intros (f & k & ?).
Qed.

Lemma frame_pins w v f k : sp_held w !! v = Some (f, k) → pins w v = k.
Proof. unfold pins, pin_count. by intros ->. Qed.

Lemma balance_refl w : sp_inv w → balance w w (λ _, 0).
Proof. intros Hi. split; [done|done|lia|done]. Qed.

Lemma balance_ext w0 w x y : balance w0 w x → (∀ v, x v = y v) → balance w0 w y.
Proof. intros [Hi Hp Hn Hf] E. split; [done| | |done]; intros v; rewrite <- E; auto. Qed.

Lemma balance_held w0 w w' x : balance w0 w x → sp_inv w' → sp_held w' = sp_held w → balance w0 w' x.
Proof. intros [Hi Hp Hn Hf] Hi' E. split; [done|done| |]; unfold pins, frame in *; by rewrite E. Qed.

(** Nothing is left over: the pins are the old ones. *)
Lemma balance_end w0 w : sp_inv w0 → balance w0 w (λ _, 0) → sp_held w = sp_held w0.
Proof.
  intros Hi0 [Hi _ Hn Hf]. apply map_eq. intros v. specialize (Hn v). unfold pins, pin_count in Hn.
  destruct (sp_held w0 !! v) as [[f k]|] eqn:E0.
  - destruct (Hf v f) as [k' E]; [by exists k|]. rewrite E in Hn |- *. simpl in Hn. do 2 f_equal. lia.
  - destruct (sp_held w !! v) as [[f k]|] eqn:E; [|done]. destruct (sp_held_law w v f k Hi E). simpl in Hn. lia.
Qed.

(** There are frames for [x] pins more and another one; for any two pins more. *)
Definition grants w0 (x : Z → Z) : Prop := ∀ v, 0 ≤ v < sp_pages → sp_fits (λ u, pins w0 u + x u + one v u).
Definition roomy w0 : Prop := ∀ u, 0 ≤ u < sp_pages → grants w0 (one u).

Lemma one_pos u v : 0 ≤ one u v.
Proof. unfold one. by case_decide. Qed.

Lemma grants_le w0 x y : grants w0 x → (∀ v, y v ≤ x v) → grants w0 y.
Proof. intros Hx Hle v Hv. eapply sp_fits_le; [by apply Hx|]. intros u. cbn. specialize (Hle u). lia. Qed.

Lemma roomy_grants w0 x : roomy w0 → (∀ v, x v ≤ 0) → grants w0 x.
Proof. intros Hr Hx v Hv. apply (grants_le w0 (one v)); [by apply Hr| |done]. intros u. pose proof (one_pos v u). specialize (Hx u). lia. Qed.

Lemma bal_pin w0 w x v : balance w0 w x → grants w0 x → 0 ≤ v < sp_pages →
  ∃ w' f, sp_pin w v = Ok (w', f) ∧ balance w0 w' (λ v', x v' + one v v') ∧ frame w' v f ∧
    (∀ v' g, frame w v' g → frame w' v' g) ∧ sp_written w' = sp_written w ∧ same_contents w w'.
Proof.
  intros [Hi Hp Hn Hf] Hg Hv. destruct (sp_pin_law w v Hi Hv) as (w' & f & E & Hi' & Hh & Hsame & Hw & Hb & Hl).
  { eapply sp_fits_le; [by apply Hg|]. intros u. cbn. fold (pins w u). by rewrite Hn. }
  assert (∀ v' g, frame w v' g → frame w' v' g) as Hfr.
  { intros v' g [k Hk]. unfold frame. rewrite Hh. destruct (decide (v' = v)) as [->|].
    - rewrite lookup_insert_eq. rewrite <- (Hsame _ _ Hk). eauto.
    - rewrite lookup_insert_ne by done. eauto. }
  exists w', f. split; [done|]. split_and!; [|unfold frame; rewrite Hh, lookup_insert_eq; eauto|done|done|intros [a|o] ?; simpl; auto].
  split; [done| | |naive_solver].
  - intros v'. specialize (Hp v'). unfold one. case_decide; lia.
  - intros v'. rewrite Z.add_assoc, <- Hn. unfold pins, pin_count, one. rewrite Hh. case_decide as Hc; [subst; by rewrite lookup_insert_eq|].
    rewrite lookup_insert_ne by done. lia.
Qed.

Lemma bal_unpin w0 w x v (is_write : bool) : balance w0 w x → 1 ≤ x v → sp_inv w0 → is_write = true ∨ v ∉ sp_written w ∨ 1 < pins w v →
  ∃ w', sp_unpin w v is_write = Ok w' ∧ balance w0 w' (λ v', x v' - one v v') ∧
    (∀ v' g, frame w v' g → 0 < pins w' v' → frame w' v' g) ∧
    sp_written w' ⊆ sp_written w ∧ (is_write = true → v ∉ sp_written w') ∧ same_contents w w'.
Proof.
  intros [Hi Hp Hn Hf] Hx Hi0 Hwr. pose proof (pins_pos w0 v Hi0) as Hp0. pose proof (Hn v) as Hnv.
  destruct (proj1 (pins_frame w v Hi)) as (f & k & Hk); [lia|]. pose proof (frame_pins w v f k Hk) as Ek. rewrite Ek in Hwr.
  destruct (sp_unpin_law w v f k is_write Hi Hk Hwr) as (w' & E & Hi' & Hh & Hw & Hb & Hl).
  assert (∀ v', pins w' v' = pins w v' - one v v') as Hn'.
  { intros v'. unfold one. case_decide as Hc; [subst v'; rewrite Ek|]; unfold pins, pin_count; rewrite Hh; destruct (Z.eqb_spec k 1) as [->|Hk1];
      rewrite ?lookup_delete_eq, ?lookup_insert_eq; simpl; try lia; rewrite ?lookup_delete_ne, ?lookup_insert_ne by done; lia. }
  assert (∀ v' g, frame w v' g → 0 < pins w' v' → frame w' v' g) as Hfr.
  { intros v' g [k' Hk'] Hpos. destruct (decide (v' = v)) as [->|Hne].
    - rewrite Hk' in Hk. injection Hk as -> ->. unfold frame. rewrite Hh. rewrite Hn', Ek in Hpos. unfold one in Hpos.
      rewrite decide_True in Hpos by done. rewrite (proj2 (Z.eqb_neq k 1)) by lia. rewrite lookup_insert_eq. eauto.
    - unfold frame. rewrite Hh. exists k'. destruct (k =? 1); [by rewrite lookup_delete_ne by congruence|by rewrite lookup_insert_ne by congruence]. }
  exists w'. split; [done|]. split_and!; [|done|rewrite Hw; case_match; set_solver|intros ->; rewrite Hw; simpl; set_solver|intros [a|o] ?; simpl; auto].
  split; [done| | |].
  - intros v'. specialize (Hp v'). unfold one. case_decide; subst; lia.
  - intros v'. rewrite Hn', Hn. lia.
  - intros v' g Hg. apply Hfr; [auto|]. rewrite Hn', Hn. pose proof (proj2 (pins_frame w0 v' Hi0) (ex_intro _ g Hg)). specialize (Hp v').
    unfold one. case_decide; subst; lia.
Qed.

(** ** Ranges *)
Definition fits (l : loc) : Prop := match l with LRaw _ => True | LPage o => 0 ≤ o < sp_pages * PAGE end.

Lemma page_in_space o : 0 ≤ o < sp_pages * PAGE → 0 ≤ o / PAGE < sp_pages.
Proof. pose proof page_pos. intros []. split; [by apply Z.div_pos; lia|]. apply Z.div_lt_upper_bound; lia. Qed.

Lemma offset_small o : 0 ≤ o < sp_pages * PAGE → 0 ≤ o < 2 ^ 62.
Proof. destruct sp_size. lia. Qed.

Lemma page_next o i : o mod PAGE + i = PAGE → (o + i) / PAGE = o / PAGE + 1 ∧ (o + i) mod PAGE = 0.
Proof.
  pose proof page_pos. destruct (page_offset_split o) as [Eo Ho]. intros Hi.
  replace (o + i) with ((o / PAGE + 1) * PAGE) by lia. rewrite Z.div_mul, Z.mod_mul by lia. done.
Qed.

Lemma page_same o i : 0 ≤ i → o mod PAGE + i < PAGE → (o + i) / PAGE = o / PAGE ∧ (o + i) mod PAGE = o mod PAGE + i.
Proof.
  pose proof page_pos. destruct (page_offset_split o) as [Eo Ho]. intros Hi1 Hi2.
  replace (o + i) with (o mod PAGE + i + o / PAGE * PAGE) by lia. rewrite Z.div_add, Z.mod_add by lia.
  rewrite Z.div_small, Z.mod_small by lia. lia.
Qed.


Definition keeps_frames w w' : Prop := ∀ v f, frame w v f → frame w' v f.

Lemma frame_bounds w v f : sp_inv w → frame w v f → 0 < f ∧ f + PAGE ≤ 2 ^ 64.
Proof. intros Hi [k Hk]. destruct (sp_held_law w v f k Hi Hk) as (_ & _ & ? & ? & _). done. Qed.

Lemma same_contents_refl w : same_contents w w.
Proof. by intros l _. Qed.
Lemma same_contents_trans w1 w2 w3 : same_contents w1 w2 → same_contents w2 w3 → same_contents w1 w3.
Proof. intros H1 H2 l Hl. rewrite H2 by done. by apply H1. Qed.

Lemma copied_trans w w1 w2 ld ls m n : 0 ≤ m → valid_range ld (m + n) → valid_range ls (m + n) → disjoint_ranges ld ls (m + n) → 0 ≤ n →
  copied w w1 ld ls m → copied w1 w2 (shift ld m) (shift ls m) n → copied w w2 ld ls (m + n).
Proof.
  intros Hm Hvd Hvs Hdis Hn [H11 H12] [H21 H22]. split.
  - intros i Hi. destruct (decide (i < m)).
    + rewrite H22; [apply H11; lia|apply Hvd; lia|]. intros j Hj. rewrite shift_shift. intros E. apply shift_inj in E. lia.
    + replace i with (m + (i - m)) by lia. rewrite <- !shift_shift. rewrite H21 by lia. rewrite shift_shift.
      apply H12; [apply Hvs; lia|]. intros j Hj E. symmetry in E. apply Hdis in E; [done|lia|lia].
  - intros l Hl Hno. rewrite H22; [apply H12; [done|]|done|].
    + intros i Hi. apply Hno. lia.
    + intros i Hi. rewrite shift_shift. apply Hno. lia.
Qed.

Lemma copied_same w w1 w2 w3 ld ls n : valid_range ld n → valid_range ls n →
  same_contents w w1 → copied w1 w2 ld ls n → same_contents w2 w3 → copied w w3 ld ls n.
Proof.
  intros Hvd Hvs S1 [H1 H2] S2. split.
  - intros i Hi. rewrite S2 by (by apply Hvd). rewrite H1 by done. apply S1. by apply Hvs.
  - intros l Hl Hno. rewrite S2, H2 by done. by apply S1.
Qed.

(** [n] bytes of the program's memory, or of the space and not up to its end. *)
Definition inside (l : loc) (n : Z) : Prop :=
  match l with
  | LRaw a => 0 ≤ a ∧ a + n < 2 ^ 63 ∧ ∀ i, 0 ≤ i < n → sp_plain (a + i)
  | LPage o => 0 ≤ o ∧ o + n < sp_pages * PAGE
  end.

Lemma inside_fits l n i : inside l n → 0 ≤ i ≤ n → fits (shift l i).
Proof. destruct l; simpl; [done|lia]. Qed.

Lemma inside_valid l n : inside l n → valid_range l n.
Proof. intros Hin i Hi. destruct l; simpl in *; [by apply Hin|done]. Qed.

Definition quiet w w' : Prop := sp_inv w' ∧ sp_held w' = sp_held w ∧ same_contents w w'.
Definition stored w w' (l : loc) (x : Z) : Prop :=
  sp_inv w' ∧ sp_held w' = sp_held w ∧ ∀ l', valid l' → contents w' l' = if decide (l' = l) then x else contents w l'.

Lemma quiet_refl w : sp_inv w → quiet w w.
Proof. by intros Hi. Qed.
Lemma quiet_trans w1 w2 w3 : quiet w1 w2 → quiet w2 w3 → quiet w1 w3.
Proof. intros (_ & H1 & H2) (? & H3 & H4). split; [done|]. split; [by rewrite H3|]. by eapply same_contents_trans. Qed.

Lemma inside_0 l n : inside l n → 0 < n → fits l ∧ valid l.
Proof.
  intros Hin Hn. split; [rewrite <- (shift_0 l); eapply inside_fits; [done|lia]|]. rewrite <- (shift_0 l). by apply (inside_valid l n); [done|lia].
Qed.

Lemma inside_1 l n : inside l n → 0 < n → inside (shift l 1) (n - 1).
Proof.
  destruct l as [a|o]; simpl; [|lia]. intros (? & ? & Hp) Hn. split; [lia|]. split; [lia|]. intros i Hi. rewrite <- Z.add_assoc. apply Hp. lia.
Qed.

Lemma inside_le l n m : inside l n → 0 ≤ m ≤ n → inside l m.
Proof. destruct l as [a|o]; simpl; [|lia]. intros (? & ? & Hp) Hm. split; [lia|]. split; [lia|]. intros i Hi. apply Hp. lia. Qed.

Lemma inside_from l k n : inside l (k + n) → 0 ≤ k → inside (shift l k) n.
Proof.
  destruct l as [a|o]; simpl; [|lia]. intros (? & ? & Hp) Hk. split; [lia|]. split; [lia|]. intros i Hi. rewrite <- Z.add_assoc. apply Hp. lia.
Qed.

(** [n] bytes from [l] on are [x], the others are as they were. *)
Definition changed w w' (l : loc) (n : Z) (x : Z → Z) : Prop :=
  sp_inv w' ∧ sp_held w' = sp_held w ∧ (∀ i, 0 ≤ i < n → contents w' (shift l i) = x i) ∧
  (∀ l', valid l' → (∀ i, 0 ≤ i < n → l' ≠ shift l i) → contents w' l' = contents w l').

Lemma changed_nil w w' l x : quiet w w' → changed w w' l 0 x.
Proof. intros (? & ? & Hs). repeat (split; [done|]). split; [lia|]. intros l' Hl _. by apply Hs. Qed.

Lemma changed_ext w w' l n x y : (∀ i, 0 ≤ i < n → x i = y i) → changed w w' l n x → changed w w' l n y.
Proof. intros E (? & ? & Hx & ?). repeat (split; [done|]). split; [|done]. intros i Hi. by rewrite Hx, E. Qed.

Lemma changed_quiet w0 w w' l n x : quiet w0 w → changed w w' l n x → changed w0 w' l n x.
Proof.
  intros (_ & Hh & Hs) (? & Hh' & Hx & Hr). split; [done|]. split; [by rewrite Hh'|]. split; [done|].
  intros l' Hl Hne. rewrite Hr by done. by apply Hs.
Qed.

Lemma changed_after w w' w2 l n x : changed w w' l n x → quiet w' w2 → valid_range l n → changed w w2 l n x.
Proof.
  intros (? & Hh & Hx & Hr) (? & Hh' & Hs) Hv. split; [done|]. split; [by rewrite Hh'|]. split.
  - intros i Hi. rewrite Hs by (by apply Hv). by apply Hx.
  - intros l' Hl Hne. rewrite Hs by done. by apply Hr.
Qed.

Lemma changed_cons w w1 w2 l n x : 0 ≤ n → valid l → stored w w1 l (x 0) → changed w1 w2 (shift l 1) n (λ i, x (1 + i)) → changed w w2 l (1 + n) x.
Proof.
  intros Hn Hv (_ & Hh & Hc) (? & Hh' & Hx & Hr). split; [done|]. split; [by rewrite Hh'|]. split.
  - intros i Hi. destruct (decide (i = 0)) as [->|].
    + rewrite shift_0, Hr, Hc by (done || (intros j Hj E; rewrite shift_shift in E; rewrite <- (shift_0 l) in E at 1; apply shift_inj in E; lia)).
      by rewrite decide_True.
    + replace i with (1 + (i - 1)) by lia. rewrite <- shift_shift, Hx by lia. done.
  - intros l' Hl Hne. rewrite Hr; [|done|intros i Hi; rewrite shift_shift; apply Hne; lia].
    rewrite Hc, decide_False; [done| |done]. intros ->. apply (Hne 0); [lia|]. by rewrite shift_0.
Qed.

(** The last byte first. *)
Lemma changed_snoc w w1 w2 l n x : 0 ≤ n → valid (shift l n) → stored w w1 (shift l n) (x n) → changed w1 w2 l n x → changed w w2 l (n + 1) x.
Proof.
  intros Hn Hv (_ & Hh & Hc) (? & Hh' & Hx & Hr). split; [done|]. split; [by rewrite Hh'|]. split.
  - intros i Hi. destruct (decide (i = n)) as [->|]; [|apply Hx; lia].
    rewrite Hr, Hc by (done || (intros j Hj E; apply shift_inj in E; lia)). by rewrite decide_True.
  - intros l' Hl Hne. rewrite Hr; [|done|intros i Hi; apply Hne; lia]. rewrite Hc, decide_False; [done| |done].
    intros ->. apply (Hne n); [lia|done].
Qed.

Lemma changed_copied w w' ld ls n : sp_inv w' → sp_held w' = sp_held w → copied w w' ld ls n → changed w w' ld n (λ i, contents w (shift ls i)).
Proof. intros ? ? []. done. Qed.
End contents.
