(* ===== verification/BindSpec.v ===== *)
(** * The binding: what the copies of memory do

    Against the promise of the caches ([SpaceSpec.v]), [memcpy] over cached and
    raw ranges is a flat copy, page by page, that leaves every pin as it was;
    [memmove] is right for every overlap; the comparisons and string functions
    are those of the flat contents. *)
From stdpp Require Import gmap list.
From S2P Require Import Prelude Util CachedPtr SpaceSpec CachedAllocator Bind Contents.

Open Scope Z_scope.

Section copies.
Context {W : Type} `{SpaceSpec W} (gc : Z).
Implicit Types (w : W) (p : cached_ptr) (d s : side).

(** ** The sides of a copy *)

Definition side_at (c : bool) w s (l : loc) : Prop :=
  match s, l with
  | RawSide a, LRaw b => a = b
  | PageSide p c' off ptr, LPage o => p = mk_ptr (Some gc) o ∧ c' = c ∧ off = o mod PAGE ∧ fits l ∧
      ∃ f, frame w (o / PAGE) f ∧ ptr = f + off
  | _, _ => False
  end.

(** The pin a side holds. *)
Definition pin_of (l : loc) (v : Z) : Z := match l with LRaw _ => 0 | LPage o => one (o / PAGE) v end.
Definition room (l : loc) : Z := match l with LRaw _ => 2 ^ 64 | LPage o => PAGE - o mod PAGE end.

Lemma side_at_room c w s l n : side_at c w s l → 0 ≤ n < 2 ^ 64 → side_room s n = Z.min (room l) n.
Proof. destruct s, l; simpl; try done; [lia|]. intros (-> & -> & -> & _) _. done. Qed.

Lemma side_at_denotes c w s l i : side_at c w s l → valid (shift l i) → 0 ≤ i < room l → denotes w (side_ptr s + i) (shift l i).
Proof.
  destruct s as [a|p c' off ptr], l as [b|o]; simpl; try done; [by intros ->|].
  intros (-> & -> & -> & _ & f & [k Hk] & ->) _ Hi. exists f, k. destruct (page_same o i) as [-> ->]; [lia|lia|]. split; [done|lia].
Qed.

Lemma side_at_frames c w w' s l : side_at c w s l → (∀ v f, frame w v f → 0 < pin_of l v → frame w' v f) → side_at c w' s l.
Proof.
  destruct s as [a|p c' off ptr], l as [b|o]; simpl; try done. intros (-> & -> & -> & Hf & f & Hk & ->) Hkeep.
  do 4 (split; [done|]). exists f. split; [|done]. apply Hkeep; [done|]. unfold one. by rewrite decide_True.
Qed.

Lemma pin_of_pos l v : 0 ≤ pin_of l v ≤ 1.
Proof. destruct l; simpl; [lia|]. unfold one. case_decide; lia. Qed.

Lemma ptr_not_null o : 0 ≤ o < 2 ^ 62 → is_null (mk_ptr (Some gc) o) = false.
Proof. intros Ho. unfold is_null. cbn [cache offset]. rewrite bool_decide_false by done. apply Z.eqb_neq. unfold NULL_OFFSET, MAX64. lia. Qed.

Lemma ptr_pin w0 w x o : balance w0 w x → grants w0 x → fits (LPage o) →
  ∃ w' f, CachedPtr.pin w (mk_ptr (Some gc) o) = Ok (w', f + o mod PAGE) ∧ balance w0 w' (λ v, x v + one (o / PAGE) v) ∧
    frame w' (o / PAGE) f ∧ keeps_frames w w' ∧ sp_written w' = sp_written w ∧ same_contents w w'.
Proof.
  intros Hbal Hg Hfit. destruct (bal_pin w0 w x (o / PAGE) Hbal Hg (page_in_space o Hfit)) as (w' & f & E & Hbal' & Hf & Hk & Hw & Hs).
  exists w', f. split; [|done]. unfold CachedPtr.pin. rewrite ptr_not_null by (by apply offset_small). cbn [offset].
  unfold page_id, in_page. rewrite page_id_div, page_offset_mod, E. cbn [mbind result_bind]. do 2 f_equal. apply Z.mod_small.
  destruct (frame_bounds w' _ f (bal_inv _ _ _ Hbal') Hf). pose proof (page_offset_split o). lia.
Qed.

Lemma ptr_unpin w o b : fits (LPage o) → CachedPtr.unpin w (mk_ptr (Some gc) o) b = sp_unpin w (o / PAGE) b.
Proof.
  intros Hfit. unfold CachedPtr.unpin. rewrite ptr_not_null by (by apply offset_small). cbn [offset]. unfold page_id. by rewrite page_id_div.
Qed.

Definition loc_of (ptr : Z) : loc := if cache_space_ptr ptr then LPage (offset_of ptr) else LRaw ptr.

Lemma open_side_ok c w0 w x ptr : balance w0 w x → grants w0 x → fits (loc_of ptr) →
  ∃ w' s, open_side gc w ptr c = Ok (w', s) ∧ balance w0 w' (λ v, x v + pin_of (loc_of ptr) v) ∧ side_at c w' s (loc_of ptr) ∧
    keeps_frames w w' ∧ sp_written w' = sp_written w ∧ same_contents w w'.
Proof.
  intros Hbal Hg Hfit. unfold open_side, loc_of in *. destruct (cache_space_ptr ptr).
  - assert (cptr gc ptr = mk_ptr (Some gc) (offset_of ptr)) as Ep.
    { unfold cptr, add, base_cached_ptr. cbn [cache offset]. f_equal. rewrite Z.mul_1_r, Z.add_0_l.
      apply Z.mod_small. pose proof (offset_small _ Hfit). lia. }
    rewrite Ep. destruct (ptr_pin w0 w x (offset_of ptr) Hbal Hg Hfit) as (w' & f & E & Hbal' & Hf & Hk & Hw & Hs).
    rewrite E. eexists w', _. split; [done|]. split; [done|]. split; [|done]. cbn [side_at]. split; [done|]. split; [done|]. split; [done|].
    split; [done|]. by exists f.
  - eexists w, _. split; [done|]. split; [|by repeat split; intros ??]. apply (balance_ext _ _ _ _ Hbal). intros v. simpl. lia.
Qed.

(** Only pages with pins of their own or the destination's page were written. *)
Lemma close_side_ok c w0 w s l x : sp_inv w0 → balance w0 w (λ v, x v + pin_of l v) → (∀ v, 0 ≤ x v) → side_at c w s l →
  (c = true → ∀ v, v ∈ sp_written w → pin_of l v = 1 → 1 < pins w v) →
  ∃ w', close_side w s = Ok w' ∧ balance w0 w' x ∧ (∀ v f, frame w v f → 0 < pins w' v → frame w' v f) ∧
    sp_written w' ⊆ sp_written w ∧ (c = false → ∀ v, v ∈ sp_written w' → pin_of l v = 0) ∧ same_contents w w'.
Proof.
  intros Hi0 Hbal Hx Hat Hc. destruct s as [a|p c' off ptr], l as [b|o]; try done.
  - exists w. split; [done|]. split; [|done]. apply (balance_ext _ _ _ _ Hbal). intros v. simpl. lia.
  - destruct Hat as (-> & -> & -> & Hfit & _). cbn [close_side]. rewrite ptr_unpin by done. cbn [pin_of] in *.
    destruct (bal_unpin w0 w _ (o / PAGE) (negb c) Hbal) as (w' & E & Hbal' & Hf & Hw & Hnw & Hs); [|done| |].
    + unfold one. rewrite decide_True by done. specialize (Hx (o / PAGE)). lia.
    + destruct c; [|by left]. right. destruct (decide (o / PAGE ∈ sp_written w)) as [Hin|]; [right|by left].
      apply Hc; [done|done|]. unfold one. by rewrite decide_True.
    + exists w'. split; [done|]. split; [|split; [done|]; split; [done|]; split; [|done]].
      * apply (balance_ext _ _ _ _ Hbal'). intros v. lia.
      * intros -> v Hv. unfold one. case_decide as Ev; [|done]. subst v. by apply Hnw in Hv.
Qed.

Lemma side_next_ok c w0 w s l x n : sp_inv w0 → balance w0 w (λ v, x v + pin_of l v) → grants w0 x → (∀ v, 0 ≤ x v) → side_at c w s l →
  (c = true → ∀ v, v ∈ sp_written w → pin_of l v = 1 → 1 < pins w v) →
  0 ≤ n ≤ room l → fits (shift l n) →
  ∃ w' s', side_next w s n = Ok (w', s') ∧ balance w0 w' (λ v, x v + pin_of (shift l n) v) ∧ side_at c w' s' (shift l n) ∧
    (∀ v f, frame w v f → 0 < x v → frame w' v f) ∧
    sp_written w' ⊆ sp_written w ∧ (c = false → ∀ v, v ∈ sp_written w' → pin_of l v ≤ pin_of (shift l n) v) ∧ same_contents w w'.
Proof.
  intros Hi0 Hbal Hgr Hx Hat Hc Hn Hfit'. pose proof (close_side_ok c w0 w s l x Hi0 Hbal Hx Hat Hc) as Hclose.
  destruct s as [a|p c' off ptr], l as [b|o]; try done.
  - simpl in Hat. subst b. eexists w, _. by split_and!.
  - destruct Hat as (-> & -> & -> & Hfit & f & Hf & ->). cbn [side_next room shift pin_of side_at close_side] in *.
    assert (add 1 (mk_ptr (Some gc) o) n = mk_ptr (Some gc) (o + n)) as Ep.
    { unfold add. cbn [cache offset]. f_equal. rewrite Z.mul_1_r. apply Z.mod_small. pose proof (offset_small _ Hfit'). lia. }
    rewrite Ep. destruct (Z.eqb_spec (o mod PAGE + n) PAGE) as [Hend|Hin].
    + destruct (page_next o n Hend) as [Eq Er].
      destruct Hclose as (w1 & -> & Hbal1 & Hf1 & Hw1 & Hnw1 & Hs1). cbn [mbind result_bind].
      destruct (ptr_pin w0 w1 x (o + n) Hbal1 Hgr Hfit') as (w2 & g & -> & Hbal2 & Hg & Hk2 & Hw2 & Hs2). cbn [mbind result_bind].
      rewrite Er. eexists w2, _. split; [done|]. split; [done|]. split.
      { do 2 (split; [done|]). split; [by rewrite Er|]. split; [done|]. by exists g. }
      split; [|split; [by rewrite Hw2|split; [|by eapply same_contents_trans]]].
      * intros v h Hh Hpos. apply Hk2, Hf1; [done|]. rewrite (bal_pins _ _ _ Hbal1). pose proof (pins_pos w0 v Hi0). lia.
      * rewrite Hw2. intros -> v Hv. rewrite (Hnw1 eq_refl v Hv). unfold one. case_decide; lia.
    + destruct (page_same o n) as [Eq Er]; [lia|lia|]. rewrite Eq. eexists w, _. split; [done|]. split; [done|]. split.
      { do 2 (split; [done|]). split; [by rewrite Er|]. split; [done|]. exists f. rewrite Eq. split; [done|lia]. }
      split; [done|]. split; [done|]. split; [done|]. apply same_contents_refl.
Qed.

Lemma room_pos l : 0 < room l.
Proof. destruct l as [|o]; simpl; [done|]. pose proof (page_offset_split o). lia. Qed.

Lemma loc_page_pin l v : v ∈ loc_page l ↔ pin_of l v = 1.
Proof. destruct l; simpl; [set_solver|]. unfold one. case_decide; set_solver. Qed.

Lemma loc_page_room l i : 0 ≤ i < room l → loc_page (shift l i) = loc_page l.
Proof. destruct l as [|o]; simpl; [done|]. intros Hi. by destruct (page_same o i) as [-> _]; [lia|lia|]. Qed.

(** Pages stored to in the copy: pinned before it, or the destination's. *)
Definition dirty_ok w0 w (ld : loc) : Prop := ∀ v, v ∈ sp_written w → v ∈ sp_written w0 ∨ pin_of ld v = 1.

Lemma source_may_unpin w0 w ld ls : sp_inv w0 → balance w0 w (λ v, pin_of ld v + pin_of ls v) → dirty_ok w0 w ld →
  ∀ v, v ∈ sp_written w → pin_of ls v = 1 → 1 < pins w v.
Proof.
  intros Hi0 Hbal Hd v Hv Hs. rewrite (bal_pins _ _ _ Hbal). pose proof (pins_pos w0 v Hi0). pose proof (pin_of_pos ld v).
  destruct (Hd v Hv) as [H0'|]; [|lia]. pose proof (sp_written_law w0 v Hi0 H0') as Hh.
  destruct (sp_held w0 !! v) as [[f k]|] eqn:E; [|done]. rewrite (frame_pins w0 v f k E). destruct (sp_held_law w0 v f k Hi0 E). lia.
Qed.

(** A side has one pin at most. *)
Lemma grants_fits w0 l : roomy w0 → fits l → grants w0 (pin_of l).
Proof. intros Hr Hf. destruct l as [a|o]; [by apply roomy_grants|]. apply Hr. by apply page_in_space. Qed.

Lemma grants_side w0 c w s l : roomy w0 → side_at c w s l → grants w0 (pin_of l).
Proof. intros Hr Hat. apply grants_fits; [done|]. destruct s, l; try done. apply Hat. Qed.

Lemma copy_step_ok w0 w d s ld ls n : sp_inv w0 → roomy w0 → balance w0 w (λ v, pin_of ld v + pin_of ls v) →
  side_at false w d ld → side_at true w s ls → dirty_ok w0 w ld → 0 ≤ n → n ≤ room ld → n ≤ room ls →
  fits (shift ld n) → fits (shift ls n) → valid_range ld n → valid_range ls n → disjoint_ranges ld ls n →
  let w1 := real_memcpy w (side_ptr d) (side_ptr s) (Z.to_nat n) in
  ∃ w2 d' w3 s', side_next w1 d n = Ok (w2, d') ∧ side_next w2 s n = Ok (w3, s') ∧
    balance w0 w3 (λ v, pin_of (shift ld n) v + pin_of (shift ls n) v) ∧ side_at false w3 d' (shift ld n) ∧
    side_at true w3 s' (shift ls n) ∧ dirty_ok w0 w3 (shift ld n) ∧ copied w w3 ld ls n.
Proof.
  intros Hi0 Hroom Hbal Hd Hs Hdirty Hn Hrd Hrs Hfd Hfs Hvd Hvs Hdis w1.
  assert (∀ i, 0 ≤ i < n → denotes w (side_ptr d + i) (shift ld i) ∧ denotes w (side_ptr s + i) (shift ls i) ∧ loc_page (shift ld i) ⊆ loc_page ld) as Hden.
  { intros i Hi. split; [apply (side_at_denotes false); [done|by apply Hvd|lia]|].
    split; [apply (side_at_denotes true); [done|by apply Hvs|lia]|]. by rewrite loc_page_room by lia. }
  pose proof (real_memcpy_spec (Z.to_nat n) w (side_ptr d) (side_ptr s) ld ls (loc_page ld) (bal_inv _ _ _ Hbal)) as Hcpy.
  fold w1 in Hcpy. rewrite Z2Nat.id in Hcpy by done. destruct (Hcpy Hden Hvd Hvs Hdis) as (Hi1 & Hh1 & Hw1 & Hc1).
  clearbody w1. assert (∀ v f, frame w v f → frame w1 v f) as Hfr1 by (unfold frame; by rewrite Hh1).
  pose proof (balance_held w0 w w1 _ Hbal Hi1 Hh1) as Hbal1.
  destruct (side_next_ok false w0 w1 d ld (pin_of ls) n Hi0) as (w2 & d' & E2 & Hbal2 & Hd2 & Hfr2 & Hw2 & Hnw2 & Hs2); [|by eapply grants_side|apply pin_of_pos|..|done|lia|done|].
  { apply (balance_ext _ _ _ _ Hbal1). intros v. lia. } { apply (side_at_frames _ w); auto. }
  assert (dirty_ok w0 w2 (shift ld n)) as Hdirty2.
  { intros v Hv. specialize (Hnw2 eq_refl v Hv). apply Hw2, Hw1 in Hv. pose proof (pin_of_pos (shift ld n) v).
    apply elem_of_union in Hv as [Hv%loc_page_pin|[Hv|Hv]%Hdirty]; [right; lia|by left|right; lia]. }
  assert (balance w0 w2 (λ v, pin_of (shift ld n) v + pin_of ls v)) as Hbal2'.
  { apply (balance_ext _ _ _ _ Hbal2). intros v. lia. }
  destruct (side_next_ok true w0 w2 s ls (pin_of (shift ld n)) n Hi0 Hbal2') as (w3 & s' & E3 & Hbal3 & Hs3 & Hfr3 & Hw3 & _ & Hsc3); [by apply grants_fits|apply pin_of_pos|..|lia|done|].
  { apply (side_at_frames _ w); auto. } { intros _. by apply (source_may_unpin w0 w2 (shift ld n) ls). }
  exists w2, d', w3, s'. split; [done|]. split; [done|]. split; [done|]. split; [|split; [done|split]].
  - apply (side_at_frames _ w2); [done|]. intros v f Hf Hp. by apply Hfr3.
  - intros v Hv. apply Hdirty2. by apply Hw3.
  - eapply (copied_same _ w w1); [done|done|apply same_contents_refl|done|]. by eapply same_contents_trans.
Qed.

Lemma copy_loop_ok fuel w0 w d s ld ls n : sp_inv w0 → roomy w0 → balance w0 w (λ v, pin_of ld v + pin_of ls v) →
  side_at false w d ld → side_at true w s ls → dirty_ok w0 w ld → 0 ≤ n < 2 ^ 64 → n ≤ Z.of_nat fuel →
  (∀ i, 0 ≤ i ≤ n → fits (shift ld i) ∧ fits (shift ls i)) → valid_range ld n → valid_range ls n → disjoint_ranges ld ls n →
  ∃ w' d' s', copy_loop fuel w d s n = Ok (w', d', s') ∧
    balance w0 w' (λ v, pin_of (shift ld n) v + pin_of (shift ls n) v) ∧ side_at false w' d' (shift ld n) ∧
    side_at true w' s' (shift ls n) ∧ dirty_ok w0 w' (shift ld n) ∧ copied w w' ld ls n.
Proof.
  intros Hi0 Hroom. revert w d s ld ls n. induction fuel as [|fuel IH]; intros w d s ld ls n Hbal Hd Hs Hdirty Hn Hfuel Hfit Hvd Hvs Hdis.
  - assert (n = 0) as -> by lia. rewrite !shift_0. exists w, d, s. repeat (split; [done|]). split; [lia|done].
  - cbn [copy_loop]. destruct (Z.ltb_spec 0 n) as [Hpos|Hz].
    2: { assert (n = 0) as -> by lia. rewrite !shift_0. exists w, d, s. repeat (split; [done|]). split; [lia|done]. }
    rewrite (side_at_room true w s ls n Hs) by lia. pose proof (room_pos ld). pose proof (room_pos ls).
    rewrite (side_at_room false w d ld _ Hd) by lia. set (k := Z.min (room ld) (Z.min (room ls) n)).
    destruct (copy_step_ok w0 w d s ld ls k Hi0 Hroom Hbal Hd Hs Hdirty) as (w2 & d' & w3 & s' & E2 & E3 & Hbal3 & Hd3 & Hs3 & Hdirty3 & Hc3);
      [lia|lia|lia|apply Hfit; lia|apply Hfit; lia|intros i Hi; apply Hvd; lia|intros i Hi; apply Hvs; lia|intros i j Hi Hj; apply Hdis; lia|].
    cbn zeta in E2. rewrite E2. cbn [mbind result_bind]. rewrite E3. cbn [mbind result_bind].
    destruct (IH w3 d' s' (shift ld k) (shift ls k) (n - k) Hbal3 Hd3 Hs3 Hdirty3) as (w' & d'' & s'' & E & Hbal' & Hd' & Hs' & Hdirty' & Hc');
      [lia|lia|intros i Hi; rewrite !shift_shift; apply Hfit; lia|intros i Hi; rewrite !shift_shift; apply Hvd; lia
      |intros i Hi; rewrite !shift_shift; apply Hvs; lia|intros i j Hi Hj; rewrite !shift_shift; apply Hdis; lia|].
    rewrite !shift_shift in *. replace (k + (n - k)) with n in * by lia. exists w', d'', s''. repeat (split; [done|]).
    replace n with (k + (n - k)) by lia. eapply copied_trans; [lia|..|done|done]; replace (k + (n - k)) with n by lia; done || lia.
Qed.

Lemma loc_of_raw ptr : cache_space_ptr ptr = false → loc_of ptr = LRaw ptr.
Proof. unfold loc_of. by intros ->. Qed.

Lemma memcpy_ok w dst src n : sp_inv w → roomy w → 0 ≤ n < 2 ^ 64 → inside (loc_of dst) n → inside (loc_of src) n →
  disjoint_ranges (loc_of dst) (loc_of src) n →
  ∃ w', cache_memcpy gc w dst src n = Ok (w', dst) ∧ sp_inv w' ∧ sp_held w' = sp_held w ∧ copied w w' (loc_of dst) (loc_of src) n.
Proof.
  intros Hi Hroom Hn Hind Hins Hdis. pose proof (inside_valid _ _ Hind) as Hvd. pose proof (inside_valid _ _ Hins) as Hvs.
  assert (∀ i, 0 ≤ i ≤ n → fits (shift (loc_of dst) i) ∧ fits (shift (loc_of src) i)) as Hfit.
  { intros i Hir. split; by eapply inside_fits. }
  unfold cache_memcpy. destruct (cache_space_ptr dst || cache_space_ptr src) eqn:Ec.
  - destruct (Hfit 0) as [Hf1 Hf2]; [lia|]. rewrite shift_0 in Hf1, Hf2.
    destruct (open_side_ok false w w _ dst (balance_refl w Hi) (roomy_grants w _ Hroom (λ _, Z.le_refl 0)) Hf1) as (w1 & d & -> & Hb1 & Hd1 & _ & Hw1 & Hs1). cbn [mbind result_bind].
    destruct (open_side_ok true w w1 _ src Hb1 (grants_fits w _ Hroom Hf1) Hf2) as (w2 & s & -> & Hb2 & Hs2 & Hk2 & Hw2 & Hsc2). cbn [mbind result_bind].
    assert (side_at false w2 d (loc_of dst)) as Hd2 by (apply (side_at_frames _ w1); auto).
    destruct (copy_loop_ok (Z.to_nat n) w w2 d s (loc_of dst) (loc_of src) n Hi Hroom) as (w3 & d' & s' & -> & Hb3 & Hd3 & Hs3 & Hdirty & Hcp); try done; [|lia|].
    { intros v. rewrite Hw2, Hw1. by left. }
    cbn [mbind result_bind].
    destruct (close_side_ok false w w3 d' (shift (loc_of dst) n) (pin_of (shift (loc_of src) n)) Hi) as (w4 & -> & Hb4 & Hf4 & Hw4 & Hnw4 & Hsc4); [|apply pin_of_pos|done|done|].
    { apply (balance_ext _ _ _ _ Hb3). intros v. lia. }
    cbn [mbind result_bind].
    destruct (close_side_ok true w w4 s' (shift (loc_of src) n) (λ _, 0) Hi) as (w5 & -> & Hb5 & _ & _ & _ & Hsc5); [|done|..].
    { apply (balance_ext _ _ _ _ Hb4). intros v. lia. }
    { apply (side_at_frames _ w3); [done|]. intros v f Hf Hp. apply Hf4; [done|]. rewrite (bal_pins _ _ _ Hb4). pose proof (pins_pos w v Hi). lia. }
    { intros _. apply (source_may_unpin w w4 (LRaw 0)); [done|done|]. intros v Hv. left. pose proof (Hnw4 eq_refl v Hv).
      apply Hw4, Hdirty in Hv as [|]; [done|lia]. }
    exists w5. split; [done|]. split; [apply (bal_inv _ _ _ Hb5)|]. split; [by apply balance_end|].
    eapply (copied_same _ w2 w3); [done|done| |done|]; by eapply same_contents_trans.
  - apply orb_false_iff in Ec as [Ed Es]. rewrite (loc_of_raw _ Ed), (loc_of_raw _ Es) in *. eexists. split; [done|].
    destruct (real_memcpy_spec (Z.to_nat n) w dst src (LRaw dst) (LRaw src) ∅ Hi) as (Hi' & Hh & _ & Hc); rewrite ?Z2Nat.id in * by lia; try done.
    intros i Hir. split; [|split; [|done]]; simpl; [by specialize (Hvd i Hir)|by specialize (Hvs i Hir)].
Qed.

Definition ptr_at (b : byte_ptr) (l : loc) : Prop :=
  match b, l with RawPtr a, LRaw a' => a = a' | CachePtr p _, LPage o => p = mk_ptr (Some gc) o | _, _ => False end.
Definition writable (b : byte_ptr) : Prop := match b with RawPtr _ => True | CachePtr _ c => c = false end.

Lemma space_ptr_at ptr : fits (loc_of ptr) → cache_space_ptr ptr = true → cptr gc ptr = mk_ptr (Some gc) (offset_of ptr).
Proof.
  unfold loc_of. intros Hfit Ec. rewrite Ec in Hfit. unfold cptr, add, base_cached_ptr. cbn [cache offset]. f_equal.
  rewrite Z.mul_1_r, Z.add_0_l. apply Z.mod_small. pose proof (offset_small _ Hfit). lia.
Qed.

Lemma ptr_of_at c ptr : fits (loc_of ptr) → ptr_at (ptr_of gc c ptr) (loc_of ptr).
Proof.
  intros Hfit. pose proof (space_ptr_at ptr Hfit) as Hp. unfold ptr_of, loc_of in *. destruct (cache_space_ptr ptr); [|done]. by apply Hp.
Qed.

Lemma ptr_of_writable ptr : writable (ptr_of gc false ptr).
Proof. unfold ptr_of. by destruct (cache_space_ptr ptr). Qed.

Lemma advance_at b l n : ptr_at b l → inside l n → 0 < n → ptr_at (advance b 1) (shift l 1).
Proof.
  destruct b as [a|p c], l as [a'|o]; try done; cbn [ptr_at advance shift]; intros -> Hin Hn.
  - apply Z.mod_small. simpl in Hin. lia.
  - unfold add. cbn [cache offset]. f_equal. rewrite Z.mul_1_r. apply Z.mod_small. simpl in Hin. destruct sp_size. lia.
Qed.

Lemma advance_writable b : writable b → writable (advance b 1).
Proof. by destruct b. Qed.

Lemma frame_not_null f o : 0 < f → f + PAGE ≤ 2 ^ 64 → (w64 (f + o mod PAGE) =? 0) = false ∧ w64 (f + o mod PAGE) = f + o mod PAGE.
Proof.
  intros Hf1 Hf2. pose proof (page_offset_split o). assert (w64 (f + o mod PAGE) = f + o mod PAGE) as -> by (apply Z.mod_small; lia).
  split; [apply Z.eqb_neq; lia|done].
Qed.

Lemma get_ok c w o : sp_inv w → fits (LPage o) → ∃ w' f, CachedPtr.get c w (mk_ptr (Some gc) o) = Ok (w', f) ∧ (f =? 0) = false ∧
  quiet w w' ∧ raw_load w' f = contents w (LPage o) ∧ (c = false → ∀ y, stored w (raw_store w' f y) (LPage o) y).
Proof.
  intros Hi Hfit. destruct (page_offset_split o) as [Eo Ho].
  destruct (sp_access_law w (o / PAGE) (negb c) Hi (page_in_space o Hfit)) as (w' & f & E & Hi' & Hh & Hb & Hp & Hf1 & Hf2 & Hl & Hst).
  destruct (frame_not_null f o Hf1 Hf2) as [Ez Ef].
  assert (CachedPtr.get c w (mk_ptr (Some gc) o) = Ok (w', f + o mod PAGE)) as Eg.
  { unfold CachedPtr.get. rewrite ptr_not_null by (by apply offset_small). cbn [offset]. unfold page_id, in_page.
    rewrite page_id_div, page_offset_mod, E. cbn [mbind result_bind]. by rewrite Ef. }
  exists w', (f + o mod PAGE). rewrite <- Ef at 2. split; [done|]. split; [by rewrite Ef in *|]. split.
  { split; [done|]. split; [done|]. intros [a|o'] Hv; simpl; auto. }
  split; [rewrite Hl by done; simpl; by rewrite <- Eo|]. intros -> y.
  destruct (Hst eq_refl (o mod PAGE) y Ho) as (Hi2 & Hh2 & Hb2 & Hp2). split; [done|]. split; [done|].
  intros [a|o'] Hv; cbn [contents valid] in *; [rewrite Hp2 by done; by case_decide|].
  rewrite Hb2, <- Eo. repeat case_decide; congruence.
Qed.

Lemma bload_ok w b l : sp_inv w → ptr_at b l → fits l → valid l → ∃ w', bload w b = Ok (w', contents w l) ∧ quiet w w'.
Proof.
  intros Hi Hat Hfit Hv. destruct b as [a|p c], l as [a'|o]; try done; cbn [ptr_at] in Hat; subst.
  - exists w. by split; [|apply quiet_refl].
  - destruct (get_ok c w o Hi Hfit) as (w' & f & E & Ez & Hq & Hl & _). exists w'. split; [|done].
    cbn [bload]. unfold load. rewrite E. cbn [mbind result_bind]. by rewrite Ez, Hl.
Qed.

Lemma bstore_ok w b l x : sp_inv w → ptr_at b l → writable b → fits l → valid l → ∃ w', bstore w b x = Ok w' ∧ stored w w' l x.
Proof.
  intros Hi Hat Hw Hfit Hv. destruct b as [a|p c], l as [a'|o]; try done; cbn [ptr_at writable] in Hat, Hw; subst.
  - eexists. split; [done|]. destruct (store_denotes w a' (LRaw a') x Hi) as (Hi' & Hh & _ & Hc); [done|]. done.
  - destruct (get_ok false w o Hi Hfit) as (w' & f & E & Ez & Hq & _ & Hs). eexists. split; [|by apply Hs].
    cbn [bstore]. unfold CachedPtr.store. rewrite E. cbn [mbind result_bind]. by rewrite Ez.
Qed.

Lemma set_loop_ok n w b l c : sp_inv w → ptr_at b l → writable b → inside l (Z.of_nat n) →
  ∃ w', set_loop w b c n = Ok w' ∧ changed w w' l (Z.of_nat n) (λ _, c).
Proof.
  revert w b l. induction n as [|n IH]; intros w b l Hi Hat Hw Hin.
  - exists w. split; [done|]. by apply changed_nil, quiet_refl.
  - destruct (inside_0 l _ Hin) as [Hfit Hv]; [lia|]. destruct (bstore_ok w b l c Hi Hat Hw Hfit Hv) as (w1 & E & Hst).
    cbn [set_loop]. rewrite E. cbn [mbind result_bind]. pose proof (inside_1 l _ Hin) as Hin1.
    destruct (IH w1 (advance b 1) (shift l 1)) as (w2 & E2 & Hch); [by destruct Hst|apply (advance_at _ _ (Z.of_nat (S n))); [done|done|lia]|by apply advance_writable
      |replace (Z.of_nat n) with (Z.of_nat (S n) - 1) by lia; apply Hin1; lia|].
    exists w2. split; [done|]. replace (Z.of_nat (S n)) with (1 + Z.of_nat n) by lia. by apply (changed_cons w w1 w2); [lia|..].
Qed.

(** *** Copies in order *)
Definition up_safe (ld ls : loc) (n : Z) : Prop := ∀ i j, 0 ≤ i < j → j < n → shift ld i ≠ shift ls j.
Definition down_safe (ld ls : loc) (n : Z) : Prop := ∀ i j, 0 ≤ j < i → i < n → shift ld i ≠ shift ls j.

Lemma up_safe_1 ld ls n : up_safe ld ls (1 + n) → up_safe (shift ld 1) (shift ls 1) n.
Proof. intros Hs i j Hi Hj. rewrite !shift_shift. apply Hs; lia. Qed.

Lemma move_up_ok n w bd bs ld ls : sp_inv w → ptr_at bd ld → writable bd → ptr_at bs ls →
  inside ld (Z.of_nat n) → inside ls (Z.of_nat n) → up_safe ld ls (Z.of_nat n) →
  ∃ w', move_up w bd bs n = Ok w' ∧ changed w w' ld (Z.of_nat n) (λ i, contents w (shift ls i)).
Proof.
  revert w bd bs ld ls. induction n as [|n IH]; intros w bd bs ld ls Hi Hd Hw Hs Hid His Hsafe.
  - exists w. split; [done|]. by apply changed_nil, quiet_refl.
  - destruct (inside_0 ld _ Hid) as [Hfd Hvd]; [lia|]. destruct (inside_0 ls _ His) as [Hfs Hvs]; [lia|].
    replace (Z.of_nat (S n)) with (1 + Z.of_nat n) in * by lia.
    destruct (bload_ok w bs ls Hi Hs Hfs Hvs) as (w1 & E1 & Hq1). cbn [move_up]. rewrite E1. cbn [mbind result_bind].
    destruct (bstore_ok w1 bd ld (contents w ls) (proj1 Hq1) Hd Hw Hfd Hvd) as (w2 & E2 & Hst). rewrite E2. cbn [mbind result_bind].
    pose proof (inside_1 _ _ Hid ltac:(lia)) as Hid1. pose proof (inside_1 _ _ His ltac:(lia)) as His1. rewrite Z.add_simpl_l in Hid1, His1.
    destruct (IH w2 (advance bd 1) (advance bs 1) (shift ld 1) (shift ls 1)) as (w3 & E3 & Hch); [by destruct Hst|apply (advance_at _ _ (1 + Z.of_nat n)); [done|done|lia]
      |by apply advance_writable|apply (advance_at _ _ (1 + Z.of_nat n)); [done|done|lia]|done|done|by apply up_safe_1|].
    exists w3. split; [done|]. eapply changed_quiet; [exact Hq1|]. eapply (changed_cons w1 w2 w3); [lia|done|by rewrite shift_0|].
    eapply changed_ext; [|done]. intros i Hir. destruct Hst as (_ & _ & Hc). simpl. rewrite shift_shift.
    assert (valid (shift ls (1 + i))) as Hvi by (apply (inside_valid _ _ His); lia).
    rewrite Hc, decide_False; [by apply Hq1| |done]. intros E. apply (Hsafe 0 (1 + i)); [lia|lia|]. by rewrite shift_0.
Qed.

Lemma index_get c w o i : 0 ≤ i → fits (LPage o) → fits (LPage (o + i)) → index 1 c w (mk_ptr (Some gc) o) i = CachedPtr.get c w (mk_ptr (Some gc) (o + i)).
Proof.
  intros Hi Hf1 Hf. unfold index, CachedPtr.get. rewrite ptr_not_null by (by apply offset_small). cbn [offset].
  replace (w64 (o + i * 1)) with (o + i); [done|]. rewrite Z.mul_1_r. symmetry. apply Z.mod_small. pose proof (offset_small _ Hf). lia.
Qed.

Lemma move_down_ok n w od os : sp_inv w → inside (LPage od) (Z.of_nat n) → inside (LPage os) (Z.of_nat n) → down_safe (LPage od) (LPage os) (Z.of_nat n) →
  ∃ w', move_down w (mk_ptr (Some gc) od) (mk_ptr (Some gc) os) n = Ok w' ∧ changed w w' (LPage od) (Z.of_nat n) (λ i, contents w (shift (LPage os) i)).
Proof.
  revert w. induction n as [|n IH]; intros w Hi Hid His Hsafe.
  - exists w. split; [done|]. by apply changed_nil, quiet_refl.
  - replace (Z.of_nat (S n)) with (Z.of_nat n + 1) in * by lia. cbn [move_down].
    rewrite index_get by (try lia; cbn [inside fits] in *; lia).
    destruct (get_ok true w (os + Z.of_nat n) Hi) as (w1 & f & E1 & _ & Hq1 & Hl1 & _); [cbn [inside fits] in *; lia|]. rewrite E1. cbn [mbind result_bind].
    rewrite index_get by (try lia; cbn [inside fits] in *; lia).
    destruct (get_ok false w1 (od + Z.of_nat n) (proj1 Hq1)) as (w2 & g & E2 & _ & _ & _ & Hst); [cbn [inside fits] in *; lia|]. rewrite E2. cbn [mbind result_bind].
    specialize (Hst eq_refl (raw_load w1 f)). set (w3 := raw_store w2 g (raw_load w1 f)) in *.
    destruct (IH w3) as (w' & E & Hch); [by destruct Hst|eapply inside_le; [done|lia]|eapply inside_le; [done|lia]|intros i j Hj Hir; apply Hsafe; lia|].
    exists w'. split; [done|]. eapply changed_quiet; [exact Hq1|]. eapply (changed_snoc w1 w3 w'); [lia|done|by rewrite Hl1 in Hst|].
    eapply changed_ext; [|done]. intros i Hir. destruct Hst as (_ & _ & Hc).
    rewrite Hc, decide_False; [by apply Hq1| |done]. intros Heq. by apply (Hsafe (Z.of_nat n) i); [lia|lia|].
Qed.

Lemma raw_up_ok n w a b : sp_inv w → inside (LRaw a) (Z.of_nat n) → inside (LRaw b) (Z.of_nat n) → up_safe (LRaw a) (LRaw b) (Z.of_nat n) →
  changed w (real_memcpy w a b n) (LRaw a) (Z.of_nat n) (λ i, contents w (shift (LRaw b) i)).
Proof.
  revert w a b. induction n as [|n IH]; intros w a b Hi Ha Hb Hsafe; [by apply changed_nil, quiet_refl|].
  replace (Z.of_nat (S n)) with (1 + Z.of_nat n) in * by lia. destruct (inside_0 _ _ Ha) as [_ Hva]; [lia|].
  destruct (store_denotes w a (LRaw a) (raw_load w b) Hi) as (Hi1 & Hh1 & _ & Hc1); [done|].
  pose proof (inside_1 _ _ Ha ltac:(lia)) as Ha1. pose proof (inside_1 _ _ Hb ltac:(lia)) as Hb1. rewrite Z.add_simpl_l in Ha1, Hb1.
  cbn [real_memcpy]. set (w1 := raw_store w a (raw_load w b)) in *. eapply (changed_cons w w1); [lia|done|by rewrite shift_0|].
  eapply changed_ext; [|apply (IH w1 (a + 1) (b + 1) Hi1 Ha1 Hb1); by apply (up_safe_1 (LRaw a) (LRaw b))].
  intros i Hir. change (LRaw (b + 1)) with (shift (LRaw b) 1). cbv beta. rewrite shift_shift.
  rewrite Hc1, decide_False; [done| |apply (inside_valid _ _ Hb); lia]. intros E. apply (Hsafe 0 (1 + i)); [lia|lia|]. by rewrite shift_0.
Qed.

Lemma raw_down_ok n w a b : sp_inv w → inside (LRaw a) (Z.of_nat n) → inside (LRaw b) (Z.of_nat n) → down_safe (LRaw a) (LRaw b) (Z.of_nat n) →
  changed w (raw_move_down w a b n) (LRaw a) (Z.of_nat n) (λ i, contents w (shift (LRaw b) i)).
Proof.
  revert w. induction n as [|n IH]; intros w Hi Ha Hb Hsafe; [by apply changed_nil, quiet_refl|].
  replace (Z.of_nat (S n)) with (Z.of_nat n + 1) in * by lia.
  pose proof (inside_valid _ _ Ha (Z.of_nat n) ltac:(lia)) as Hva.
  destruct (store_denotes w (a + Z.of_nat n) (shift (LRaw a) (Z.of_nat n)) (raw_load w (b + Z.of_nat n)) Hi) as (Hi1 & Hh1 & _ & Hc1); [done|].
  cbn [raw_move_down]. set (w1 := raw_store w (a + Z.of_nat n) (raw_load w (b + Z.of_nat n))) in *.
  eapply (changed_snoc w w1); [lia|done|done|].
  eapply changed_ext; [|apply (IH w1 Hi1); [eapply inside_le; [done|lia]|eapply inside_le; [done|lia]|intros i j Hj Hir; apply Hsafe; lia]].
  intros i Hir. cbv beta. rewrite Hc1, decide_False; [done| |apply (inside_valid _ _ Hb); lia]. intros E. apply (Hsafe (Z.of_nat n) i); [lia|lia|done].
Qed.

(** The unsigned test of the distance of the ranges. *)
Lemma ranges_apart_disjoint od os n : 0 ≤ od < 2 ^ 62 → 0 ≤ os < 2 ^ 62 → 0 ≤ n < 2 ^ 62 →
  ranges_apart (mk_ptr (Some gc) od) (mk_ptr (Some gc) os) n = true → n = 0 ∨ od + n ≤ os ∨ os + n ≤ od.
Proof.
  intros Hd Hs Hn. unfold ranges_apart, distance. cbn [offset]. rewrite !to_int64_small, Z.quot_1_r by lia. rewrite Z.leb_le.
  destruct (Z.eq_dec n 0) as [->|Hne]; [by left|]. intros Hle. right.
  assert (w64 (-2 * n) = 2 ^ 64 - 2 * n) as E2 by (unfold w64; symmetry; apply (Z.mod_unique_pos _ _ (-1)); lia).
  destruct (Z_le_gt_dec (os - od) (- n)); [right; lia|]. destruct (Z_le_gt_dec n (os - od)); [left; lia|]. exfalso.
  assert (w64 (os - od - n) = 2 ^ 64 + (os - od - n)) as E1 by (unfold w64; symmetry; apply (Z.mod_unique_pos _ _ (-1)); lia).
  lia.
Qed.

Lemma memmove_ok w dst src n : sp_inv w → roomy w → 0 ≤ n < 2 ^ 62 → inside (loc_of dst) n → inside (loc_of src) n →
  ∃ w', cache_memmove gc w dst src n = Ok (w', dst) ∧ changed w w' (loc_of dst) n (λ i, contents w (shift (loc_of src) i)).
Proof.
  intros Hi Hroom Hn Hind Hins.
  assert (disjoint_ranges (loc_of dst) (loc_of src) n → ∃ w', cache_memcpy gc w dst src n = Ok (w', dst) ∧
    changed w w' (loc_of dst) n (λ i, contents w (shift (loc_of src) i))) as Hcpy.
  { intros Hdis. destruct (memcpy_ok w dst src n Hi Hroom ltac:(lia) Hind Hins Hdis) as (w' & E & Hi' & Hh & Hc). exists w'. split; [done|]. by apply changed_copied. }
  pose proof (space_ptr_at dst) as Ed. pose proof (space_ptr_at src) as Es.
  assert (fits (loc_of dst)) as Hfd by (rewrite <- (shift_0 (loc_of dst)); eapply inside_fits; [done|lia]).
  assert (fits (loc_of src)) as Hfs by (rewrite <- (shift_0 (loc_of src)); eapply inside_fits; [done|lia]).
  specialize (Ed Hfd). specialize (Es Hfs).
  unfold cache_memmove, loc_of in *. destruct (cache_space_ptr dst), (cache_space_ptr src).
  - rewrite Ed, Es by done. pose proof (offset_small _ Hfd). pose proof (offset_small _ Hfs). clear Ed Es.
    set (od := offset_of dst) in *. set (os := offset_of src) in *.
    destruct (ptr_eq _ _) eqn:Eeq.
    { exists w. split; [done|]. assert (od = os) as <-.
      { unfold ptr_eq in Eeq. cbn [cache offset] in Eeq. unfold NULL_OFFSET, MAX64 in Eeq. bool_to_prop. naive_solver lia. }
      split; [done|]. split; [done|]. split; [done|]. done. }
    destruct (ranges_apart _ _ _) eqn:Ea.
    { apply Hcpy. apply ranges_apart_disjoint in Ea; [|lia|lia|lia]. intros i j Hi1 Hj1 [=]. lia. }
    assert (n = Z.of_nat (Z.to_nat n)) as En by lia. rewrite En in Hind, Hins.
    unfold ptr_lt. cbn [cache offset]. rewrite bool_decide_true by done. cbn [andb]. destruct (Z.ltb_spec od os).
    + destruct (move_up_ok (Z.to_nat n) w (CachePtr (mk_ptr (Some gc) od) false) (CachePtr (mk_ptr (Some gc) os) true) (LPage od) (LPage os)) as (w' & E & Hch);
        try done; [intros i j ?? [=]; lia|]. rewrite E. exists w'. by rewrite <- En in Hch.
    + destruct (move_down_ok (Z.to_nat n) w od os Hi Hind Hins) as (w' & E & Hch); [intros i j ?? [=]; lia|].
      rewrite E. exists w'. by rewrite <- En in Hch.
  - apply Hcpy. by intros i j _ _.
  - apply Hcpy. by intros i j _ _.
  - clear Ed Es. assert (n = Z.of_nat (Z.to_nat n)) as En by lia. unfold real_memmove. eexists. split; [done|].
    rewrite En in Hind, Hins |- *. rewrite Nat2Z.id. destruct (Z.ltb_spec dst src).
    + apply raw_up_ok; [done|done|done|]. intros i j ?? [=]; lia.
    + apply raw_down_ok; [done|done|done|]. intros i j ?? [=]; lia.
Qed.

(** *** Strings and comparisons *)

(** At [l] there is a string of [k] bytes. *)
Definition string_at w (l : loc) (k : Z) : Prop := (∀ i, 0 ≤ i < k → contents w (shift l i) ≠ 0) ∧ contents w (shift l k) = 0.

Lemma string_at_1 w l k : 0 < k → string_at w l k → contents w l ≠ 0 ∧ string_at w (shift l 1) (k - 1).
Proof.
  intros Hk [Hn Hz]. split; [rewrite <- (shift_0 l); apply Hn; lia|].
  split; [|rewrite shift_shift; by replace (1 + (k - 1)) with k by lia]. intros i Hi. rewrite shift_shift. apply Hn. lia.
Qed.

Lemma string_at_quiet w w' l k : 0 ≤ k → valid_range l (k + 1) → quiet w w' → string_at w l k → string_at w' l k.
Proof.
  intros Hk Hv (_ & _ & Hs) [Hn Hz]. split; [|rewrite Hs; [done|apply Hv; lia]]. intros i Hi. rewrite Hs; [by apply Hn|apply Hv; lia].
Qed.

Lemma len_loop_ok fuel w b l k i : sp_inv w → ptr_at b l → 0 ≤ k → inside l (k + 1) → string_at w l k → k < Z.of_nat fuel →
  ∃ w', len_loop fuel w b i = Ok (w', i + k) ∧ quiet w w'.
Proof.
  revert w b l k i. induction fuel as [|fuel IH]; intros w b l k i Hi Hat Hk Hin Hs Hf; [lia|].
  destruct (inside_0 l _ Hin) as [Hfit Hv]; [lia|]. destruct (bload_ok w b l Hi Hat Hfit Hv) as (w1 & E1 & Hq1).
  cbn [len_loop]. rewrite E1. cbn [mbind result_bind]. destruct (decide (k = 0)) as [->|Hne].
  - destruct Hs as [_ Hz]. rewrite shift_0 in Hz. rewrite Hz. exists w1. by rewrite Z.add_0_r.
  - destruct (string_at_1 w l k) as [Hc Hs1]; [lia|done|]. rewrite (proj2 (Z.eqb_neq _ _) Hc). pose proof (inside_1 l _ Hin ltac:(lia)) as Hin1.
    destruct (IH w1 (advance b 1) (shift l 1) (k - 1) (i + 1)) as (w2 & E2 & Hq2);
      [apply Hq1|apply (advance_at _ _ (k + 1)); [done|done|lia]|lia|by replace (k - 1 + 1) with (k + 1 - 1) by lia| |lia|].
    { apply (string_at_quiet w); [lia| |done|done]. apply inside_valid. by replace (k - 1 + 1) with (k + 1 - 1) by lia. }
    exists w2. split; [rewrite E2; do 2 f_equal; lia|by eapply quiet_trans].
Qed.

Lemma cpy_loop_ok fuel w bd bs ld ls k : sp_inv w → ptr_at bd ld → writable bd → ptr_at bs ls → 0 ≤ k →
  inside ld (k + 1) → inside ls (k + 1) → up_safe ld ls (k + 1) → string_at w ls k → k < Z.of_nat fuel →
  ∃ w', cpy_loop fuel w bd bs = Ok w' ∧ changed w w' ld (k + 1) (λ i, contents w (shift ls i)).
Proof.
  revert w bd bs ld ls k. induction fuel as [|fuel IH]; intros w bd bs ld ls k Hi Hd Hw Hs Hk Hid His Hsafe Hstr Hf; [lia|].
  destruct (inside_0 ld _ Hid) as [Hfd Hvd]; [lia|]. destruct (inside_0 ls _ His) as [Hfs Hvs]; [lia|].
  replace (k + 1) with (1 + k) in * by lia.
  destruct (bload_ok w bs ls Hi Hs Hfs Hvs) as (w1 & E1 & Hq1). cbn [cpy_loop]. rewrite E1. cbn [mbind result_bind].
  destruct (bstore_ok w1 bd ld (contents w ls) (proj1 Hq1) Hd Hw Hfd Hvd) as (w2 & E2 & Hst). rewrite E2. cbn [mbind result_bind].
  destruct (decide (k = 0)) as [->|Hne].
  { pose proof (proj2 Hstr) as Hz. rewrite shift_0 in Hz. rewrite Hz in Hst |- *. exists w2. split; [done|]. eapply changed_quiet; [exact Hq1|].
    eapply (changed_cons w1 w2 w2); [done|done|rewrite shift_0, Hz; done|]. apply changed_nil, quiet_refl. by destruct Hst. }
  destruct (string_at_1 w ls k) as [Hc Hs1]; [lia|done|]. rewrite (proj2 (Z.eqb_neq _ _) Hc).
  pose proof (inside_1 _ _ Hid ltac:(lia)) as Hid1. pose proof (inside_1 _ _ His ltac:(lia)) as His1. rewrite Z.add_simpl_l in Hid1, His1.
  assert (∀ i, 0 ≤ i < k → contents w2 (shift (shift ls 1) i) = contents w (shift (shift ls 1) i)) as Hrest.
  { intros i Hir. destruct Hst as (_ & _ & Hcs). rewrite shift_shift. assert (valid (shift ls (1 + i))) as Hvi by (apply (inside_valid _ _ His); lia).
    rewrite Hcs, decide_False; [by apply Hq1| |done]. intros E. apply (Hsafe 0 (1 + i)); [lia|lia|]. by rewrite shift_0. }
  destruct (IH w2 (advance bd 1) (advance bs 1) (shift ld 1) (shift ls 1) (k - 1)) as (w3 & E3 & Hch);
    [by destruct Hst|apply (advance_at _ _ (1 + k)); [done|done|lia]|by apply advance_writable|apply (advance_at _ _ (1 + k)); [done|done|lia]
    |lia|by rewrite Z.sub_simpl_r|by rewrite Z.sub_simpl_r|rewrite Z.sub_simpl_r; by apply up_safe_1| |lia|].
  { destruct Hs1 as [Hn Hz]. split; [intros i Hir|]; rewrite Hrest by lia; [by apply Hn|done]. }
  exists w3. split; [done|]. eapply changed_quiet; [exact Hq1|]. rewrite Z.sub_simpl_r in Hch.
  eapply (changed_cons w1 w2 w3); [lia|done|by rewrite shift_0|].
  eapply changed_ext; [|done]. intros i Hir. cbv beta. rewrite Hrest by lia. by rewrite shift_shift.
Qed.

(** The result of a comparison of [n] bytes: the first difference. *)
Definition compares w (ll lr : loc) (n r : Z) : Prop :=
  (r = 0 ∧ ∀ i, 0 ≤ i < n → contents w (shift ll i) = contents w (shift lr i)) ∨
  (∃ k, 0 ≤ k < n ∧ (∀ i, 0 ≤ i < k → contents w (shift ll i) = contents w (shift lr i)) ∧
    contents w (shift ll k) ≠ contents w (shift lr k) ∧ r = contents w (shift ll k) - contents w (shift lr k)).

Lemma compares_cons w ll lr n r : 0 ≤ n → contents w ll = contents w lr → compares w (shift ll 1) (shift lr 1) n r → compares w ll lr (1 + n) r.
Proof.
  intros Hn E0. assert (∀ k, (∀ i, 0 ≤ i < k → contents w (shift (shift ll 1) i) = contents w (shift (shift lr 1) i)) →
    ∀ i, 0 ≤ i < 1 + k → contents w (shift ll i) = contents w (shift lr i)) as Hpre.
  { intros k Hk i Hi. destruct (decide (i = 0)) as [->|]; [by rewrite !shift_0|]. specialize (Hk (i - 1) ltac:(lia)).
    rewrite !shift_shift in Hk. by replace (1 + (i - 1)) with i in Hk by lia. }
  intros [[-> Hall]|(k & Hk & Hall & Hne & ->)]; [left|right].
  - split; [done|]. by apply Hpre.
  - exists (1 + k). rewrite <- !shift_shift. split; [lia|]. split; [by apply Hpre|done].
Qed.

Lemma compares_quiet w w' ll lr n r : valid_range ll n → valid_range lr n → quiet w w' → compares w' ll lr n r → compares w ll lr n r.
Proof.
  intros Hl Hr (_ & _ & Hs). assert (∀ i, 0 ≤ i < n → contents w' (shift ll i) = contents w (shift ll i) ∧ contents w' (shift lr i) = contents w (shift lr i)) as E.
  { intros i Hi. split; apply Hs; auto. }
  intros [[-> Hall]|(k & Hk & Hall & Hne & ->)]; [left|right].
  - split; [done|]. intros i Hi. destruct (E i Hi) as [<- <-]. by apply Hall.
  - exists k. destruct (E k Hk) as [-> ->]. split; [done|]. split; [|destruct (E k Hk) as [<- <-]; done].
    intros i Hi. destruct (E i) as [<- <-]; [lia|]. by apply Hall.
Qed.

Lemma cmp_loop_ok n w bl br ll lr : sp_inv w → ptr_at bl ll → ptr_at br lr → inside ll (Z.of_nat n) → inside lr (Z.of_nat n) →
  ∃ w' r, cmp_loop w bl br n = Ok (w', r) ∧ quiet w w' ∧ compares w ll lr (Z.of_nat n) r.
Proof.
  revert w bl br ll lr. induction n as [|n IH]; intros w bl br ll lr Hi Hl Hr Hil Hir.
  { exists w, 0. split; [done|]. split; [by apply quiet_refl|]. left. split; [done|lia]. }
  destruct (inside_0 ll _ Hil) as [Hfl Hvl]; [lia|]. destruct (inside_0 lr _ Hir) as [Hfr Hvr]; [lia|].
  replace (Z.of_nat (S n)) with (1 + Z.of_nat n) in * by lia. cbn [cmp_loop].
  destruct (bload_ok w bl ll Hi Hl Hfl Hvl) as (w1 & -> & Hq1). cbn [mbind result_bind].
  destruct (bload_ok w1 br lr (proj1 Hq1) Hr Hfr Hvr) as (w2 & -> & Hq2). cbn [mbind result_bind].
  rewrite (proj2 (proj2 Hq1) lr Hvr). destruct (Z.eqb_spec (contents w ll) (contents w lr)) as [Heq|Hne].
  - pose proof (inside_1 _ _ Hil ltac:(lia)) as Hil1. pose proof (inside_1 _ _ Hir ltac:(lia)) as Hir1. rewrite Z.add_simpl_l in Hil1, Hir1.
    destruct (IH w2 (advance bl 1) (advance br 1) (shift ll 1) (shift lr 1)) as (w3 & r & E3 & Hq3 & Hc); [by destruct Hq2
      |apply (advance_at _ _ (1 + Z.of_nat n)); [done|done|lia]|apply (advance_at _ _ (1 + Z.of_nat n)); [done|done|lia]|done|done|].
    exists w3, r. split; [done|]. split; [by eapply quiet_trans, quiet_trans|]. apply compares_cons; [lia|done|].
    apply (compares_quiet w w2); [by apply inside_valid|by apply inside_valid|by eapply quiet_trans|done].
  - destruct (bload_ok w2 bl ll (proj1 Hq2) Hl Hfl Hvl) as (w3 & -> & Hq3). cbn [mbind result_bind].
    destruct (bload_ok w3 br lr (proj1 Hq3) Hr Hfr Hvr) as (w4 & -> & Hq4). cbn [mbind result_bind].
    pose proof (quiet_trans _ _ _ Hq1 Hq2) as Hq12. pose proof (quiet_trans _ _ _ Hq12 Hq3) as Hq13.
    eexists w4, _. split; [done|]. split; [by eapply quiet_trans|]. right. exists 0. rewrite !shift_0. split; [lia|]. split; [lia|]. split; [done|].
    rewrite (proj2 (proj2 Hq12) ll Hvl), (proj2 (proj2 Hq13) lr Hvr). done.
Qed.

(** ** Addresses *)
Lemma cache_space_ptr_ge ptr : 0 ≤ ptr < 2 ^ 64 → cache_space_ptr ptr = (2 ^ 63 <=? ptr).
Proof.
  intros Hp. assert (Z.land ptr OFFSET_FLAG = 2 ^ 63 * (ptr / 2 ^ 63)) as E.
  { assert (Z.land ptr OFFSET_FLAG = Z.shiftl (Z.shiftr ptr 63) 63) as ->; [|rewrite Z.shiftl_mul_pow2, Z.shiftr_div_pow2 by lia; lia].
    apply Z.bits_inj'. intros i Hi. change OFFSET_FLAG with (2 ^ 63). rewrite Z.land_spec, Z.pow2_bits_eqb by lia.
    rewrite Z.shiftl_spec by lia. destruct (Z.eqb_spec 63 i) as [<-|Hne].
    - rewrite Z.shiftr_spec by lia. by rewrite andb_true_r.
    - rewrite andb_false_r. destruct (Z_lt_ge_dec i 63); [by rewrite Z.testbit_neg_r by lia|].
      rewrite Z.shiftr_spec, Z.testbit_eqb by lia. replace (i - 63 + 63) with i by lia.
      assert (2 ^ 64 ≤ 2 ^ i) by (apply Z.pow_le_mono_r; lia). by rewrite Z.div_small by lia. }
  unfold cache_space_ptr. rewrite E. destruct (Z.leb_spec (2 ^ 63) ptr).
  - assert (ptr / 2 ^ 63 = 1) as -> by (symmetry; apply (Z.div_unique_pos _ _ _ (ptr - 2 ^ 63)); lia). done.
  - rewrite Z.div_small by lia. done.
Qed.

Lemma offset_of_mod ptr : offset_of ptr = ptr mod 2 ^ 63.
Proof. unfold offset_of. change OFFSET_MASK with (Z.ones 63). by rewrite Z.land_ones by lia. Qed.

Lemma loc_of_add ptr n : 0 ≤ ptr < 2 ^ 64 → 0 ≤ n → inside (loc_of ptr) n → loc_of (w64 (ptr + n)) = shift (loc_of ptr) n.
Proof.
  intros Hp Hn. unfold loc_of. rewrite (cache_space_ptr_ge ptr Hp), offset_of_mod. destruct (Z.leb_spec (2 ^ 63) ptr) as [Hc|Hc]; simpl.
  - assert (ptr mod 2 ^ 63 = ptr - 2 ^ 63) as Eo by (symmetry; apply (Z.mod_unique_pos _ _ 1); lia). rewrite Eo. intros [_ Hs].
    destruct sp_size as [_ Hsz]. assert (w64 (ptr + n) = ptr + n) as -> by (apply Z.mod_small; lia).
    rewrite cache_space_ptr_ge, offset_of_mod by lia. rewrite (proj2 (Z.leb_le _ _)) by lia. f_equal.
    symmetry. apply (Z.mod_unique_pos _ _ 1); lia.
  - intros (_ & Hs & _). assert (w64 (ptr + n) = ptr + n) as -> by (apply Z.mod_small; lia).
    rewrite cache_space_ptr_ge by lia. by rewrite (proj2 (Z.leb_gt _ _)) by lia.
Qed.

(** ** A copy up to the last byte of the space *)
Lemma side_next_past_end w0 w s o x : sp_inv w0 → balance w0 w (λ v, x v + pin_of (LPage o) v) → (∀ v, 0 ≤ x v) → side_at true w s (LPage o) →
  (∀ v, v ∈ sp_written w → pin_of (LPage o) v = 1 → 1 < pins w v) →
  o + room (LPage o) = sp_pages * PAGE → ∃ msg, side_next w s (room (LPage o)) = Err (Throw msg).
Proof.
  intros Hi0 Hbal Hx Hat Hw Hend. destruct (close_side_ok true w0 w s (LPage o) x Hi0 Hbal Hx Hat (λ _, Hw)) as (w1 & E1 & Hb1 & _).
  destruct s as [a|p c off ptr]; [done|]. destruct Hat as (-> & -> & -> & Hfit & _). cbn [close_side side_next room] in *.
  rewrite (proj2 (Z.eqb_eq _ _)) by lia. rewrite E1. cbn [mbind result_bind]. destruct sp_size as [_ Hsz]. simpl in Hfit.
  assert (add 1 (mk_ptr (Some gc) o) (PAGE - o mod PAGE) = mk_ptr (Some gc) (sp_pages * PAGE)) as ->.
  { unfold add. cbn [cache offset]. f_equal. rewrite Z.mul_1_r, Hend. apply Z.mod_small. lia. }
  unfold CachedPtr.pin, is_null. cbn [cache offset]. rewrite bool_decide_false by done.
  assert ((sp_pages * PAGE =? NULL_OFFSET) = false) as -> by (apply Z.eqb_neq; unfold NULL_OFFSET, MAX64; lia). cbn [orb].
  destruct (sp_pin_out w1 (page_id (sp_pages * PAGE)) (bal_inv _ _ _ Hb1)) as [msg ->]; [|by exists msg].
  unfold page_id. rewrite page_id_div, Z.div_mul; [lia|]. pose proof page_pos. lia.
Qed.

Lemma copy_loop_past_end fuel w0 w d s a o n : sp_inv w0 → roomy w0 → balance w0 w (λ v, pin_of (LRaw a) v + pin_of (LPage o) v) →
  side_at false w d (LRaw a) → side_at true w s (LPage o) → dirty_ok w0 w (LRaw a) → 0 < n → n ≤ Z.of_nat fuel → n < 2 ^ 64 →
  0 ≤ o → o + n = sp_pages * PAGE → valid_range (LRaw a) n →
  ∃ msg, copy_loop fuel w d s n = Err (Throw msg).
Proof.
  intros Hi0 Hroom. revert w d s a o n. induction fuel as [|fuel IH]; intros w d s a o n Hbal Hd Hs Hdirty Hn Hfuel Hn64 Ho Hend Hv; [lia|].
  cbn [copy_loop]. rewrite (proj2 (Z.ltb_lt _ _)) by lia. rewrite (side_at_room true w s _ n Hs) by lia. pose proof (room_pos (LPage o)) as Hrp.
  rewrite (side_at_room false w d _ _ Hd) by lia. set (k := Z.min (room (LRaw a)) (Z.min (room (LPage o)) n)).
  assert (k = Z.min (room (LPage o)) n) as Ek by (unfold k; cbn [room]; lia). clearbody k.
  assert (room (LPage o) ≤ n) as Hle.
  { cbn [room]. pose proof page_pos. pose proof (page_offset_split o). assert (o / PAGE < sp_pages) by (apply Z.div_lt_upper_bound; lia). nia. }
  rewrite Z.min_l in Ek by done. subst k. destruct (Z_lt_ge_dec (room (LPage o)) n) as [Hlt|Hge].
  - destruct (copy_step_ok w0 w d s (LRaw a) (LPage o) (room (LPage o)) Hi0 Hroom Hbal Hd Hs Hdirty) as (w2 & d' & w3 & s' & E2 & E3 & Hbal3 & Hd3 & Hs3 & Hdirty3 & _);
      [lia|cbn [room]; pose proof (page_offset_split o); pose proof CACHE_PAGE_SIZE_eq; lia|lia|done|cbn [shift fits]; lia|intros i Hi; apply Hv; lia|by intros i Hi|by intros i j _ _|].
    cbn zeta in E2. rewrite E2. cbn [mbind result_bind]. rewrite E3. cbn [mbind result_bind].
    apply (IH w3 d' s' (a + room (LPage o)) (o + room (LPage o))); [done|done|done|done|lia|lia|lia|lia|lia|].
    intros i Hi. cbn [shift]. rewrite <- Z.add_assoc. apply (Hv (room (LPage o) + i)). lia.
  - assert (n = room (LPage o)) as En by lia. clear Hge Hle. destruct d as [a'|]; [|done]. cbn [side_at] in Hd. subst a'. cbn [side_ptr side_next].
    destruct (real_memcpy_spec (Z.to_nat (room (LPage o))) w a (side_ptr s) (LRaw a) (LPage o) ∅ (bal_inv _ _ _ Hbal)) as (Hi1 & Hh1 & Hw1 & _);
      rewrite ?Z2Nat.id by lia.
    { intros i Hi. split; [split; [done|]; apply (Hv i); lia|]. split; [by apply (side_at_denotes true)|done]. }
    { intros i Hi. apply Hv. lia. } { by intros i Hi. } { by intros i j _ _. }
    set (w1 := real_memcpy w a (side_ptr s) (Z.to_nat (room (LPage o)))) in *. clearbody w1. cbn [mbind result_bind].
    pose proof (balance_held w0 w w1 _ Hbal Hi1 Hh1) as Hbal1.
    destruct (side_next_past_end w0 w1 s o (pin_of (LRaw a)) Hi0 Hbal1) as [msg ->]; [done| | |lia|by exists msg].
    + apply (side_at_frames _ w); [done|]. unfold frame. by rewrite Hh1.
    + apply (source_may_unpin w0 w1 (LRaw a)); [done|done|]. intros v Hin. apply Hw1 in Hin. apply Hdirty. set_solver.
Qed.

(** ** What the functions do *)

(** C13: [cache_memcpy] between two ranges that do not overlap, while there are
    frames for two pins more, each range in the program's memory or in the cached space (and ending before its end), returns
    the destination; exactly the bytes of the destination changed, to the bytes
    of the source; every page has the pins it had. *)
Theorem cache_memcpy_spec w dst src n : sp_inv w → roomy w → 0 ≤ n < 2 ^ 64 → inside (loc_of dst) n → inside (loc_of src) n →
  disjoint_ranges (loc_of dst) (loc_of src) n →
  ∃ w', cache_memcpy gc w dst src n = Ok (w', dst) ∧ changed w w' (loc_of dst) n (λ i, contents w (shift (loc_of src) i)).
Proof.
  intros Hi Hroom Hn Hd Hs Hdis. destruct (memcpy_ok w dst src n Hi Hroom Hn Hd Hs Hdis) as (w' & E & Hi' & Hh & Hc).
  exists w'. split; [done|]. by apply changed_copied.
Qed.

(** C14: [cache_memmove] does the same for ranges that overlap in any way, in
    either direction. *)
Theorem cache_memmove_spec w dst src n : sp_inv w → roomy w → 0 ≤ n < 2 ^ 62 → inside (loc_of dst) n → inside (loc_of src) n →
  ∃ w', cache_memmove gc w dst src n = Ok (w', dst) ∧ changed w w' (loc_of dst) n (λ i, contents w (shift (loc_of src) i)).
Proof. apply memmove_ok. Qed.

(** C28: a copy from the cached space that ends at the end of the space throws:
    the page after the last byte is pinned. *)
Theorem cache_memcpy_at_the_end w dst src n : sp_inv w → roomy w → cache_space_ptr dst = false → cache_space_ptr src = true →
  0 < n < 2 ^ 64 → inside (loc_of dst) n → offset_of src + n = sp_pages * PAGE →
  ∃ msg, cache_memcpy gc w dst src n = Err (Throw msg).
Proof.
  intros Hi Hroom Ed Es Hn Hin Hend. unfold cache_memcpy. rewrite Ed, Es. cbn [orb]. rewrite (loc_of_raw _ Ed) in Hin.
  assert (fits (loc_of src)) as Hfs. { unfold loc_of. rewrite Es. cbn [fits]. rewrite offset_of_mod in *. pose proof (Z.mod_pos_bound src (2 ^ 63)). lia. }
  destruct (open_side_ok false w w _ dst (balance_refl w Hi)) as (w1 & d & -> & Hb1 & Hd1 & _ & Hw1 & _); [by apply roomy_grants|by rewrite (loc_of_raw _ Ed)|].
  cbn [mbind result_bind]. destruct (open_side_ok true w w1 _ src Hb1) as (w2 & s & -> & Hb2 & Hs2 & _ & Hw2 & _); [apply roomy_grants; [done|by rewrite (loc_of_raw _ Ed)]|done|]. cbn [mbind result_bind].
  rewrite (loc_of_raw _ Ed) in Hd1, Hb2. unfold loc_of in Hs2, Hb2, Hfs. rewrite Es in Hs2, Hb2, Hfs.
  destruct (copy_loop_past_end (Z.to_nat n) w w2 d s dst (offset_of src) n Hi Hroom Hb2) as [msg ->]; try done; [|lia|lia|lia|apply Hfs|by apply inside_valid|by exists msg].
  intros v. rewrite Hw2, Hw1. by left.
Qed.

(** [cache_memset] fills the range with the low byte of [c]. *)
Lemma cache_memset_spec w dst c n : sp_inv w → 0 ≤ n → inside (loc_of dst) n →
  ∃ w', cache_memset gc w dst c n = Ok (w', dst) ∧ changed w w' (loc_of dst) n (λ _, c mod 2 ^ 8).
Proof.
  intros Hi Hn Hin. assert (fits (loc_of dst)) as Hfit by (rewrite <- (shift_0 (loc_of dst)); eapply inside_fits; [done|lia]).
  destruct (set_loop_ok (Z.to_nat n) w (ptr_of gc false dst) (loc_of dst) (c mod 2 ^ 8)) as (w' & E & Hc);
    rewrite ?Z2Nat.id in * by lia; [done|by apply ptr_of_at|apply ptr_of_writable|done|].
  exists w'. unfold cache_memset. by rewrite E.
Qed.

(** [memcmp] changes nothing and returns 0 when the ranges agree, and
    otherwise the difference of the first two bytes that differ. *)
Theorem memcmp_spec w vl vr n : sp_inv w → 0 ≤ n → inside (loc_of vl) n → inside (loc_of vr) n →
  ∃ w' r, memcmp gc w vl vr n = Ok (w', r) ∧ quiet w w' ∧ compares w (loc_of vl) (loc_of vr) n r.
Proof.
  intros Hi Hn Hl Hr. destruct (cmp_loop_ok (Z.to_nat n) w (ptr_of gc true vl) (ptr_of gc true vr) (loc_of vl) (loc_of vr)) as (w' & r & E & Hq & Hc);
    rewrite ?Z2Nat.id in * by lia; [done|..|done|done|]; [apply ptr_of_at; rewrite <- shift_0; eapply inside_fits; [done|lia]..|].
  by exists w', r.
Qed.

(** C18: [strcat] appends a string and its zero byte to another one, when what is
    there to read and to write does not overlap; enough fuel is one more than
    the length of each string. *)
Theorem strcat_spec fuel w dest src k m : sp_inv w → 0 ≤ dest < 2 ^ 64 → 0 ≤ k → 0 ≤ m →
  inside (loc_of dest) (k + m + 1) → inside (loc_of src) (m + 1) → disjoint_ranges (shift (loc_of dest) k) (loc_of src) (m + 1) →
  string_at w (loc_of dest) k → string_at w (loc_of src) m → k < Z.of_nat fuel → m < Z.of_nat fuel →
  ∃ w', strcat gc fuel w dest src = Ok (w', dest) ∧ changed w w' (shift (loc_of dest) k) (m + 1) (λ i, contents w (shift (loc_of src) i)).
Proof.
  intros Hi Hd64 Hk Hm Hind Hins Hdis Hsd Hss Hf1 Hf2.
  assert (fits (loc_of dest)) as Hfd by (rewrite <- (shift_0 (loc_of dest)); eapply inside_fits; [done|lia]).
  destruct (len_loop_ok fuel w (ptr_of gc true dest) (loc_of dest) k 0 Hi) as (w1 & E1 & Hq1); [by apply ptr_of_at|done|eapply inside_le; [done|lia]|done|done|].
  assert (loc_of (w64 (dest + k)) = shift (loc_of dest) k) as El by (apply loc_of_add; [done|done|eapply inside_le; [done|lia]]).
  destruct (cpy_loop_ok fuel w1 (ptr_of gc false (w64 (dest + k))) (ptr_of gc true src) (shift (loc_of dest) k) (loc_of src) m) as (w2 & E2 & Hc);
    [apply Hq1|rewrite <- El; apply ptr_of_at; rewrite El; eapply inside_fits; [done|lia]|apply ptr_of_writable
    |apply ptr_of_at; rewrite <- (shift_0 (loc_of src)); eapply inside_fits; [done|lia]|done|apply inside_from; [by rewrite Z.add_assoc|done]|done
    |intros i j ? ?; apply Hdis; lia|apply (string_at_quiet w); [done|by apply inside_valid|done|done]|done|].
  exists w2. unfold strcat, strlen, strcpy, stpcpy. rewrite E1. cbn [mbind result_bind]. rewrite Z.add_0_l, E2. cbn [mbind result_bind].
  split; [done|]. eapply changed_quiet; [exact Hq1|]. eapply changed_ext; [|done]. intros i Hir. cbv beta. apply Hq1. by apply (inside_valid _ _ Hins).
Qed.
End copies.

(** ** Instances at concrete copies *)
Section witnesses.
Import Flat.

(** Two strings in the space: 3 bytes at 0 and 2 bytes at 4100. *)
Definition two_strings : flat := flat_init (λ a, if (a =? base + 3) || (a =? base + 4102) then 0 else 65).

Lemma space_counting_inv : sp_inv (PinSpec := sp_pin_spec) counting.
Proof. apply counting_inv. Qed.
Lemma counting_roomy : roomy (H0 := sp_pin_spec) counting.
Proof. by intros u _ v _. Qed.
Lemma two_strings_inv : sp_inv (PinSpec := sp_pin_spec) two_strings.
Proof. apply flat_init_inv. Qed.

(** 5000 bytes over two page boundaries. *)
Lemma cache_memcpy_spec_witness : ∃ w', cache_memcpy 1 counting (OFFSET_FLAG + 8242) (OFFSET_FLAG + 100) 5000 = Ok (w', OFFSET_FLAG + 8242) ∧
  changed counting w' (LPage 8242) 5000 (λ i, contents counting (LPage (100 + i))).
Proof.
  apply (cache_memcpy_spec 1 counting (OFFSET_FLAG + 8242) (OFFSET_FLAG + 100) 5000 space_counting_inv counting_roomy).
  - lia.
  - change (0 ≤ 8242 ∧ 8242 + 5000 < 4 * 4096). lia.
  - change (0 ≤ 100 ∧ 100 + 5000 < 4 * 4096). lia.
  - change (disjoint_ranges (LPage 8242) (LPage 100) 5000). intros i j Hi Hj [=]. lia.
Defined.

(** 5000 bytes moved up by 50. *)
Lemma cache_memmove_spec_witness : ∃ w', cache_memmove 1 counting (OFFSET_FLAG + 150) (OFFSET_FLAG + 100) 5000 = Ok (w', OFFSET_FLAG + 150) ∧
  changed counting w' (LPage 150) 5000 (λ i, contents counting (LPage (100 + i))).
Proof.
  apply (cache_memmove_spec 1 counting (OFFSET_FLAG + 150) (OFFSET_FLAG + 100) 5000 space_counting_inv counting_roomy).
  - lia.
  - change (0 ≤ 150 ∧ 150 + 5000 < 4 * 4096). lia.
  - change (0 ≤ 100 ∧ 100 + 5000 < 4 * 4096). lia.
Defined.

(** The last 100 bytes of the space. *)
Lemma cache_memcpy_at_the_end_witness : ∃ msg, cache_memcpy 1 counting 4096 (OFFSET_FLAG + 16284) 100 = Err (Throw msg).
Proof.
  apply (cache_memcpy_at_the_end 1 counting 4096 (OFFSET_FLAG + 16284) 100 space_counting_inv counting_roomy).
  - reflexivity.
  - reflexivity.
  - lia.
  - change (0 ≤ 4096 ∧ 4096 + 100 < 2 ^ 63 ∧ ∀ i, 0 ≤ i < 100 → 0 < 4096 + i < 2 ^ 20). split; [lia|split; [lia|intros i Hi; lia]].
  - reflexivity.
Defined.

Lemma memcmp_spec_witness : ∃ w' r, memcmp 1 counting (OFFSET_FLAG + 4000) (OFFSET_FLAG + 3749) 200 = Ok (w', r) ∧
  quiet counting w' ∧ compares counting (LPage 4000) (LPage 3749) 200 r.
Proof.
  apply (memcmp_spec 1 counting (OFFSET_FLAG + 4000) (OFFSET_FLAG + 3749) 200 space_counting_inv).
  - lia.
  - change (0 ≤ 4000 ∧ 4000 + 200 < 4 * 4096). lia.
  - change (0 ≤ 3749 ∧ 3749 + 200 < 4 * 4096). lia.
Defined.

Lemma two_strings_at o k : 0 ≤ o → (o + k = 3 ∨ o + k = 4102) → 0 ≤ k ≤ 3 → string_at two_strings (LPage o) k.
Proof.
  intros Ho Hk Hk3. assert (∀ p, 0 ≤ p → contents two_strings (LPage p) = if (p =? 3) || (p =? 4102) then 0 else 65) as E.
  { intros p Hp. cbn [contents sp_bytes sp_pin_spec flat_spec flat_pin_spec]. unfold fl_bytes. rewrite decide_True by done. cbn [two_strings flat_init fl_mem].
    destruct (Z.eqb_spec p 3), (Z.eqb_spec p 4102), (Z.eqb_spec (base + p) (base + 3)), (Z.eqb_spec (base + p) (base + 4102)); done || (exfalso; lia). }
  split; [intros i Hi|]; cbn [shift]; rewrite E by lia.
  - rewrite (proj2 (orb_false_iff _ _)); [done|]. rewrite !Z.eqb_neq. lia.
  - rewrite (proj2 (orb_true_iff _ _)); [done|]. rewrite !Z.eqb_eq. lia.
Qed.

Lemma strcat_spec_witness : ∃ w', strcat 1 10 two_strings OFFSET_FLAG (OFFSET_FLAG + 4100) = Ok (w', OFFSET_FLAG) ∧
  changed two_strings w' (LPage 3) 3 (λ i, contents two_strings (LPage (4100 + i))).
Proof.
  apply (strcat_spec 1 10 two_strings OFFSET_FLAG (OFFSET_FLAG + 4100) 3 2 two_strings_inv).
  - unfold OFFSET_FLAG. lia.
  - lia.
  - lia.
  - change (0 ≤ 0 ∧ 0 + (3 + 2 + 1) < 4 * 4096). lia.
  - change (0 ≤ 4100 ∧ 4100 + (2 + 1) < 4 * 4096). lia.
  - change (disjoint_ranges (LPage 3) (LPage 4100) 3). intros i j Hi Hj [=]. lia.
  - change (string_at two_strings (LPage 0) 3). apply two_strings_at; lia.
  - change (string_at two_strings (LPage 4100) 2). apply two_strings_at; lia.
  - lia.
  - lia.
Defined.
End witnesses.
