(* ===== verification/SegfaultHandler.v ===== *)
(** * Faulting accesses to the cached space

    [bind/segfault_handler.cpp]: an instruction of code that was not
    instrumented faults at a cached address.  The handler of the fault copies the
    instruction to a buffer, followed by a breakpoint, puts the raw address into
    the base register and lets the copy run; the handler of the breakpoint
    restores the register and continues after the instruction.  The decoder is
    a parameter; [abort] is [AssertFail]. *)
From S2P Require Import Prelude Util CachedPtr SpaceSpec CachedAllocator Bind Contents BindSpec.
From stdpp Require Import list.

Open Scope Z_scope.

Definition MAX_INSTR_LENGTH : Z := 15.
Definition MAX_OP_SIZE : nat := 4.
Definition MAX_REG_SIZE : nat := 16.
Definition FADEC_REG_TO_GNU_REG : list Z := [13; 14; 12; 11; 15; 10; 9; 8; 0; 1; 2; 3; 4; 5; 6; 7].
(** The index of the instruction pointer among the registers of a context. *)
Definition REG_RIP : Z := 16.

(** An operand of a decoded instruction; [OpOther] is a register, an immediate
    or another operand that is not in memory. *)
Inductive operand :=
  | OpNone
  | OpMem (base index : option Z) (scale disp : Z)
  | OpOther.

Record instr := mk_instr { addr_size : Z; ops : list operand }.

Record trap_context := mk_trap {
  ucontext : list Z;
  exec_buffer : option Z;
  under_trap : bool;
  instr_length : Z;
  modified : list bool;
}.

Section handler.
Context {W : Type} `{Space W} (global_cache : Z).
(** The decoder, with its result (negative for an error), and the mapping of
    the buffer. *)
Context (fd_decode : W → Z → Z * instr) (map_buffer : W → W * option Z).

Definition mask (size x : Z) : Z :=
  if size =? 2 then Z.land x 0xffff else if size =? 4 then Z.land x 0xffffffff else x.

Definition gnu_reg (r : Z) : result Z := aread FADEC_REG_TO_GNU_REG r.
Definition greg (regs : list Z) (r : Z) : result Z := g ← gnu_reg r; aread regs g.

(** What the index and the displacement add to the base. *)
Definition op_offset (regs : list Z) (size : Z) (index : option Z) (scale disp : Z) : result Z :=
  off ← match index with
        | None => Ok 0
        | Some j => x ← greg regs j; Ok (to_int64 (to_int64 (mask size x) * Z.shiftl 1 scale))
        end;
  Ok (if disp =? 0 then off else to_int64 (off + disp)).

(** One memory operand: its base register is redirected. *)
Definition redirect (w : W) (regs : list Z) (modified : list bool) (size : Z) (op : operand) : result (W * list Z * list bool) :=
  match op with
  | OpMem (Some b) index scale disp =>
      g ← gnu_reg b;
      x ← aread regs g;
      off ← op_offset regs size index scale disp;
      let ptr := w64 (mask size x + off) in
      if cache_space_ptr ptr then
        '(w, raw) ← cache_get_raw_ptr_store global_cache w ptr;
        regs ← awrite regs g (w64 (raw - off));
        modified ← awrite modified g true;
        Ok (w, regs, modified)
      else Ok (w, regs, modified)
  | _ => Ok (w, regs, modified)
  end.

Fixpoint redirect_all (w : W) (regs : list Z) (modified : list bool) (size : Z) (l : list operand) : result (W * list Z * list bool) :=
  match l with
  | [] | OpNone :: _ => Ok (w, regs, modified)
  | op :: l' => '(w, regs, modified) ← redirect w regs modified size op; redirect_all w regs modified size l'
  end.

Definition ensure_buffer (w : W) (t : trap_context) : result (W * Z) :=
  match exec_buffer t with
  | Some b => Ok (w, b)
  | None => let '(w, b) := map_buffer w in match b with Some b => Ok (w, b) | None => Err AssertFail end
  end.

(** The instruction and [int3] after it. *)
Definition copy_instr (w : W) (buffer ip len : Z) : W := raw_store (real_memcpy w buffer ip (Z.to_nat len)) (buffer + len) 0xcc.

Definition segfault_sigaction (w : W) (t : trap_context) (regs : list Z) : result (W * trap_context * list Z) :=
  if under_trap t then Err AssertFail
  else
    '(w, buffer) ← ensure_buffer w t;
    ip ← aread regs REG_RIP;
    let '(len, i) := fd_decode w ip in
    if len <? 0 then Err Undefined
    else
      let w := copy_instr w buffer ip len in
      regs' ← awrite regs REG_RIP buffer;
      '(w, regs', m) ← redirect_all w regs' (replicate MAX_REG_SIZE false) (addr_size i) (take MAX_OP_SIZE (ops i));
      Ok (w, mk_trap regs (Some buffer) true len m, regs').

(** The registers marked are as they were before the fault. *)
Fixpoint restore (n : nat) (i : Z) (saved : list Z) (m : list bool) (regs : list Z) : result (list Z) :=
  match n with
  | O => Ok regs
  | S n' =>
      b ← aread m i;
      regs ← (if (b : bool) then x ← aread saved i; awrite regs i x else Ok regs);
      restore n' (i + 1) saved m regs
  end.

Definition trap_sigaction (t : trap_context) (regs : list Z) : result (trap_context * list Z) :=
  if negb (under_trap t) then Err AssertFail
  else
    regs ← restore MAX_REG_SIZE 0 (ucontext t) (modified t) regs;
    ip ← aread (ucontext t) REG_RIP;
    regs ← awrite regs REG_RIP (w64 (ip + instr_length t));
    Ok (mk_trap (ucontext t) (exec_buffer t) false (instr_length t) (modified t), regs).

(** The address the processor forms for a memory operand with 64-bit addresses. *)
Definition effective_address (regs : list Z) (base : Z) (index : option Z) (scale disp : Z) : result Z :=
  x ← greg regs base;
  y ← match index with None => Ok 0 | Some j => y ← greg regs j; Ok (y * Z.shiftl 1 scale) end;
  Ok (w64 (x + y + disp)).
End handler.

(** ** Registers *)
Lemma gnu_reg_ok b : 0 ≤ b < 16 → ∃ g, gnu_reg b = Ok g ∧ 0 ≤ g < 16.
Proof.
  intros Hb. assert (b ∈ seqZ 0 16) as Hin by (apply elem_of_seqZ; lia). vm_compute in Hin.
  repeat (apply elem_of_cons in Hin as [->|Hin]; [eexists; split; [reflexivity|lia]|]). by apply elem_of_nil in Hin.
Qed.

Lemma gnu_reg_inj b j g : gnu_reg b = Ok g → gnu_reg j = Ok g → b = j.
Proof.
  unfold gnu_reg. rewrite !aread_Ok. intros Hb Hj. pose proof (zget_range _ _ _ Hb) as Rb. pose proof (zget_range _ _ _ Hj) as Rj.
  unfold zget in Hb, Hj. rewrite decide_True in Hb by lia. rewrite decide_True in Hj by lia.
  assert (NoDup FADEC_REG_TO_GNU_REG) as Hnd by (apply (bool_decide_unpack _); by vm_compute).
  pose proof (NoDup_lookup _ _ _ _ Hnd Hb Hj). lia.
Qed.

Lemma w64_eq_mod x y : x mod 2 ^ 64 = y mod 2 ^ 64 ↔ ∃ k, x = y + k * 2 ^ 64.
Proof.
  split.
  - intros E. exists (x / 2 ^ 64 - y / 2 ^ 64). pose proof (Z.div_mod x (2 ^ 64) ltac:(lia)). pose proof (Z.div_mod y (2 ^ 64) ltac:(lia)). lia.
  - intros [k ->]. by rewrite Z.mod_add by lia.
Qed.

Lemma to_int64_eq z : ∃ k, to_int64 z = z + k * 2 ^ 64.
Proof.
  unfold to_int64. pose proof (Z.div_mod z (2 ^ 64) ltac:(lia)). case_match; [exists (- (z / 2 ^ 64))|exists (- (z / 2 ^ 64) - 1)]; lia.
Qed.

Section correct.
Context {W : Type} `{Space W} (gc : Z).

Lemma raw_range w ptr w' raw : cache_get_raw_ptr_store gc w ptr = Ok (w', raw) → 0 ≤ raw < 2 ^ 64.
Proof.
  unfold cache_get_raw_ptr_store, get. case_match; [intros [= _ <-]; lia|]. destruct (sp_access _ _ _) as [[w1 f]|]; [|done].
  cbn [mbind result_bind]. intros [= _ <-]. apply w64_range.
Qed.

Lemma op_offset_ea regs x y index scale disp : match index with None => Ok 0 | Some j => y ← greg regs j; Ok (y * Z.shiftl 1 scale) end = Ok y →
  ∃ off, op_offset regs 8 index scale disp = Ok off ∧ w64 (x + off) = w64 (x + y + disp) ∧ ∃ k, off = y + disp + k * 2 ^ 64.
Proof.
  intros Hy. unfold op_offset.
  assert (∃ off k, match index with None => Ok 0 | Some j => x0 ← greg regs j; Ok (to_int64 (to_int64 (mask 8 x0) * Z.shiftl 1 scale)) end = Ok off ∧
    off = y + k * 2 ^ 64) as (off & k & -> & Ek).
  { destruct index as [j|]; [|injection Hy as <-; exists 0, 0; done]. destruct (greg regs j) as [z|]; [|done]. cbn [mbind result_bind] in *.
    injection Hy as <-. cbn [mask Z.eqb Pos.eqb]. destruct (to_int64_eq (to_int64 z * Z.shiftl 1 scale)) as [k2 E2].
    destruct (to_int64_eq z) as [k1 E1]. eexists _, (k1 * Z.shiftl 1 scale + k2). split; [done|]. rewrite E2, E1. ring. }
  cbn [mbind result_bind]. destruct (Z.eqb_spec disp 0) as [->|_].
  - exists off. split; [done|]. split; [apply w64_eq_mod; exists k; lia|exists k; lia].
  - destruct (to_int64_eq (off + disp)) as [k' E']. eexists. split; [done|]. split; [apply w64_eq_mod; exists (k + k'); lia|exists (k + k'); lia].
Qed.

Definition not_mem (op : operand) : Prop := match op with OpMem _ _ _ _ => False | _ => True end.

Lemma redirect_all_rest w regs m size l : Forall not_mem l → redirect_all gc w regs m size l = Ok (w, regs, m).
Proof. induction 1 as [|op l Hop Hl IH]; [done|]. by destruct op. Qed.

Lemma redirect_all_one w regs m size l1 op l2 : Forall (λ o, o = OpOther) l1 → Forall not_mem l2 → op ≠ OpNone →
  redirect_all gc w regs m size (l1 ++ op :: l2) = redirect gc w regs m size op.
Proof.
  intros H1 H2 Hop. induction H1 as [|o l -> _ IH]; [|done]. cbn [app redirect_all].
  destruct op; [done|..]; destruct (redirect gc w regs m size _) as [[[w1 r1] m1]|]; try done; cbn [mbind result_bind]; by apply redirect_all_rest.
Qed.

(** Only the marked register [g] is restored. *)
Lemma restore_ok n i saved m regs : 0 ≤ i → i + Z.of_nat n ≤ zlen m → zlen m ≤ zlen saved → zlen saved = zlen regs →
  ∃ regs', restore n i saved m regs = Ok regs' ∧ zlen regs' = zlen regs ∧
    ∀ j, zget regs' j = if decide (i ≤ j < i + Z.of_nat n ∧ zget m j = Some true) then zget saved j else zget regs j.
Proof.
  revert i regs. induction n as [|n IH]; intros i regs Hi Hn Hms Hsr.
  { exists regs. split; [done|]. split; [done|]. intros j. rewrite decide_False by lia. done. }
  cbn [restore]. destruct (aread_total m i) as (b & -> & Hb); [lia|]. cbn [mbind result_bind].
  destruct (aread_total saved i) as (x & Ex & Hx); [lia|].
  assert (∃ r1, (if b then x ← aread saved i; awrite regs i x else Ok regs) = Ok r1 ∧ zlen r1 = zlen regs ∧
    ∀ j, zget r1 j = if decide (j = i ∧ b = true) then zget saved j else zget regs j) as (r1 & -> & Hl1 & Hr1).
  { destruct b.
    - rewrite Ex. cbn [mbind result_bind]. rewrite awrite_total by lia. eexists. split; [done|]. split; [apply zlen_zset|].
      intros j. rewrite zget_zset. destruct (decide (j = i)) as [->|]; [by rewrite !decide_True by (done || lia)|by rewrite !decide_False by naive_solver].
    - exists regs. split; [done|]. split; [done|]. intros j. by rewrite decide_False by naive_solver. }
  cbn [mbind result_bind]. destruct (IH (i + 1) r1) as (r2 & -> & Hl2 & Hr2); [lia..|].
  exists r2. split; [done|]. split; [lia|]. intros j. rewrite Hr2, Hr1.
  destruct (decide (j = i)) as [->|Hne].
  - rewrite decide_False by lia. rewrite Hb. destruct b; [by rewrite !decide_True by (done || (split; [lia|done]))|by rewrite !decide_False by naive_solver].
  - rewrite (decide_False (P := j = i ∧ b = true)) by naive_solver.
    destruct (decide (i ≤ j < i + Z.of_nat (S n) ∧ zget m j = Some true)) as [[? ?]|Hno].
    + by rewrite decide_True by (split; [lia|done]).
    + rewrite decide_False; [done|]. intros [? ?]. apply Hno. split; [lia|done].
Qed.

Lemma greg_read regs b g : gnu_reg b = Ok g → greg regs b = aread regs g.
Proof. unfold greg. by intros ->. Qed.

Lemma greg_other regs regs' r g : (∀ i, i ≠ g → i ≠ REG_RIP → zget regs' i = zget regs i) → 0 ≤ r < 16 → gnu_reg r ≠ Ok g → greg regs' r = greg regs r.
Proof.
  intros Hsame Hr Hne. unfold greg. destruct (gnu_reg_ok r Hr) as (i & Ei & Hi). rewrite Ei. cbn [mbind result_bind].
  unfold aread. rewrite Hsame; [done|congruence|unfold REG_RIP; lia].
Qed.

(** What is assumed of the instruction: one operand in memory, with a base
    register, and another index register if any. *)
Record redirectable (i : instr) (b : Z) (index : option Z) (scale disp : Z) : Prop := {
  rd_size : addr_size i = 8;
  rd_base : 0 ≤ b < 16;
  rd_index j : index = Some j → 0 ≤ j < 16 ∧ j ≠ b;
  rd_ops : ∃ l1 l2, take MAX_OP_SIZE (ops i) = l1 ++ OpMem (Some b) index scale disp :: l2 ∧ Forall (λ o, o = OpOther) l1 ∧ Forall not_mem l2;
}.

Lemma redirect_ok w w' i regs b index scale disp ptr raw m : redirectable i b index scale disp → zlen regs = 23 → zlen m = 16 →
  effective_address regs b index scale disp = Ok ptr → cache_space_ptr ptr = true → cache_get_raw_ptr_store gc w ptr = Ok (w', raw) →
  ∃ g regs', gnu_reg b = Ok g ∧ redirect gc w regs m (addr_size i) (OpMem (Some b) index scale disp) = Ok (w', regs', zset m g true) ∧
    effective_address regs' b index scale disp = Ok raw ∧ zlen regs' = 23 ∧ ∀ k, k ≠ g → zget regs' k = zget regs k.
Proof.
  intros Hrd Hlen Hm Hea Hc Hget. destruct (gnu_reg_ok b (rd_base _ _ _ _ _ Hrd)) as (g & Eg & Hg).
  unfold effective_address in Hea. rewrite (greg_read regs b g Eg) in Hea.
  destruct (aread_total regs g) as (x & Ex & _); [lia|]. rewrite Ex in Hea. cbn [mbind result_bind] in Hea.
  destruct (match index with None => _ | Some j => _ end) as [y|] eqn:Ey; [|done]. injection Hea as <-.
  destruct (op_offset_ea regs x y index scale disp Ey) as (off & Eoff & Eptr & k & Ek).
  exists g, (zset regs g (w64 (raw - off))). split; [done|]. split.
  { cbn [redirect]. rewrite Eg, (rd_size _ _ _ _ _ Hrd). cbn [mbind result_bind]. rewrite Ex. cbn [mbind result_bind]. rewrite Eoff. cbn [mbind result_bind].
    change (mask 8 x) with x. rewrite Eptr, Hc, Hget. cbn [mbind result_bind]. rewrite !awrite_total by lia. done. }
  split; [|split; [by rewrite zlen_zset|intros j Hj; by apply zget_zset_ne]].
  unfold effective_address. rewrite (greg_read _ b g Eg). unfold aread at 1. rewrite zget_zset_eq by lia. cbn [mbind result_bind].
  assert (match index with None => Ok 0 | Some j => y0 ← greg (zset regs g (w64 (raw - off))) j; Ok (y0 * Z.shiftl 1 scale) end = Ok y) as ->.
  { destruct index as [j|]; [|done]. destruct (rd_index _ _ _ _ _ Hrd j eq_refl) as [Hj Hne].
    rewrite (greg_other regs _ j g); [done|intros i' Hi' _; by apply zget_zset_ne|done|]. intros Ej. by apply Hne, (gnu_reg_inj _ _ g). }
  cbn [mbind result_bind]. f_equal. transitivity (w64 raw); [|apply w64_small; by eapply raw_range].
  unfold w64 at 2 3. apply w64_eq_mod. unfold w64. pose proof (Z.div_mod (raw - off) (2 ^ 64) ltac:(lia)). exists (- ((raw - off) / 2 ^ 64) - k). lia.
Qed.

Section fault.
Context (fd_decode : W → Z → Z * instr) (map_buffer : W → W * option Z).

(** C19: a fault of an instruction with one memory operand, at a cached address,
    is emulated: the instruction runs from the buffer with its operand at the raw
    address the cache gives for the page, all other registers as they were; the
    breakpoint after it continues behind the instruction with the base register
    it had at the fault and all others as the instruction left them (so that a
    result the instruction left in its base register is lost). *)
Theorem fault_emulated w w0 w' t regs buffer ip len i b index scale disp ptr raw :
  under_trap t = false → zlen regs = 23 → ensure_buffer map_buffer w t = Ok (w0, buffer) → zget regs REG_RIP = Some ip →
  fd_decode w0 ip = (len, i) → 0 ≤ len → redirectable i b index scale disp →
  effective_address regs b index scale disp = Ok ptr → cache_space_ptr ptr = true →
  cache_get_raw_ptr_store gc (copy_instr w0 buffer ip len) ptr = Ok (w', raw) →
  ∃ g t' regs', gnu_reg b = Ok g ∧ segfault_sigaction gc fd_decode map_buffer w t regs = Ok (w', t', regs') ∧
    effective_address regs' b index scale disp = Ok raw ∧ zget regs' REG_RIP = Some buffer ∧
    (∀ k, k ≠ g → k ≠ REG_RIP → zget regs' k = zget regs k) ∧ under_trap t' = true ∧
    ∀ left, zlen left = 23 → ∃ t'' regs'', trap_sigaction t' left = Ok (t'', regs'') ∧ under_trap t'' = false ∧
      zget regs'' REG_RIP = Some (w64 (ip + len)) ∧ zget regs'' g = zget regs g ∧
      ∀ k, k ≠ g → k ≠ REG_RIP → zget regs'' k = zget left k.
Proof.
  intros Hu Hlen Hbuf Hip Hdec Hpos Hrd Hea Hc Hget. unfold segfault_sigaction. rewrite Hu, Hbuf. cbn [mbind result_bind].
  assert (aread regs REG_RIP = Ok ip) as -> by (by rewrite aread_Ok). cbn [mbind result_bind]. rewrite Hdec, (proj2 (Z.ltb_ge _ _)) by done.
  rewrite awrite_total by (unfold REG_RIP; lia). cbn [mbind result_bind]. set (regs1 := zset regs REG_RIP buffer).
  assert (∀ k, k ≠ REG_RIP → zget regs1 k = zget regs k) as Hr1 by (intros k Hk; by apply zget_zset_ne).
  assert (effective_address regs1 b index scale disp = Ok ptr) as Hea1.
  { rewrite <- Hea. unfold effective_address. rewrite (greg_other regs regs1 b 99); [|intros ???; by apply Hr1|apply Hrd|].
    - destruct index as [j|]; [|done]. destruct (rd_index _ _ _ _ _ Hrd j eq_refl) as [Hj _]. rewrite (greg_other regs regs1 j 99); [done|intros ???; by apply Hr1|done|].
      destruct (gnu_reg_ok j Hj) as (g & -> & ?). intros [= ->]. lia.
    - destruct (gnu_reg_ok b (rd_base _ _ _ _ _ Hrd)) as (g & -> & ?). intros [= ->]. lia. }
  destruct (redirect_ok (copy_instr w0 buffer ip len) w' i regs1 b index scale disp ptr raw (replicate MAX_REG_SIZE false) Hrd) as (g & regs' & Eg & Ered & Hea' & Hlen' & Hsame);
    [unfold regs1; by rewrite zlen_zset|done|done|done|done|].
  destruct (rd_ops _ _ _ _ _ Hrd) as (l1 & l2 & -> & Hl1 & Hl2). rewrite redirect_all_one by done. rewrite Ered. cbn [mbind result_bind].
  assert (0 ≤ g < 16) as Hg by (destruct (gnu_reg_ok b (rd_base _ _ _ _ _ Hrd)) as (g' & Eg' & ?); congruence).
  eexists g, _, regs'. split; [done|]. split; [done|]. split; [done|].
  split; [rewrite Hsame by (unfold REG_RIP; lia); apply zget_zset_eq; unfold REG_RIP; lia|].
  split; [intros k Hk1 Hk2; rewrite Hsame by done; by apply Hr1|]. split; [done|].
  intros left Hleft. unfold trap_sigaction. cbn [under_trap negb ucontext modified instr_length exec_buffer].
  destruct (restore_ok MAX_REG_SIZE 0 regs (zset (replicate MAX_REG_SIZE false) g true) left) as (r2 & -> & Hl & Hr2);
    [done|by rewrite zlen_zset|rewrite zlen_zset, Hlen; done|lia|]. cbn [mbind result_bind].
  assert (aread regs REG_RIP = Ok ip) as -> by (by rewrite aread_Ok). cbn [mbind result_bind]. rewrite awrite_total by (unfold REG_RIP; lia).
  eexists _, _. split; [done|]. split; [done|]. split; [apply zget_zset_eq; unfold REG_RIP; lia|].
  split.
  - rewrite zget_zset_ne by (unfold REG_RIP; lia). rewrite Hr2, decide_True; [done|].
    split; [change (Z.of_nat MAX_REG_SIZE) with 16; lia|]. apply zget_zset_eq. change (zlen (replicate MAX_REG_SIZE false)) with 16. lia.
  - intros k Hk1 Hk2. rewrite zget_zset_ne by done. rewrite Hr2, decide_False; [done|]. intros [Hk Hm]. rewrite zget_zset_ne in Hm by done.
    by apply zget_replicate_inv in Hm.
Qed.
End fault.
End correct.

Section witness.
Import SpaceSpec.Flat.

(** A store to [16(%rbx,%rcx,8)] with the base in the cached space. *)
Definition example_instr : instr := mk_instr 8 [OpMem (Some 3) (Some 1) 3 16; OpOther; OpNone; OpNone].
Definition example_regs : list Z := zset (zset (zset (replicate 23 0) 11 (OFFSET_FLAG + 4096)) 14 2) REG_RIP 1000.
Definition example_trap : trap_context := mk_trap [] (Some 2000) false 0 [].

Lemma example_redirectable : redirectable example_instr 3 (Some 1) 3 16.
Proof. split; [done|lia|intros j [= <-]; lia|]. exists [], [OpOther; OpNone; OpNone]. split; [done|]. split; [constructor|by repeat constructor]. Qed.

Lemma fault_emulated_witness : ∃ w' t' regs',
  segfault_sigaction 1 (λ _ _, (7, example_instr)) (λ w, (w, None)) counting example_trap example_regs = Ok (w', t', regs') ∧
  effective_address regs' 3 (Some 1) 3 16 = Ok (Flat.frame_of 1 + 32) ∧ zget regs' REG_RIP = Some 2000 ∧ under_trap t' = true.
Proof.
  destruct (fault_emulated 1 (λ _ _, (7, example_instr)) (λ w, (w, None)) counting counting (copy_instr counting 2000 1000 7) example_trap example_regs 2000 1000 7
    example_instr 3 (Some 1) 3 16 (OFFSET_FLAG + 4128) (Flat.frame_of 1 + 32)) as (g & t' & regs' & _ & E & Hea & Hip & _ & Ht & _).
  - reflexivity.
  - reflexivity.
  - reflexivity.
  - reflexivity.
  - reflexivity.
  - lia.
  - apply example_redirectable.
  - reflexivity.
  - reflexivity.
  - reflexivity.
  - exists (copy_instr counting 2000 1000 7), t', regs'. split; [exact E|]. split; [exact Hea|]. split; [exact Hip|exact Ht].
Defined.
End witness.
