(* ===== verification/BindState.v ===== *)
(** * The binding: the pointers it gives out, and the threads

    A pointer has the top bit set exactly when it comes from the allocator of the
    cached space; a new thread runs on a CPU with the fewest threads. *)
From S2P Require Import Prelude Util CachedPtr SpaceSpec CachedAllocator Bind Contents BindSpec.
From stdpp Require Import gmap list.

Open Scope Z_scope.

(** ** Tagged addresses *)
Lemma lor_flag off : 0 ≤ off < 2 ^ 63 → Z.lor off OFFSET_FLAG = off + 2 ^ 63.
Proof.
  intros Ho. change OFFSET_FLAG with (2 ^ 63). rewrite <- Z.add_lor_land. 
  assert (Z.land off (2 ^ 63) = 0) as ->; [|lia]. pose proof (cache_space_ptr_ge off ltac:(lia)) as Hc.
  rewrite (proj2 (Z.leb_gt _ _)) in Hc by lia. unfold cache_space_ptr in Hc. by apply negb_false_iff, Z.eqb_eq in Hc.
Qed.

Lemma tagged off : 0 ≤ off < 2 ^ 63 → cache_space_ptr (Z.lor off OFFSET_FLAG) = true ∧ offset_of (Z.lor off OFFSET_FLAG) = off.
Proof.
  intros Ho. rewrite lor_flag by done. rewrite cache_space_ptr_ge, offset_of_mod by lia. split; [apply Z.leb_le; lia|].
  symmetry. apply (Z.mod_unique_pos _ _ 1); lia.
Qed.

Section bind_state.
Context {W : Type} `{Space W} (gc : Z) (cfg : config) (thread : Z) (is_client_thread : bool).
Context (real_malloc : W → Z → W * Z).
Implicit Types (b : bind_state (W := W)).

(** The blocks of the allocator the program holds. *)
Definition live (bl : gmap Z (Z * owner)) (off size : Z) : Prop := ∃ k, bl !! off = Some (k, Live) ∧ size ≤ 2 ^ k.

Lemma goes_to_cache_keeps b size : let '(b', yes) := goes_to_cache cfg is_client_thread b size in
  cached_allocator b' = cached_allocator b ∧ space b' = space b ∧ mmap_file_dict b' = mmap_file_dict b ∧
  (yes = true → malloc_threshold cfg ≤ size ∧ is_client_thread = true).
Proof.
  unfold goes_to_cache, check_real_alloc_threshold. destruct (Z.leb_spec (malloc_threshold cfg) size), is_client_thread; cbn [andb];
    repeat case_match; simplify_eq/=; naive_solver.
Qed.

Lemma cache_alloc_ok b bl size : alloc_inv (cached_allocator b) bl → 0 < size ≤ 2 ^ 63 →
  cache_alloc gc thread b size = Err (Throw "bad_alloc") ∨
  ∃ b' ptr bl', cache_alloc gc thread b size = Ok (b', ptr) ∧ alloc_inv (cached_allocator b') bl' ∧
    space b' = space b ∧ cache_space_ptr ptr = true ∧
    live bl' (offset_of ptr) size ∧ (∀ n, ¬ live bl (offset_of ptr) n) ∧
    (∀ off n, live bl off n → live bl' off n) ∧ ∃ b'', cache_free gc thread b' ptr size = Ok b''.
Proof.
  intros Hi Hs. destruct (order_fits size Hs) as (k & Ek & Hle & Hk). assert (w64 (size * 1) = size) as Ew by (rewrite Z.mul_1_r; apply w64_small; lia).
  destruct (allocate_spec size_to_order (cached_allocator b) bl thread size 1 k Hi) as (a' & r & E & Hr); [by rewrite Ew|done|].
  unfold cache_alloc, cached_allocate. rewrite E. cbn [mbind result_bind]. destruct r as [off|e]; cbn [mbind result_bind].
  2: { left. by destruct Hr as [-> _]. }
  right. destruct Hr as [Hfresh Hi']. assert ((<[off:=(k, Live)]> bl) !! off = Some (k, Live)) as Hoff by apply lookup_insert_eq.
  pose proof (al_start _ _ Hi' _ _ _ Hoff). pose proof (al_range _ _ Hi' _ _ _ Hoff). pose proof (al_space _ _ Hi').
  destruct (tagged off ltac:(lia)) as [Htag Eo]. exists (with_allocator b a'), (Z.lor off OFFSET_FLAG), (<[off := (k, Live)]> bl).
  split; [done|]. split; [done|]. split; [done|]. cbn [offset]. rewrite Eo. split; [done|]. split; [by exists k|].
  split; [intros n (j & Hj & _); by eapply Hfresh|]. split.
  - intros x n (j & Hj & Hn). exists j. split; [|done]. rewrite lookup_insert_ne; [done|]. intros <-. by eapply Hfresh.
  - destruct (deallocate_spec size_to_order a' _ thread off size 1 k Hi') as (a'' & o & Ed & _); [by rewrite Ew|done|].
    eexists. unfold cache_free, cached_deallocate, cptr, add, base_cached_ptr. cbn [offset cached_allocator with_allocator cache]. rewrite Eo.
    assert (w64 (0 + off * 1) = off) as -> by (rewrite Z.mul_1_r; apply w64_small; lia). rewrite Ed. done.
Qed.

(** C20: [malloc] of the program gives a pointer with the top bit set exactly when
    the request goes to the cache: then the pointer is that of a block of the
    cached space that is large enough and that nobody held, the blocks held
    remain held, and the block can be freed; it fails only with [bad_alloc]. *)
Theorem malloc_typed b bl size : alloc_inv (cached_allocator b) bl → 0 < size ≤ 2 ^ 63 →
  (∀ w n, cache_space_ptr (real_malloc w n).2 = false) →
  let yes := (goes_to_cache cfg is_client_thread b size).2 in
  match cache_malloc_hook gc cfg thread is_client_thread real_malloc b size with
  | Err e => yes = true ∧ e = Throw "bad_alloc"
  | Ok (b', ptr) => cache_space_ptr ptr = yes ∧
      if yes then ∃ bl', alloc_inv (cached_allocator b') bl' ∧ live bl' (offset_of ptr) size ∧ (∀ n, ¬ live bl (offset_of ptr) n) ∧
        (∀ off n, live bl off n → live bl' off n) ∧ ∃ b'', cache_free gc thread b' ptr size = Ok b''
      else cached_allocator b' = cached_allocator b
  end.
Proof.
  intros Hi Hs Hsys. pose proof (goes_to_cache_keeps b size) as Hk. unfold cache_malloc_hook.
  destruct (goes_to_cache cfg is_client_thread b size) as [b1 yes]. destruct Hk as (Ea & _). cbn [snd]. destruct yes.
  - destruct (cache_alloc_ok b1 bl size) as [->|(b' & ptr & bl' & -> & Hi' & _ & Ht & Hl & Hf & Hkeep & Hfree)]; [by rewrite Ea|done|done|].
    split; [done|]. by exists bl'.
  - unfold on_system. split; [apply Hsys|done].
Qed.
End bind_state.

(** ** Threads *)
Section threads.
Context (cfg : config) (n : Z).

(** The number of threads on CPU [j]. *)
Definition load_of (t : thread_state) (j x : Z) : Prop := zget (threads_bind_to_cpu t) j = Some x.

Lemma pick_cpu_ok k t i myid x : 0 ≤ i → i + Z.of_nat k = n → 0 < n → zlen (threads_bind_to_cpu t) = n → 0 ≤ current_cpu_id t → current_cpu_id t + n ≤ 2 ^ 64 →
  0 ≤ myid < n → load_of t myid x → (∀ j y, 0 ≤ j < i → load_of t ((current_cpu_id t + j) mod n) y → x ≤ y) →
  ∃ c y, pick_cpu n k i t myid = Ok c ∧ 0 ≤ c < n ∧ load_of t c y ∧ y ≤ x ∧ ∀ j z, 0 ≤ j < n → load_of t ((current_cpu_id t + j) mod n) z → y ≤ z.
Proof.
  revert i myid x. induction k as [|k IH]; intros i myid x Hi Hk Hn Hlen Hcur0 Hcur Hmy Hx Hmin.
  - exists myid, x. split; [done|]. split; [done|]. split; [done|]. split; [lia|]. intros j z Hj. apply Hmin. lia.
  - cbn [pick_cpu]. rewrite w64_small by lia. set (id := (current_cpu_id t + i) mod n). assert (0 ≤ id < n) as Hid by (by apply Z.mod_pos_bound).
    destruct (aread_total (threads_bind_to_cpu t) id) as (y & -> & Hy); [lia|]. cbn [mbind result_bind].
    assert (aread (threads_bind_to_cpu t) myid = Ok x) as -> by (by rewrite aread_Ok). cbn [mbind result_bind].
    assert (∀ j z, 0 ≤ j < i + 1 → load_of t ((current_cpu_id t + j) mod n) z → (if y <? x then y else x) ≤ z) as Hmin'.
    { intros j z Hj Hz. destruct (decide (j = i)) as [->|].
      - fold id in Hz. unfold load_of in Hz. rewrite Hy in Hz. injection Hz as <-. destruct (Z.ltb_spec y x); lia.
      - pose proof (Hmin j z ltac:(lia) Hz). destruct (Z.ltb_spec y x); lia. }
    destruct (Z.ltb_spec y x) as [Hlt|Hge].
    + destruct (IH (i + 1) id y) as (c & y' & E & Hc & Hy' & Hle & Hall); [lia..|done|done|]. exists c, y'. repeat (split; [done|]). split; [lia|done].
    + destruct (IH (i + 1) myid x) as (c & y' & E & Hc & Hy' & Hle & Hall); [lia..|done|done|]. by exists c, y'.
Qed.

(** A new thread gets a CPU on which no fewer threads run elsewhere, and is
    counted there; the count of no other CPU changes, and the end of the thread
    takes the count back. *)
Theorem thread_starts_least t : disable_thread_bind cfg = false → 0 < n → zlen (threads_bind_to_cpu t) = n →
  0 ≤ current_cpu_id t → current_cpu_id t + n ≤ 2 ^ 64 → (∀ j x, load_of t j x → 0 ≤ x < 2 ^ 64 - 1) →
  ∃ t' c x, thread_starts cfg n t = Ok (t', c) ∧ 0 ≤ c < n ∧ load_of t c x ∧ (∀ j y, load_of t j y → x ≤ y) ∧
    load_of t' c (x + 1) ∧ (∀ j, j ≠ c → zget (threads_bind_to_cpu t') j = zget (threads_bind_to_cpu t) j) ∧
    ∃ t'', thread_ends cfg t' c = Ok t'' ∧ threads_bind_to_cpu t'' = threads_bind_to_cpu t.
Proof.
  intros Hcfg Hn Hlen Hcur0 Hcur Hload. destruct (zget_is_Some (threads_bind_to_cpu t) 0) as [x0 Hx0]; [lia|].
  destruct (pick_cpu_ok (Z.to_nat n) t 0 0 x0) as (c & x & E & Hc & Hx & _ & Hmin); [lia..|done| |].
  { intros j y Hj. lia. }
  pose proof (Hload c x Hx) as Hxr. unfold thread_starts, thread_ends. rewrite Hcfg, E. cbn [mbind result_bind].
  assert (aread (threads_bind_to_cpu t) c = Ok x) as -> by (by rewrite aread_Ok). cbn [mbind result_bind].
  rewrite (w64_small (x + 1)) by lia. rewrite awrite_total by lia. cbn [mbind result_bind].
  eexists _, c, x. split; [done|]. split; [done|]. split; [done|]. split.
  - intros j y Hy. pose proof (zget_range _ _ _ Hy) as Hj. rewrite Hlen in Hj. apply (Hmin ((j - current_cpu_id t) mod n)); [by apply Z.mod_pos_bound|].
    rewrite Zplus_mod_idemp_r. replace (current_cpu_id t + (j - current_cpu_id t)) with j by lia. by rewrite Z.mod_small.
  - unfold load_of. cbn [threads_bind_to_cpu]. split; [apply zget_zset_eq; lia|]. split; [intros j Hj; by apply zget_zset_ne|].
    unfold aread. rewrite zget_zset_eq by lia. cbn [mbind result_bind]. replace (x + 1 - 1) with x by lia. rewrite (w64_small x) by lia.
    rewrite awrite_total by (rewrite zlen_zset; lia). cbn [mbind result_bind]. eexists. split; [done|]. cbn [threads_bind_to_cpu].
    unfold zset, load_of, zget in *. case_decide; [|done]. rewrite list_insert_insert_eq. by apply list_insert_id.
Qed.
End threads.

(** ** A concrete process *)
Section witnesses.
Import SpaceSpec.Flat.

Definition example_config : config := mk_config false 4096 4096 (2 ^ 32) true false false false OFFSET_FLAG OFFSET_FLAG.
Definition example_state : bind_state (W := flat) := mk_bind counting (create 16384 0) 0 ∅.
Definition example_threads : thread_state := mk_threads 1 [2; 1; 0; 1].

Lemma example_blocks : alloc_inv (cached_allocator example_state) ∅.
Proof. apply create_inv; lia. Qed.

(** 5000 bytes go to the cache. *)
Lemma malloc_typed_witness : ∃ b' ptr,
  cache_malloc_hook 1 example_config 0 true (λ w _, (w, 8192)) example_state 5000 = Ok (b', ptr) ∧ cache_space_ptr ptr = true ∧
  ∃ b'', cache_free 1 0 b' ptr 5000 = Ok b''.
Proof.
  pose proof (malloc_typed 1 example_config 0 true (λ w _, (w, 8192)) example_state ∅ 5000 example_blocks ltac:(lia) ltac:(reflexivity)) as H.
  destruct (cache_malloc_hook 1 example_config 0 true (λ w _, (w, 8192)) example_state 5000) as [[b' ptr]|e] eqn:E.
  - exists b', ptr. split; [reflexivity|]. destruct H as [Ht (bl' & _ & _ & _ & _ & Hf)]. split; [exact Ht|exact Hf].
  - exfalso. vm_compute in E. discriminate E.
Defined.

Lemma thread_starts_least_witness : ∃ t' x, thread_starts example_config 4 example_threads = Ok (t', 2) ∧ load_of t' 2 x ∧
  ∃ t'', thread_ends example_config t' 2 = Ok t''.
Proof.
  destruct (thread_starts_least example_config 4 example_threads) as (t' & c & x & E & _ & _ & _ & Hl & _ & t'' & Et & _).
  - reflexivity.
  - lia.
  - reflexivity.
  - cbn. lia.
  - cbn. lia.
  - intros j x Hx. unfold load_of, zget in Hx. case_decide; [|discriminate Hx].
    destruct (Z.to_nat j) as [|[|[|[|k]]]]; cbn in Hx; try (injection Hx as <-; lia). discriminate Hx.
  - assert (c = 2) as -> by (vm_compute in E; by injection E as _ <-).
    exists t', (x + 1). split; [exact E|]. split; [exact Hl|]. exists t''. exact Et.
Defined.
End witnesses.
