(* ===== verification/PrivateCacheSpec.v ===== *)
(** * The private caches keep the promise of a cache that pins

    Over a shared cache that pins ([PinSpec] of [SpaceSpec.v]), the private
    caches of a thread are a cache that pins: a page is pinned once in the shared
    cache for as long as it has a frame here, however often the thread pins it;
    what was written through a pin is reported to the shared cache when the page
    loses its frame. *)
From stdpp Require Import gmap list.
From S2P Require Import Prelude Util Replacement PteHeader CompactHashPageTable CompactTableLines SharedSingleThreadCache SharedServer SharedServerSpec SharedServerUse ImmediateTransfers ImmediateFlush PrivateCache CachedPtr SpaceSpec.

Open Scope Z_scope.

Section private.
Context {W : Type} `{PinSpec W}.
(** The shared cache's partitioner, the frames per partition, waiting for
    messages, and the bound of the loops. *)
Context (partitioner : RoundRobinPartitioner) (local : Z) (wait : W → result W) (fuel : nat).

#[local] Instance shared_of_space : SharedInterface W :=
  {| PrivateCache.shared_pin := sp_pin; PrivateCache.shared_unpin := sp_unpin; PrivateCache.shared_wait := wait |}.

Abbreviation settled := (ImmediateTransfers.settled (EC := SharedCacheContext)).
Abbreviation world := shared_cache_state.
Implicit Types (c : private_cache W) (st : single_thread_cache) (w : W) (held : gmap Z Z) (v u b i : Z).

(** ** Pages and their places *)
Definition part_of v : Z := (locate partitioner v).1.
Definition block_of v : Z := (locate partitioner v).2.
Definition in_part i v : Prop := 0 ≤ v < sp_pages ∧ part_of v = i.
(** The pointer kept in the frame of block [b]. *)
Definition external st b : Z := default 0 (s_external <$> zget (states st) (pp st b)).
Definition entry_of c v : unpacked_pte :=
  match zget (private_caches c) (part_of v) with Some st => ent st (block_of v) | None => no_pte end.

(** The pages pinned through the private caches, with the frame they have in the
    shared cache; those stored to through these pins only. *)
Definition private_held c : gmap Z (Z * Z) :=
  map_imap (λ v '(a, _), let k := p_ref_count (entry_of c v) in if 0 <? k then Some (a, k) else None) (sp_held (world c)).
Definition private_written c : gset Z :=
  filter (λ v, private_held c !! v ≠ None ∧ p_dirty (entry_of c v) = false) (sp_written (world c)).

(** Each page has less pins than a count can hold, and the pages of a partition
    are not more than its frames. *)
Definition private_fits (x : Z → Z) : Prop :=
  (∀ v, x v < REF_MOD) ∧ ∀ vs i, NoDup vs → (∀ v, v ∈ vs → in_part i v ∧ 0 < x v) → zlen vs ≤ local.

(** The pins the private caches have of the shared one. *)
Definition local_pins (x : Z → Z) : Prop :=
  (∀ v, x v = 0 ∨ x v = 1 ∧ 0 ≤ v < sp_pages) ∧ ∀ vs i, NoDup vs → (∀ v, v ∈ vs → in_part i v ∧ x v = 1) → zlen vs ≤ local.

Record shared_ok : Prop := {
  so_partitioner : partitioner_wf partitioner;
  so_pages : num_vpages partitioner = sp_pages;
  so_local : 0 < local ≤ 2 ^ 31;
  so_room x : local_pins x → sp_fits x;
  so_fuel : (0 < fuel)%nat;
}.

Record private_inv c : Prop := {
  pi_inv : sp_inv (world c);
  pi_count : zlen (private_caches c) = num_partitions partitioner;
  pi_local : num_local_ppages_per_partition c = local;
  pi_part i st : zget (private_caches c) i = Some st → sizes st = (local, num_blocks partitioner i) ∧ ∃ held, settled st held;
  (** every frame in use is the one of its page *)
  pi_frames i st : zget (private_caches c) i = Some st → clean st;
  (** the pins of the shared cache: one of each page that has a frame *)
  pi_pages v st : 0 ≤ v < sp_pages → zget (private_caches c) (part_of v) = Some st →
    sp_held (world c) !! v = if decide (resident st (block_of v)) then Some (external st (block_of v), 1) else None;
  (** a page written to is marked or still pinned *)
  pi_written v st : 0 ≤ v < sp_pages → zget (private_caches c) (part_of v) = Some st → v ∈ sp_written (world c) →
    p_dirty (ent st (block_of v)) = true ∨ 0 < p_ref_count (ent st (block_of v));
}.

Context (Hok : shared_ok).
#[local] Set Default Proof Using "Type*".

Lemma page_place v : 0 ≤ v < sp_pages → 0 ≤ part_of v < num_partitions partitioner ∧
  0 ≤ block_of v < num_blocks partitioner (part_of v) ∧ vpage_of partitioner (part_of v) (block_of v) = v.
Proof.
  intros Hv. rewrite <- (so_pages Hok) in Hv. destruct (locate_range partitioner (so_partitioner Hok) v Hv) as [? ?].
  by pose proof (vpage_of_locate partitioner (so_partitioner Hok) v Hv).
Qed.

Lemma place_page i b : 0 ≤ i < num_partitions partitioner → 0 ≤ b < num_blocks partitioner i →
  in_part i (vpage_of partitioner i b) ∧ block_of (vpage_of partitioner i b) = b.
Proof.
  intros Hi Hb. pose proof (locate_vpage_of partitioner (so_partitioner Hok) i b Hi Hb) as El.
  unfold in_part, part_of, block_of. rewrite El. split; [split|]; [|done|done]. rewrite <- (so_pages Hok).
  pose proof (so_partitioner Hok). rewrite vpage_of_small by done.
  pose proof (proj1 (block_bound_iff partitioner (so_partitioner Hok) i b Hi ltac:(lia)) ltac:(lia)). nia.
Qed.

Lemma place_inj u v : 0 ≤ u < sp_pages → 0 ≤ v < sp_pages → part_of u = part_of v → block_of u = block_of v → u = v.
Proof. intros Hu Hv Ep Eb. destruct (page_place u Hu) as (_ & _ & <-), (page_place v Hv) as (_ & _ & <-). congruence. Qed.

Lemma blocks_small i : num_blocks partitioner i ≤ NUM_PACK_PAGES * EMPTY_TAG.
Proof.
  destruct sp_size as [H0' Hs]. pose proof CACHE_PAGE_SIZE_eq. destruct (so_partitioner Hok) as [Hn _]. pose proof (so_pages Hok) as Hp.
  unfold num_blocks. assert (NUM_PACK_PAGES * EMPTY_TAG = 8 * (2 ^ 58 - 1)) as -> by reflexivity.
  assert (0 ≤ num_vpages partitioner / num_partitions partitioner ≤ num_vpages partitioner) as Hq.
  { split; [apply Z.div_pos; lia|]. apply Z.div_le_upper_bound; nia. }
  rewrite w64_small; case_match; lia.
Qed.

Lemma page_place_part c v : private_inv c → 0 ≤ v < sp_pages → ∃ st held, zget (private_caches c) (part_of v) = Some st ∧
  settled st held ∧ sizes st = (local, num_blocks partitioner (part_of v)) ∧ okp st (block_of v) ∧ max_ppage_id st = local.
Proof.
  intros Hi Hv. destruct (page_place v Hv) as (Hp & Hb & _). destruct (zget_is_Some (private_caches c) (part_of v)) as [st E]; [by rewrite (pi_count c Hi)|].
  destruct (pi_part c Hi _ st E) as [Es [held Hs]]. exists st, held. split; [done|]. split; [done|]. split; [done|]. injection Es as -> Ev. unfold okp. by rewrite Ev.
Qed.

(** ** What the program sees *)
Lemma private_held_lookup c v : private_held c !! v = sp_held (world c) !! v ≫= λ '(a, _),
  let k := p_ref_count (entry_of c v) in if 0 <? k then Some (a, k) else None.
Proof using Type. unfold private_held. rewrite map_lookup_imap. by destruct (sp_held _ !! v) as [[a k]|]. Qed.

Lemma private_held_page c v st held : private_inv c → 0 ≤ v < sp_pages → zget (private_caches c) (part_of v) = Some st → settled st held →
  private_held c !! v = match held !! block_of v with Some k => Some (external st (block_of v), k) | None => None end.
Proof.
  intros Hi Hv E Hs. rewrite private_held_lookup, (pi_pages c Hi v st Hv E). unfold entry_of. rewrite E. pose proof (se_inv _ _ Hs) as Hsi.
  case_decide as Hr; cbn [mbind option_bind].
  - destruct (si_resident _ _ _ _ Hsi _ Hr) as (_ & _ & _ & _ & ->). unfold held_of. destruct (held !! block_of v) as [k|] eqn:Ek; cbn.
    + destruct (si_held _ _ _ _ Hsi _ k Ek) as [? _]. by rewrite (proj2 (Z.ltb_lt 0 k)) by lia.
    + done.
  - destruct (held !! block_of v) as [k|] eqn:Ek; [|done]. by destruct (si_held _ _ _ _ Hsi _ k Ek).
Qed.

Lemma private_held_space c v a k : private_inv c → private_held c !! v = Some (a, k) → 0 ≤ v < sp_pages.
Proof.
  intros Hi E. rewrite private_held_lookup in E. destruct (sp_held (world c) !! v) as [[a' k']|] eqn:E'; [|done].
  by destruct (sp_held_law _ v a' k' (pi_inv c Hi) E') as (_ & ? & _).
Qed.

(** ** A step of one partition's cache *)
Definition after c w i st : private_cache W := mk_private w (num_local_ppages_per_partition c) (zset (private_caches c) i st).

Lemma after_other c w i st v : part_of v ≠ i → zget (private_caches (after c w i st)) (part_of v) = zget (private_caches c) (part_of v).
Proof using Type. intros Hne. cbn [after private_caches]. by rewrite zget_zset_ne by congruence. Qed.

Lemma after_part c w i st st' : zget (private_caches c) i = Some st' → zget (private_caches (after c w i st)) i = Some st.
Proof using Type. intros E%zget_range. by apply zget_zset_eq. Qed.

Lemma private_step_inv c i st st' held' w' : private_inv c → zget (private_caches c) i = Some st → sizes st' = sizes st → settled st' held' → clean st' → sp_inv w' →
  (∀ v, in_part (part_of v) v → part_of v ≠ i → sp_held w' !! v = sp_held (world c) !! v) → sp_written w' ⊆ sp_written (world c) →
  (∀ v, in_part i v → sp_held w' !! v = if decide (resident st' (block_of v)) then Some (external st' (block_of v), 1) else None) →
  (∀ v, in_part i v → v ∈ sp_written w' → p_dirty (ent st' (block_of v)) = true ∨ 0 < p_ref_count (ent st' (block_of v))) →
  private_inv (after c w' i st').
Proof using Type.
  intros Hi E Esz Hs Hcl Hi' Hother Hsub Hin Hwr. split; [done|cbn [after private_caches]; rewrite zlen_zset; apply Hi|apply Hi| | | |].
  - intros j sj Ej. cbn [after private_caches] in Ej. rewrite zget_zset in Ej. case_decide as Hj; [|by apply (pi_part c Hi)].
    destruct Hj as [<- _]. injection Ej as <-. rewrite Esz. split; [apply (pi_part c Hi _ st E)|by exists held'].
  - intros j sj Ej. cbn [after private_caches] in Ej. rewrite zget_zset in Ej. case_decide as Hj; [|by apply (pi_frames c Hi j)].
    by injection Ej as <-.
  - intros v sv Hv Ev. destruct (decide (part_of v = i)) as [Hp|Hp].
    + rewrite Hp, (after_part c w' i st' st E) in Ev. injection Ev as <-. by apply Hin.
    + rewrite after_other in Ev by done. cbn [world after]. rewrite Hother by done. by apply (pi_pages c Hi).
  - intros v sv Hv Ev Hvw. destruct (decide (part_of v = i)) as [Hp|Hp].
    + rewrite Hp, (after_part c w' i st' st E) in Ev. injection Ev as <-. by apply Hwr.
    + rewrite after_other in Ev by done. apply (pi_written c Hi); [done|done|by apply Hsub].
Qed.

Lemma held_other c i st w' v : (in_part (part_of v) v → sp_held w' !! v = sp_held (world c) !! v) → sp_inv w' → private_inv c → part_of v ≠ i →
  private_held (after c w' i st) !! v = private_held c !! v ∧ entry_of (after c w' i st) v = entry_of c v.
Proof using Type.
  intros Hh Hi' Hi Hp. assert (entry_of (after c w' i st) v = entry_of c v) as Ee by (unfold entry_of; by rewrite after_other).
  split; [|done]. rewrite !private_held_lookup, Ee. cbn [world after]. destruct (decide (0 ≤ v < sp_pages)) as [Hv|Hv]; [by rewrite Hh|].
  destruct (sp_held w' !! v) as [[a k]|] eqn:E1; [destruct Hv; by destruct (sp_held_law w' v a k Hi' E1) as (_ & ? & _)|].
  destruct (sp_held (world c) !! v) as [[a k]|] eqn:E2; [destruct Hv; by destruct (sp_held_law _ v a k (pi_inv c Hi) E2) as (_ & ? & _)|done].
Qed.

Lemma run_after c i st (x : context_type) w' st' (x' : context_type) : zget (private_caches c) i = Some st →
  process i 0 (PrivateCache.evict_func partitioner) (PrivateCache.load_func partitioner) (mk_sys (world c) st) x = Ok (mk_sys w' st', x') →
  run partitioner c i x = Ok (after c w' i st', x').
Proof using Type.
  intros E Hp. unfold run. rewrite (proj2 (aread_Ok _ _ _) E). cbn [mbind result_bind]. rewrite (bind_rew _ _ _ Hp). cbn [mbind result_bind].
  rewrite awrite_total by (by apply zget_range in E). done.
Qed.

Lemma finish_end n c i x : c_phase x = End_ → finish partitioner n c i x = Ok (c, x).
Proof using Type. intros E. destruct n; cbn [finish]; unfold is_end; by rewrite E. Qed.

(** One call of [process] answers a pin, and its page has the frame's pointer. *)
Lemma pin_returns c v st w' st' (x' : context_type) p a : 0 ≤ v < sp_pages → zget (private_caches c) (part_of v) = Some st →
  process (part_of v) 0 (PrivateCache.evict_func partitioner) (PrivateCache.load_func partitioner) (mk_sys (world c) st)
    (pin_context (no_context (part_of v)) (block_of v)) = Ok (mk_sys w' st', x') →
  answered x' p → 0 ≤ p < 2 ^ 31 → (∃ f, zget (states st') p = Some f ∧ s_external f = a) →
  PrivateCache.pin partitioner sp_pages fuel c v = Ok (after c w' (part_of v) st', a).
Proof.
  intros Hv E Hp (Hend & Hpp & Hext) Hpr (f & Hf & <-). unfold PrivateCache.pin. rewrite (proj2 (Z.ltb_lt _ _)) by lia. cbn [ensure mbind result_bind].
  unfold part_of, block_of in *. destruct (locate partitioner v) as [i b]. cbn [fst snd] in *. pose proof (so_fuel Hok) as Hfuel. destruct fuel as [|n] eqn:Ef; [lia|].
  cbn [pin_loop]. rewrite (run_after c i st _ w' st' x' E Hp). cbn [mbind result_bind]. rewrite finish_end by done. cbn [mbind result_bind].
  assert ((MAX_RETRY <? 0 + 1) = false) as -> by reflexivity. rewrite Hpp. rewrite (proj2 (Z.eqb_neq p NO_PPAGE)) by (unfold NO_PPAGE, MAX64; lia).
  rewrite Hext, (proj2 (aread_Ok _ _ _) (after_part c w' i st' st E)). cbn [mbind result_bind]. by rewrite (proj2 (aread_Ok _ _ _) Hf).
Qed.

(** A step on the block of page [v] shows at that page only. *)
Record page_step c st held w' st' held' v : Prop := {
  ps_space : 0 ≤ v < sp_pages;
  ps_part : zget (private_caches c) (part_of v) = Some st;
  ps_before : settled st held;
  ps_after : settled st' held';
  ps_world : sp_inv w';
  ps_sizes : sizes st' = sizes st;
  ps_others u : in_part (part_of u) u → part_of u ≠ part_of v → sp_held w' !! u = sp_held (world c) !! u;
  ps_blocks b : b ≠ block_of v → held' !! b = held !! b;
  ps_pinned b k : b ≠ block_of v → held !! b = Some k → external st' b = external st b ∧ p_dirty (ent st' b) = p_dirty (ent st b);
  ps_written : sp_written w' ⊆ sp_written (world c);
  ps_kept u : u ≠ v → private_held c !! u ≠ None → u ∈ sp_written (world c) → u ∈ sp_written w';
}.

Lemma step_entry c i st st' w' u : zget (private_caches c) i = Some st → part_of u = i →
  entry_of (after c w' i st') u = ent st' (block_of u) ∧ entry_of c u = ent st (block_of u).
Proof using Type. intros E <-. unfold entry_of. by rewrite (after_part c w' _ st' st E), E. Qed.

Lemma step_view c st held w' st' held' v : private_inv c → page_step c st held w' st' held' v →
  let c' := after c w' (part_of v) st' in private_inv c' →
  private_held c' !! v = match held' !! block_of v with Some k => Some (external st' (block_of v), k) | None => None end ∧
  ∀ u, u ≠ v → private_held c' !! u = private_held c !! u ∧
    (u ∈ private_written c' ↔ u ∈ private_written c).
Proof.
  intros Hi Hp c' Hi'. pose proof (ps_part _ _ _ _ _ _ _ Hp) as E. pose proof (ps_space _ _ _ _ _ _ _ Hp) as Hv.
  split; [by apply (private_held_page c' v st' held' Hi' Hv (after_part c w' _ st' st E)), Hp|]. intros u Hu.
  assert (private_held c' !! u = private_held c !! u ∧ (private_held c !! u ≠ None → p_dirty (entry_of c' u) = p_dirty (entry_of c u))) as [Eh Ed].
  { destruct (decide (part_of u = part_of v)) as [Epu|Epu].
    - destruct (decide (0 ≤ u < sp_pages)) as [Hus|Hus].
      + assert (block_of u ≠ block_of v) as Hb by (intros Eb; apply Hu; by apply place_inj).
        destruct (step_entry c (part_of v) st st' w' u E Epu) as [Ee1 Ee2].
        assert (zget (private_caches c) (part_of u) = Some st) as E1 by (by rewrite Epu).
        assert (zget (private_caches c') (part_of u) = Some st') as E2 by (rewrite Epu; by eapply after_part).
        rewrite (private_held_page c' u st' held' Hi' Hus E2 (ps_after _ _ _ _ _ _ _ Hp)), (private_held_page c u st held Hi Hus E1 (ps_before _ _ _ _ _ _ _ Hp)).
        unfold c'. rewrite Ee1, Ee2, (ps_blocks _ _ _ _ _ _ _ Hp) by done. destruct (held !! block_of u) as [k|] eqn:Ek; [|done].
        by destruct (ps_pinned _ _ _ _ _ _ _ Hp _ k Hb Ek) as [-> ->].
      + assert (∀ d, private_inv d → private_held d !! u = None) as Hn.
        { intros d Hd. destruct (private_held d !! u) as [[a k]|] eqn:Eu; [|done]. by apply private_held_space in Eu. }
        by rewrite !Hn.
    - destruct (held_other c (part_of v) st' w' u) as [Eh Ee]; [intros Hu'; by apply (ps_others _ _ _ _ _ _ _ Hp u)|apply Hp|done|done|by fold c' in Eh, Ee; rewrite Eh, Ee]. }
  split; [done|]. unfold private_written. rewrite !elem_of_filter, Eh. cbn [world c' after]. split; intros [[Hn Hd] Hw].
  - split; [split; [done|by rewrite <- Ed]|by apply (ps_written _ _ _ _ _ _ _ Hp)].
  - split; [split; [done|by rewrite Ed]|by apply (ps_kept _ _ _ _ _ _ _ Hp)].
Qed.

Lemma written_page c v st held : private_inv c → 0 ≤ v < sp_pages → zget (private_caches c) (part_of v) = Some st → settled st held →
  v ∈ private_written c ↔ held !! block_of v ≠ None ∧ p_dirty (ent st (block_of v)) = false ∧ v ∈ sp_written (world c).
Proof.
  intros Hi Hv E Hs. unfold private_written. rewrite elem_of_filter, (private_held_page c v st held Hi Hv E Hs). unfold entry_of. rewrite E.
  destruct (held !! block_of v); naive_solver.
Qed.

(** What a pin has to do. *)
Definition pin_done c c' v a : Prop :=
  private_inv c' ∧ private_held c' = <[v := (a, pin_count (private_held c) v + 1)]> (private_held c) ∧
  (∀ a' k, private_held c !! v = Some (a', k) → a' = a) ∧ private_written c' = private_written c ∧
  (∀ o, sp_bytes (world c') o = sp_bytes (world c) o) ∧ ∀ x, sp_plain x → raw_load (world c') x = raw_load (world c) x.

Lemma pin_step c st held w' st' held' v a : private_inv c → page_step c st held w' st' held' v →
  let c' := after c w' (part_of v) st' in private_inv c' → let b := block_of v in
  held' !! b = Some (held_of held b + 1) → external st' b = a → (held !! b ≠ None → external st b = a) →
  (held !! b ≠ None → p_dirty (ent st' b) = p_dirty (ent st b) ∧ (v ∈ sp_written (world c) → v ∈ sp_written w')) →
  (held !! b = None → v ∈ sp_written w' → p_dirty (ent st' b) = true) →
  (∀ o, sp_bytes w' o = sp_bytes (world c) o) → (∀ x, sp_plain x → raw_load w' x = raw_load (world c) x) →
  pin_done c c' v a.
Proof.
  intros Hi Hp c' Hi' b Hh' Ea Ea' Hd Hnew Hbytes Hplain. destruct (step_view c st held w' st' held' v Hi Hp Hi') as [Ev Eu]. fold c' b in Ev, Eu.
  pose proof (ps_part _ _ _ _ _ _ _ Hp) as E. pose proof (ps_space _ _ _ _ _ _ _ Hp) as Hv.
  pose proof (private_held_page c v st held Hi Hv E (ps_before _ _ _ _ _ _ _ Hp)) as Ev0. fold b in Ev0.
  split; [done|]. split; [|split; [|split; [|done]]].
  - apply map_eq. intros u. destruct (decide (u = v)) as [->|Hu]; [|rewrite lookup_insert_ne by congruence; by apply Eu].
    rewrite lookup_insert_eq, Ev, Hh'. unfold pin_count. rewrite Ev0, Ea. unfold held_of. by destruct (held !! b).
  - intros a' k Ek. rewrite Ek in Ev0. destruct (held !! b) as [k'|]; [|done]. injection Ev0 as -> _. by apply Ea'.
  - apply set_eq. intros u. destruct (decide (u = v)) as [->|Hu]; [|by apply Eu].
    rewrite (written_page c' v st' held' Hi' Hv (after_part c w' _ st' st E) (ps_after _ _ _ _ _ _ _ Hp)), (written_page c v st held Hi Hv E (ps_before _ _ _ _ _ _ _ Hp)).
    fold b. rewrite Hh'. cbn [world c' after]. pose proof (ps_written _ _ _ _ _ _ _ Hp v) as Hsub. destruct (held !! b) as [k|].
    + destruct Hd as [-> Hk]; [done|]. split; [|naive_solver]. intros (_ & ? & ?). split; [done|]. split; [done|by apply Hsub].
    + split; [|by intros ([] & _)]. intros (_ & Hdf & Hvw). rewrite Hnew in Hdf; done.
Qed.

(** ** Counting *)
Lemma page_pins c v st held : private_inv c → 0 ≤ v < sp_pages → zget (private_caches c) (part_of v) = Some st → settled st held →
  pin_count (private_held c) v = held_of held (block_of v).
Proof.
  intros Hi Hv E Hs. unfold pin_count. rewrite (private_held_page c v st held Hi Hv E Hs). unfold held_of. by destruct (held !! block_of v).
Qed.

Lemma part_index c v st : private_inv c → zget (private_caches c) (part_of v) = Some st → 0 ≤ part_of v < num_partitions partitioner.
Proof. intros Hi E%zget_range. by rewrite (pi_count c Hi) in E. Qed.

(** A page that is not pinned yet gets a frame. *)
Lemma frames_left c v st held : private_inv c → 0 ≤ v < sp_pages → zget (private_caches c) (part_of v) = Some st → settled st held →
  private_fits (λ u, pin_count (private_held c) u + one v u) → held !! block_of v = None → full_pin st = false.
Proof.
  intros Hi Hv E Hs [_ Hfit] Hn. pose proof (se_inv _ _ Hs) as Hsi. destruct (pi_part c Hi _ st E) as [[= Emax Evmax] _].
  pose proof (part_index c v st Hi E) as Hpi. set (i := part_of v) in *.
  assert (∀ b, b ∈ (elements (dom held)) → ∃ k, held !! b = Some k ∧ 0 < k ∧ 0 ≤ b < num_blocks partitioner i) as Hb.
  { intros b Hb. apply elem_of_elements, elem_of_dom in Hb as [k Hk]. destruct (si_held _ _ _ _ Hsi b k Hk) as [? [Hokp _]]. exists k.
    unfold okp in Hokp. rewrite Evmax in Hokp. split; [done|]. lia. }
  pose proof (Hfit (v :: (vpage_of partitioner i <$> elements (dom held))) i) as Hlen. unfold zlen in Hlen. rewrite length_cons, length_fmap in Hlen.
  assert (length (elements (dom held)) = base.size held) as Esz by (by rewrite <- (size_dom held)).
  rewrite Esz in Hlen. pose proof (si_pinned _ _ _ _ Hsi) as Hps. unfold zlen in Hps. cbn in Hps. pose proof (so_local Hok).
  unfold full_pin. apply Z.leb_gt. rewrite Emax, to_int64_small by lia. enough (Z.of_nat (S (base.size held)) ≤ local) by lia. apply Hlen.
  - apply NoDup_cons. split.
    + intros (b & Ev & Hin)%list_elem_of_fmap. destruct (Hb b Hin) as (k & Hk & _ & Hr). destruct (place_page i b Hpi Hr) as [_ Eb]. rewrite <- Ev in Eb. congruence.
    + apply NoDup_fmap_2_strong; [|apply NoDup_elements]. intros b1 b2 Hb1 Hb2 Ev. destruct (Hb b1 Hb1) as (_ & _ & _ & Hr1), (Hb b2 Hb2) as (_ & _ & _ & Hr2).
      destruct (place_page i b1 Hpi Hr1) as [_ <-], (place_page i b2 Hpi Hr2) as [_ <-]. by rewrite Ev.
  - intros u [->|(b & -> & Hin)%list_elem_of_fmap]%elem_of_cons.
    + split; [done|]. rewrite (page_pins c v st held Hi Hv E Hs). unfold held_of, one. rewrite Hn, decide_True by done. done.
    + destruct (Hb b Hin) as (k & Hk & Hpos & Hr). destruct (place_page i b Hpi Hr) as [[Hsp Hpt] Eb]. split; [by split|].
      rewrite (page_pins c _ st held Hi Hsp) by (done || by rewrite Hpt). unfold held_of. rewrite Eb, Hk. unfold one. cbn. case_decide; lia.
Qed.

(** The pins of the shared cache while a page gets a frame. *)
Lemma local_pins_step c v st held w1 p : private_inv c → 0 ≤ v < sp_pages → zget (private_caches c) (part_of v) = Some st → settled st held →
  0 ≤ p < max_ppage_id st → sp_inv w1 → sp_held w1 !! v = None →
  (∀ u, u ≠ v → sp_held w1 !! u ≠ None → sp_held w1 !! u = sp_held (world c) !! u ∧ (part_of u = part_of v → pp st (block_of u) ≠ p)) →
  local_pins (λ u, pin_count (sp_held w1) u + one v u).
Proof.
  intros Hi Hv E Hs Hp Hi1 Hn Hother. destruct (pi_part c Hi _ st E) as [[= Emax Evmax] _].
  assert (∀ u, u ≠ v → sp_held w1 !! u ≠ None → ∃ su, 0 ≤ u < sp_pages ∧ zget (private_caches c) (part_of u) = Some su ∧ resident su (block_of u) ∧
    pin_count (sp_held w1) u = 1) as Hres.
  { intros u Hu Hne. destruct (sp_held w1 !! u) as [[a k]|] eqn:Eu; [|done]. destruct (sp_held_law w1 u a k Hi1 Eu) as (_ & Hsp & _).
    destruct (page_place_part c u Hi Hsp) as (su & hu & Esu & _). exists su. split; [done|]. split; [done|].
    destruct (Hother u Hu) as [E' _]; [by rewrite Eu|]. unfold pin_count. rewrite E', (pi_pages c Hi u su Hsp Esu) in *. by case_decide. }
  assert (∀ u, u ≠ v → pin_count (sp_held w1) u + one v u = 0 ∨ sp_held w1 !! u ≠ None) as Hz.
  { intros u Hu. unfold pin_count, one. rewrite decide_False by done. destruct (sp_held w1 !! u); [by right|by left]. }
  assert (pin_count (sp_held w1) v + one v v = 1) as Ev by (unfold pin_count, one; by rewrite Hn, decide_True).
  split.
  - intros u. destruct (decide (u = v)) as [->|Hu]; [by right|]. destruct (Hz u Hu) as [?|Hne]; [by left|right].
    destruct (Hres u Hu Hne) as (su & Hsp & _ & _ & ->). unfold one. by rewrite decide_False.
  - intros vs i Hnd Hvs. assert (∀ u, u ∈ vs → u ≠ v → sp_held w1 !! u ≠ None) as Hne.
    { intros u Hin Hu. destruct (Hz u Hu) as [Hc|?]; [|done]. destruct (Hvs u Hin) as [_ ?]. lia. }
    destruct (decide (i = part_of v)) as [->|Hiv].
    + set (us := filter (λ u, u ≠ v) vs). assert (zlen vs ≤ zlen us + 1) as Hlen.
      { assert (vs ⊆ v :: us) as Hsub.
        { intros u Hu. destruct (decide (u = v)) as [->|]; [by left|]. right. by apply list_elem_of_filter. }
        apply (NoDup_submseteq _ _ Hnd), submseteq_length in Hsub. rewrite length_cons in Hsub. unfold zlen. lia. }
      pose proof (resident_count_but (EC := SharedCacheContext) st [] held [] (block_of <$> us) p) as Hc. unfold zlen in *. rewrite length_fmap in Hc. rewrite Emax in *.
      enough (Z.of_nat (length us) + 1 ≤ local) by lia.
      apply Hc; [apply (se_inv _ _ Hs)| | |done].
      * apply NoDup_fmap_2_strong; [|by apply NoDup_filter]. intros u1 u2 [_ Hb1]%list_elem_of_filter [_ Hb2]%list_elem_of_filter Eb.
        destruct (Hvs u1 Hb1) as [[? E1] _], (Hvs u2 Hb2) as [[? E2] _]. apply place_inj; congruence.
      * intros b (u & -> & [Hu Hin]%list_elem_of_filter)%list_elem_of_fmap. destruct (Hvs u Hin) as [[Hsp Hpu] _].
        destruct (Hres u Hu (Hne u Hin Hu)) as (su & _ & Esu & Hr & _). rewrite Hpu, E in Esu. injection Esu as <-. split; [done|].
        by apply (Hother u Hu (Hne u Hin Hu)).
    + destruct vs as [|u0 vs']; [pose proof (so_local Hok); unfold zlen; cbn; lia|]. set (vs := u0 :: vs') in *.
      assert (∀ u, u ∈ vs → u ≠ v) as Huv by (intros u Hin ->; by destruct (Hvs v Hin) as [[_ Hpu] _]).
      assert (u0 ∈ vs) as H0in by by left. destruct (Hvs u0 H0in) as [[Hsp0 Hp0] _]. destruct (page_place_part c u0 Hi Hsp0) as (s0 & h0 & E0 & Hs0 & Esz0 & _ & Em0).
      rewrite Hp0 in E0. pose proof (resident_count (EC := SharedCacheContext) s0 [] h0 [] (block_of <$> vs)) as Hc. unfold zlen in *. rewrite length_fmap in Hc. rewrite Em0 in Hc.
      apply Hc; [apply Hs0| |].
      * apply NoDup_fmap_2_strong; [|done]. intros u1 u2 Hb1 Hb2 Eb. destruct (Hvs u1 Hb1) as [[? E1] _], (Hvs u2 Hb2) as [[? E2] _]. apply place_inj; congruence.
      * intros b (u & -> & Hin)%list_elem_of_fmap. destruct (Hvs u Hin) as [[Hsp Hpu] _].
        destruct (Hres u (Huv u Hin) (Hne u Hin (Huv u Hin))) as (su & _ & Esu & Hr & _). congruence.
Qed.

(** ** A page that has a frame here *)
Lemma private_pin_hit c v st held : private_inv c → 0 ≤ v < sp_pages → zget (private_caches c) (part_of v) = Some st → settled st held →
  resident st (block_of v) → held_of held (block_of v) + 1 < REF_MOD →
  ∃ c' a, PrivateCache.pin partitioner sp_pages fuel c v = Ok (c', a) ∧ pin_done c c' v a ∧ world c' = world c.
Proof.
  intros Hi Hv E Hs Hr Hrm. set (b := block_of v) in *. destruct (pi_part c Hi _ st E) as [[= Emax Evmax] _]. pose proof (so_local Hok).
  destruct (pin_hit_settled (EC := SharedCacheContext) (ES := PointerState) (part_of v) 0 (PrivateCache.evict_func partitioner) (PrivateCache.load_func partitioner) (world c) st held
    (pin_context (no_context (part_of v)) b) b Hs) as (st' & x' & Hrun & Hs' & Hans & Hss & Hent); [done|done|done|].
  pose proof (se_inv _ _ Hs) as Hsi. destruct (si_resident _ _ _ _ Hsi b Hr) as ((f & Hf & _) & Hpr & _ & _ & Href). pose proof (si_cur _ _ _ _ Hsi).
  assert (states st' = states st) as Est by apply Hss.
  assert (∀ u, okp st u → (resident st' u ↔ resident st u) ∧ pp st' u = pp st u ∧ p_dirty (ent st' u) = p_dirty (ent st u)) as Hsame.
  { intros u Hu. unfold resident, pp. rewrite (Hent u Hu). assert (okp st' u ↔ okp st u) as Eok by (unfold okp; by rewrite (ss_vpage _ _ Hss)).
    destruct (decide (u = b)) as [->|]; [destruct Hr as (_ & Hx & Hb); cbn [hit_pte p_exist p_busy p_ppage_id p_dirty]|]; tauto. }
  assert (∀ u, okp st u → external st' u = external st u) as Hext.
  { intros u Hu. unfold external. destruct (Hsame u Hu) as (_ & -> & _). by rewrite Est. }
  assert (∀ u, in_part (part_of v) u → okp st (block_of u)) as Hokp.
  { intros u [Hu Epu]. destruct (page_place u Hu) as (_ & Hbu & _). unfold okp. by rewrite Evmax, <- Epu. }
  assert (sizes st' = sizes st) as Esz by (unfold sizes; by rewrite (ss_ppage _ _ Hss), (ss_vpage _ _ Hss)).
  set (c' := after c (world c) (part_of v) st'). assert (private_inv c') as Hi'.
  { apply (private_step_inv c _ st st' (add_pin held b) _ Hi E Esz Hs'); [|apply Hi|done|done|..].
    - apply (clean_same st st' (pi_frames c Hi _ st E) Est). intros u Hu. split; [by apply Hsame; [apply Hu|]|apply Hsame, Hu].
    - intros u Hu. rewrite (pi_pages c Hi u st) by (apply Hu || by rewrite (proj2 Hu)). rewrite Hext by auto.
      destruct (Hsame (block_of u)) as (Er & _); [by auto|]. destruct (decide (resident st _)), (decide (resident st' _)); tauto.
    - intros u Hu Huw. rewrite (Hent (block_of u)) by auto. destruct (pi_written c Hi u st) as [Hd|Hp]; [apply Hu|by rewrite (proj2 Hu)|done| |];
        destruct (decide (block_of u = b)) as [Eb|]; try (by left); try (by right); right; cbn [hit_pte p_ref_count]; pose proof (held_pos st [] held [] b Hsi); lia. }
  exists c', (external st b). split; [|split; [|done]].
  - apply (pin_returns c v st (world c) st' x' (pp st b) _ Hv E Hrun Hans); [lia|]. exists f. rewrite Est. split; [done|]. unfold external. by rewrite Hf.
  - apply (pin_step c st held (world c) st' (add_pin held b) v _ Hi); [|done|..].
    + split; try done; [apply Hi|intros b' Hb'; by apply lookup_insert_ne|].
      intros b' k _ Hk. destruct (si_held _ _ _ _ Hsi b' k Hk) as [_ [Hb' _]]. split; [by apply Hext|by apply Hsame].
    + apply lookup_insert_eq.
    + apply Hext, Hr.
    + done.
    + intros _. split; [apply Hsame, Hr|done].
    + fold b. intros Hn Hvw. destruct (Hsame b) as (_ & _ & ->); [apply Hr|]. destruct (pi_written c Hi v st Hv E Hvw) as [?|Hp]; [done|].
      fold b in Hp. rewrite Href in Hp. unfold held_of in Hp. rewrite Hn in Hp. done.
    + done.
    + done.
Qed.

(** ** A page that has none *)

(** The page whose frame is taken. *)
Definition taken i (old : option (Z * PointerState)) : option Z := vpage_of partitioner i <$> victim old.

Definition given_up st held p (old : option (Z * PointerState)) : Prop :=
  match old with
  | None => ∀ u, resident st u → pp st u ≠ p
  | Some (pre, ext) => resident st pre ∧ pp st pre = p ∧ held !! pre = None ∧ ∃ f, zget (states st) p = Some f ∧ s_external f = ext
  end.

Lemma taken_page c i st held p old u : private_inv c → zget (private_caches c) i = Some st → settled st held → given_up st held p old →
  taken i old = Some u → in_part i u ∧ resident st (block_of u) ∧ held !! block_of u = None ∧ victim old = Some (block_of u).
Proof.
  intros Hi E Hs Hold Et. destruct old as [[pre ext]|]; [|done]. cbn in Et. injection Et as <-. destruct Hold as (Hr & _ & Hn & _).
  destruct (pi_part c Hi _ st E) as [[= _ Evmax] _]. pose proof (zget_range _ _ _ E) as Hir. rewrite (pi_count c Hi) in Hir.
  destruct (place_page i pre Hir) as [Hin Eb]; [destruct Hr as [Hr _]; unfold okp in Hr; by rewrite <- Evmax|]. by rewrite Eb.
Qed.

Lemma evict_old c i st held p old : private_inv c → zget (private_caches c) i = Some st → settled st held → given_up st held p old → ∃ w1,
  match old with
  | None => w1 = world c
  | Some (pre, ext) => ∃ e1 ext1, PrivateCache.evict_func partitioner (world c) i pre p (p_dirty (ent st pre)) ext = Ok (w1, e1, ext1, true)
  end ∧ sp_inv w1 ∧ (∀ u, sp_held w1 !! u = if decide (taken i old = Some u) then None else sp_held (world c) !! u) ∧
  sp_written w1 ⊆ sp_written (world c) ∧ (∀ u, taken i old ≠ Some u → u ∈ sp_written (world c) → u ∈ sp_written w1) ∧
  (∀ o, sp_bytes w1 o = sp_bytes (world c) o) ∧ ∀ x, sp_plain x → raw_load w1 x = raw_load (world c) x.
Proof.
  intros Hi E Hs Hold. pose proof (λ u, taken_page c i st held p old u Hi E Hs Hold) as Htk. destruct old as [[pre ext]|].
  2: { exists (world c). split; [done|]. split; [apply Hi|]. by split. }
  unfold taken in *. cbn [fmap option_fmap option_map victim fst] in *. set (vp := vpage_of partitioner i pre) in *.
  destruct (Htk vp eq_refl) as (Hin & Hr & Hn & Eb). injection Eb as Eb.
  assert (sp_held (world c) !! vp = Some (external st pre, 1)) as Hh.
  { rewrite (pi_pages c Hi vp st) by (apply Hin || by rewrite (proj2 Hin)). by rewrite <- Eb, decide_True by (by rewrite Eb). }
  destruct (sp_unpin_law (world c) vp _ 1 (p_dirty (ent st pre)) (pi_inv c Hi) Hh) as (w1 & Eu & Hi1 & Hh1 & Hw1 & Hb1 & Hp1).
  { destruct (decide (vp ∈ sp_written (world c))) as [Hw|]; [left|by right; left].
    destruct (pi_written c Hi vp st) as [Hd|Href]; [apply Hin|by rewrite (proj2 Hin)|done|by rewrite <- Eb in Hd|].
    destruct (si_resident _ _ _ _ (se_inv _ _ Hs) _ Hr) as (_ & _ & _ & _ & Hc). rewrite Hc in Href. unfold held_of in Href. by rewrite Hn in Href. }
  exists w1. split.
  - exists i, ext. unfold PrivateCache.evict_func, PrivateCache.shared_unpin, shared_of_space. fold vp. by rewrite Eu.
  - split; [done|]. rewrite Hh1, Hw1, orb_true_r. cbn [Z.eqb]. split; [|split; [apply subseteq_difference_l; done|split; [|done]]].
    + intros u. case_decide as Hu; [injection Hu as <-; apply lookup_delete_eq|]. apply lookup_delete_ne. congruence.
    + intros u Hu Huw. apply elem_of_difference. split; [done|]. apply not_elem_of_singleton. congruence.
Qed.

(** The pin of the shared cache for it. *)
Lemma load_new c v st held p old w1 : private_inv c → 0 ≤ v < sp_pages → zget (private_caches c) (part_of v) = Some st → settled st held →
  ¬ resident st (block_of v) → 0 ≤ p < max_ppage_id st → given_up st held p old → sp_inv w1 →
  (∀ u, sp_held w1 !! u = if decide (taken (part_of v) old = Some u) then None else sp_held (world c) !! u) →
  ∃ w2 a, PrivateCache.load_func partitioner w1 (part_of v) (block_of v) p 0 = Ok (w2, part_of v, a, true) ∧ sp_inv w2 ∧
    sp_held w2 = <[v := (a, 1)]> (sp_held w1) ∧ (v ∉ sp_written w2) ∧ sp_written w2 = sp_written w1 ∧
    (∀ o, sp_bytes w2 o = sp_bytes w1 o) ∧ ∀ x, sp_plain x → raw_load w2 x = raw_load w1 x.
Proof.
  intros Hi Hv E Hs Hnr Hp Hold Hi1 Hh1.
  assert (sp_held w1 !! v = None) as Hn.
  { rewrite Hh1. case_decide; [done|]. rewrite (pi_pages c Hi v st Hv E). by rewrite decide_False. }
  destruct (sp_pin_law w1 v Hi1 Hv) as (w2 & a & Ep & Hi2 & Hh2 & _ & Hw2 & Hb2 & Hp2).
  { apply (so_room Hok), (local_pins_step c v st held w1 p); try done. intros u Hu Hne. rewrite Hh1 in *. case_decide as Hc; [done|]. split; [done|].
    intros Epu Epp. destruct (sp_held (world c) !! u) as [[a k]|] eqn:Eu; [|done].
    destruct (sp_held_law _ u a k (pi_inv c Hi) Eu) as (_ & Hus & _). assert (resident st (block_of u)) as Hr.
    { rewrite (pi_pages c Hi u st Hus) in Eu by (by rewrite Epu). by case_decide. }
    destruct old as [[pre ext]|]; [|by apply (Hold (block_of u))]. destruct Hold as (Hr' & Epre & _).
    apply Hc. unfold taken. cbn [victim fmap option_fmap option_map fst]. f_equal. rewrite <- (srv_resident_inj st [] held [] (se_inv _ _ Hs) (block_of u) pre) by congruence.
    rewrite <- Epu. by destruct (page_place u Hus) as (_ & _ & ->). }
  exists w2, a. split; [unfold PrivateCache.load_func, PrivateCache.shared_pin, shared_of_space; destruct (page_place v Hv) as (_ & _ & ->); by rewrite Ep|].
  split; [done|]. split; [by rewrite Hh2, Hn|]. split; [rewrite Hw2; intros Hin; by apply (sp_written_law w1 v Hi1) in Hin|done].
Qed.

(** The entries and the frames after it. *)
Record loaded st st' b p (old : option (Z * PointerState)) (a : PointerState) : Prop := {
  ld_sizes : sizes st' = sizes st;
  ld_placed : placed st st' b p a;
  ld_ent u : okp st u → ent st' u = if decide (u = b) then loaded_pte p else if decide (victim old = Some u) then freed_pte else ent st u;
}.

Lemma loaded_new st st' b p old a : loaded st st' b p old a → okp st b → resident st' b ∧ external st' b = a ∧
  p_dirty (ent st' b) = false ∧ p_ref_count (ent st' b) = 1.
Proof using Type.
  intros [Esz [Hpl _] Hent] Hb. injection Esz as _ Ev. unfold resident, external, pp, okp in *. rewrite Ev, (Hent b Hb), decide_True by done. cbn [loaded_pte p_exist p_busy p_ppage_id p_dirty p_ref_count].
  by rewrite Hpl.
Qed.

Lemma loaded_gone st st' b p old a u : loaded st st' b p old a → okp st u → u ≠ b → victim old = Some u → ¬ resident st' u.
Proof using Type.
  intros [Esz _ Hent] Hu Hne Hvic (_ & Hx & _). rewrite (Hent u Hu), decide_False, decide_True in Hx by done. done.
Qed.

Lemma loaded_same st held st' b p old a u : settled st held → loaded st st' b p old a → given_up st held p old → okp st u → u ≠ b → victim old ≠ Some u →
  (resident st' u ↔ resident st u) ∧ ent st' u = ent st u ∧ (resident st u → external st' u = external st u).
Proof using Type.
  intros Hs [Esz [_ Hpl] Hent] Hold Hu Hne Hvic. injection Esz as _ Ev.
  assert (ent st' u = ent st u) as Ee by (by rewrite (Hent u Hu), !decide_False).
  split; [unfold resident, okp; by rewrite Ev, Ee|]. split; [done|]. intros Hr. unfold external, pp. rewrite Ee. fold (pp st u). rewrite Hpl; [done|].
  intros Epp. destruct old as [[pre ext]|]; [|by apply (Hold u)]. destruct Hold as (Hr' & Epre & _). apply Hvic. cbn. f_equal.
  apply (srv_resident_inj st [] held [] (se_inv _ _ Hs)); congruence.
Qed.

Lemma loaded_clean st held st' b p old a : settled st held → clean st → loaded st st' b p old a → given_up st held p old → okp st b → ¬ resident st b → clean st'.
Proof using Type.
  intros Hs Hc Hl Hold Hb Hnr. destruct (loaded_new _ _ _ _ _ _ Hl Hb) as (Hr & _).
  assert (pp st' b = p) as Ep by (unfold pp; rewrite (ld_ent _ _ _ _ _ _ Hl b Hb); by rewrite decide_True).
  apply (clean_placed st st' b p a Hc (ld_placed _ _ _ _ _ _ Hl) Hr Ep). intros u Hu Hne. destruct (decide (u = b)) as [->|Hub]; [done|]. 
  destruct (loaded_same st held st' b p old a u Hs Hl Hold) as (Er & Ee & _); [apply Hu|done| |].
  - destruct old as [[pre ext]|]; [|done]. intros [= ->]. by destruct Hold as (_ & ? & _).
  - split; [by apply Er|]. unfold pp. by rewrite Ee.
Qed.

Lemma private_pin_miss c v st held : private_inv c → 0 ≤ v < sp_pages → zget (private_caches c) (part_of v) = Some st → settled st held →
  ¬ resident st (block_of v) → full_pin st = false →
  ∃ c' a, PrivateCache.pin partitioner sp_pages fuel c v = Ok (c', a) ∧ pin_done c c' v a.
Proof.
  intros Hi Hv E Hs Hnr Hfull. set (b := block_of v) in *. set (i := part_of v) in *. destruct (pi_part c Hi _ st E) as [[= Emax Evmax] _]. pose proof (so_local Hok).
  assert (∀ u, in_part i u → okp st (block_of u)) as Hokp.
  { intros u [Hu Epu]. destruct (page_place u Hu) as (_ & Hbu & _). unfold okp. by rewrite Evmax, <- Epu. }
  assert (okp st b) as Hb by (by apply Hokp).
  destruct (pin_miss_settled (EC := SharedCacheContext) (ES := PointerState) i 0 (PrivateCache.evict_func partitioner) (PrivateCache.load_func partitioner) (world c) st held
    (pin_context (no_context i) b) b Hs) as (p & old & Hp & Hold & Hgo); [done|done|done|done|].
  change (given_up st held p old) in Hold. pose proof (λ u, taken_page c i st held p old u Hi E Hs Hold) as Htk.
  destruct (evict_old c i st held p old Hi E Hs Hold) as (w1 & Hev & Hi1 & Hh1 & Hw1 & Hk1 & Hby1 & Hpl1).
  destruct (load_new c v st held p old w1 Hi Hv E Hs Hnr Hp Hold Hi1 Hh1) as (w2 & a & Hld & Hi2 & Hh2 & Hvn & Hw2 & Hby2 & Hpl2).
  destruct (Hgo w1 w2 i a Hev Hld) as (st' & x' & Hrun & Hs' & Hans & Esz & Hplc & Hent). clear Hgo.
  assert (loaded st st' b p old a) as Hloaded by (by split). destruct (loaded_new _ _ _ _ _ _ Hloaded Hb) as (Hr' & Hext & Hd & Href).
  assert (held !! b = None) as Hhb.
  { destruct (held !! b) as [k|] eqn:Ek; [|done]. by destruct (si_held _ _ _ _ (se_inv _ _ Hs) b k Ek). }
  assert (∀ u, in_part i u → u ≠ v → block_of u ≠ b) as Hbne by (intros u [Hu Epu] Hne Eb; apply Hne; by apply place_inj).
  assert (∀ u, in_part i u → taken i old ≠ Some u → victim old ≠ Some (block_of u)) as Hvic.
  { intros u [Hu Epu] Ht Hvb. apply Ht. unfold taken. rewrite Hvb. cbn [fmap option_fmap option_map]. f_equal. rewrite <- Epu. apply page_place, Hu. }
  assert (∀ u, u ≠ v → sp_held w2 !! u = if decide (taken i old = Some u) then None else sp_held (world c) !! u) as Hh2'.
  { intros u Hne. rewrite Hh2, lookup_insert_ne by congruence. apply Hh1. }
  set (c' := after c w2 i st'). assert (private_inv c') as Hi'.
  { apply (private_step_inv c _ st st' (<[b := 1]> held) _ Hi E Esz Hs'); [by apply (loaded_clean st held st' b p old a); [|apply (pi_frames c Hi _ st E)|..]|done|..].
    - intros u Hu Hne. rewrite Hh2' by (by intros ->). rewrite decide_False; [done|]. intros Ht. by destruct (Htk u Ht) as [[_ ?] _].
    - by rewrite Hw2.
    - intros u Hu. destruct (decide (u = v)) as [->|Hne]; [rewrite Hh2, lookup_insert_eq; fold b; rewrite decide_True by done; by rewrite Hext|].
      rewrite Hh2' by done. destruct (decide (taken i old = Some u)) as [Ht|Ht].
      + destruct (Htk u Ht) as (_ & _ & _ & Hvb). rewrite decide_False; [done|]. by apply (loaded_gone _ _ _ _ _ _ _ Hloaded); auto.
      + destruct (loaded_same st held st' b p old a (block_of u) Hs Hloaded Hold) as (Er & _ & Ee); [auto..|].
        rewrite (pi_pages c Hi u st) by (apply Hu || by rewrite (proj2 Hu)). repeat case_decide; [by rewrite Ee|tauto|tauto|done].
    - intros u Hu Huw. destruct (decide (u = v)) as [->|Hne]; [right; fold b; by rewrite Href|]. destruct (decide (taken i old = Some u)) as [Ht|Ht].
      + exfalso. apply (sp_written_law w2 u Hi2 Huw). by rewrite Hh2', decide_True by done.
      + destruct (loaded_same st held st' b p old a (block_of u) Hs Hloaded Hold) as (_ & -> & _); [auto..|].
        apply (pi_written c Hi u st); [apply Hu|by rewrite (proj2 Hu)|]. apply Hw1. by rewrite <- Hw2. }
  exists c', a. split.
  - apply (pin_returns c v st w2 st' x' p a Hv E Hrun Hans); [lia|]. destruct Hplc as [Hf _]. by eexists.
  - apply (pin_step c st held w2 st' (<[b := 1]> held) v a Hi); [|done|..].
    + split; try done.
      * intros u Hu Hne. rewrite Hh2' by (by intros ->). rewrite decide_False; [done|]. intros Ht. by destruct (Htk u Ht) as [[_ ?] _].
      * intros b' Hb'. by apply lookup_insert_ne.
      * intros b' k Hb' Hk. destruct (si_held _ _ _ _ (se_inv _ _ Hs) b' k Hk) as [_ Hrb].
        destruct (loaded_same st held st' b p old a b' Hs Hloaded Hold) as (_ & -> & Ee); [apply Hrb|done| |by split; [apply Ee|]].
        destruct old as [[pre ext]|]; [|done]. cbn. intros [= ->]. destruct Hold as (_ & _ & Hn & _). congruence.
      * by rewrite Hw2.
      * intros u Hne Hph Huw. rewrite Hw2. apply Hk1; [|done]. intros Ht. destruct (Htk u Ht) as ([Hus Epu] & _ & Hn & _).
        apply Hph. rewrite (private_held_page c u st held Hi Hus) by (done || by rewrite Epu). by rewrite Hn.
    + fold b. rewrite lookup_insert_eq. unfold held_of. by rewrite Hhb.
    + done.
    + fold b. by rewrite Hhb.
    + fold b. by rewrite Hhb.
    + done.
    + intros o. by rewrite Hby2.
    + intros x Hx. by rewrite Hpl2, Hpl1.
Qed.

Lemma private_pin_ok c v : private_inv c → 0 ≤ v < sp_pages → private_fits (λ u, pin_count (private_held c) u + one v u) →
  ∃ c' a, PrivateCache.pin partitioner sp_pages fuel c v = Ok (c', a) ∧ pin_done c c' v a ∧ (sp_held (world c) !! v ≠ None → world c' = world c).
Proof.
  intros Hi Hv Hfit. destruct (page_place_part c v Hi Hv) as (st & held & E & Hs & _). destruct (decide (resident st (block_of v))) as [Hr|Hr].
  - enough (∃ c' a, PrivateCache.pin partitioner sp_pages fuel c v = Ok (c', a) ∧ pin_done c c' v a ∧ world c' = world c) as (c' & a & ? & ? & ?) by (by exists c', a).
    apply (private_pin_hit c v st held Hi Hv E Hs Hr). destruct Hfit as [Hrm _]. specialize (Hrm v). cbn in Hrm.
    rewrite (page_pins c v st held Hi Hv E Hs) in Hrm. unfold one in Hrm. by rewrite decide_True in Hrm.
  - destruct (private_pin_miss c v st held Hi Hv E Hs Hr) as (c' & a & Ep & Hd).
    2: { exists c', a. split; [done|]. split; [done|]. by rewrite (pi_pages c Hi v st Hv E), decide_False. }
    apply (frames_left c v st held Hi Hv E Hs Hfit).
    destruct (held !! block_of v) as [k|] eqn:Ek; [|done]. by destruct (si_held _ _ _ _ (se_inv _ _ Hs) _ k Ek).
Qed.

(** ** An unpin *)
Lemma private_unpin_ok c v a k (is_write : bool) : private_inv c → private_held c !! v = Some (a, k) →
  is_write = true ∨ v ∉ private_written c ∨ 1 < k → ∃ c', PrivateCache.unpin partitioner sp_pages fuel c v is_write = Ok c' ∧ private_inv c' ∧
  world c' = world c ∧ private_held c' = (if k =? 1 then delete v (private_held c) else <[v := (a, k - 1)]> (private_held c)) ∧
  private_written c' = (if is_write || (k =? 1) then private_written c ∖ {[v]} else private_written c).
Proof.
  intros Hi Hheld Hwr. pose proof (private_held_space c v a k Hi Hheld) as Hv. destruct (page_place_part c v Hi Hv) as (st & held & E & Hs & Esz0 & Hbok & _).
  injection Esz0 as Emax Evmax. pose proof (private_held_page c v st held Hi Hv E Hs) as Eh. rewrite Hheld in Eh. set (b := block_of v) in *. set (i := part_of v) in *.
  destruct (held !! b) as [k'|] eqn:Ek; [|done]. injection Eh as Ea <-. pose proof (se_inv _ _ Hs) as Hsi. destruct (si_held _ _ _ _ Hsi b k Ek) as [Hk Hr].
  assert (held_of held b = k) as Ehk by (unfold held_of; by rewrite Ek).
  destruct (unpin_settled (EC := SharedCacheContext) (ES := PointerState) i 0 (PrivateCache.evict_func partitioner) (PrivateCache.load_func partitioner) (world c) st held
    (unpin_context (no_context i) b is_write) b Hs) as (st' & x' & Hrun & Hs' & Hend & Hss & Hent); [done|lia|].
  cbn [unpin_context c_is_write] in Hent.
  assert (∀ u, okp st u → (resident st' u ↔ resident st u) ∧ external st' u = external st u ∧ (u ≠ b → ent st' u = ent st u)) as Hsame.
  { intros u Hu. unfold resident, external, pp. rewrite (Hent u Hu), (ss_states _ _ Hss). assert (okp st' u ↔ okp st u) as Eok by (unfold okp; by rewrite (ss_vpage _ _ Hss)).
    destruct (decide (u = b)) as [->|]; [destruct Hr as (_ & Hx & Hb'); cbn [unpinned_pte p_exist p_busy p_ppage_id]|]; split; done || tauto. }
  assert (∀ u, in_part i u → okp st (block_of u)) as Hokp.
  { intros u [Hu Epu]. destruct (page_place u Hu) as (_ & Hbu & _). unfold okp. by rewrite Evmax, <- Epu. }
  assert (sizes st' = sizes st) as Esz by (unfold sizes; by rewrite (ss_ppage _ _ Hss), (ss_vpage _ _ Hss)).
  assert (v ∈ private_written c ↔ p_dirty (ent st b) = false ∧ v ∈ sp_written (world c)) as Evw.
  { rewrite (written_page c v st held Hi Hv E Hs). fold b. rewrite Ek. naive_solver. }
  set (c' := after c (world c) i st'). assert (private_inv c') as Hi'.
  { apply (private_step_inv c _ st st' (drop_pin held b) _ Hi E Esz Hs'); [|apply Hi|done|done|..].
    - apply (clean_same st st' (pi_frames c Hi _ st E) (ss_states _ _ Hss)). intros u Hu. destruct (Hsame u) as (Er & _ & _); [apply Hu|]. split; [by apply Er|].
      unfold pp. rewrite (Hent u) by apply Hu. by case_decide as Eu; [subst u|].
    - intros u Hu. destruct (Hsame (block_of u)) as (Er & -> & _); [auto|]. rewrite (pi_pages c Hi u st) by (apply Hu || by rewrite (proj2 Hu)).
      destruct (decide (resident st _)), (decide (resident st' _)); tauto.
    - intros u Hu Huw. destruct (decide (block_of u = b)) as [Eb|Eb].
      + assert (u = v) as -> by (apply place_inj; [apply Hu|done|apply Hu|done]). fold b. rewrite (Hent b Hbok), decide_True by done.
        cbn [unpinned_pte p_dirty p_ref_count]. rewrite Ehk. destruct is_write; [by left|]. destruct (decide (1 < k)); [right; lia|]. left.
        destruct (p_dirty (ent st b)) eqn:Ed; [done|]. exfalso. destruct Hwr as [?|[Hn|?]]; [done| |done]. apply Hn, Evw. done.
      + destruct (Hsame (block_of u) (Hokp u Hu)) as (_ & _ & Ee). rewrite (Ee Eb). apply (pi_written c Hi u st); [apply Hu|by rewrite (proj2 Hu)|done]. }
  assert (page_step c st held (world c) st' (drop_pin held b) v) as Hps.
  { split; try done; [apply Hi|intros b' Hb'; by apply drop_other|]. intros b' k' Hb' Hk'. destruct (si_held _ _ _ _ Hsi b' k' Hk') as [_ [Hob _]].
    destruct (Hsame b' Hob) as (_ & -> & Ee). by rewrite (Ee Hb'). }
  destruct (step_view c st held (world c) st' (drop_pin held b) v Hi Hps Hi') as [Ev Eu]. fold i c' b in Ev, Eu.
  assert (drop_pin held b !! b = if k =? 1 then None else Some (k - 1)) as Edp.
  { unfold drop_pin. rewrite Ehk. destruct (k =? 1); [apply lookup_delete_eq|apply lookup_insert_eq]. }
  exists c'. split; [|split; [done|split; [done|split]]].
  - unfold PrivateCache.unpin. rewrite (proj2 (Z.ltb_lt _ _)) by lia. cbn [ensure mbind result_bind]. subst b i. unfold part_of, block_of in *. destruct (locate partitioner v) as [i b].
    cbn [fst snd] in *. rewrite (run_after c i st _ (world c) st' x' E Hrun). cbn [mbind result_bind]. by rewrite finish_end.
  - apply map_eq. intros u. destruct (decide (u = v)) as [->|Hu].
    + rewrite Ev, Edp. destruct (Hsame b Hbok) as (_ & -> & _). rewrite <- Ea. destruct (k =? 1); [by rewrite lookup_delete_eq|by rewrite lookup_insert_eq].
    + destruct (Eu u Hu) as [-> _]. destruct (k =? 1); [by rewrite lookup_delete_ne by congruence|by rewrite lookup_insert_ne by congruence].
  - apply set_eq. intros u. destruct (decide (u = v)) as [->|Hu].
    + rewrite (written_page c' v st' (drop_pin held b) Hi' Hv (after_part c _ i st' st E) Hs'). fold b. rewrite Edp, (Hent b Hbok), decide_True by done.
      cbn [unpinned_pte p_dirty world c' after]. destruct is_write; cbn [orb]; [rewrite elem_of_difference, elem_of_singleton; naive_solver|].
      destruct (k =? 1); [rewrite elem_of_difference, elem_of_singleton; naive_solver|]. rewrite Evw. naive_solver.
    + destruct (Eu u Hu) as [_ ->]. destruct (is_write || (k =? 1)); [rewrite elem_of_difference, elem_of_singleton; naive_solver|done].
Qed.

(** ** Stores, and a new thread *)
Definition with_world c w : private_cache W := mk_private w (num_local_ppages_per_partition c) (private_caches c).

Lemma private_store_inv c w' (X : gset Z) : private_inv c → sp_inv w' → sp_held w' = sp_held (world c) → sp_written w' ⊆ X ∪ sp_written (world c) →
  (∀ v, v ∈ X → private_held c !! v ≠ None) → let c' := with_world c w' in
  private_inv c' ∧ private_held c' = private_held c ∧ private_written c' ⊆ X ∪ private_written c.
Proof.
  intros Hi Hi' Hh Hw HX c'. assert (private_held c' = private_held c) as Eh.
  { apply map_eq. intros v. rewrite !private_held_lookup. cbn [world with_world c']. by rewrite Hh. }
  split; [|split; [done|]].
  - split; [done|apply Hi|apply Hi|apply (pi_part c Hi)|apply (pi_frames c Hi)|cbn [world with_world c']; rewrite Hh; apply (pi_pages c Hi)|].
    intros v st Hv E Hvw. change (private_caches c') with (private_caches c) in E. apply Hw, elem_of_union in Hvw as [HvX|Hvw]; [|by apply (pi_written c Hi)].
    right. apply HX in HvX. destruct (pi_part c Hi _ st E) as [_ [held Hs]]. rewrite (private_held_page c v st held Hi Hv E Hs) in HvX.
    destruct (held !! block_of v) as [k|] eqn:Ek; [|done]. destruct (si_held _ _ _ _ (se_inv _ _ Hs) _ k Ek) as [Hk Hr].
    destruct (si_resident _ _ _ _ (se_inv _ _ Hs) _ Hr) as (_ & _ & _ & _ & ->). unfold held_of. rewrite Ek. cbn. lia.
  - intros v. unfold private_written. rewrite elem_of_union, !elem_of_filter, Eh. intros [[Hn Hd] Hvw]. apply Hw, elem_of_union in Hvw as [?|?]; [by left|].
    right. done.
Qed.

Lemma fresh_part w i st : zget (private_caches (PrivateCache.create partitioner w local)) i = Some st →
  0 ≤ i < num_partitions partitioner ∧ st = init 0 (num_blocks partitioner i) local.
Proof.
  intros E. pose proof (zget_range _ _ _ E) as Hr. destruct (so_partitioner Hok) as [Hn _].
  cbn [private_caches PrivateCache.create] in E, Hr. unfold fresh_caches, zlen in *. rewrite length_fmap, length_seqZ in Hr. split; [lia|].
  rewrite <- (Z2Nat.id i), zget_nat, list_lookup_fmap, lookup_seqZ_lt in E by lia. injection E as <-. do 2 f_equal. lia.
Qed.

Lemma fresh_settled i : 0 ≤ i < num_partitions partitioner → settled (init 0 (num_blocks partitioner i) local) ∅.
Proof.
  intros Hir. apply init_settled; [apply (so_local Hok)|]. pose proof (blocks_small i). split; [|done]. unfold num_blocks, w64. by apply Z.mod_pos_bound.
Qed.

Lemma fresh_not_resident i b : ¬ resident (init 0 (num_blocks partitioner i) local : single_thread_cache) b.
Proof.
  apply init_not_resident; [apply (so_local Hok)|]. pose proof (blocks_small i). split; [|done]. unfold num_blocks, w64. by apply Z.mod_pos_bound.
Qed.

Lemma create_private_inv w : sp_inv w → sp_held w = ∅ → private_inv (PrivateCache.create partitioner w local) ∧
  private_held (PrivateCache.create partitioner w local) = ∅.
Proof.
  intros Hi Hh. set (c := PrivateCache.create partitioner w local). split.
  - split; [done| |done| | | |].
    + cbn [private_caches c PrivateCache.create]. unfold fresh_caches, zlen. rewrite length_fmap, length_seqZ. destruct (so_partitioner Hok) as [Hn _]. lia.
    + intros i st E. destruct (fresh_part w i st E) as [Hir ->]. split; [done|]. exists ∅. by apply fresh_settled.
    + intros i st E. destruct (fresh_part w i st E) as [_ ->]. apply init_clean.
    + intros v st Hv E. destruct (fresh_part w _ st E) as [_ ->]. cbn [world c PrivateCache.create]. rewrite Hh, lookup_empty, decide_False; [done|].
      apply fresh_not_resident.
    + intros v st _ _ Hvw. exfalso. cbn [world c PrivateCache.create] in Hvw. apply (sp_written_law w v Hi Hvw). by rewrite Hh.
  - apply map_eq. intros v. rewrite private_held_lookup. cbn [world c PrivateCache.create]. by rewrite Hh.
Qed.

(** Private caches that were never used have no pins of the shared one. *)
Lemma fresh_nothing_held w : private_inv (PrivateCache.create partitioner w local) → sp_held w = ∅.
Proof.
  intros Hi. apply map_eq. intros v. rewrite lookup_empty. destruct (sp_held w !! v) as [[a k]|] eqn:Ev; [|done].
  destruct (sp_held_law w v a k (pi_inv _ Hi) Ev) as (_ & Hv & _). destruct (page_place_part _ v Hi Hv) as (st & held & E & _).
  pose proof (pi_pages _ Hi v st Hv E) as Eh. cbn [world PrivateCache.create] in Eh. rewrite Ev in Eh.
  destruct (fresh_part w _ st E) as [_ ->]. rewrite decide_False in Eh; [done|]. apply fresh_not_resident.
Qed.

(** ** The interface *)
#[local] Instance private_frames : Frames (private_cache W) := {|
  sp_pin c v := PrivateCache.pin partitioner sp_pages fuel c v;
  sp_unpin c v is_write := PrivateCache.unpin partitioner sp_pages fuel c v is_write;
  sp_shared_pin c v := '(w, a) ← PrivateCache.shared_pin (world c) v; Ok (with_world c w, a);
  sp_shared_unpin c v is_write := w ← PrivateCache.shared_unpin (world c) v is_write; Ok (with_world c w);
  raw_load c := raw_load (world c);
  raw_store c x y := with_world c (raw_store (world c) x y) |}.

Lemma private_fits_le x y : private_fits x → (∀ v, y v ≤ x v) → private_fits y.
Proof using Type.
  intros [Hm Hc] Hle. split; [intros v; specialize (Hle v); specialize (Hm v); lia|]. intros vs i Hnd Hvs. apply (Hc vs i Hnd).
  intros v Hv. destruct (Hvs v Hv). split; [done|]. specialize (Hle v). lia.
Qed.

#[local] Program Instance private_pin_spec : PinSpec (private_cache W) := {|
  sp_inv := private_inv; sp_pages := sp_pages; sp_bytes c := sp_bytes (world c); sp_held := private_held; sp_written := private_written;
  sp_plain := sp_plain; sp_fits := private_fits |}.
Next Obligation. intros x y. apply private_fits_le. Qed.
Next Obligation. apply sp_size. Qed.
Next Obligation.
  intros c v a k Hi E. rewrite private_held_lookup in E. destruct (sp_held (world c) !! v) as [[a' k']|] eqn:E'; [|done]. cbn [mbind option_bind] in E.
  destruct (Z.ltb_spec 0 (p_ref_count (entry_of c v))); [|done]. injection E as <- <-. destruct (sp_held_law _ v a' k' (pi_inv c Hi) E') as (_ & ?). done.
Qed.
Next Obligation. intros c v Hi Hv. unfold private_written in Hv. apply elem_of_filter in Hv as [[? _] _]. done. Qed.
Next Obligation. intros c v Hi Hv Hfit. destruct (private_pin_ok c v Hi Hv Hfit) as (c' & a & E & Hd & _). by exists c', a. Qed.
Next Obligation.
  intros c v Hi Hv. cbn [sp_pin private_frames]. unfold PrivateCache.pin. rewrite (proj2 (Z.ltb_ge _ _)) by lia. by eexists.
Qed.
Next Obligation.
  intros c v a k is_write Hi E Hwr. destruct (private_unpin_ok c v a k is_write Hi E Hwr) as (c' & Eu & Hi' & Ew & Hh & Hw).
  exists c'. cbn [raw_load private_frames]. rewrite Ew. done.
Qed.
Next Obligation.
  intros c x y Hi Hx. destruct (sp_store_plain (world c) x y (pi_inv c Hi) Hx) as (Hi' & Hh & Hw & Hb & Hp). cbn [raw_store raw_load private_frames].
  destruct (private_store_inv c (raw_store (world c) x y) ∅ Hi Hi' Hh) as (Hi2 & Hh2 & Hw2); [by rewrite Hw; set_solver|set_solver|].
  split; [done|]. split; [done|]. split; [|done]. apply set_eq. intros v. unfold private_written. rewrite !elem_of_filter, Hh2.
  change (sp_written (world (with_world c (raw_store (world c) x y)))) with (sp_written (raw_store (world c) x y)). by rewrite Hw.
Qed.
Next Obligation.
  intros c v a k o y Hi E Ho. pose proof E as E'. rewrite private_held_lookup in E'. destruct (sp_held (world c) !! v) as [[a' k']|] eqn:Ev; [|done]. cbn [mbind option_bind] in E'.
  destruct (Z.ltb_spec 0 (p_ref_count (entry_of c v))); [|done]. injection E' as <- _.
  destruct (sp_store_frame (world c) v a' k' o y (pi_inv c Hi) Ev Ho) as (Hi' & Hh & Hw & Hb & Hp). cbn [raw_store raw_load private_frames].
  destruct (private_store_inv c (raw_store (world c) (a' + o) y) {[v]} Hi Hi' Hh Hw) as (Hi2 & Hh2 & Hw2); [|done].
  intros u ->%elem_of_singleton. by rewrite E.
Qed.

(** ** What the private caches do *)

(** C11: a pin of a page of the space returns when there is a frame for it: the
    page has one more pin and the others are as they were, the pointer is to the
    bytes of the page, and the shared cache has one pin of it; it is not called
    when the page has a frame already. *)
Theorem private_pin_refines c v : private_inv c → 0 ≤ v < sp_pages → private_fits (λ u, pin_count (private_held c) u + one v u) →
  ∃ c' a, PrivateCache.pin partitioner sp_pages fuel c v = Ok (c', a) ∧ private_inv c' ∧
    private_held c' = <[v := (a, pin_count (private_held c) v + 1)]> (private_held c) ∧ private_written c' = private_written c ∧
    (∀ o, 0 ≤ o < PAGE → raw_load (world c') (a + o) = sp_bytes (world c) (v * PAGE + o)) ∧ (∀ o, sp_bytes (world c') o = sp_bytes (world c) o) ∧
    sp_held (world c') !! v = Some (a, 1) ∧ (sp_held (world c) !! v ≠ None → world c' = world c).
Proof.
  intros Hi Hv Hfit. destruct (private_pin_ok c v Hi Hv Hfit) as (c' & a & E & (Hi' & Hh & _ & Hw & Hb & _) & Hhit). exists c', a.
  assert (sp_held (world c') !! v = Some (a, 1)) as E1.
  { destruct (page_place_part c' v Hi' Hv) as (st & held & Est & Hs & _). pose proof (private_held_page c' v st held Hi' Hv Est Hs) as Eh.
    rewrite Hh, lookup_insert_eq in Eh. destruct (held !! block_of v) as [k|] eqn:Ek; [|done]. injection Eh as -> _.
    rewrite (pi_pages c' Hi' v st Hv Est), decide_True; [done|]. apply (si_held _ _ _ _ (se_inv _ _ Hs) _ k Ek). }
  repeat (split; [done|]). split; [|done]. intros o Ho. rewrite <- Hb. by apply (sp_held_law (world c') v a 1 (pi_inv c' Hi') E1).
Qed.

(** C12: an unpin takes one pin of the page away and calls nothing; what was
    written through the pins stays known: the page is unpinned in the shared
    cache as written when it loses its frame. *)
Theorem private_unpin_refines c v a k (is_write : bool) : private_inv c → private_held c !! v = Some (a, k) →
  is_write = true ∨ v ∉ private_written c ∨ 1 < k → ∃ c', PrivateCache.unpin partitioner sp_pages fuel c v is_write = Ok c' ∧ private_inv c' ∧
  world c' = world c ∧ private_held c' = (if k =? 1 then delete v (private_held c) else <[v := (a, k - 1)]> (private_held c)) ∧
  private_written c' = (if is_write || (k =? 1) then private_written c ∖ {[v]} else private_written c).
Proof. apply private_unpin_ok. Qed.
End private.

(** ** Two partitions over a flat space *)
Section witnesses.
Import SpaceSpec.Flat.

Definition halves : RoundRobinPartitioner := Build_RoundRobinPartitioner 2 4.

Lemma halves_ok : shared_ok (W := flat) halves 4 1.
Proof. split; [by split|done|lia|done|lia]. Qed.

Definition fresh_private : private_cache flat := PrivateCache.create halves counting 4.

Lemma fresh_private_inv : private_inv halves 4 fresh_private ∧ private_held halves fresh_private = ∅.
Proof. apply (create_private_inv halves 4 Ok 1 halves_ok); [apply counting_inv|reflexivity]. Qed.

Lemma one_page_fits v : private_fits (W := flat) halves 4 (λ u, pin_count ∅ u + one v u).
Proof.
  split; [intros u; unfold pin_count, one, REF_MOD; rewrite lookup_empty; cbn; case_decide; lia|]. intros vs i Hnd Hvs.
  assert (vs ⊆ [v]) as Hsub.
  { intros u Hu. destruct (Hvs u Hu) as [_ Hp]. unfold pin_count, one in Hp. rewrite lookup_empty in Hp. cbn in Hp. case_decide; [subst; by left|done]. }
  apply (NoDup_submseteq _ _ Hnd), submseteq_length in Hsub. cbn in Hsub. unfold zlen. lia.
Qed.

Lemma private_pin_refines_witness : ∃ c' a, PrivateCache.pin (H := shared_of_space Ok) halves 4 1 fresh_private 3 = Ok (c', a) ∧
  private_inv halves 4 c' ∧ sp_held (shared_cache_state c') !! 3 = Some (a, 1).
Proof.
  destruct fresh_private_inv as [Hi Hh].
  destruct (private_pin_refines halves 4 Ok 1 halves_ok fresh_private 3 Hi) as (c' & a & E & Hi' & _ & _ & _ & _ & Hs & _); [by split|rewrite Hh; apply one_page_fits|].
  exists c', a. split; [exact E|]. split; [exact Hi'|exact Hs].
Defined.

(** Page 3 is pinned and written to. *)
Lemma private_unpin_refines_witness : ∃ c c' a, private_held halves c !! 3 = Some (a, 1) ∧
  PrivateCache.unpin (H := shared_of_space Ok) halves 4 1 c 3 true = Ok c' ∧ private_held halves c' = delete 3 (private_held halves c).
Proof.
  destruct fresh_private_inv as [Hi Hh].
  destruct (private_pin_ok halves 4 Ok 1 halves_ok fresh_private 3 Hi) as (c & a & _ & (Hi' & Hh' & _) & _); [by split|rewrite Hh; apply one_page_fits|].
  assert (private_held halves c !! 3 = Some (a, 1)) as E3 by (rewrite Hh', lookup_insert_eq, Hh; reflexivity).
  destruct (private_unpin_refines halves 4 Ok 1 halves_ok c 3 a 1 true Hi' E3) as (c' & E & _ & _ & Hd & _); [by left|].
  exists c, c', a. split; [exact E3|]. split; [exact E|exact Hd].
Defined.
End witnesses.
