(* ===== verification/DirectCacheSpec.v ===== *)
(** * The direct cache gives access

    On top of a cache that pins ([PinSpec] of [SpaceSpec.v]) the direct cache's
    [access] answers with a frame that may be used until the next call: a
    [SpaceSpec].  Its own pins, one per table entry, are hidden from the program,
    and what the program stored through an entry is reported when the entry is
    unpinned. *)
From S2P Require Import Prelude Util CachedPtr SpaceSpec DirectCache.
From stdpp Require Import gmap list.

Open Scope Z_scope.

Section direct.
Context {W : Type} `{PinSpec W}.
(** The number of entries of the table. *)
Context (N : Z).
Implicit Types (d : direct_cache) (w : W) (v : Z).

#[local] Instance pins_of_space : PinCache W := {| cache_pin := sp_pin; cache_unpin := sp_unpin |}.

(** ** The table *)
Definition slot d v : Z := Z.land v (num_pinned_mask d).
Definition entry d v : option (Z * Z) := zget (DirectCache.store d) (slot d v).
(** Page [v] is in the table, with its pointer. *)
Definition in_table d v p : Prop := zget (DirectCache.store d) (slot d v) = Some (v, p) ∧ v ≠ EMPTY.
Definition cached d v : bool := match entry d v with Some (v', _) => (v' =? v) && negb (v =? EMPTY) | None => false end.
Definition marked d v : bool := cached d v && default false (zget (dirty d) (slot d v)).

(** The pins the program itself has. *)
Definition own d (x : gmap Z (Z * Z)) : gmap Z (Z * Z) :=
  map_imap (λ v '(a, k), let k' := k - Z.b2z (cached d v) in if 0 <? k' then Some (a, k') else None) x.

Record table_ok d : Prop := {
  tb_size : ∃ m, 0 ≤ m ∧ num_pinned d = 2 ^ m;
  tb_mask : num_pinned_mask d = num_pinned d - 1;
  tb_store : zlen (DirectCache.store d) = num_pinned d;
  tb_dirty : zlen (dirty d) = num_pinned d;
  (** a page is in its own slot *)
  tb_slots i v p : zget (DirectCache.store d) i = Some (v, p) → v ≠ EMPTY → slot d v = i;
}.

(** A choice of pages, one per entry; pins for which there are frames whatever
    the entries hold. *)
Definition selection (T : Z → Z) : Prop :=
  (∀ v, T v = 0 ∨ T v = 1 ∧ 0 ≤ v < sp_pages) ∧ ∀ u v, T u = 1 → T v = 1 → Z.land u (N - 1) = Z.land v (N - 1) → u = v.
Definition direct_fits (x : Z → Z) : Prop := ∀ T, selection T → sp_fits (λ v, x v + T v).

Record direct_inv d w : Prop := {
  di_inv : sp_inv w;
  di_table : table_ok d;
  di_size : num_pinned d = N;
  di_room : direct_fits (pin_count (own d (sp_held w)));
  di_pinned v p : in_table d v p → ∃ k, sp_held w !! v = Some (p, k);
  di_written v : v ∈ sp_written w → own d (sp_held w) !! v = None → marked d v = true;
}.

Lemma table_slot_range d v : table_ok d → 0 ≤ v → 0 ≤ slot d v < num_pinned d.
Proof.
  intros Ht Hv. destruct (tb_size d Ht) as (m & Hm & E). unfold slot. rewrite (tb_mask d Ht), E.
  replace (2 ^ m - 1) with (Z.ones m) by (rewrite Z.ones_equiv; lia). rewrite Z.land_ones by lia. apply Z.mod_pos_bound. lia.
Qed.

Lemma cached_true d v : cached d v = true ↔ ∃ p, in_table d v p.
Proof.
  unfold cached, in_table, entry. destruct (zget _ _) as [[v' p]|].
  - rewrite andb_true_iff, negb_true_iff, Z.eqb_eq, Z.eqb_neq. naive_solver.
  - split; [done|]. by intros (p & [=] & _).
Qed.

Lemma own_lookup d x v : own d x !! v = x !! v ≫= λ '(a, k), if 0 <? k - Z.b2z (cached d v) then Some (a, k - Z.b2z (cached d v)) else None.
Proof. unfold own. rewrite map_lookup_imap. by destruct (x !! v) as [[a k]|]. Qed.

Lemma di_range d w v p : direct_inv d w → in_table d v p → 0 ≤ v < sp_pages.
Proof. intros Hd Hin. destruct (di_pinned d w Hd v p Hin) as [k E]. by destruct (sp_held_law w v p k (di_inv d w Hd) E) as (_ & ? & _). Qed.

Lemma page_not_EMPTY v : 0 ≤ v < sp_pages → v ≠ EMPTY.
Proof. destruct sp_size as [_ Hs]. pose proof CACHE_PAGE_SIZE_eq. unfold EMPTY, MAX64. lia. Qed.

(** The table with another entry in slot [i]. *)
Definition put d i (x : Z * Z) (b : bool) : direct_cache := with_entry d (zset (DirectCache.store d) i x) (zset (dirty d) i b).

Lemma put_again d i x b y c : put (put d i x b) i y c = put d i y c.
Proof. unfold put, with_entry. cbn. by rewrite !zset_zset. Qed.

Lemma slot_put d i x b v : slot (put d i x b) v = slot d v.
Proof. done. Qed.

Lemma entry_put_ne d i x b v : slot d v ≠ i → entry (put d i x b) v = entry d v ∧ zget (dirty (put d i x b)) (slot d v) = zget (dirty d) (slot d v).
Proof. intros Hne. unfold entry. rewrite slot_put. cbn [put with_entry DirectCache.store dirty]. by rewrite !zget_zset_ne by done. Qed.

Lemma entry_put_eq d i x b v : table_ok d → 0 ≤ i < num_pinned d → slot d v = i → entry (put d i x b) v = Some x.
Proof. intros Ht Hi <-. unfold entry. rewrite slot_put. cbn [put with_entry DirectCache.store]. apply zget_zset_eq. by rewrite (tb_store d Ht). Qed.

Lemma cached_put_ne d i x b v : slot d v ≠ i → cached (put d i x b) v = cached d v ∧ marked (put d i x b) v = marked d v.
Proof. intros Hne. unfold marked, cached. destruct (entry_put_ne d i x b v Hne) as [-> Eb]. rewrite slot_put, Eb. done. Qed.

Lemma put_table d i v p b : table_ok d → 0 ≤ i < num_pinned d → (v ≠ EMPTY → slot d v = i) → table_ok (put d i (v, p) b).
Proof.
  intros Ht Hi Hv. pose proof Ht as [? ? ? ? Hs]. split; try done; cbn [put with_entry num_pinned DirectCache.store dirty]; rewrite ?zlen_zset; try done.
  intros j v' p' E Hne. rewrite slot_put. rewrite zget_zset in E. case_decide as Hc; [|by eapply Hs]. injection E as <- <-. destruct Hc as [<- _]. by apply Hv.
Qed.

Lemma own_same d d' (x x' : gmap Z (Z * Z)) : (∀ v, own d x !! v = own d' x' !! v) → own d x = own d' x'.
Proof. apply map_eq. Qed.

(** *** The pins of the table *)
Lemma direct_fits_le x y : direct_fits x → (∀ v, y v ≤ x v) → direct_fits y.
Proof using Type. intros Hx Hle T HT. eapply sp_fits_le; [by apply Hx|]. intros v. cbn. specialize (Hle v). lia. Qed.

Lemma cached_selection d w : direct_inv d w → selection (λ v, Z.b2z (cached d v)).
Proof.
  intros Hd. split.
  - intros v. destruct (cached d v) eqn:E; [right|by left]. apply cached_true in E as [p Hin]. split; [done|by eapply di_range].
  - assert (∀ v, Z.b2z (cached d v) = 1 → ∃ p, in_table d v p) as Hc.
    { intros v. destruct (cached d v) eqn:E; [|done]. by intros _; apply cached_true. }
    intros u v [p [Hu _]]%Hc [q [Hv _]]%Hc Es. unfold slot in *. rewrite (tb_mask d (di_table d w Hd)), (di_size d w Hd) in *. congruence.
Qed.

Lemma own_pins d w v : direct_inv d w → pin_count (sp_held w) v = pin_count (own d (sp_held w)) v + Z.b2z (cached d v).
Proof.
  intros Hd. unfold pin_count. rewrite own_lookup. destruct (cached d v) eqn:Ec.
  - pose proof Ec as [p Hin]%cached_true. destruct (di_pinned d w Hd v p Hin) as [k Hk]. rewrite Hk.
    destruct (sp_held_law w v p k (di_inv d w Hd) Hk) as (? & _). cbn. destruct (Z.ltb_spec 0 (k - 1)); cbn; lia.
  - destruct (sp_held w !! v) as [[a k]|] eqn:Hk; [|done]. destruct (sp_held_law w v a k (di_inv d w Hd) Hk) as (? & _).
    cbn. rewrite Z.sub_0_r, (proj2 (Z.ltb_lt _ _)) by done. cbn. lia.
Qed.

(** An empty entry may take a page. *)
Lemma fill_fits d w v q : direct_inv d w → 0 ≤ v < sp_pages → zget (DirectCache.store d) (slot d v) = Some (EMPTY, q) →
  sp_fits (λ u, pin_count (sp_held w) u + one v u).
Proof.
  intros Hd Hv E. eapply sp_fits_le; [apply (di_room d w Hd (λ u, Z.b2z (cached d u) + one v u))|].
  2: { intros u. cbn. rewrite (own_pins d w u Hd). lia. }
  assert (∀ u, slot d u = slot d v → cached d u = false) as Hno.
  { intros u Es. unfold cached, entry. rewrite Es, E. apply andb_false_iff. rewrite negb_false_iff, Z.eqb_neq, Z.eqb_eq. lia. }
  destruct (cached_selection d w Hd) as [H01 Hinj]. unfold one. split.
  - intros u. case_decide as Hu; [subst u; rewrite Hno by done; by right|]. rewrite Z.add_0_r. apply H01.
  - assert (∀ u, Z.land u (N - 1) = slot d u) as Es by (intros u; unfold slot; by rewrite (tb_mask d (di_table d w Hd)), (di_size d w Hd)).
    intros u u' Hu Hu' Hs. rewrite !Es in Hs. repeat case_decide; subst; [done| | |rewrite !Z.add_0_r in *; apply Hinj; [done|done|by rewrite !Es]].
    + by rewrite (Hno u Hs) in Hu.
    + by rewrite (Hno u') in Hu'.
Qed.

(** An entry is given up. *)
Lemma clear_ok d w i : direct_inv d w → 0 ≤ i < num_pinned d → ∃ v p b w',
  zget (DirectCache.store d) i = Some (v, p) ∧ zget (dirty d) i = Some b ∧
  (if negb (v =? EMPTY) then cache_unpin w v b else Ok w) = Ok w' ∧
  direct_inv (put d i (EMPTY, 0) false) w' ∧ own (put d i (EMPTY, 0) false) (sp_held w') = own d (sp_held w) ∧ unchanged w w'.
Proof.
  intros Hd Hi. pose proof (di_table d w Hd) as Ht. destruct (zget_is_Some (DirectCache.store d) i) as [[v p] E]; [by rewrite (tb_store d Ht)|].
  destruct (zget_is_Some (dirty d) i) as [b Eb]; [by rewrite (tb_dirty d Ht)|]. set (d' := put d i (EMPTY, 0) false).
  assert (table_ok d') as Ht' by (apply put_table; done).
  assert (∀ v', slot d v' = i → cached d' v' = false) as Hno.
  { intros v' Hs. unfold cached, d'. rewrite entry_put_eq by done. apply andb_false_iff. rewrite negb_false_iff, Z.eqb_neq, Z.eqb_eq. lia. }
  assert (∀ v', v' ≠ v ∨ v = EMPTY → cached d' v' = cached d v' ∧ (cached d v' = true → marked d' v' = marked d v')) as Hsame.
  { intros v' Hne. destruct (decide (slot d v' = i)) as [Hs|Hs]; [|destruct (cached_put_ne d i (EMPTY, 0) false v' Hs); done].
    rewrite (Hno v' Hs). assert (cached d v' = false) as ->; [|done]. unfold cached, entry. rewrite Hs, E. apply andb_false_iff.
    rewrite negb_false_iff, Z.eqb_neq, Z.eqb_eq. destruct Hne as [Hne| ->]; [by left|]. destruct (decide (EMPTY = v')); [by right|by left]. }
  exists v, p, b. destruct (Z.eqb_spec v EMPTY) as [->|Hv]; cbn [negb].
  - exists w. split; [done|]. split; [done|]. split; [done|].
    assert (own d' (sp_held w) = own d (sp_held w)) as Eown.
    { apply own_same. intros v'. rewrite !own_lookup. by destruct (Hsame v') as [-> _]; [by right|]. }
    split; [|split; [done|by split]]. split; [apply Hd|done|apply Hd|by rewrite Eown; apply Hd| |].
    + intros v' p' Hin. assert (cached d' v' = true) as Hc by (apply cached_true; by exists p').
      destruct (Hsame v') as [Hcc _]; [by right|]. rewrite Hcc in Hc. apply (di_pinned d w Hd). destruct Hin as [Hin Hne]. split; [|done].
      destruct (decide (slot d v' = i)) as [Hs|Hs]; [rewrite (Hno v' Hs) in Hcc; congruence|].
      destruct (entry_put_ne d i (EMPTY, 0) false v' Hs) as [Ee _]. unfold entry in Ee. by rewrite <- Ee.
    + intros v' Hv' Ho. rewrite Eown in Ho. pose proof (di_written d w Hd v' Hv' Ho) as Hm. destruct (Hsame v') as [_ Hmm]; [by right|].
      rewrite Hmm; [done|]. unfold marked in Hm. by apply andb_true_iff in Hm as [? _].
  - assert (slot d v = i) as Hs by (by eapply (tb_slots d Ht)). assert (in_table d v p) as Hin by (split; [by rewrite Hs|done]).
    assert (cached d v = true) as Hc by (apply cached_true; by exists p). destruct (di_pinned d w Hd v p Hin) as [k Hk].
    destruct (sp_held_law w v p k (di_inv d w Hd) Hk) as (Hkpos & Hvr & _).
    assert (own d (sp_held w) !! v = if 0 <? k - 1 then Some (p, k - 1) else None) as Eo by (rewrite own_lookup, Hk, Hc; done).
    assert (marked d v = b) as Em by (unfold marked; rewrite Hc, Hs, Eb; done).
    destruct (sp_unpin_law w v p k b (di_inv d w Hd) Hk) as (w' & Eu & Hi' & Hh & Hw & Hb & Hpl).
    { destruct (decide (v ∈ sp_written w)) as [Hvw|]; [|by right; left]. destruct (Z.ltb_spec 0 (k - 1)); [right; right; lia|].
      left. rewrite <- Em. by apply (di_written d w Hd). }
    exists w'. split; [done|]. split; [done|]. split; [done|].
    assert (∀ v', v' ≠ v → sp_held w' !! v' = sp_held w !! v') as Hne.
    { intros v' Hne. rewrite Hh. destruct (k =? 1); [by rewrite lookup_delete_ne by congruence|by rewrite lookup_insert_ne by congruence]. }
    assert (own d' (sp_held w') = own d (sp_held w)) as Eown.
    { apply own_same. intros v'. destruct (decide (v' = v)) as [->|Hvv].
      - rewrite Eo, own_lookup, (Hno v Hs), Hh. destruct (Z.eqb_spec k 1) as [->|]; [by rewrite lookup_delete_eq|]. rewrite lookup_insert_eq. cbn [mbind option_bind Z.b2z].
        by rewrite Z.sub_0_r.
      - rewrite !own_lookup, Hne by done. by destruct (Hsame v') as [-> _]; [by left|]. }
    split; [|split; [done|by split]]. split; [done|done|apply Hd|by rewrite Eown; apply Hd| |].
    + intros v' p' Hin'. assert (cached d' v' = true) as Hc' by (apply cached_true; by exists p').
      destruct (decide (slot d v' = i)) as [Hs'|Hs']; [rewrite (Hno v' Hs') in Hc'; done|]. assert (v' ≠ v) by congruence. rewrite Hne by done.
      apply (di_pinned d w Hd). destruct Hin' as [Hin' ?]. split; [|done]. destruct (entry_put_ne d i (EMPTY, 0) false v' Hs') as [Ee _]. unfold entry in Ee. by rewrite <- Ee.
    + intros v' Hv' Ho. rewrite Eown in Ho. rewrite Hw in Hv'. destruct (decide (v' = v)) as [->|Hvv].
      * exfalso. rewrite Eo in Ho. destruct (Z.eqb_spec k 1) as [->|]; [rewrite orb_true_r in Hv'; set_solver|].
        destruct (Z.ltb_spec 0 (k - 1)); [done|lia].
      * assert (v' ∈ sp_written w) as Hv'' by (case_match; set_solver). pose proof (di_written d w Hd v' Hv'' Ho) as Hm.
        destruct (Hsame v') as [_ Hmm]; [by left|]. rewrite Hmm; [done|]. unfold marked in Hm. by apply andb_true_iff in Hm as [? _].
Qed.

(** A page is pinned into an empty entry. *)
Lemma fill_ok d w v q : direct_inv d w → 0 ≤ v < sp_pages → zget (DirectCache.store d) (slot d v) = Some (EMPTY, q) → ∃ w' p,
  cache_pin w v = Ok (w', p) ∧ direct_inv (put d (slot d v) (v, p) false) w' ∧
  own (put d (slot d v) (v, p) false) (sp_held w') = own d (sp_held w) ∧ unchanged w w'.
Proof.
  intros Hd Hv E. pose proof (di_table d w Hd) as Ht. pose proof (table_slot_range d v Ht ltac:(lia)) as Hi. set (i := slot d v) in *.
  destruct (sp_pin_law w v (di_inv d w Hd) Hv (fill_fits d w v q Hd Hv E)) as (w' & p & Ep & Hi' & Hh & Hsamef & Hw & Hb & Hpl). exists w', p. split; [done|].
  set (d' := put d i (v, p) false). pose proof (page_not_EMPTY v Hv) as HvE.
  assert (∀ v', slot d v' = i → cached d v' = false) as Hno.
  { intros v' Hs. unfold cached, entry. rewrite Hs, E. apply andb_false_iff. rewrite negb_false_iff, Z.eqb_neq, Z.eqb_eq. lia. }
  assert (cached d' v = true) as Hc'.
  { unfold cached, d'. rewrite entry_put_eq by done. apply andb_true_iff. rewrite negb_true_iff, Z.eqb_eq, Z.eqb_neq. done. }
  assert (∀ v', v' ≠ v → cached d' v' = cached d v') as Hsame.
  { intros v' Hne. destruct (decide (slot d v' = i)) as [Hs|Hs]; [|by destruct (cached_put_ne d i (v, p) false v' Hs)].
    rewrite (Hno v' Hs). unfold cached, d'. rewrite entry_put_eq by done. apply andb_false_iff. left. by apply Z.eqb_neq. }
  assert (own d' (sp_held w') = own d (sp_held w)) as Eown.
  { apply own_same. intros v'. destruct (decide (v' = v)) as [->|Hne].
    - rewrite !own_lookup, Hc', (Hno v eq_refl), Hh, lookup_insert_eq. cbn [mbind option_bind Z.b2z]. destruct (sp_held w !! v) as [[a k]|] eqn:Ek; cbn.
      + rewrite (Hsamef a k eq_refl). replace (k + 1 - 1) with (k - 0) by lia. done.
      + done.
    - rewrite !own_lookup, Hsame, Hh, lookup_insert_ne by congruence. done. }
  split; [|split; [done|by split]]. split; [done|by apply put_table|apply Hd|by rewrite Eown; apply Hd| |].
  - intros v' p' [Hin Hne]. destruct (decide (v' = v)) as [->|Hvv].
    + change (slot d' v) with i in Hin. cbn [d' put with_entry DirectCache.store] in Hin. rewrite zget_zset_eq in Hin by (by rewrite (tb_store d Ht)). injection Hin as <-.
      rewrite Hh, lookup_insert_eq. by eexists.
    + destruct (decide (slot d v' = i)) as [Hs|Hs].
      * change (slot d' v') with (slot d v') in Hin. rewrite Hs in Hin. cbn [d' put with_entry DirectCache.store] in Hin. rewrite zget_zset_eq in Hin by (by rewrite (tb_store d Ht)). congruence.
      * rewrite Hh, lookup_insert_ne by congruence. apply (di_pinned d w Hd). split; [|done].
        destruct (entry_put_ne d i (v, p) false v' Hs) as [Ee _]. unfold entry in Ee. by rewrite <- Ee.
  - intros v' Hv' Ho. rewrite Eown in Ho. rewrite Hw in Hv'. pose proof (di_written d w Hd v' Hv' Ho) as Hm.
    assert (cached d v' = true) as Hcv by (unfold marked in Hm; by apply andb_true_iff in Hm as [? _]).
    destruct (decide (slot d v' = i)) as [Hs|Hs]; [rewrite (Hno v' Hs) in Hcv; done|]. unfold d'. by destruct (cached_put_ne d i (v, p) false v' Hs) as [_ ->].
Qed.

(** The use of an entry is recorded. *)
Lemma mark_ok d w v p b (is_write : bool) : direct_inv d w → in_table d v p → zget (dirty d) (slot d v) = Some b →
  let d' := put d (slot d v) (v, p) (b || is_write) in
  direct_inv d' w ∧ own d' (sp_held w) = own d (sp_held w) ∧ in_table d' v p ∧ marked d' v = b || is_write.
Proof.
  intros Hd Hin Eb. pose proof (di_table d w Hd) as Ht. pose proof (di_range d w v p Hd Hin) as Hv. pose proof (table_slot_range d v Ht ltac:(lia)) as Hi.
  destruct Hin as [Hin HvE]. set (i := slot d v) in *. intros d'.
  assert (∀ v', entry d' v' = entry d v') as Ee.
  { intros v'. destruct (decide (slot d v' = i)) as [Hs|Hs]; [|by apply entry_put_ne]. unfold d'. rewrite entry_put_eq by done. unfold entry. by rewrite Hs, Hin. }
  assert (∀ v', cached d' v' = cached d v') as Ec by (intros v'; unfold cached; by rewrite Ee).
  assert (∀ v' p', in_table d' v' p' ↔ in_table d v' p') as Et.
  { intros v' p'. unfold in_table. pose proof (Ee v') as E. unfold entry in E. by rewrite E. }
  assert (own d' (sp_held w) = own d (sp_held w)) as Eo by (apply own_same; intros v'; by rewrite !own_lookup, Ec).
  assert (zget (dirty d') i = Some (b || is_write)) as Ed by (cbn [d' put with_entry dirty]; apply zget_zset_eq; by rewrite (tb_dirty d Ht)).
  split; [|split; [done|split; [by apply Et|]]].
  - split; [apply Hd|by apply put_table|apply Hd|by rewrite Eo; apply Hd|intros v' p' Hin'; apply (di_pinned d w Hd); by apply Et|].
    intros v' Hv' Ho. rewrite Eo in Ho. pose proof (di_written d w Hd v' Hv' Ho) as Hm. unfold marked in *. rewrite Ec.
    apply andb_true_iff in Hm as [Hc Hm]. rewrite Hc. destruct (decide (slot d v' = i)) as [Hs|Hs].
    + change (slot d' v') with (slot d v'). rewrite Hs in Hm |- *. rewrite Ed. rewrite Eb in Hm. cbn in Hm. by subst b.
    + unfold d'. rewrite slot_put. by destruct (entry_put_ne d i (v, p) (b || is_write) v' Hs) as [_ ->].
  - unfold marked. change (slot d' v) with i. rewrite Ed, Ec. assert (cached d v = true) as ->; [apply cached_true; by exists p|done].
Qed.

Lemma miss_ok d w v : direct_inv d w → 0 ≤ v < sp_pages → cached d v = false → ∃ w' p,
  miss d w (slot d v) v = (put d (slot d v) (v, p) false, w', Ok tt) ∧ direct_inv (put d (slot d v) (v, p) false) w' ∧
  own (put d (slot d v) (v, p) false) (sp_held w') = own d (sp_held w) ∧ unchanged w w'.
Proof.
  intros Hd Hv Hc. pose proof (di_table d w Hd) as Ht. pose proof (table_slot_range d v Ht ltac:(lia)) as Hi.
  destruct (clear_ok d w (slot d v) Hd Hi) as (v0 & p0 & b & w1 & E0 & Eb & Eu & Hd1 & Ho1 & Hu1 & Hu1').
  set (d1 := put d (slot d v) (EMPTY, 0) false) in *.
  destruct (fill_ok d1 w1 v 0 Hd1 Hv) as (w2 & p & Ep & Hd2 & Ho2 & Hu2 & Hu2').
  { change (slot d1 v) with (slot d v). cbn [d1 put with_entry DirectCache.store]. apply zget_zset_eq. by rewrite (tb_store d Ht). }
  change (slot d1 v) with (slot d v) in *. unfold d1 in Hd2, Ho2. rewrite put_again in Hd2, Ho2. exists w2, p.
  split; [|split; [done|split; [rewrite Ho2; exact Ho1|split; [intros o; by rewrite Hu2, Hu1|intros x Hx; by rewrite Hu2', Hu1']]]].
  unfold miss. assert (aread (DirectCache.store d) (slot d v) = Ok (v0, p0)) as -> by (by rewrite aread_Ok).
  assert (aread (dirty d) (slot d v) = Ok b) as -> by (by rewrite aread_Ok). cbn [mbind result_bind]. rewrite Eu.
  rewrite awrite_total by (by rewrite (tb_store d Ht)). rewrite Ep. cbn [with_entry DirectCache.store dirty].
  rewrite !awrite_total by (rewrite ?zlen_zset, ?(tb_store d Ht), ?(tb_dirty d Ht); done). cbn [mbind result_bind]. rewrite zset_zset. done.
Qed.

Lemma access_ok d w v (is_write : bool) : direct_inv d w → 0 ≤ v < sp_pages → ∃ d' w' p,
  DirectCache.access d w v is_write = (d', w', Ok p) ∧ direct_inv d' w' ∧ in_table d' v p ∧ (is_write = true → marked d' v = true) ∧
  own d' (sp_held w') = own d (sp_held w) ∧ unchanged w w' ∧ (cached d v = true → w' = w).
Proof.
  intros Hd Hv. pose proof (di_table d w Hd) as Ht. pose proof (table_slot_range d v Ht ltac:(lia)) as Hi. pose proof (page_not_EMPTY v Hv) as HvE.
  destruct (zget_is_Some (DirectCache.store d) (slot d v)) as [[v0 p0] E0]; [by rewrite (tb_store d Ht)|].
  assert (∃ d1 w1 p b, (if negb (v0 =? v) then miss d w (slot d v) v else (d, w, Ok tt)) = (d1, w1, Ok tt) ∧ direct_inv d1 w1 ∧ in_table d1 v p ∧
    slot d1 v = slot d v ∧ zget (dirty d1) (slot d v) = Some b ∧ own d1 (sp_held w1) = own d (sp_held w) ∧ unchanged w w1 ∧ (cached d v = true → w1 = w))
    as (d1 & w1 & p & b & E1 & Hd1 & Hin1 & Hs1 & Eb1 & Ho1 & Hu1 & Hw1).
  { destruct (Z.eqb_spec v0 v) as [->|Hne]; cbn [negb].
    - destruct (zget_is_Some (dirty d) (slot d v)) as [b Eb]; [by rewrite (tb_dirty d Ht)|]. by exists d, w, p0, b.
    - destruct (miss_ok d w v Hd Hv) as (w1 & p & -> & Hd1 & Ho1 & Hu1).
      { unfold cached, entry. rewrite E0. apply andb_false_iff. left. by apply Z.eqb_neq. }
      eexists _, w1, p, false. split; [done|]. split; [done|]. split.
      { split; [|done]. rewrite slot_put. cbn [put with_entry DirectCache.store]. apply zget_zset_eq. by rewrite (tb_store d Ht). }
      split; [done|]. split; [cbn [put with_entry dirty]; apply zget_zset_eq; by rewrite (tb_dirty d Ht)|]. split; [done|]. split; [done|].
      intros Hc. apply cached_true in Hc as (p' & Hc & _). congruence. }
  destruct (mark_ok d1 w1 v p b is_write Hd1 Hin1) as (Hd2 & Ho2 & Hin2 & Hm2); [by rewrite Hs1|].
  exists (put d1 (slot d1 v) (v, p) (b || is_write)), w1, p. split; [|split; [done|split; [done|split; [intros ->; by rewrite Hm2, orb_true_r|split; [by rewrite Ho2|done]]]]].
  unfold DirectCache.access. change (Z.land v (num_pinned_mask d)) with (slot d v). assert (aread (DirectCache.store d) (slot d v) = Ok (v0, p0)) as -> by (by rewrite aread_Ok).
  rewrite E1. cbn [mbind result_bind]. assert (aread (dirty d1) (slot d v) = Ok b) as -> by (by rewrite aread_Ok). cbn [mbind result_bind].
  pose proof (di_table d1 w1 Hd1) as Ht1. pose proof (table_slot_range d1 v Ht1 ltac:(lia)) as Hi1. rewrite Hs1 in Hi1.
  rewrite awrite_total by (by rewrite (tb_dirty d1 Ht1)). cbn [mbind result_bind]. destruct Hin1 as [Hin1 _]. rewrite Hs1 in Hin1.
  assert (aread (DirectCache.store d1) (slot d v) = Ok (v, p)) as -> by (by rewrite aread_Ok). cbn [mbind result_bind].
  do 3 f_equal. unfold put. by rewrite Hs1, (zset_id _ _ _ Hin1).
Qed.

(** ** Flushing *)
Lemma flush_from_ok n d w i : direct_inv d w → 0 ≤ i → i + Z.of_nat n = num_pinned d →
  (∀ j x, j < i → zget (DirectCache.store d) j = Some x → x.1 = EMPTY) → ∃ d' w',
  flush_from d w i n = Ok (d', w') ∧ direct_inv d' w' ∧ own d' (sp_held w') = own d (sp_held w) ∧ unchanged w w' ∧
  ∀ j x, zget (DirectCache.store d') j = Some x → x.1 = EMPTY.
Proof.
  revert d w i. induction n as [|n IH]; intros d w i Hd Hi Hn Hempty.
  - exists d, w. split; [done|]. split; [done|]. split; [done|]. split; [done|]. intros j x E. apply (Hempty j x); [|done].
    apply zget_range in E. rewrite (tb_store d (di_table d w Hd)) in E. lia.
  - destruct (clear_ok d w i Hd) as (v & p & b & w1 & E & Eb & Eu & Hd1 & Ho1 & Hu1 & Hu1'); [lia|]. pose proof (di_table d w Hd) as Ht.
    destruct (IH (put d i (EMPTY, 0) false) w1 (i + 1) Hd1) as (d2 & w2 & E2 & Hd2 & Ho2 & [Hu2 Hu2'] & He2); [lia|cbn; lia|..].
    { intros j x Hj Ex. cbn [put with_entry DirectCache.store] in Ex. rewrite zget_zset in Ex. case_decide as Hc; [by injection Ex as <-|].
      apply (Hempty j x); [|done]. destruct (decide (i = j)) as [->|]; [|lia]. apply zget_range in Ex. exfalso. apply Hc. split; [done|lia]. }
    exists d2, w2. split; [|split; [done|split; [by rewrite Ho2, Ho1|split; [split; [intros o; by rewrite Hu2, Hu1|intros x Hx; by rewrite Hu2', Hu1']|done]]]].
    cbn [flush_from]. unfold flush_entry. assert (aread (DirectCache.store d) i = Ok (v, p)) as -> by (by rewrite aread_Ok).
    assert (aread (dirty d) i = Ok b) as -> by (by rewrite aread_Ok). cbn [mbind result_bind]. rewrite Eu. cbn [mbind result_bind].
    rewrite !awrite_total by (rewrite ?(tb_store d Ht), ?(tb_dirty d Ht); lia). cbn [mbind result_bind]. exact E2.
Qed.

Lemma own_none d x : (∀ v, cached d v = false) → (∀ v a k, x !! v = Some (a, k) → 0 < k) → own d x = x.
Proof.
  intros Hc Hk. apply map_eq. intros v. rewrite own_lookup, Hc. destruct (x !! v) as [[a k]|] eqn:E; [|done]. cbn [mbind option_bind Z.b2z].
  rewrite Z.sub_0_r, (proj2 (Z.ltb_lt _ _)); [done|]. by eapply Hk.
Qed.

Lemma flush_ok d w : direct_inv d w → ∃ d' w', DirectCache.flush d w = Ok (d', w') ∧ direct_inv d' w' ∧ sp_held w' = own d (sp_held w) ∧ unchanged w w'.
Proof.
  intros Hd. pose proof (di_table d w Hd) as Ht. destruct (tb_size d Ht) as (m & Hm & En). assert (0 < num_pinned d) by (rewrite En; lia).
  destruct (flush_from_ok (Z.to_nat (num_pinned d)) d w 0 Hd) as (d' & w' & E & Hd' & Ho & Hu & He); [lia|lia| |].
  { intros j x Hj Ex. apply zget_range in Ex. lia. }
  exists d', w'. split; [done|]. split; [done|]. split; [|done]. rewrite <- Ho. symmetry. apply own_none.
  - intros v. unfold cached, entry. destruct (zget _ _) as [[v' p]|] eqn:E'; [|done]. apply He in E'. cbn in E'. subst v'. apply andb_false_iff.
    rewrite negb_false_iff, Z.eqb_neq, Z.eqb_eq. destruct (decide (EMPTY = v)); [by right|by left].
  - intros v a k Ek. by destruct (sp_held_law w' v a k (di_inv d' w' Hd') Ek).
Qed.

(** ** The construction *)
Lemma table_size_pow pages : 1 ≤ pages ≤ 2 ^ 63 → ∃ m, 0 ≤ m ∧ table_size pages = 2 ^ m.
Proof.
  intros Hp. unfold table_size, MAX_FIBERS_PER_THREAD. rewrite Z.div_1_r, nextPowerOf2_spec by done. pose proof (Z.log2_up_nonneg pages).
  assert (MAX_NUM_PINNED = 2 ^ 30) as -> by reflexivity. destruct (Z_lt_ge_dec (Z.log2_up pages) 2) as [Hs|Hs].
  - exists 0. split; [lia|]. assert (2 ^ Z.log2_up pages < 2 ^ 2) by (apply Z.pow_lt_mono_r; lia).
    rewrite (Z.div_small (2 ^ Z.log2_up pages) 4); [reflexivity|]. split; [apply Z.pow_nonneg; lia|lia].
  - assert (2 ^ Z.log2_up pages / 4 = 2 ^ (Z.log2_up pages - 2)) as -> by (rewrite Z.pow_sub_r by lia; reflexivity).
    rewrite Z.max_l by (pose proof (Z.pow_pos_nonneg 2 (Z.log2_up pages - 2)); lia).
    exists (Z.min 30 (Z.log2_up pages - 2)). split; [lia|].
    destruct (Z.min_spec 30 (Z.log2_up pages - 2)) as [[? ->]|[? ->]]; [apply Z.min_l|apply Z.min_r]; apply Z.pow_le_mono_r; lia.
Qed.

Definition fresh_direct_of (n : Z) : direct_cache :=
  mk_direct n (n - 1) (replicate (Z.to_nat n) (EMPTY, 0)) (replicate (Z.to_nat n) false).

Lemma fresh_entries n i v p : zget (DirectCache.store (fresh_direct_of n)) i = Some (v, p) → v = EMPTY.
Proof. intros E. assert ((v, p) = (EMPTY, 0)) as E' by (by apply zget_replicate_inv in E). exact (f_equal fst E'). Qed.

Lemma fresh_uncached n v : cached (fresh_direct_of n) v = false.
Proof.
  unfold cached, entry. destruct (zget _ _) as [[v' p]|] eqn:E; [|reflexivity]. apply fresh_entries in E as ->. apply andb_false_iff.
  rewrite negb_false_iff, Z.eqb_neq, Z.eqb_eq. destruct (decide (EMPTY = v)); [by right|by left].
Qed.

Lemma fresh_table n m : 0 ≤ m → n = 2 ^ m → table_ok (fresh_direct_of n).
Proof.
  intros Hm En. assert (0 ≤ n) by (subst n; by apply Z.pow_nonneg). split; [by exists m|reflexivity| | |].
  - cbn [fresh_direct_of DirectCache.store num_pinned]. by rewrite zlen_replicate, Z2Nat.id.
  - cbn [fresh_direct_of dirty num_pinned]. by rewrite zlen_replicate, Z2Nat.id.
  - intros i v p E Hne. by apply fresh_entries in E.
Qed.

Lemma create_uncached pages v : cached (create pages) v = false.
Proof. apply (fresh_uncached (table_size pages)). Qed.

Lemma create_own pages w : sp_inv w → own (create pages) (sp_held w) = sp_held w.
Proof. intros Hi. apply own_none; [apply create_uncached|]. intros v a k E. by destruct (sp_held_law w v a k Hi E). Qed.

Lemma create_table pages : 1 ≤ pages ≤ 2 ^ 63 → table_ok (create pages).
Proof. intros Hp. destruct (table_size_pow pages Hp) as (m & Hm & En). apply (fresh_table (table_size pages) m Hm En). Qed.

Lemma create_direct_inv pages w : 1 ≤ pages ≤ 2 ^ 63 → table_size pages = N → sp_inv w → direct_fits (pin_count (sp_held w)) →
  direct_inv (create pages) w.
Proof.
  intros Hp HN Hi Hfit. pose proof (create_own pages w Hi) as Eown. split; [exact Hi|by apply create_table|exact HN|by rewrite Eown| |].
  - intros v p Hin. assert (cached (create pages) v = true) as Ec by (apply cached_true; by exists p). by rewrite create_uncached in Ec.
  - intros v Hv Ho. exfalso. apply (sp_written_law w v Hi Hv). by rewrite Eown in Ho.
Qed.

(** ** The space the program sees *)
Definition world_of : Type := direct_cache * W.
#[export] Instance direct_frames : Frames world_of := {|
  sp_pin '(d, w) v := '(w, p) ← sp_pin w v; Ok (d, w, p);
  sp_unpin '(d, w) v is_write := w ← sp_unpin w v is_write; Ok (d, w);
  sp_shared_pin '(d, w) v := '(w, p) ← sp_shared_pin w v; Ok (d, w, p);
  sp_shared_unpin '(d, w) v is_write := w ← sp_shared_unpin w v is_write; Ok (d, w);
  raw_load '(d, w) := raw_load w;
  raw_store '(d, w) x y := (d, raw_store w x y) |}.
#[export] Instance direct_space : Space world_of := {|
  sp_frames := direct_frames;
  sp_access '(d, w) v is_write := let '(d, w, r) := DirectCache.access d w v is_write in p ← r; Ok (d, w, p);
  sp_flush '(d, w) := DirectCache.flush d w |}.
Definition seen_held (s : world_of) : gmap Z (Z * Z) := own s.1 (sp_held s.2).
(** The pages stored to through the program's own pins only. *)
Definition seen_written (s : world_of) : gset Z := filter (λ v, seen_held s !! v ≠ None ∧ marked s.1 v = false) (sp_written s.2).

Lemma seen_held_Some d w v a k : seen_held (d, w) !! v = Some (a, k) ↔ sp_held w !! v = Some (a, k + Z.b2z (cached d v)) ∧ 0 < k.
Proof.
  unfold seen_held. cbn [fst snd]. rewrite own_lookup. destruct (sp_held w !! v) as [[a' k']|]; cbn [mbind option_bind]; [|split; [done|by intros [[=] _]]].
  destruct (Z.ltb_spec 0 (k' - Z.b2z (cached d v))); split.
  - intros [= <- <-]. split; [do 2 f_equal; lia|done].
  - intros [[= -> ->] ?]. do 2 f_equal. lia.
  - done.
  - intros [[= -> ->] ?]. lia.
Qed.

(** The table is left alone, and so are the pins but those of page [v]. *)
Lemma direct_inv_pins d w w' v : direct_inv d w → sp_inv w' → (∀ v', v' ≠ v → sp_held w' !! v' = sp_held w !! v') →
  (∀ p, in_table d v p → ∃ k, sp_held w' !! v = Some (p, k)) → sp_written w' ⊆ sp_written w →
  (v ∈ sp_written w' → own d (sp_held w') !! v = None → own d (sp_held w) !! v = None) →
  direct_fits (pin_count (own d (sp_held w'))) → direct_inv d w'.
Proof.
  intros Hd Hi Hne Hv Hw Hwv Hfit. split; [done|apply Hd|apply Hd|done| |].
  - intros v' p Hin. destruct (decide (v' = v)) as [->|]; [by apply Hv|]. rewrite Hne by done. by apply (di_pinned d w Hd).
  - intros v' Hv' Ho. apply (di_written d w Hd); [by apply Hw|]. destruct (decide (v' = v)) as [->|]; [by apply Hwv|].
    rewrite own_lookup in Ho |- *. by rewrite Hne in Ho by done.
Qed.

Lemma direct_inv_store d w w' (X : gset Z) : direct_inv d w → sp_inv w' → sp_held w' = sp_held w → sp_written w' ⊆ X ∪ sp_written w →
  (∀ v, v ∈ X → own d (sp_held w) !! v = None → marked d v = true) → direct_inv d w'.
Proof.
  intros Hd Hi Hh Hw HX. split; [done|apply Hd|apply Hd|rewrite Hh; apply Hd|rewrite Hh; apply Hd|]. rewrite Hh. intros v Hv Ho. apply Hw, elem_of_union in Hv as [Hv|Hv]; [by apply HX|].
  by apply (di_written d w Hd).
Qed.

Definition seen_inv (s : world_of) : Prop := direct_inv s.1 s.2.

Lemma seen_written_in d w v : v ∈ seen_written (d, w) ↔ seen_held (d, w) !! v ≠ None ∧ marked d v = false ∧ v ∈ sp_written w.
Proof. unfold seen_written. rewrite elem_of_filter. naive_solver. Qed.

Lemma seen_pin d w v : direct_inv d w → 0 ≤ v < sp_pages → direct_fits (λ u, pin_count (seen_held (d, w)) u + one v u) → ∃ w' a, sp_pin w v = Ok (w', a) ∧ direct_inv d w' ∧
  seen_held (d, w') = <[v := (a, default 0 (snd <$> seen_held (d, w) !! v) + 1)]> (seen_held (d, w)) ∧
  (∀ a' k, seen_held (d, w) !! v = Some (a', k) → a' = a) ∧ seen_written (d, w') = seen_written (d, w) ∧ unchanged w w'.
Proof.
  intros Hd Hv Hfit. destruct (sp_pin_law w v (di_inv d w Hd) Hv) as (w' & a & E & Hi' & Hh & Hf & Hw & Hb & Hp).
  { eapply sp_fits_le; [apply (Hfit _ (cached_selection d w Hd))|]. intros u. cbn. rewrite (own_pins d w u Hd). unfold seen_held. cbn. lia. }
  exists w', a. split; [done|].
  assert (∀ v', v' ≠ v → sp_held w' !! v' = sp_held w !! v') as Hne by (intros v' Hne; by rewrite Hh, lookup_insert_ne by congruence).
  assert (∀ p, in_table d v p → ∃ k, sp_held w' !! v = Some (p, k)) as Hin.
  { intros p Hin. destruct (di_pinned d w Hd v p Hin) as [k Ek]. rewrite (Hf p k Ek), Hh, lookup_insert_eq. by eexists. }
  assert (∀ a' k, sp_held w !! v = Some (a', k) → 0 < k) as Hk by (intros a' k Ek; by destruct (sp_held_law w v a' k (di_inv d w Hd) Ek)).
  assert (seen_held (d, w') = <[v := (a, default 0 (snd <$> seen_held (d, w) !! v) + 1)]> (seen_held (d, w))) as Es.
  { apply map_eq. intros v'. unfold seen_held. cbn [fst snd]. destruct (decide (v' = v)) as [->|Hvv].
    - rewrite lookup_insert_eq, !own_lookup, Hh, lookup_insert_eq. cbn [mbind option_bind]. destruct (sp_held w !! v) as [[a' k]|] eqn:Ek; cbn.
      + specialize (Hk a' k eq_refl). destruct (cached d v); cbn [Z.b2z]; rewrite (proj2 (Z.ltb_lt _ _)) by lia; destruct (Z.ltb_spec 0 (k - 1)); cbn;
          rewrite ?Z.sub_0_r, ?(proj2 (Z.ltb_lt _ _)) by lia; cbn; do 2 f_equal; lia.
      + destruct (cached d v) eqn:Ec; [|done]. exfalso. apply cached_true in Ec as [p Hp']. destruct (di_pinned d w Hd v p Hp') as [k Ek']. congruence.
    - by rewrite lookup_insert_ne, !own_lookup, Hne by congruence. }
  split; [|split; [done|split; [|split; [|by split]]]].
  - apply (direct_inv_pins d w w' v Hd Hi' Hne Hin); [by rewrite Hw| |].
    + intros _ Ho. exfalso. change (own d (sp_held w')) with (seen_held (d, w')) in Ho. by rewrite Es, lookup_insert_eq in Ho.
    + apply (direct_fits_le _ _ Hfit). intros u. change (own d (sp_held w')) with (seen_held (d, w')). rewrite Es. unfold pin_count, one.
      destruct (decide (u = v)) as [->|]; [by rewrite lookup_insert_eq|rewrite lookup_insert_ne by congruence; lia].
  - intros a' k [E' _]%seen_held_Some. by eapply Hf.
  - apply set_eq. intros v'. rewrite !seen_written_in, Hw, Es. destruct (decide (v' = v)) as [->|Hvv]; [|by rewrite lookup_insert_ne by congruence].
    rewrite lookup_insert_eq. split; [|naive_solver]. intros (_ & Hm & Hvw). split; [|done]. intros Ho.
    pose proof (di_written d w Hd v Hvw Ho). congruence.
Qed.

Lemma seen_unpin d w v a k (is_write : bool) : direct_inv d w → seen_held (d, w) !! v = Some (a, k) →
  is_write = true ∨ v ∉ seen_written (d, w) ∨ 1 < k → ∃ w', sp_unpin w v is_write = Ok w' ∧ direct_inv d w' ∧
  seen_held (d, w') = (if k =? 1 then delete v (seen_held (d, w)) else <[v := (a, k - 1)]> (seen_held (d, w))) ∧
  seen_written (d, w') = (if is_write || (k =? 1) then seen_written (d, w) ∖ {[v]} else seen_written (d, w)) ∧ unchanged w w'.
Proof.
  intros Hd Hs Hwr. pose proof Hs as [Hk Hkpos]%seen_held_Some. set (c := Z.b2z (cached d v)) in *.
  assert (0 ≤ c ≤ 1) as Hc by (unfold c; destruct (cached d v); cbn; lia).
  assert (marked d v = true → c = 1) as Hmc by (intros Hm; unfold c; apply andb_true_iff in Hm as [-> _]; done).
  destruct (sp_unpin_law w v a (k + c) is_write (di_inv d w Hd) Hk) as (w' & E & Hi' & Hh & Hw & Hb & Hp).
  { destruct is_write; [by left|right]. destruct (decide (v ∈ sp_written w)) as [Hvw|]; [right|by left].
    destruct Hwr as [?|[Hnw|?]]; [done| |lia]. destruct (marked d v) eqn:Hm; [rewrite (Hmc eq_refl); lia|].
    exfalso. apply Hnw, seen_written_in. rewrite Hs. done. }
  exists w'. split; [done|]. assert (∀ v', v' ≠ v → sp_held w' !! v' = sp_held w !! v') as Hne.
  { intros v' Hne. rewrite Hh. destruct (_ =? _); [by rewrite lookup_delete_ne by congruence|by rewrite lookup_insert_ne by congruence]. }
  assert (seen_held (d, w') = (if k =? 1 then delete v (seen_held (d, w)) else <[v := (a, k - 1)]> (seen_held (d, w)))) as Es.
  { apply map_eq. intros v'. destruct (decide (v' = v)) as [->|Hvv].
    - unfold seen_held at 1. cbn [fst snd]. rewrite own_lookup, Hh. fold c. destruct (Z.eqb_spec (k + c) 1), (Z.eqb_spec k 1);
        rewrite ?lookup_delete_eq, ?lookup_insert_eq; cbn [mbind option_bind]; try done; try lia;
        [rewrite (proj2 (Z.ltb_ge _ _)) by lia; done|rewrite (proj2 (Z.ltb_lt _ _)) by lia; do 2 f_equal; lia].
    - transitivity (seen_held (d, w) !! v'); [unfold seen_held; cbn [fst snd]; by rewrite !own_lookup, Hne|].
      destruct (k =? 1); [by rewrite lookup_delete_ne by congruence|by rewrite lookup_insert_ne by congruence]. }
  assert (sp_written w' ⊆ sp_written w) as Hsub by (rewrite Hw; destruct (_ || _); [apply subseteq_difference_l|]; done).
  split; [|split; [done|split; [|by split]]].
  - split; [done|apply Hd|apply Hd| | |].
    + apply (direct_fits_le _ _ (di_room d w Hd)). intros u. change (own d (sp_held w')) with (seen_held (d, w')).
      change (own d (sp_held w)) with (seen_held (d, w)). rewrite Es. unfold pin_count. destruct (decide (u = v)) as [->|].
      * rewrite Hs. destruct (k =? 1); [rewrite lookup_delete_eq|rewrite lookup_insert_eq]; cbn; lia.
      * by destruct (k =? 1); [rewrite lookup_delete_ne by congruence|rewrite lookup_insert_ne by congruence].
    + intros v' p Hin. destruct (decide (v' = v)) as [->|Hvv]; [|rewrite Hne by done; by apply (di_pinned d w Hd)].
      destruct (di_pinned d w Hd v p Hin) as [k' Ek']. rewrite Hk in Ek'. injection Ek' as -> _.
      assert (c = 1) as -> by (unfold c; by rewrite (proj2 (cached_true d v) (ex_intro _ p Hin))).
      rewrite Hh, (proj2 (Z.eqb_neq _ _)), lookup_insert_eq by lia. by eexists.
    + intros v' Hv' Ho. destruct (decide (v' = v)) as [->|Hvv].
      * assert (k = 1) as ->. { change (own d (sp_held w')) with (seen_held (d, w')) in Ho. rewrite Es in Ho. destruct (Z.eqb_spec k 1); [done|]. by rewrite lookup_insert_eq in Ho. }
        destruct is_write; [rewrite Hw in Hv'; cbn in Hv'; by apply elem_of_difference in Hv' as [_ []%not_elem_of_singleton]|]. destruct (marked d v) eqn:Hm; [done|]. exfalso.
        destruct Hwr as [?|[Hnw|?]]; [done| |lia]. apply Hnw, seen_written_in. rewrite Hs. split; [done|]. split; [done|by apply Hsub].
      * apply (di_written d w Hd); [by apply Hsub|]. rewrite own_lookup in Ho |- *. by rewrite Hne in Ho.
  - apply set_eq. intros v'. destruct (decide (v' = v)) as [->|Hvv].
    + rewrite seen_written_in, Es. destruct (Z.eqb_spec k 1) as [->|Hk1].
      * rewrite orb_true_r, lookup_delete_eq, elem_of_difference, elem_of_singleton. naive_solver.
      * rewrite orb_false_r, lookup_insert_eq, Hw, (proj2 (Z.eqb_neq (k + c) 1)), orb_false_r by lia.
        destruct is_write; [rewrite !elem_of_difference, elem_of_singleton; naive_solver|]. rewrite seen_written_in, Hs. naive_solver.
    + assert (v' ∈ sp_written w' ↔ v' ∈ sp_written w) as Hww by (rewrite Hw; destruct (_ || _); [rewrite elem_of_difference, elem_of_singleton|]; naive_solver).
      assert (seen_held (d, w') !! v' = seen_held (d, w) !! v') as Hhh by (unfold seen_held; cbn [fst snd]; by rewrite !own_lookup, Hne).
      transitivity (v' ∈ seen_written (d, w)); [by rewrite !seen_written_in, Hhh, Hww|].
      destruct (is_write || (k =? 1)); [rewrite elem_of_difference, elem_of_singleton; naive_solver|done].
Qed.

(** A store into a frame the program or the table has pinned. *)
Lemma seen_store d w v p k o y : direct_inv d w → sp_held w !! v = Some (p, k) → (seen_held (d, w) !! v ≠ None ∨ marked d v = true) → 0 ≤ o < PAGE →
  let w' := raw_store w (p + o) y in
  direct_inv d w' ∧ seen_held (d, w') = seen_held (d, w) ∧ seen_written (d, w') ⊆ {[v]} ∪ seen_written (d, w) ∧
  (∀ o', sp_bytes w' o' = if decide (o' = v * PAGE + o) then y else sp_bytes w o') ∧ (∀ z, sp_plain z → raw_load w' z = raw_load w z).
Proof.
  intros Hd Hk Hmay Ho w'. destruct (sp_store_frame w v p k o y (di_inv d w Hd) Hk Ho) as (Hi' & Hh & Hw & Hb & Hp). fold w' in Hi', Hh, Hw, Hb, Hp.
  assert (seen_held (d, w') = seen_held (d, w)) as Es by (unfold seen_held; cbn [fst snd]; by rewrite Hh).
  split; [|split; [done|split; [|done]]].
  - apply (direct_inv_store d w w' {[v]} Hd Hi' Hh Hw). intros v' ->%elem_of_singleton Hno. by destruct Hmay as [Hmay|].
  - intros v' (Hh' & Hm & Hv')%seen_written_in. apply Hw, elem_of_union in Hv' as [Hv'|Hv']; [set_solver|]. apply elem_of_union_r, seen_written_in. by rewrite <- Es.
Qed.

#[export] Program Instance direct_pin_spec : PinSpec world_of := {|
  sp_inv := seen_inv; sp_pages := sp_pages; sp_bytes s := sp_bytes s.2; sp_held := seen_held; sp_written := seen_written; sp_plain := sp_plain;
  sp_fits := direct_fits |}.
Next Obligation. intros x y. apply direct_fits_le. Qed.
Next Obligation. apply sp_size. Qed.
Next Obligation.
  intros [d w] v a k Hd Hs. apply seen_held_Some in Hs as [Hk Hpos]. destruct (sp_held_law w v a _ (di_inv d w Hd) Hk) as (_ & ? & ? & ? & ?). done.
Qed.
Next Obligation. intros [d w] v Hd Hv. by apply seen_written_in in Hv as [? _]. Qed.
Next Obligation.
  intros [d w] v Hd Hv Hfit. destruct (seen_pin d w v Hd Hv Hfit) as (w' & a & E & Hd' & Hh & Hf & Hw & Hb & Hp). exists (d, w'), a.
  split; [|done]. cbn [sp_pin direct_frames]. by rewrite E.
Qed.
Next Obligation.
  intros [d w] v Hd Hv. destruct (sp_pin_out w v (di_inv d w Hd) Hv) as [msg E]. exists msg. cbn [sp_pin direct_frames]. by rewrite E.
Qed.
Next Obligation.
  intros [d w] v a k is_write Hd Hs Hwr. destruct (seen_unpin d w v a k is_write Hd Hs Hwr) as (w' & E & Hd' & Hh & Hw & Hb & Hp). exists (d, w').
  split; [|done]. cbn [sp_unpin direct_frames]. by rewrite E.
Qed.
Next Obligation.
  intros [d w] x y Hd Hx. destruct (sp_store_plain w x y (di_inv d w Hd) Hx) as (Hi' & Hh & Hw & Hb & Hp). cbn [raw_store direct_frames].
  assert (seen_held (d, raw_store w x y) = seen_held (d, w)) as Es by (unfold seen_held; cbn [fst snd]; by rewrite Hh).
  split; [apply (direct_inv_store d w _ ∅ Hd Hi' Hh); [by rewrite Hw; set_solver|set_solver]|]. split; [done|]. split; [|done].
  apply set_eq. intros v. by rewrite !seen_written_in, Es, Hw.
Qed.
Next Obligation.
  intros [d w] v a k o y Hd Hs Ho. pose proof Hs as [Hk _]%seen_held_Some. apply (seen_store d w v a _ o y Hd Hk); [left|done]. by rewrite Hs.
Qed.

#[export] Program Instance direct_spec : SpaceSpec world_of := {| sp_pin_spec := direct_pin_spec |}.
Next Obligation.
  intros [d w] v is_write Hd Hv. destruct (access_ok d w v is_write Hd Hv) as (d' & w' & p & E & Hd' & Hin & Hm & Ho & [Hb Hp] & _).
  destruct (di_pinned d' w' Hd' v p Hin) as [k Hk]. destruct (sp_held_law w' v p k (di_inv d' w' Hd') Hk) as (_ & _ & Hp1 & Hp2 & Hl).
  exists (d', w'), p. split; [cbn [sp_access direct_space]; by rewrite E|]. split; [done|]. split; [done|]. split; [done|]. split; [done|]. split; [done|]. split; [done|].
  split; [intros o Hoo; cbn [sp_bytes direct_pin_spec snd]; rewrite <- Hb; by apply Hl|]. intros Hwr o y Hoo.
  destruct (seen_store d' w' v p k o y Hd' Hk) as (Hd2 & Hh2 & _ & Hb2 & Hp2'); [right; by apply Hm|done|]. split; [done|]. split; [exact (eq_trans Hh2 Ho)|].
  split; [intros o'; cbn [sp_bytes direct_pin_spec snd raw_store sp_frames direct_space direct_frames]; rewrite Hb2; by rewrite Hb|].
  intros z Hz. cbn [raw_load raw_store sp_frames direct_space direct_frames]. rewrite Hp2' by done. by apply Hp.
Qed.

(** ** What the direct cache does *)

(** C17: an access returns the frame of the page, which holds its contents; a hit
    calls nothing; the program's own pins are as before; what is stored through
    the pointer of an access for writing becomes the contents, and the table
    will report it. *)
Theorem direct_access_spec d w v (is_write : bool) : direct_inv d w → 0 ≤ v < sp_pages (W := W) → ∃ d' w' p,
  DirectCache.access d w v is_write = (d', w', Ok p) ∧ direct_inv d' w' ∧ seen_held (d', w') = seen_held (d, w) ∧ unchanged w w' ∧
  (cached d v = true → w' = w) ∧ (∀ o, 0 ≤ o < PAGE → raw_load w' (p + o) = sp_bytes w (v * PAGE + o)) ∧
  (is_write = true → ∀ o y, 0 ≤ o < PAGE → let w'' := raw_store w' (p + o) y in
    direct_inv d' w'' ∧ marked d' v = true ∧ ∀ o', sp_bytes w'' o' = if decide (o' = v * PAGE + o) then y else sp_bytes w o').
Proof.
  intros Hd Hv. destruct (access_ok d w v is_write Hd Hv) as (d' & w' & p & E & Hd' & Hin & Hm & Ho & [Hb Hp] & Hhit).
  destruct (di_pinned d' w' Hd' v p Hin) as [k Hk]. destruct (sp_held_law w' v p k (di_inv d' w' Hd') Hk) as (_ & _ & _ & _ & Hl).
  exists d', w', p. split; [done|]. split; [done|]. split; [exact Ho|]. split; [by split|]. split; [done|].
  split; [intros o Hoo; rewrite <- Hb; by apply Hl|]. intros Hwr o y Hoo.
  destruct (seen_store d' w' v p k o y Hd' Hk) as (Hd2 & _ & _ & Hb2 & _); [right; by apply Hm|done|].
  split; [done|]. split; [by apply Hm|]. intros o'. rewrite Hb2. by rewrite Hb.
Qed.

(** C27: a flush returns and gives back every pin of the table and no other. *)
Theorem direct_flush_spec d w : direct_inv d w → ∃ d' w', DirectCache.flush d w = Ok (d', w') ∧ direct_inv d' w' ∧
  sp_held w' = seen_held (d, w) ∧ unchanged w w'.
Proof. apply flush_ok. Qed.

(** C29: an access to a page that does not exist throws, but leaves its id in the
    table beside the pointer of the page that was there: the same access again
    returns that pointer. *)
Theorem direct_stale_entry d w v v0 p0 (b : bool) : direct_inv d w → in_table d v0 p0 → slot d v = slot d v0 → sp_pages (W := W) ≤ v → v ≠ EMPTY → ∃ d' w' msg,
  DirectCache.access d w v b = (d', w', Err (Throw msg)) ∧ ∀ b', ∃ d'', DirectCache.access d' w' v b' = (d'', w', Ok p0).
Proof.
  intros Hd Hin Hs Hv HvE. pose proof (di_range d w v0 p0 Hd Hin) as Hv0. pose proof (di_table d w Hd) as Ht.
  pose proof (table_slot_range d v0 Ht ltac:(lia)) as Hi. destruct (clear_ok d w (slot d v0) Hd Hi) as (v1 & p1 & b1 & w1 & E0 & Eb & Eu & Hd1 & _).
  destruct Hin as [Hin Hne0]. rewrite Hin in E0. injection E0 as <- <-. destruct (sp_pin_out w1 v (di_inv _ _ Hd1) Hv) as [msg Ep].
  set (d' := with_entry d (zset (DirectCache.store d) (slot d v0) (v, p0)) (dirty d)).
  assert (aread (DirectCache.store d) (slot d v0) = Ok (v0, p0)) as Er by (by rewrite aread_Ok).
  assert (aread (dirty d) (slot d v0) = Ok b1) as Erb by (by rewrite aread_Ok).
  exists d', w1, msg. split.
  - unfold DirectCache.access. change (Z.land v (num_pinned_mask d)) with (slot d v). rewrite Hs, Er. rewrite (proj2 (Z.eqb_neq v0 v)) by lia. cbn [negb].
    unfold miss. rewrite Er, Erb. cbn [mbind result_bind]. rewrite Eu, awrite_total by (by rewrite (tb_store d Ht)).
    change (cache_pin w1 v) with (sp_pin w1 v). rewrite Ep. done.
  - intros b'. eexists. unfold DirectCache.access. change (Z.land v (num_pinned_mask d')) with (slot d v). rewrite Hs.
    assert (aread (DirectCache.store d') (slot d v0) = Ok (v, p0)) as Er'.
    { rewrite aread_Ok. cbn [d' with_entry DirectCache.store]. apply zget_zset_eq. by rewrite (tb_store d Ht). }
    rewrite Er', Z.eqb_refl. cbn [negb mbind result_bind]. change (dirty d') with (dirty d). rewrite Erb. cbn [mbind result_bind].
    rewrite awrite_total by (by rewrite (tb_dirty d Ht)). cbn [mbind result_bind]. rewrite Er'. done.
Qed.
End direct.

(** ** At concrete tables *)
Section witnesses.
Import SpaceSpec.Flat.

Lemma fresh_direct : direct_inv 4 (create 16) counting.
Proof. apply create_direct_inv; [lia|reflexivity|apply counting_inv|by intros T _]. Qed.

Lemma direct_access_spec_witness : ∃ d' w' p, DirectCache.access (H := pins_of_space) (create 16) counting 1 true = (d', w', Ok p) ∧
  raw_load w' (p + 7) = sp_bytes counting 4103.
Proof.
  destruct (direct_access_spec 4 (create 16) counting 1 true fresh_direct) as (d' & w' & p & E & _ & _ & _ & _ & Hl & _); [by split|].
  exists d', w', p. split; [exact E|]. apply (Hl 7). by split.
Defined.

Lemma direct_flush_spec_witness : ∃ d' w', DirectCache.flush (H := pins_of_space) (create 16) counting = Ok (d', w') ∧ direct_inv 4 d' w'.
Proof.
  destruct (direct_flush_spec 4 (create 16) counting fresh_direct) as (d' & w' & E & Hd & _).
  exists d', w'. split; [exact E|exact Hd].
Defined.

(** Page 1 is in the table; page 5 does not exist and has the same slot. *)
Lemma direct_stale_entry_witness : ∃ d w d' w' p0 msg, in_table d 1 p0 ∧
  DirectCache.access (H := pins_of_space) d w 5 false = (d', w', Err (Throw msg)) ∧
  ∃ d'', DirectCache.access (H := pins_of_space) d' w' 5 false = (d'', w', Ok p0).
Proof.
  destruct (access_ok 4 (create 16) counting 1 false fresh_direct) as (d & w & p0 & E & Hd & Hin & _); [by split|].
  assert (num_pinned_mask d = 3) as Em.
  { pose proof (f_equal (λ x, num_pinned_mask x.1.1) E) as Em. vm_compute in Em. by symmetry. }
  destruct (direct_stale_entry 4 d w 5 1 p0 false Hd Hin) as (d' & w' & msg & E' & Hagain).
  - unfold slot. rewrite Em. reflexivity.
  - intros [=].
  - intros [=].
  - exists d, w, d', w', p0, msg. split; [exact Hin|]. split; [exact E'|]. apply Hagain.
Defined.
End witnesses.
