(* ===== verification/IntegratedCacheSpec.v ===== *)
(** * The layers of the cache together

    A thread of the integrated cache has a direct cache over a private cache over
    the shared one.  Over any shared cache that pins, the three together are a
    cache with access ([SpaceSpec]); so the theorems on the binding hold of the
    whole. *)
From stdpp Require Import gmap list.
From S2P Require Import Prelude Util PteHeader DirectCache PrivateCache IntegratedCache CachedPtr SpaceSpec CachedAllocator Bind Contents BindSpec PrivateCacheSpec DirectCacheSpec.

Open Scope Z_scope.

(** ** How many pages of a partition the direct cache keeps *)
Section counting.
Context {W : Type} `{PinSpec W}.
Context (partitioner : RoundRobinPartitioner) (local : Z) (k m : Z).
Let np := num_partitions partitioner.
Context (Hk : 0 ≤ k) (Hm : 0 ≤ m) (Hnp : np = 2 ^ k).

(** A table of [2 ^ m] entries. *)
Definition per_part : Z := Z.max 1 (2 ^ m / np).

Lemma slot_mod v : Z.land v (2 ^ m - 1) = v mod 2 ^ m.
Proof. replace (2 ^ m - 1) with (Z.ones m) by (rewrite Z.ones_equiv; lia). by apply Z.land_ones. Qed.

Lemma table_per_part T vs i : selection (2 ^ m) T → NoDup vs → (∀ v, v ∈ vs → in_part partitioner i v ∧ T v = 1) → zlen vs ≤ per_part.
Proof.
  intros [_ Hinj] Hnd Hvs. assert (∀ v, v ∈ vs → v mod np = i) as Hmod by (intros v Hv; apply (Hvs v Hv)).
  assert (∀ u v, u ∈ vs → v ∈ vs → u mod 2 ^ m = v mod 2 ^ m → u = v) as Hu.
  { intros u v Hu Hv E. apply Hinj; [apply Hvs, Hu|apply Hvs, Hv|by rewrite !slot_mod]. }
  unfold per_part. pose proof (Z.pow_pos_nonneg 2 m ltac:(lia) Hm). pose proof (Z.pow_pos_nonneg 2 k ltac:(lia) Hk) as Hnpos. rewrite <- Hnp in Hnpos.
  destruct (decide (k ≤ m)) as [Hkm|Hkm].
  - assert (2 ^ m = 2 ^ (m - k) * np) as Em by (rewrite Hnp, <- Z.pow_add_r by lia; f_equal; lia).
    assert (2 ^ m / np = 2 ^ (m - k)) as Eq by (rewrite Em; apply Z.div_mul; lia).
    set (f := λ v, (v mod 2 ^ m) / np). assert (NoDup (f <$> vs)) as Hndf.
    { apply NoDup_fmap_2_strong; [|done]. intros u v Huv Hvv E. apply Hu; [done|done|]. unfold f in E.
      assert (∀ x, x ∈ vs → (x mod 2 ^ m) mod np = i) as Hmm.
      { intros x Hx. rewrite <- (Hmod x Hx). apply Z.mod_mod_divide. exists (2 ^ (m - k)). done. }
      pose proof (Z_div_mod_eq_full (u mod 2 ^ m) np) as E1. pose proof (Z_div_mod_eq_full (v mod 2 ^ m) np) as E2.
      rewrite Hmm in E1, E2 by done. rewrite E1, E2, E. done. }
    assert (f <$> vs ⊆ seqZ 0 (2 ^ m / np)) as Hsub.
    { intros q (u & -> & _)%list_elem_of_fmap. apply elem_of_seqZ. pose proof (Z.mod_pos_bound u (2 ^ m) ltac:(lia)).
      split; [apply Z.div_pos; lia|]. unfold f. rewrite Eq, Z.add_0_l. apply Z.div_lt_upper_bound; lia. }
    apply (NoDup_submseteq _ _ Hndf), submseteq_length in Hsub. rewrite length_fmap, length_seqZ in Hsub. unfold zlen. lia.
  - destruct vs as [|v0 [|v1 vs]]; [unfold zlen; cbn; lia|unfold zlen; cbn; lia|exfalso].
    assert (np = 2 ^ (k - m) * 2 ^ m) as En by (rewrite Hnp, <- Z.pow_add_r by lia; f_equal; lia).
    assert (∀ x, x ∈ (v0 :: v1 :: vs) → x mod 2 ^ m = i mod 2 ^ m) as Hmm.
    { intros x Hx. rewrite <- (Hmod x Hx). symmetry. apply Z.mod_mod_divide. by exists (2 ^ (k - m)). }
    apply NoDup_cons in Hnd as [Hn _]. apply Hn. rewrite (Hu v0 v1); [by left|by left|by right; left|].
    by rewrite (Hmm v0), (Hmm v1) by (set_solver).
Qed.

(** Pins of the program for which there is room beside the table's. *)
Definition own_fits (x : Z → Z) : Prop :=
  (∀ v, x v + 1 < REF_MOD) ∧ ∀ vs i, NoDup vs → (∀ v, v ∈ vs → in_part partitioner i v ∧ 0 < x v) → zlen vs + per_part ≤ local.

Lemma own_direct_fits x T : own_fits x → selection (2 ^ m) T → private_fits partitioner local (λ v, x v + T v).
Proof.
  intros [Hx Hown] HT. split.
  - intros v. destruct (proj1 HT v) as [->|[-> _]]; specialize (Hx v); lia.
  - intros vs i Hnd Hvs. pose proof (Hown (filter (λ v, 0 < x v) vs) i (NoDup_filter _ _ Hnd)) as H1.
    pose proof (table_per_part T (filter (λ v, T v = 1) vs) i HT (NoDup_filter _ _ Hnd)) as H2.
    assert (zlen vs ≤ zlen (filter (λ v, 0 < x v) vs) + zlen (filter (λ v, T v = 1) vs)) as Hlen.
    { clear H1 H2 Hnd. induction vs as [|v vs IH]; [done|]. destruct (Hvs v) as [_ Hpos]; [by left|].
      assert (∀ u, u ∈ vs → in_part partitioner i u ∧ 0 < x u + T u) as Hvs' by (intros u Hu; apply Hvs; by right). specialize (IH Hvs').
      rewrite !filter_cons. unfold zlen in *. destruct (proj1 HT v) as [E|[E _]]; repeat case_decide; cbn [length]; lia. }
    enough (zlen (filter (λ v, 0 < x v) vs) + per_part ≤ local ∧ zlen (filter (λ v, T v = 1) vs) ≤ per_part) by lia. split.
    + apply H1. intros v [? Hv]%list_elem_of_filter. split; [by apply Hvs|done].
    + apply H2. intros v [? Hv]%list_elem_of_filter. split; [by apply Hvs|done].
Qed.
End counting.

(** ** A cache that does what another one does *)
Section along.
Context {T V : Type} `{Space T, Space V, !SpaceSpec V} (f : T → V).

Record simulates : Prop := {
  sim_pin t v x a : sp_pin (f t) v = Ok (x, a) → sp_inv x → ∃ t', sp_pin t v = Ok (t', a) ∧ f t' = x;
  sim_pin_err t v e : sp_pin (f t) v = Err e → sp_pin t v = Err e;
  sim_unpin t v b x : sp_unpin (f t) v b = Ok x → sp_inv x → ∃ t', sp_unpin t v b = Ok t' ∧ f t' = x;
  sim_access t v b x a : sp_access (f t) v b = Ok (x, a) → sp_inv x → ∃ t', sp_access t v b = Ok (t', a) ∧ f t' = x;
  sim_load t x : raw_load t x = raw_load (f t) x;
  sim_store t x y : f (raw_store t x y) = raw_store (f t) x y;
}.
Context (Hs : simulates).

Program Definition pin_spec_along : PinSpec T := {|
  sp_inv t := sp_inv (f t); sp_pages := sp_pages (W := V); sp_bytes t := sp_bytes (f t); sp_held t := sp_held (f t); sp_written t := sp_written (f t);
  sp_plain := sp_plain (W := V); sp_fits := sp_fits (W := V) |}.
Next Obligation. intros x y. apply sp_fits_le. Qed.
Next Obligation. apply sp_size. Qed.
Next Obligation. intros t v a k Hi E. repeat setoid_rewrite (sim_load Hs). by apply sp_held_law. Qed.
Next Obligation. intros t v. apply sp_written_law. Qed.
Next Obligation.
  intros t v Hi Hv Hfit. destruct (sp_pin_law (f t) v Hi Hv Hfit) as (x & a & E & Hi' & Hx). destruct (sim_pin Hs t v x a E Hi') as (t' & Et & Ef).
  exists t', a. repeat setoid_rewrite (sim_load Hs). by rewrite Ef.
Qed.
Next Obligation. intros t v Hi Hv. destruct (sp_pin_out (f t) v Hi Hv) as [msg E]. exists msg. by apply (sim_pin_err Hs). Qed.
Next Obligation.
  intros t v a k b Hi E Hw. destruct (sp_unpin_law (f t) v a k b Hi E Hw) as (x & Eu & Hi' & Hx). destruct (sim_unpin Hs t v b x Eu Hi') as (t' & Et & Ef).
  exists t'. repeat setoid_rewrite (sim_load Hs). by rewrite Ef.
Qed.
Next Obligation.
  intros t x y Hi Hx. cbn zeta. destruct (sp_store_plain (f t) x y Hi Hx) as (? & ? & ? & ? & Hl). rewrite (sim_store Hs). do 4 (split; [done|]).
  intros z Hz. rewrite !(sim_load Hs), (sim_store Hs). by apply Hl.
Qed.
Next Obligation. intros t v a k o y Hi E Ho. cbn zeta. repeat setoid_rewrite (sim_load Hs). rewrite (sim_store Hs). by apply (sp_store_frame (f t) v a k). Qed.

Program Definition spec_along : SpaceSpec T := {| sp_pin_spec := pin_spec_along |}.
Next Obligation.
  intros t v b Hi Hv. destruct (sp_access_law (f t) v b Hi Hv) as (x & a & E & Hi' & Hx). destruct (sim_access Hs t v b x a E Hi') as (t' & Et & Ef).
  exists t', a. cbn [sp_inv sp_held sp_bytes sp_plain pin_spec_along]. repeat setoid_rewrite (sim_load Hs). repeat setoid_rewrite (sim_store Hs). by rewrite Ef.
Qed.
End along.

(** ** A thread of the integrated cache *)
Section thread.
Context {W : Type} `{PinSpec W}.
Context (partitioner : RoundRobinPartitioner) (local : Z) (wait : W → result W) (fuel rounds : nat).
Context (Hok : shared_ok partitioner local fuel).
Let np := num_partitions partitioner.

#[local] Instance shared_interface : SharedInterface W := shared_of_space wait.
#[local] Instance private_layer : Frames (private_cache W) := private_frames partitioner wait fuel.
#[local] Instance private_promise : PinSpec (private_cache W) := private_pin_spec partitioner local wait fuel Hok.

(** The entries of the direct cache. *)
Definition entries : Z := table_size (w64 (local * np)).
#[local] Instance direct_promise : SpaceSpec (@world_of (private_cache W)) := direct_spec entries.

(** The direct and the private cache of the thread, created at their first use. *)
Definition view (t : thread W) : @world_of (private_cache W) :=
  let c := get_private_cache partitioner local t in (get_direct_cache partitioner t c, c).

#[export] Instance thread_frames : Frames (thread W) := {|
  sp_pin t v := IntegratedCache.pin partitioner (sp_pages (W := W)) local fuel t v;
  sp_unpin t v b := IntegratedCache.unpin partitioner (sp_pages (W := W)) local fuel t v b;
  sp_shared_pin t v := integrated_shared_pin t v;
  sp_shared_unpin t v b := integrated_shared_unpin t v b;
  raw_load t := raw_load (shared_cache_of t);
  raw_store t x y := mk_thread (raw_store (shared_cache_of t) x y) (thread_private t) (thread_direct t) |}.
#[export] Instance thread_space : Space (thread W) := {|
  sp_frames := thread_frames;
  sp_access t v b := let '(t, r) := IntegratedCache.access partitioner (sp_pages (W := W)) local fuel t v b in a ← r; Ok (t, a);
  sp_flush t := IntegratedCache.flush partitioner (sp_pages (W := W)) local fuel rounds t |}.

Lemma view_put (t : thread W) c : num_local_ppages_per_partition c = local → view (put_private t c) = ((view t).1, c).
Proof using Type.
  intros E. unfold view, get_private_cache, get_direct_cache, put_private. destruct c as [w l cs]. cbn in E |- *. subst l. destruct (thread_direct t); [done|].
  by destruct (thread_private t).
Qed.

Lemma inv_local (x : @world_of (private_cache W)) : sp_inv x → num_local_ppages_per_partition x.2 = local.
Proof using Type. intros Hi. apply (pi_local partitioner local _ (di_inv entries x.1 x.2 Hi)). Qed.

Lemma thread_simulates : simulates view.
Proof using Type.
  split.
  - intros t v x a E Hi. pose proof (inv_local x Hi) as El. change (('(c, p) ← PrivateCache.pin partitioner (sp_pages (W := W)) fuel (view t).2 v; Ok ((view t).1, c, p)) = Ok (x, a)) in E.
    apply bind_Ok in E as ([c p] & E & [= <- <-]). exists (put_private t c). split; [|by apply view_put].
    cbn [sp_pin sp_frames thread_space thread_frames]. unfold IntegratedCache.pin. by rewrite (bind_rew _ _ _ E).
  - intros t v e E. change (('(c, p) ← PrivateCache.pin partitioner (sp_pages (W := W)) fuel (view t).2 v; Ok ((view t).1, c, p)) = Err e) in E.
    cbn [sp_pin sp_frames thread_space thread_frames]. unfold IntegratedCache.pin. change (get_private_cache partitioner local t) with (view t).2.
    revert E. destruct (PrivateCache.pin _ _ _ _ _) as [[c p]|e']; [done|]. by intros [= ->].
  - intros t v b x E Hi. pose proof (inv_local x Hi) as El. change ((c ← PrivateCache.unpin partitioner (sp_pages (W := W)) fuel (view t).2 v b; Ok ((view t).1, c)) = Ok x) in E.
    apply bind_Ok in E as (c & E & [= <-]). exists (put_private t c). split; [|by apply view_put].
    cbn [sp_unpin sp_frames thread_space thread_frames]. unfold IntegratedCache.unpin. by rewrite (bind_rew _ _ _ E).
  - intros t v b x a E Hi. pose proof (inv_local x Hi) as El.
    change ((let '(d, c, r) := DirectCache.access (H := private_pin_cache partitioner (sp_pages (W := W)) fuel) (view t).1 (view t).2 v b in p ← r; Ok (d, c, p)) = Ok (x, a)) in E.
    cbn [sp_access thread_space]. unfold IntegratedCache.access. change (get_direct_cache partitioner t (get_private_cache partitioner local t)) with (view t).1.
    change (get_private_cache partitioner local t) with (view t).2. destruct (DirectCache.access _ _ _ _) as [[d c] r].
    apply bind_Ok in E as (p & -> & [= <- <-]). eexists. split; [reflexivity|]. destruct c as [w l cs]. cbn in El. subst l. done.
  - intros t x. unfold view, get_private_cache. by destruct (thread_private t).
  - intros t x y. unfold view, get_private_cache, get_direct_cache. cbn [thread_private thread_direct shared_cache_of raw_store sp_frames thread_space thread_frames].
    destruct (thread_private t), (thread_direct t); reflexivity.
Qed.

#[local] Instance thread_spec : SpaceSpec (thread W) := spec_along view thread_simulates.

(** *** A new thread *)
Definition new_thread (w : W) : thread W := mk_thread w None None.
Definition thread_inv (t : thread W) : Prop := direct_inv entries (view t).1 (view t).2.

Section fresh.
Context (k : Z) (Hk : 0 ≤ k) (Hnp : np = 2 ^ k) (Hpages : local * np ≤ 2 ^ 63).

Lemma partitions_pos : 1 ≤ np ∧ 1 ≤ local ∧ w64 (local * np) = local * np.
Proof. destruct (so_partitioner _ _ _ Hok) as [Hn _]. pose proof (so_local _ _ _ Hok). split; [lia|]. split; [lia|]. apply w64_small. nia. Qed.

(** The direct cache keeps half of a partition's frames at most. *)
Lemma entries_per_part : ∃ m, 0 ≤ m ∧ entries = 2 ^ m ∧ per_part partitioner m ≤ Z.max 1 (local / 2).
Proof.
  destruct partitions_pos as (Hn & Hl & Ew). assert (1 ≤ local * np ≤ 2 ^ 63) as Hr by nia. destruct (table_size_pow (local * np) Hr) as (m & Hm & E).
  exists m. unfold entries. rewrite Ew. split; [done|]. split; [done|]. unfold per_part. fold np.
  assert (2 ^ m ≤ Z.max ((local * np) / 2) 1) as Hle.
  { rewrite <- E. unfold table_size, MAX_FIBERS_PER_THREAD. rewrite Z.div_1_r, nextPowerOf2_spec by done.
    assert (2 ^ Z.log2_up (local * np) ≤ 2 * (local * np)) as Hup.
    { destruct (decide (local * np = 1)) as [->|]; [done|]. pose proof (Z.log2_up_spec (local * np) ltac:(lia)) as [Hlo _].
      rewrite <- (Z.succ_pred (Z.log2_up (local * np))), Z.pow_succ_r; [lia|]. pose proof (Z.log2_up_pos (local * np) ltac:(lia)). lia. }
    assert (2 ^ Z.log2_up (local * np) / 4 ≤ (local * np) / 2); [|lia].
    transitivity (2 * (local * np) / 4); [by apply Z.div_le_mono|]. change 4 with (2 * 2). by rewrite Z.div_mul_cancel_l by lia. }
  assert (2 ^ m / np ≤ Z.max ((local * np) / 2) 1 / np) as Hq by (apply Z.div_le_mono; lia).
  destruct (Z.max_spec ((local * np) / 2) 1) as [[_ Em]|[_ Em]]; rewrite Em in Hq.
  - assert (1 / np ≤ 1) by (apply Z.div_le_upper_bound; lia). lia.
  - rewrite Z.div_div, (Z.mul_comm 2 np), <- Z.div_div, Z.div_mul in Hq by lia. lia.
Qed.

(** The promise holds of it, and there are frames for two pins more. *)
Lemma new_thread_inv w : sp_inv w → sp_held w = ∅ → thread_inv (new_thread w) ∧ sp_held (new_thread w) = ∅ ∧ sp_written (new_thread w) = ∅.
Proof.
  intros Hi Hh. destruct partitions_pos as (Hn & Hl & Ew). destruct entries_per_part as (m & Hm & Em & Hpp).
  destruct (create_private_inv partitioner local wait fuel Hok w Hi Hh) as [Hci Hch]. set (c := PrivateCache.create partitioner w local) in *.
  assert (direct_inv entries (DirectCache.create (w64 (local * np))) c) as Hd.
  { assert (1 ≤ w64 (local * np) ≤ 2 ^ 63) as Hr by (rewrite Ew; nia).
    apply (create_direct_inv (H0 := private_promise) entries _ c Hr eq_refl Hci). intros T HT. rewrite Em in HT. change (sp_held c) with (private_held partitioner c). rewrite Hch.
    apply (own_direct_fits partitioner local k m Hk Hm Hnp); [|done]. split.
    - intros v. unfold pin_count. by rewrite lookup_empty.
    - intros vs i _ Hvs. destruct vs as [|v vs]; [change (@zlen Z []) with 0; pose proof (Z.mul_div_le local 2); lia|]. destruct (Hvs v) as [_ Hp]; [by left|]. unfold pin_count in Hp. by rewrite lookup_empty in Hp. }
  change (view (new_thread w)) with (DirectCache.create (w64 (local * np)), c). split; [exact Hd|].
  change (sp_held (new_thread w)) with (seen_held (DirectCache.create (w64 (local * np)), c)).
  change (sp_written (new_thread w)) with (seen_written (DirectCache.create (w64 (local * np)), c)).
  assert (seen_held (DirectCache.create (w64 (local * np)), c) = ∅) as E.
  { apply map_eq. intros v. unfold seen_held. cbn [fst snd]. rewrite own_lookup. change (sp_held c) with (private_held partitioner c). by rewrite Hch, !lookup_empty. }
  split; [exact E|]. apply set_eq. intros v. rewrite seen_written_in, E, lookup_empty. set_solver.
Qed.

Lemma new_thread_roomy w : sp_inv w → sp_held w = ∅ → 3 ≤ local → roomy (new_thread w).
Proof.
  intros Hi Hh Hl3 u Hu v Hv. destruct (new_thread_inv w Hi Hh) as (_ & Eh & _). destruct entries_per_part as (m & Hm & Em & Hpp).
  change (direct_fits entries (λ x, pin_count (sp_held (new_thread w)) x + one u x + one v x)). intros T HT. rewrite Em in HT. rewrite Eh.
  apply (own_direct_fits partitioner local k m Hk Hm Hnp); [|done].
  assert (∀ x, pin_count ∅ x + one u x + one v x = one u x + one v x) as E0 by (intros x; unfold pin_count; by rewrite lookup_empty).
  split; [intros x; rewrite E0; unfold one, REF_MOD; repeat case_decide; lia|]. intros vs i Hnd Hvs.
  assert (vs ⊆ [u; v]) as Hsub.
  { intros x Hx. destruct (Hvs x Hx) as [_ Hpos]. rewrite E0 in Hpos. unfold one in Hpos. repeat case_decide; subst; set_solver || lia. }
  apply (NoDup_submseteq _ _ Hnd), submseteq_length in Hsub. cbn [length] in Hsub. pose proof (Z.mul_div_le local 2). unfold zlen. lia.
Qed.
End fresh.

(** The pages the program has pinned itself. *)
Definition thread_pins (t : thread W) : gmap Z (Z * Z) := seen_held (view t).

(** The thread after a store to its memory. *)
Definition stored_to (t : thread W) (x y : Z) : thread W :=
  mk_thread (raw_store (shared_cache_of t) x y) (thread_private t) (thread_direct t).

Lemma shared_of_view (t : thread W) : shared_cache_state (view t).2 = shared_cache_of t.
Proof using Type. unfold view, get_private_cache. by destruct (thread_private t). Qed.

(** ** What the layers do together *)

(** C8: an access to a page by a thread, through its direct and its private cache
    over any shared cache that pins ([PinSpec], over which the section is; the
    shared cache of the code is not an instance, see the header).  The thread
    satisfies [thread_inv], and with it the direct cache has no more entries for a
    partition than the thread has frames of it besides the pins of the program
    (with 3 partitions of 3 frames it would have 4, and the access throw).  Then
    the access returns; the pointer is to the bytes of the page; the contents of
    the space and the program's own pins are as before; and what is stored through
    the pointer of an access for writing becomes the contents of the page. *)
Theorem integrated_access_spec t v (is_write : bool) : thread_inv t → 0 ≤ v < sp_pages (W := W) → ∃ t' a,
  IntegratedCache.access partitioner (sp_pages (W := W)) local fuel t v is_write = (t', Ok a) ∧ thread_inv t' ∧ thread_pins t' = thread_pins t ∧
  (∀ o, sp_bytes (shared_cache_of t') o = sp_bytes (shared_cache_of t) o) ∧
  (∀ o, 0 ≤ o < PAGE → raw_load (shared_cache_of t') (a + o) = sp_bytes (shared_cache_of t) (v * PAGE + o)) ∧
  (is_write = true → ∀ o y, 0 ≤ o < PAGE → let t'' := stored_to t' (a + o) y in
    thread_inv t'' ∧ thread_pins t'' = thread_pins t ∧
    ∀ o', sp_bytes (shared_cache_of t'') o' = if decide (o' = v * PAGE + o) then y else sp_bytes (shared_cache_of t) o').
Proof.
  intros Hi Hv. change (sp_inv t) in Hi. destruct (sp_access_law t v is_write Hi Hv) as (t' & a & E & Hi' & Hh & Hb & _ & _ & _ & Hl & Hst).
  cbn [sp_access thread_space] in E. destruct (IntegratedCache.access _ _ _ _ _ _ _) as [t1 r] eqn:Ea. apply bind_Ok in E as (a1 & -> & [= -> ->]).
  exists t', a. split; [done|]. split; [exact Hi'|]. split; [exact Hh|].
  assert (∀ s o, sp_bytes s o = sp_bytes (shared_cache_of s) o) as Eb by (intros s o; by rewrite <- shared_of_view).
  split; [intros o; rewrite <- !Eb; apply Hb|]. split; [intros o Ho; rewrite <- Eb; by apply Hl|].
  intros Hw o y Ho. destruct (Hst Hw o y Ho) as (Hi2 & Hh2 & Hb2 & _). split; [exact Hi2|]. split; [exact Hh2|].
  intros o'. rewrite <- !Eb. apply Hb2.
Qed.

(** C9: [memcpy] by a new thread, through its direct and its private cache over
    any shared cache that pins: when the partitions are a power of two and each
    has three frames of the thread at least, and both ranges end before the last
    byte of the space, it returns, and exactly the bytes of the destination are
    changed, to those of the source. *)
Theorem integrated_memcpy gc k w dst src n : sp_inv w → sp_held w = ∅ → 0 ≤ k → np = 2 ^ k → local * np ≤ 2 ^ 63 → 3 ≤ local →
  0 ≤ n < 2 ^ 64 → inside (W := W) (loc_of dst) n → inside (W := W) (loc_of src) n → disjoint_ranges (loc_of dst) (loc_of src) n →
  ∃ t', cache_memcpy gc (new_thread w) dst src n = Ok (t', dst) ∧ thread_inv t' ∧ thread_pins t' = ∅ ∧
    (∀ i, 0 ≤ i < n → contents (shared_cache_of t') (shift (loc_of dst) i) = contents w (shift (loc_of src) i)) ∧
    ∀ l, valid (W := W) l → (∀ i, 0 ≤ i < n → l ≠ shift (loc_of dst) i) → contents (shared_cache_of t') l = contents w l.
Proof.
  intros Hi Hh Hk Hnp Hpages Hl Hn Hind Hins Hdis. destruct (new_thread_inv k Hk Hnp Hpages w Hi Hh) as (Hti & Eh & _).
  change (sp_inv (new_thread w)) in Hti.
  destruct (memcpy_ok (W := thread W) gc (new_thread w) dst src n Hti (new_thread_roomy k Hk Hnp Hpages w Hi Hh Hl) Hn Hind Hins Hdis) as (t' & E & Hi' & Hh' & Hc).
  exists t'. split; [exact E|]. split; [exact Hi'|]. split; [exact (eq_trans Hh' Eh)|].
  assert (∀ s l, contents s l = contents (shared_cache_of s) l) as Ec by (intros s [x|o]; [done|by rewrite <- shared_of_view]).
  destruct Hc as [Hc1 Hc2]. split.
  - intros i Hir. rewrite <- (Ec t'), Hc1 by done. apply Ec.
  - intros l Hv Hne. rewrite <- (Ec t'), Hc2 by done. apply Ec.
Qed.
End thread.

(** ** Two partitions over a flat space *)
Section witnesses.
Import SpaceSpec.Flat.

Abbreviation fresh_thread := (new_thread counting).

Lemma fresh_thread_inv : thread_inv halves 4 Ok 1 halves_ok fresh_thread.
Proof.
  apply (new_thread_inv halves 4 Ok 1 1 halves_ok 1); [lia|reflexivity|intros [=]|apply counting_inv|reflexivity].
Qed.

Lemma integrated_access_spec_witness : ∃ t' a, IntegratedCache.access (H := shared_of_space Ok) halves 4 4 1 fresh_thread 1 true = (t', Ok a) ∧
  raw_load (shared_cache_of t') (a + 7) = sp_bytes counting 4103.
Proof.
  destruct (integrated_access_spec halves 4 Ok 1 1 halves_ok fresh_thread 1 true fresh_thread_inv) as (t' & a & E & _ & _ & _ & Hl & _); [by split|].
  exists t', a. split; [exact E|]. apply (Hl 7). by split.
Defined.

(** 5000 bytes over two page boundaries. *)
Lemma integrated_memcpy_witness : ∃ t', cache_memcpy (H := thread_space halves 4 Ok 1 1) 1 fresh_thread (OFFSET_FLAG + 8242) (OFFSET_FLAG + 100) 5000 = Ok (t', OFFSET_FLAG + 8242) ∧
  contents (shared_cache_of t') (LPage 8249) = contents counting (LPage 107).
Proof.
  destruct (integrated_memcpy halves 4 Ok 1 1 halves_ok 1 1 counting (OFFSET_FLAG + 8242) (OFFSET_FLAG + 100) 5000) as (t' & E & _ & _ & Hc & _).
  - apply counting_inv.
  - reflexivity.
  - lia.
  - reflexivity.
  - intros [=].
  - lia.
  - lia.
  - change (0 ≤ 8242 ∧ 8242 + 5000 < 4 * 4096). lia.
  - change (0 ≤ 100 ∧ 100 + 5000 < 4 * 4096). lia.
  - change (disjoint_ranges (LPage 8242) (LPage 100) 5000). intros i j Hi Hj [=]. lia.
  - exists t'. split; [exact E|]. apply (Hc 7). by split.
Defined.
End witnesses.

(** ** Three partitions

    With three frames per partition the direct cache has four entries, and four
    pages of one partition may be in it: after accesses to pages 0, 3 and 6 the
    pin for page 9 is refused until [pin] gives up. *)
Section three_partitions.
#[local] Instance any_frame : SharedInterface () :=
  {| PrivateCache.shared_pin _ v := Ok (tt, 2 ^ 20 + v * PAGE); PrivateCache.shared_unpin _ _ _ := Ok tt; PrivateCache.shared_wait _ := Ok tt |}.
Definition thirds : RoundRobinPartitioner := Build_RoundRobinPartitioner 3 12.

Definition read_pages (pages : list Z) : thread () :=
  foldl (λ t v, (IntegratedCache.access thirds 12 3 1 t v false).1) (mk_thread tt None None) pages.

Lemma direct_cache_fills_partition : table_size 9 = 4 ∧
  match PrivateCache.run thirds (get_private_cache thirds 3 (read_pages [0; 3; 6])) 0 (SharedSingleThreadCache.pin_context (no_context 0) 3) with
  | Ok (_, x) => SharedSingleThreadCache.c_phase x = SharedSingleThreadCache.End_ ∧ SharedSingleThreadCache.c_ppage_id x = SharedSingleThreadCache.NO_PPAGE
  | Err _ => False
  end.
Proof. vm_compute. by repeat split. Qed.
End three_partitions.
