(* ===== verification/CacheFlush.v ===== *)
(** * Flushing a thread's caches

    [flush] of the private caches and of the integrated cache: when the program
    has no pins, every pin the thread has of the shared cache is given up, each
    page that was written to is unpinned as written, and the contents of the
    space stay.  The caches are built anew afterwards. *)
From stdpp Require Import gmap list.
From S2P Require Import Prelude Util Replacement PteHeader CompactHashPageTable SharedSingleThreadCache SharedServer SharedServerSpec SharedServerUse ImmediateTransfers ImmediateFlush PrivateCache DirectCache IntegratedCache CachedPtr SpaceSpec PrivateCacheSpec DirectCacheSpec IntegratedCacheSpec.

Open Scope Z_scope.

Section flush.
Context {W : Type} `{PinSpec W}.
Context (partitioner : RoundRobinPartitioner) (local : Z) (wait : W → result W) (fuel : nat).

(** Waiting for the messages of the client shows nowhere else. *)
Definition wait_ok : Prop := ∀ w, sp_inv w → ∃ w', wait w = Ok w' ∧ sp_inv w' ∧ sp_held w' = sp_held w ∧ unchanged w w'.

Context (Hok : shared_ok partitioner local fuel) (Hwait : wait_ok).
#[local] Set Default Proof Using "Type*".

#[local] Instance shared_interface : SharedInterface W := shared_of_space wait.
Abbreviation world := shared_cache_state.
Abbreviation private_inv := (private_inv partitioner local).
Abbreviation settled := (ImmediateTransfers.settled (EC := SharedCacheContext)).
Implicit Types (c : private_cache W) (st : single_thread_cache) (w : W) (v u b i : Z).

(** ** One partition *)

(** The pages given up so far are the ones [P] holds of. *)
Record given_back (P : Z → bool) w0 w : Prop := {
  gb_inv : sp_inv w;
  gb_held v : 0 ≤ v < sp_pages → sp_held w !! v = if P v then None else sp_held w0 !! v;
  gb_written : sp_written w ⊆ sp_written w0;
  gb_same : unchanged w0 w;
}.

Lemma given_back_refl w : sp_inv w → given_back (λ _, false) w w.
Proof using Type. by split. Qed.

Lemma given_back_also (P Q : Z → bool) w0 w : given_back P w0 w → (∀ v, 0 ≤ v < sp_pages → P v ≠ Q v → sp_held w0 !! v = None) → given_back Q w0 w.
Proof using Type.
  intros [Hi Hh Hw Hu] Hpq. split; try done. intros v Hv. rewrite Hh by done. specialize (Hpq v Hv). destruct (P v), (Q v); try done; by rewrite Hpq.
Qed.

(** The eviction of a page: its pin is the only one, and its frame says whether it
    was written to. *)
Lemma evict_page c i st w b f P : private_inv c → private_held partitioner c = ∅ → zget (private_caches c) i = Some st → resident st b →
  zget (states st) (pp st b) = Some f → P (vpage_of partitioner i b) = false → given_back P (world c) w →
  ∃ w', PrivateCache.evict_func partitioner w i b (pp st b) (flush_dirty st b) (s_external f) = Ok (w', i, s_external f, true) ∧
    given_back (λ u, P u || bool_decide (u = vpage_of partitioner i b)) (world c) w'.
Proof.
  intros Hi Hnone E Hr Hf HP [Hwi Hwh Hww Hwu]. pose proof (zget_range _ _ _ E) as Hir. rewrite (pi_count _ _ c Hi) in Hir.
  destruct (pi_part _ _ c Hi i st E) as [[= _ Evmax] _]. destruct (place_page partitioner local wait fuel Hok i b Hir) as [[Hsp Epart] Eb].
  { destruct Hr as [Hr _]. unfold okp in Hr. by rewrite <- Evmax. }
  set (v := vpage_of partitioner i b) in *. assert (sp_held w !! v = Some (external st b, 1)) as Eh.
  { rewrite Hwh, HP by done. rewrite (pi_pages _ _ c Hi v st Hsp) by (by rewrite Epart). by rewrite Eb, decide_True. }
  destruct (sp_unpin_law w v _ 1 (flush_dirty st b) Hwi Eh) as (w' & Eu & Hi' & Hh' & Hw' & Hb' & Hp').
  { destruct (decide (v ∈ sp_written w)) as [Hvw|]; [left|by right; left]. unfold flush_dirty.
    destruct (pi_written _ _ c Hi v st Hsp) as [Hd|Hd]; [by rewrite Epart|by apply Hww|rewrite Eb in Hd; rewrite Hd; by case_match|].
    rewrite Eb in Hd. by rewrite (proj2 (Z.eqb_neq _ 0)) by lia. }
  exists w'. split; [unfold PrivateCache.evict_func, PrivateCache.shared_unpin; cbn [shared_interface shared_of_space]; fold v; by rewrite Eu|].
  rewrite orb_true_r in Hw'. split; [done| |rewrite Hw'; set_solver|by apply (unchanged_trans _ w)].
  intros u Hu. rewrite Hh'. cbn [Z.eqb Pos.eqb]. case_bool_decide as Euv; [subst u; by rewrite orb_true_r, lookup_delete_eq|].
  rewrite orb_false_r, lookup_delete_ne by congruence. by apply Hwh.
Qed.

Lemma nothing_held c i st held : private_inv c → private_held partitioner c = ∅ → zget (private_caches c) i = Some st → settled st held → held = ∅.
Proof.
  intros Hi Hnone E Hs. apply map_eq. intros b. rewrite lookup_empty. destruct (held !! b) as [k|] eqn:Ek; [|done].
  destruct (si_held _ _ _ _ (se_inv _ _ Hs) b k Ek) as [_ [Hb _]]. pose proof (zget_range _ _ _ E) as Hir. rewrite (pi_count _ _ c Hi) in Hir.
  destruct (pi_part _ _ c Hi i st E) as [[= _ Evmax] _]. destruct (place_page partitioner local wait fuel Hok i b Hir) as [[Hsp Epart] Eb].
  { unfold okp in Hb. by rewrite <- Evmax. }
  pose proof (private_held_page partitioner local wait fuel Hok c (vpage_of partitioner i b) st held Hi Hsp) as Eh. rewrite Epart, Eb, Ek, Hnone in Eh. by specialize (Eh E Hs).
Qed.

Context (rounds : nat) (Hrounds : (0 < rounds)%nat).

Definition through i v : bool := part_of partitioner v <? i.

Lemma flush_partition c i st w : private_inv c → private_held partitioner c = ∅ → zget (private_caches c) i = Some st → given_back (through i) (world c) w →
  ∃ w' st', SharedSingleThreadCache.flush i 0 (PrivateCache.evict_func partitioner) rounds (mk_sys w st) = Ok (mk_sys w' st') ∧
    given_back (through (i + 1)) (world c) w'.
Proof.
  intros Hi Hnone E Hw. pose proof (zget_range _ _ _ E) as Hir. rewrite (pi_count _ _ c Hi) in Hir.
  destruct (pi_part _ _ c Hi i st E) as [[= Emax Evmax] [held Hs]]. rewrite (nothing_held c i st held Hi Hnone E Hs) in Hs.
  set (P := λ (vs : list Z) u, through i u || bool_decide (part_of partitioner u = i ∧ block_of partitioner u ∈ vs)).
  destruct (flush_settled (EC := SharedCacheContext) (ES := PointerState) i 0 (PrivateCache.evict_func partitioner) st w rounds (λ vs w', given_back (P vs) (world c) w') Hs (pi_frames _ _ c Hi i st E) Hrounds)
    as (w' & st' & vs & Ef & Hg & Hall).
  - apply (given_back_also (through i)); [done|]. intros v _. unfold P. rewrite bool_decide_eq_false_2, orb_false_r; [done|]. by intros (_ & Hx%elem_of_nil).
  - intros vs w1 p f Hg Hf Hr Hp Hn. subst p. assert (okp st (s_vpage_id f)) as Hb by apply Hr.
    destruct (place_page partitioner local wait fuel Hok i (s_vpage_id f) Hir) as [[Hsp Epart] Eb]; [unfold okp in Hb; by rewrite <- Evmax|].
    destruct (evict_page c i st w1 (s_vpage_id f) f (P vs) Hi Hnone E Hr Hf) as (w2 & Ee & Hg2); [|done|].
    { unfold P, through. rewrite Epart, Z.ltb_irrefl, Eb. cbn [orb]. apply bool_decide_eq_false_2. naive_solver. }
    exists w2, i. split; [exact Ee|]. apply (given_back_also _ _ _ _ Hg2). intros v Hv Hne. exfalso. apply Hne. unfold P. rewrite <- orb_assoc. f_equal.
    apply eq_iff_eq_true. rewrite orb_true_iff, !bool_decide_eq_true, elem_of_app, list_elem_of_singleton. split; [naive_solver|].
    intros (Ep & [Hin|Ebv]); [by left|right]. by rewrite <- Ebv, <- Ep; destruct (page_place partitioner local wait fuel Hok v Hv) as (_ & _ & ->).
  - exists w', st'. split; [exact Ef|]. apply (given_back_also _ _ _ _ Hg). intros v Hv Hne.
    destruct (decide (part_of partitioner v = i)) as [Ep|Ep].
    + rewrite (pi_pages _ _ c Hi v st Hv) by (by rewrite Ep). rewrite decide_False; [done|]. intros Hr. apply Hne. unfold P, through. rewrite Ep, Z.ltb_irrefl.
      rewrite (proj2 (Z.ltb_lt _ _)) by lia. cbn [orb]. apply bool_decide_eq_true_2. split; [done|by apply Hall].
    + exfalso. apply Hne. unfold P, through. rewrite bool_decide_eq_false_2, orb_false_r by (by intros [? _]). apply eq_iff_eq_true. rewrite !Z.ltb_lt. lia.
Qed.

(** ** All of them *)
Lemma flush_all_ok c : private_inv c → private_held partitioner c = ∅ → ∀ cs i w, 0 ≤ i → drop (Z.to_nat i) (private_caches c) = cs → given_back (through i) (world c) w →
  ∃ w', flush_all partitioner rounds w i cs = Ok w' ∧ given_back (through (i + zlen cs)) (world c) w'.
Proof.
  intros Hi Hnone cs. induction cs as [|st cs IH]; intros i w Hpos Ed Hw.
  - exists w. change (@zlen single_thread_cache []) with 0. by rewrite Z.add_0_r.
  - assert (zget (private_caches c) i = Some st) as E.
    { pose proof (lookup_drop (private_caches c) (Z.to_nat i) 0) as El. rewrite Ed, Nat.add_0_r in El. rewrite <- (Z2Nat.id i), zget_nat by done. by rewrite <- El. }
    destruct (flush_partition c i st w Hi Hnone E Hw) as (w1 & st' & Ef & Hg). cbn [flush_all]. rewrite (bind_rew _ _ _ Ef). cbn [SharedSingleThreadCache.world].
    destruct (IH (i + 1) w1) as (w' & E' & Hg'); [lia| |done|].
    { rewrite Z2Nat.inj_add by lia. change (Z.to_nat 1) with 1%nat. by rewrite <- drop_drop, Ed. }
    exists w'. split; [done|]. unfold zlen in *. rewrite length_cons. by replace (i + Z.of_nat (S (length cs))) with (i + 1 + Z.of_nat (length cs)) by lia.
Qed.

Lemma private_flush_ok c : private_inv c → private_held partitioner c = ∅ →
  ∃ w', PrivateCache.flush partitioner rounds c = Ok (PrivateCache.create partitioner w' local) ∧ sp_inv w' ∧ sp_held w' = ∅ ∧ unchanged (world c) w'.
Proof.
  intros Hi Hnone. destruct (flush_all_ok c Hi Hnone (private_caches c) 0 (world c)) as (w1 & E & [Hi1 Hh1 _ Hu1]); [lia|done| |].
  { apply (given_back_also (λ _, false)); [apply given_back_refl, Hi|]. intros v Hv Hne. destruct (page_place partitioner local wait fuel Hok v Hv) as (Hp & _).
    exfalso. apply Hne. unfold through. symmetry. apply Z.ltb_ge. lia. }
  destruct (Hwait w1 Hi1) as (w' & Ew & Hi' & Hh' & Hu'). exists w'. split; [|split; [done|split; [|by apply (unchanged_trans _ w1)]]].
  - unfold PrivateCache.flush. rewrite (bind_rew _ _ _ E). cbn [PrivateCache.shared_wait shared_interface shared_of_space]. rewrite (bind_rew _ _ _ Ew).
    by rewrite (pi_local _ _ c Hi).
  - rewrite Hh'. apply map_eq. intros v. rewrite lookup_empty. destruct (sp_held w1 !! v) as [[a k]|] eqn:Ev; [|done].
    destruct (sp_held_law w1 v a k Hi1 Ev) as (_ & Hv & _). rewrite Hh1 in Ev by done. unfold through in Ev. rewrite (pi_count _ _ c Hi) in Ev.
    destruct (page_place partitioner local wait fuel Hok v Hv) as (Hp & _). by rewrite (proj2 (Z.ltb_lt _ _)) in Ev by lia.
Qed.

(** ** A thread *)
#[local] Instance private_layer : Frames (private_cache W) := private_frames partitioner wait fuel.
#[local] Instance private_promise : PinSpec (private_cache W) := private_pin_spec partitioner local wait fuel Hok.

Lemma flush_private (c : private_cache W) : private_inv c → private_held partitioner c = ∅ → ∃ w',
  (c' ← PrivateCache.flush partitioner rounds (mk_private (world c) local (private_caches c)); Ok (mk_thread (world c') None None)) = Ok (new_thread w') ∧
  sp_inv w' ∧ sp_held w' = ∅ ∧ unchanged (world c) w'.
Proof.
  intros Hi Hnone. destruct (private_flush_ok c Hi Hnone) as (w' & E & Hw'). exists w'. split; [|done].
  pose proof (pi_local _ _ c Hi) as El. destruct c as [s l cs]. cbn [PrivateCache.num_local_ppages_per_partition] in El. subst l. by rewrite (bind_rew _ _ _ E).
Qed.

(** A thread that has used the shared cache through its private one only, or not
    at all. *)
Lemma flush_no_direct t : thread_direct t = None → private_inv (view partitioner local t).2 → private_held partitioner (view partitioner local t).2 = ∅ →
  ∃ w', IntegratedCache.flush partitioner (sp_pages (W := W)) local fuel rounds t = Ok (new_thread w') ∧ sp_inv w' ∧ sp_held w' = ∅ ∧
    unchanged (shared_cache_of t) w'.
Proof.
  intros Ed Hi Hnone. unfold IntegratedCache.flush. rewrite Ed. cbn [mbind result_bind]. unfold view in *. cbn [snd] in *.
  destruct t as [w [cs|] d]; cbn [thread_private thread_direct shared_cache_of get_private_cache] in *; subst d.
  - apply (flush_private (mk_private w local cs) Hi Hnone).
  - exists w. split; [done|]. split; [apply Hi|]. split; [|apply unchanged_refl]. by apply (fresh_nothing_held partitioner local wait fuel Hok).
Qed.

Lemma fresh_direct_view (t : thread W) : thread_direct t = None →
  (view partitioner local t).1 = create (actual_num_ppages_per_thread partitioner (view partitioner local t).2).
Proof using Type. intros E. unfold view, get_direct_cache. by rewrite E. Qed.

(** C10: [flush] of a thread with no pins of its own returns: the thread is as
    new, it has no pin of the shared cache left, and the contents of the space and
    the program's memory are as before. *)
Theorem integrated_flush_spec t : thread_inv partitioner local wait fuel Hok t → thread_pins partitioner local wait fuel Hok t = ∅ →
  ∃ w', IntegratedCache.flush partitioner (sp_pages (W := W)) local fuel rounds t = Ok (new_thread w') ∧ sp_inv w' ∧ sp_held w' = ∅ ∧
    unchanged (shared_cache_of t) w'.
Proof.
  intros Hi Hnone. unfold thread_inv, thread_pins, seen_held in *. destruct (thread_direct t) as [d|] eqn:Ed.
  - set (c := get_private_cache partitioner local t).
    assert (view partitioner local t = (d, c)) as Ev by (unfold view, get_direct_cache; by rewrite Ed).
    rewrite Ev in Hi, Hnone. cbn [fst snd] in *.
    destruct (flush_ok _ d c Hi) as (d' & c' & E & Hd' & Hh' & Hu'). destruct (flush_private c' (di_inv _ d' c' Hd')) as (w' & Ef & Hi' & Hn' & Hs').
    { exact (eq_trans Hh' Hnone). }
    exists w'. split; [|split; [done|split; [done|]]].
    + unfold IntegratedCache.flush. rewrite Ed. fold c.
      lazymatch goal with |- context [@DirectCache.flush ?A ?B d c] => assert (@DirectCache.flush A B d c = Ok (d', c')) as E' by exact E end.
      rewrite (bind_rew _ _ _ E'). exact Ef.
    + pose proof (shared_of_view partitioner local t) as Es. rewrite Ev in Es. cbn [snd] in Es. rewrite <- Es.
      apply (unchanged_trans _ (world c')); [exact Hu'|done].
  - apply flush_no_direct; [done|apply Hi|]. rewrite (fresh_direct_view t Ed), create_own in Hnone by apply Hi. exact Hnone.
Qed.
End flush.

(** ** Two partitions over a flat space *)
Section witnesses.
Import SpaceSpec.Flat.

(** A thread that has page 1 in its direct and its private cache. *)
Definition used_thread : thread flat := (IntegratedCache.access (H := shared_of_space Ok) halves 4 4 1 (new_thread counting) 1 true).1.

Lemma used_thread_inv : thread_inv halves 4 Ok 1 halves_ok used_thread ∧ thread_pins halves 4 Ok 1 halves_ok used_thread = ∅.
Proof.
  destruct (sp_access_law (SpaceSpec := thread_spec halves 4 Ok 1 1 halves_ok) (new_thread counting) 1 true fresh_thread_inv) as (t & a & E & Hi & Hh & _); [by split|].
  cbn [sp_access thread_space] in E. change used_thread with (IntegratedCache.access (H := shared_of_space Ok) halves (sp_pages (W := flat)) 4 1 (new_thread counting) 1 true).1.
  destruct (IntegratedCache.access _ _ _ _ _ _ _) as [t' r]. apply bind_Ok in E as (a' & _ & [= -> _]). split; [exact Hi|]. exact (eq_trans Hh eq_refl).
Qed.

Lemma flat_wait_ok : wait_ok (W := flat) Ok.
Proof. intros w Hw. by exists w. Qed.

Lemma integrated_flush_spec_witness : ∃ w', IntegratedCache.flush (H := shared_of_space Ok) halves 4 4 1 1 used_thread = Ok (new_thread w') ∧ sp_held w' = ∅.
Proof.
  destruct used_thread_inv as [Hi Hn]. destruct (integrated_flush_spec halves 4 Ok 1 halves_ok flat_wait_ok 1 ltac:(lia) used_thread Hi Hn) as (w' & E & _ & Hw & _).
  exists w'. split; [exact E|exact Hw].
Defined.
End witnesses.
