(* ===== verification/PageAccess.v ===== *)
(** * Reading and writing a part of a page

    [get] and [set] of [include/shared_cache.hpp] and of
    [include/private_cache.hpp]: the page is pinned, the bytes are copied and the
    page is unpinned.  The two classes have the same text over their own [pin]
    and [unpin], those of [Frames] here. *)
From stdpp Require Import gmap list.
From S2P Require Import Prelude Util SharedCache CachedPtr SpaceSpec CachedAllocator Bind Contents.

Open Scope Z_scope.

Section page_access.
Context {W : Type} `{Frames W} (sc : shared_cache).

(** [SharedCache::get]; [data] is an address of the program's memory. *)
Definition get (w : W) (addr size data : Z) : result W :=
  _ ← SharedCache.check_addr sc addr size;
  let vpage_id := Z.shiftr addr CACHE_PAGE_BITS in
  '(w, page_pointer) ← sp_pin w vpage_id;
  let addr_offset := Z.land addr CACHE_PAGE_MASK in
  let w := real_memcpy w data (page_pointer + addr_offset) (Z.to_nat size) in
  sp_unpin w vpage_id false.

(** [SharedCache::set]. *)
Definition set (w : W) (addr size data : Z) : result W :=
  _ ← SharedCache.check_addr sc addr size;
  let vpage_id := Z.shiftr addr CACHE_PAGE_BITS in
  '(w, page_pointer) ← sp_pin w vpage_id;
  let addr_offset := Z.land addr CACHE_PAGE_MASK in
  let w := real_memcpy w (page_pointer + addr_offset) data (Z.to_nat size) in
  sp_unpin w vpage_id true.
End page_access.

(** [PrivateCache::get] and [PrivateCache::set], which check the address with the
    shared cache below. *)
Definition private_get {W} `{Frames W} (sc : shared_cache) (w : W) (addr size data : Z) : result W := get sc w addr size data.
Definition private_set {W} `{Frames W} (sc : shared_cache) (w : W) (addr size data : Z) : result W := set sc w addr size data.

(** ** What they do *)
Section correct.
Context {W : Type} `{PinSpec W} (sc : shared_cache).
Context (Hsize : virt_size sc = sp_pages * PAGE).

(** The conditions under which the code does not assert. *)
Definition in_one_page (addr size : Z) : Prop := 0 ≤ addr ∧ 0 ≤ size ∧ addr + size < virt_size sc ∧ addr mod PAGE + size ≤ PAGE.

Lemma check_addr_ok addr size : in_one_page addr size → SharedCache.check_addr sc addr size = Ok tt.
Proof using Hsize.
  intros (Ha & Hs & Hend & Hpage). destruct sp_size as [_ Hmax]. pose proof (page_offset_split addr). pose proof CACHE_PAGE_SIZE_eq.
  unfold SharedCache.check_addr. rewrite page_offset_mod, !w64_small by lia.
  rewrite (proj2 (Z.ltb_lt _ _)) by lia. cbn [assert mbind result_bind]. rewrite (proj2 (Z.leb_le _ _)) by lia. done.
Qed.

Lemma space_page addr size : in_one_page addr size → 0 ≤ addr / PAGE < sp_pages.
Proof using Hsize. intros (Ha & Hs & Hend & _). apply page_in_space. lia. Qed.

(** The bytes of the page at the pinned frame, and those of the program. *)
Lemma page_denotes w addr size f i : in_one_page addr size → frame w (addr / PAGE) f → 0 ≤ i < size →
  denotes w (f + addr mod PAGE + i) (shift (LPage addr) i) ∧ loc_page (shift (LPage addr) i) ⊆ {[addr / PAGE]}.
Proof.
  intros (Ha & Hs & _ & Hpage) [k Hk] Hi. cbn [shift denotes loc_page]. destruct (page_same addr i) as [-> ->]; [lia|lia|].
  split; [|done]. exists f, k. split; [done|lia].
Qed.

Lemma pin_page w addr size : sp_inv w → grants w (λ _, 0) → in_one_page addr size → ∃ w1 f, sp_pin w (addr / PAGE) = Ok (w1, f) ∧
  balance w w1 (one (addr / PAGE)) ∧ frame w1 (addr / PAGE) f ∧ sp_written w1 = sp_written w ∧ same_contents w w1.
Proof using Hsize.
  intros Hi Hg Hin. destruct (bal_pin w w _ (addr / PAGE) (balance_refl w Hi) Hg (space_page addr size Hin)) as (w1 & f & E & Hb & Hf & _ & Hw & Hs).
  exists w1, f. split; [done|]. split; [apply (balance_ext _ _ _ _ Hb); intros v; lia|done].
Qed.

Lemma unpin_page w w2 addr is_write : sp_inv w → balance w w2 (one (addr / PAGE)) →
  is_write = true ∨ sp_written w2 ⊆ sp_written w → ∃ w3, sp_unpin w2 (addr / PAGE) is_write = Ok w3 ∧ sp_inv w3 ∧ sp_held w3 = sp_held w ∧ same_contents w2 w3.
Proof using Hsize.
  intros Hi Hb Hw. destruct (bal_unpin w w2 _ (addr / PAGE) is_write Hb) as (w3 & E & Hb3 & _ & _ & _ & Hs); [unfold one; by rewrite decide_True|done| |].
  - destruct Hw as [->|Hw]; [by left|]. destruct (decide (addr / PAGE ∈ sp_written w2)) as [Hin|]; [right; right|by right; left].
    apply Hw in Hin. pose proof (sp_written_law w _ Hi Hin) as Hh. rewrite (bal_pins _ _ _ Hb). unfold one. rewrite decide_True by done.
    destruct (sp_held w !! (addr / PAGE)) as [[f k]|] eqn:E; [|done]. rewrite (frame_pins w _ f k E). destruct (sp_held_law w _ f k Hi E). lia.
  - exists w3. split; [done|]. split; [apply (bal_inv _ _ _ Hb3)|]. split; [|done]. apply balance_end; [done|].
    apply (balance_ext _ _ _ _ Hb3). intros v. lia.
Qed.

Lemma get_page w addr size data : in_one_page addr size → get sc w addr size data =
  '(w, f) ← sp_pin w (addr / PAGE); sp_unpin (real_memcpy w data (f + addr mod PAGE) (Z.to_nat size)) (addr / PAGE) false.
Proof using Hsize. intros Hin. unfold get. rewrite check_addr_ok by done. cbn [mbind result_bind]. by rewrite page_id_div, page_offset_mod. Qed.

Lemma set_page w addr size data : in_one_page addr size → set sc w addr size data =
  '(w, f) ← sp_pin w (addr / PAGE); sp_unpin (real_memcpy w (f + addr mod PAGE) data (Z.to_nat size)) (addr / PAGE) true.
Proof using Hsize. intros Hin. unfold set. rewrite check_addr_ok by done. cbn [mbind result_bind]. by rewrite page_id_div, page_offset_mod. Qed.

(** C21: [get] of bytes that lie in one page copies them from the cached space to
    the program's memory, and [set] copies them back; both return while there
    is a frame for one pin more, change
    nothing else and leave every pin as it was: a [set] followed by a [get] of
    the same bytes reads what was written. *)
Theorem get_set_spec w addr size data : sp_inv w → grants w (λ _, 0) → in_one_page addr size → inside (LRaw data) size →
  (∃ w', get sc w addr size data = Ok w' ∧ changed w w' (LRaw data) size (λ i, contents w (LPage (addr + i)))) ∧
  (∃ w', set sc w addr size data = Ok w' ∧ changed w w' (LPage addr) size (λ i, contents w (LRaw (data + i)))).
Proof using Hsize.
  intros Hi Hg Hin Hraw. pose proof Hin as (Ha & Hs0 & Hend & Hpage). pose proof (inside_valid _ _ Hraw) as Hvraw.
  assert (valid_range (LPage addr) size) as Hvpage by done.
  destruct (pin_page w addr size Hi Hg Hin) as (w1 & f & Ep & Hb & Hf & Hw1 & Hs1).
  rewrite get_page, set_page, Ep by done. cbn [mbind result_bind]. split.
  - pose proof (real_memcpy_spec (Z.to_nat size) w1 data (f + addr mod PAGE) (LRaw data) (LPage addr) ∅ (bal_inv _ _ _ Hb)) as Hc.
    rewrite Z2Nat.id in Hc by done. destruct Hc as (Hi2 & Hh2 & Hw2 & Hc2); [|done|done|by intros i j _ _|].
    { intros i Hir. destruct (page_denotes w1 addr size f i Hin Hf Hir). split; [split; [done|by apply (Hvraw i)]|done]. }
    destruct (unpin_page w _ addr false Hi (balance_held _ _ _ _ Hb Hi2 Hh2)) as (w3 & -> & Hi3 & Hh3 & Hs3).
    { right. rewrite <- Hw1. intros v Hv. apply Hw2 in Hv. set_solver. }
    exists w3. split; [done|]. apply (changed_copied w w3 (LRaw data) (LPage addr)); [done|done|]. by eapply copied_same.
  - pose proof (real_memcpy_spec (Z.to_nat size) w1 (f + addr mod PAGE) data (LPage addr) (LRaw data) {[addr / PAGE]} (bal_inv _ _ _ Hb)) as Hc.
    rewrite Z2Nat.id in Hc by done. destruct Hc as (Hi2 & Hh2 & _ & Hc2); [|done|done|by intros i j _ _|].
    { intros i Hir. destruct (page_denotes w1 addr size f i Hin Hf Hir). split; [done|]. split; [split; [done|by apply (Hvraw i)]|done]. }
    destruct (unpin_page w _ addr true Hi (balance_held _ _ _ _ Hb Hi2 Hh2)) as (w3 & -> & Hi3 & Hh3 & Hs3); [by left|].
    exists w3. split; [done|]. apply (changed_copied w w3 (LPage addr) (LRaw data)); [done|done|]. by eapply copied_same.
Qed.
End correct.

Section witness.
Import SpaceSpec.Flat.

Definition four_pages : shared_cache := mk_shared_cache 16384 8192 4 2 2 1 (Build_RoundRobinPartitioner 1 4).

Lemma four_pages_size : virt_size four_pages = sp_pages (W := flat) * PAGE.
Proof. reflexivity. Qed.

Lemma get_set_spec_witness : ∃ w', get four_pages counting 4100 8 64 = Ok w' ∧ contents w' (LRaw 67) = contents counting (LPage 4103).
Proof.
  destruct (get_set_spec four_pages four_pages_size counting 4100 8 64 counting_inv) as [(w' & E & _ & _ & Hc & _) _].
  - by intros v _.
  - change (0 ≤ 4100 ∧ 0 ≤ 8 ∧ 4100 + 8 < 16384 ∧ 4 + 8 ≤ 4096). lia.
  - split; [lia|]. split; [lia|]. intros i Hi. change (0 < 64 + i < 2 ^ 20). lia.
  - exists w'. split; [exact E|]. apply (Hc 3). split; [discriminate|reflexivity].
Defined.
End witness.
