(* ===== verification/AccessCounter.v ===== *)
(** * Access counters

    [class AccessCounter] of [include/access_counter.hpp] in the build with
    [ENABLE_PROFILE]: four 64-bit counters per cache.  A guard reads the time
    stamp when it is made and counts the cycles when it goes out of scope.  In
    the build without it every operation is empty. *)
From S2P Require Import Prelude.

Open Scope Z_scope.

Record access_counter := mk_counter {
  profile_num_access : Z;
  profile_num_miss : Z;
  profile_cycle_access : Z;
  profile_cycle_miss : Z;
}.

Definition clear : access_counter := mk_counter 0 0 0 0.

Definition count_access (c : access_counter) : access_counter :=
  mk_counter (w64 (profile_num_access c + 1)) (profile_num_miss c) (profile_cycle_access c) (profile_cycle_miss c).
Definition count_miss (c : access_counter) : access_counter :=
  mk_counter (profile_num_access c) (w64 (profile_num_miss c + 1)) (profile_cycle_access c) (profile_cycle_miss c).

Definition count_access_with_cycles (c : access_counter) (t : Z) : access_counter :=
  let c := count_access c in
  mk_counter (profile_num_access c) (profile_num_miss c) (w64 (profile_cycle_access c + t)) (profile_cycle_miss c).
Definition count_miss_with_cycles (c : access_counter) (t : Z) : access_counter :=
  let c := count_miss c in
  mk_counter (profile_num_access c) (profile_num_miss c) (profile_cycle_access c) (w64 (profile_cycle_miss c + t)).

(** The counts are moved to [other]. *)
Definition flush (c other : access_counter) : access_counter * access_counter :=
  (clear,
   mk_counter (w64 (profile_num_access other + profile_num_access c)) (w64 (profile_num_miss other + profile_num_miss c))
     (w64 (profile_cycle_access other + profile_cycle_access c)) (w64 (profile_cycle_miss other + profile_cycle_miss c))).

(** [access_guard] around code that takes [c] to what it returns, entered at
    time stamp [t0] and left at [t1]. *)
Definition access_guard (c : access_counter) (t0 t1 : Z) : access_counter := count_access_with_cycles c (w64 (t1 - t0)).
Definition miss_guard (c : access_counter) (t0 t1 : Z) : access_counter := count_miss_with_cycles c (w64 (t1 - t0)).

(** The accesses two counters hold together. *)
Definition accesses (c other : access_counter) : Z := w64 (profile_num_access c + profile_num_access other).
Definition misses (c other : access_counter) : Z := w64 (profile_num_miss c + profile_num_miss other).

(** Moving the counts of a thread to the global counter loses none. *)
Lemma flush_conserves c other : let '(c', other') := flush c other in
  accesses c' other' = accesses c other ∧ misses c' other' = misses c other ∧ c' = clear.
Proof.
  unfold flush, accesses, misses, w64. cbn [profile_num_access profile_num_miss clear].
  rewrite !Z.add_0_l, !Z.mod_mod by lia. split_and!; [f_equal; lia..|done].
Qed.
